(* ===== verification/_CoqProject ===== *)
-Q . S2P
Prelude.v
Regex.v
Markdown.v
TestCounts.v
Spec.v
SpecRoundTrip.v
SpecValid.v
Change.v
Merge.v
Samples.v
MergeFacts.v
Effective.v
Regression.v
Runner.v
Shell.v
Domains.v
DomainFacts.v
PersonMatch.v
PersonGrants.v
PersonFacts.v
GrantRace.v
State.v
Roadmap.v
RoadmapFacts.v
Next.v
NextFacts.v
Command.v
Lifecycle.v
Guards.v
GuardFacts.v
SubjectGuard.v
Paths.v
Policy.v
PolicyFacts.v
Workspaces.v
Executor.v
ExecutorFacts.v
ExecutorSamples.v
GateScript.v
Authz.v
AuthzFacts.v
Duration.v
Reaper.v
CredSync.v
IPAddr.v
EgressNet.v
Netd.v
AddressFacts.v
NetdFacts.v
Egress.v
EgressFacts.v
EgressRestart.v
Toolchain.v
Descriptor.v
Resolver.v
ResolverFacts.v
EditGuard.v
EditFacts.v
StopHook.v
StopFacts.v
Milestone.v
MilestoneFacts.v
MilestoneSamples.v
LifecycleFacts.v
LifecycleSpecs.v
Replans.v
LifecycleSamples.v
Prices.v
PriceFacts.v
Pipeline.v
PipelineRun.v
PipelineFacts.v
PipelineManifest.v
Service.v
ServiceFacts.v
Nesting.v
ServiceSamples.v
Locks.v
Decisions.v
DecisionFacts.v
