(* ===== verification/Prelude.v ===== *)
(** * The APEX v1 loop of [ape]: a verification of its core

    [ape] is a command-line engine that drives specification-first development. A
    project keeps, under development/, one spec.md per capability, a roadmap of
    milestones, a next.md of findings, and one folder per change with a change.md (its
    delta to the specs and its tasks) and a state.json. The commands parse and check
    these documents, start a change on a branch of its own, run the checks its plan
    and the effective spec name, record verify, review and acceptances, and archive
    the change by merging its delta into the specs. Hooks that run before a model
    session's tools, on its prompts and at its stops keep the session to that loop: they
    deny edits and commands that would forge a record, hold a person's decisions to the
    person's own words, and run the red checks before a turn ends.

    Around that loop are the engines that run sessions: pipelines of skills, typed step by
    step into terminal sessions with a manifest of what was done and what it cost; a job
    daemon that admits and starts jobs for clients on a message bus; and the rule that says
    which session may start another, with the locks that go with it.

    The other half of the program is the sandbox: a daemon, aped, that runs workspaces in
    virtual machines. Its front, without privileges, resolves a create request into a spec,
    runs each workspace's egress proxy, hears the agents in the guests and stops idle
    workspaces; its executor, root and without a network, checks every command against the
    policy and provisions; a small helper, aped-netd, wires each workspace's network link.

    ** The program's parts and the files that model them

    All Go paths are under src/internal/.

    - [Prelude]: Go strings as byte lists and the functions of package strings the code
      uses, with their lemmas; the notations [=s] and [<>s], the tactics [split_match],
      the hint database [go].
    - [Regex]: package regexp as a backtracking matcher over UTF-8 with captures, and
      its specification [mt] (soundness and completeness of the search).
    - [Markdown]: apexv1/markdown.go, the line scanner with code fences, headings,
      sections, check lines.
    - [Spec]: apexv1/spec.go (and capSize of caps.go): ParseSpec, Render, Find,
      ValidateSpec, nearMiss, editDistance. [SpecRoundTrip] and [SpecValid] hold its
      theorems.
    - [TestCounts]: apexv1/testcounts.go: the counts ten test runners' summaries give, and
      the verdict on a run that only skipped.
    - [Change]: frontmatter/frontmatter.go and apexv1/change.go: ParseChange with the delta
      and task grammars, PlanDigest, PlanBytes, scenarioLoss. The YAML reader and sha256
      are parameters ([Yaml], [sha256]).
    - [Merge]: the merge of archive.go (MergeDelta, applyDeltas), the delta checks of
      changes.go (checkDeltas, checkRetire) and the text rewrites of rewritelive.go.
      [MergeFacts] holds its theorems, [Samples] concrete documents.
    - [Effective]: apexv1/effective.go: the checks of the effective spec and the tasks,
      their run with de-duplication, retries and interruption.
    - [Regression]: testnames.go and regression.go: the names of failing tests, and the
      verdict on a red regression run against its baseline.
    - [Runner]: runner.go, vacuous.go and shellnote.go: from the exit of a check's shell and
      its output to the result recorded, with its theorems.
    - [State]: the records of state.go, attempts.go, human.go and baseaccept.go.
    - [Roadmap]: apexv1/roadmap.go, with theorems in [RoadmapFacts]. ParseTokens and the
      number parsers are parameters.
    - [Next]: apexv1/next.go and nextmove.go: next.md and the move of a roadmap's Next
      block into it; theorems in [NextFacts].
    - [Lifecycle]: lifecycle.go, catchup.go, blocks.go, attempts.go, answer.go, tweak.go,
      review_run.go, the settling of a delegate's session of delegate.go, archive.go's
      Archive and Abandon, branch.go's names and the loop limits of limits.go.
      [LifecycleFacts], [LifecycleSpecs] and [Replans] hold its theorems,
      [LifecycleSamples] a run of a whole life.
    - [Shell]: the shell lexer and scanner of tagguard.go, and the functions of
      path/filepath they use, with the round trip of written command lines.
    - [Guards]: the guards of tagguard.go, bashguard.go and rebaseguard.go on a session's
      commands; theorems in [GuardFacts]. [SubjectGuard]: subjectguard.go, with its own.
    - [PersonMatch], [PersonGrants]: personact.go (the words of a person's act, the prompts
      recorded, the transcript, the grants), requirePerson of session.go and
      takePersonAct of apecmd/v1_personact.go; theorems in [PersonFacts]. [GrantRace]: the
      grants' files under hooks and commands that interleave, one file operation at a time.
    - [Paths]: filepath.Dir and Rel with lemmas on clean paths. [EditGuard]: pre-tool of
      hooks.go with the protected paths, the briefs, the running checks and FindRoot of
      layout.go; theorems in [EditFacts].
    - [StopHook]: the stop hook of hooks.go, with lastverify.go; theorems in [StopFacts].
    - [Command]: the errors and the monad of commands, and the rule [wp] their theorems are
      proved by, for any world.
    - [GateScript]: gatescript.go, the lexer of a gate line and the scripts it runs, with
      its theorems.
    - [Milestone]: milestone.go, approval.go, gateselfcheck.go, fullrun.go, GatePreflight of
      gaterecall.go, the drift of gateown.go and the archive of gatefolder.go; theorems in
      [MilestoneFacts], a milestone's life in [MilestoneSamples].

    - [Decisions]: decision.go, standard.go with the text that is built in, stalespec.go, and of
      project.go and approval.go what checks and records decisions; theorems and a project's
      history in [DecisionFacts].

    Sessions and jobs:

    - [Prices]: cost/prices.go, modelarg.go, overrides.go and formula.go: the spellings of a
      model, the price table and its overrides, what a turn costs in float64; [PriceFacts],
      with the table that is built in.
    - [Pipeline]: pipeline/spec.go, commit.go, extensions.go, effort.go, preflight.go and
      effort/effort.go. [PipelineRun]: runner.go, interactive.go, the manifest of
      manifest_writer.go, and the lines of repl/deliver.go. Theorems in [PipelineFacts] and
      [PipelineManifest], which ends with examples.
    - [Service]: the job daemon of service/: admissions, job table, allowlist, argv, and the
      handlers as threads; [ServiceFacts], [ServiceSamples].
    - [Nesting]: apexv1/nesting.go, allowlist.go and apecmd/nesting.go: which session may start
      which, and the daemon's gate of apecmd/service_submit.go, with its theorems.
    - [Locks]: the lock files of apecmd/nesting.go and apexv1/runlock.go under contention, as
      instances of the class [LockProtocol] with the laws [LockLaws]; their theorems.

    The sandbox and its daemon:

    - [Domains]: the domain patterns, their intersection, the matcher and the proxy's
      decision of sandbox/profile.go, egressnet.go, match.go and proxy.go; lemmas in
      [DomainFacts]. strings.ToLower is a parameter with the law [Lowering].
    - [Policy]: aped/policy.go; [PolicyFacts] refines it to the declarative [Permitted].
      [Workspaces]: the spec of a workspace and the binds it gives the guest.
    - [Executor]: the executor's connection, commands, audit trail and sessions
      (aped/exec.go, execstream.go, command.go, audit.go), over a backend and a host that
      may fail anywhere; [ExecutorFacts], [ExecutorSamples].
    - [Authz]: subject tokens and grants (aped/authz.go, natsconn/identity.go);
      [AuthzFacts].
    - [Duration]: time.ParseDuration with its float64 fraction (Stdlib's SpecFloat), and
      sandbox/idlestop.go. [Reaper]: aped/reaper.go, with its theorems.
    - [CredSync]: aped/credsync.go, a pass over the published credential and the workspaces'
      copies, with its theorems.
    - [IPAddr]: addresses and subnets of net and net/netip, IPv4 and IPv6. [EgressNet]: the
      plan of a link, the allocators and the commands (sandbox/egressnet.go); lemmas in
      [AddressFacts]. [Netd]: the helper of netd/; [NetdFacts].
    - [Egress]: the supervisor of aped/egress.go with its records on disk, and the change of
      an allowlist of aped/vmm.go; [EgressFacts], and its restarts in [EgressRestart].
    - [Toolchain]: sandbox/toolchain.go with its theorem. [Descriptor]: the project's
      descriptor and the mounts of the command line (sandbox/descriptor.go). [Resolver]:
      aped/resolver.go, over any planner of egress (the class [EgressPlanner]);
      [ResolverFacts] has its theorems, with the supervisor as the planner.

    ** How the state and the operations correspond

    Pure functions of the source are functions here, of the same name where Rocq allows
    it; a loop is a fold of a [_step] function or a structural recursion. A command of
    the lifecycle is a [Cmd]: a function from a [World] (the change's state.json, its
    attempts, its milestone's block count, the acceptances its base branch records, the
    branch HEAD is on, whether the change's branch exists, and the specs of the tree)
    to a world and an error or a result. Errors keep their Go type and code, not their
    message. Everything a command asks of its surroundings — git, the file system, the
    clock, the configuration, the exit of each check — is a field of the record [Host],
    and each theorem about a command holds for every host: any save, commit, switch or
    run may fail. Fields asked at several places of one command (the SHA of HEAD,
    whether code moved since a commit) take the place as an argument; the change.md of a
    command does not change while it runs.

    A milestone's command is a [MCmd], over the world [MWorld] (roadmap.md, milestones.json,
    the logs of the last gate and full runs, the gate folders moved) and the host [MHost]; a
    person may edit roadmap.md while a run lasts ([mh_edited]). The decisions' commands are over
    [DWorld] (the files of decisions/, decisions.json) and [DHost]; their histories ([dstep])
    include what is written by hand. The hooks are functions of
    what they read: the session's environment, the project and the files asked about.

    A component of the daemon is a record of its state and a function per operation, from
    the state and the host's answers to the state and a reply: [EgressSupervisor], [Netd],
    [Reaper]. What its mutex serialises is one step here; a history is an inductive relation
    ([egress_reach], [netd_reach]) over any sequence of steps, restarts included, each under
    any answers of the host, or, of the reaper, a list of messages and ticks ([reaper_run]),
    a tick with the messages handled between its own look-ups ([Slot]). The executor's
    commands are in a monad of their own, which keeps what was done and recorded in order,
    and what of the records a log took that may fail.

    A pipeline's run is in a monad of acts and of the manifest ([R]), over a host [RunHost]
    whose sessions, git and files may fail at any step; its errors are the chains errors.Is
    walks. The job daemon is finer: a handler takes several locks one after the other, so what
    it has left to do is a [Thread], a step of the daemon is one locked action of one thread,
    and a history ([daemon_run], [daemon_reach]) is any interleaving of them. A lock file's
    contenders step one operation on the file system at a time ([lock_events]).

    ** What the theorems show

    - Documents: a rendered spec parses back; ValidateSpec finds nothing exactly in
      well-formed specs; editDistance is the least script; nearMiss is right; writing a
      milestone's status changes nothing else; NextID is fresh; a line added to next.md is
      read back, and the move of Next carries its block and keeps every other line.
    - Deltas: a change whose check is green merges without conflict, and the checks of its
      effective spec are those of the specs its archive writes.
    - Runs: a check is recorded green exactly when its shell exited 0 and its output shows
      a test ran; each command runs once per run; retries, flakiness and the regression
      verdict are as documented; a green verify ran every check the documents owe.
    - The lifecycle: no command, in any order and with any failure, leaves a status its
      records do not bear out; what is archived is what was proved; starts that fail are
      undone as far as git lets them; a re-start cannot launder a baseline; red verifies and re-plans are bounded by the limits; an ended change is
      over.
    - The guards: however a line of simple commands quotes its words, uses wrappers without
      options or nests scripts of a shell's -c, a push, a kill by name or a commit under
      ape's own subject in it is denied, and lines of other programs are let through; an
      edit of a protected file is denied under every spelling of its path and through links
      to its folder, and other edits are allowed; FindRoot ends at the nearest mark.
    - A person's acts: in a model session one is done only on a prompt the person typed in
      that session that asks for it, as the transcript shows; a grant is used once whatever
      processes race for it, and words are spent once where they do not.
    - The stop hook: it blocks only for a cause it names, never more than three times in a
      row while its record can be written, and its runs keep to their budget.
    - Milestones: a milestone is closed only on an approval on record, an unchanged gate and
      a gate run that is green in every part, or red and accepted by a person; what a person
      approved is what the gate runs; the records are sound after any sequence of commands,
      edits and failures; the scripts of a gate line are the ones its commands run.
    - Decisions: over any history a recorded decision is the text it was accepted with, and an
      edit of anything but its Status: lines is reported; it is accepted only by a person; the
      standard ADR-0001 replaces only what is the framework's, and once written nothing is due;
      every lasting check that stands on a file it removed is listed. Under these is the proof
      that the rewriting of status lines by a regular expression is one of lines.
    - Pipelines: a run types exactly the planned steps, in order, in one session at a time;
      its manifest is the plan carried out as far as it went, with the commits that landed, and
      its totals are those of its records; a stage's commits are what the levels of the spec say.
    - Prices: whatever the price file holds, no model is billed at zero by mistake; saved
      overrides are read back.
    - Jobs: over any interleaving an exclusive job is alone on its key and no slot leaks, the
      job table tells what became of every job, and a child is started only where, and for
      whom, the configuration and the nesting rule allow.
    - Sessions: a session starts another only as the nesting rule says, whatever its
      environment claims; every attempt at a lock ends, and a lock stays its holder's while
      the others look before they act.
    - The executor: it provisions only for an allowed peer a spec the policy permits, and
      every act has one record, which the reply carries also where the log is lost; the policy's checks are exactly the declared
      permission; a workspace's credential reaches no other workspace.
    - Egress: a workspace's proxy dials only what the policy in force and a request of that
      workspace allow, over any history of plans, stops, restarts and failures; a restart
      restores every proxy on its port; the helper's leases stay apart and usable, the
      allocator gives the least free address, and a link is wired whole or removed.
    - The front: a resolved spec's binds are accounted for one by one and its egress passes
      the policy; the reaper stops exactly the workspaces that are idle by what their own
      agents said; the words of the set-up script are read back as they are; a pass over the
      credentials spreads only a logged-in session, creates no file and settles.
    - Behaviours the code's own comments deny, each proved on the model
      ([revoke_keeps_egress], [set_moves_port], [destroyed_revived], [delete_stuck],
      [user_mount_shadows], [restarted_reaped], [idle_stop_sooner], [setup_injects],
      [ceilings_open], [binds_unchecked], [recreate_cuts_egress], [tokens_collide],
      [guards_miss], [approve_loses_edit], [answer_outside_git_keeps_count],
      [conflicted_start_keeps_attempts], [rewrite_live_in_fence], [move_alters_item],
      [late_reading_loses_exit], [full_red_not_taken], [refresh_undone], [torn_overwritten],
      [family_zero], [opt_out_cancels_siblings], [landed_unrecorded], [agent_unrecorded],
      [twin_stages_panic], [stop_before_pid], [drained_then_spawns], [root_not_as_checked],
      [skill_is_flag], [two_session_holders], [two_after_stale], [two_run_holders],
      [status_prose_lost], [opt_out_undone], [standard_torn], [init_calls_opt_out_differs],
      [number_overflow], [start_left_behind], [issued_twice], [new_folder_let_through],
      [stop_held]).

    ** Fuel and bounds

    Few loops take fuel: prose_line is given the length of its line, and each round drops
    at least three bytes of it; the regular expressions' star is run with the length of
    the text left, and each round consumes at least one byte; containsWord and mentionsVar
    move their offset on in each round, at most the text's length times; the shell lexer,
    unwrap and the blocks of a tag line drop a byte or a word in each round and are given
    the length of what they read, and so are the gate line's lexer and its quoted text;
    FindRoot's walk drops an element of its path; a duration's rounds take a unit each
    ([duration_fuel]); an IPv6 address has at most eight groups; each round of collapse
    shortens the model's name it is given the length of; the walk up the process tree takes
    64 ancestors, as the source's does; the reader of a check's absences takes at least a
    byte in each round, and the search for a name moves past it. Decisions are numbered to
    9999, which a history's new ones keep to. Integers of the
    source are Go ints that stay small (lengths and line numbers); what is read from a
    document or an output (roadmap ids, test counts) is summed at 64 bits ([wrap64]).

    ** What is not modelled

    The messages of errors, JSON and YAML encodings, git itself and processes, which are
    the host's; the recovery of an interrupted archive; the updates and removals of a
    run's lock by others than its takers, and the retargeting of session locks; the scan of a gate's scripts for the files they source, and the status
    reports of apexv1; in the daemon, sockets and the message bus, the composed home of a
    workspace, the containerd driver, minting credentials; of a pipeline's run, the bytes of
    its sessions, times, event logs and the report; of the job daemon, the bus, health and
    signals; of the decisions, folders in decisions/ and what the lift reads; the cost reports over session logs, the session drivers, the framework's
    installer, the commands' flags and output, the records of the earlier process, and
    terminal screens. These are I/O around what is modelled, or one-off migrations. Parts of
    the core that are left out: the scan of gateown.go, the budgets of limits.go and the
    requirements of a check. *)
From stdpp Require Export base tactics list countable gmap sorting.
From Stdlib Require Export Strings.Byte Lia ZArith.
From Stdlib Require Strings.String Numbers.DecimalString.

(** ** Notations, tactics and hint databases *)

Declare Scope go_scope.
Delimit Scope go_scope with go.

(** A Go string is a sequence of bytes. Literals are written as Rocq strings
    (UTF-8, as in a Go source file) and coerced. *)
Abbreviation gostring := (list byte).

Definition bs (s : String.string) : gostring := String.list_byte_of_string s.
Coercion bs : String.string >-> list.
Arguments bs : simpl never.
String Notation String.string String.string_of_list_byte String.list_byte_of_string : go_scope.
Open Scope go_scope.

Create HintDb go discriminated.
Create Rewrite HintDb golists.

(** [simp_list] normalises list lengths and appends. *)
Ltac simp_list := repeat (rewrite ?length_app, ?length_rev, ?length_map, ?length_take, ?length_drop in * ); simpl in *.

(** [split_match] destructs the scrutinee of an [if] or a [match] of the goal. *)
Ltac split_match :=
  match goal with
  | |- context [ match ?x with _ => _ end ] =>
      lazymatch x with
      | context [ match _ with _ => _ end ] => fail
      | _ => destruct x eqn:?
      end
  end.

(** [split_match_in H] does the same in a hypothesis. *)
Ltac split_match_in H :=
  match type of H with
  | context [ match ?x with _ => _ end ] =>
      lazymatch x with
      | context [ match _ with _ => _ end ] => fail
      | _ => destruct x eqn:?
      end
  end.

#[export] Instance byte_eq_dec : EqDecision byte := Byte.byte_eq_dec.

#[export] Program Instance byte_countable : Countable byte :=
  inj_countable Byte.to_N Byte.of_N _.
Next Obligation. intros b. apply Byte.of_to_N. Qed.

(** The double quote, which a literal cannot hold. *)
Definition dq : gostring := [x22].

(** Go's [==] on strings. *)
Notation "s =s t" := (bool_decide (@eq (list byte) s t)) (at level 70, no associativity) : go_scope.
Notation "s <>s t" := (negb (bool_decide (@eq (list byte) s t))) (at level 70, no associativity) : go_scope.

(** ** Prefixes and suffixes *)

(** strings.HasPrefix *)
Fixpoint HasPrefix (s p : gostring) {struct p} : bool :=
  match p, s with
  | [], _ => true
  | _, [] => false
  | c :: p', d :: s' => Byte.eqb c d && HasPrefix s' p'
  end.

(** strings.HasSuffix *)
Definition HasSuffix (s p : gostring) : bool := HasPrefix (rev s) (rev p).

(** strings.TrimPrefix *)
Definition TrimPrefix (s p : gostring) : gostring :=
  if HasPrefix s p then drop (length p) s else s.

(** strings.TrimSuffix *)
Definition TrimSuffix (s p : gostring) : gostring :=
  if HasSuffix s p then take (length s - length p) s else s.

(** strings.CutPrefix *)
Definition CutPrefix (s p : gostring) : gostring * bool :=
  if HasPrefix s p then (drop (length p) s, true) else (s, false).

Lemma byte_eqb_eq b c : Byte.eqb b c = true <-> b = c.
Proof.
  split; [apply Byte.byte_dec_bl | apply Byte.byte_dec_lb].
Qed.

Lemma byte_eqb_refl b : Byte.eqb b b = true.
Proof. by apply byte_eqb_eq. Qed.

Lemma HasPrefix_spec s p : HasPrefix s p = true <-> exists t, s = p ++ t.
Proof.
  revert s. induction p as [|c p IH]; intros s; simpl.
  - split; [by eexists | done].
  - destruct s as [|d s]; [split; [done | intros [? Hx]; discriminate Hx]|].
    rewrite andb_true_iff, byte_eqb_eq, IH. split.
    + intros [-> [t ->]]. by exists t.
    + intros [t [= -> ->]]. eauto.
Qed.

Lemma HasPrefix_app p t : HasPrefix (p ++ t) p = true.
Proof. apply HasPrefix_spec. eauto. Qed.

Lemma HasPrefix_app_r s p t : HasPrefix s p = true -> HasPrefix (s ++ t) p = true.
Proof. rewrite !HasPrefix_spec. intros [u ->]. exists (u ++ t). by rewrite app_assoc. Qed.

Lemma TrimPrefix_app p t : TrimPrefix (p ++ t) p = t.
Proof. unfold TrimPrefix. rewrite HasPrefix_app. apply drop_app_length. Qed.

Lemma HasPrefix_length s p : HasPrefix s p = true -> length p <= length s.
Proof. rewrite HasPrefix_spec. intros [t ->]. simp_list. lia. Qed.

Lemma HasSuffix_spec s p : HasSuffix s p = true <-> exists t, s = t ++ p.
Proof.
  unfold HasSuffix. rewrite HasPrefix_spec. split; intros [t H].
  - exists (rev t). rewrite <- (rev_involutive s), H, rev_app_distr, rev_involutive. done.
  - exists (rev t). by rewrite H, rev_app_distr.
Qed.

(** ** Trimming

    Go trims code points. The left end of a string starts with the code point
    [r] exactly when the string has [r]'s UTF-8 encoding as a prefix, and the
    right end ends with it exactly when it is a suffix, so a cutset is the list
    of its code points' encodings. *)

Fixpoint trim_left_skip (units : list gostring) (skip : nat) (s : gostring) : gostring :=
  match s with
  | [] => []
  | _ :: s' =>
      match skip with
      | S k => trim_left_skip units k s'
      | O =>
          match List.find (HasPrefix s) units with
          | Some u => trim_left_skip units (length u - 1) s'
          | None => s
          end
      end
  end.

(** strings.TrimLeft *)
Definition TrimLeft (s : gostring) (units : list gostring) : gostring := trim_left_skip units 0 s.

(** strings.TrimRight *)
Definition TrimRight (s : gostring) (units : list gostring) : gostring :=
  rev (trim_left_skip (map (@rev byte) units) 0 (rev s)).

(** strings.Trim *)
Definition Trim (s : gostring) (units : list gostring) : gostring :=
  TrimRight (TrimLeft s units) units.

(** The code points of unicode.IsSpace, encoded. *)
Definition spaces : list gostring :=
  [ [x20]; [x09]; [x0a]; [x0b]; [x0c]; [x0d];
    [xc2; x85]; [xc2; xa0]; [xe1; x9a; x80];
    [xe2; x80; x80]; [xe2; x80; x81]; [xe2; x80; x82]; [xe2; x80; x83]; [xe2; x80; x84];
    [xe2; x80; x85]; [xe2; x80; x86]; [xe2; x80; x87]; [xe2; x80; x88]; [xe2; x80; x89];
    [xe2; x80; x8a]; [xe2; x80; xa8]; [xe2; x80; xa9]; [xe2; x80; xaf]; [xe2; x81; x9f];
    [xe3; x80; x80] ].

(** strings.TrimSpace *)
Definition TrimSpace (s : gostring) : gostring := Trim s spaces.

(** No unit of [units] opens [s]. *)
Definition no_unit (units : list gostring) (s : gostring) : Prop :=
  Forall (fun u => HasPrefix s u = false) units.

Definition nonempty_units (units : list gostring) : Prop := Forall (fun u => u <> []) units.

Lemma find_none_units units s :
  List.find (HasPrefix s) units = None <-> no_unit units s.
Proof.
  unfold no_unit. induction units as [|u us IH]; simpl; [done|].
  rewrite Forall_cons. destruct (HasPrefix s u); [by split; [|intros []]|].
  rewrite IH. tauto.
Qed.

Lemma trim_left_skip_suffix units k s : exists p, s = p ++ trim_left_skip units k s.
Proof.
  revert k. induction s as [|c s IH]; intros k; simpl; [by exists []|].
  destruct k as [|k].
  - destruct (List.find _ _) as [u|]; [|by exists []].
    destruct (IH (length u - 1)) as [p Hp]. exists (c :: p). simpl. congruence.
  - destruct (IH k) as [p Hp]. exists (c :: p). simpl. congruence.
Qed.

Lemma trim_left_skip_no_unit units k s :
  nonempty_units units -> no_unit units (trim_left_skip units k s).
Proof.
  intros Hne. revert k. induction s as [|c s IH]; intros k; simpl.
  - eapply Forall_impl; [exact Hne|]. by intros [] ?.
  - destruct k; [|done]. destruct (List.find _ _) eqn:E; [done|].
    by apply find_none_units.
Qed.

Lemma trim_left_no_unit_id units s : no_unit units s -> TrimLeft s units = s.
Proof.
  unfold TrimLeft. destruct s as [|c s]; [done|]. simpl. intros H.
  by rewrite (proj2 (find_none_units _ _) H).
Qed.

Lemma no_unit_prefix units s t : no_unit units (s ++ t) -> no_unit units s.
Proof.
  intros H. eapply Forall_impl; [exact H|]. intros u Hu. simpl in Hu.
  destruct (HasPrefix s u) eqn:E; [|done].
  by rewrite (HasPrefix_app_r _ _ _ E) in Hu.
Qed.

Lemma TrimLeft_suffix s units : exists p, s = p ++ TrimLeft s units.
Proof. apply trim_left_skip_suffix. Qed.

Lemma TrimRight_prefix s units : exists q, s = TrimRight s units ++ q.
Proof.
  unfold TrimRight. destruct (trim_left_skip_suffix (map (@rev byte) units) 0 (rev s)) as [p Hp].
  exists (rev p). rewrite <- rev_app_distr, <- Hp. by rewrite rev_involutive.
Qed.

Lemma nonempty_units_rev units : nonempty_units units -> nonempty_units (map (@rev byte) units).
Proof.
  unfold nonempty_units. rewrite Forall_map. intros H. eapply Forall_impl; [exact H|].
  intros u Hu Hr. apply Hu. apply (f_equal (@rev byte)) in Hr. by rewrite rev_involutive in Hr.
Qed.

Lemma Trim_infix s units : exists p q, s = p ++ Trim s units ++ q.
Proof.
  unfold Trim. destruct (TrimLeft_suffix s units) as [p Hp].
  destruct (TrimRight_prefix (TrimLeft s units) units) as [q Hq].
  exists p, q. by rewrite <- Hq.
Qed.

Lemma no_unit_Trim s units : nonempty_units units -> no_unit units (Trim s units).
Proof.
  intros H. unfold Trim. destruct (TrimRight_prefix (TrimLeft s units) units) as [q Hq].
  apply (no_unit_prefix units _ q). rewrite <- Hq. by apply trim_left_skip_no_unit.
Qed.

Lemma TrimRight_idem s units : nonempty_units units ->
  TrimRight (TrimRight s units) units = TrimRight s units.
Proof.
  intros H. unfold TrimRight. rewrite rev_involutive. f_equal.
  apply trim_left_no_unit_id, trim_left_skip_no_unit, nonempty_units_rev, H.
Qed.

Lemma Trim_idem s units : nonempty_units units -> Trim (Trim s units) units = Trim s units.
Proof.
  intros H. unfold Trim at 1. rewrite trim_left_no_unit_id by by apply no_unit_Trim.
  unfold Trim. by apply TrimRight_idem.
Qed.

Lemma spaces_nonempty : nonempty_units spaces.
Proof. unfold nonempty_units, spaces. repeat (constructor; [done|]). constructor. Qed.

Lemma TrimSpace_idem s : TrimSpace (TrimSpace s) = TrimSpace s.
Proof. apply Trim_idem, spaces_nonempty. Qed.

#[export] Hint Resolve spaces_nonempty TrimSpace_idem : go.

(** ** Searching, splitting and joining *)

(** strings.Index, [None] for -1. *)
Fixpoint Index (s sub : gostring) : option nat :=
  if HasPrefix s sub then Some 0
  else match s with
       | [] => None
       | _ :: s' => S <$> Index s' sub
       end.

(** strings.Contains *)
Definition Contains (s sub : gostring) : bool := if Index s sub is Some _ then true else false.

(** strings.LastIndex, [None] for -1. *)
Fixpoint LastIndex (s sub : gostring) : option nat :=
  match s with
  | [] => if HasPrefix s sub then Some 0 else None
  | _ :: s' =>
      match LastIndex s' sub with
      | Some i => Some (S i)
      | None => if HasPrefix s sub then Some 0 else None
      end
  end.

(** strings.Cut and strings.CutLast, when the separator is found. *)
Definition Cut (s sep : gostring) : option (gostring * gostring) :=
  i ← Index s sep; Some (take i s, drop (i + length sep) s).
Definition CutLast (s sep : gostring) : option (gostring * gostring) :=
  i ← LastIndex s sep; Some (take i s, drop (i + length sep) s).

(** strings.Split on a one-byte separator. *)
Fixpoint split_byte (c : byte) (s : gostring) : list gostring :=
  match s with
  | [] => [[]]
  | d :: s' =>
      if Byte.eqb d c then [] :: split_byte c s'
      else match split_byte c s' with
           | [] => [[d]]
           | p :: ps => (d :: p) :: ps
           end
  end.

(** strings.Join *)
Fixpoint Join (l : list gostring) (sep : gostring) : gostring :=
  match l with
  | [] => []
  | [s] => s
  | s :: l' => s ++ sep ++ Join l' sep
  end.

Definition nl : byte := x0a.

Lemma split_byte_nonempty c s : split_byte c s <> [].
Proof. destruct s as [|d s]; simpl; [done|]. by repeat split_match. Qed.

Lemma Join_cons p ps sep : ps <> [] -> Join (p :: ps) sep = p ++ sep ++ Join ps sep.
Proof. by destruct ps. Qed.

Lemma Join_split_byte c s : Join (split_byte c s) [c] = s.
Proof.
  induction s as [|d s IH]; simpl; [done|].
  pose proof (split_byte_nonempty c s). destruct (Byte.eqb d c) eqn:E.
  - apply byte_eqb_eq in E as ->. rewrite Join_cons by done. simpl. by rewrite IH.
  - destruct (split_byte c s) as [|p ps]; [done|].
    destruct ps; simpl in *; congruence.
Qed.

Lemma split_byte_no_sep c s : c ∉ s -> split_byte c s = [s].
Proof.
  induction s as [|d s IH]; simpl; [done|]. intros H.
  rewrite not_elem_of_cons in H. destruct H as [H1 H2].
  destruct (Byte.eqb d c) eqn:E; [apply byte_eqb_eq in E; congruence|].
  by rewrite IH.
Qed.

Lemma split_byte_app c p s : c ∉ p -> split_byte c (p ++ c :: s) = p :: split_byte c s.
Proof.
  induction p as [|d p IH]; simpl; intros H.
  - by rewrite byte_eqb_refl.
  - rewrite not_elem_of_cons in H. destruct H as [H1 H2].
    destruct (Byte.eqb d c) eqn:E; [apply byte_eqb_eq in E; congruence|].
    by rewrite IH.
Qed.

Lemma split_byte_Join c l :
  l <> [] -> Forall (fun p => c ∉ p) l -> split_byte c (Join l [c]) = l.
Proof.
  induction l as [|p l IH]; [done|]. intros _ [Hp Hl]%Forall_cons.
  destruct l as [|q l]; [simpl; by apply split_byte_no_sep|].
  rewrite Join_cons by done. etrans; [by apply split_byte_app|].
  f_equal. by apply IH.
Qed.

Lemma split_byte_pieces c s : Forall (fun p => c ∉ p) (split_byte c s).
Proof.
  induction s as [|d s IH]; simpl; [constructor; [set_solver|done]|].
  destruct (Byte.eqb d c) eqn:E; [constructor; [set_solver|done]|].
  assert (d <> c) by (intros ->; by rewrite byte_eqb_refl in E).
  destruct (split_byte c s) as [|p ps]; [constructor; [set_solver|done]|].
  apply Forall_cons in IH as [? ?]. constructor; [set_solver|done].
Qed.

(** strings.ReplaceAll with a non-empty [old]; [skip] counts the bytes of a
    match still to pass over. *)
Fixpoint replace_skip (old new : gostring) (skip : nat) (s : gostring) : gostring :=
  match s with
  | [] => []
  | c :: s' =>
      match skip with
      | S k => replace_skip old new k s'
      | O => if HasPrefix s old then new ++ replace_skip old new (length old - 1) s'
             else c :: replace_skip old new 0 s'
      end
  end.
Definition ReplaceAll (s old new : gostring) : gostring := replace_skip old new 0 s.

(** strconv.Itoa *)
Definition Itoa (z : Z) : gostring := bs (DecimalString.NilZero.string_of_int (Z.to_int z)).
Definition ItoaN (n : nat) : gostring := Itoa (Z.of_nat n).

(** slices.Contains on strings *)
Definition slices_Contains (l : list gostring) (s : gostring) : bool := bool_decide (s ∈ l).

Lemma Index_spec s sub i : Index s sub = Some i ->
  s = take i s ++ sub ++ drop (i + length sub) s.
Proof.
  revert i. induction s as [|c s IH]; intros i; simpl.
  - destruct (HasPrefix [] sub) eqn:E; [|done]. intros [= <-].
    apply HasPrefix_spec in E as [t Ht]. destruct sub; [done|discriminate].
  - destruct (HasPrefix (c :: s) sub) eqn:E.
    + intros [= <-]. apply HasPrefix_spec in E as [t ->]. simpl.
      by rewrite drop_app_length.
    + intros H. destruct (Index s sub) as [j|] eqn:Ej; simplify_eq/=.
      f_equal. by apply IH.
Qed.

Lemma Index_None s sub t u : Index s sub = None -> s <> t ++ sub ++ u.
Proof.
  revert t. induction s as [|c s IH]; intros t; simpl.
  - destruct (HasPrefix [] sub) eqn:E; [done|]. intros _ H.
    destruct t, sub; simpl in *; done.
  - destruct (HasPrefix (c :: s) sub) eqn:E; [done|]. intros H Heq.
    destruct (Index s sub) eqn:Ei; [done|].
    destruct t as [|d t]; simpl in Heq.
    + rewrite Heq, HasPrefix_app in E. done.
    + injection Heq as _ Heq. by apply (IH t).
Qed.

Lemma Index_least s sub i : Index s sub = Some i ->
  HasPrefix (drop i s) sub = true /\ forall j, j < i -> HasPrefix (drop j s) sub = false.
Proof.
  revert i. induction s as [|c s IH]; intros i; simpl.
  - destruct (HasPrefix [] sub) eqn:E; [|done]. intros [= <-]. split; [done|lia].
  - destruct (HasPrefix (c :: s) sub) eqn:E.
    + intros [= <-]. split; [done|lia].
    + destruct (Index s sub) as [k|]; [|done]. intros [= <-]. destruct (IH k eq_refl) as [Hk Hl].
      split; [done|]. intros [|j] Hj; [done|]. apply Hl. lia.
Qed.

Lemma Index_absent s sub : Index s sub = None -> forall j, HasPrefix (drop j s) sub = false.
Proof.
  intros H j. apply not_true_is_false. intros [t Ht]%HasPrefix_spec.
  apply (Index_None s sub (take j s) t H). by rewrite <- Ht, take_drop.
Qed.

Lemma replace_skip_absent old new s : Index s old = None -> old <> [] -> replace_skip old new 0 s = s.
Proof.
  induction s as [|c s IH]; simpl; [done|]. intros H Ho.
  destruct (HasPrefix (c :: s) old) eqn:E; [done|].
  destruct (Index s old); [done|]. by rewrite IH.
Qed.

Lemma Contains_false s sub : Contains s sub = false <-> Index s sub = None.
Proof. unfold Contains. by destruct (Index s sub). Qed.

(** ** Lines of text *)

(** [unlines ts] writes each of [ts] and a newline. *)
Definition unlines (ts : list gostring) : gostring := mjoin ((fun t => t ++ [nl]) <$> ts).

(** [ts] without its trailing empty strings. *)
Fixpoint rstrip (ts : list gostring) : list gostring :=
  match ts with
  | [] => []
  | t :: ts' =>
      match rstrip ts' with
      | [] => match t with [] => [] | _ => [t] end
      | r => t :: r
      end
  end.

Definition newlines : list gostring := [[nl]].

Lemma newlines_nonempty : nonempty_units newlines.
Proof. by apply Forall_singleton. Qed.

Lemma unlines_cons t ts : unlines (t :: ts) = t ++ nl :: unlines ts.
Proof. unfold unlines. simpl. by rewrite <- app_assoc. Qed.

Lemma unlines_app ts us : unlines (ts ++ us) = unlines ts ++ unlines us.
Proof. unfold unlines. by rewrite fmap_app, join_app. Qed.

Lemma rstrip_app_nil ts : rstrip (ts ++ [[]]) = rstrip ts.
Proof. induction ts as [|t ts IH]; simpl; [done|]. by rewrite IH. Qed.

Lemma rstrip_snoc ts t : t <> [] -> rstrip (ts ++ [t]) = ts ++ [t].
Proof.
  intros Ht. induction ts as [|u ts IH]; simpl; [by destruct t|].
  rewrite IH. destruct (ts ++ [t]) eqn:E; [|done]. by destruct ts.
Qed.

(** Either every string is empty, or the last non-empty one ends the stripped list. *)
Lemma rstrip_decompose ts : exists k, ts = rstrip ts ++ replicate k [].
Proof.
  induction ts as [|t ts [k IH]]; simpl; [by exists 0|].
  destruct (rstrip ts) as [|r rs] eqn:E; simpl in IH.
  - destruct t; [exists (S k)|exists k]; simpl; congruence.
  - exists k. simpl. congruence.
Qed.

Lemma rstrip_Forall (P : gostring -> Prop) ts : Forall P ts -> Forall P (rstrip ts).
Proof. destruct (rstrip_decompose ts) as [k Hk]. rewrite Hk at 1. by intros [? _]%Forall_app. Qed.

Lemma rstrip_replicate ts k : rstrip (ts ++ replicate k []) = rstrip ts.
Proof.
  induction k as [|k IH]; simpl; [by rewrite app_nil_r|].
  replace ([] :: replicate k []) with (replicate k [] ++ [([] : gostring)]) by
    by rewrite <- replicate_cons_app.
  by rewrite app_assoc, rstrip_app_nil.
Qed.

Lemma rstrip_idem ts : rstrip (rstrip ts) = rstrip ts.
Proof.
  destruct (rstrip_decompose ts) as [k Hk]. rewrite Hk at 2. by rewrite rstrip_replicate.
Qed.

Lemma rstrip_nonempty ts t : t ∈ ts -> t <> [] -> rstrip ts <> [].
Proof.
  intros Hin Ht Hr. destruct (rstrip_decompose ts) as [k Hk]. rewrite Hr in Hk. simpl in Hk.
  subst ts. apply elem_of_replicate in Hin as [? _]. done.
Qed.

Lemma TrimRight_nl_snoc s : TrimRight (s ++ [nl]) newlines = TrimRight s newlines.
Proof. unfold TrimRight. rewrite rev_app_distr. done. Qed.

Lemma TrimRight_nl_keep s c : c <> nl -> TrimRight (s ++ [c]) newlines = s ++ [c].
Proof.
  intros Hc. unfold TrimRight. rewrite rev_app_distr. simpl.
  destruct (Byte.eqb nl c) eqn:E; [apply byte_eqb_eq in E; congruence|].
  simpl. by rewrite rev_involutive.
Qed.

Lemma TrimRight_nl_app s t : t <> [] -> nl ∉ t -> TrimRight (s ++ t) newlines = s ++ t.
Proof.
  intros Ht Hn. destruct t as [|c t _] using rev_ind; [done|].
  rewrite app_assoc. apply TrimRight_nl_keep. intros ->. apply Hn. set_solver.
Qed.

Lemma snoc_not_nil {A} (l : list A) x : l ++ [x] <> [].
Proof. by destruct l. Qed.

Lemma Join_snoc ts t : Join (ts ++ [t]) [nl] = unlines ts ++ t.
Proof.
  induction ts as [|u ts IH]; [done|].
  rewrite unlines_cons. change ((u :: ts) ++ [t]) with (u :: (ts ++ [t])).
  rewrite Join_cons, IH by apply snoc_not_nil. by rewrite <- app_assoc.
Qed.

(** Trimming the newlines of some lines strips the empty ones at their end. *)
Lemma TrimRight_unlines ts : Forall (fun t => nl ∉ t) ts ->
  TrimRight (unlines ts) newlines = Join (rstrip ts) [nl].
Proof.
  induction ts as [|t ts IH] using rev_ind; [done|].
  intros [Hts Ht]%Forall_app. rewrite Forall_singleton in Ht.
  rewrite unlines_app. unfold unlines at 2. simpl. rewrite app_nil_r, app_assoc, TrimRight_nl_snoc.
  destruct (decide (t = [])) as [->|Hne].
  - rewrite app_nil_r, rstrip_app_nil. auto.
  - rewrite TrimRight_nl_app by done. rewrite rstrip_snoc by done. by rewrite Join_snoc.
Qed.

Lemma split_unlines ts : Forall (fun t => nl ∉ t) ts -> split_byte nl (unlines ts) = ts ++ [[]].
Proof.
  induction ts as [|t ts IH]; [done|]. intros [Ht Hts]%Forall_cons.
  rewrite unlines_cons, split_byte_app by done. simpl. by rewrite IH.
Qed.

Lemma unlines_Join ts : ts <> [] -> Join ts [nl] ++ [nl] = unlines ts.
Proof.
  destruct ts as [|t ts _] using rev_ind; [done|]. intros _.
  rewrite Join_snoc, unlines_app, <- app_assoc. unfold unlines at 3. simpl. by rewrite app_nil_r.
Qed.

Lemma elem_of_unlines c ts t : t ∈ ts -> c ∈ t -> c ∈ unlines ts.
Proof.
  intros Ht Hc. unfold unlines. apply list_elem_of_join. exists (t ++ [nl]).
  split; [set_solver|]. apply list_elem_of_fmap. eauto.
Qed.

Lemma alter_snoc {A} (f : A -> A) (l : list A) x : alter f (length l) (l ++ [x]) = l ++ [f x].
Proof. rewrite alter_app_r_alt by lia. by rewrite Nat.sub_diag. Qed.

Lemma Forall_join_inv {A} (P : A -> Prop) (ls : list (list A)) : Forall P (mjoin ls) -> Forall (Forall P) ls.
Proof. induction ls as [|l ls IH]; [done|]. intros [? ?]%Forall_app. constructor; auto. Qed.

(** ** Ordering and sorting strings *)

(** Go's [<=] on strings: byte order. *)
Fixpoint str_leb (s t : gostring) : bool :=
  match s, t with
  | [], _ => true
  | _ :: _, [] => false
  | c :: s', d :: t' =>
      if Byte.eqb c d then str_leb s' t' else N.ltb (Byte.to_N c) (Byte.to_N d)
  end.

Definition str_le (s t : gostring) : Prop := str_leb s t = true.
#[export] Instance str_le_dec : RelDecision str_le.
Proof. intros s t. unfold str_le. apply _. Defined.

Lemma byte_to_N_inj b c : Byte.to_N b = Byte.to_N c -> b = c.
Proof. intros H. apply (f_equal Byte.of_N) in H. rewrite !Byte.of_to_N in H. congruence. Qed.

Lemma byte_eqb_neq b c : Byte.eqb b c = false <-> b <> c.
Proof. rewrite <- byte_eqb_eq. by destruct (Byte.eqb b c). Qed.

#[export] Instance str_le_total : Total str_le.
Proof.
  intros s. unfold str_le. induction s as [|c s IH]; intros [|d t]; simpl; auto.
  destruct (Byte.eqb c d) eqn:E.
  - apply byte_eqb_eq in E as ->. rewrite byte_eqb_refl. apply IH.
  - assert (Byte.eqb d c = false) as ->. { apply byte_eqb_neq. apply byte_eqb_neq in E. congruence. }
    assert (Byte.to_N c <> Byte.to_N d). { intros H%byte_to_N_inj. by apply byte_eqb_neq in E. }
    rewrite !N.ltb_lt. lia.
Qed.

#[export] Instance str_le_trans : Transitive str_le.
Proof.
  intros s. unfold str_le. induction s as [|c s IH]; intros [|d t] [|e u]; simpl; auto; [done|].
  destruct (Byte.eqb c d) eqn:E1, (Byte.eqb d e) eqn:E2; rewrite ?byte_eqb_eq in *; subst.
  - rewrite byte_eqb_refl. apply IH.
  - by rewrite E2.
  - by rewrite E1.
  - rewrite !N.ltb_lt. intros H1 H2. destruct (Byte.eqb c e) eqn:E3; [|apply N.ltb_lt; lia].
    apply byte_eqb_eq in E3 as ->. lia.
Qed.

(** sort.Strings *)
Definition sort_Strings (l : list gostring) : list gostring := merge_sort str_le l.

Lemma sort_Strings_perm l : sort_Strings l ≡ₚ l.
Proof. apply merge_sort_Permutation. Qed.

Lemma sort_Strings_sorted l : Sorted str_le (sort_Strings l).
Proof. apply Sorted_merge_sort, _. Qed.

#[export] Instance str_le_antisym : AntiSymm (=) str_le.
Proof.
  intros s. unfold str_le. induction s as [|c s IH]; intros [|d t]; simpl; [done..|].
  destruct (Byte.eqb c d) eqn:E.
  - apply byte_eqb_eq in E as ->. rewrite byte_eqb_refl. intros H1 H2. f_equal. by apply IH.
  - assert (Byte.eqb d c = false) as ->. { apply byte_eqb_neq. apply byte_eqb_neq in E. congruence. }
    rewrite !N.ltb_lt. lia.
Qed.

Lemma sort_Strings_id l : Sorted str_le l -> sort_Strings l = l.
Proof. intros H. apply (Sorted_unique str_le); [apply sort_Strings_sorted|done|apply sort_Strings_perm]. Qed.

Lemma Sorted_filter_str f l : Sorted str_le l -> Sorted str_le (List.filter f l).
Proof.
  intros H%(Sorted_StronglySorted _). apply StronglySorted_Sorted. induction H as [|x l _ IH HF]; cbn [List.filter]; [constructor|].
  case_match; [|done]. constructor; [done|]. rewrite Forall_forall in HF |- *. intros y Hy. apply HF.
  apply list_elem_of_In, List.filter_In in Hy as [Hy _]. by apply list_elem_of_In.
Qed.

Lemma filter_nil_iff {A} f (l : list A) : List.filter f l = [] <-> forall x, x ∈ l -> f x = false.
Proof.
  induction l as [|x l IH]; cbn [List.filter]; [split; [intros _ x Hx; by apply elem_of_nil in Hx|done]|].
  setoid_rewrite elem_of_cons. destruct (f x) eqn:E; [|naive_solver]. split; [done|]. intros H. rewrite H in E by (by left). done.
Qed.

(** The last [n] of a list. *)
Definition lastN (xs : list gostring) (n : nat) : list gostring := drop (length xs - n) xs.

(** strings.SplitAfter(s, "\n") *)
Fixpoint SplitAfterNL (s : gostring) : list gostring :=
  match s with
  | [] => [[]]
  | c :: s' =>
      if Byte.eqb c nl then [c] :: SplitAfterNL s'
      else match SplitAfterNL s' with
           | p :: ps => (c :: p) :: ps
           | [] => [[c]]
           end
  end.

Lemma SplitAfterNL_join s : mjoin (SplitAfterNL s) = s.
Proof.
  induction s as [|c s IH]; simpl; [done|]. destruct (Byte.eqb c nl); simpl; [by rewrite IH|].
  destruct (SplitAfterNL s); simpl in *; congruence.
Qed.

(** strings.Count(s, "\n") *)
Definition count_nl (s : gostring) : nat := length (List.filter (Byte.eqb nl) s).
