(* ===== verification/Regex.v ===== *)
(** Go's regexp: a backtracking matcher with leftmost-first priority and
    captures over UTF-8 text, and its specification. The package regexp of the
    Go standard library reports the match a backtracking search would find
    first; [run] is that search, [mt] the language it searches. *)
From S2P Require Import Prelude.

Local Open Scope Z_scope.

(** ** Code points *)

Definition bz (b : byte) : Z := Z.of_N (Byte.to_N b).

Definition between (lo hi x : Z) : bool := (lo <=? x) && (x <=? hi).

Lemma between_spec lo hi x : between lo hi x = true <-> (lo <= x <= hi)%Z.
Proof. unfold between. rewrite andb_true_iff, !Z.leb_le. done. Qed.

Definition RuneError : Z := 65533.

(** utf8.DecodeRuneInString: the first code point of a string and its width;
    an invalid encoding is [RuneError] of width 1. [None] for "". *)
Definition DecodeRune (s : gostring) : option (Z * nat) :=
  match s with
  | [] => None
  | b0 :: t =>
      let x := bz b0 in
      let bad := Some (RuneError, 1%nat) in
      if x <? 128 then Some (x, 1%nat)
      else if between 194 223 x then
        match t with
        | b1 :: _ =>
            if between 128 191 (bz b1) then Some ((x - 192) * 64 + (bz b1 - 128), 2%nat) else bad
        | _ => bad
        end
      else if between 224 239 x then
        match t with
        | b1 :: b2 :: _ =>
            if between (if x =? 224 then 160 else 128) (if x =? 237 then 159 else 191) (bz b1)
               && between 128 191 (bz b2)
            then Some ((x - 224) * 4096 + (bz b1 - 128) * 64 + (bz b2 - 128), 3%nat) else bad
        | _ => bad
        end
      else if between 240 244 x then
        match t with
        | b1 :: b2 :: b3 :: _ =>
            if between (if x =? 240 then 144 else 128) (if x =? 244 then 143 else 191) (bz b1)
               && between 128 191 (bz b2) && between 128 191 (bz b3)
            then Some ((x - 240) * 262144 + (bz b1 - 128) * 4096 + (bz b2 - 128) * 64 + (bz b3 - 128), 4%nat)
            else bad
        | _ => bad
        end
      else bad
  end.

Lemma DecodeRune_width s r w : DecodeRune s = Some (r, w) -> (1 <= w <= length s)%nat.
Proof.
  unfold DecodeRune. intros H.
  repeat split_match_in H; simplify_eq/=; lia.
Qed.

(** ** Integers *)

Definition c_digit : Z -> bool := between 48 57.

(** int arithmetic wraps at 64 bits. *)
Definition wrap64 (z : Z) : Z := ((z + 2 ^ 63) mod 2 ^ 64 - 2 ^ 63)%Z.

(** strconv.Atoi on decimal digits: [None] when empty, not all digits, or past int64. *)
Fixpoint digits_value (acc : Z) (s : gostring) : option Z :=
  match s with
  | [] => Some acc
  | b :: s' => if c_digit (bz b) then digits_value (acc * 10 + (bz b - 48)) s' else None
  end.
Definition Atoi_digits (s : gostring) : option Z :=
  match s with
  | [] => None
  | _ => match digits_value 0 s with Some n => if (n <=? 2 ^ 63 - 1)%Z then Some n else None | None => None end
  end.

(** ** Expressions *)

Inductive re :=
| Eps
| Cls (p : Z -> bool)
| Cat (r1 r2 : re)
| Alt (r1 r2 : re)
| Star (r : re)
| Lazy (r : re)
| Grp (n : nat) (r : re)
| Bol | Eol | WordB
(* ^ and $ under the flag m: of a line *)
| BolM | EolM.

(** Classes *)
Definition one (b : byte) : Z -> bool := fun x => x =? bz b.
Definition isrune (r : Z) : Z -> bool := fun x => x =? r.
Definition cor (p q : Z -> bool) : Z -> bool := fun x => p x || q x.
Definition cnot (p : Z -> bool) : Z -> bool := fun x => negb (p x).
Definition c_space : Z -> bool := fun x => (x =? 9) || (x =? 10) || (x =? 12) || (x =? 13) || (x =? 32).
Definition c_lower : Z -> bool := between 97 122.
Definition c_upper : Z -> bool := between 65 90.
Definition c_word : Z -> bool := fun x => c_digit x || c_lower x || c_upper x || (x =? 95).
Definition c_dot : Z -> bool := fun x => negb (x =? 10).
Definition c_emdash : Z -> bool := isrune 8212.
Definition c_endash : Z -> bool := isrune 8211.

Definition Plus (r : re) : re := Cat r (Star r).
Definition Opt (r : re) : re := Alt r Eps.
Fixpoint lit (s : gostring) : re :=
  match s with
  | [] => Eps
  | [c] => Cls (one c)
  | c :: s' => Cat (Cls (one c)) (lit s')
  end.
Fixpoint cats (l : list re) : re :=
  match l with
  | [] => Eps
  | [r] => r
  | r :: l' => Cat r (cats l')
  end.
(** [r{n,n+m}] *)
Fixpoint upto (r : re) (m : nat) : re :=
  match m with
  | O => Eps
  | S m' => Opt (Cat r (upto r m'))
  end.
Fixpoint exactly (r : re) (n : nat) (k : re) : re :=
  match n with
  | O => k
  | S n' => Cat r (exactly r n' k)
  end.
Definition Rep (r : re) (n m : nat) : re := exactly r n (upto r (m - n)).

(** ** The search *)

(** A position in the text: the byte before it, the text from it on, its index. *)
Record st := St { prev : option byte; rest : gostring; pos : nat }.

(** The group captures, the latest first. *)
Definition caps := list (nat * (nat * nat)).

Definition advance (w : nat) (s : st) : st :=
  St (match w with O => prev s | _ => last (take w (rest s)) end) (drop w (rest s)) (pos s + w).

Definition word_at (o : option byte) : bool :=
  match o with Some b => c_word (bz b) | None => false end.

Definition at_bol (s : st) : bool := (pos s =? 0)%nat.
Definition at_eol (s : st) : bool := match rest s with [] => true | _ => false end.
Definition at_bolm (s : st) : bool := at_bol s || bool_decide (prev s = Some nl).
Definition at_eolm (s : st) : bool := at_eol s || bool_decide (head (rest s) = Some nl).
Definition at_wordb (s : st) : bool := xorb (word_at (prev s)) (word_at (head (rest s))).

Definition orelse {A} (x y : option A) : option A := match x with Some _ => x | None => y end.

Section search.
Context {R : Type}.

(** A greedy (or, with [lz], lazy) repetition of [body]; an iteration that
    consumes nothing ends. The text left bounds the iterations. *)
Fixpoint loop (body : st -> caps -> (st -> caps -> option R) -> option R) (lz : bool)
    (k : st -> caps -> option R) (n : nat) (s : st) (c : caps) : option R :=
  match n with
  | O => k s c
  | S n' =>
      let more := body s c (fun s' c' => if (pos s' =? pos s)%nat then None else loop body lz k n' s' c') in
      if lz then orelse (k s c) more else orelse more (k s c)
  end.

Fixpoint run (r : re) (s : st) (c : caps) (k : st -> caps -> option R) : option R :=
  match r with
  | Eps => k s c
  | Cls p =>
      match DecodeRune (rest s) with
      | Some (x, w) => if p x then k (advance w s) c else None
      | None => None
      end
  | Cat r1 r2 => run r1 s c (fun s' c' => run r2 s' c' k)
  | Alt r1 r2 => orelse (run r1 s c k) (run r2 s c k)
  | Star r1 => loop (run r1) false k (S (length (rest s))) s c
  | Lazy r1 => loop (run r1) true k (S (length (rest s))) s c
  | Grp n r1 => run r1 s c (fun s' c' => k s' ((n, (pos s, pos s')) :: c'))
  | Bol => if at_bol s then k s c else None
  | Eol => if at_eol s then k s c else None
  | WordB => if at_wordb s then k s c else None
  | BolM => if at_bolm s then k s c else None
  | EolM => if at_eolm s then k s c else None
  end.
End search.

(** A match: where it starts and ends, and its groups. *)
Record mres := MRes { m_start : nat; m_end : nat; m_caps : caps }.

Definition match_here (r : re) (s : st) : option mres :=
  run r s [] (fun s' c => Some (MRes (pos s) (pos s') c)).

(** The leftmost match from [s] on. *)
Fixpoint find_from (r : re) (n : nat) (s : st) : option mres :=
  orelse (match_here r s)
    match n, DecodeRune (rest s) with
    | S n', Some (_, w) => find_from r n' (advance w s)
    | _, _ => None
    end.

Definition start_of (s : gostring) : st := St None s 0.

(** regexp.FindStringSubmatchIndex *)
Definition FindSubmatchIndex (r : re) (s : gostring) : option mres := find_from r (length s) (start_of s).

(** regexp.MatchString *)
Definition MatchString (r : re) (s : gostring) : bool :=
  match FindSubmatchIndex r s with Some _ => true | None => false end.

(** The bounds of group [n], [None] when it took no part in the match. *)
Definition group_at (m : mres) (n : nat) : option (nat * nat) :=
  match n with
  | O => Some (m_start m, m_end m)
  | _ => snd <$> List.find (fun p => Nat.eqb (fst p) n) (m_caps m)
  end.

(** Slice [s[a:b]]. *)
Definition slice (s : gostring) (a b : nat) : gostring := take (b - a) (drop a s).

(** The text of group [n], "" when it took no part (FindStringSubmatch). *)
Definition group (s : gostring) (m : mres) (n : nat) : gostring :=
  match group_at m n with Some (a, b) => slice s a b | None => [] end.

(** regexp.ReplaceAllString for an expression with no empty match: [f] gives the
    replacement of a match. *)
Fixpoint replace_from (r : re) (f : mres -> gostring) (n : nat) (s : st) : gostring :=
  match n with
  | O => rest s
  | S n' =>
      match find_from r (length (rest s)) s with
      | None => rest s
      | Some m =>
          take (m_start m - pos s) (rest s) ++ f m ++ replace_from r f n' (advance (m_end m - pos s) s)
      end
  end.
Definition ReplaceAllRe (r : re) (s : gostring) (f : mres -> gostring) : gostring :=
  replace_from r f (length s) (start_of s).

(** regexp.FindAllStringSubmatchIndex: the matches in order, none overlapping; an
    empty match where the one before it ended is not taken. Each round moves on, or
    is the empty match the next one moves past. *)
Fixpoint find_all_from (r : re) (n : nat) (s : st) (prevEnd : option nat) : list mres :=
  match n with
  | O => []
  | S n' =>
      match find_from r (length (rest s)) s with
      | None => []
      | Some m =>
          if (m_end m =? pos s)%nat then
            (if bool_decide (prevEnd = Some (m_start m)) then [] else [m]) ++
            match DecodeRune (rest s) with
            | Some (_, w) => find_all_from r n' (advance w s) (Some (m_end m))
            | None => []
            end
          else m :: find_all_from r n' (advance (m_end m - pos s) s) (Some (m_end m))
      end
  end.
Definition FindAll (r : re) (s : gostring) : list mres := find_all_from r (2 * S (length s)) (start_of s) None.

(** ** Its specification *)

Inductive mt : re -> st -> st -> Prop :=
| mt_eps s : mt Eps s s
| mt_cls p s x w : DecodeRune (rest s) = Some (x, w) -> p x = true -> mt (Cls p) s (advance w s)
| mt_cat r1 r2 s s1 s2 : mt r1 s s1 -> mt r2 s1 s2 -> mt (Cat r1 r2) s s2
| mt_alt_l r1 r2 s s' : mt r1 s s' -> mt (Alt r1 r2) s s'
| mt_alt_r r1 r2 s s' : mt r2 s s' -> mt (Alt r1 r2) s s'
| mt_star_nil r s : mt (Star r) s s
| mt_star_cons r s s1 s2 : mt r s s1 -> pos s1 <> pos s -> mt (Star r) s1 s2 -> mt (Star r) s s2
| mt_lazy r s s' : mt (Star r) s s' -> mt (Lazy r) s s'
| mt_grp n r s s' : mt r s s' -> mt (Grp n r) s s'
| mt_bol s : at_bol s = true -> mt Bol s s
| mt_eol s : at_eol s = true -> mt Eol s s
| mt_wordb s : at_wordb s = true -> mt WordB s s
| mt_bolm s : at_bolm s = true -> mt BolM s s
| mt_eolm s : at_eolm s = true -> mt EolM s s.

(** [s'] is [s] after consuming a piece of its text. *)
Definition consumes (s s' : st) : Prop :=
  exists w, rest s = w ++ rest s' /\ pos s' = (pos s + length w)%nat.

Lemma consumes_refl s : consumes s s.
Proof. exists []. simpl. split; [done|lia]. Qed.

Lemma consumes_trans s1 s2 s3 : consumes s1 s2 -> consumes s2 s3 -> consumes s1 s3.
Proof.
  intros (w & Hr & Hp) (v & Hr' & Hp'). exists (w ++ v).
  rewrite Hr, Hr', app_assoc, length_app. split; [done|lia].
Qed.

Lemma consumes_advance s w : (w <= length (rest s))%nat -> consumes s (advance w s).
Proof.
  intros H. exists (take w (rest s)). simpl. rewrite take_drop, length_take. split; [done|lia].
Qed.

#[export] Hint Resolve consumes_refl consumes_advance : go.

Lemma mt_consumes r s s' : mt r s s' -> consumes s s'.
Proof.
  induction 1; eauto using consumes_trans with go.
  apply consumes_advance. apply DecodeRune_width in H. lia.
Qed.

Lemma orelse_Some {A} (x y : option A) z : orelse x y = Some z -> x = Some z \/ (x = None /\ y = Some z).
Proof. destruct x; naive_solver. Qed.

Lemma orelse_None {A} (x y : option A) : orelse x y = None <-> x = None /\ y = None.
Proof. destruct x; naive_solver. Qed.

Lemma loop_sound {R} r lz (k : st -> caps -> option R) x :
  (forall s c (k : st -> caps -> option R), run r s c k = Some x -> exists s' c', mt r s s' /\ k s' c' = Some x) ->
  forall n s c, loop (run r) lz k n s c = Some x -> exists s' c', mt (Star r) s s' /\ k s' c' = Some x.
Proof.
  intros Hr. induction n as [|n IH]; simpl; intros s c H.
  - eauto using mt_star_nil.
  - assert (k s c = Some x \/ run r s c (fun s' c' => if (pos s' =? pos s)%nat then None
       else loop (run r) lz k n s' c') = Some x) as [Hk|Hk].
    { destruct lz; apply orelse_Some in H; naive_solver. }
    + eauto using mt_star_nil.
    + apply Hr in Hk as (s1 & c1 & Hm & Hk).
      destruct (pos s1 =? pos s)%nat eqn:E; [done|]. apply Nat.eqb_neq in E.
      apply IH in Hk as (s2 & c2 & Hm2 & Hk2). eauto using mt_star_cons.
Qed.

(** Every answer of the search is a match that its continuation accepted. *)
Lemma run_sound {R} r : forall s c (k : st -> caps -> option R) x,
  run r s c k = Some x -> exists s' c', mt r s s' /\ k s' c' = Some x.
Proof.
  induction r; simpl; intros s c k x H.
  - eauto using mt.
  - destruct (DecodeRune (rest s)) as [[y w]|] eqn:E; [|done].
    destruct (p y) eqn:Ep; [|done]. eauto using mt.
  - apply IHr1 in H as (s1 & c1 & H1 & H). apply IHr2 in H as (s2 & c2 & H2 & H). eauto using mt.
  - apply orelse_Some in H as [H|[_ H]].
    + apply IHr1 in H as (s1 & c1 & H1 & H). eauto using mt.
    + apply IHr2 in H as (s1 & c1 & H1 & H). eauto using mt.
  - change (loop (run r) false k (S (length (rest s))) s c = Some x) in H. eapply loop_sound in H; eauto.
  - change (loop (run r) true k (S (length (rest s))) s c = Some x) in H.
    eapply loop_sound in H as (? & ? & ? & ?); eauto using mt.
  - apply IHr in H as (s1 & c1 & H1 & H). eauto using mt.
  - destruct (at_bol s) eqn:E; [|done]. eauto using mt.
  - destruct (at_eol s) eqn:E; [|done]. eauto using mt.
  - destruct (at_wordb s) eqn:E; [|done]. eauto using mt.
  - destruct (at_bolm s) eqn:E; [|done]. eauto using mt.
  - destruct (at_eolm s) eqn:E; [|done]. eauto using mt.
Qed.

Lemma loop_complete {R} r lz (k : st -> caps -> option R) :
  (forall s s' c (k : st -> caps -> option R), mt r s s' -> (forall c', k s' c' <> None) -> run r s c k <> None) ->
  forall n s s', mt (Star r) s s' -> (length (rest s) < n)%nat -> (forall c', k s' c' <> None) ->
  forall c, loop (run r) lz k n s c <> None.
Proof.
  intros Hr. induction n as [|n IH]; simpl; intros s s' Hm Hn Hk c; [lia|].
  assert (k s c <> None \/ run r s c (fun s' c' => if (pos s' =? pos s)%nat then None
       else loop (run r) lz k n s' c') <> None) as Hor.
  { inversion Hm as [| | | | | |? ? s1 ? H1 Hne H2| | | | | | |]; subst; [by left|]. right.
    apply (Hr s s1); [done|]. intros c'. apply Nat.eqb_neq in Hne. rewrite Hne.
    apply Nat.eqb_neq in Hne. apply mt_consumes in H1 as (w & Hw & Hp).
    apply (IH s1 s'); [done| |done]. rewrite Hw, length_app in Hn. lia. }
  destruct lz; rewrite orelse_None; naive_solver.
Qed.

(** The search finds a match whenever there is one its continuation accepts. *)
Lemma run_complete {R} r : forall s s' c (k : st -> caps -> option R),
  mt r s s' -> (forall c', k s' c' <> None) -> run r s c k <> None.
Proof.
  induction r; simpl; intros s s' c k Hm Hk; inversion Hm; subst; try done.
  - rewrite H0, H1. apply Hk.
  - eapply IHr1; [done|]. intros c'. eapply IHr2; eauto.
  - rewrite orelse_None. intros [H _]. eapply IHr1; eauto.
  - rewrite orelse_None. intros [_ H]. eapply IHr2; eauto.
  - eapply (loop_complete r false k IHr (S (length (rest s')))); eauto with lia.
  - eapply (loop_complete r false k IHr (S (length (rest s)))); eauto with lia.
  - eapply (loop_complete r true k IHr (S (length (rest s)))); eauto with lia.
  - eapply IHr; eauto.
  - rewrite H. done.
  - rewrite H. done.
  - rewrite H. done.
  - rewrite H. done.
  - rewrite H. done.
Qed.

(** ** Matching fixed texts *)

Close Scope Z_scope.

Lemma MatchString_mt r s s' : mt r (start_of s) s' -> MatchString r s = true.
Proof.
  intros H. unfold MatchString, FindSubmatchIndex.
  assert (match_here r (start_of s) <> None) as Hm by (eapply run_complete; [exact H|done]).
  destruct (length s); cbn [find_from]; by destruct (match_here r (start_of s)).
Qed.

Definition is_ascii (b : byte) : Prop := (bz b <? 128)%Z = true.

Lemma mt_byte b st t : is_ascii b -> rest st = b :: t -> exists st', mt (Cls (one b)) st st' /\ rest st' = t.
Proof.
  intros Ha Hr. exists (advance 1 st). split; [|unfold advance; cbn [rest]; by rewrite Hr].
  apply (mt_cls _ _ (bz b) 1); [unfold DecodeRune; rewrite Hr; by rewrite Ha|]. unfold one. apply Z.eqb_refl.
Qed.

Lemma mt_lit s : Forall is_ascii s -> forall st t, rest st = s ++ t -> exists st', mt (lit s) st st' /\ rest st' = t.
Proof.
  induction 1 as [|b s Hb Hs IH]; intros st t Hr; [exists st; split; [constructor|done]|].
  destruct (mt_byte b st (s ++ t) Hb Hr) as (st1 & H1 & Hr1). destruct s as [|c s]; [exists st1; done|].
  destruct (IH st1 t Hr1) as (st2 & H2 & Hr2). exists st2. split; [|done]. by apply (mt_cat _ _ _ st1).
Qed.

(** The bytes of a rune past its first are continuation bytes. *)
Lemma DecodeRune_shape b s r w : DecodeRune (b :: s) = Some (r, w) ->
  ((bz b < 128)%Z /\ r = bz b /\ w = 1) \/
  ((128 <= r)%Z /\ forall i c, S i < w -> s !! i = Some c -> (128 <= bz c)%Z).
Proof.
  unfold DecodeRune. intros H. destruct (bz b <? 128)%Z eqn:E0; [left; apply Z.ltb_lt in E0; by simplify_eq|]. right.
  assert (Some (RuneError, 1) = Some (r, w) -> (128 <= r)%Z /\ forall i c, S i < w -> s !! i = Some c -> (128 <= bz c)%Z) as Hbad
    by (intros [= <- <-]; split; [unfold RuneError; lia|intros; lia]).
  destruct (between 194 223 (bz b)) eqn:E1; [|destruct (between 224 239 (bz b)) eqn:E2; [|destruct (between 240 244 (bz b)) eqn:E3]]; try by apply Hbad.
  - apply between_spec in E1. destruct s as [|b1 s]; [by apply Hbad|]. destruct (between 128 191 (bz b1)) eqn:Eb; [|by apply Hbad].
    apply between_spec in Eb. simplify_eq. split; [lia|]. intros [|i] c Hi Hc; [simplify_eq/=; lia|lia].
  - apply between_spec in E2. destruct s as [|b1 [|b2 s]]; try by apply Hbad. destruct (_ && _) eqn:Eb; [|by apply Hbad].
    apply andb_true_iff in Eb as [Ea%between_spec Eb%between_spec]. simplify_eq.
    assert (128 <= bz b1)%Z by (destruct (bz b =? 224)%Z; lia).
    split; [destruct (bz b =? 224)%Z eqn:Ez; [apply Z.eqb_eq in Ez|apply Z.eqb_neq in Ez]; lia|].
    intros [|[|i]] c Hi Hc; simplify_eq/=; lia.
  - apply between_spec in E3. destruct s as [|b1 [|b2 [|b3 s]]]; try by apply Hbad. destruct (_ && _) eqn:Eb; [|by apply Hbad].
    rewrite !andb_true_iff, !between_spec in Eb. destruct Eb as [[Ea Eb] Ec]. simplify_eq.
    assert (128 <= bz b1)%Z by (destruct (bz b =? 240)%Z; lia).
    split; [destruct (bz b =? 240)%Z eqn:Ez; [apply Z.eqb_eq in Ez|apply Z.eqb_neq in Ez]; lia|].
    intros [|[|[|i]]] c Hi Hc; simplify_eq/=; lia.
Qed.

Lemma bz_inj b c : bz b = bz c -> b = c.
Proof. unfold bz. intros H%N2Z.inj%(f_equal Byte.of_N). rewrite !Byte.of_to_N in H. by simplify_eq. Qed.

(** The first code point of a text with an ASCII separator further on ends before it. *)
Lemma DecodeRune_sep c s t r w : is_ascii c -> s <> [] -> c ∉ s -> DecodeRune (s ++ c :: t) = Some (r, w) -> r <> bz c /\ (w <= length s)%nat.
Proof.
  unfold is_ascii. intros Ha%Z.ltb_lt Hne Hs H. destruct s as [|b s]; [done|]. apply not_elem_of_cons in Hs as [H0 Hs]. cbn [app] in H.
  apply DecodeRune_shape in H as [(_ & -> & ->)|[Hr Hc]]; [split; [intros E%bz_inj; done|cbn; lia]|].
  split; [lia|]. destruct (decide (w <= length (b :: s))%nat) as [|Hn]; [done|]. exfalso. cbn [length] in Hn.
  specialize (Hc (length s) c ltac:(lia)). rewrite lookup_app_r, Nat.sub_diag in Hc by lia. specialize (Hc eq_refl). lia.
Qed.

(** ** Lines, prefixes and anchors *)

(** A line's end: of the text, or a newline. *)
Definition line_end (t : gostring) : Prop := t = [] \/ exists t', t = nl :: t'.

Lemma line_split (u : gostring) : exists l t, u = l ++ t /\ (nl ∉ l) /\ line_end t.
Proof.
  induction u as [|c u (l & t & -> & Hl & Ht)]; [exists [], []; split_and!; [done|apply not_elem_of_nil|by left]|].
  destruct (decide (c = nl)) as [->|Hc].
  - exists [], (nl :: l ++ t). split_and!; [done|apply not_elem_of_nil|right; eauto].
  - exists (c :: l), t. split_and!; [done|by apply not_elem_of_cons|done].
Qed.

Lemma line_unique l l' t t' : nl ∉ l -> nl ∉ l' -> line_end t -> line_end t' -> l ++ t = l' ++ t' -> l = l'.
Proof.
  revert l'. induction l as [|c l IH]; intros [|c' l'] Hl Hl' Ht Ht' E; try done.
  - exfalso. apply not_elem_of_cons in Hl' as [Hc _]. simpl in E. destruct Ht as [->|[? ->]]; by simplify_eq.
  - exfalso. apply not_elem_of_cons in Hl as [Hc _]. simpl in E. destruct Ht' as [->|[? ->]]; by simplify_eq.
  - apply not_elem_of_cons in Hl as [Hc Hl], Hl' as [Hc' Hl']. injection E as -> E. f_equal. by apply IH.
Qed.

Lemma DecodeRune_some b s : exists x w, DecodeRune (b :: s) = Some (x, w).
Proof. unfold DecodeRune. repeat split_match; eauto. Qed.

(** The first code point of a line with something on it ends on it, and is no newline. *)
Lemma DecodeRune_line l t : l <> [] -> nl ∉ l -> line_end t ->
  exists x w, DecodeRune (l ++ t) = Some (x, w) /\ x <> 10%Z /\ 1 <= w <= length l.
Proof.
  intros Hne Hl Ht. destruct l as [|b l]; [done|]. destruct (DecodeRune_some b (l ++ t)) as (x & w & Hd). exists x, w. split; [done|].
  pose proof (DecodeRune_width _ _ _ Hd) as [Hw Hw']. destruct Ht as [->|[t' ->]].
  - rewrite app_nil_r in *. split; [|done]. apply not_elem_of_cons in Hl as [Hb _].
    apply DecodeRune_shape in Hd as [(_ & -> & _)|[Hr _]]; [|lia]. intros E. apply Hb. symmetry. by apply bz_inj.
  - destruct (DecodeRune_sep nl (b :: l) t' x w eq_refl Hne Hl Hd) as [Hx Hw2]. done.
Qed.

(** A code point of a class, by the bytes it takes. *)
Lemma DecodeRune_bytes (P : byte -> Prop) (p : Z -> bool) s x w :
  (forall b, is_ascii b -> p (bz b) = true -> P b) -> ((exists y, (128 <= y)%Z /\ p y = true) -> forall b, (128 <= bz b)%Z -> P b) ->
  DecodeRune s = Some (x, w) -> p x = true -> Forall P (take w s).
Proof.
  intros Ha Hb Hd Hp. destruct s as [|b s]; [done|]. pose proof (DecodeRune_shape _ _ _ _ Hd) as [(Hlt & -> & ->)|[Hr Hc]].
  - simpl. rewrite take_0. constructor; [|constructor]. apply Ha; [by apply Z.ltb_lt|done].
  - assert (forall b, (128 <= bz b)%Z -> P b) as HP by eauto.
    destruct w as [|w]; [constructor|]. simpl. constructor.
    + apply HP. destruct (decide (128 <= bz b)%Z) as [|Hn]; [done|]. exfalso.
      unfold DecodeRune in Hd. replace (bz b <? 128)%Z with true in Hd by (symmetry; apply Z.ltb_lt; lia). injection Hd as <- _. lia.
    + apply Forall_lookup. intros i c Hi. rewrite lookup_take_Some in Hi. destruct Hi as [Hi Hlt]. apply HP. apply (Hc i); [lia|done].
Qed.

Lemma mt_star_bytes (P : byte -> Prop) p s s' :
  (forall s x w, DecodeRune s = Some (x, w) -> p x = true -> Forall P (take w s)) ->
  mt (Star (Cls p)) s s' -> exists v, rest s = v ++ rest s' /\ pos s' = pos s + length v /\ Forall P v.
Proof.
  intros HP Hm. remember (Star (Cls p)) as r eqn:Er. induction Hm as [| | | | |r s|r s s1 s2 H1 _ Hne H2 IH| | | | | | |]; simplify_eq.
  - exists []. simpl. split_and!; [done|lia|constructor].
  - destruct (IH eq_refl) as (v & Hv & Hp & Hf). inversion H1 as [|? ? x w Hd Hx| | | | | | | | | | | |]; subst.
    pose proof (DecodeRune_width _ _ _ Hd). exists (take w (rest s) ++ v). cbn [advance rest pos] in *.
    split_and!; [by rewrite <- app_assoc, <- Hv, take_drop|rewrite length_app, length_take; lia|].
    apply Forall_app. split; [eauto|done].
Qed.

Lemma mt_lit_inv l s s' : Forall is_ascii l -> mt (lit l) s s' -> rest s = l ++ rest s' /\ pos s' = pos s + length l.
Proof.
  intros Hl. revert s. induction Hl as [|c l Hc Hl IH]; intros s Hm; [inversion Hm; subst; simpl; split; [done|lia]|].
  assert (forall s s1, mt (Cls (one c)) s s1 -> rest s = c :: rest s1 /\ pos s1 = pos s + 1) as H1.
  { clear -Hc. intros s s1 Hm. inversion Hm as [|? ? x w Hd Hx| | | | | | | | | | | |]; subst. apply Z.eqb_eq in Hx. subst x. cbn [advance rest pos].
    destruct (rest s) as [|b r]; [done|]. apply Z.ltb_lt in Hc. apply DecodeRune_shape in Hd as [(_ & E & ->)|[Hr _]]; [|lia].
    apply bz_inj in E as ->. done. }
  destruct l as [|d l]; [by apply H1|]. change (mt (Cat (Cls (one c)) (lit (d :: l))) s s') in Hm.
  inversion Hm as [| |? ? ? s1 ? Ha Hb| | | | | | | | | | |]; subst. apply H1 in Ha as [Hr Hp]. apply IH in Hb as [Hr' Hp'].
  rewrite Hr, Hr', Hp', Hp. split; [done|simpl; lia].
Qed.

Lemma mt_dots l t s : nl ∉ l -> line_end t -> rest s = l ++ t -> exists s', mt (Star (Cls c_dot)) s s' /\ rest s' = t.
Proof.
  remember (length l) as n eqn:Hn. assert (length l <= n) as Hle by lia. clear Hn. revert l s Hle.
  induction n as [|n IH]; intros l s Hle Hl Ht Hr; (destruct l as [|b l]; [exists s; split; [constructor|done]|]); [simpl in Hle; lia|].
  destruct (DecodeRune_line (b :: l) t) as (x & w & Hd & Hx & Hw); [done..|].
  destruct (IH (drop w (b :: l)) (advance w s)) as (s' & Hm & Hs'); try done.
  - rewrite length_drop. simpl in *. lia.
  - intros Hi. apply Hl. rewrite <- (take_drop w (b :: l)). apply elem_of_app. by right.
  - cbn [advance rest]. rewrite Hr, drop_app_le; [done|lia].
  - exists s'. split; [|done]. apply mt_star_cons with (advance w s); [|simpl; lia|done].
    apply (mt_cls _ _ x w); [by rewrite Hr|]. unfold c_dot. apply negb_true_iff. by apply Z.eqb_neq.
Qed.

Lemma find_from_fuel r n m s : length (rest s) <= n -> length (rest s) <= m -> find_from r n s = find_from r m s.
Proof.
  revert m s. induction n as [|n IH]; intros m s Hn Hm.
  - destruct (rest s) eqn:E; [|simpl in Hn; lia]. destruct m; simpl; rewrite ?E; done.
  - cbn [find_from]. destruct (DecodeRune (rest s)) as [[x w]|] eqn:E.
    + pose proof (DecodeRune_width _ _ _ E). destruct m as [|m]; [lia|]. cbn [find_from]. rewrite E. f_equal.
      apply IH; cbn [advance rest]; rewrite length_drop; lia.
    + destruct m; cbn [find_from]; rewrite ?E; done.
Qed.

Lemma advance_add a b s : a + b <= length (rest s) -> advance b (advance a s) = advance (a + b) s.
Proof.
  intros Hl. unfold advance. cbn [rest pos prev]. f_equal; [|by rewrite drop_drop|lia].
  destruct b as [|b]; [destruct a; simpl; [done|by rewrite Nat.add_0_r]|]. destruct a as [|a]; [done|].
  change (last (take (S b) (drop (S a) (rest s))) = last (take (S a + S b) (rest s))). rewrite <- take_take_drop, last_app.
  destruct (last (take (S b) (drop (S a) (rest s)))) eqn:E; [done|].
  apply last_None, (f_equal length) in E. rewrite length_take, length_drop in E. cbn [length] in E. lia.
Qed.

Lemma find_from_start r n s m : find_from r n s = Some m -> pos s <= m_start m.
Proof.
  revert s. induction n as [|n IH]; intros s; cbn [find_from]; intros [Hm|[_ Hm]]%orelse_Some.
  - apply run_sound in Hm as (s' & c & _ & [= <-]). done.
  - done.
  - apply run_sound in Hm as (s' & c & _ & [= <-]). done.
  - destruct (DecodeRune (rest s)) as [[x w]|]; [|done]. apply IH in Hm. cbn [advance pos] in Hm. lia.
Qed.

Lemma find_from_end r n s m : find_from r n s = Some m -> m_start m <= m_end m <= pos s + length (rest s).
Proof.
  revert s. induction n as [|n IH]; intros s; cbn [find_from]; intros [Hm|[_ Hm]]%orelse_Some; try done.
  1,2: apply run_sound in Hm as (s' & c & Hm & [= <-]); apply mt_consumes in Hm as (v & -> & Hp); cbn; rewrite Hp, length_app; lia.
  destruct (DecodeRune (rest s)) as [[x w]|] eqn:E; [|done]. apply DecodeRune_width in E. apply IH in Hm. cbn [advance pos rest] in Hm.
  rewrite length_drop in Hm. lia.
Qed.

(** A text before the first match is kept. *)
Lemma replace_skip_prefix r f n s k : k <= length (rest s) ->
  find_from r (length (rest s)) s = find_from r (length (rest (advance k s))) (advance k s) ->
  replace_from r f n s = take k (rest s) ++ replace_from r f n (advance k s).
Proof.
  intros Hk Hf. destruct n as [|n]; cbn [replace_from]; [cbn [advance rest]; by rewrite take_drop|]. rewrite Hf.
  destruct (find_from _ _ (advance k s)) as [m|] eqn:E; [|cbn [advance rest]; by rewrite take_drop].
  pose proof (find_from_start _ _ _ _ E) as Hst. pose proof (find_from_end _ _ _ _ E) as [He He2]. cbn [advance pos rest] in Hst, He2.
  rewrite length_drop in He2. rewrite advance_add by (cbn [advance pos]; lia). cbn [advance pos rest].
  replace (m_start m - pos s) with (k + (m_start m - (pos s + k))) by lia. replace (k + (m_end m - (pos s + k))) with (m_end m - pos s) by lia.
  by rewrite <- take_take_drop, <- app_assoc.
Qed.

Lemma find_bol_past r n s : pos s <> 0 -> find_from (Cat Bol r) n s = None.
Proof.
  revert s. induction n as [|n IH]; intros s Hp; cbn [find_from]; unfold match_here; cbn [run]; unfold at_bol;
    rewrite (proj2 (Nat.eqb_neq _ _) Hp); [done|]. cbn [orelse]. destruct (DecodeRune (rest s)) as [[x w]|]; [|done].
  apply IH. cbn. lia.
Qed.

(** An anchored expression matches at the start of the text or not at all. *)
Lemma find_bol r s : FindSubmatchIndex (Cat Bol r) s = match_here (Cat Bol r) (start_of s).
Proof.
  unfold FindSubmatchIndex. destruct (length s) as [|n]; cbn [find_from]; [by destruct (match_here _ _)|].
  destruct (match_here _ _); [done|]. cbn [orelse]. destruct (DecodeRune (rest (start_of s))) as [[x w]|] eqn:E; [|done].
  apply find_bol_past. apply DecodeRune_width in E. cbn. lia.
Qed.

Definition in_class (p : Z -> bool) (b : byte) : Prop := is_ascii b /\ p (bz b) = true.

Lemma mt_cls_inv p s s' : (forall y, (128 <= y)%Z -> p y = false) -> mt (Cls p) s s' ->
  exists b, rest s = b :: rest s' /\ pos s' = pos s + 1 /\ in_class p b.
Proof.
  intros Hp Hm. inversion Hm as [|? ? x w Hd Hx| | | | | | | | | | | |]; subst. destruct (rest s) as [|b r] eqn:E; [done|].
  apply DecodeRune_shape in Hd as [(Hlt & -> & ->)|[Hr _]]; [|by rewrite Hp in Hx].
  exists b. cbn [advance rest pos]. rewrite E. split_and!; [done|done|]. split; [by apply Z.ltb_lt|done].
Qed.

Lemma mt_star_class p s s' : (forall y, (128 <= y)%Z -> p y = false) -> mt (Star (Cls p)) s s' ->
  exists v, rest s = v ++ rest s' /\ pos s' = pos s + length v /\ Forall (in_class p) v.
Proof.
  intros Hp. apply mt_star_bytes. intros u x w. apply DecodeRune_bytes; [done|]. intros (y & Hy & Hpy). by rewrite Hp in Hpy.
Qed.

Lemma c_digit_high y : (128 <= y)%Z -> c_digit y = false.
Proof. intros Hy. unfold c_digit. apply not_true_iff_false. rewrite between_spec. lia. Qed.

Lemma mt_digits n s s' : mt (exactly (Cls c_digit) n Eps) s s' ->
  exists v, rest s = v ++ rest s' /\ pos s' = pos s + length v /\ length v = n /\ Forall (in_class c_digit) v.
Proof.
  revert s. induction n as [|n IH]; intros s Hm; cbn [exactly] in Hm.
  - inversion Hm; subst. exists []. split_and!; [done|simpl; lia|done|constructor].
  - inversion Hm as [| |? ? ? s1 ? Ha Hb| | | | | | | | | | |]; subst. apply mt_cls_inv in Ha as (b & Hr & Hp & Hb'); [|exact c_digit_high].
    apply IH in Hb as (v & Hr' & Hp' & Hl & Hf). exists (b :: v). rewrite Hr, Hr', Hp', Hp. split_and!; [done|simpl; lia|simpl; lia|by constructor].
Qed.

Lemma slice_mid (a b c : gostring) n m : n = length a -> m = length a + length b -> slice (a ++ b ++ c) n m = b.
Proof. intros -> ->. unfold slice. rewrite drop_app_length. replace (length a + length b - length a) with (length b) by lia. apply take_app_length. Qed.

(** Soundness of the search with the captures it keeps. *)
Lemma run_Cat {R} a b s c (k : st -> caps -> option R) : run (Cat a b) s c k = run a s c (fun s' c' => run b s' c' k).
Proof. done. Qed.

Lemma run_Grp {R} n a s c (k : st -> caps -> option R) : run (Grp n a) s c k = run a s c (fun s' c' => k s' ((n, (pos s, pos s')) :: c')).
Proof. done. Qed.

Fixpoint no_groups (r : re) : bool :=
  match r with Grp _ _ => false | Cat a b | Alt a b => no_groups a && no_groups b | Star a | Lazy a => no_groups a | _ => true end.

Lemma loop_captures {R} r lz (k : st -> caps -> option R) x :
  (forall s c (k : st -> caps -> option R), run r s c k = Some x -> exists s', mt r s s' /\ k s' c = Some x) ->
  forall n s c, loop (run r) lz k n s c = Some x -> exists s', mt (Star r) s s' /\ k s' c = Some x.
Proof.
  intros Hr. induction n as [|n IH]; simpl; intros s c H; [eauto using mt_star_nil|].
  assert (k s c = Some x \/ run r s c (fun s' c' => if (pos s' =? pos s)%nat then None else loop (run r) lz k n s' c') = Some x) as [Hk|Hk]
    by (destruct lz; apply orelse_Some in H; naive_solver).
  - eauto using mt_star_nil.
  - apply Hr in Hk as (s1 & Hm & Hk). destruct (pos s1 =? pos s)%nat eqn:E; [done|]. apply Nat.eqb_neq in E.
    apply IH in Hk as (s2 & Hm2 & Hk2). eauto using mt_star_cons.
Qed.

Lemma run_captures {R} r : forall s c (k : st -> caps -> option R) x,
  no_groups r = true -> run r s c k = Some x -> exists s', mt r s s' /\ k s' c = Some x.
Proof.
  induction r; simpl; intros s c k x Hg H; try done.
  - eauto using mt.
  - destruct (DecodeRune (rest s)) as [[y w]|] eqn:E; [|done]. destruct (p y) eqn:Ep; [|done]. eauto using mt.
  - apply andb_true_iff in Hg as [H1 H2]. apply IHr1 in H as (s1 & Hm1 & H); [|done]. apply IHr2 in H as (s2 & Hm2 & H); eauto using mt.
  - apply andb_true_iff in Hg as [H1 H2]. apply orelse_Some in H as [H|[_ H]];
      [apply IHr1 in H as (s1 & Hm & H)|apply IHr2 in H as (s1 & Hm & H)]; eauto using mt.
  - change (loop (run r) false k (S (length (rest s))) s c = Some x) in H. eapply loop_captures in H; eauto.
  - change (loop (run r) true k (S (length (rest s))) s c = Some x) in H. eapply loop_captures in H as (? & ? & ?); eauto using mt.
  - destruct (at_bol s) eqn:E; [|done]. eauto using mt.
  - destruct (at_eol s) eqn:E; [|done]. eauto using mt.
  - destruct (at_wordb s) eqn:E; [|done]. eauto using mt.
  - destruct (at_bolm s) eqn:E; [|done]. eauto using mt.
  - destruct (at_eolm s) eqn:E; [|done]. eauto using mt.
Qed.

Lemma ascii_lit l : forallb (fun b => (bz b <? 128)%Z) l = true -> Forall is_ascii l.
Proof. intros H. apply Forall_forall. intros b Hb. rewrite forallb_forall in H. apply H. by apply list_elem_of_In. Qed.

(** Every class of an expression holds ASCII characters of [q] only. *)
Fixpoint within (q : Z -> bool) (r : re) : Prop :=
  match r with
  | Cls p => forall y, p y = true -> (y < 128)%Z /\ q y = true
  | Cat a b | Alt a b => within q a /\ within q b
  | Star a | Lazy a | Grp _ a => within q a
  | _ => True
  end.

Lemma mt_within q r s s' : mt r s s' -> within q r -> exists v, rest s = v ++ rest s' /\ pos s' = pos s + length v /\ Forall (in_class q) v.
Proof.
  induction 1 as [s|p s x w Hd Hx|a b s s1 s2 _ IH1 _ IH2|a b s s' _ IH|a b s s' _ IH|a s|a s s1 s2 _ IH1 _ _ IH2|a s s' _ IH|n a s s' _ IH| | | | | ];
    cbn [within]; intros Hw.
  all: try (exists []; cbn; split_and!; [done|lia|constructor]); try (by apply IH); try (destruct Hw; by apply IH).
  - destruct (rest s) as [|b r] eqn:E; [done|]. destruct (Hw x Hx) as [Hlt Hq].
    apply DecodeRune_shape in Hd as [(Hb & -> & ->)|[Hr _]]; [|lia].
    exists [b]. cbn [advance rest pos]. rewrite E. split_and!; [done|done|]. repeat constructor; [by apply Z.ltb_lt|done].
  - destruct Hw as [Hw1 Hw2]. destruct (IH1 Hw1) as (v & -> & Hp & Hv). destruct (IH2 Hw2) as (u & -> & Hp' & Hu).
    exists (v ++ u). rewrite Hp', Hp, length_app, <- app_assoc. split_and!; [done|lia|by apply Forall_app].
  - destruct (IH1 Hw) as (v & -> & Hp & Hv). destruct (IH2 Hw) as (u & -> & Hp' & Hu).
    exists (v ++ u). rewrite Hp', Hp, length_app, <- app_assoc. split_and!; [done|lia|by apply Forall_app].
Qed.

Lemma MatchString_bol r s : MatchString (Cat Bol r) s = true -> exists s', mt r (start_of s) s'.
Proof.
  unfold MatchString. rewrite find_bol. destruct (match_here _ _) as [m|] eqn:H; [|done]. intros _.
  apply run_sound in H as (s' & c & Hm & _). inversion Hm as [| |? ? ? s1 ? Ha Hb| | | | | | | | | | |]; subst. inversion Ha; subst. eauto.
Qed.

Lemma mt_star_intro p v : forall s t, Forall (in_class p) v -> rest s = v ++ t -> exists s', mt (Star (Cls p)) s s' /\ rest s' = t.
Proof.
  induction v as [|b v IH]; intros s t Hv Hr; [exists s; split; [constructor|done]|]. inversion Hv as [|? ? [Ha Hb] Hv']; subst.
  destruct (IH (advance 1 s) t Hv') as (s' & Hm & Hs'); [cbn [advance rest]; by rewrite Hr|]. exists s'. split; [|done].
  apply mt_star_cons with (advance 1 s); [|cbn; lia|done]. apply (mt_cls _ _ (bz b) 1); [|done]. rewrite Hr. cbn. by rewrite Ha.
Qed.

Lemma mt_digits_intro v : forall s t, Forall (in_class c_digit) v -> rest s = v ++ t -> exists s', mt (exactly (Cls c_digit) (length v) Eps) s s' /\ rest s' = t.
Proof.
  induction v as [|b v IH]; intros s t Hv Hr; [exists s; split; [constructor|done]|]. inversion Hv as [|? ? [Ha Hb] Hv']; subst.
  destruct (IH (advance 1 s) t Hv') as (s' & Hm & Hs'); [cbn [advance rest]; by rewrite Hr|]. exists s'. split; [|done].
  cbn [length exactly]. eapply mt_cat; [|done]. apply (mt_cls _ _ (bz b) 1); [|done]. rewrite Hr. cbn. by rewrite Ha.
Qed.
