(* ===== verification/Markdown.v ===== *)
(** The Markdown layer of internal/apexv1/markdown.go: documents as numbered
    lines with their fenced code marked, ATX headings, level-2 sections, prose
    detection and the check line every scenario carries. *)
From S2P Require Import Prelude Regex.

(** ** Findings *)

Record Finding := MkFinding {
  fd_File : gostring; fd_Line : nat; fd_Message : gostring; fd_Code : gostring; fd_Fix : gostring }.

Definition finding (f : gostring) (l : nat) (m : gostring) : Finding := MkFinding f l m [] [].

#[export] Instance Finding_eq_dec : EqDecision Finding.
Proof. solve_decision. Defined.

Definition Finding_Text (f : Finding) : gostring :=
  if fd_Fix f <>s "" then fd_Message f ++ " — " ++ fd_Fix f else fd_Message f.

Definition Finding_String (f : Finding) : gostring :=
  if Nat.ltb 0 (fd_Line f) then fd_File f ++ ":" ++ ItoaN (fd_Line f) ++ ": " ++ Finding_Text f
  else fd_File f ++ ": " ++ Finding_Text f.

(** ** Lines *)

Record mdLine := MdLine { md_N : nat; md_Text : gostring; md_InCode : bool }.

#[export] Instance mdLine_eq_dec : EqDecision mdLine.
Proof. solve_decision. Defined.

Definition is_fence (trimmed : gostring) : bool := HasPrefix trimmed "```" || HasPrefix trimmed "~~~".

(** The loop of splitLines from line [i] on, under the open fence [fence]
    ("" outside code). *)
Fixpoint scan_lines (fence : gostring) (i : nat) (raw : list gostring) : list mdLine :=
  match raw with
  | [] => []
  | text :: raw' =>
      let trimmed := TrimSpace text in
      if (fence =s "") && is_fence trimmed then
        MdLine (i + 1) text true :: scan_lines (take 3 trimmed) (i + 1) raw'
      else if (fence <>s "") && is_fence trimmed && HasPrefix trimmed fence then
        MdLine (i + 1) text true :: scan_lines "" (i + 1) raw'
      else MdLine (i + 1) text (fence <>s "") :: scan_lines fence (i + 1) raw'
  end.

(** A document's raw lines: CRLF read as LF, the empty piece after a final
    newline dropped. *)
Definition raw_lines (doc : gostring) : list gostring :=
  let raw := split_byte nl (ReplaceAll doc [x0d; x0a] [x0a]) in
  match last raw with
  | Some [] => removelast raw
  | _ => raw
  end.

Definition splitLines (doc : gostring) : list mdLine := scan_lines "" 0 (raw_lines doc).

Fixpoint count_hash (s : gostring) : nat :=
  match s with
  | c :: s' => if Byte.eqb c x23 then S (count_hash s') else 0
  | [] => 0
  end.

Definition blank_tab : list gostring := [[x20]; [x09]].

Definition headingLevel (l : mdLine) : nat * gostring :=
  if md_InCode l then (0, [])
  else
    let t := TrimRight (md_Text l) blank_tab in
    let n := count_hash t in
    if Nat.eqb n 0 || Nat.ltb 6 n || Nat.leb (length t) n || negb (bool_decide (t !! n = Some x20))
    then (0, [])
    else (n, TrimSpace (drop (n + 1) t)).

(** ** Sections *)

Record section := MkSection {
  sec_Level : nat; sec_Title : gostring; sec_Line : nat; sec_Body : list mdLine }.

Definition add_body (l : mdLine) (s : section) : section :=
  MkSection (sec_Level s) (sec_Title s) (sec_Line s) (sec_Body s ++ [l]).

(** One line of h2Sections' loop: the sections so far and the open one. *)
Definition h2_step (acc : list section * option nat) (l : mdLine) : list section * option nat :=
  let '(out, cur) := acc in
  let '(lv, title) := headingLevel l in
  if Nat.ltb 0 lv && Nat.leb lv 2 then
    if Nat.eqb lv 2 then (out ++ [MkSection lv title (md_N l) []], Some (length out))
    else (out, None)
  else match cur with
       | Some c => (alter (add_body l) c out, cur)
       | None => (out, None)
       end.

Definition h2Sections (lines : list mdLine) : list section := fst (foldl h2_step ([], None) lines).

(** ** Prose *)

(** The inner loop of hasProse on one trimmed line: whether it found prose, and
    whether a comment is open after it. Each round drops at least three bytes,
    so [length t] rounds are enough (see [prose_line_fuel]). *)
Fixpoint prose_line (fuel : nat) (inComment : bool) (t : gostring) : bool * bool :=
  match fuel with
  | O => (false, inComment)
  | S f =>
      if t =s "" then (false, inComment)
      else if inComment then
        match Index t "-->" with
        | None => (false, true)
        | Some e => prose_line f false (TrimSpace (drop (e + 3) t))
        end
      else
        match Index t "<!--" with
        | None => (true, false)
        | Some start =>
            if TrimSpace (take start t) <>s "" then (true, false)
            else prose_line f true (drop (start + 4) t)
        end
  end.

Fixpoint prose_lines (inComment : bool) (body : list mdLine) : bool :=
  match body with
  | [] => false
  | l :: body' =>
      let t := TrimSpace (md_Text l) in
      let '(found, c) := prose_line (S (length t)) inComment t in
      if found then true else prose_lines c body'
  end.

Definition hasProse (body : list mdLine) : bool := prose_lines false body.

Definition joinBody (body : list mdLine) : gostring :=
  mjoin ((fun l => md_Text l ++ [nl]) <$> body).

(** ** Check lines *)

(** markdown.go's checkLineRe: an optional list marker, [check], an optional
    kind in parentheses (group 1), a colon and the value (group 2). *)
Definition checkLineRe : re :=
  cats [ Bol; Star (Cls c_space);
         Opt (Cat (Cls (cor (one "-") (one "*"))) (Plus (Cls c_space)));
         lit "check";
         Opt (cats [Star (Cls c_space); lit "("; Grp 1 (Star (Cls (cnot (one ")")))); lit ")"]);
         lit ":"; Star (Cls c_space); Grp 2 (Star (Cls c_dot)); Eol ].

Definition HumanReview : gostring := "human-review".
Definition CheckKindFull : gostring := "full".
Definition CheckKindLive : gostring := "live".

Definition isFullKind (kind : gostring) : bool := (kind =s CheckKindFull) || (kind =s CheckKindLive).

Definition badCheckKind (what kind value : gostring) (hasKind : bool) : gostring :=
  if negb hasKind then []
  else if negb (isFullKind kind) then
    what ++ " kind `(" ++ kind ++ ")` is not `check (full):`, the one kind a check takes (`(live)`, its v1.2 name, is still accepted), so ape cannot tell how to run it" ++
    " — write `check (full): <command>` for a check that does not run on every change (a service, a network, a browser, or long), else a plain `check: <command>`"
  else if (value =s HumanReview) || (value =s "") then
    what ++ " is `check (" ++ kind ++ "):` on " ++ (if value =s HumanReview then bs "human-review" else bs "nothing") ++
    ", but only a command runs in a full run — write `check (full): <command>`, or a plain `check: " ++ HumanReview ++ "`"
  else [].

(** A kebab-case slug. *)
Definition c_slug : Z -> bool := cor c_lower c_digit.
Definition slugRe : re :=
  cats [ Bol; Cls c_lower; Star (Cls c_slug); Star (Cat (lit "-") (Plus (Cls c_slug))); Eol ].

(** A change id: a lower-case letter, then 2 to 39 of [a-z0-9-]. *)
Definition c_id : Z -> bool := cor c_slug (one "-").
Definition ChangeIDRe : re := cats [ Bol; Cls c_lower; Rep (Cls c_id) 2 39; Eol ].

(** strings.ToUpper of a string of one byte; an invalid encoding becomes U+FFFD. *)
Definition upper1 (c : byte) : gostring :=
  if c_lower (bz c) then
    match Byte.of_N (Byte.to_N c - 32) with Some u => [u] | None => [c] end
  else if (bz c <? 128)%Z then [c] else [xef; xbf; xbd].

Definition titleFromSlug (slug : gostring) : gostring :=
  match ReplaceAll slug "-" " " with
  | [] => []
  | c :: s => upper1 c ++ s
  end.

(** strconv.FormatFloat(float64(n)/1024, 'f', 1, 64): n/1024 is exact, and a tie
    rounds to even. *)
Definition sizeKB (n : Z) : gostring :=
  let q := (n * 5 / 512)%Z in
  let r := (n * 5 mod 512)%Z in
  let q' := if (256 <? r)%Z || ((r =? 256)%Z && Z.odd q) then (q + 1)%Z else q in
  Itoa (q' / 10) ++ "." ++ Itoa (q' mod 10) ++ " KB".

(** ** Facts: lines *)

(** The fence state after some lines. *)
Definition fence_step (fence text : gostring) : gostring :=
  let trimmed := TrimSpace text in
  if (fence =s "") && is_fence trimmed then take 3 trimmed
  else if (fence <>s "") && is_fence trimmed && HasPrefix trimmed fence then []
  else fence.

Definition fence_after (fence : gostring) (raw : list gostring) : gostring := foldl fence_step fence raw.

(** The fuel of [prose_line] is enough: more of it changes nothing. *)
Lemma prose_line_fuel f g b t : length t <= f -> length t <= g -> prose_line f b t = prose_line g b t.
Proof.
  revert g b t. induction f as [|f IH]; intros [|g] b t Hf Hg; try (by destruct t; [|simpl in *; lia]).
  cbn [prose_line]. destruct (t =s "") eqn:Et; [done|]. destruct b.
  - destruct (Index t "-->") as [e|] eqn:E; [|done]. apply Index_spec, (f_equal length) in E. rewrite !length_app, length_take in E.
    destruct (Trim_infix (drop (e + 3) t) spaces) as (x & y & Hx). apply (f_equal length) in Hx. rewrite !length_app, length_drop in Hx.
    fold (TrimSpace (drop (e + 3) t)) in Hx. change (length "-->") with 3 in E. apply IH; lia.
  - destruct (Index t "<!--") as [e|] eqn:E; [|done]. destruct (_ <>s _); [done|]. apply Index_spec, (f_equal length) in E.
    rewrite !length_app, length_take in E. change (length "<!--") with 4 in E. apply IH; rewrite length_drop; lia.
Qed.

(** The code flag a line gets under an open fence. *)
Definition fence_flag (fence text : gostring) : bool :=
  ((fence =s "") && is_fence (TrimSpace text)) || (fence <>s "").

Lemma scan_lines_cons fence i t raw :
  scan_lines fence i (t :: raw) =
  MdLine (i + 1) t (fence_flag fence t) :: scan_lines (fence_step fence t) (i + 1) raw.
Proof.
  simpl. unfold fence_flag, fence_step.
  destruct (bool_decide (fence = "")) eqn:E; simpl.
  - by destruct (is_fence (TrimSpace t)).
  - by destruct (is_fence (TrimSpace t) && HasPrefix (TrimSpace t) fence).
Qed.

Lemma scan_lines_app fence i a b :
  scan_lines fence i (a ++ b) =
  scan_lines fence i a ++ scan_lines (fence_after fence a) (i + length a) b.
Proof.
  revert fence i. induction a as [|t a IH]; intros fence i.
  - simpl. by rewrite Nat.add_0_r.
  - change ((t :: a) ++ b) with (t :: (a ++ b)). rewrite !scan_lines_cons, IH. simpl.
    by rewrite <- Nat.add_assoc.
Qed.

Lemma scan_lines_text fence i raw : md_Text <$> scan_lines fence i raw = raw.
Proof.
  revert fence i. induction raw as [|t raw IH]; intros; [done|].
  rewrite scan_lines_cons. simpl. by rewrite IH.
Qed.

Lemma scan_lines_lookup fence i raw k l :
  scan_lines fence i raw !! k = Some l -> md_N l = i + k + 1.
Proof.
  revert fence i k. induction raw as [|t raw IH]; intros fence i k; [done|].
  rewrite scan_lines_cons. destruct k as [|k]; simpl.
  - intros [= <-]. simpl. lia.
  - intros H%IH. lia.
Qed.

Lemma length_scan_lines fence i raw : length (scan_lines fence i raw) = length raw.
Proof. rewrite <- (scan_lines_text fence i raw) at 2. by rewrite length_fmap. Qed.

Lemma TrimSpace_nil : TrimSpace [] = [].
Proof. done. Qed.

Lemma fence_step_blank fence : fence_step fence [] = fence.
Proof.
  unfold fence_step. rewrite TrimSpace_nil. simpl.
  by rewrite !andb_false_r.
Qed.

Lemma fence_after_blank fence k : fence_after fence (replicate k []) = fence.
Proof. induction k as [|k IH]; [done|]. unfold fence_after in *. simpl. by rewrite fence_step_blank. Qed.

Lemma fence_after_app fence a b : fence_after fence (a ++ b) = fence_after (fence_after fence a) b.
Proof. apply foldl_app. Qed.

(** The line after an open fence is code. *)
Lemma fence_flag_false fence t : fence_flag fence t = false -> fence = [].
Proof.
  unfold fence_flag. intros [_ H]%orb_false_iff.
  by apply negb_false_iff, bool_decide_eq_true in H.
Qed.

Lemma raw_lines_no_nl doc : Forall (fun t => nl ∉ t) (raw_lines doc).
Proof.
  unfold raw_lines. set (r := split_byte _ _).
  assert (Forall (fun t => nl ∉ t) r) as Hr by apply split_byte_pieces.
  destruct (last r) as [[|]|] eqn:E; [|done..].
  rewrite removelast_firstn_len. by apply Forall_take.
Qed.

(** Documents without carriage returns. *)
Lemma Index_no_cr s : x0d ∉ s -> Index s [x0d; x0a] = None.
Proof.
  intros H. destruct (Index s [x0d; x0a]) eqn:E; [|done].
  apply Index_spec in E. exfalso. apply H. rewrite E. set_solver.
Qed.

Lemma ReplaceAll_no_cr s : x0d ∉ s -> ReplaceAll s [x0d; x0a] [x0a] = s.
Proof. intros H. apply replace_skip_absent; [by apply Index_no_cr|done]. Qed.

Lemma raw_lines_unlines ts :
  Forall (fun t => nl ∉ t) ts -> Forall (fun t => x0d ∉ t) ts -> raw_lines (unlines ts) = ts.
Proof.
  intros Hn Hr. unfold raw_lines. rewrite ReplaceAll_no_cr.
  - rewrite split_unlines by done. rewrite last_snoc. by rewrite removelast_last.
  - unfold unlines. rewrite list_elem_of_join. intros (t & Ht & (u & -> & Hu)%list_elem_of_fmap).
    rewrite Forall_forall in Hr. apply (Hr u Hu). apply elem_of_app in Ht as [?|?%list_elem_of_singleton]; done.
Qed.

(** The bytes of a line are the document's, once CRLF is read as LF. *)
Lemma raw_lines_bytes doc t c : t ∈ raw_lines doc -> c ∈ t -> c ∈ ReplaceAll doc [x0d; x0a] [x0a].
Proof.
  unfold raw_lines. generalize (ReplaceAll doc [x0d; x0a] [x0a]). clear doc. intros doc Ht Hc.
  assert (t ∈ split_byte nl doc) as Ht'.
  { destruct (last _) as [[|]|]; [|done..]. rewrite removelast_firstn_len in Ht.
    apply elem_of_take in Ht as (i & Hi & _). by apply list_elem_of_lookup_2 in Hi. }
  rewrite <- (Join_split_byte nl doc). clear Ht. induction (split_byte nl doc) as [|u us IH]; [by apply not_elem_of_nil in Ht'|].
  apply elem_of_cons in Ht' as [->|Ht'].
  - destruct us; simpl; set_solver.
  - destruct us as [|v us]; [by apply not_elem_of_nil in Ht'|].
    rewrite Join_cons by done. set_solver.
Qed.

Lemma raw_lines_subset doc t c : x0d ∉ doc -> t ∈ raw_lines doc -> c ∈ t -> c ∈ doc.
Proof. intros Hcr Ht Hc. rewrite <- (ReplaceAll_no_cr doc Hcr). by eapply raw_lines_bytes. Qed.
