(* ===== verification/TestCounts.v ===== *)
(** What a test runner's own summary says ran: internal/apexv1/testcounts.go, the
    counts read from a check's output and the verdict on a run that only skipped. *)
From S2P Require Import Prelude Regex.

(** ** The runners' summaries *)

(** testnames.go's escape sequences, dropped before an output is read. *)
Definition ansiRe : re :=
  cats [ lit [x1b]; lit "["; Star (Cls (cor c_digit (one ";"))); Cls (cor c_upper c_lower) ].

Definition digits : re := Plus (Cls c_digit).
Definition blanks : re := Star (Cls c_space).
Definition alts (l : list gostring) : re := match l with [] => Eps | w :: l' => foldl (fun r v => Alt r (lit v)) (lit w) l' end.
Definition plural (w : gostring) : re := Cat (lit w) (Opt (lit "s")).

Definition goVerboseRe : re := cats [ BolM; blanks; lit "--- "; Grp 1 (alts [bs "PASS"; bs "SKIP"; bs "FAIL"]); lit ": " ].
Definition goJSONRe : re :=
  cats [ lit (dq ++ "Action" ++ dq ++ ":" ++ dq); Grp 1 (alts [bs "pass"; bs "skip"; bs "fail"]);
         lit (dq ++ "," ++ dq ++ "Package" ++ dq ++ ":" ++ dq); Star (Cls (cnot (one x22)));
         lit (dq ++ "," ++ dq ++ "Test" ++ dq ++ ":") ].
Definition gotestsumRe : re :=
  cats [ BolM; lit "DONE "; Grp 1 digits; lit " "; plural "test"; Opt (cats [ lit ", "; Grp 2 digits; lit " skipped" ]);
         Opt (cats [ lit ", "; Grp 3 digits; lit " "; plural "failure" ]) ].
Definition pytest_kind : re :=
  Alt (alts [bs "passed"; bs "failed"; bs "skipped"])
    (Alt (plural "error") (Alt (alts [bs "xfailed"; bs "xpassed"; bs "deselected"]) (plural "warning"))).
Definition pytestRe : re :=
  cats [ BolM; Opt (Cat (Plus (lit "=")) (lit " "));
         Grp 1 (Plus (cats [ digits; lit " "; pytest_kind; Opt (lit ", ") ])); lit " in ";
         Plus (Cls (cor c_digit (one "."))); lit "s" ].
Definition pytestTokRe : re :=
  cats [ Grp 1 digits; lit " "; Grp 2 (Alt (alts [bs "passed"; bs "failed"; bs "skipped"]) (plural "error")) ].
Definition cargoRe : re :=
  cats [ BolM; lit "test result: "; Plus (Cls c_word); lit ". "; Grp 1 digits; lit " passed; "; Grp 2 digits;
         lit " failed; "; Grp 3 digits; lit " ignored;" ].
Definition node_line (w : gostring) : re := cats [ BolM; Cls (isrune 8505); lit (bs " " ++ w ++ " "); Grp 1 digits; EolM ].
Definition nodePassRe : re := node_line "pass".
Definition nodeSkipRe : re := node_line "skipped".
Definition nodeFailRe : re := node_line "fail".
Definition jestRe : re :=
  cats [ BolM; lit "Tests:"; Plus (Cls c_space); Grp 1 (cats [ Star (Cls c_dot); digits; lit " total" ]); blanks; EolM ].
Definition vitestRe : re :=
  cats [ BolM; blanks; lit "Tests"; Plus (Cls c_space); Grp 1 (Cat (Cls c_dot) (Lazy (Cls c_dot))); Plus (Cls c_space);
         lit "("; digits; lit ")"; blanks; EolM ].
Definition countTokRe : re := cats [ Grp 1 digits; lit " "; Grp 2 (alts [bs "passed"; bs "failed"; bs "skipped"; bs "todo"]) ].
Definition mochaRe : re := cats [ BolM; blanks; Grp 1 digits; lit " "; Grp 2 (alts [bs "passing"; bs "pending"; bs "failing"]); WordB ].
Definition flutterRe : re :=
  cats [ BolM; digits; lit ":"; digits; lit " +"; Grp 1 digits; Opt (Cat (lit " ~") (Grp 2 digits));
         Opt (Cat (lit " -") (Grp 3 digits)); lit ": " ].

(** ** The counts *)

Record TestCounts := MkCounts { tc_Passed : Z; tc_Skipped : Z; tc_Failed : Z; tc_Parser : gostring }.

(** TestCounts.add *)
Definition add (c : TestCounts) (kind : gostring) (n : Z) : TestCounts :=
  let '(MkCounts p s f r) := c in
  if kind =s "passed" then MkCounts (wrap64 (p + n)) s f r
  else if (kind =s "skipped") || (kind =s "todo") then MkCounts p (wrap64 (s + n)) f r
  else if (kind =s "failed") || (kind =s "error") || (kind =s "errors") then MkCounts p s (wrap64 (f + n)) r
  else c.

(** testCounts' atoi, of a group of digits or one that took no part: what
    strconv.Atoi returns beside its error, 0 of "" and the last int past it. *)
Definition atoi (s : gostring) : Z :=
  match s with
  | [] => 0
  | _ => match digits_value 0 s with Some n => Z.min n (2 ^ 63 - 1) | None => 0 end
  end%Z.

(** A literal map from the runner's words to add's kinds. *)
Definition kind_of (m : list (gostring * gostring)) (w : gostring) : gostring :=
  match List.find (fun p => fst p =s w) m with Some (_, k) => k | None => [] end.

(** Each match counted: [kind] and [count] read its groups. *)
Definition tally (parser s : gostring) (kind : mres -> gostring) (count : mres -> Z) (ms : list mres) : TestCounts :=
  foldl (fun c m => add c (kind m) (count m)) (MkCounts 0 0 0 parser) ms.

Definition gotestsum_counts (out : gostring) : option TestCounts :=
  m ← last (FindAll gotestsumRe out);
  let skipped := atoi (group out m 2) in
  let failed := atoi (group out m 3) in
  Some (MkCounts (wrap64 (wrap64 (atoi (group out m 1) - skipped) - failed)) skipped failed "gotestsum").

Definition tally_all (parser : gostring) (r : re) (kind : gostring -> mres -> gostring) (count : gostring -> mres -> Z)
    (out : gostring) : option TestCounts :=
  match FindAll r out with [] => None | ms => Some (tally parser out (kind out) (count out) ms) end.

Definition goJSON_counts : gostring -> option TestCounts :=
  tally_all "go test -json" goJSONRe
    (fun out m => kind_of [(bs "pass", bs "passed"); (bs "skip", bs "skipped"); (bs "fail", bs "failed")] (group out m 1)) (fun _ _ => 1%Z).
Definition goVerbose_counts : gostring -> option TestCounts :=
  tally_all "go test -v" goVerboseRe
    (fun out m => kind_of [(bs "PASS", bs "passed"); (bs "SKIP", bs "skipped"); (bs "FAIL", bs "failed")] (group out m 1)) (fun _ _ => 1%Z).

Definition cargo_counts (out : gostring) : option TestCounts :=
  match FindAll cargoRe out with
  | [] => None
  | ms => Some (foldl (fun c m => MkCounts (wrap64 (tc_Passed c + atoi (group out m 1))) (wrap64 (tc_Skipped c + atoi (group out m 3)))
                                    (wrap64 (tc_Failed c + atoi (group out m 2))) (tc_Parser c)) (MkCounts 0 0 0 "cargo test") ms)
  end.

Definition first_count (r : re) (out : gostring) : option Z :=
  (fun m => atoi (group out m 1)) <$> FindSubmatchIndex r out.

Definition node_counts (out : gostring) : option TestCounts :=
  passed ← first_count nodePassRe out;
  Some (MkCounts passed (default 0%Z (first_count nodeSkipRe out)) (default 0%Z (first_count nodeFailRe out)) "node --test").

(** The tokens of the last summary line. *)
Definition token_counts (parser : gostring) (line tok : re) (out : gostring) : option TestCounts :=
  m ← last (FindAll line out);
  let s := group out m 1 in
  Some (tally parser s (fun t => group s t 2) (fun t => atoi (group s t 1)) (FindAll tok s)).

Definition mocha_counts : gostring -> option TestCounts :=
  tally_all "mocha" mochaRe
    (fun out m => kind_of [(bs "passing", bs "passed"); (bs "pending", bs "skipped"); (bs "failing", bs "failed")] (group out m 2))
    (fun out m => atoi (group out m 1)).

Definition flutter_counts (out : gostring) : option TestCounts :=
  (fun m => MkCounts (atoi (group out m 1)) (atoi (group out m 2)) (atoi (group out m 3)) "flutter test") <$> last (FindAll flutterRe out).

(** The runners, in the order testCounts tries them. *)
Definition runners : list (gostring -> option TestCounts) :=
  [ gotestsum_counts; goJSON_counts; goVerbose_counts; cargo_counts; node_counts; token_counts "jest" jestRe countTokRe;
    token_counts "vitest" vitestRe countTokRe; token_counts "pytest" pytestRe pytestTokRe; mocha_counts; flutter_counts ].

Definition testCounts (out : gostring) : option TestCounts :=
  let out := ReplaceAll (ReplaceAllRe ansiRe out (fun _ => [])) [x0d] [nl] in
  foldr (fun f rest => match f out with Some c => Some c | None => rest end) None runners.

(** ** The verdict on skips *)

Definition ReasonAllSkipped : gostring := "all-skipped".
Definition ReasonNamedSkip : gostring := "named-skip".

Definition namesTestsRe : re :=
  Alt (cats [ Alt Bol (Cls c_space);
              Alt (Cat (lit "-run") (Cls (cor (one "=") (one " ")))) (Alt (Cat (lit "-test.run") (Cls (cor (one "=") (one " "))))
              (Alt (Cat (lit "--plain-name") (Cls (cor (one "=") (one " ")))) (Alt (Cat (lit "--name") (Cls (cor (one "=") (one " "))))
              (Cat (lit "-k") (Cls (cor (one "=") (one " "))))))) ])
      (cats [ Plus (Cls (cnot c_space)); lit ".py::"; Plus (Cls (cnot c_space)) ]).

(** The unrun reason and detail, [None] when the counts give none. *)
Definition skipVerdict (cmd : gostring) (c : TestCounts) : option (gostring * gostring) :=
  if (tc_Passed c =? 0)%Z && (0 <? tc_Skipped c)%Z && (tc_Failed c =? 0)%Z then
    Some (ReasonAllSkipped, bs "exit 0, but every test it ran was skipped (" ++ Itoa (tc_Skipped c) ++ " skipped, 0 passed, by " ++ tc_Parser c ++
      "'s summary): nothing was tested — a harness that cannot set up what it needs should fail, not skip (APE_GATE=1 is set)")
  else if (0 <? tc_Skipped c)%Z && MatchString namesTestsRe cmd then
    Some (ReasonNamedSkip, bs "exit 0, but the check names its tests and " ++ Itoa (tc_Skipped c) ++ " of them was skipped (" ++ tc_Parser c ++
      "'s summary): the test it names did not run")
  else None.

(** judgeSkips (runner.go): the counts, and the skip verdict when it judges. *)
Definition judgeSkips (cmd out : gostring) (judge : bool) : option TestCounts * option (gostring * gostring) :=
  match testCounts out with
  | None => (None, None)
  | Some c => (Some c, if judge then skipVerdict cmd c else None)
  end.

(** ** Real outputs, of testdata/testcounts/ *)

Definition go_skip_v : gostring := "=== RUN   TestA
    a_test.go:3: harness unavailable
--- SKIP: TestA (0.00s)
=== RUN   TestB
    a_test.go:4: harness unavailable
--- SKIP: TestB (0.00s)
PASS
ok  	p1	0.003s
".

Definition cargo_pass : gostring := "
running 2 tests
i.
test result: ok. 1 passed; 0 failed; 1 ignored; 0 measured; 0 filtered out; finished in 0.00s


running 0 tests

test result: ok. 0 passed; 0 failed; 0 ignored; 0 measured; 0 filtered out; finished in 0.00s

".

Definition pytest_skip : gostring := "ss                                                                       [100%]
2 skipped in 0.00s
".

Definition node_skip : gostring := "﹣ a (1.014565ms) # harness unavailable
﹣ b (0.156113ms) # SKIP
ℹ tests 2
ℹ suites 0
ℹ pass 0
ℹ fail 0
ℹ cancelled 0
ℹ skipped 2
ℹ todo 0
ℹ duration_ms 97.174463
".

Definition jest_skip : gostring := "Test Suites: 1 skipped, 0 of 1 total
Tests:       2 skipped, 2 total
Snapshots:   0 total
Time:        0.204 s, estimated 1 s
Ran all test suites.
".

Definition flutter_vm_skip : gostring := "00:00 +0: loading /work/fl/test/a_test.dart
00:00 +0: a
  Skip: harness unavailable
00:00 +0 ~1: b
00:00 +0 ~2: All tests skipped.
".

Definition vitest_allskip : gostring := "
 RUN  v3.2.7 /work/vt

 ↓ a.test.js (3 tests | 3 skipped)

 Test Files  1 skipped (1)
      Tests  3 skipped (3)
   Start at  14:22:36
   Duration  453ms (transform 22ms, setup 0ms, collect 12ms, tests 0ms, environment 0ms, prepare 116ms)

".

Example testCounts_real :
  testCounts <$> [go_skip_v; cargo_pass; pytest_skip; node_skip; jest_skip; flutter_vm_skip; vitest_allskip] =
  [ Some (MkCounts 0 2 0 "go test -v"); Some (MkCounts 1 1 0 "cargo test"); Some (MkCounts 0 2 0 "pytest");
    Some (MkCounts 0 2 0 "node --test"); Some (MkCounts 0 2 0 "jest"); Some (MkCounts 0 2 0 "flutter test");
    Some (MkCounts 0 3 0 "vitest") ].
Proof. vm_compute. reflexivity. Qed.
