(* ===== verification/Spec.v ===== *)
(** Capability specs, internal/apexv1/spec.go: parsing, rendering, validation
    and the near-miss search by edit distance. *)
From S2P Require Import Prelude Regex Markdown.

Definition RequirementPrefix : gostring := "Requirement:".
Definition ScenarioPrefix : gostring := "Scenario:".

Record Scenario := MkScenario {
  sc_Name : gostring; sc_Line : nat; sc_Checks : list gostring;
  sc_Kinds : list gostring; sc_KindLines : list nat; sc_tagged : list bool }.

Definition Full (s : Scenario) : bool :=
  match sc_Kinds s with k :: _ => isFullKind k | [] => false end.

Record Requirement := MkRequirement {
  r_Name : gostring; r_Line : nat; r_Text : gostring; r_Scenarios : list Scenario; r_Stray : list nat }.

Definition new_requirement (name : gostring) (line : nat) : Requirement := MkRequirement name line [] [] [].

Record Spec := MkSpec {
  s_Title : gostring; s_Purpose : gostring; s_Preamble : gostring;
  s_Requirements : list Requirement; s_Other : list nat }.

#[export] Instance Scenario_eq_dec : EqDecision Scenario.
Proof. solve_decision. Defined.
#[export] Instance Requirement_eq_dec : EqDecision Requirement.
Proof. solve_decision. Defined.
#[export] Instance Spec_eq_dec : EqDecision Spec.
Proof. solve_decision. Defined.


(** ** Requirements *)

Definition new_scenario (name : gostring) (line : nat) : Scenario := MkScenario name line [] [] [] [].

Definition add_check (check kind : gostring) (line : nat) (tagged : bool) (s : Scenario) : Scenario :=
  MkScenario (sc_Name s) (sc_Line s) (sc_Checks s ++ [check]) (sc_Kinds s ++ [kind])
    (sc_KindLines s ++ [line]) (sc_tagged s ++ [tagged]).

(** The value, kind and whether there is a kind of a check line. *)
Definition check_line (text : gostring) : option (gostring * gostring * bool) :=
  m ← FindSubmatchIndex checkLineRe text;
  let tagged := if group_at m 1 is Some _ then true else false in
  Some (TrimSpace (group text m 2), TrimSpace (group text m 1), tagged).

(** buildRequirement's loop: the scenarios, the stray check lines, the open scenario. *)
Definition build_step (acc : list Scenario * list nat * option nat) (l : mdLine)
    : list Scenario * list nat * option nat :=
  let '(scs, stray, sc) := acc in
  let '(lv, title) := headingLevel l in
  if Nat.eqb lv 4 && HasPrefix title ScenarioPrefix then
    (scs ++ [new_scenario (TrimSpace (TrimPrefix title ScenarioPrefix)) (md_N l)], stray, Some (length scs))
  else if Nat.ltb 0 lv && Nat.ltb lv 4 then (scs, stray, None)
  else if md_InCode l then (scs, stray, sc)
  else
    match check_line (md_Text l) with
    | None => (scs, stray, sc)
    | Some (value, kind, tagged) =>
        match sc with
        | None => (scs, stray ++ [md_N l], None)
        | Some i => (alter (add_check value kind (md_N l) tagged) i scs, stray, sc)
        end
    end.

Definition buildRequirement (r : Requirement) (lines : list mdLine) : Requirement :=
  let '(scs, stray, _) := foldl build_step (r_Scenarios r, r_Stray r, None) (tail lines) in
  MkRequirement (r_Name r) (r_Line r) (TrimRight (joinBody lines) newlines) scs stray.

(** ** Parsing *)

Fixpoint purpose_tail (lines : list mdLine) : list gostring :=
  match lines with
  | [] => []
  | l :: lines' =>
      if md_InCode l || Nat.ltb 0 (fst (headingLevel l)) || (TrimSpace (md_Text l) =s "") then []
      else TrimSpace (md_Text l) :: purpose_tail lines'
  end.

(** purposeBlock on [lines[i:]]: the block's text and how many lines it spans. *)
Definition purposeBlock (lines : list mdLine) (i : nat) : gostring * nat :=
  match drop i lines with
  | [] => ([], 0)
  | l :: lines' =>
      let parts := TrimSpace (TrimPrefix (TrimSpace (md_Text l)) "Purpose:") :: purpose_tail lines' in
      (TrimSpace (Join parts [nl]), length parts)
  end.

Record pstate := PState {
  ps_reqs : list Requirement; ps_other : list nat; ps_pre : list mdLine;
  ps_cur : option nat; ps_lines : list mdLine }.

(** ParseSpec's flush: close the open requirement. *)
Definition ps_flush (st : pstate) : pstate :=
  match ps_cur st with
  | None => st
  | Some c => PState (alter (fun r => buildRequirement r (ps_lines st)) c (ps_reqs st))
                (ps_other st) (ps_pre st) (ps_cur st) []
  end.

Definition ps_add (st : pstate) (l : mdLine) : pstate :=
  match ps_cur st with
  | Some _ => PState (ps_reqs st) (ps_other st) (ps_pre st) (ps_cur st) (ps_lines st ++ [l])
  | None => PState (ps_reqs st) (ps_other st) (ps_pre st ++ [l]) (ps_cur st) (ps_lines st)
  end.

Definition ps_step (st : pstate) (l : mdLine) : pstate :=
  let '(lv, title) := headingLevel l in
  if Nat.ltb 0 lv && Nat.leb lv 3 then
    if Nat.eqb lv 3 && HasPrefix title RequirementPrefix then
      let st := ps_flush st in
      PState (ps_reqs st ++ [new_requirement (TrimSpace (TrimPrefix title RequirementPrefix)) (md_N l)])
        (ps_other st) (ps_pre st) (Some (length (ps_reqs st))) [l]
    else
      let st := if Nat.eqb lv 3
                then PState (ps_reqs st) (ps_other st ++ [md_N l]) (ps_pre st) (ps_cur st) (ps_lines st)
                else st in
      ps_add st l
  else ps_add st l.

(** The pass over the preamble for the title and the purpose. *)
Definition title_step (pre : list mdLine) (acc : gostring * gostring) (il : nat * mdLine) : gostring * gostring :=
  let '(title, purpose) := acc in
  let '(i, l) := il in
  let '(lv, t1) := headingLevel l in
  if Nat.eqb lv 1 && (title =s "") then (t1, purpose)
  else if negb (md_InCode l) && HasPrefix (TrimSpace (md_Text l)) "Purpose:" && (purpose =s "")
  then (title, fst (purposeBlock pre i))
  else (title, purpose).

Definition parse_pre (pre : list mdLine) : gostring * gostring :=
  foldl (title_step pre) ([], []) (imap pair pre).

Definition parse_lines (lines : list mdLine) : Spec :=
  let st := ps_flush (foldl ps_step (PState [] [] [] None []) lines) in
  let '(title, purpose) := parse_pre (ps_pre st) in
  MkSpec title purpose (TrimRight (joinBody (ps_pre st)) newlines) (ps_reqs st) (ps_other st).

Definition ParseSpec (doc : gostring) : Spec := parse_lines (splitLines doc).

(** ** Lookup and rendering *)

Definition Find (s : Spec) (name : gostring) : option Requirement :=
  List.find (fun r => r_Name r =s name) (s_Requirements s).

Definition Render (s : Spec) : gostring :=
  TrimRight (s_Preamble s) newlines ++ [nl] ++
  mjoin ((fun r => [nl] ++ TrimRight (r_Text r) newlines ++ [nl]) <$> s_Requirements s).

(** ** Validation *)

(** The check kinds of a scenario, line by line. *)
Definition kind_findings (file : gostring) (sc : Scenario) : list Finding :=
  mjoin (zip_with
    (fun kv lt =>
       let why := badCheckKind ("scenario " ++ dq ++ sc_Name sc ++ dq ++ "'s check") (fst kv) (snd kv) (snd lt) in
       if why <>s "" then [finding file (fst lt) why] else [])
    (zip (sc_Kinds sc) (sc_Checks sc)) (zip (sc_KindLines sc) (sc_tagged sc))).

Definition check_count_findings (file : gostring) (sc : Scenario) : list Finding :=
  match sc_Checks sc with
  | [c] =>
      if c =s "" then
        [finding file (sc_Line sc) ("scenario " ++ dq ++ sc_Name sc ++ dq ++ " has an empty `check:` — give a command or human-review")]
      else []
  | [] =>
      [finding file (sc_Line sc) ("scenario " ++ dq ++ sc_Name sc ++ dq ++ " has no `- check: <command> | human-review` line")]
  | _ =>
      [finding file (sc_Line sc) ("scenario " ++ dq ++ sc_Name sc ++ dq ++ " has more than one `check:` line — exactly one per scenario")]
  end.

Definition validateRequirementBody (file : gostring) (r : Requirement) : list Finding :=
  (if r_Name r =s "" then [finding file (r_Line r) "requirement has no name"] else []) ++
  (match r_Scenarios r with
   | [] => [finding file (r_Line r) ("requirement " ++ dq ++ r_Name r ++ dq ++ " has no `#### Scenario:` — every requirement needs at least one")]
   | _ => []
   end) ++
  mjoin ((fun sc => kind_findings file sc ++ check_count_findings file sc) <$> r_Scenarios r) ++
  ((fun n => finding file n "`check:` line outside any scenario") <$> r_Stray r).

(** caps.go: a cap as caps: states it. *)
Definition capSize (n : Z) : gostring :=
  if (1048576 <=? n)%Z && (Z.rem n 1048576 =? 0)%Z then Itoa (Z.shiftr n 20) ++ " MiB"
  else if (Z.rem n 1024 =? 0)%Z then Itoa (Z.shiftr n 10) ++ " KB"
  else Itoa n ++ " bytes".

(** ValidateSpec's loop over the requirements: the lines seen by name, the findings. *)
Definition dup_step (file : gostring) (acc : gmap gostring nat * list Finding) (r : Requirement)
    : gmap gostring nat * list Finding :=
  let '(seen, out) := acc in
  let dup := match seen !! r_Name r with
             | Some prev => [finding file (r_Line r) ("duplicate requirement " ++ dq ++ r_Name r ++ dq ++
                               " (first at line " ++ ItoaN prev ++ ")")]
             | None => []
             end in
  (<[r_Name r := r_Line r]> seen, out ++ dup ++ validateRequirementBody file r).

Definition ValidateSpec (file doc : gostring) (maxBytes : Z) : list Finding :=
  let s := ParseSpec doc in
  (if (maxBytes <? Z.of_nat (length doc))%Z then
     [finding file 0 ("spec is " ++ sizeKB (Z.of_nat (length doc)) ++ ", over the " ++ capSize maxBytes ++
        " cap (caps.spec) — split into two capabilities (a change like any other)")] else []) ++
  (if s_Title s =s "" then [finding file 1 "missing `# <Capability title>`"] else []) ++
  (if s_Purpose s =s "" then [finding file 0 "missing `Purpose:` line before the first requirement"] else []) ++
  snd (foldl (dup_step file) (∅, []) (s_Requirements s)) ++
  ((fun n => finding file n "level-3 heading that is not `### Requirement: <name>`") <$> s_Other s).

(** ** Near misses *)

(** The code points of a string ([]rune(s)). *)
Fixpoint runes_skip (skip : nat) (s : gostring) : list Z :=
  match s with
  | [] => []
  | _ :: s' =>
      match skip with
      | S k => runes_skip k s'
      | O => match DecodeRune s with
             | Some (r, w) => r :: runes_skip (w - 1) s'
             | None => []
             end
      end
  end.
Definition runes (s : gostring) : list Z := runes_skip 0 s.

(** The rest of a row of the distance table, left to right: [left] is cur[j-1],
    [diag :: up] is prev[j-1:]. *)
Fixpoint ed_row (a : Z) (left : nat) (diag : nat) (up : list nat) (rb : list Z) : list nat :=
  match up, rb with
  | u :: up', b :: rb' =>
      let cost := if (a =? b)%Z then 0 else 1 in
      let v := Nat.min (Nat.min (u + 1) (left + 1)) (diag + cost) in
      v :: ed_row a v u up' rb'
  | _, _ => []
  end.

Definition ed_step (rb : list Z) (acc : nat * list nat) (a : Z) : nat * list nat :=
  let '(i, prev) := acc in
  match prev with
  | diag :: up => (S i, S i :: ed_row a (S i) diag up rb)
  | [] => (S i, [])
  end.

Definition edit_distance_runes (ra rb : list Z) : nat :=
  default 0 (last (snd (foldl (ed_step rb) (0, seq 0 (S (length rb))) ra))).

Definition editDistance (a b : gostring) : nat := edit_distance_runes (runes a) (runes b).

(** strings.Fields *)
Fixpoint fields_skip (skip : nat) (cur : gostring) (s : gostring) : list gostring :=
  let flush := match cur with [] => [] | _ => [cur] end in
  match s with
  | [] => flush
  | c :: s' =>
      match skip with
      | S k => fields_skip k cur s'
      | O => match List.find (HasPrefix s) spaces with
             | Some u => flush ++ fields_skip (length u - 1) [] s'
             | None => fields_skip 0 (cur ++ [c]) s'
             end
      end
  end.
Definition Fields (s : gostring) : list gostring := fields_skip 0 [] s.

(** ** The near-miss search *)
Section near_miss.
(** strings.ToLower, a Unicode table of the Go library. *)
Context (ToLower : gostring -> gostring).

Definition fold_name (s : gostring) : gostring := ToLower (Join (Fields s) " ").

(** nearMiss's loop: the best name and its distance so far. *)
Fixpoint near_loop (want name : gostring) (best : gostring) (bestDist : option nat) (rs : list Requirement)
    : gostring :=
  match rs with
  | [] => best
  | r :: rs' =>
      let have := r_Name r in
      if have =s name then near_loop want name best bestDist rs'
      else if fold_name have =s want then have
      else
        let limit := Nat.max (length want / 5) 2 in
        let d := editDistance want (fold_name have) in
        if Nat.leb d limit && match bestDist with None => true | Some b => Nat.ltb d b end
        then near_loop want name have (Some d) rs'
        else near_loop want name best bestDist rs'
  end.

Definition nearMiss (spec : Spec) (name : gostring) : gostring :=
  near_loop (fold_name name) name [] None (s_Requirements spec).
End near_miss.
