(* ===== verification/SpecRoundTrip.v ===== *)
(** The round trip of internal/apexv1/spec.go: parsing what Render wrote gives
    the spec back, up to line numbers. *)
From S2P Require Import Prelude Regex Markdown Spec.

(** ** Erasing line numbers *)

Definition erase_line (l : mdLine) : mdLine := MdLine 0 (md_Text l) (md_InCode l).

Definition erase_scenario (s : Scenario) : Scenario :=
  MkScenario (sc_Name s) 0 (sc_Checks s) (sc_Kinds s) ((fun _ => 0) <$> sc_KindLines s) (sc_tagged s).

Definition erase_req (r : Requirement) : Requirement :=
  MkRequirement (r_Name r) 0 (r_Text r) (erase_scenario <$> r_Scenarios r) ((fun _ => 0) <$> r_Stray r).

Definition erase_spec (s : Spec) : Spec :=
  MkSpec (s_Title s) (s_Purpose s) (s_Preamble s) (erase_req <$> s_Requirements s)
    ((fun _ => 0) <$> s_Other s).

(** ** Parsing by blocks *)

Definition is_head (l : mdLine) : bool :=
  let '(lv, title) := headingLevel l in Nat.eqb lv 3 && HasPrefix title RequirementPrefix.

Definition is_other (l : mdLine) : bool :=
  Nat.eqb (fst (headingLevel l)) 3 && negb (is_head l).

Definition head_name (l : mdLine) : gostring :=
  TrimSpace (TrimPrefix (snd (headingLevel l)) RequirementPrefix).

(** The preamble and the requirement blocks of a document. *)
Fixpoint blocks (lines : list mdLine) : list mdLine * list (list mdLine) :=
  match lines with
  | [] => ([], [])
  | l :: lines' =>
      let '(pre, bs) := blocks lines' in
      if is_head l then ([], (l :: pre) :: bs) else (l :: pre, bs)
  end.

Definition build_block (b : list mdLine) : Requirement :=
  match b with
  | l :: _ => buildRequirement (new_requirement (head_name l) (md_N l)) b
  | [] => new_requirement [] 0
  end.

Definition others (lines : list mdLine) : list nat := md_N <$> List.filter is_other lines.

Lemma blocks_concat lines : lines = fst (blocks lines) ++ mjoin (snd (blocks lines)).
Proof.
  induction lines as [|l lines IH]; simpl; [done|].
  destruct (blocks lines) as [pre bs]. simpl in *. destruct (is_head l); simpl; congruence.
Qed.

Lemma blocks_pre lines : Forall (fun l => is_head l = false) (fst (blocks lines)).
Proof.
  induction lines as [|l lines IH]; simpl; [done|].
  destruct (blocks lines). simpl in *. destruct (is_head l) eqn:E; simpl; by constructor.
Qed.

(** A block is a requirement heading and lines that are none. *)
Definition block_ok (b : list mdLine) : Prop :=
  match b with
  | l :: t => is_head l = true /\ Forall (fun l => is_head l = false) t
  | [] => False
  end.

Lemma blocks_ok lines : Forall block_ok (snd (blocks lines)).
Proof.
  induction lines as [|l lines IH]; simpl; [done|].
  pose proof (blocks_pre lines). destruct (blocks lines). simpl in *.
  destruct (is_head l) eqn:E; simpl; [|done]. by constructor.
Qed.

Lemma blocks_no_head pre rest :
  Forall (fun l => is_head l = false) pre ->
  blocks (pre ++ rest) = (pre ++ fst (blocks rest), snd (blocks rest)).
Proof.
  induction pre as [|l pre IH]; simpl; [by destruct (blocks rest)|].
  intros [Hl Hp]%Forall_cons. rewrite IH, Hl by done. done.
Qed.

Lemma blocks_of pre bs :
  Forall (fun l => is_head l = false) pre -> Forall block_ok bs -> blocks (pre ++ mjoin bs) = (pre, bs).
Proof.
  intros Hp Hb. rewrite blocks_no_head by done.
  assert (blocks (mjoin bs) = ([], bs)) as ->; [|simpl; by rewrite app_nil_r].
  induction Hb as [|b bs Hb _ IH]; simpl; [done|].
  destruct b as [|l t]; [done|]. destruct Hb as [Hl Ht]. simpl.
  rewrite blocks_no_head, IH by done. simpl. by rewrite Hl, app_nil_r.
Qed.

Lemma ps_step_head st l : is_head l = true ->
  ps_step st l = PState (ps_reqs (ps_flush st) ++ [new_requirement (head_name l) (md_N l)])
    (ps_other st) (ps_pre st) (Some (length (ps_reqs (ps_flush st)))) [l].
Proof.
  unfold is_head, ps_step, head_name. destruct (headingLevel l) as [lv title]. simpl.
  intros H. rewrite H. apply andb_true_iff in H as [->%Nat.eqb_eq _]. simpl.
  unfold ps_flush. by destruct (ps_cur st).
Qed.

Lemma ps_step_plain st l : is_head l = false ->
  ps_step st l = ps_add (PState (ps_reqs st) (ps_other st ++ others [l]) (ps_pre st) (ps_cur st) (ps_lines st)) l.
Proof.
  unfold others. simpl. unfold is_other. intros H. rewrite H. simpl. rewrite andb_true_r. revert H.
  unfold is_head, ps_step. destruct (headingLevel l) as [lv title]. simpl. intros H.
  destruct (Nat.ltb 0 lv && Nat.leb lv 3) eqn:E.
  - rewrite H. destruct (Nat.eqb lv 3); [done|]. simpl. rewrite app_nil_r. by destruct st.
  - destruct (Nat.eqb lv 3) eqn:E3; [apply Nat.eqb_eq in E3 as ->; done|].
    simpl. rewrite app_nil_r. by destruct st.
Qed.

Lemma others_cons l lines : others (l :: lines) = others [l] ++ others lines.
Proof. unfold others. simpl. by destruct (is_other l). Qed.

Lemma others_head l : is_head l = true -> others [l] = [].
Proof. intros H. unfold others. simpl. unfold is_other. by rewrite H, andb_false_r. Qed.

(** ParseSpec's loop with a requirement open, closed at the end. *)
Lemma ps_fold_open lines : forall reqs other pre l b,
  let st := ps_flush (foldl ps_step
    (PState (reqs ++ [new_requirement (head_name l) (md_N l)]) other pre (Some (length reqs)) (l :: b)) lines) in
  ps_reqs st = reqs ++ build_block (l :: b ++ fst (blocks lines)) :: (build_block <$> snd (blocks lines)) /\
  ps_other st = other ++ others lines /\ ps_pre st = pre.
Proof.
  induction lines as [|x lines IH]; intros reqs other pre l b; simpl.
  - by rewrite alter_snoc, !app_nil_r.
  - destruct (is_head x) eqn:E.
    + rewrite ps_step_head by done. simpl. rewrite alter_snoc.
      destruct (IH (reqs ++ [build_block (l :: b)]) other pre x []) as (H1 & H2 & H3).
      split_and!; [etrans; [exact H1|]|etrans; [exact H2|]|exact H3].
      * destruct (blocks lines) as [p bs]. simpl. by rewrite <- app_assoc, app_nil_r.
      * by rewrite (others_cons x lines), others_head.
    + rewrite ps_step_plain by done. simpl.
      destruct (IH reqs (other ++ others [x]) pre l (b ++ [x])) as (H1 & H2 & H3).
      split_and!; [etrans; [exact H1|]|etrans; [exact H2|]|exact H3].
      * destruct (blocks lines) as [p bs]. simpl. by rewrite <- app_assoc.
      * by rewrite (others_cons x lines), app_assoc.
Qed.

(** ParseSpec's loop in the preamble. *)
Lemma ps_fold_pre lines : forall other pre,
  let st := ps_flush (foldl ps_step (PState [] other pre None []) lines) in
  ps_reqs st = build_block <$> snd (blocks lines) /\
  ps_other st = other ++ others lines /\ ps_pre st = pre ++ fst (blocks lines).
Proof.
  induction lines as [|x lines IH]; intros other pre; simpl; [by rewrite !app_nil_r|].
  destruct (is_head x) eqn:E.
  - rewrite ps_step_head by done. simpl.
    destruct (ps_fold_open lines [] other pre x []) as (H1 & H2 & H3).
    split_and!; [etrans; [exact H1|]|etrans; [exact H2|]|etrans; [exact H3|]].
    + by destruct (blocks lines).
    + by rewrite (others_cons x lines), others_head.
    + destruct (blocks lines). simpl. by rewrite app_nil_r.
  - rewrite ps_step_plain by done. simpl.
    destruct (IH (other ++ others [x]) (pre ++ [x])) as (H1 & H2 & H3).
    split_and!; [etrans; [exact H1|]|etrans; [exact H2|]|etrans; [exact H3|]].
    + by destruct (blocks lines).
    + by rewrite (others_cons x lines), app_assoc.
    + destruct (blocks lines). simpl. by rewrite <- app_assoc.
Qed.

(** ParseSpec, block by block. *)
Lemma parse_lines_blocks lines :
  parse_lines lines =
  let '(pre, bs) := blocks lines in
  MkSpec (fst (parse_pre pre)) (snd (parse_pre pre)) (TrimRight (joinBody pre) newlines)
    (build_block <$> bs) (others lines).
Proof.
  unfold parse_lines. destruct (ps_fold_pre lines [] []) as (H1 & H2 & H3).
  simpl in *. rewrite H1, H2, H3. destruct (blocks lines) as [pre bs]. simpl.
  by destruct (parse_pre pre).
Qed.

(** ** Parsing ignores line numbers *)

Definition erase_acc (acc : list Scenario * list nat * option nat) : list Scenario * list nat * option nat :=
  let '(scs, stray, sc) := acc in (erase_scenario <$> scs, (fun _ => 0) <$> stray, sc).

Lemma headingLevel_erase l : headingLevel (erase_line l) = headingLevel l.
Proof. done. Qed.

Lemma erase_add_check v k n t s :
  erase_scenario (add_check v k n t s) = add_check v k 0 t (erase_scenario s).
Proof. unfold erase_scenario, add_check. simpl. by rewrite fmap_app. Qed.

Lemma build_step_erase acc l : erase_acc (build_step acc l) = build_step (erase_acc acc) (erase_line l).
Proof.
  destruct acc as [[scs stray] sc]. unfold build_step, erase_acc. rewrite headingLevel_erase.
  destruct (headingLevel l) as [lv title]. simpl.
  destruct (Nat.eqb lv 4 && _); [by rewrite fmap_app, length_fmap|].
  destruct (Nat.ltb 0 lv && _); [done|]. destruct (md_InCode l); [done|].
  destruct (check_line (md_Text l)) as [[[v k] t]|]; [|done].
  destruct sc as [i|]; simpl; [|by rewrite fmap_app].
  f_equal. f_equal. apply list_fmap_alter, Forall_true. intros s. apply erase_add_check.
Qed.

Lemma build_fold_erase lines : forall acc,
  erase_acc (foldl build_step acc lines) = foldl build_step (erase_acc acc) (erase_line <$> lines).
Proof.
  induction lines as [|l lines IH]; intros acc; simpl; [done|]. by rewrite IH, build_step_erase.
Qed.

Lemma joinBody_unlines (b : list mdLine) : joinBody b = unlines (md_Text <$> b).
Proof. unfold joinBody, unlines. by rewrite <- list_fmap_compose. Qed.

Lemma joinBody_erase (b : list mdLine) : joinBody (erase_line <$> b) = joinBody b.
Proof. rewrite !joinBody_unlines, <- list_fmap_compose. done. Qed.

Lemma build_block_erase (b : list mdLine) : build_block (erase_line <$> b) = erase_req (build_block b).
Proof.
  destruct b as [|l b]; [done|]. rewrite fmap_cons. unfold build_block, buildRequirement.
  cbn [tail new_requirement r_Scenarios r_Stray r_Name r_Line].
  rewrite <- (build_fold_erase b ([], [], None) : _ = foldl build_step ([], [], None) _).
  rewrite <- fmap_cons, joinBody_erase.
  by destruct (foldl build_step _ b) as [[scs stray] sc].
Qed.

Lemma blocks_erase (lines : list mdLine) :
  blocks (erase_line <$> lines) = (erase_line <$> fst (blocks lines), (fun b : list mdLine => erase_line <$> b) <$> snd (blocks lines)).
Proof.
  induction lines as [|l lines IH]; [done|]. rewrite fmap_cons. cbn [blocks]. rewrite IH.
  change (is_head (erase_line l)) with (is_head l).
  destruct (blocks lines). by destruct (is_head l).
Qed.

Lemma others_erase (lines : list mdLine) : others (erase_line <$> lines) = (fun _ => 0) <$> others lines.
Proof.
  induction lines as [|l lines IH]; [done|]. rewrite fmap_cons, (others_cons l lines), fmap_app, <- IH.
  rewrite others_cons. f_equal. unfold others. cbn [List.filter].
  change (is_other (erase_line l)) with (is_other l). by destruct (is_other l).
Qed.

Lemma purpose_tail_erase (lines : list mdLine) : purpose_tail (erase_line <$> lines) = purpose_tail lines.
Proof. induction lines as [|l lines IH]; [done|]. rewrite fmap_cons. cbn [purpose_tail]. by rewrite IH. Qed.

Lemma purposeBlock_erase (lines : list mdLine) i : purposeBlock (erase_line <$> lines) i = purposeBlock lines i.
Proof.
  unfold purposeBlock. rewrite <- fmap_drop. destruct (drop i lines) as [|l t]; [done|].
  rewrite fmap_cons. by rewrite purpose_tail_erase.
Qed.

Lemma title_step_erase (pre : list mdLine) acc i l :
  title_step (erase_line <$> pre) acc (i, erase_line l) = title_step pre acc (i, l).
Proof. destruct acc. unfold title_step. by rewrite purposeBlock_erase. Qed.

Lemma parse_pre_erase (pre : list mdLine) : parse_pre (erase_line <$> pre) = parse_pre pre.
Proof.
  unfold parse_pre. rewrite imap_fmap.
  generalize ([] : gostring, [] : gostring). set (f := title_step (erase_line <$> pre)).
  assert (forall k lines acc, foldl f acc (imap (fun j => (fun p => pair (k + j) p) ∘ erase_line) lines) =
    foldl (title_step pre) acc (imap (fun j => pair (k + j)) lines)) as H.
  { intros k lines. revert k. induction lines as [|l lines IH]; intros k acc; simpl; [done|].
    unfold f at 2. rewrite title_step_erase.
    erewrite (imap_ext _ (fun j => (fun p => pair (S k + j) p) ∘ erase_line)), IH.
    2:{ intros j x _. simpl. by rewrite Nat.add_succ_r. }
    f_equal. apply imap_ext. intros j x _. simpl. by rewrite Nat.add_succ_r. }
  intros acc. apply (H 0).
Qed.

Lemma parse_lines_erase (lines : list mdLine) : parse_lines (erase_line <$> lines) = erase_spec (parse_lines lines).
Proof.
  rewrite !parse_lines_blocks, blocks_erase. destruct (blocks lines) as [pre bs].
  cbn [fst snd]. unfold erase_spec. cbn [s_Title s_Purpose s_Preamble s_Requirements s_Other].
  rewrite parse_pre_erase, joinBody_erase, others_erase. f_equal.
  rewrite <- !list_fmap_compose. apply list_fmap_ext. intros i b _. apply build_block_erase.
Qed.

(** ** Trailing blank lines do not matter *)

Definition blank (l : mdLine) : Prop := md_Text l = [].

Lemma headingLevel_blank l : blank l -> headingLevel l = (0, []).
Proof. unfold blank, headingLevel. intros ->. by destruct (md_InCode l). Qed.

Lemma is_head_blank l : blank l -> is_head l = false.
Proof. intros H. unfold is_head. by rewrite headingLevel_blank. Qed.

Lemma build_step_blank acc l : blank l -> build_step acc l = acc.
Proof.
  intros H. destruct acc as [[scs stray] sc]. unfold build_step.
  rewrite headingLevel_blank by done. simpl. destruct (md_InCode l); [done|]. by rewrite H.
Qed.

Lemma build_fold_blank bl acc : Forall blank bl -> foldl build_step acc bl = acc.
Proof.
  intros H. revert acc. induction H as [|l bl Hl _ IH]; intros acc; simpl; [done|].
  by rewrite build_step_blank, IH.
Qed.

Lemma others_blank bl : Forall blank bl -> others bl = [].
Proof.
  induction 1 as [|l bl Hl _ IH]; [done|]. rewrite others_cons, IH, app_nil_r.
  unfold others. simpl. unfold is_other. by rewrite headingLevel_blank.
Qed.

Lemma blank_texts bl : Forall blank bl -> md_Text <$> bl = replicate (length bl) [].
Proof. induction 1 as [|l bl Hl _ IH]; [done|]. rewrite fmap_cons, Hl, IH. done. Qed.

(** No newline in a line's text. *)
Definition one_line (l : mdLine) : Prop := nl ∉ md_Text l.

Lemma TrimRight_joinBody b : Forall one_line b ->
  TrimRight (joinBody b) newlines = Join (rstrip (md_Text <$> b)) [nl].
Proof. intros H. rewrite joinBody_unlines. apply TrimRight_unlines. by apply Forall_fmap. Qed.

Lemma one_line_blank bl : Forall blank bl -> Forall one_line bl.
Proof.
  intros Hb. eapply Forall_impl; [exact Hb|]. intros l H. unfold one_line. rewrite H. apply not_elem_of_nil.
Qed.

Lemma TrimRight_joinBody_blank b bl : Forall one_line b -> Forall blank bl ->
  TrimRight (joinBody (b ++ bl)) newlines = TrimRight (joinBody b) newlines.
Proof.
  intros Hb Hbl. rewrite !TrimRight_joinBody; [|done|apply Forall_app; auto using one_line_blank].
  by rewrite fmap_app, (blank_texts bl), rstrip_replicate.
Qed.

Lemma build_block_blank b bl : b <> [] -> Forall one_line b -> Forall blank bl ->
  build_block (b ++ bl) = build_block b.
Proof.
  intros Hne Hb Hbl. destruct b as [|l b]; [done|]. simpl. unfold buildRequirement. simpl.
  rewrite foldl_app, build_fold_blank by done.
  destruct (foldl build_step _ b) as [[scs stray] sc]. f_equal.
  by apply (TrimRight_joinBody_blank (l :: b) bl).
Qed.

Lemma purpose_tail_blank t bl : Forall blank bl -> purpose_tail (t ++ bl) = purpose_tail t.
Proof.
  intros H. induction t as [|l t IH]; simpl; [|by rewrite IH].
  destruct H as [|l bl Hl _]; [done|]. simpl. rewrite Hl. simpl. by rewrite orb_true_r.
Qed.

Lemma title_step_blank pre acc i l : blank l -> title_step pre acc (i, l) = acc.
Proof.
  intros H. destruct acc. unfold title_step. rewrite headingLevel_blank by done. rewrite H. simpl.
  by rewrite andb_false_r.
Qed.

Lemma title_step_app pre bl acc i l : Forall blank bl -> i < length pre ->
  title_step (pre ++ bl) acc (i, l) = title_step pre acc (i, l).
Proof.
  intros Hbl Hi. destruct acc. unfold title_step, purposeBlock. rewrite drop_app_le by lia.
  destruct (drop i pre) as [|x t] eqn:E; [apply (f_equal length) in E; rewrite length_drop in E; simpl in E; lia|].
  simpl. by rewrite purpose_tail_blank.
Qed.

Lemma parse_pre_blank pre bl : Forall blank bl -> parse_pre (pre ++ bl) = parse_pre pre.
Proof.
  intros Hbl. unfold parse_pre. rewrite imap_app, foldl_app.
  assert (forall l acc, Forall (fun il => blank (snd il)) l -> foldl (title_step (pre ++ bl)) acc l = acc) as Hb.
  { intros l acc H. revert acc. induction H as [|[i x] l Hx _ IH]; intros acc; simpl; [done|].
    by rewrite title_step_blank, IH. }
  rewrite Hb.
  - assert (forall l acc, Forall (fun il => fst il < length pre) l ->
      foldl (title_step (pre ++ bl)) acc l = foldl (title_step pre) acc l) as Hp.
    { intros l acc H. revert acc. induction H as [|[i x] l Hx _ IH]; intros acc; simpl; [done|].
      by rewrite title_step_app, IH. }
    apply Hp. apply Forall_lookup. intros k [i x] Hk. rewrite list_lookup_imap in Hk.
    apply fmap_Some in Hk as (y & Hy%lookup_lt_Some & [= -> ->]). done.
  - apply Forall_lookup. intros k [i x] Hk. rewrite list_lookup_imap in Hk.
    apply fmap_Some in Hk as (y & Hy & [= -> ->]). simpl. rewrite Forall_lookup in Hbl. eauto.
Qed.

(** ** Scanning, line numbers erased *)

Definition escan (fence : gostring) (raw : list gostring) : list mdLine := erase_line <$> scan_lines fence 0 raw.

Lemma escan_at fence i raw : erase_line <$> scan_lines fence i raw = escan fence raw.
Proof.
  unfold escan. generalize 0. revert fence i. induction raw as [|t raw IH]; intros fence i j; [done|].
  rewrite !scan_lines_cons, !fmap_cons. f_equal. apply IH.
Qed.

Lemma escan_cons fence t raw :
  escan fence (t :: raw) = MdLine 0 t (fence_flag fence t) :: escan (fence_step fence t) raw.
Proof. unfold escan at 1. rewrite scan_lines_cons, fmap_cons, escan_at. done. Qed.

Lemma escan_app fence a b : escan fence (a ++ b) = escan fence a ++ escan (fence_after fence a) b.
Proof. unfold escan at 1. by rewrite scan_lines_app, fmap_app, !escan_at. Qed.

Lemma escan_text fence raw : md_Text <$> escan fence raw = raw.
Proof. unfold escan. rewrite <- list_fmap_compose. apply (scan_lines_text fence 0 raw). Qed.

Lemma escan_blank fence k : Forall blank (escan fence (replicate k [])).
Proof.
  apply Forall_fmap, Forall_lookup. intros i l Hl. unfold blank. simpl.
  pose proof (scan_lines_text fence 0 (replicate k [])) as Ht.
  apply (f_equal (lookup i)) in Ht. rewrite list_lookup_fmap, Hl in Ht. simpl in Ht.
  symmetry in Ht. by apply lookup_replicate in Ht as [<- _].
Qed.

(** The text of a document splits into preamble and blocks as its lines do, and
    no fence is open where a block starts. *)
Fixpoint seg (bs : list (list mdLine)) : Prop :=
  match bs with
  | [] => True
  | b :: bs' =>
      escan [] (md_Text <$> b) = b /\ (bs' <> [] -> fence_after [] (md_Text <$> b) = []) /\ seg bs'
  end.

Lemma escan_seg raw : forall fence,
  let '(pre, bs) := blocks (escan fence raw) in
  escan fence (md_Text <$> pre) = pre /\ (bs <> [] -> fence_after fence (md_Text <$> pre) = []) /\ seg bs.
Proof.
  induction raw as [|t raw IH]; intros fence; [done|].
  rewrite escan_cons. cbn [blocks]. specialize (IH (fence_step fence t)).
  destruct (blocks (escan (fence_step fence t) raw)) as [pre bs]. destruct IH as (H1 & H2 & H3).
  destruct (is_head _) eqn:E.
  - assert (fence_flag fence t = false) as Hf.
    { unfold is_head, headingLevel in E. simpl in E. by destruct (fence_flag fence t). }
    pose proof (fence_flag_false _ _ Hf) as ->.
    assert (fence_step [] t = []) as Hs.
    { unfold fence_flag in Hf. unfold fence_step. simpl in *. rewrite orb_false_r in Hf. by rewrite Hf. }
    rewrite Hs in *. split_and!; [done..|]. cbn [seg]. rewrite fmap_cons. split_and!; [| |done].
    + rewrite escan_cons. cbn [md_Text]. by rewrite Hs, H1.
    + intros Hbs. unfold fence_after in *. cbn [foldl md_Text]. rewrite Hs. auto.
  - split_and!; [|done..]. rewrite fmap_cons, escan_cons. simpl. by rewrite H1.
Qed.

(** ** What Render writes *)

(** The lines of the rendered requirements. *)
Definition sep (bs : list (list mdLine)) : list gostring :=
  mjoin ((fun b => [] :: rstrip (md_Text <$> b)) <$> bs).

Lemma join_cons {A} (x : list A) (xs : list (list A)) : mjoin (x :: xs) = x ++ mjoin xs.
Proof. done. Qed.

Lemma sep_cons b bs : sep (b :: bs) = ([] :: rstrip (md_Text <$> b)) ++ sep bs.
Proof. done. Qed.

Definition pre_texts (pre : list mdLine) : list gostring :=
  match rstrip (md_Text <$> pre) with [] => [[]] | ts => ts end.

Lemma block_text_nonempty b : block_ok b -> rstrip (md_Text <$> b) <> [].
Proof.
  destruct b as [|l t]; [done|]. intros [Hl _]. apply (rstrip_nonempty _ (md_Text l)); [set_solver|].
  intros H. rewrite (is_head_blank l H) in Hl. done.
Qed.

Lemma Render_lines pre bs title purpose other :
  Forall one_line pre -> Forall (Forall one_line) bs -> Forall block_ok bs ->
  Render (MkSpec title purpose (TrimRight (joinBody pre) newlines) (build_block <$> bs) other) =
  unlines (pre_texts pre ++ sep bs).
Proof.
  intros Hp Hb Hok. unfold Render. cbn [s_Preamble s_Requirements]. rewrite unlines_app, app_assoc. f_equal.
  - rewrite TrimRight_idem by apply newlines_nonempty. rewrite TrimRight_joinBody by done.
    unfold pre_texts. destruct (rstrip _) eqn:E; [done|]. by rewrite unlines_Join.
  - induction Hok as [|b bs Hb1 _ IH]; [done|]. apply Forall_cons in Hb as [Hb2 Hb].
    rewrite !fmap_cons, sep_cons, join_cons, IH, (unlines_app ([] :: _)), unlines_cons by done. simpl app at 1.
    f_equal. f_equal.
    assert (r_Text (build_block b) = TrimRight (joinBody b) newlines) as ->.
    { destruct b as [|l b]; [done|]. simpl. unfold buildRequirement. by destruct (foldl _ _ _) as [[]]. }
    rewrite TrimRight_idem by apply newlines_nonempty. rewrite TrimRight_joinBody by done.
    by rewrite unlines_Join by by apply block_text_nonempty.
Qed.

(** Two lists of lines that differ by blank lines at their end. *)
Definition same_core (b b' : list mdLine) : Prop :=
  exists core bl bl', b = core ++ bl /\ b' = core ++ bl' /\ Forall blank bl /\ Forall blank bl' /\ core <> [].

Lemma same_core_build b b' : Forall one_line b -> same_core b b' -> build_block b = build_block b'.
Proof.
  intros Ho (core & bl & bl' & -> & -> & Hb & Hb' & Hne). apply Forall_app in Ho as [Ho _].
  by rewrite !build_block_blank.
Qed.

Lemma escan_rstrip fence b : escan fence (md_Text <$> b) = b ->
  exists bl, b = escan fence (rstrip (md_Text <$> b)) ++ bl /\ Forall blank bl.
Proof.
  intros H. destruct (rstrip_decompose (md_Text <$> b)) as [k Hk].
  rewrite Hk, escan_app in H. exists (escan (fence_after fence (rstrip (md_Text <$> b))) (replicate k [])).
  split; [done|]. apply escan_blank.
Qed.

Lemma fence_after_rstrip fence ts : fence_after fence (rstrip ts) = fence_after fence ts.
Proof.
  destruct (rstrip_decompose ts) as [k Hk]. rewrite Hk at 2. by rewrite fence_after_app, fence_after_blank.
Qed.

Definition blank_line : mdLine := MdLine 0 [] false.

Lemma escan_nil_cons raw : escan [] ([] :: raw) = blank_line :: escan [] raw.
Proof. by rewrite escan_cons. Qed.

(** The rendered requirements parse to the blocks they were rendered from. *)
Lemma sep_blocks bs : bs <> [] -> seg bs -> Forall block_ok bs ->
  exists bs', blocks (escan [] (sep bs)) = ([blank_line], bs') /\ Forall2 same_core bs' bs /\
    others (escan [] (sep bs)) = others (mjoin bs).
Proof.
  induction bs as [|b bs IH]; [done|]. intros _ (Hs & Hf & Hseg) [Hok Hoks]%Forall_cons.
  rewrite sep_cons. change (([] :: ?x) ++ ?y) with ([] :: (x ++ y)). rewrite escan_nil_cons, escan_app.
  destruct (escan_rstrip _ _ Hs) as (bl & Hb & Hbl). set (core := escan [] (rstrip _)) in *.
  assert (core <> []) as Hne.
  { intros Hc. apply (f_equal (fmap md_Text)) in Hc. unfold core in Hc. rewrite escan_text in Hc.
    by apply (block_text_nonempty b). }
  assert (block_ok core) as Hcore.
  { rewrite Hb in Hok. destruct core as [|l t]; [done|]. destruct Hok as [? Ht]. split; [done|].
    by apply Forall_app in Ht as [? _]. }
  assert (others b = others core) as Hob.
  { rewrite Hb. unfold others. rewrite List.filter_app, fmap_app.
    change (md_N <$> List.filter is_other bl) with (others bl). by rewrite others_blank, app_nil_r. }
  assert (forall l, others (mjoin (b :: l)) = others core ++ others (mjoin l)) as Hoj.
  { intros l. rewrite join_cons, <- Hob. unfold others. by rewrite List.filter_app, fmap_app. }
  destruct (decide (bs = [])) as [->|Hbs].
  - exists [core]. simpl sep. unfold escan at 1. rewrite app_nil_r, Hoj. split_and!.
    + assert (blank_line :: core = [blank_line] ++ mjoin [core]) as -> by (simpl; by rewrite app_nil_r).
      apply blocks_of; by constructor.
    + constructor; [|done]. exists core, [], bl. by rewrite app_nil_r.
    + rewrite others_cons. simpl. by rewrite ?app_nil_r.
  - destruct IH as (bs' & Hbl' & Hsame & Hoth); [done..|].
    rewrite fence_after_rstrip, Hf by done. exists ((core ++ [blank_line]) :: bs'). split_and!.
    + pose proof (blocks_concat (escan [] (sep bs))) as Hcat. pose proof (blocks_ok (escan [] (sep bs))) as Hbok.
      rewrite Hbl' in Hcat, Hbok. simpl in Hcat, Hbok. rewrite Hcat.
      change (blank_line :: core ++ blank_line :: mjoin bs')
        with ([blank_line] ++ core ++ [blank_line] ++ mjoin bs'). rewrite (app_assoc core).
      apply (blocks_of [blank_line] ((core ++ [blank_line]) :: bs')); [by constructor|].
      constructor; [|done]. destruct core as [|l t]; [done|]. destruct Hcore. split; [done|].
      apply Forall_app. split; [done|]. by constructor.
    + constructor; [|done]. exists core, [blank_line], bl. split_and!; try done. by constructor.
    + rewrite Hoj, <- Hoth. unfold others. rewrite <- fmap_app, <- List.filter_app. done.
Qed.

(** Lines with the texts of the preamble, blank lines at its end apart. *)
Lemma pre_blank_split pre : escan [] (md_Text <$> pre) = pre -> exists core bl bl',
  pre = core ++ bl /\ escan [] (pre_texts pre) = core ++ bl' /\ Forall blank bl /\ Forall blank bl'.
Proof.
  intros H. destruct (escan_rstrip _ _ H) as (bl & Hb & Hbl). unfold pre_texts.
  destruct (rstrip (md_Text <$> pre)) as [|t ts] eqn:E.
  - exists [], bl, [blank_line]. split_and!; try done. by constructor.
  - exists (escan [] (t :: ts)), bl, []. by rewrite app_nil_r.
Qed.

Lemma others_app l m : others (l ++ m) = others l ++ others m.
Proof. unfold others. by rewrite List.filter_app, fmap_app. Qed.

Lemma blocks_preamble pre : Forall (fun l => is_head l = false) pre -> blocks pre = (pre, []).
Proof. intros H. rewrite <- (app_nil_r pre) at 1. by apply (blocks_of pre []). Qed.

Lemma parse_rendered_preamble core bl bl' :
  Forall (fun l => is_head l = false) core -> Forall one_line core -> Forall blank bl -> Forall blank bl' ->
  parse_lines (core ++ bl) = parse_lines (core ++ bl').
Proof.
  intros Hc Ho Hb Hb'.
  assert (forall l, Forall blank l -> Forall (fun l => is_head l = false) (core ++ l)).
  { intros l Hl. apply Forall_app. split; [done|]. eapply Forall_impl; eauto using is_head_blank. }
  rewrite !parse_lines_blocks, !blocks_preamble, !others_app, (others_blank bl), (others_blank bl'),
    !parse_pre_blank, !TrimRight_joinBody_blank by auto. done.
Qed.

(** Parsing a rendered document whose lines were scanned to these blocks. *)
Lemma parse_rendered pre bs :
  escan [] (md_Text <$> pre) = pre -> (bs <> [] -> fence_after [] (md_Text <$> pre) = []) -> seg bs ->
  Forall (fun l => is_head l = false) pre -> Forall block_ok bs ->
  Forall one_line pre -> Forall one_line (escan [] (sep bs)) ->
  parse_lines (escan [] (pre_texts pre ++ sep bs)) = parse_lines (pre ++ mjoin bs).
Proof.
  intros Hpre Hf Hseg Hp Hok Ho Hsep.
  destruct (pre_blank_split pre Hpre) as (core & bl & bl' & Hpc & Hpt & Hbl & Hbl').
  assert (Forall (fun l => is_head l = false) core /\ Forall one_line core) as [Hc Hco].
  { rewrite Hpc in Hp, Ho. by apply Forall_app in Hp as [? _], Ho as [? _]. }
  rewrite escan_app, Hpt. destruct (decide (bs = [])) as [->|Hbs].
  { simpl. rewrite !app_nil_r, Hpc. by apply parse_rendered_preamble. }
  assert (fence_after [] (pre_texts pre) = []) as ->.
  { unfold pre_texts. specialize (Hf Hbs). rewrite <- fence_after_rstrip in Hf. by destruct (rstrip _). }
  destruct (sep_blocks bs) as (bs' & Hblk & Hsame & Hoth); [done..|].
  rewrite (parse_lines_blocks (pre ++ _)), blocks_of, others_app by done.
  rewrite parse_lines_blocks, others_app, Hoth, blocks_no_head, Hblk.
  2:{ apply Forall_app; split; [done|]. eapply Forall_impl; [exact Hbl'|]. apply is_head_blank. }
  rewrite Hpc, !others_app, (others_blank bl), (others_blank bl') by done. cbn [fst snd]. rewrite <- app_assoc.
  assert (Forall blank (bl' ++ [blank_line])) by (apply Forall_app; split; [done|by constructor]).
  rewrite !parse_pre_blank, !TrimRight_joinBody_blank by done. f_equal.
  pose proof (blocks_concat (escan [] (sep bs))) as Hcat. rewrite Hblk in Hcat. simpl in Hcat.
  rewrite Hcat in Hsep. apply Forall_cons in Hsep as [_ Hsep]. clear - Hsame Hsep.
  induction Hsame as [|b b' bs' bs Hb _ IH]; [done|]. rewrite join_cons in Hsep.
  apply Forall_app in Hsep as [Hb1 Hb2]. rewrite !fmap_cons, IH by done. f_equal. by apply same_core_build.
Qed.

Lemma rendered_Forall (P : gostring -> Prop) pre bs : P [] ->
  Forall P (md_Text <$> pre ++ mjoin bs) -> Forall P (pre_texts pre ++ sep bs).
Proof.
  intros Hn. rewrite fmap_app. intros [Hp Hb]%Forall_app. apply Forall_app. split.
  - unfold pre_texts. apply rstrip_Forall in Hp. destruct (rstrip _); [by constructor|done].
  - induction bs as [|b bs IH]; [constructor|]. rewrite join_cons, fmap_app in Hb.
    apply Forall_app in Hb as [Hb Hbs]. rewrite sep_cons. apply Forall_app. split; [|auto].
    constructor; [done|]. by apply rstrip_Forall.
Qed.

Lemma Render_erase s : Render (erase_spec s) = Render s.
Proof.
  unfold Render, erase_spec. cbn [s_Preamble s_Requirements]. do 2 f_equal.
  rewrite <- list_fmap_compose. done.
Qed.

(** ** The theorem *)

(** C5: parsing what Render writes for a parsed spec gives the same spec, up to
    the line numbers: the same title, purpose and preamble, the same
    requirements in the same order with the same text, scenarios and checks, and
    the same number of stray headings, whatever else the document holds - fenced code,
    unterminated fences and CRLF line ends included - as long as every carriage return
    of it is one of a CRLF line end (another may be read as one the second time). *)
Theorem ParseSpec_Render (doc : gostring) :
  x0d ∉ ReplaceAll doc [x0d; x0a] [x0a] -> erase_spec (ParseSpec (Render (ParseSpec doc))) = erase_spec (ParseSpec doc).
Proof.
  intros Hcr. rewrite <- (Render_erase (ParseSpec doc)). unfold ParseSpec.
  rewrite <- !parse_lines_erase. unfold splitLines. rewrite !escan_at. change (escan "") with (escan []).
  set (raw := raw_lines doc).
  assert (Forall (fun t => nl ∉ t) raw) as Hnl by apply raw_lines_no_nl.
  assert (Forall (fun t => x0d ∉ t) raw) as Hcrs.
  { apply Forall_forall. intros t Ht Hin. apply Hcr. by eapply raw_lines_bytes. }
  pose proof (escan_seg raw []) as Hseg. pose proof (blocks_concat (escan [] raw)) as Hcat.
  pose proof (blocks_ok (escan [] raw)) as Hok. pose proof (blocks_pre (escan [] raw)) as Hpre.
  rewrite (parse_lines_blocks (escan [] raw)) at 1.
  destruct (blocks (escan [] raw)) as [pre bs]. destruct Hseg as (H1 & H2 & H3). simpl in Hcat, Hok, Hpre.
  assert (raw = md_Text <$> pre ++ mjoin bs) as Hraw by by rewrite <- Hcat, escan_text.
  assert (Forall one_line (pre ++ mjoin bs)) as Ho.
  { rewrite Hraw, Forall_fmap in Hnl. exact Hnl. }
  rewrite Hraw in Hnl, Hcrs. apply rendered_Forall in Hnl, Hcrs; [|set_solver..].
  apply Forall_app in Ho as [Ho Hob].
  apply Forall_join_inv in Hob. rewrite Render_lines, raw_lines_unlines, Hcat by done.
  apply parse_rendered; try done.
  apply Forall_app in Hnl as [_ Hnl]. rewrite <- (escan_text [] (sep bs)), Forall_fmap in Hnl. exact Hnl.
Qed.

Lemma ParseSpec_Render_witness :
  let doc := bs "# Greeting" ++ [x0d; x0a] ++ bs "Purpose: greets

### Requirement: Greet by name
It says hello.

#### Scenario: a name
- check: go test ./...
" in
  x0d ∈ doc /\ length (s_Requirements (ParseSpec doc)) = 1 /\ erase_spec (ParseSpec (Render (ParseSpec doc))) = erase_spec (ParseSpec doc).
Proof.
  intros doc. assert (x0d ∉ ReplaceAll doc [x0d; x0a] [x0a]) as H by (apply (bool_decide_unpack _); vm_compute; exact I).
  split; [apply (bool_decide_unpack _); vm_compute; exact I|]. split; [vm_compute; reflexivity|]. exact (ParseSpec_Render doc H).
Defined.
