(* ===== verification/SpecValid.v ===== *)
(** What internal/apexv1/spec.go's ValidateSpec accepts: exactly the well-formed
    specs; and, in [EditDistance], that its editDistance is the Levenshtein distance, the
    least cost of an edit script, and what nearMiss suggests. *)
From S2P Require Import Prelude Regex Markdown Spec SpecRoundTrip.

(** A scenario's check lists run in parallel. *)
Definition wf_scenario (s : Scenario) : Prop :=
  length (sc_Kinds s) = length (sc_Checks s) /\ length (sc_KindLines s) = length (sc_Checks s) /\
  length (sc_tagged s) = length (sc_Checks s).

Lemma build_step_wf acc l : Forall wf_scenario (fst (fst acc)) -> Forall wf_scenario (fst (fst (build_step acc l))).
Proof.
  destruct acc as [[scs stray] sc]. intros H. unfold build_step. destruct (headingLevel l) as [lv title].
  destruct (_ && _); [apply Forall_app; split; [done|by constructor]|].
  destruct (_ && _); [done|]. destruct (md_InCode l); [done|].
  destruct (check_line _) as [[[v k] t]|]; [|done]. destruct sc as [i|]; [|done]. simpl.
  apply Forall_alter; [done|]. intros s _ (H1 & H2 & H3). unfold wf_scenario. simpl.
  rewrite !length_app. simpl. lia.
Qed.

Lemma buildRequirement_wf name n lines : Forall wf_scenario (r_Scenarios (buildRequirement (new_requirement name n) lines)).
Proof.
  unfold buildRequirement.
  assert (forall ls acc, Forall wf_scenario (fst (fst acc)) -> Forall wf_scenario (fst (fst (foldl build_step acc ls)))) as H.
  { induction ls as [|l ls IH]; intros acc Ha; simpl; [done|]. apply IH. by apply build_step_wf. }
  specialize (H (tail lines) ([], [], None)). simpl in *.
  destruct (foldl build_step _ _) as [[scs stray] sc]. simpl in *. apply H. constructor.
Qed.

(** ** Well-formedness *)

(** A check line's kind: none, or full on a command. *)
Definition kind_ok (kind check : gostring) (tagged : bool) : Prop :=
  tagged = false \/ (isFullKind kind = true /\ check <> HumanReview /\ check <> []).

(** One scenario: exactly one check line, not empty, its kind right. *)
Definition scenario_ok (s : Scenario) : Prop :=
  match sc_Checks s, sc_Kinds s, sc_tagged s with
  | [c], [k], [t] => c <> [] /\ kind_ok k c t
  | _, _, _ => False
  end.

Definition requirement_ok (r : Requirement) : Prop :=
  r_Name r <> [] /\ r_Scenarios r <> [] /\ Forall scenario_ok (r_Scenarios r) /\ r_Stray r = [].

Definition spec_ok (s : Spec) : Prop :=
  s_Title s <> [] /\ s_Purpose s <> [] /\ NoDup (r_Name <$> s_Requirements s) /\
  Forall requirement_ok (s_Requirements s) /\ s_Other s = [].

Lemma badCheckKind_nil what kind check tagged : what <> [] ->
  badCheckKind what kind check tagged = [] <-> kind_ok kind check tagged.
Proof.
  intros Hw. unfold badCheckKind, kind_ok. destruct tagged; simpl; [|naive_solver].
  destruct (isFullKind kind); simpl; [|destruct what; [done|]; naive_solver].
  repeat case_bool_decide; simpl; destruct what; try done; naive_solver.
Qed.

Lemma scenario_findings file s : wf_scenario s ->
  kind_findings file s ++ check_count_findings file s = [] <-> scenario_ok s.
Proof.
  destruct s as [name line checks kinds lines tagged]. unfold wf_scenario, scenario_ok, kind_findings, check_count_findings. simpl.
  intros (H1 & H2 & H3). destruct checks as [|c [|c' cs]].
  - split; [|done]. intros [_ H]%app_nil. done.
  - destruct kinds as [|k []], lines as [|n []], tagged as [|t []]; simplify_eq/=.
    rewrite app_nil_r. set (bad := badCheckKind _ k c t).
    assert (bad = [] <-> kind_ok k c t) as Hk by by apply badCheckKind_nil.
    rewrite <- Hk. case_bool_decide as Hb.
    + rewrite Hb. simpl. case_bool_decide; naive_solver.
    + simpl. naive_solver.
  - split; [intros [_ H]%app_nil; done|]. done.
Qed.

Lemma app_nil_iff {A} (l m : list A) : l ++ m = [] <-> l = [] /\ m = [].
Proof. split; [apply app_nil|]. by intros [-> ->]. Qed.

Lemma requirement_findings file r : Forall wf_scenario (r_Scenarios r) ->
  validateRequirementBody file r = [] <-> requirement_ok r.
Proof.
  intros Hwf. unfold validateRequirementBody, requirement_ok. rewrite !app_nil_iff.
  assert (mjoin ((fun sc => kind_findings file sc ++ check_count_findings file sc) <$> r_Scenarios r) = [] <->
    Forall scenario_ok (r_Scenarios r)) as ->.
  { rewrite join_nil, Forall_fmap. rewrite !Forall_forall in *.
    split; intros H sc Hsc; specialize (H sc Hsc); apply (scenario_findings file sc (Hwf sc Hsc)); done. }
  assert (((fun n => finding file n "`check:` line outside any scenario") <$> r_Stray r = []) <-> r_Stray r = []) as ->
    by (destruct (r_Stray r); done).
  case_bool_decide; destruct (r_Scenarios r); naive_solver.
Qed.

Lemma dup_fold_nil file rs : forall seen out, Forall (fun r => Forall wf_scenario (r_Scenarios r)) rs ->
  snd (foldl (dup_step file) (seen, out) rs) = [] <->
  out = [] /\ NoDup (r_Name <$> rs) /\ Forall requirement_ok rs /\ Forall (fun r => seen !! r_Name r = None) rs.
Proof.
  induction rs as [|r rs IH]; intros seen out Hwf.
  { simpl. split; [intros ->; repeat split; constructor|naive_solver]. }
  apply Forall_cons in Hwf as [Hw Hwf]. cbn [foldl dup_step].
  rewrite IH by done. rewrite fmap_cons, !app_nil_iff, NoDup_cons, !Forall_cons, (requirement_findings file r Hw).
  assert (Forall (fun q => <[r_Name r:=r_Line r]> seen !! r_Name q = None) rs <->
    (r_Name r ∉ (r_Name <$> rs)) /\ Forall (fun q => seen !! r_Name q = None) rs) as ->.
  { rewrite !Forall_forall, list_elem_of_fmap. split.
    - intros H. split.
      + intros (q & Hq & Hin). apply H, lookup_insert_None in Hin as [_ ?]. congruence.
      + intros q Hin. by apply H, lookup_insert_None in Hin as [? _].
    - intros [Hn H] q Hin. apply lookup_insert_None. split; [auto|]. intros Heq. apply Hn. eauto. }
  destruct (seen !! r_Name r); naive_solver.
Qed.

Lemma ParseSpec_wf doc : Forall (fun r => Forall wf_scenario (r_Scenarios r)) (s_Requirements (ParseSpec doc)).
Proof.
  unfold ParseSpec. rewrite parse_lines_blocks. destruct (blocks _) as [pre bs]. cbn [s_Requirements].
  apply Forall_fmap, Forall_forall. intros b _. destruct b as [|l b]; [constructor|]. apply buildRequirement_wf.
Qed.

(** ValidateSpec finds nothing exactly when the document is within its cap and
    the spec is well formed: a title, a purpose, no stray level-3 heading,
    requirements of distinct non-empty names, each with scenarios and no check
    outside them, and each scenario with exactly one check, not empty, of no kind
    or full on a command. *)
Theorem ValidateSpec_iff (file doc : gostring) (maxBytes : Z) :
  ValidateSpec file doc maxBytes = [] <-> (Z.of_nat (length doc) <= maxBytes)%Z /\ spec_ok (ParseSpec doc).
Proof.
  unfold ValidateSpec, spec_ok. cbv zeta. rewrite !app_nil_iff, (dup_fold_nil _ _ _ _ (ParseSpec_wf doc)).
  generalize (ParseSpec doc). intros s.
  assert (forall P, (∅ : gmap gostring nat) !! P = None) as He by (intros; apply lookup_empty).
  assert (Forall (fun r => (∅ : gmap gostring nat) !! r_Name r = None) (s_Requirements s)) by by apply Forall_true.
  assert (((fun n => finding file n "level-3 heading that is not `### Requirement: <name>`") <$> s_Other s = []) <->
    s_Other s = []) as -> by (destruct (s_Other s); done).
  destruct (Z.ltb_spec maxBytes (Z.of_nat (length doc))); repeat case_bool_decide; naive_solver lia.
Qed.

Module EditDistance.

(** ** Edit scripts *)

Definition subst_cost (a b : Z) : nat := if (a =? b)%Z then 0 else 1.

(** [script a b n]: [n] deletions, insertions and replacements turn [a] into [b]. *)
Inductive script : list Z -> list Z -> nat -> Prop :=
| script_nil : script [] [] 0
| script_del x a b n : script a b n -> script (x :: a) b (S n)
| script_ins y a b n : script a b n -> script a (y :: b) (S n)
| script_sub x y a b n : script a b n -> script (x :: a) (y :: b) (n + subst_cost x y).

(** The recursive distance, from the front. *)
Fixpoint lev (a b : list Z) {struct a} : nat :=
  match a with
  | [] => length b
  | x :: a' =>
      (fix go (b : list Z) : nat :=
         match b with
         | [] => length a
         | y :: b' => Nat.min (Nat.min (S (lev a' b)) (S (go b'))) (lev a' b' + subst_cost x y)
         end) b
  end.

Arguments lev : simpl never.

Lemma lev_nil_l b : lev [] b = length b.
Proof. done. Qed.

Lemma lev_nil_r a : lev a [] = length a.
Proof. by destruct a. Qed.

Lemma lev_cons x a y b :
  lev (x :: a) (y :: b) = Nat.min (Nat.min (S (lev a (y :: b))) (S (lev (x :: a) b))) (lev a b + subst_cost x y).
Proof. done. Qed.

Lemma lev_tail_l x a b : lev (x :: a) b <= S (lev a b).
Proof. destruct b as [|y b]; [rewrite !lev_nil_r; simpl; lia|rewrite lev_cons; lia]. Qed.

Lemma lev_tail_r y a b : lev a (y :: b) <= S (lev a b).
Proof. destruct a as [|x a]; [rewrite !lev_nil_l; simpl; lia|rewrite lev_cons; lia]. Qed.

Lemma lev_least a b n : script a b n -> lev a b <= n.
Proof.
  induction 1 as [|x a b n _ IH|y a b n _ IH|x y a b n _ IH]; [done|..].
  - pose proof (lev_tail_l x a b). lia.
  - pose proof (lev_tail_r y a b). lia.
  - rewrite lev_cons. lia.
Qed.

Lemma script_ins_all b : script [] b (length b).
Proof. induction b; simpl; by constructor. Qed.

Lemma script_del_all a : script a [] (length a).
Proof. induction a; simpl; by constructor. Qed.

Lemma lev_script a b : script a b (lev a b).
Proof.
  revert b. induction a as [|x a IHa]; intros b; [apply script_ins_all|].
  induction b as [|y b IHb]; [rewrite lev_nil_r; apply script_del_all|].
  rewrite lev_cons.
  destruct (Nat.min_dec (Nat.min (S (lev a (y :: b))) (S (lev (x :: a) b))) (lev a b + subst_cost x y)) as [-> | ->].
  - destruct (Nat.min_dec (S (lev a (y :: b))) (S (lev (x :: a) b))) as [-> | ->]; by constructor.
  - by constructor.
Qed.

Lemma script_snoc a b n : script a b n ->
  (forall x, script (a ++ [x]) b (S n)) /\ (forall y, script a (b ++ [y]) (S n)) /\
  (forall x y, script (a ++ [x]) (b ++ [y]) (n + subst_cost x y)).
Proof.
  induction 1 as [|x a b n H IH|y a b n H IH|x y a b n H IH].
  - split_and!; intros; simpl; [repeat constructor..|]. apply (script_sub x y [] [] 0), script_nil.
  - destruct IH as (H1 & H2 & H3). split_and!; intros; simpl; by constructor.
  - destruct IH as (H1 & H2 & H3). split_and!; intros; simpl; by constructor.
  - destruct IH as (H1 & H2 & H3). split_and!; intros; simpl.
    + by apply (script_sub x y _ _ (S n)).
    + by apply (script_sub x y _ _ (S n)).
    + replace (n + subst_cost x y + subst_cost x0 y0) with (n + subst_cost x0 y0 + subst_cost x y) by lia.
      by constructor.
Qed.

Lemma script_rev a b n : script a b n -> script (rev a) (rev b) n.
Proof.
  induction 1 as [|x a b n H IH|y a b n H IH|x y a b n H IH]; simpl; [constructor|..];
    destruct (script_snoc _ _ _ IH) as (H1 & H2 & H3); auto.
Qed.

Lemma lev_rev a b : lev (rev a) (rev b) = lev a b.
Proof.
  apply Nat.le_antisymm; apply lev_least.
  - apply script_rev, lev_script.
  - rewrite <- (rev_involutive a), <- (rev_involutive b) at 1. apply script_rev, lev_script.
Qed.

(** ** The table *)

(** The row of the table for the prefix [pa] of the first string. *)
Definition row (pa rb : list Z) (ks : list nat) : list nat := (fun j => lev (rev pa) (rev (take j rb))) <$> ks.

Lemma rev_take_S (rb : list Z) j b : rb !! j = Some b -> rev (take (S j) rb) = b :: rev (take j rb).
Proof. intros H. rewrite (take_S_r _ _ b) by done. by rewrite rev_app_distr. Qed.

(** One row computes the next: from column [j] on, with [left] and [diag] the
    entries at [j] of the new and of the old row. *)
Lemma ed_row_spec pa a rb : forall post pre, rb = pre ++ post ->
  ed_row a (lev (rev (pa ++ [a])) (rev pre)) (lev (rev pa) (rev pre)) (row pa rb (seq (S (length pre)) (length post))) post =
  row (pa ++ [a]) rb (seq (S (length pre)) (length post)).
Proof.
  induction post as [|b post IH]; intros pre Hrb; [done|].
  assert (take (S (length pre)) rb = pre ++ [b]) as Ht.
  { rewrite Hrb. replace (S (length pre)) with (length pre + 1) by lia.
    by rewrite take_app_add. }
  change (seq (S (length pre)) (length (b :: post))) with (S (length pre) :: seq (S (S (length pre))) (length post)).
  unfold row in *. rewrite !fmap_cons. cbn [ed_row]. rewrite Ht.
  specialize (IH (pre ++ [b])). rewrite length_app, Nat.add_1_r in IH.
  rewrite <- IH by by rewrite <- app_assoc.
  rewrite !rev_app_distr. cbn [rev app]. rewrite (lev_cons a (rev pa) b (rev pre)).
  assert (forall u v, Nat.min (Nat.min (u + 1) (v + 1)) (lev (rev pa) (rev pre) + (if (a =? b)%Z then 0 else 1)) =
    Nat.min (Nat.min (S u) (S v)) (lev (rev pa) (rev pre) + subst_cost a b)) as ->
    by (intros; unfold subst_cost; f_equal; lia).
  done.
Qed.

Lemma ed_step_spec rb pa a :
  ed_step rb (length pa, row pa rb (seq 0 (S (length rb)))) a =
  (length (pa ++ [a]), row (pa ++ [a]) rb (seq 0 (S (length rb)))).
Proof.
  pose proof (ed_row_spec pa a rb rb [] eq_refl) as H. simpl length in H.
  unfold ed_step. cbn [seq]. unfold row in *. rewrite !fmap_cons.
  cbn [take rev] in *. rewrite !lev_nil_r, !length_rev, length_app, Nat.add_1_r in *.
  by rewrite H.
Qed.

Lemma ed_fold_spec rb : forall ra pa,
  foldl (ed_step rb) (length pa, row pa rb (seq 0 (S (length rb)))) ra =
  (length (pa ++ ra), row (pa ++ ra) rb (seq 0 (S (length rb)))).
Proof.
  induction ra as [|a ra IH]; intros pa; cbn [foldl]; [by rewrite app_nil_r|].
  rewrite ed_step_spec, IH. by rewrite <- app_assoc.
Qed.

Lemma row_nil rb : row [] rb (seq 0 (S (length rb))) = seq 0 (S (length rb)).
Proof.
  unfold row. apply list_eq. intros i. rewrite list_lookup_fmap.
  destruct (decide (i < S (length rb))).
  - rewrite lookup_seq_lt by lia. simpl fmap. rewrite lev_nil_l, length_rev, length_take. f_equal. lia.
  - by rewrite lookup_seq_ge by lia.
Qed.

Lemma edit_distance_lev ra rb : edit_distance_runes ra rb = lev ra rb.
Proof.
  unfold edit_distance_runes. pose proof (ed_fold_spec rb ra []) as H. cbn [length app] in H.
  rewrite row_nil in H. rewrite H. cbn [snd].
  unfold row. replace (S (length rb)) with (length rb + 1) by lia.
  rewrite seq_app, fmap_app. cbn [seq]. rewrite fmap_cons, fmap_nil, last_snoc. cbn [default].
  by rewrite take_ge, lev_rev by lia.
Qed.

(** EditDistance is the Levenshtein distance of its arguments' code points:
    there is an edit script of that cost, and none is cheaper. *)
Theorem editDistance_least (a b : gostring) :
  script (runes a) (runes b) (editDistance a b) /\
  (forall n, script (runes a) (runes b) n -> editDistance a b <= n).
Proof.
  unfold editDistance. rewrite edit_distance_lev. split; [apply lev_script|]. intros n. apply lev_least.
Qed.

(** ** Near misses *)

Section near_miss.
Context (ToLower : gostring -> gostring).

(** Names within the suggestion limit of [name]. *)
Definition close (name have : gostring) : Prop :=
  have <> name /\
  (fold_name ToLower have = fold_name ToLower name \/
   editDistance (fold_name ToLower name) (fold_name ToLower have) <= Nat.max (length (fold_name ToLower name) / 5) 2).

Lemma near_loop_sound name : forall rs best bd,
  near_loop ToLower (fold_name ToLower name) name best bd rs = best \/
  exists r, r ∈ rs /\ near_loop ToLower (fold_name ToLower name) name best bd rs = r_Name r /\ close name (r_Name r).
Proof.
  induction rs as [|r rs IH]; intros best bd; cbn [near_loop]; [by left|].
  case_bool_decide as H1.
  { destruct (IH best bd) as [?|(q & ? & ? & ?)]; [by left|right; exists q; set_solver]. }
  case_bool_decide as H2.
  { right. exists r. unfold close. split_and!; [set_solver|done..|by left]. }
  destruct (_ && _) eqn:E.
  - apply andb_true_iff in E as [E%Nat.leb_le _]. right.
    destruct (IH (r_Name r) (Some (editDistance (fold_name ToLower name) (fold_name ToLower (r_Name r)))))
      as [Heq|(q & ? & ? & ?)]; [exists r|exists q; set_solver].
    rewrite Heq. unfold close. split_and!; [set_solver|done..|by right].
  - destruct (IH best bd) as [?|(q & ? & ? & ?)]; [by left|right; exists q; set_solver].
Qed.

Lemma near_loop_complete name : forall rs best bd,
  (exists r, r ∈ rs /\ close name (r_Name r)) -> (bd <> None -> best <> []) -> (forall r, r ∈ rs -> r_Name r <> []) ->
  near_loop ToLower (fold_name ToLower name) name best bd rs <> [].
Proof.
  assert (forall rs best bd, (bd <> None) -> best <> [] -> (forall r, r ∈ rs -> r_Name r <> []) ->
    near_loop ToLower (fold_name ToLower name) name best bd rs <> []) as Hkeep.
  { induction rs as [|r rs IH]; intros best bd Hbd Hb Hn; cbn [near_loop]; [done|].
    assert (forall q, q ∈ rs -> r_Name q <> []) by set_solver.
    assert (r_Name r <> []) by set_solver.
    repeat case_bool_decide; auto. destruct (_ && _); apply IH; auto. }
  induction rs as [|r rs IH]; intros best bd (q & Hq & Hc) Hb Hn; [by apply not_elem_of_nil in Hq|]. cbn [near_loop].
  assert (forall q, q ∈ rs -> r_Name q <> []) by set_solver.
  assert (r_Name r <> []) by set_solver.
  case_bool_decide as H1.
  { apply IH; [|done..]. exists q. apply elem_of_cons in Hq as [-> |]; [by destruct Hc|done]. }
  case_bool_decide as H2; [done|].
  destruct (_ && _) eqn:E; [by apply Hkeep|].
  apply elem_of_cons in Hq as [-> |Hq]; [|by eauto].
  destruct Hc as [_ [?|Hd]]; [done|]. apply andb_false_iff in E as [E%Nat.leb_gt|E]; [lia|].
  destruct bd; [|done]. apply Hkeep; auto.
Qed.
End near_miss.

(** nearMiss answers with a requirement of the spec other than the one named,
    equal to it after folding or within the edit limit; and it answers "" only
    when no requirement is that close. *)
Theorem nearMiss_spec (ToLower : gostring -> gostring) (spec : Spec) (name : gostring)
  (named : Forall (fun r => r_Name r <> []) (s_Requirements spec)) :
  let m := nearMiss ToLower spec name in
  (m <> [] -> exists r, r ∈ s_Requirements spec /\ r_Name r = m /\ close ToLower name m) /\
  (m = [] -> forall r, r ∈ s_Requirements spec -> ~ close ToLower name (r_Name r)).
Proof.
  rewrite Forall_forall in named. unfold nearMiss. cbv zeta. split.
  - intros Hm. destruct (near_loop_sound ToLower name (s_Requirements spec) [] None) as [?|(r & Hr & -> & Hc)]; [done|].
    eauto.
  - intros Hm r Hr Hc. revert Hm. apply near_loop_complete; [by eauto|done..].
Qed.

(** A requirement list for the witness. *)
Definition near_example : Spec :=
  MkSpec [] [] [] [new_requirement "Greet by name" 3; new_requirement "Say goodbye" 9] [].

Lemma nearMiss_spec_witness :
  nearMiss (fun s => s) near_example "Greet by nam" = "Greet by name" /\
  exists r, r ∈ s_Requirements near_example /\ r_Name r = nearMiss (fun s => s) near_example "Greet by nam".
Proof.
  assert (nearMiss (fun s => s) near_example "Greet by nam" = "Greet by name") as Hm by (vm_compute; reflexivity).
  split; [exact Hm|].
  assert (Forall (fun r => r_Name r <> []) (s_Requirements near_example)) as Hn
    by (constructor; [discriminate|constructor; [discriminate|constructor]]).
  destruct (proj1 (nearMiss_spec (fun s => s) near_example "Greet by nam" Hn)) as (r & H1 & H2 & _).
  - rewrite Hm. discriminate.
  - exists r. exact (conj H1 H2).
Defined.
End EditDistance.
