(* ===== verification/Change.v ===== *)
(** The change document, internal/apexv1/change.go and
    internal/frontmatter/frontmatter.go: change.md's frontmatter, its delta blocks
    and its tasks, the frozen plan's digest and its size. *)
From S2P Require Import Prelude Regex Markdown Spec.

(** ** internal/frontmatter *)

Definition bom : gostring := [xef; xbb; xbf].
Definition delimiter : gostring := "---".

Definition isDelimiter (line : gostring) : bool := TrimRight line [[x20]; [x09]; [x0d]] =s delimiter.

Definition consumeDelimiterLine (data : gostring) : option gostring :=
  match Cut data [nl] with
  | None => None
  | Some (before, after) => if isDelimiter before then Some after else None
  end.

(** The scan for the closing delimiter: [read] is first[:offset], [cur] the line
    being read, the rest of the text to come. *)
Fixpoint close_scan (read cur rest : gostring) : option (gostring * gostring) :=
  match rest with
  | [] => match cur with
          | [] => None
          | _ => if isDelimiter cur then Some (read, []) else None
          end
  | c :: rest' =>
      if Byte.eqb c nl then
        if isDelimiter cur then Some (read, rest') else close_scan (read ++ cur ++ [nl]) [] rest'
      else close_scan read (cur ++ [c]) rest'
  end.

(** Split: [None] is ErrNoFrontmatter. *)
Definition Split (data : gostring) : option (gostring * gostring) :=
  first ← consumeDelimiterLine (TrimPrefix data bom); close_scan [] [] first.

Definition Has (data : gostring) : bool := if Split data is Some _ then true else false.

(** ** The document's data *)

Inductive DeltaOp := OpAdded | OpModified | OpRemoved.
#[export] Instance DeltaOp_eq_dec : EqDecision DeltaOp.
Proof. solve_decision. Defined.

Definition op_text (o : DeltaOp) : gostring :=
  match o with OpAdded => "ADDED" | OpModified => "MODIFIED" | OpRemoved => "REMOVED" end.

Record ChangeMeta := MkMeta {
  m_ID : gostring; m_Milestone : gostring; m_Touches : list gostring; m_Paths : list gostring;
  m_Decisions : list gostring; m_Retire : list gostring; m_Type : gostring;
  m_ReviewTools : list gostring; m_Advise : list gostring; m_Docs : bool }.

Definition empty_meta : ChangeMeta := MkMeta [] [] [] [] [] [] [] [] [] false.

Record Delta := MkDelta {
  d_Op : DeltaOp; d_Capability : gostring; d_Name : gostring; d_Line : nat; d_Req : Requirement;
  d_Reason : gostring; d_Extra : nat; d_Purpose : gostring; d_PurposeLine : nat }.

Record Task := MkTask {
  t_ID : gostring; t_What : gostring; t_Check : gostring; t_Regression : bool; t_Tool : gostring;
  t_Full : bool; t_Live : bool; t_Line : nat }.

Definition Human (t : Task) : bool := t_Check t =s HumanReview.

Record Change := MkChange {
  c_Meta : ChangeMeta; c_MetaErr : option gostring; c_Title : gostring; c_H2 : list section;
  c_DeltaNone : gostring; c_Deltas : list Delta; c_Tasks : list Task; c_UnknownKeys : list gostring;
  c_BadDocs : gostring; c_parse : list Finding; c_file : gostring; c_raw : gostring }.

(** ** Expressions *)

(** The dashes of a separator. *)
Definition c_dash : Z -> bool := cor c_emdash (cor c_endash (one "-")).

(** [(?:^|\s)[—–-]+\s*] *)
Definition dash_sep : re := cats [Alt Bol (Cls c_space); Plus (Cls c_dash); Star (Cls c_space)].

Definition deltaHeadRe : re :=
  cats [ Bol; Grp 1 (Alt (lit "ADDED") (Alt (lit "MODIFIED") (lit "REMOVED"))); Plus (Cls c_space);
         lit "["; Grp 2 (Star (Cls (cnot (one "]")))); lit "]"; Plus (Cls c_space); lit "Requirement:";
         Star (Cls c_space); Grp 3 (Star (Cls c_dot)); Eol ].
Definition deltaNoneRe : re :=
  cats [ Bol; lit "none"; Star (Cls c_space); Cls (cor c_dash (one ":")); Star (Cls c_space);
         Grp 1 (Cat (Cls (cnot c_space)) (Star (Cls c_dot))); Eol ].
Definition taskItemRe : re :=
  cats [ Bol; Rep (Cls c_space) 0 3; Cls (cor (one "-") (cor (one "*") (one "+"))); Plus (Cls c_space);
         Grp 1 (Star (Cls c_dot)); Eol ].
Definition taskIDRe : re :=
  cats [ Bol; Opt (Grp 1 (cats [lit "["; Cls (cor (one " ") (cor (one "x") (one "X"))); lit "]"; Star (Cls c_space)]));
         Grp 2 (Cat (lit "T") (Plus (Cls c_digit))); WordB;
         Opt (Cls (cor (one ":") (cor (one ".") (one ")")))); Star (Cls c_space); Grp 3 (Star (Cls c_dot)); Eol ].
Definition taskCheckRe : re :=
  cats [ dash_sep; Grp 1 (Alt (lit "check") (lit "regression"));
         Opt (cats [Star (Cls c_space); lit "("; Grp 2 (Star (Cls (cnot (one ")")))); lit ")"]); lit ":" ].
Definition taskToolRe : re :=
  cats [ dash_sep; lit "tool:"; Star (Cls c_space);
         Grp 1 (Cat (Cls (cnot c_space)) (Opt (Cat (Star (Cls c_dot)) (Cls (cnot c_space)))));
         Star (Cls c_space); Eol ].

(** strings.EqualFold against an ASCII string: simple folding also relates k with
    the Kelvin sign and s with the long s. *)
Definition fold_rune (r : Z) (c : byte) : bool :=
  let x := bz c in
  (r =? x)%Z
  || (c_lower x && (r =? x - 32)%Z) || (c_upper x && (r =? x + 32)%Z)
  || (((x =? 75) || (x =? 107)) && (r =? 8490))%Z
  || (((x =? 83) || (x =? 115)) && (r =? 383))%Z.
Fixpoint fold_runes (rs : list Z) (t : gostring) : bool :=
  match rs, t with
  | [], [] => true
  | r :: rs', c :: t' => fold_rune r c && fold_runes rs' t'
  | _, _ => false
  end.
Definition EqualFold (s t : gostring) : bool := fold_runes (runes s) t.

(** (c *Change) section *)
Definition section_of (h2 : list section) (title : gostring) : option section :=
  List.find (fun s => EqualFold (sec_Title s) title) h2.

(** ** Delta blocks *)

Definition set_purpose (d : Delta) (p : gostring) (line : nat) : Delta :=
  MkDelta (d_Op d) (d_Capability d) (d_Name d) (d_Line d) (d_Req d) (d_Reason d) (d_Extra d) p line.
Definition set_reason (d : Delta) (r : gostring) : Delta :=
  MkDelta (d_Op d) (d_Capability d) (d_Name d) (d_Line d) (d_Req d) r (d_Extra d) (d_Purpose d) (d_PurposeLine d).
Definition set_extra (d : Delta) (n : nat) : Delta :=
  MkDelta (d_Op d) (d_Capability d) (d_Name d) (d_Line d) (d_Req d) (d_Reason d) n (d_Purpose d) (d_PurposeLine d).
Definition set_req (d : Delta) (r : Requirement) : Delta :=
  MkDelta (d_Op d) (d_Capability d) (d_Name d) (d_Line d) r (d_Reason d) (d_Extra d) (d_Purpose d) (d_PurposeLine d).

Fixpoint leading_blank (lines : list mdLine) : nat :=
  match lines with
  | l :: lines' => if TrimSpace (md_Text l) =s "" then S (leading_blank lines') else 0
  | [] => 0
  end.

(** takePurpose at lines[i]: the delta with its Purpose, and the index of the last
    line it took; [None] when no Purpose block opens there. *)
Definition takePurpose (d : Delta) (lines : list mdLine) (i : nat) (bodyEmpty : bool) : option (Delta * nat) :=
  match lines !! i with
  | None => None
  | Some l =>
      if negb (bool_decide (d_Op d = OpAdded)) || md_InCode l || negb (Nat.eqb (d_PurposeLine d) 0)
         || negb (HasPrefix (TrimSpace (md_Text l)) "Purpose:")
      then None
      else
        let '(p, n) := purposeBlock lines i in
        let i' := i + n in
        let i'' := if bodyEmpty then i' + leading_blank (drop i' lines) else i' in
        Some (set_purpose d p (md_N l), i'' - 1)
  end.

(** flush's loop over the lines of a delta block: the delta with its Purpose,
    Reason and first extra line, and the requirement's own lines. [skip] lines
    belong to a Purpose block already read. *)
Fixpoint flush_body (d : Delta) (bodyLines : list mdLine) (skip : nat) (ls : list mdLine) : Delta * list mdLine :=
  match ls with
  | [] => (d, bodyLines)
  | l :: ls' =>
      match skip with
      | S k => flush_body d bodyLines k ls'
      | O =>
          match takePurpose d ls 0 (match bodyLines with [] => true | _ => false end) with
          | Some (d', last) => flush_body d' bodyLines last ls'
          | None =>
              let t := TrimSpace (md_Text l) in
              let removed := bool_decide (d_Op d = OpRemoved) in
              if removed && negb (md_InCode l) && HasPrefix t "Reason:"
              then flush_body (set_reason d (TrimSpace (TrimPrefix t "Reason:"))) bodyLines 0 ls'
              else
                let d' := if removed && Nat.eqb (d_Extra d) 0 && (t <>s "") && hasProse [l]
                          then set_extra d (md_N l) else d in
                flush_body d' (bodyLines ++ [l]) 0 ls'
          end
      end
  end.

Definition flush_delta (curLines : list mdLine) (d : Delta) : Delta :=
  let head := MdLine (d_Line d) ("### " ++ RequirementPrefix ++ " " ++ d_Name d) false in
  let '(d', bodyLines) := flush_body d [] 0 curLines in
  set_req d' (buildRequirement (new_requirement (d_Name d') (d_Line d')) (head :: bodyLines)).

Record pdstate := PD {
  pd_deltas : list Delta; pd_cur : option nat; pd_lines : list mdLine; pd_loose : list mdLine;
  pd_skipping : bool; pd_parse : list Finding }.

Definition pd_flush (st : pdstate) : pdstate :=
  match pd_cur st with
  | None => st
  | Some c => PD (alter (flush_delta (pd_lines st)) c (pd_deltas st)) (pd_cur st) [] (pd_loose st)
                (pd_skipping st) (pd_parse st)
  end.

Definition op_of_text (s : gostring) : DeltaOp :=
  if s =s "ADDED" then OpAdded else if s =s "MODIFIED" then OpModified else OpRemoved.

(** A delta heading's text, parsed. *)
Definition delta_head (title : gostring) : option (DeltaOp * gostring * gostring) :=
  m ← FindSubmatchIndex deltaHeadRe title;
  Some (op_of_text (group title m 1), TrimSpace (group title m 2), TrimSpace (group title m 3)).

Definition new_delta (op : DeltaOp) (cap name : gostring) (line : nat) : Delta :=
  MkDelta op cap name line (new_requirement [] 0) [] 0 [] 0.

Definition pd_step (file : gostring) (st : pdstate) (l : mdLine) : pdstate :=
  let '(lv, title) := headingLevel l in
  if Nat.eqb lv 3 then
    let st := pd_flush st in
    match delta_head title with
    | None =>
        PD (pd_deltas st) None (pd_lines st) (pd_loose st) true
          (pd_parse st ++ [finding file (md_N l) "delta heading must be `### ADDED|MODIFIED|REMOVED [<capability>] Requirement: <name>`"])
    | Some (op, cap, name) =>
        PD (pd_deltas st ++ [new_delta op cap name (md_N l)]) (Some (length (pd_deltas st))) (pd_lines st)
          (pd_loose st) false (pd_parse st)
    end
  else match pd_cur st with
       | Some _ => PD (pd_deltas st) (pd_cur st) (pd_lines st ++ [l]) (pd_loose st) (pd_skipping st) (pd_parse st)
       | None =>
           if pd_skipping st then st
           else PD (pd_deltas st) None (pd_lines st) (pd_loose st ++ [l]) false (pd_parse st)
       end.

(** A line of prose of its own. *)
Definition prose_alone (l : mdLine) : bool := (TrimSpace (md_Text l) <>s "") && hasProse [l].

(** The `none — reason` shape: the reason and the findings. *)
Definition none_step (file : gostring) (acc : gostring * list Finding) (l : mdLine) : gostring * list Finding :=
  let '(none, out) := acc in
  let t := TrimSpace (md_Text l) in
  if negb (prose_alone l) then acc
  else match FindSubmatchIndex deltaNoneRe t with
       | Some m =>
           if none =s "" then (TrimSpace (group t m 1), out)
           else (none, out ++ [finding file (md_N l) "## Delta holds delta blocks or the single line `none — <reason>`, nothing else"])
       | None => (none, out ++ [finding file (md_N l) "## Delta holds delta blocks or the single line `none — <reason>`, nothing else"])
       end.

(** parseDelta: the deltas, the `none` reason and the findings. *)
Definition parseDelta (file : gostring) (body : list mdLine) : list Delta * gostring * list Finding :=
  let st := pd_flush (foldl (pd_step file) (PD [] None [] [] false []) body) in
  match pd_deltas st with
  | _ :: _ =>
      let extra := match List.find prose_alone (pd_loose st) with
                   | Some l => [finding file (md_N l) "text before the first delta block is not carried into any spec — archive would drop it; move it to ## Why or ## Notes"]
                   | None => []
                   end in
      (pd_deltas st, [], pd_parse st ++ extra)
  | [] =>
      if pd_skipping st then ([], [], pd_parse st)
      else let '(none, out) := foldl (none_step file) ([], pd_parse st) (pd_loose st) in ([], none, out)
  end.

(** ** Tasks *)

Definition TaskLineGrammar : gostring :=
  "task line must read `- T<n> <what> — check: <command> | human-review` or `- T<n> <what> — regression: <command>`" ++
  " (a design-tool task: `- T<n> <what> — tool: <name> — check: …`; a check that does not run on every change: `— check (full): <command>`)".

Definition backquote : list gostring := [[x60]].

(** taskCheckKind: full, or why not. *)
Definition taskCheckKind (id check : gostring) (regression : bool) (kind : gostring) : bool * gostring :=
  if regression then
    (false, "task " ++ id ++ "'s regression: kind `(" ++ kind ++ ")` is not `check (full):`, as a kind goes on check: alone" ++
            " — write `— check (full): <command>`, or a plain `— regression: <command>`")
  else
    let why := badCheckKind ("task " ++ id ++ "'s check") kind check true in
    if why <>s "" then (false, why) else (isFullKind kind, []).

Definition dash_cut : list gostring := [[x20]; [x09]; bs "—"; bs "–"; [x2d]].

(** A task's text after its id, and what is wrong with its kind. *)
Definition task_rest (id : gostring) (line : nat) (rest : gostring) : Task * gostring :=
  match FindSubmatchIndex taskCheckRe rest with
  | Some m =>
      let what := TrimSpace (take (m_start m) rest) in
      let check := Trim (TrimSpace (drop (m_end m) rest)) backquote in
      let regression := group rest m 1 =s "regression" in
      let '(full, bad) :=
        match group_at m 2 with
        | Some _ => taskCheckKind id check regression (TrimSpace (group rest m 2))
        | None => (false, [])
        end in
      (MkTask id what check regression [] full full line, bad)
  | None =>
      match CutLast rest "check:" with
      | Some (what, check) =>
          (MkTask id (TrimRight (TrimSpace what) dash_cut) (Trim (TrimSpace check) backquote) false [] false false line, [])
      | None => (MkTask id (TrimSpace rest) [] false [] false false line, [])
      end
  end.

(** The `— tool: <name>` that ends a task's text. *)
Definition task_tool (t : Task) : Task :=
  match FindSubmatchIndex taskToolRe (t_What t) with
  | Some m =>
      MkTask (t_ID t) (TrimSpace (take (m_start m) (t_What t))) (t_Check t) (t_Regression t)
        (Trim (group (t_What t) m 1) backquote) (t_Full t) (t_Live t) (t_Line t)
  | None => t
  end.

(** One line of parseTasks: its task, if it is one, and its findings. *)
Definition task_line (file : gostring) (l : mdLine) : option Task * list Finding :=
  if md_InCode l then (None, [])
  else
    match FindSubmatchIndex taskItemRe (md_Text l) with
    | None => (None, [])
    | Some m =>
        if HasPrefix (md_Text l) "    " || HasPrefix (md_Text l) [x09] then (None, [])
        else
          let item := TrimSpace (group (md_Text l) m 1) in
          match FindSubmatchIndex taskIDRe item with
          | None => (None, [finding file (md_N l) TaskLineGrammar])
          | Some tm =>
              let box := if group item tm 1 <>s "" then
                  [finding file (md_N l) "tasks have no checkboxes — progress is state.json, written by `ape change verify`"]
                else [] in
              let '(t0, badKind) := task_rest (group item tm 2) (md_N l) (group item tm 3) in
              let t := task_tool t0 in
              let kind := if badKind <>s "" then [finding file (md_N l) badKind] else [] in
              let reg := if t_Regression t && ((t_Check t =s HumanReview) || (t_Check t =s "")) then
                  [finding file (md_N l) (TaskLineGrammar ++ "; " ++ t_ID t ++
                     "'s regression: names no command — a regression task runs a command, which may already pass at baseline")]
                else [] in
              (Some t, box ++ kind ++ reg)
          end
    end.

Definition parseTasks (file : gostring) (body : list mdLine) : list Task * list Finding :=
  (omap (fun l => fst (task_line file l)) body, mjoin ((fun l => snd (task_line file l)) <$> body)).

Definition find_task (c : Change) (id : gostring) : option Task :=
  List.find (fun t => t_ID t =s id) (c_Tasks c).
Definition CommandTasks (c : Change) : list Task :=
  List.filter (fun t => (t_Check t <>s "") && negb (Human t)) (c_Tasks c).
Definition HumanTasks (c : Change) : list gostring := t_ID <$> List.filter Human (c_Tasks c).

(** ** The document *)

(** A docs: node as the YAML library reads it. *)
Inductive docsNode :=
| DocsAbsent
| DocsBool (b : bool)
| DocsScalar (quoted : gostring)
| DocsOther.

(** gopkg.in/yaml.v3 on the frontmatter: change.md's fields (docs: apart, what was
    read of them when it does not parse) and the parse error, the top-level keys,
    and the docs: node. *)
Record Yaml := MkYaml {
  yaml_meta : gostring -> ChangeMeta * option gostring;
  yaml_keys : gostring -> option (list gostring);
  yaml_docs : gostring -> docsNode }.

Definition knownChangeKeys : list gostring :=
  [ bs "id"; bs "milestone"; bs "touches"; bs "paths"; bs "decisions"; bs "retire"; bs "type";
    bs "review_tools"; bs "docs"; bs "advise" ].

Section with_yaml.
Context (Y : Yaml).

Definition unknownKeys (fm : gostring) : list gostring :=
  match yaml_keys Y fm with
  | None => []
  | Some keys =>
      sort_Strings (List.filter (fun k => negb (slices_Contains knownChangeKeys k) && negb (HasPrefix k "x-")) keys)
  end.

Definition docsFlag (fm : gostring) : bool * gostring :=
  match yaml_docs Y fm with
  | DocsAbsent => (false, [])
  | DocsBool b => (b, [])
  | DocsScalar q => (false, q)
  | DocsOther => (false, bs "a list or mapping")
  end.

Definition set_docs (m : ChangeMeta) (d : bool) : ChangeMeta :=
  MkMeta (m_ID m) (m_Milestone m) (m_Touches m) (m_Paths m) (m_Decisions m) (m_Retire m) (m_Type m)
    (m_ReviewTools m) (m_Advise m) d.

(** The frontmatter of a document: its fields, its error, the unknown keys, the
    bad docs: value and the body. *)
Definition parse_front (doc : gostring)
    : ChangeMeta * option gostring * list gostring * gostring * gostring :=
  match Split doc with
  | None => (empty_meta, Some (bs "no YAML frontmatter (--- id/milestone/touches ---)"), [], [], doc)
  | Some (fm, body) =>
      match yaml_meta Y fm with
      | (m, Some e) => (m, Some (bs "frontmatter does not parse: " ++ e), [], [], body)
      | (m, None) =>
          let '(docs, bad) := docsFlag fm in
          (set_docs m docs, None, unknownKeys fm, bad, body)
      end
  end.

Definition shift_line (k : nat) (l : mdLine) : mdLine := MdLine (md_N l + k) (md_Text l) (md_InCode l).

Definition ParseChange (file doc : gostring) : Change :=
  let '(meta, err, unknown, badDocs, body) := parse_front doc in
  let offset := if Nat.ltb (length body) (length doc)
                then count_nl (take (length doc - length body) doc) else 0 in
  let lines := shift_line offset <$> splitLines body in
  let title := match List.find (fun l => Nat.eqb (fst (headingLevel l)) 1) lines with
               | Some l => snd (headingLevel l) | None => [] end in
  let h2 := h2Sections lines in
  let '(deltas, none, f1) := match section_of h2 "Delta" with
                             | Some s => parseDelta file (sec_Body s) | None => ([], [], []) end in
  let '(tasks, f2) := match section_of h2 "Tasks" with
                      | Some s => parseTasks file (sec_Body s) | None => ([], []) end in
  MkChange meta err title h2 none deltas tasks unknown badDocs (f1 ++ f2) file doc.
End with_yaml.

(** ** The plan *)

(** The text PlanDigest hashes: change.md without the bodies of ## Why and
    ## Notes, lines right-trimmed, blank lines dropped. *)
Definition plan_step (acc : gostring * bool) (l : mdLine) : gostring * bool :=
  let '(out, skip) := acc in
  let '(lv, title) := headingLevel l in
  let text := TrimRight (md_Text l) blank_tab in
  let put := if text <>s "" then out ++ text ++ [nl] else out in
  if Nat.ltb 0 lv && Nat.leb lv 2 then
    if Nat.eqb lv 2 && (EqualFold title "Why" || EqualFold title "Notes")
    then (out ++ "## " ++ title ++ [nl], true)
    else (put, false)
  else if skip then (out, true)
  else (put, false).

Definition plan_text (raw : gostring) : gostring := fst (foldl plan_step ([], false) (splitLines raw)).

Definition PlanDigest (sha256_hex : gostring -> gostring) (c : Change) : gostring := sha256_hex (plan_text (c_raw c)).

(** PlanBytes' loop: the bytes left, and whether ## Notes is open. *)
Definition plan_bytes_step (acc : Z * bool) (lr : mdLine * gostring) : Z * bool :=
  let '(n, notes) := acc in
  let '(l, raw) := lr in
  let '(lv, title) := headingLevel l in
  let notes := if Nat.ltb 0 lv && Nat.leb lv 2 then Nat.eqb lv 2 && EqualFold title "Notes" else notes in
  if notes then ((n - Z.of_nat (length raw))%Z, notes) else (n, notes).

Definition PlanBytes (c : Change) : Z :=
  fst (foldl plan_bytes_step (Z.of_nat (length (c_raw c)), false)
         (zip (splitLines (c_raw c)) (SplitAfterNL (c_raw c)))).

(** ** What a MODIFIED block takes away *)

Definition firstCheck (s : Scenario) : gostring := match sc_Checks s with [] => [] | c :: _ => c end.

(** The last scenario of a name (a Go map keeps the last one written). *)
Definition byName (scs : list Scenario) (name : gostring) : option Scenario :=
  List.find (fun s => sc_Name s =s name) (rev scs).

Section quoting.
(** strconv.Quote and fmt's %#q. *)
Context (Quote RawQuote : gostring -> gostring).

Definition scenario_loss (modified : Requirement) (old : Scenario) : list gostring :=
  match byName (r_Scenarios modified) (sc_Name old) with
  | None => ["drops scenario " ++ Quote (sc_Name old)]
  | Some now =>
      if firstCheck old <>s firstCheck now then
        ["changes the check of scenario " ++ Quote (sc_Name old) ++ " from " ++ RawQuote (firstCheck old) ++
         " to " ++ RawQuote (firstCheck now)]
      else []
  end.

Definition scenarioLoss (existing modified : Requirement) : list gostring :=
  mjoin (scenario_loss modified <$> r_Scenarios existing).
End quoting.
