(* ===== verification/Merge.v ===== *)
(** The delta merge of internal/apexv1/archive.go, the plan-time check of a delta
    in internal/apexv1/changes.go, the checks of the effective spec in
    internal/apexv1/effective.go, and the rewrite of the deprecated check kind in
    internal/apexv1/rewritelive.go. *)
From S2P Require Import Prelude Regex Markdown Spec Change.

(** ** rewritelive.go *)

Definition live_close : re :=
  cats [Star (Cls c_space); lit "live"; Star (Cls c_space); Grp 2 (cats [lit ")"; Star (Cls c_space); lit ":"])].

Definition liveCheckLineRe : re :=
  cats [ Bol; Grp 1 (cats [ Star (Cls c_space); Opt (Cat (Cls (cor (one "-") (one "*"))) (Plus (Cls c_space)));
                            lit "check"; Star (Cls c_space); lit "(" ]); live_close ].
Definition liveTaskRe : re :=
  Cat (Grp 1 (cats [ dash_sep; Alt (lit "check") (lit "regression"); Star (Cls c_space); lit "(" ])) live_close.
Definition liveGateRe : re :=
  cats [ Bol; Grp 1 (cats [ Star (Cls c_space); Plus (lit "#"); Star (Cls c_space); lit "scenario";
                            Star (Cls c_space); lit "(" ]); live_close ].
Definition fenceRe : re := cats [ Bol; Star (Cls c_space); Grp 1 (Alt (lit "```") (lit "~~~")) ].

(** [${1}full${2}] *)
Definition full_for_live (l : gostring) (m : mres) : gostring := group l m 1 ++ "full" ++ group l m 2.

Definition rewrite_live_line (l : gostring) : option gostring :=
  if MatchString liveCheckLineRe l then Some (ReplaceAllRe liveCheckLineRe l (full_for_live l))
  else if MatchString liveTaskRe l then Some (ReplaceAllRe liveTaskRe l (full_for_live l))
  else None.

Fixpoint rewrite_live_lines (fenced : bool) (lines : list gostring) : list gostring * nat :=
  match lines with
  | [] => ([], 0)
  | l :: lines' =>
      if MatchString fenceRe l then
        let '(out, n) := rewrite_live_lines (negb fenced) lines' in (l :: out, n)
      else
        let '(out, n) := rewrite_live_lines fenced lines' in
        if fenced then (l :: out, n)
        else match rewrite_live_line l with
             | Some l' => (l' :: out, S n)
             | None => (l :: out, n)
             end
  end.

Definition rewriteLiveMarkdown (doc : gostring) : gostring * nat :=
  let '(out, n) := rewrite_live_lines false (SplitAfterNL doc) in (mjoin out, n).

Definition rewrite_gate_line (l : gostring) : gostring * nat :=
  if MatchString liveGateRe l then (ReplaceAllRe liveGateRe l (full_for_live l), 1) else (l, 0).

Definition rewriteLiveGate (doc : gostring) : gostring * nat :=
  let r := rewrite_gate_line <$> SplitAfterNL doc in
  (mjoin (fst <$> r), foldr Nat.add 0 (snd <$> r)).

(** ** Purposes of new capabilities *)

(** firstParagraph's loop: the paragraph so far, whether a comment is open;
    [None] ends it. *)
Fixpoint para_loop (para : list gostring) (inComment : bool) (body : list mdLine) : list gostring :=
  match body with
  | [] => para
  | l :: body' =>
      let t := TrimSpace (md_Text l) in
      if HasPrefix t "<!--" || inComment then para_loop para (negb (Contains t "-->")) body'
      else if t =s "" then match para with [] => para_loop para false body' | _ => para end
      else para_loop (para ++ [t]) false body'
  end.

Definition firstParagraph (body : list mdLine) : gostring := Join (para_loop [] false body) " ".

Definition purposeFrom (c : Change) : gostring :=
  let default := bs "Introduced by change " ++ m_ID (c_Meta c) ++ "." in
  match section_of (c_H2 c) "Why" with
  | Some s => let para := firstParagraph (sec_Body s) in if para <>s "" then para else default
  | None => default
  end.

Definition capabilityPurpose (c : Change) (capName : gostring) : gostring :=
  match List.find (fun d => bool_decide (d_Op d = OpAdded) && (d_Capability d =s capName) && (d_Purpose d <>s "")) (c_Deltas c) with
  | Some d => d_Purpose d
  | None => purposeFrom c
  end.

(** ** The merge *)

Record SpecUpdate := MkUpdate {
  u_Capability : gostring; u_Path : gostring; u_Created : bool; u_Retired : bool;
  u_Added : Z; u_Modified : Z; u_Removed : Z; u_content : gostring }.

(** The index of the first requirement of a name. *)
Definition req_index (name : gostring) (rs : list Requirement) : option nat :=
  fst <$> list_find (fun r => r_Name r = name) rs.

Definition set_text (r : Requirement) (t : gostring) : Requirement :=
  MkRequirement (r_Name r) (r_Line r) t (r_Scenarios r) (r_Stray r).

(** d.Req as it reaches the spec. *)
Definition merged_req (d : Delta) : Requirement := set_text (d_Req d) (fst (rewriteLiveMarkdown (r_Text (d_Req d)))).

Definition reqKey (d : Delta) : gostring * gostring := (d_Capability d, d_Name d).

Record counts := MkCounts { n_added : Z; n_modified : Z; n_removed : Z }.

Section merge.
(** strings.ToLower, strconv.Quote, fmt's %#q, and a spec's path. *)
Context (ToLower Quote RawQuote spec_path : gostring -> gostring).

Definition nearMissFix (spec : Spec) (name : gostring) : gostring :=
  let near := nearMiss ToLower spec name in
  if near <>s "" then "did you mean " ++ Quote near ++ "? Name the heading exactly" else bs "name it exactly".

Definition set_reqs (s : Spec) (rs : list Requirement) : Spec :=
  MkSpec (s_Title s) (s_Purpose s) (s_Preamble s) rs (s_Other s).

(** One delta of applyDeltas: the spec, the counts and the conflicts so far. *)
Definition apply_delta (capName : gostring) (acc : Spec * counts * list gostring) (d : Delta)
    : Spec * counts * list gostring :=
  let '(spec, u, conflicts) := acc in
  let req := merged_req d in
  let clash (msg : gostring) := (spec, u, conflicts ++ [msg]) in
  let label := op_text (d_Op d) ++ " [" ++ capName ++ "] " ++ Quote (d_Name d) in
  match d_Op d, req_index (d_Name d) (s_Requirements spec) with
  | OpAdded, Some _ => clash (label ++ " already exists in the spec")
  | OpAdded, None =>
      (set_reqs spec (s_Requirements spec ++ [req]), MkCounts (n_added u + 1) (n_modified u) (n_removed u), conflicts)
  | OpModified, None => clash (label ++ " is not in the spec (" ++ nearMissFix spec (d_Name d) ++ ")")
  | OpModified, Some idx =>
      let loss := match s_Requirements spec !! idx with
                  | Some r => scenarioLoss Quote RawQuote r req | None => [] end in
      match loss with
      | [] => (set_reqs spec (<[idx := req]> (s_Requirements spec)),
               MkCounts (n_added u) (n_modified u + 1) (n_removed u), conflicts)
      | _ => clash (label ++ " " ++ Join loss "; " ++ " of the current spec")
      end
  | OpRemoved, None => clash (label ++ " is not in the spec (" ++ nearMissFix spec (d_Name d) ++ ")")
  | OpRemoved, Some idx =>
      (set_reqs spec (delete idx (s_Requirements spec)), MkCounts (n_added u) (n_modified u) (n_removed u + 1), conflicts)
  end%Z.

Definition applyDeltas (spec : Spec) (capName : gostring) (deltas : list Delta) : Spec * counts * list gostring :=
  foldl (apply_delta capName) (spec, MkCounts 0 0 0, []) deltas.

(** The specs on disk: each capability's document. *)
Context (specs : gmap gostring gostring).

Definition LoadSpec (capName : gostring) : option Spec := ParseSpec <$> specs !! capName.

(** The capabilities a delta names, each once, in byte order. *)
Definition cap_order (ds : list Delta) : list gostring :=
  sort_Strings (foldl (fun order d => if slices_Contains order (d_Capability d) then order
                                       else order ++ [d_Capability d]) [] ds).

Definition deltas_of (ds : list Delta) (capName : gostring) : list Delta :=
  List.filter (fun d => d_Capability d =s capName) ds.

(** One capability of MergeDelta: its update and its conflicts. *)
Definition merge_cap (c : Change) (capName : gostring) : SpecUpdate * list gostring :=
  let loaded := LoadSpec capName in
  let exists_ := match loaded with Some _ => true | None => false end in
  let spec := match loaded with
              | Some s => s
              | None => MkSpec [] [] ("# " ++ titleFromSlug capName ++ [nl] ++ "Purpose: " ++ capabilityPurpose c capName) [] []
              end in
  let '(spec', u, cs) := applyDeltas spec capName (deltas_of (c_Deltas c) capName) in
  let empties := match cs, s_Requirements spec' with [], [] => exists_ | _, _ => false end in
  let retire := slices_Contains (m_Retire (c_Meta c)) capName in
  let cs' := if empties && negb retire then
      cs ++ ["the delta leaves [" ++ capName ++ "] with no requirement — add `retire: [" ++ capName ++ "]` to delete the capability"]
    else cs in
  (MkUpdate capName (spec_path capName) (negb exists_) (empties && retire) (n_added u) (n_modified u) (n_removed u)
     (Render spec'), cs').

Definition MergeDelta (c : Change) : list SpecUpdate * list gostring :=
  let results := merge_cap c <$> cap_order (c_Deltas c) in
  let conflicts := mjoin (snd <$> results) in
  match conflicts with
  | [] => (fst <$> results, [])
  | _ => ([], conflicts)
  end.
End merge.

(** ** The plan-time check of a delta (changes.go) *)

Fixpoint reqHasLeadText_lines (ls : list gostring) : bool :=
  match ls with
  | [] => false
  | l :: ls' =>
      let t := TrimSpace l in
      if HasPrefix t "#### " then false
      else if (t <>s "") && negb (HasPrefix t "#") then true
      else reqHasLeadText_lines ls'
  end.
Definition reqHasLeadText (text : gostring) : bool := reqHasLeadText_lines (split_byte nl text).

Section check.
Context (ToLower Quote RawQuote : gostring -> gostring).
Context (specs : gmap gostring gostring).

(** The existing capabilities whose every requirement the change removes, with
    nothing added or modified in them. *)
Definition emptied (c : Change) (capName : gostring) : bool :=
  let ds := deltas_of (c_Deltas c) capName in
  let removed := d_Name <$> List.filter (fun d => bool_decide (d_Op d = OpRemoved)) ds in
  match removed with
  | [] => false
  | _ =>
      forallb (fun d => bool_decide (d_Op d = OpRemoved)) ds &&
      match LoadSpec specs capName with
      | None => false
      | Some spec =>
          match s_Requirements spec with
          | [] => false
          | rs => forallb (fun r => slices_Contains removed (r_Name r)) rs
          end
      end
  end.

(** sortedKeys of emptiedCapabilities. *)
Definition emptiedCapabilities (c : Change) : list gostring :=
  List.filter (emptied c) (cap_order (c_Deltas c)).

Definition checkRetire (file : gostring) (c : Change) : list Finding :=
  let retire := m_Retire (c_Meta c) in
  mjoin ((fun capName =>
    if slices_Contains retire capName then []
    else [finding file 1 ("the delta removes every requirement of [" ++ capName ++
            "] — add `retire: [" ++ capName ++ "]` to the frontmatter to delete the capability, or keep a requirement")])
    <$> emptiedCapabilities c) ++
  mjoin ((fun capName =>
    if emptied c capName then []
    else [finding file 1 ("retire: lists [" ++ capName ++
            "], but the delta does not remove every one of its requirements — REMOVE them all, or drop it from retire:")])
    <$> retire).

(** What checkDeltas finds about one delta against the specs. *)
Definition check_op (file : gostring) (d : Delta) : list Finding :=
  let loaded := LoadSpec specs (d_Capability d) in
  let specExists := match loaded with Some _ => true | None => false end in
  let spec := default (MkSpec [] [] [] [] []) loaded in
  let existing := s ← loaded; Find s (d_Name d) in
  let say line msg := [finding file line msg] in
  match d_Op d with
  | OpAdded =>
      (if Nat.ltb 0 (d_PurposeLine d) && specExists then
         say (d_PurposeLine d) ("`Purpose:` in an ADDED block names a new capability's purpose, and [" ++ d_Capability d ++
           "] already has one — drop it, or change the spec's Purpose through its own change")
       else if Nat.ltb 0 (d_PurposeLine d) && (d_Purpose d =s "") then
         say (d_PurposeLine d) (bs "`Purpose:` is empty — one or more sentences on what the capability is for")
       else if Nat.ltb 0 (d_PurposeLine d) && Contains (d_Purpose d) [nl] && negb (reqHasLeadText (r_Text (d_Req d))) then
         say (d_PurposeLine d) (bs "`Purpose:` runs to the first blank line and took the requirement's own text — put a blank line between the Purpose and the requirement's text")
       else []) ++
      (match existing with
       | Some _ => say (d_Line d) ("ADDED requirement " ++ Quote (d_Name d) ++ " already exists in specs/" ++ d_Capability d ++ " — use MODIFIED")
       | None =>
           let near := nearMiss ToLower spec (d_Name d) in
           if specExists && (near <>s "") then
             say (d_Line d) ("ADDED requirement " ++ Quote (d_Name d) ++ " nearly matches the existing " ++ Quote near ++ " in specs/" ++ d_Capability d ++
               " — MODIFIED " ++ Quote near ++ " if it is the same requirement, or pick a clearly different name")
           else []
       end) ++ validateRequirementBody file (d_Req d)
  | OpModified =>
      (match existing with
       | None => say (d_Line d) ("MODIFIED names " ++ Quote (d_Name d) ++ ", which is not a requirement heading in specs/" ++ d_Capability d ++
                   "/spec.md — " ++ nearMissFix ToLower Quote spec (d_Name d))
       | Some r =>
           (fun loss => finding file (d_Line d) ("MODIFIED [" ++ d_Capability d ++ "] " ++ Quote (d_Name d) ++ " " ++ loss ++
              " — a MODIFIED block keeps every scenario and its check; changed behaviour is REMOVED + ADDED under a new name"))
           <$> scenarioLoss Quote RawQuote r (d_Req d)
       end) ++ validateRequirementBody file (d_Req d)
  | OpRemoved =>
      (match existing with
       | None => say (d_Line d) ("REMOVED names " ++ Quote (d_Name d) ++ ", which is not a requirement heading in specs/" ++ d_Capability d ++
                   "/spec.md — " ++ nearMissFix ToLower Quote spec (d_Name d))
       | Some _ => []
       end) ++
      (if d_Reason d =s "" then say (d_Line d) (bs "REMOVED needs a `Reason:` line") else []) ++
      (if Nat.ltb 0 (d_Extra d) then
         say (d_Extra d) (bs "a REMOVED block carries only `Reason:` — archive would drop this text; move it to ## Why or ## Notes") else [])
  end.

(** One delta of checkDeltas: the keys seen and the findings so far. *)
Definition check_delta (file : gostring) (touches : list gostring) (acc : gmap (gostring * gostring) nat * list Finding)
    (d : Delta) : gmap (gostring * gostring) nat * list Finding :=
  let '(seen, out) := acc in
  if (d_Capability d =s "") || negb (MatchString slugRe (d_Capability d)) then
    (seen, out ++ [finding file (d_Line d) ("delta capability [" ++ d_Capability d ++ "] is not a kebab-case slug")])
  else
    let out := if slices_Contains touches (d_Capability d) then out
               else out ++ [finding file (d_Line d) ("delta capability [" ++ d_Capability d ++ "] is not in frontmatter touches:")] in
    if d_Name d =s "" then (seen, out ++ [finding file (d_Line d) "delta has no requirement name"])
    else
      let out := match seen !! reqKey d with
                 | Some prev => out ++ [finding file (d_Line d) ("requirement [" ++ d_Capability d ++ "] " ++ Quote (d_Name d) ++
                                 " appears twice in the delta (first at line " ++ ItoaN prev ++ ")")]
                 | None => out
                 end in
      (<[reqKey d := d_Line d]> seen, out ++ check_op file d).

Definition checkDeltas (file : gostring) (c : Change) (touches : list gostring) : list Finding :=
  snd (foldl (check_delta file touches) (∅, []) (c_Deltas c)) ++ checkRetire file c.
End check.
