(* ===== verification/Samples.v ===== *)
(** A concrete change, spec and frontmatter reader: the inputs the witnesses run
    the theorems on. *)
From S2P Require Import Prelude Regex Markdown Spec Change Merge.

(** A reader of the sample's frontmatter. *)
Definition sample_yaml : Yaml :=
  MkYaml (fun _ => (MkMeta "greet-twice" "M1" [bs "greeting"] [] [] [] "feat" [] [] false, None))
    (fun _ => Some [bs "id"; bs "milestone"; bs "touches"; bs "type"]) (fun _ => DocsAbsent).

Definition sample_change : gostring := "---
id: greet-twice
milestone: M1
touches: [greeting]
type: feat
---
# Greet twice

## Why
People like it.

## Delta
### MODIFIED [greeting] Requirement: Greet by name
It says hello.

#### Scenario: a name
- check: go test ./...

#### Scenario: twice
- check: go test -run Twice ./...

### ADDED [greeting] Requirement: Say goodbye
It says goodbye.

#### Scenario: leaving
- check: make bye

## Tasks
- T1 greet twice — check: go test -run Twice ./...
".

Definition sample_spec : gostring := "# Greeting
Purpose: greets

### Requirement: Greet by name
It says hello.

#### Scenario: a name
- check: go test ./...
".

Definition sample_specs : gmap gostring gostring := {[ bs "greeting" := sample_spec ]}.
