(* ===== verification/MergeFacts.v ===== *)
(** Theorems about the delta merge: what a green plan-time check promises of it,
    the specs it leaves, and that it never weakens a requirement. *)
From S2P Require Import Prelude Regex Markdown Spec Change Merge Samples.

(** ** The first requirement of a name *)

Definition first_req (name : gostring) (rs : list Requirement) : option Requirement :=
  List.find (fun r => r_Name r =s name) rs.

Lemma first_req_Find s name : Find s name = first_req name (s_Requirements s).
Proof. done. Qed.

Lemma first_req_cons name r rs :
  first_req name (r :: rs) = if decide (r_Name r = name) then Some r else first_req name rs.
Proof. unfold first_req. simpl. by repeat (case_bool_decide || case_decide). Qed.

#[local] Arguments first_req : simpl never.

Lemma first_req_name name rs r : first_req name rs = Some r -> r_Name r = name.
Proof. intros H%List.find_some. destruct H as [_ H]. by apply bool_decide_eq_true in H. Qed.

Lemma req_index_cons name r rs :
  req_index name (r :: rs) = if decide (r_Name r = name) then Some 0 else S <$> req_index name rs.
Proof.
  unfold req_index. simpl. case_decide; [done|]. by destruct (list_find _ rs) as [[]|].
Qed.

Lemma req_index_None name rs : req_index name rs = None <-> first_req name rs = None.
Proof.
  induction rs as [|r rs IH]; [done|]. rewrite req_index_cons, first_req_cons.
  case_decide; [done|]. rewrite <- IH. by destruct (req_index name rs).
Qed.

Lemma req_index_Some name rs i : req_index name rs = Some i ->
  exists r, first_req name rs = Some r /\ rs !! i = Some r /\ r_Name r = name.
Proof.
  revert i. induction rs as [|r rs IH]; intros i; [done|]. rewrite req_index_cons, first_req_cons.
  case_decide; [intros [= <-]; eauto|]. destruct (req_index name rs) as [j|]; [|done].
  intros [= <-]. apply (IH j eq_refl).
Qed.

Lemma first_req_app name rs r : r_Name r <> name -> first_req name (rs ++ [r]) = first_req name rs.
Proof.
  intros Hr. induction rs as [|q rs IH]; simpl app; rewrite !first_req_cons; [|by rewrite IH].
  by case_decide.
Qed.

Lemma first_req_app_new rs r : first_req (r_Name r) rs = None -> first_req (r_Name r) (rs ++ [r]) = Some r.
Proof.
  induction rs as [|q rs IH]; simpl app; rewrite !first_req_cons; [|by case_decide; auto].
  by case_decide.
Qed.

Lemma first_req_insert_ne name rs i q r :
  rs !! i = Some q -> r_Name q <> name -> r_Name r <> name -> first_req name (<[i := r]> rs) = first_req name rs.
Proof.
  intros Hi Hq Hr. revert i Hi. induction rs as [|p rs IH]; intros [|i] Hi; simplify_eq/=; rewrite !first_req_cons.
  - by repeat case_decide.
  - case_decide; auto.
Qed.

Lemma first_req_insert rs i r : req_index (r_Name r) rs = Some i -> first_req (r_Name r) (<[i := r]> rs) = Some r.
Proof.
  revert i. induction rs as [|p rs IH]; intros i; [done|]. rewrite req_index_cons. case_decide.
  - intros [= <-]. simpl. rewrite first_req_cons. by case_decide.
  - destruct (req_index _ rs) as [j|]; [|done]. intros [= <-]. simpl. rewrite first_req_cons.
    case_decide; [done|]. auto.
Qed.

Lemma first_req_delete_ne name rs i q :
  rs !! i = Some q -> r_Name q <> name -> first_req name (delete i rs) = first_req name rs.
Proof.
  intros Hi Hq. revert i Hi. induction rs as [|p rs IH]; intros [|i] Hi; simplify_eq/=; rewrite !first_req_cons.
  - by case_decide.
  - case_decide; auto.
Qed.

(** ** Parsed deltas *)

(** A delta's requirement bears its name. *)
Definition wf_delta (d : Delta) : Prop := r_Name (d_Req d) = d_Name d.

Lemma flush_body_name ls : forall d body k, d_Name (fst (flush_body d body k ls)) = d_Name d.
Proof.
  induction ls as [|l ls IH]; intros d body k; simpl; [done|].
  destruct k; [|apply IH].
  destruct (takePurpose d (l :: ls) 0 _) as [[d' last]|] eqn:E.
  - rewrite IH. unfold takePurpose in E. simpl in E. repeat split_match_in E; by simplify_eq/=.
  - destruct (_ && _ && _); [by rewrite IH|]. rewrite IH. by destruct (_ && _ && _ && _).
Qed.

Lemma buildRequirement_name r lines : r_Name (buildRequirement r lines) = r_Name r.
Proof. unfold buildRequirement. by destruct (foldl _ _ _) as [[]]. Qed.

Lemma wf_flush_delta lines d : wf_delta (flush_delta lines d).
Proof.
  unfold wf_delta, flush_delta. destruct (flush_body d [] 0 lines) as [d' body]. simpl.
  by rewrite buildRequirement_name.
Qed.

(** Every delta but the open one is flushed. *)
Definition pd_wf (st : pdstate) : Prop :=
  match pd_cur st with
  | None => Forall wf_delta (pd_deltas st)
  | Some c => S c = length (pd_deltas st) /\ Forall wf_delta (take c (pd_deltas st))
  end.

Lemma pd_flush_wf st : pd_wf st -> Forall wf_delta (pd_deltas (pd_flush st)).
Proof.
  unfold pd_wf, pd_flush. destruct (pd_cur st) as [c|]; [|done]. simpl. intros [Hc Hw].
  assert (exists l d, pd_deltas st = l ++ [d] /\ length l = c) as (l & d & Hd & <-).
  { destruct (pd_deltas st) as [|d l _] using rev_ind; [done|]. rewrite length_app in Hc. simpl in Hc.
    exists l, d. split; [done|lia]. }
  rewrite Hd in *. rewrite alter_snoc. rewrite take_app_length in Hw. apply Forall_app. split; [done|].
  constructor; [apply wf_flush_delta|done].
Qed.

Lemma pd_step_wf file st l : pd_wf st -> pd_wf (pd_step file st l).
Proof.
  intros H. unfold pd_step. destruct (headingLevel l) as [lv title].
  destruct (Nat.eqb lv 3).
  - pose proof (pd_flush_wf st H) as Hf. destruct (delta_head title) as [[[op cap] name]|]; [|done].
    unfold pd_wf. simpl. rewrite length_app, take_app_length. simpl. split; [lia|done].
  - unfold pd_wf in *. destruct (pd_cur st) eqn:E; simpl; [done|].
    destruct (pd_skipping st); simpl; [|done]. by rewrite E.
Qed.

Lemma parseDelta_wf file body : Forall wf_delta (fst (fst (parseDelta file body))).
Proof.
  unfold parseDelta.
  assert (pd_wf (foldl (pd_step file) (PD [] None [] [] false []) body)) as H.
  { assert (pd_wf (PD [] None [] [] false [])) as H0 by constructor. revert H0.
    generalize (PD [] None [] [] false []). induction body as [|l body IH]; intros st Hst; simpl; [done|].
    apply IH. by apply pd_step_wf. }
  apply pd_flush_wf in H. destruct (pd_deltas (pd_flush _)); [|done].
  destruct (pd_skipping _); [done|]. destruct (foldl (none_step file) _ _); done.
Qed.

Lemma ParseChange_wf Y file doc : Forall wf_delta (c_Deltas (ParseChange Y file doc)).
Proof.
  unfold ParseChange. destruct (parse_front Y doc) as [[[[meta err] unknown] bad] body].
  set (h2 := h2Sections _).
  set (a := match section_of h2 "Delta" with
     | Some s => parseDelta file (sec_Body s) | None => ([], [], []) end).
  set (b := match section_of h2 "Tasks" with
     | Some s => parseTasks file (sec_Body s) | None => ([], []) end).
  assert (Forall wf_delta (fst (fst a))) as H
    by (unfold a; destruct (section_of h2 "Delta"); [apply parseDelta_wf|done]).
  destruct a as [[deltas none] f1]. by destruct b.
Qed.

(** ** Applying deltas *)

Section apply.
Context (ToLower Quote RawQuote : gostring -> gostring).

#[local] Abbreviation apply_delta := (apply_delta ToLower Quote RawQuote).
#[local] Abbreviation applyDeltas := (applyDeltas ToLower Quote RawQuote).

(** The delta fits the requirements [rs]: what archive asks of it. *)
Definition fits (rs : list Requirement) (d : Delta) : Prop :=
  match d_Op d with
  | OpAdded => first_req (d_Name d) rs = None
  | OpModified => exists r, first_req (d_Name d) rs = Some r /\ scenarioLoss Quote RawQuote r (d_Req d) = []
  | OpRemoved => first_req (d_Name d) rs <> None
  end.

Lemma scenarioLoss_merged r d : scenarioLoss Quote RawQuote r (merged_req d) = scenarioLoss Quote RawQuote r (d_Req d).
Proof. done. Qed.

(** What a fitting delta does to the requirements. *)
Definition effect (rs : list Requirement) (d : Delta) : list Requirement :=
  match d_Op d, req_index (d_Name d) rs with
  | OpAdded, _ => rs ++ [merged_req d]
  | OpModified, Some i => <[i := merged_req d]> rs
  | OpRemoved, Some i => delete i rs
  | _, None => rs
  end.

Lemma apply_fits cap spec u cs d : fits (s_Requirements spec) d ->
  exists u', apply_delta cap (spec, u, cs) d = (set_reqs spec (effect (s_Requirements spec) d), u', cs).
Proof.
  unfold fits, effect, Merge.apply_delta. destruct (d_Op d).
  - intros H. apply req_index_None in H as ->. eauto.
  - intros (r & Hr & Hl). destruct (req_index _ _) as [i|] eqn:E.
    + apply req_index_Some in E as (r' & Hr' & Hi & _). rewrite Hr in Hr'. simplify_eq.
      rewrite Hi, scenarioLoss_merged, Hl. eauto.
    + apply req_index_None in E. congruence.
  - intros H. destruct (req_index _ _) as [i|] eqn:E; [eauto|]. by apply req_index_None in E.
Qed.

Lemma effect_frame rs d name : wf_delta d -> d_Name d <> name ->
  first_req name (effect rs d) = first_req name rs.
Proof.
  intros Hwf Hne. assert (r_Name (merged_req d) <> name) as Hr by (simpl; congruence).
  unfold effect. destruct (d_Op d).
  - by apply first_req_app.
  - destruct (req_index _ _) as [i|] eqn:E; [|done]. apply req_index_Some in E as (q & _ & Hi & Hq).
    eapply first_req_insert_ne; [done|congruence|done].
  - destruct (req_index _ _) as [i|] eqn:E; [|done]. apply req_index_Some in E as (q & _ & Hi & Hq).
    eapply first_req_delete_ne; [done|congruence].
Qed.

Lemma effect_kept rs d : wf_delta d -> fits rs d -> d_Op d <> OpRemoved ->
  first_req (d_Name d) (effect rs d) = Some (merged_req d).
Proof.
  unfold fits, effect. intros Hwf Hf Hop. rewrite <- Hwf. change (r_Name (d_Req d)) with (r_Name (merged_req d)).
  destruct (d_Op d); [| |done].
  - apply first_req_app_new. simpl. by rewrite Hwf.
  - destruct Hf as (r & Hr & _). destruct (req_index _ rs) as [i|] eqn:E; [by apply first_req_insert|].
    apply req_index_None in E. simpl in E. rewrite Hwf in E. congruence.
Qed.

Lemma fits_frame rs d d' : wf_delta d -> d_Name d <> d_Name d' -> fits rs d' -> fits (effect rs d) d'.
Proof. intros Hwf Hne. unfold fits. by rewrite (effect_frame rs d) by done. Qed.

(** Deltas of distinct requirements that fit the spec merge without conflict,
    one after the other. *)
Lemma applyDeltas_fits cap ds : forall spec u cs,
  Forall wf_delta ds -> NoDup (d_Name <$> ds) -> Forall (fits (s_Requirements spec)) ds ->
  exists u', foldl (apply_delta cap) (spec, u, cs) ds =
    (set_reqs spec (foldl effect (s_Requirements spec) ds), u', cs).
Proof.
  induction ds as [|d ds IH]; intros spec u cs Hwf Hnd Hf; [simpl; eexists; by destruct spec|].
  apply Forall_cons in Hwf as [Hw Hwf]. rewrite fmap_cons in Hnd. apply NoDup_cons in Hnd as [Hni Hnd].
  apply Forall_cons in Hf as [Hd Hf]. cbn [foldl].
  destruct (apply_fits cap spec u cs d Hd) as [u' ->].
  destruct (IH (set_reqs spec (effect (s_Requirements spec) d)) u' cs) as [u'' ->]; [done..| |].
  - simpl. rewrite Forall_forall in *. intros d' Hd'. apply fits_frame; [done| |by apply Hf].
    intros Heq. apply Hni. rewrite Heq. apply list_elem_of_fmap. eauto.
  - eexists. done.
Qed.

Lemma fold_effect_frame ds : forall rs name, Forall wf_delta ds -> name ∉ (d_Name <$> ds) ->
  first_req name (foldl effect rs ds) = first_req name rs.
Proof.
  induction ds as [|d ds IH]; intros rs name Hwf Hn; simpl; [done|].
  apply Forall_cons in Hwf as [Hw Hwf]. rewrite fmap_cons in Hn. apply not_elem_of_cons in Hn as [H1 H2].
  rewrite IH by done. by apply effect_frame.
Qed.

(** An added or modified requirement is in the merged spec as the delta has it. *)
Lemma fold_effect_kept ds : forall rs d, Forall wf_delta ds -> NoDup (d_Name <$> ds) -> Forall (fits rs) ds ->
  d ∈ ds -> d_Op d <> OpRemoved -> first_req (d_Name d) (foldl effect rs ds) = Some (merged_req d).
Proof.
  induction ds as [|e ds IH]; intros rs d Hwf Hnd Hf Hd Hop; [by apply not_elem_of_nil in Hd|].
  apply Forall_cons in Hwf as [Hw Hwf]. rewrite fmap_cons in Hnd. apply NoDup_cons in Hnd as [Hni Hnd].
  apply Forall_cons in Hf as [He Hf]. cbn [foldl]. apply elem_of_cons in Hd as [->|Hd].
  - rewrite fold_effect_frame by done. by apply effect_kept.
  - apply IH; try done. rewrite Forall_forall in *. intros d' Hd'. apply fits_frame; [done| |by apply Hf].
    intros Heq. apply Hni. rewrite Heq. apply list_elem_of_fmap. eauto.
Qed.
End apply.

(** ** A green check *)

Section green.
Context (ToLower Quote RawQuote spec_path : gostring -> gostring).
Context (specs : gmap gostring gostring).

#[local] Abbreviation check_delta := (check_delta ToLower Quote RawQuote specs).
#[local] Abbreviation check_op := (check_op ToLower Quote RawQuote specs).

Lemma check_delta_nil file touches seen out d seen' :
  check_delta file touches (seen, out) d = (seen', []) ->
  out = [] /\ check_op file d = [] /\ seen !! reqKey d = None /\ seen' = <[reqKey d := d_Line d]> seen.
Proof.
  unfold Merge.check_delta. intros H.
  destruct (_ || _); [by injection H as _ [_ H]%app_nil|].
  destruct (bool_decide (d_Name d = _)); [by injection H as _ [_ H]%app_nil|].
  destruct (slices_Contains _ _), (seen !! reqKey d) eqn:Hs; injection H as <- [H1 H2]%app_nil;
    by repeat (apply app_nil in H1 as [H1 ?]).
Qed.

Lemma check_delta_out file touches seen out d : exists seen' o, check_delta file touches (seen, out) d = (seen', out ++ o).
Proof.
  unfold Merge.check_delta.
  destruct (_ || _); [eauto|]. destruct (slices_Contains _ _), (bool_decide (d_Name d = _)), (seen !! reqKey d);
    rewrite <- ?app_assoc; eauto.
Qed.

Lemma check_fold_nil file touches ds : forall seen out,
  snd (foldl (check_delta file touches) (seen, out) ds) = [] ->
  out = [] /\ Forall (fun d => check_op file d = []) ds /\ NoDup (reqKey <$> ds) /\
  Forall (fun d => seen !! reqKey d = None) ds.
Proof.
  induction ds as [|d ds IH]; intros seen out H; cbn [foldl] in H; [repeat split; auto; constructor|].
  destruct (check_delta file touches (seen, out) d) as [seen' out'] eqn:E.
  apply IH in H as (-> & H1 & H2 & H3). apply check_delta_nil in E as (-> & Hop & Hs & ->).
  split_and!; [done|by constructor| |].
  - rewrite fmap_cons. constructor; [|done]. intros (d' & Heq & Hd')%list_elem_of_fmap.
    rewrite Forall_forall in H3. specialize (H3 d' Hd'). rewrite <- Heq in H3. by rewrite lookup_insert_eq in H3.
  - constructor; [done|]. eapply Forall_impl; [exact H3|]. intros d' Hd'. simpl in Hd'.
    by apply lookup_insert_None in Hd' as [? _].
Qed.

(** The requirements of a capability, none when it has no spec. *)
Definition cap_reqs (cap : gostring) : list Requirement :=
  match LoadSpec specs cap with Some s => s_Requirements s | None => [] end.

Lemma check_op_fits file d : check_op file d = [] -> fits Quote RawQuote (cap_reqs (d_Capability d)) d.
Proof.
  unfold Merge.check_op, fits, cap_reqs. destruct (d_Op d); intros H.
  - apply app_nil in H as [_ H]. apply app_nil in H as [H _].
    destruct (LoadSpec specs (d_Capability d)) as [s|]; [|done]. simpl in H. rewrite first_req_Find in H.
    by destruct (first_req (d_Name d) (s_Requirements s)).
  - apply app_nil in H as [H _]. destruct (LoadSpec specs (d_Capability d)) as [s|]; [|done].
    simpl in H. rewrite first_req_Find in H. destruct (first_req _ _) as [r|]; [|done].
    apply fmap_nil_inv in H. eauto.
  - apply app_nil in H as [H _]. destruct (LoadSpec specs (d_Capability d)) as [s|]; [|done].
    simpl in H. rewrite first_req_Find in H. by destruct (first_req _ _).
Qed.

Lemma cap_order_elem ds cap : cap ∈ cap_order ds <-> exists d, d ∈ ds /\ d_Capability d = cap.
Proof.
  unfold cap_order. rewrite sort_Strings_perm.
  assert (forall order, cap ∈ foldl (fun order d => if slices_Contains order (d_Capability d) then order
     else order ++ [d_Capability d]) order ds <-> cap ∈ order \/ exists d, d ∈ ds /\ d_Capability d = cap) as H.
  { induction ds as [|d ds IH]; intros order; simpl; [set_solver|]. rewrite IH.
    unfold slices_Contains. case_bool_decide; set_solver. }
  rewrite H. set_solver.
Qed.

Lemma deltas_of_elem ds cap d : d ∈ deltas_of ds cap <-> d ∈ ds /\ d_Capability d = cap.
Proof. unfold deltas_of. rewrite list_elem_of_In, List.filter_In, bool_decide_eq_true, <- list_elem_of_In. done. Qed.

Lemma deltas_of_names ds cap : NoDup (reqKey <$> ds) -> NoDup (d_Name <$> deltas_of ds cap).
Proof.
  induction ds as [|d ds IH]; [by constructor|]. rewrite fmap_cons. intros [Hn Hnd]%NoDup_cons.
  unfold deltas_of. simpl. case_bool_decide as Hc; [|by apply IH]. rewrite fmap_cons.
  constructor; [|by apply IH]. intros (d' & Hname & [Hd' Hcap]%deltas_of_elem)%list_elem_of_fmap.
  apply Hn. apply list_elem_of_fmap. exists d'. split; [|done]. unfold reqKey. congruence.
Qed.

(** A merge that leaves a capability empty is one the check saw emptied. *)
Lemma emptied_of_merge c cap ds :
  ds = deltas_of (c_Deltas c) cap -> ds <> [] -> Forall wf_delta ds -> NoDup (d_Name <$> ds) ->
  Forall (fits Quote RawQuote (cap_reqs cap)) ds -> foldl effect (cap_reqs cap) ds = [] ->
  LoadSpec specs cap <> None -> emptied specs c cap = true.
Proof.
  intros Hds Hne Hwf Hnd Hf Hnil Hload. unfold emptied. rewrite <- Hds.
  assert (Forall (fun d => d_Op d = OpRemoved) ds) as Hall.
  { apply Forall_forall. intros d Hd. destruct (decide (d_Op d = OpRemoved)) as [|Hop]; [done|].
    pose proof (fold_effect_kept _ _ ds _ d Hwf Hnd Hf Hd Hop) as H. by rewrite Hnil in H. }
  assert (List.filter (fun d => bool_decide (d_Op d = OpRemoved)) ds = ds) as ->.
  { clear -Hall. induction Hall as [|d ds Hd _ IH]; [done|]. simpl. rewrite bool_decide_true by done. by rewrite IH. }
  destruct ds as [|d0 ds0]; [done|]. set (ds := d0 :: ds0) in *.
  change (d_Name <$> ds) with (d_Name d0 :: (d_Name <$> ds0)). cbn match.
  change (d_Name d0 :: (d_Name <$> ds0)) with (d_Name <$> ds).
  apply andb_true_iff. split.
  { apply forallb_forall. intros d Hd%list_elem_of_In. rewrite Forall_forall in Hall. by apply bool_decide_eq_true, Hall. }
  unfold cap_reqs in *. destruct (LoadSpec specs cap) as [s|]; [|done].
  assert (s_Requirements s <> []) as Hrs.
  { intros Hrs. rewrite Hrs in Hf. apply Forall_inv in Hf. apply Forall_inv in Hall.
    unfold fits in Hf. by rewrite Hall in Hf. }
  assert (forallb (fun r => slices_Contains (d_Name <$> ds) (r_Name r)) (s_Requirements s) = true) as Hfor.
  { apply forallb_forall. intros r Hr%list_elem_of_In. apply bool_decide_eq_true.
    destruct (decide (r_Name r ∈ d_Name <$> ds)) as [|Hni]; [done|]. exfalso.
    pose proof (fold_effect_frame ds (s_Requirements s) (r_Name r) Hwf Hni) as H. rewrite Hnil in H.
    symmetry in H. unfold first_req in H. rewrite list_elem_of_In in Hr.
    apply (List.find_none _ _ H) in Hr. by rewrite bool_decide_true in Hr. }
  by destruct (s_Requirements s).
Qed.

Lemma checkRetire_emptied file c cap : checkRetire specs file c = [] -> cap ∈ cap_order (c_Deltas c) ->
  emptied specs c cap = true -> slices_Contains (m_Retire (c_Meta c)) cap = true.
Proof.
  unfold checkRetire, emptiedCapabilities. intros [H _]%app_nil Hcap He.
  destruct (slices_Contains _ cap) eqn:E; [done|]. exfalso.
  apply join_nil_1 in H. rewrite Forall_fmap, Forall_forall in H.
  assert (cap ∈ List.filter (emptied specs c) (cap_order (c_Deltas c))) as Hin.
  { apply list_elem_of_In, List.filter_In. by rewrite <- list_elem_of_In. }
  apply H in Hin. simpl in Hin. by rewrite E in Hin.
Qed.

(** C6: a delta the plan-time check passes merges: when checkDeltas finds nothing
    about a parsed change, MergeDelta on the same specs reports no conflict — so
    archive never meets, on an unmoved base, a conflict `ape change check` and
    start let through. *)
Theorem check_green_merges (Y : Yaml) (cfile file doc : gostring) (touches : list gostring) :
  let c := ParseChange Y cfile doc in
  checkDeltas ToLower Quote RawQuote specs file c touches = [] ->
  snd (MergeDelta ToLower Quote RawQuote spec_path specs c) = [].
Proof.
  intros c Hcheck. unfold checkDeltas in Hcheck. apply app_nil in Hcheck as [Hfold Hretire].
  apply check_fold_nil in Hfold as (_ & Hops & Hkeys & _).
  assert (Forall wf_delta (c_Deltas c)) as Hwf by apply ParseChange_wf.
  unfold MergeDelta. cut (mjoin (snd <$> (merge_cap ToLower Quote RawQuote spec_path specs c <$> cap_order (c_Deltas c))) = []).
  { by intros ->. }
  rewrite <- list_fmap_compose. apply join_nil_2, Forall_fmap, Forall_forall. intros cap Hcap.
  apply cap_order_elem in Hcap as Hcap'. destruct Hcap' as (d0 & Hd0 & Hc0). simpl. unfold merge_cap.
  set (ds := deltas_of (c_Deltas c) cap).
  assert (Forall wf_delta ds) as Hwfd.
  { rewrite Forall_forall in Hwf |- *. intros d [Hd _]%deltas_of_elem. auto. }
  assert (NoDup (d_Name <$> ds)) as Hnd by by apply deltas_of_names.
  assert (Forall (fits Quote RawQuote (cap_reqs cap)) ds) as Hfits.
  { rewrite Forall_forall in Hops |- *. intros d [Hd <-]%deltas_of_elem. eapply check_op_fits. by apply Hops. }
  assert (forall spec, s_Requirements spec = cap_reqs cap -> exists u,
    applyDeltas ToLower Quote RawQuote spec cap ds = (set_reqs spec (foldl effect (cap_reqs cap) ds), u, [])) as Happ.
  { intros spec Hspec. unfold applyDeltas. rewrite <- Hspec in *. by apply applyDeltas_fits. }
  destruct (LoadSpec specs cap) as [spec|] eqn:Hload.
  - destruct (Happ spec) as [u ->]; [by unfold cap_reqs; rewrite Hload|]. cbn [s_Requirements set_reqs snd].
    destruct (foldl effect (cap_reqs cap) ds) eqn:Hnil; [|done]. cbn [andb].
    rewrite (checkRetire_emptied file c cap Hretire); [done|done|].
    eapply emptied_of_merge; [done| |done..|by rewrite Hload].
    assert (d0 ∈ ds) as Hin by by apply deltas_of_elem. fold ds. intros Hds. clearbody ds. subst ds.
    by apply not_elem_of_nil in Hin.
  - destruct (Happ (MkSpec [] [] ("# " ++ titleFromSlug cap ++ [nl] ++ "Purpose: " ++ capabilityPurpose c cap) [] []))
      as [u ->]; [by unfold cap_reqs; rewrite Hload|]. cbn [s_Requirements set_reqs snd].
    by destruct (foldl effect (cap_reqs cap) ds).
Qed.
End green.

Lemma check_green_merges_witness :
  let id := fun s : gostring => s in
  let c := ParseChange sample_yaml "change.md" sample_change in
  checkDeltas id id id sample_specs "change.md" c [bs "greeting"] = [] /\
  snd (MergeDelta id id id id sample_specs c) = [] /\ length (fst (MergeDelta id id id id sample_specs c)) = 1.
Proof.
  intros id c.
  assert (checkDeltas id id id sample_specs "change.md" c [bs "greeting"] = []) as H by (vm_compute; reflexivity).
  split; [exact H|]. split; [|vm_compute; reflexivity].
  exact (check_green_merges id id id id sample_specs sample_yaml "change.md" "change.md" sample_change [bs "greeting"] H).
Defined.

(** ** Where the code departs from what it says *)

(** A fenced example, as the document scanner sees it: every line of it is fenced. *)
Definition fenced_example : gostring := "```
~~~
- check (live): make
```
".

(** The (live) line of the fenced example is rewritten, though fenced lines are said to
    be left: the rewrite takes the ~~~ line for the end of the fence. *)
Lemma rewrite_live_in_fence :
  (md_InCode <$> take 3 (splitLines fenced_example)) = [true; true; true] /\
  snd (rewriteLiveMarkdown fenced_example) = 1.
Proof. by vm_compute. Qed.
