(* ===== verification/Effective.v ===== *)
(** The checks a change runs, internal/apexv1/effective.go: the scenarios of the
    spec as it will be once the change is archived, and the ones verify runs. *)
From S2P Require Import Prelude Regex Markdown TestCounts Spec SpecValid Change Merge MergeFacts Samples.

Inductive CheckKind := KindTask | KindScenario | KindGate | KindRegression.
#[export] Instance CheckKind_eq_dec : EqDecision CheckKind.
Proof. solve_decision. Defined.

Record PlannedCheck := MkPlanned {
  pc_Ref : gostring; pc_Kind : CheckKind; pc_Capability : gostring; pc_Requirement : gostring;
  pc_Scenario : gostring; pc_Delta : bool; pc_Cmd : gostring; pc_Line : nat; pc_Full : bool }.

Definition scenarioRef (capName req scen : gostring) : gostring := capName ++ "/" ++ req ++ "/" ++ scen.

(** The check of one scenario, when it is a command. *)
Definition scenario_check (capName : gostring) (delta : bool) (r : Requirement) (s : Scenario) : option PlannedCheck :=
  let cmd := firstCheck s in
  if (cmd =s "") || (cmd =s HumanReview) then None
  else Some (MkPlanned (scenarioRef capName (r_Name r) (sc_Name s)) KindScenario capName (r_Name r) (sc_Name s)
               delta cmd (sc_Line s) (Full s)).

Definition scenarioChecks (capName : gostring) (reqs : list Requirement) (delta : bool) : list PlannedCheck :=
  reqs ≫= (fun r => omap (scenario_check capName delta r) (r_Scenarios r)).

Section effective.
(** The capabilities with a folder under specs/, sorted, and their documents. *)
Context (capabilities : list gostring) (specs : gmap gostring gostring).

(** Whether the deltas replace a requirement. *)
Definition replaced (ds : list Delta) (capName name : gostring) : bool :=
  existsb (fun d => negb (bool_decide (d_Op d = OpAdded)) && (d_Capability d =s capName) && (d_Name d =s name)) ds.

Definition kept_reqs (ds : list Delta) (capName : gostring) (rs : list Requirement) : list Requirement :=
  List.filter (fun r => negb (replaced ds capName (r_Name r))) rs.

(** byCap: the requirements the deltas write, by capability. *)
Definition delta_reqs (ds : list Delta) (capName : gostring) : list Requirement :=
  d_Req <$> List.filter (fun d => negb (bool_decide (d_Op d = OpRemoved)) && (d_Capability d =s capName)) ds.

(** The last loop: each capability of the delta once, at its first delta. *)
Fixpoint delta_checks (all : list Delta) (done : list gostring) (ds : list Delta) : list PlannedCheck :=
  match ds with
  | [] => []
  | d :: ds' =>
      let capName := d_Capability d in
      match delta_reqs all capName with
      | [] => delta_checks all done ds'
      | reqs =>
          if slices_Contains done capName then delta_checks all done ds'
          else scenarioChecks capName reqs true ++ delta_checks all (capName :: done) ds'
      end
  end.

(** [ds] is the change's delta; [] for the whole current spec (c nil). *)
Definition EffectiveSpecChecks (ds : list Delta) : list PlannedCheck :=
  (capabilities ≫= (fun capName =>
     match LoadSpec specs capName with
     | None => []
     | Some spec => scenarioChecks capName (kept_reqs ds capName (s_Requirements spec)) false
     end)) ++ delta_checks ds [] ds.

(** The scenario refs red at the newest gate run. *)
Context (redAtGate : list gostring).

Definition task_check (t : Task) : PlannedCheck :=
  MkPlanned (t_ID t) KindTask [] [] [] false (t_Check t) 0 (t_Full t).

(** What changeChecks does with one scenario: run it, or count it as a skipped
    full one, or leave it out. *)
Inductive verdict := RunIt | SkipFull | LeaveOut.

Definition scenario_verdict (touched taskCmds : list gostring) (pc : PlannedCheck) : verdict :=
  if negb (pc_Delta pc) && negb (slices_Contains touched (pc_Capability pc)) && negb (slices_Contains taskCmds (pc_Cmd pc))
  then LeaveOut
  else if pc_Full pc && negb (pc_Delta pc) && negb (slices_Contains taskCmds (pc_Cmd pc)) then
    if slices_Contains redAtGate (pc_Ref pc) then RunIt else SkipFull
  else RunIt.

Definition changeChecks (c : Change) : list PlannedCheck * nat :=
  let tasks := CommandTasks c in
  let taskCmds := t_Check <$> tasks in
  let touched := m_Touches (c_Meta c) in
  let specChecks := EffectiveSpecChecks (c_Deltas c) in
  ((task_check <$> tasks) ++
     List.filter (fun pc => match scenario_verdict touched taskCmds pc with RunIt => true | _ => false end) specChecks,
   length (List.filter (fun pc => match scenario_verdict touched taskCmds pc with SkipFull => true | _ => false end) specChecks)).

Definition ChangeChecks (c : Change) : list PlannedCheck := fst (changeChecks c).
End effective.

(** ** Running the checks *)

Record CheckResult := MkResult {
  cr_Task : gostring; cr_Kind : option CheckKind; cr_Capability : gostring; cr_Requirement : gostring;
  cr_Scenario : gostring; cr_Delta : bool; cr_Cmd : gostring; cr_Exit : Z; cr_Tail : list gostring;
  cr_Reason : gostring; cr_Detail : gostring; cr_PreExistingRed : bool; cr_Tries : nat; cr_Flaky : bool;
  cr_StrayFiles : list gostring; cr_Tests : option TestCounts; cr_Skip : gostring; cr_ShellNote : gostring; cr_Leftovers : list gostring }.

Definition exitInterrupted : Z := 130.

(** runWithRetries: [runs k] is the result of the k-th run of the command and the
    paths its cleanup undid, [cancelled k] whether the context is done after it;
    [left] is retries - try. *)
Fixpoint retry_loop (runs : nat -> CheckResult * list gostring) (cancelled : nat -> bool)
    (try left : nat) (strays : list gostring) : CheckResult :=
  let '(r, undone) := runs try in
  let strays := strays ++ undone in
  let stop :=
    let '(tries, flaky) := if Nat.ltb 0 try then (S try, Z.eqb (cr_Exit r) 0) else (cr_Tries r, cr_Flaky r) in
    MkResult (cr_Task r) (cr_Kind r) (cr_Capability r) (cr_Requirement r) (cr_Scenario r) (cr_Delta r) (cr_Cmd r)
      (cr_Exit r) (cr_Tail r) (cr_Reason r) (cr_Detail r) (cr_PreExistingRed r) tries flaky strays (cr_Tests r) (cr_Skip r) (cr_ShellNote r) (cr_Leftovers r) in
  match left with
  | 0 => stop
  | S left' =>
      if negb (Z.eqb (cr_Exit r) 0) && (cr_Reason r =s "") && negb (cancelled try)
      then retry_loop runs cancelled (S try) left' strays
      else stop
  end.

Definition runWithRetries (runs : nat -> CheckResult * list gostring) (cancelled : nat -> bool) (retries : nat) : CheckResult :=
  retry_loop runs cancelled 0 retries [].

(** The fields RunChecks sets on each check's copy of its command's result. *)
Definition stamp_result (pc : PlannedCheck) (r : CheckResult) : CheckResult :=
  MkResult (pc_Ref pc) (Some (pc_Kind pc)) (pc_Capability pc) (pc_Requirement pc) (pc_Scenario pc) (pc_Delta pc)
    (cr_Cmd r) (cr_Exit r) (cr_Tail r) (cr_Reason r) (cr_Detail r) (cr_PreExistingRed r) (cr_Tries r) (cr_Flaky r) (cr_StrayFiles r)
    (cr_Tests r) (cr_Skip r) (cr_ShellNote r) (cr_Leftovers r).

Definition interruptedResult (cmd : gostring) : CheckResult :=
  MkResult [] None [] [] [] false cmd exitInterrupted [bs "[ape] not run: interrupted"] [] [] false 0 false [] None [] [] [].

(** RunChecks: [exec pc] is what running the command of [pc] gives (unrun when a
    requirement of it is unmet, else runWithRetries), [interrupted i] whether the
    context is done when check i is reached, [done] the results by command; with
    the results come the commands run, in order. *)
Fixpoint run_checks (exec : PlannedCheck -> CheckResult) (interrupted : nat -> bool) (i : nat)
    (done : gmap gostring CheckResult) (checks : list PlannedCheck) : list CheckResult * list gostring :=
  match checks with
  | [] => ([], [])
  | pc :: checks' =>
      match done !! pc_Cmd pc with
      | Some r =>
          let '(out, ran) := run_checks exec interrupted (S i) done checks' in (stamp_result pc r :: out, ran)
      | None =>
          if interrupted i then
            let '(out, ran) := run_checks exec interrupted (S i) done checks' in
            (stamp_result pc (interruptedResult (pc_Cmd pc)) :: out, ran)
          else
            let r := exec pc in
            let '(out, ran) := run_checks exec interrupted (S i) (<[pc_Cmd pc := r]> done) checks' in
            (stamp_result pc r :: out, pc_Cmd pc :: ran)
      end
  end.

Definition RunChecks (exec : PlannedCheck -> CheckResult) (interrupted : nat -> bool) (checks : list PlannedCheck)
    : list CheckResult * list gostring :=
  run_checks exec interrupted 0 ∅ checks.

(** ** The merged requirements, as a multiset *)

Lemma effect_perm Quote RawQuote rs d :
  wf_delta d -> fits Quote RawQuote rs d -> NoDup (r_Name <$> rs) ->
  effect rs d ≡ₚ List.filter (fun r => r_Name r <>s d_Name d) rs ++
                 (if decide (d_Op d = OpRemoved) then [] else [merged_req d]).
Proof.
  intros Hwf Hf Hnd.
  assert (forall i r, rs !! i = Some r -> r_Name r = d_Name d ->
    List.filter (fun r => r_Name r <>s d_Name d) rs = delete i rs) as Hdel.
  { clear -Hnd. induction rs as [|q rs IH]; intros [|i] r Hi Hr; simplify_eq/=.
    - rewrite bool_decide_true by done. simpl. apply NoDup_cons in Hnd as [Hn _].
      apply List.forallb_filter_id, forallb_forall. intros p Hp%list_elem_of_In.
      apply negb_true_iff, bool_decide_eq_false. intros Hpq. apply Hn. rewrite Hr, <- Hpq.
      apply list_elem_of_fmap. eauto.
    - apply NoDup_cons in Hnd as [Hn Hnd]. rewrite bool_decide_false.
      + simpl. f_equal. by eapply IH.
      + intros Hq. apply Hn. rewrite Hq, <- Hr. apply list_elem_of_fmap. eexists; split; [done|].
        by eapply list_elem_of_lookup_2. }
  unfold fits, effect in *. destruct (d_Op d) eqn:Hop; simpl.
  - rewrite List.forallb_filter_id; [done|]. apply forallb_forall. intros r Hr.
    rewrite (List.find_none _ _ Hf r Hr). done.
  - destruct Hf as (r & Hr & _). destruct (req_index _ rs) as [i|] eqn:E.
    + apply req_index_Some in E as (q & _ & Hi & Hq). rewrite (Hdel i q) by done.
      rewrite insert_take_drop by by eapply lookup_lt_Some. rewrite delete_take_drop.
      rewrite <- app_assoc. apply Permutation_app_head. rewrite Permutation_app_comm. done.
    + apply req_index_None in E. congruence.
  - destruct (req_index _ rs) as [i|] eqn:E.
    + apply req_index_Some in E as (q & _ & Hi & Hq). rewrite (Hdel i q) by done. by rewrite app_nil_r.
    + by apply req_index_None in E.
Qed.

(** The requirements the deltas write, as the merge writes them. *)
Definition written (ds : list Delta) : list Requirement :=
  merged_req <$> List.filter (fun d => negb (bool_decide (d_Op d = OpRemoved))) ds.

Lemma filter_perm {A} (f : A -> bool) l l' : l ≡ₚ l' -> List.filter f l ≡ₚ List.filter f l'.
Proof.
  induction 1; simpl; repeat (match goal with |- context [if ?b then _ else _] => destruct b end);
    eauto using Permutation_skip, Permutation_swap, Permutation_trans.
Qed.

Lemma filter_filter {A} (f g : A -> bool) l : List.filter f (List.filter g l) = List.filter (fun x => g x && f x) l.
Proof. induction l as [|x l IH]; simpl; [done|]. destruct (g x); simpl; by rewrite IH. Qed.

Lemma effect_names rs d Quote RawQuote : wf_delta d -> fits Quote RawQuote rs d -> NoDup (r_Name <$> rs) ->
  NoDup (r_Name <$> effect rs d).
Proof.
  intros Hwf Hf Hnd. rewrite (effect_perm _ _ rs d Hwf Hf Hnd), fmap_app. apply NoDup_app. split_and!.
  - clear -Hnd. induction rs as [|r rs IH]; [done|]. rewrite fmap_cons in Hnd. apply NoDup_cons in Hnd as [Hn Hnd].
    cbn [List.filter]. case_bool_decide; cbn [negb]; [auto|]. rewrite fmap_cons. constructor; [|auto].
    intros (q & Hq & Hin)%list_elem_of_fmap. apply Hn. rewrite Hq. apply list_elem_of_fmap. exists q.
    split; [done|]. by apply list_elem_of_In, List.filter_In in Hin as [?%list_elem_of_In _].
  - intros x (q & -> & Hin%list_elem_of_In)%list_elem_of_fmap. apply List.filter_In in Hin as [_ Hq].
    apply negb_true_iff, bool_decide_eq_false in Hq. case_decide; [set_solver|].
    rewrite fmap_cons, fmap_nil, list_elem_of_singleton. simpl. unfold wf_delta in Hwf. congruence.
  - case_decide; [constructor|apply NoDup_singleton].
Qed.

(** The merge as a multiset: the requirements no delta names, and the ones the
    deltas write. *)
Lemma fold_effect_perm Quote RawQuote ds : forall rs,
  Forall wf_delta ds -> NoDup (d_Name <$> ds) -> Forall (fits Quote RawQuote rs) ds -> NoDup (r_Name <$> rs) ->
  foldl effect rs ds ≡ₚ
  List.filter (fun r => negb (slices_Contains (d_Name <$> ds) (r_Name r))) rs ++ written ds.
Proof.
  induction ds as [|d ds IH]; intros rs Hwf Hnd Hf Hrs.
  { simpl. rewrite app_nil_r, List.forallb_filter_id; [done|]. apply forallb_forall. by intros r _. }
  apply Forall_cons in Hwf as [Hw Hwf]. rewrite fmap_cons in Hnd. apply NoDup_cons in Hnd as [Hni Hnd].
  apply Forall_cons in Hf as [Hd Hf]. cbn [foldl]. rewrite IH; [|done|done| |by eapply effect_names].
  2:{ rewrite Forall_forall in *. intros d' Hd'. apply fits_frame; [done| |by apply Hf].
      intros Heq. apply Hni. rewrite Heq. apply list_elem_of_fmap. eauto. }
  rewrite (filter_perm _ _ _ (effect_perm _ _ rs d Hw Hd Hrs)), List.filter_app, filter_filter, <- app_assoc.
  f_equiv.
  - apply reflexive_eq, List.filter_ext. intros r. unfold slices_Contains. rewrite fmap_cons.
    rewrite <- negb_orb. f_equal. apply eq_true_iff_eq. rewrite orb_true_iff, !bool_decide_eq_true, elem_of_cons. done.
  - unfold written. simpl. case_decide as Hop; [by rewrite bool_decide_true|]. rewrite bool_decide_false by done.
    simpl. unfold slices_Contains. rewrite bool_decide_false; [done|]. simpl. by rewrite Hw.
Qed.

(** ** The effective spec is the merged spec *)

(** What identifies a scenario check: its ref, its place and its command. *)
Definition check_key (pc : PlannedCheck) : gostring * gostring * gostring * gostring * gostring :=
  (pc_Ref pc, pc_Capability pc, pc_Requirement pc, pc_Scenario pc, pc_Cmd pc).

Definition req_keys (cap : gostring) (rs : list Requirement) := check_key <$> scenarioChecks cap rs false.

Lemma scenarioChecks_app cap rs rs' b : scenarioChecks cap (rs ++ rs') b = scenarioChecks cap rs b ++ scenarioChecks cap rs' b.
Proof. unfold scenarioChecks. apply bind_app. Qed.

Lemma scenarioChecks_keys cap rs b : check_key <$> scenarioChecks cap rs b = req_keys cap rs.
Proof.
  unfold req_keys, scenarioChecks. induction rs as [|r rs IH]; [done|].
  rewrite !bind_cons, !fmap_app, IH. f_equal.
  induction (r_Scenarios r) as [|s ss IHs]; [done|]. simpl. unfold scenario_check.
  destruct (_ || _); [done|]. rewrite !fmap_cons. f_equal. done.
Qed.

Lemma req_keys_merged cap ds :
  req_keys cap (merged_req <$> ds) = req_keys cap (d_Req <$> ds).
Proof.
  unfold req_keys, scenarioChecks. induction ds as [|d ds IH]; [done|].
  rewrite !fmap_cons, !bind_cons, !fmap_app, IH. done.
Qed.

Lemma req_keys_perm cap rs rs' : rs ≡ₚ rs' -> req_keys cap rs ≡ₚ req_keys cap rs'.
Proof. intros H. unfold req_keys, scenarioChecks. by rewrite H. Qed.

Lemma scenarioChecks_cap cap rs b pc : pc ∈ scenarioChecks cap rs b -> pc_Capability pc = cap.
Proof.
  unfold scenarioChecks. rewrite list_elem_of_bind. intros (r & Hpc & _).
  apply list_elem_of_omap in Hpc as (s & _ & Hs). unfold scenario_check in Hs.
  destruct (_ || _); [done|]. by simplify_eq/=.
Qed.

Lemma filter_all {A} (f : A -> bool) l : (forall x, x ∈ l -> f x = true) -> List.filter f l = l.
Proof. intros H. apply List.forallb_filter_id, forallb_forall. intros x Hx%list_elem_of_In. auto. Qed.

Lemma filter_none {A} (f : A -> bool) l : (forall x, x ∈ l -> f x = false) -> List.filter f l = [].
Proof.
  intros H. induction l as [|x l IH]; [done|]. simpl. rewrite H by set_solver. apply IH. set_solver.
Qed.

Definition of_cap (cap : gostring) (pc : PlannedCheck) : bool := pc_Capability pc =s cap.

Lemma of_cap_checks cap cap' rs b :
  List.filter (of_cap cap) (scenarioChecks cap' rs b) = if decide (cap' = cap) then scenarioChecks cap rs b else [].
Proof.
  case_decide as E.
  - subst. apply filter_all. intros pc H%scenarioChecks_cap. by apply bool_decide_eq_true.
  - apply filter_none. intros pc H%scenarioChecks_cap. apply bool_decide_eq_false. congruence.
Qed.

(** The specs' part, one capability at a time. *)
Lemma of_cap_specs ds cap caps specs : NoDup caps -> (cap ∈ caps <-> specs !! cap <> None) ->
  List.filter (of_cap cap) (caps ≫= (fun capName =>
     match LoadSpec specs capName with
     | None => [] | Some spec => scenarioChecks capName (kept_reqs ds capName (s_Requirements spec)) false end)) =
  scenarioChecks cap (kept_reqs ds cap (cap_reqs specs cap)) false.
Proof.
  intros Hnd Hin. set (f := fun capName => _).
  assert (forall c, List.filter (of_cap cap) (f c) =
    if decide (c = cap) then scenarioChecks cap (kept_reqs ds cap (cap_reqs specs cap)) false else []) as Hf.
  { intros c. unfold f, cap_reqs. destruct (LoadSpec specs c) as [s|] eqn:E.
    - rewrite of_cap_checks. case_decide; [|done]. subst c. by rewrite E.
    - case_decide; [|done]. subst c. by rewrite E. }
  assert (forall cs, cap ∉ cs -> List.filter (of_cap cap) (cs ≫= f) = []) as Hnone.
  { intros cs Hcs. induction cs as [|d cs IH]; [done|]. rewrite bind_cons, List.filter_app, Hf.
    rewrite decide_False by set_solver. apply IH. set_solver. }
  destruct (decide (cap ∈ caps)) as [Hc|Hc].
  - clear Hin. induction Hnd as [|c caps Hn Hnd IH]; [by apply not_elem_of_nil in Hc|].
    rewrite bind_cons, List.filter_app, Hf. apply elem_of_cons in Hc as [->|Hc].
    + rewrite decide_True, Hnone by done. by rewrite app_nil_r.
    + rewrite decide_False by set_solver. simpl. auto.
  - assert (cap_reqs specs cap = []) as ->; [|by rewrite Hnone].
    unfold cap_reqs, LoadSpec. destruct (specs !! cap) eqn:E; [|done]. exfalso. apply Hc, Hin. congruence.
Qed.

(** The delta's part, one capability at a time. *)
Lemma of_cap_delta all cap : forall ds done,
  List.filter (of_cap cap) (delta_checks all done ds) =
  if bool_decide (cap ∈ done) || negb (bool_decide (cap ∈ d_Capability <$> ds)) then []
  else scenarioChecks cap (delta_reqs all cap) true.
Proof.
  induction ds as [|d ds IH]; intros done0; [simpl; by rewrite orb_true_r|]. cbn [delta_checks].
  rewrite fmap_cons. destruct (delta_reqs all (d_Capability d)) as [|r rs] eqn:E.
  - rewrite IH. clear IH. destruct (decide (d_Capability d = cap)) as [Heq|Hne].
    + rewrite Heq in E. rewrite E. by repeat case_bool_decide.
    + repeat case_bool_decide; set_solver.
  - unfold slices_Contains. destruct (bool_decide (d_Capability d ∈ done0)) eqn:Hd; [apply bool_decide_eq_true in Hd|apply bool_decide_eq_false in Hd].
    + rewrite IH. clear IH. repeat case_bool_decide; set_solver.
    + rewrite List.filter_app, of_cap_checks, IH. clear IH. destruct (decide (d_Capability d = cap)) as [Heq|Hne].
      * rewrite Heq in Hd, E |- *. rewrite E. rewrite (bool_decide_true (_ ∈ _ :: done0)) by set_solver.
        rewrite (bool_decide_false (_ ∈ done0)) by done. rewrite (bool_decide_true (_ ∈ _ :: _)) by set_solver.
        simpl. by rewrite app_nil_r.
      * repeat case_bool_decide; set_solver.
Qed.

Lemma of_cap_delta_all ds cap : List.filter (of_cap cap) (delta_checks ds [] ds) = scenarioChecks cap (delta_reqs ds cap) true.
Proof.
  rewrite of_cap_delta, bool_decide_false by set_solver. simpl. case_bool_decide as H; [done|]. simpl.
  assert (delta_reqs ds cap = []) as ->; [|done]. unfold delta_reqs. rewrite filter_none; [done|].
  intros d Hd. apply andb_false_iff. right. apply bool_decide_eq_false. intros Hc. apply H.
  apply list_elem_of_fmap. eauto.
Qed.

(** A requirement the specs hold is dropped exactly when a delta names it. *)
Lemma kept_reqs_named Quote RawQuote ds cap rs :
  Forall (fits Quote RawQuote rs) (deltas_of ds cap) ->
  kept_reqs ds cap rs = List.filter (fun r => negb (slices_Contains (d_Name <$> deltas_of ds cap) (r_Name r))) rs.
Proof.
  intros Hf. unfold kept_reqs. apply List.filter_ext_in. intros r Hr. f_equal. apply eq_true_iff_eq.
  unfold replaced, slices_Contains. rewrite existsb_exists, bool_decide_eq_true, list_elem_of_fmap. split.
  - intros (d & Hd%list_elem_of_In & [[_ Hc]%andb_prop Hn]%andb_prop). apply bool_decide_eq_true in Hc, Hn.
    exists d. split; [done|]. by apply deltas_of_elem.
  - intros (d & Hn & Hd). pose proof Hd as [Hin Hc]%deltas_of_elem. exists d. rewrite <- list_elem_of_In.
    split; [done|]. rewrite !andb_true_iff, negb_true_iff, bool_decide_eq_false, !bool_decide_eq_true.
    split_and!; [|done|done]. intros Hop. rewrite Forall_forall in Hf. specialize (Hf d Hd).
    unfold fits in Hf. rewrite Hop in Hf. apply (List.find_none _ _ Hf) in Hr.
    apply bool_decide_eq_false in Hr. done.
Qed.

Lemma written_keys ds cap : req_keys cap (delta_reqs ds cap) = req_keys cap (written (deltas_of ds cap)).
Proof.
  unfold written, delta_reqs, deltas_of. rewrite req_keys_merged, filter_filter. do 2 f_equal.
  apply List.filter_ext. intros d. apply andb_comm.
Qed.

Section merged.
Context (ToLower Quote RawQuote : gostring -> gostring) (specs : gmap gostring gostring).

End merged.


(** ** Each command runs once *)

(** The first check of a list with a command. *)
Definition first_of (cmd : gostring) (checks : list PlannedCheck) : option PlannedCheck :=
  List.find (fun q => pc_Cmd q =s cmd) checks.

Lemma first_of_cons cmd pc checks :
  first_of cmd (pc :: checks) = if decide (pc_Cmd pc = cmd) then Some pc else first_of cmd checks.
Proof. unfold first_of. simpl. case_decide; [by rewrite bool_decide_true|by rewrite bool_decide_false]. Qed.

Lemma run_checks_ran exec intr checks : forall i done,
  let '(out, ran) := run_checks exec intr i done checks in
  length out = length checks /\ NoDup ran /\
  (forall cmd, cmd ∈ ran -> cmd ∈ pc_Cmd <$> checks /\ done !! cmd = None).
Proof.
  induction checks as [|pc checks IH]; intros i done0; cbn [run_checks].
  { split_and!; [done|constructor|]. intros cmd H. by apply not_elem_of_nil in H. }
  destruct (done0 !! pc_Cmd pc) as [r|] eqn:E; [|destruct (intr i)].
  1-2: specialize (IH (S i) done0); destruct (run_checks _ _ _ _ _) as [out ran]; destruct IH as (H1 & H2 & H3);
    split_and!; [simpl; congruence|done|]; intros cmd Hc; destruct (H3 cmd Hc); split; [|done]; by apply elem_of_cons; right.
  specialize (IH (S i) (<[pc_Cmd pc := exec pc]> done0)). destruct (run_checks _ _ _ _ _) as [out ran].
  destruct IH as (H1 & H2 & H3). split_and!; [simpl; congruence| |].
  - constructor; [|done]. intros H%H3. rewrite lookup_insert_eq in H. by destruct H.
  - intros cmd [->|H]%elem_of_cons; [split; [by apply elem_of_cons; left|done]|].
    destruct (H3 _ H) as [H' [Hn _]%lookup_insert_None]. split; [by apply elem_of_cons; right|done].
Qed.

(** Without an interruption every check gets its command's one result: a recorded
    one, or that of the first check that has the command. *)
Lemma run_checks_results exec intr checks : forall i done,
  (forall j, i <= j -> intr j = false) ->
  let '(out, ran) := run_checks exec intr i done checks in
  (forall cmd, cmd ∈ pc_Cmd <$> checks -> done !! cmd = None -> cmd ∈ ran) /\
  Forall2 (fun pc r => exists r0, r = stamp_result pc r0 /\
    match done !! pc_Cmd pc with
    | Some d => r0 = d
    | None => exists pc0, first_of (pc_Cmd pc) checks = Some pc0 /\ r0 = exec pc0
    end) checks out.
Proof.
  induction checks as [|pc checks IH]; intros i done0 Hi; cbn [run_checks].
  { split; [|constructor]. intros cmd H. by apply not_elem_of_nil in H. }
  destruct (done0 !! pc_Cmd pc) as [r|] eqn:E; [|rewrite Hi by done].
  - specialize (IH (S i) done0). destruct (run_checks _ _ _ _ _) as [out ran]. destruct IH as [H1 H2]; [intros; apply Hi; lia|].
    split; [intros cmd [->|H]%elem_of_cons ?; [congruence|auto]|].
    constructor; [exists r; by rewrite E|]. eapply Forall2_impl; [exact H2|]. intros q rq (r0 & -> & Hq). exists r0. split; [done|].
    destruct (done0 !! pc_Cmd q) eqn:Eq; [done|]. rewrite first_of_cons, decide_False; [done|]. congruence.
  - specialize (IH (S i) (<[pc_Cmd pc := exec pc]> done0)). destruct (run_checks _ _ _ _ _) as [out ran].
    destruct IH as [H1 H2]; [intros; apply Hi; lia|]. split.
    + intros cmd [->|H]%elem_of_cons Hn; [by apply elem_of_cons; left|]. destruct (decide (cmd = pc_Cmd pc)) as [->|Hne].
      * by apply elem_of_cons; left.
      * apply elem_of_cons; right. apply H1; [done|]. by rewrite lookup_insert_ne.
    + constructor.
      * exists (exec pc). rewrite E, first_of_cons, decide_True by done. eauto.
      * eapply Forall2_impl; [exact H2|]. intros q rq (r0 & -> & Hq). exists r0. split; [done|]. rewrite first_of_cons.
        case_decide as Hc; [|by rewrite lookup_insert_ne in Hq].
        rewrite <- Hc, lookup_insert_eq in Hq. rewrite <- Hc, E. eauto.
Qed.

Lemma RunChecks_tasks exec intr checks : cr_Task <$> fst (RunChecks exec intr checks) = pc_Ref <$> checks.
Proof.
  unfold RunChecks. generalize 0 (∅ : gmap gostring CheckResult).
  induction checks as [|pc checks IH]; intros i done0; [done|]. cbn [run_checks].
  destruct (done0 !! pc_Cmd pc); [specialize (IH (S i) done0)|destruct (intr i); [specialize (IH (S i) done0)|specialize (IH (S i) (<[pc_Cmd pc := exec pc]> done0))]];
    destruct (run_checks _ _ _ _ _) as [out ran]; cbn [fst] in *; by rewrite !fmap_cons, IH.
Qed.

(** RunChecks runs each distinct command exactly once, in the order the checks
    first name it, gives one result per planned check in the plan's order, and
    every check the result of the first check that has its command. Interrupted
    or not, no command runs twice and none runs that no check names. *)
Theorem RunChecks_once (exec : PlannedCheck -> CheckResult) (interrupted : nat -> bool) (checks : list PlannedCheck) :
  let '(out, ran) := RunChecks exec interrupted checks in
  length out = length checks /\ NoDup ran /\ (forall cmd, cmd ∈ ran -> cmd ∈ pc_Cmd <$> checks) /\
  ((forall i, interrupted i = false) ->
     (forall cmd, cmd ∈ pc_Cmd <$> checks -> cmd ∈ ran) /\
     Forall2 (fun pc r => exists pc0, first_of (pc_Cmd pc) checks = Some pc0 /\ r = stamp_result pc (exec pc0)) checks out).
Proof.
  unfold RunChecks. pose proof (run_checks_ran exec interrupted checks 0 ∅) as H.
  pose proof (run_checks_results exec interrupted checks 0 ∅) as H'. destruct (run_checks _ _ _ _ _) as [out ran].
  destruct H as (H1 & H2 & H3). split_and!; [done|done|intros cmd Hc; by apply H3|]. intros Hi.
  destruct H' as [Ha Hb]; [by intros; apply Hi|]. split; [intros; apply Ha; [done|apply lookup_empty]|].
  eapply Forall2_impl; [exact Hb|]. intros pc r (r0 & -> & Hr). rewrite lookup_empty in Hr. destruct Hr as (pc0 & ? & ->). eauto.
Qed.

(** ** Retries *)

Lemma retry_loop_spec runs cancelled left : forall try strays,
  exists k, try <= k <= try + left /\
  (forall j, try <= j < k -> cr_Exit (fst (runs j)) <> 0%Z /\ cr_Reason (fst (runs j)) = [] /\ cancelled j = false) /\
  (k < try + left -> cr_Exit (fst (runs k)) = 0%Z \/ cr_Reason (fst (runs k)) <> [] \/ cancelled k = true) /\
  let r := retry_loop runs cancelled try left strays in
  cr_Exit r = cr_Exit (fst (runs k)) /\ cr_Reason r = cr_Reason (fst (runs k)) /\
  (0 < k -> cr_Tries r = S k /\ cr_Flaky r = Z.eqb (cr_Exit r) 0) /\
  (k = 0 -> cr_Flaky r = cr_Flaky (fst (runs k))) /\
  cr_StrayFiles r = strays ++ mjoin ((fun j => snd (runs j)) <$> seq try (S (k - try))).
Proof.
  induction left as [|left IH]; intros try strays; cbn [retry_loop].
  - destruct (runs try) as [r undone] eqn:E. exists try. rewrite Nat.sub_diag, E. split_and!; [lia|lia|lia|lia|..].
    all: cbn; rewrite ?E; cbn; destruct try; cbn; rewrite ?app_nil_r; first [done|lia].
  - destruct (runs try) as [r undone] eqn:E.
    destruct (negb (Z.eqb (cr_Exit r) 0) && (cr_Reason r =s "") && negb (cancelled try)) eqn:Hgo.
    + destruct (IH (S try) (strays ++ undone)) as (k & Hk & Hb & Ha & H1 & H2 & H3 & H3' & H4). exists k.
      rewrite !andb_true_iff, !negb_true_iff, Z.eqb_neq, bool_decide_eq_true in Hgo. destruct Hgo as [[Hx Hr] Hc].
      split_and!; [lia|lia| |intros; apply Ha; lia|done|done|done|intros; lia|].
      * intros j Hj. destruct (decide (j = try)) as [->|]; [by rewrite E|]. apply Hb. lia.
      * rewrite H4. replace (S (k - try)) with (S (S (k - S try))) by lia. change (seq try (S ?n)) with (try :: seq (S try) n). rewrite fmap_cons, E.
        change (mjoin (?a :: ?l)) with (a ++ mjoin l). by rewrite app_assoc.
    + exists try. rewrite Nat.sub_diag, E. rewrite !andb_false_iff, !negb_false_iff, Z.eqb_eq, bool_decide_eq_false in Hgo.
      split_and!; [lia|lia|lia|simpl; tauto|..].
      all: cbn; rewrite ?E; cbn; destruct try; cbn; rewrite ?app_nil_r; first [done|lia].
Qed.

(** RunWithRetries stops, after at most retries + 1 runs: it ends at the first
    run that is green, has a reason of its own (vacuous, unrun) or was cancelled,
    else at the last one allowed; every earlier run was a plain red. Its verdict is
    that run's; it is flaky exactly when it was green after a red, with the number
    of runs; and what every run left in the tree is reported. *)
Theorem runWithRetries_spec (runs : nat -> CheckResult * list gostring) (cancelled : nat -> bool) (retries : nat) :
  (forall k, cr_Flaky (fst (runs k)) = false) ->
  exists k, k <= retries /\
  (forall j, j < k -> cr_Exit (fst (runs j)) <> 0%Z /\ cr_Reason (fst (runs j)) = [] /\ cancelled j = false) /\
  (k < retries -> cr_Exit (fst (runs k)) = 0%Z \/ cr_Reason (fst (runs k)) <> [] \/ cancelled k = true) /\
  let r := runWithRetries runs cancelled retries in
  cr_Exit r = cr_Exit (fst (runs k)) /\ (cr_Flaky r = true <-> 0 < k /\ cr_Exit r = 0%Z) /\
  (0 < k -> cr_Tries r = S k) /\ cr_StrayFiles r = mjoin ((fun j => snd (runs j)) <$> seq 0 (S k)).
Proof.
  intros Hfl. destruct (retry_loop_spec runs cancelled retries 0 []) as (k & Hk & Hb & Ha & H1 & _ & H3 & H4 & H5).
  exists k. rewrite Nat.sub_0_r in H5. cbv zeta. split_and!; [lia|intros; apply Hb; lia|exact Ha|exact H1| |intros; by apply H3|exact H5].
  unfold runWithRetries. destruct (decide (0 < k)) as [Hp|Hp].
  - destruct (H3 Hp) as [_ ->]. rewrite Z.eqb_eq. tauto.
  - replace k with 0 in * by lia. rewrite H4, Hfl by done. split; [done|lia].
Qed.

Lemma runWithRetries_spec_witness :
  let r := fun exit => MkResult [] None [] [] [] false "make test" exit [] [] [] false 0 false [] None [] [] [] in
  let runs := fun k => if Nat.eqb k 0 then (r 1%Z, [bs "out.txt"]) else (r 0%Z, []) in
  cr_Flaky (runWithRetries runs (fun _ => false) 2) = true /\
  exists k, k <= 2 /\ cr_Exit (runWithRetries runs (fun _ => false) 2) = cr_Exit (fst (runs k)).
Proof.
  intros r runs. split; [vm_compute; reflexivity|].
  assert (forall k, cr_Flaky (fst (runs k)) = false) as H by (intros [|k]; reflexivity).
  destruct (runWithRetries_spec runs (fun _ => false) 2 H) as (k & Hk & _ & _ & He & _). exists k. split; [exact Hk|exact He].
Defined.

(** ** What a verify owes *)

Section owed.
Context (capabilities : list gostring) (specs : gmap gostring gostring) (redAtGate : list gostring) (c : Change).

(** A command task of the change, by its command. *)
Definition task_command (cmd : gostring) : Prop :=
  exists t, t ∈ c_Tasks c /\ t_Check t = cmd /\ t_Check t <> [] /\ t_Check t <> HumanReview.

(** [owed ref cmd]: what the documents say the change is to be checked by. Its own
    command tasks; every command scenario of a requirement it adds or modifies; and
    every command scenario of a requirement the specs hold and it neither modifies nor
    removes, of a capability it touches or with the command of one of its tasks, a
    `full` one only when it was red at the newest gate run or is a task's command. *)
Inductive owed : gostring -> gostring -> Prop :=
| owed_task t : t ∈ c_Tasks c -> t_Check t <> [] -> t_Check t <> HumanReview -> owed (t_ID t) (t_Check t)
| owed_written d s : d ∈ c_Deltas c -> d_Op d <> OpRemoved -> s ∈ r_Scenarios (d_Req d) ->
    firstCheck s <> [] -> firstCheck s <> HumanReview ->
    owed (scenarioRef (d_Capability d) (r_Name (d_Req d)) (sc_Name s)) (firstCheck s)
| owed_kept cap doc r s : cap ∈ capabilities -> specs !! cap = Some doc -> r ∈ s_Requirements (ParseSpec doc) ->
    (forall d, d ∈ c_Deltas c -> d_Capability d = cap -> d_Name d = r_Name r -> d_Op d = OpAdded) ->
    s ∈ r_Scenarios r -> firstCheck s <> [] -> firstCheck s <> HumanReview ->
    cap ∈ m_Touches (c_Meta c) \/ task_command (firstCheck s) ->
    Full s = false \/ scenarioRef cap (r_Name r) (sc_Name s) ∈ redAtGate \/ task_command (firstCheck s) ->
    owed (scenarioRef cap (r_Name r) (sc_Name s)) (firstCheck s).

Lemma scenario_planned cap delta rs r s : r ∈ rs -> s ∈ r_Scenarios r -> firstCheck s <> [] -> firstCheck s <> HumanReview ->
  MkPlanned (scenarioRef cap (r_Name r) (sc_Name s)) KindScenario cap (r_Name r) (sc_Name s) delta (firstCheck s) (sc_Line s) (Full s)
    ∈ scenarioChecks cap rs delta.
Proof.
  intros Hr Hs He Hh. apply list_elem_of_bind. exists r. split; [|done]. apply list_elem_of_omap. exists s. split; [done|].
  unfold scenario_check. by rewrite !bool_decide_false.
Qed.

Lemma task_command_elem cmd : task_command cmd -> slices_Contains (t_Check <$> CommandTasks c) cmd = true.
Proof.
  intros (t & Ht & <- & He & Hh). apply bool_decide_eq_true, list_elem_of_fmap. exists t. split; [done|].
  apply list_elem_of_In, List.filter_In. rewrite <- list_elem_of_In. split; [done|]. unfold Human. by rewrite !bool_decide_false.
Qed.

(** Everything owed is planned, with its own command. *)
Lemma owed_planned ref cmd : owed ref cmd ->
  exists pc, pc ∈ ChangeChecks capabilities specs redAtGate c /\ pc_Ref pc = ref /\ pc_Cmd pc = cmd.
Proof.
  unfold ChangeChecks, changeChecks. cbn [fst].
  destruct 1 as [t Ht He Hh|d s Hd Hop Hs He Hh|cap doc r s Hcap Hdoc Hr Hkept Hs He Hh Htouch Hfull].
  - exists (task_check t). split; [|done]. apply elem_of_app. left. apply list_elem_of_fmap. exists t. split; [done|].
    apply list_elem_of_In, List.filter_In. rewrite <- list_elem_of_In. split; [done|]. unfold Human. by rewrite !bool_decide_false.
  - exists (MkPlanned (scenarioRef (d_Capability d) (r_Name (d_Req d)) (sc_Name s)) KindScenario (d_Capability d) (r_Name (d_Req d)) (sc_Name s)
              true (firstCheck s) (sc_Line s) (Full s)).
    split; [|done]. apply elem_of_app; right; apply list_elem_of_In, List.filter_In; split;
      [apply list_elem_of_In, elem_of_app; right|].
    + assert (forall pc, pc ∈ scenarioChecks (d_Capability d) (delta_reqs (c_Deltas c) (d_Capability d)) true ->
        pc ∈ delta_checks (c_Deltas c) [] (c_Deltas c)) as Hin.
      { intros pc Hpc. rewrite <- of_cap_delta_all in Hpc. by apply list_elem_of_In, List.filter_In in Hpc as [?%list_elem_of_In _]. }
      apply Hin, scenario_planned; try done. apply list_elem_of_fmap. exists d. split; [done|].
      apply list_elem_of_In, List.filter_In. rewrite <- list_elem_of_In. split; [done|]. by rewrite bool_decide_false, bool_decide_true.
    + unfold scenario_verdict. cbn. by rewrite andb_false_r.
  - exists (MkPlanned (scenarioRef cap (r_Name r) (sc_Name s)) KindScenario cap (r_Name r) (sc_Name s) false (firstCheck s) (sc_Line s) (Full s)).
    split; [|done]. apply elem_of_app; right; apply list_elem_of_In, List.filter_In; split;
      [apply list_elem_of_In, elem_of_app; left|].
    + apply list_elem_of_bind. exists cap. split; [|done]. unfold LoadSpec. rewrite Hdoc. cbn [fmap option_fmap option_map].
      apply scenario_planned; try done. apply list_elem_of_In, List.filter_In. rewrite <- list_elem_of_In. split; [done|].
      apply negb_true_iff, not_true_iff_false. unfold replaced. intros (d & Hd%list_elem_of_In & Hx)%existsb_exists.
      apply andb_prop in Hx as [[Hx Hc]%andb_prop Hn]. apply bool_decide_eq_true in Hc, Hn. apply negb_true_iff, bool_decide_eq_false in Hx.
      by apply Hx, Hkept.
    + unfold scenario_verdict. cbn [pc_Delta pc_Capability pc_Cmd pc_Full pc_Ref negb andb].
      assert (negb (slices_Contains (m_Touches (c_Meta c)) cap) && negb (slices_Contains (t_Check <$> CommandTasks c) (firstCheck s)) = false) as ->.
      { destruct Htouch as [Ht|Ht]; [by unfold slices_Contains; rewrite bool_decide_true|]. rewrite (task_command_elem _ Ht). by rewrite andb_false_r. }
      destruct Hfull as [-> |[Hg|Ht]]; [done| |by rewrite (task_command_elem _ Ht), andb_false_r].
      unfold slices_Contains at 2. rewrite (bool_decide_true (_ ∈ redAtGate)) by done. by destruct (_ && _).
Qed.
End owed.

(** Every result is of its own check's command: run, or interrupted before it was. *)
Lemma run_checks_from exec intr checks : forall i done,
  (forall cmd r, done !! cmd = Some r -> exists pc0, pc_Cmd pc0 = cmd /\ r = exec pc0) ->
  Forall2 (fun pc r => r = stamp_result pc (interruptedResult (pc_Cmd pc)) \/
                       exists pc0, pc_Cmd pc0 = pc_Cmd pc /\ r = stamp_result pc (exec pc0))
    checks (fst (run_checks exec intr i done checks)).
Proof.
  induction checks as [|pc checks IH]; intros i done0 Hd; cbn [run_checks]; [constructor|].
  destruct (done0 !! pc_Cmd pc) as [r|] eqn:E; [|destruct (intr i)].
  - specialize (IH (S i) done0 Hd). destruct (run_checks _ _ _ _ _) as [out ran]. constructor; [|done]. right.
    destruct (Hd _ _ E) as (pc0 & ? & ->). eauto.
  - specialize (IH (S i) done0 Hd). destruct (run_checks _ _ _ _ _) as [out ran]. constructor; [by left|done].
  - assert (forall cmd r, <[pc_Cmd pc := exec pc]> done0 !! cmd = Some r -> exists pc0, pc_Cmd pc0 = cmd /\ r = exec pc0) as Hd'.
    { intros cmd r. rewrite lookup_insert_Some. intros [[<- <-]|[_ ?]]; eauto. }
    specialize (IH (S i) _ Hd'). destruct (run_checks _ _ _ _ _) as [out ran]. constructor; [right; eauto|done].
Qed.
