(* ===== verification/Regression.v ===== *)
(** The regression command, internal/apexv1/regression.go and testnames.go: the
    failing tests a run names, and the verdict on a run against its baseline. *)
From S2P Require Import Prelude Regex Markdown TestCounts Change Effective.

(** ** The failing tests an output names (testnames.go) *)

Definition goTestFailRe : re :=
  cats [ Bol; Star (Cls c_space); lit "--- FAIL: "; Grp 1 (Plus (Cls (cnot c_space))) ].
Definition gotestsumFailRe : re :=
  cats [ Bol; lit "=== FAIL: "; Grp 1 (cats [ Plus (Cls (cnot c_space)); lit " "; Plus (Cls (cnot c_space)) ]) ].

(** A package, and [ [build failed]] after it. *)
Definition pkg_failed : re :=
  Grp 1 (Cat (Plus (Cls (cnot c_space)))
             (Opt (cats [ Plus (Cls c_space); lit "["; Plus (Cls (cor c_lower (one " "))); lit " failed]" ]))).

Definition packageFailRe : re :=
  cats [ Bol; Star (Cls c_space); Cls (isrune 10006); Plus (Cls c_space); pkg_failed;
         Opt (cats [ Plus (Cls c_space); lit "("; Star (Cls (cnot (cor (one "(") (one ")")))); lit ")" ]);
         Star (Cls c_space); Eol ].
Definition failPkgRe : re := cats [ Bol; lit "FAIL"; Plus (Cls c_space); pkg_failed ].
Definition pytestFailRe : re :=
  cats [ Bol; Alt (lit "FAILED") (lit "ERROR"); lit " "; Grp 1 (Plus (Cls (cnot c_space))) ].
Definition cargoFailRe : re :=
  cats [ Bol; lit "test "; Grp 1 (Plus (Cls (cnot c_space))); lit " ... FAILED"; Star (Cls c_space); Eol ].
Definition jestFailRe : re :=
  cats [ Bol; Star (Cls c_space); Cls (cor (isrune 10005) (isrune 215)); lit " ";
         Grp 1 (Cat (Cls c_dot) (Lazy (Cls c_dot)));
         Opt (cats [ Plus (Cls c_space); lit "("; Plus (Cls c_digit); Opt (Cat (lit ".") (Plus (Cls c_digit)));
                     Star (Cls c_space); Opt (lit "m"); lit "s)" ]);
         Star (Cls c_space); Eol ].
Definition flutterFailRe : re :=
  cats [ Bol; Plus (Cls c_digit); lit ":"; Plus (Cls c_digit); lit " +"; Plus (Cls c_digit);
         Opt (Cat (lit " ~") (Plus (Cls c_digit))); lit " -"; Plus (Cls c_digit); lit ": ";
         Grp 1 (Plus (Cls c_dot)); lit " [E]"; Eol ].

(** failNameRes; goTestFailRe, its first, is left out of a gotestsum output. *)
Definition failNameRes (gotestsum : bool) : list re :=
  (if gotestsum then [] else [goTestFailRe]) ++
  [ gotestsumFailRe; packageFailRe; failPkgRe; pytestFailRe; cargoFailRe; jestFailRe; flutterFailRe ].

(** The name the first matching runner's pattern reads on a line. *)
Fixpoint line_name (res : list re) (l : gostring) : option gostring :=
  match res with
  | [] => None
  | r :: res' => match FindSubmatchIndex r l with
                 | Some m => Some (TrimSpace (group l m 1))
                 | None => line_name res' l
                 end
  end.

Definition add_name (names : list gostring) (n : option gostring) : list gostring :=
  match n with
  | Some n => if (n <>s "") && negb (slices_Contains names n) then names ++ [n] else names
  | None => names
  end.

Definition failingTests (out : gostring) : list gostring :=
  let out := ReplaceAllRe ansiRe out (fun _ => []) in
  let lines := split_byte nl out in
  let gotestsum := existsb (MatchString gotestsumFailRe) lines in
  foldl (fun names l => add_name names (line_name (failNameRes gotestsum) (TrimRight l [[x0d]]))) [] lines.

Definition namesNotIn (now before : list gostring) : list gostring :=
  List.filter (fun n => negb (slices_Contains before n)) now.

(** ** The verdict (regression.go) *)

Definition ReasonUnrun : gostring := "unrun".
Definition regressionFailingCap : nat := 500.
Definition regressionNewFailuresShown : nat := 50.
Definition regressionPathsShown : nat := 50.
Definition RegressionSkippedDocsOnly : gostring := "docs-only".

Record RegressionBaseline := MkRegBase {
  rb_Cmd : gostring; rb_Exit : Z; rb_SHA : gostring; rb_At : gostring; rb_Failing : list gostring }.

Record RegressionVerdict := MkVerdict {
  rv_Cmd : gostring; rv_Exit : Z; rv_BaselineExit : option Z; rv_BaselineSHA : gostring;
  rv_PreExistingRed : bool; rv_Failed : bool; rv_NewFailures : list gostring; rv_NewFailuresTotal : nat;
  rv_Reason : gostring; rv_Detail : gostring; rv_Skipped : gostring; rv_Paths : list gostring; rv_PathsTotal : nat }.

(** The baseline of this very command. *)
Definition base_for (cmd : gostring) (base : option RegressionBaseline) : option RegressionBaseline :=
  match base with Some b => if rb_Cmd b =s cmd then Some b else None | None => None end.

Definition skippedRegression (cmd : gostring) (base : option RegressionBaseline) (paths : list gostring) : RegressionVerdict :=
  let b := base_for cmd base in
  MkVerdict cmd 0 (rb_Exit <$> b) (match b with Some b => rb_SHA b | None => [] end) false false [] 0 [] []
    RegressionSkippedDocsOnly (take regressionPathsShown paths) (length paths).

(** RegressionVerdict.skip *)
Definition verdict_skip (v : option RegressionVerdict) : option RegressionVerdict :=
  match v with Some v => if rv_Skipped v =s "" then None else Some v | None => None end.

(** A result marked pre-existing red, or not. *)
Definition mark_red (b : bool) (r : CheckResult) : CheckResult :=
  MkResult (cr_Task r) (cr_Kind r) (cr_Capability r) (cr_Requirement r) (cr_Scenario r) (cr_Delta r) (cr_Cmd r)
    (cr_Exit r) (cr_Tail r) (cr_Reason r) (cr_Detail r) b (cr_Tries r) (cr_Flaky r) (cr_StrayFiles r) (cr_Tests r) (cr_Skip r) (cr_ShellNote r) (cr_Leftovers r).

(** The new failing tests, and whether the red was there before. *)
Definition judge_red (r : CheckResult) (b : option RegressionBaseline) (out : gostring) : list gostring * bool :=
  if cr_Reason r =s ReasonUnrun then ([], false)
  else
    let now := failingTests out in
    match b with
    | None => ([], false)
    | Some b =>
        if Z.eqb (rb_Exit b) 0 then (now, false)
        else match now, rb_Failing b with
             | _ :: _, _ :: _ =>
                 let fresh := namesNotIn now (rb_Failing b) in (fresh, bool_decide (fresh = []))
             | _, _ => ([], true)
             end
    end.

(** The verdict, and the result as marked. *)
Definition judgeRegression (r : CheckResult) (base : option RegressionBaseline) (out : gostring)
    : RegressionVerdict * CheckResult :=
  let b := base_for (cr_Cmd r) base in
  let '(fresh, pre) := if Z.eqb (cr_Exit r) 0 then ([], false) else judge_red r b out in
  (MkVerdict (cr_Cmd r) (cr_Exit r) (rb_Exit <$> b) (match b with Some b => rb_SHA b | None => [] end) pre
     (negb (Z.eqb (cr_Exit r) 0) && negb pre) (take regressionNewFailuresShown fresh) (length fresh)
     (cr_Reason r) (cr_Detail r) [] [] 0,
   mark_red pre r).

(** CheckResult.Red *)
Definition Red (r : CheckResult) : bool := negb (Z.eqb (cr_Exit r) 0) && negb (cr_PreExistingRed r).

(** A run recorded as a baseline at [sha]. *)
Definition regressionBaseline (r : CheckResult) (sha at_ out : gostring) : RegressionBaseline :=
  let names := failingTests out in
  MkRegBase (cr_Cmd r) (cr_Exit r) sha at_
    (if negb (Z.eqb (cr_Exit r) 0) && (cr_Reason r <>s ReasonUnrun) && Nat.leb (length names) regressionFailingCap
     then names else []).

(** regressionStale *)
Definition regressionStale (cmd : gostring) (base : option RegressionBaseline) : bool :=
  (cmd <>s "") && match base with Some b => rb_Cmd b <>s cmd | None => true end.

(** The baselines a milestone's changes recorded: per change its id, milestone and
    its two baselines, in the order they are read. *)
Record change_baselines := MkCB {
  cb_ID : gostring; cb_Milestone : gostring; cb_Regression : option RegressionBaseline;
  cb_MilestoneRegression : option RegressionBaseline }.

Definition str_lt (s t : gostring) : bool := str_leb s t && negb (str_leb t s).

Definition earlier (id : gostring) (b : RegressionBaseline) (best : gostring * RegressionBaseline) : bool :=
  str_lt (rb_At b) (rb_At (snd best)) || ((rb_At b =s rb_At (snd best)) && str_lt id (fst best)).

Definition consider (cmd id : gostring) (best : option (gostring * RegressionBaseline)) (b : option RegressionBaseline)
    : option (gostring * RegressionBaseline) :=
  match b with
  | None => best
  | Some b =>
      if rb_Cmd b =s cmd then
        match best with
        | None => Some (id, b)
        | Some q => if earlier id b q then Some (id, b) else best
        end
      else best
  end.

Definition milestoneRegressionBaseline (changes : list change_baselines) (milestone cmd : gostring)
    : option (gostring * RegressionBaseline) :=
  foldl (fun best c => if cb_Milestone c =s milestone
                       then consider cmd (cb_ID c) (consider cmd (cb_ID c) best (cb_Regression c)) (cb_MilestoneRegression c)
                       else best) None changes.

(** ** The failing tests are named once each *)

Lemma failingTests_NoDup out : NoDup (failingTests out) /\ Forall (fun n => n <> []) (failingTests out).
Proof.
  unfold failingTests. set (res := failNameRes _). clearbody res. generalize (split_byte nl (ReplaceAllRe ansiRe out (fun _ => []))).
  intros lines. assert (forall names, NoDup names -> Forall (fun n => n <> []) names ->
    let out := foldl (fun names l => add_name names (line_name res (TrimRight l [[x0d]]))) names lines in
    NoDup out /\ Forall (fun n => n <> []) out) as H; [|by apply H; constructor].
  induction lines as [|l lines IH]; intros names Hnd Hne; [done|]. cbn [foldl]. apply IH.
  all: unfold add_name; destruct (line_name _ _) as [n|]; [|done]; destruct (n <>s "") eqn:En; [|done];
    unfold slices_Contains; destruct (bool_decide (n ∈ names)) eqn:E; simpl; [done|].
  - apply bool_decide_eq_false in E. apply NoDup_app. split_and!; [done| |apply NoDup_singleton].
    intros x Hx Hx'%list_elem_of_singleton. congruence.
  - apply negb_true_iff, bool_decide_eq_false in En. apply Forall_app. split; [done|]. by constructor.
Qed.

Lemma namesNotIn_nil now before : namesNotIn now before = [] <-> forall n, n ∈ now -> n ∈ before.
Proof.
  unfold namesNotIn. induction now as [|n now IH]; simpl.
  - split; [intros _ n H; by apply not_elem_of_nil in H|done].
  - unfold slices_Contains. case_bool_decide as Hn; simpl.
    + rewrite IH. setoid_rewrite elem_of_cons. naive_solver.
    + split; [done|]. intros H. exfalso. apply Hn, H. by apply elem_of_cons; left.
Qed.

(** ** The verdict *)

(** When a red run's red was there before the work: the same command was red at
    the baseline, the run did run, and — when both sides name their failing
    tests — none fails now that did not fail then. *)
Definition red_before (r : CheckResult) (base : option RegressionBaseline) (out : gostring) : Prop :=
  cr_Reason r <> ReasonUnrun /\
  exists b, base = Some b /\ rb_Cmd b = cr_Cmd r /\ rb_Exit b <> 0%Z /\
    (failingTests out = [] \/ rb_Failing b = [] \/ forall n, n ∈ failingTests out -> n ∈ rb_Failing b).

(** The regression verdict fails a change exactly for a red of its own: it is
    Failed when the command is red and the red was not there at the baseline
    (red_before), and the result it marks counts as red (Red) in just that case,
    so a change is never failed for a suite that was already red, and a new
    failure hidden behind an already red suite is one. The new failures listed
    are failing now, failed neither at the baseline, and are at most 50. *)
Theorem judgeRegression_spec (r : CheckResult) (base : option RegressionBaseline) (out : gostring) :
  let '(v, r') := judgeRegression r base out in
  (rv_Failed v = true <-> cr_Exit r <> 0%Z /\ ~ red_before r base out) /\
  Red r' = rv_Failed v /\
  (rv_PreExistingRed v = true <-> cr_Exit r <> 0%Z /\ red_before r base out) /\
  length (rv_NewFailures v) <= regressionNewFailuresShown /\ length (rv_NewFailures v) <= rv_NewFailuresTotal v /\
  (forall n, n ∈ rv_NewFailures v -> n ∈ failingTests out /\ rv_Failed v = true /\
     forall b, base = Some b -> rb_Cmd b = cr_Cmd r -> rb_Exit b <> 0%Z -> n ∉ rb_Failing b).
Proof.
  unfold judgeRegression. destruct (Z.eqb_spec (cr_Exit r) 0) as [Hx|Hx].
  { simpl. unfold Red. simpl. rewrite Hx. simpl. split_and!; try done; try lia; try (split; [done|tauto]).
    intros n Hn. by apply not_elem_of_nil in Hn. }
  destruct (judge_red r (base_for (cr_Cmd r) base) out) as [fresh pre] eqn:E.
  assert ((pre = true <-> red_before r base out) /\ (pre = true -> fresh = []) /\
    (forall n, n ∈ fresh -> n ∈ failingTests out /\
       forall b, base = Some b -> rb_Cmd b = cr_Cmd r -> rb_Exit b <> 0%Z -> n ∉ rb_Failing b)) as (Hpre & Hnil & Hf).
  { unfold judge_red in E. unfold red_before. case_bool_decide as Hr.
    { simplify_eq. split_and!; [split; [done|tauto]|done|]. intros n Hn. by apply not_elem_of_nil in Hn. }
    unfold base_for in E. destruct base as [b|].
    2:{ simplify_eq. split_and!; [split; [done|naive_solver]|done|]. intros n Hn. by apply not_elem_of_nil in Hn. }
    case_bool_decide as Hc.
    2:{ simplify_eq. split_and!; [split; [done|naive_solver]|done|]. intros n Hn. by apply not_elem_of_nil in Hn. }
    destruct (Z.eqb_spec (rb_Exit b) 0) as [H0|H0].
    { simplify_eq. split_and!; [split; [done|naive_solver]|done|]. intros n Hn. split; [done|]. intros b' [= <-]. done. }
    destruct (failingTests out) as [|t ts] eqn:Ef.
    { simplify_eq. split_and!; [split; [naive_solver|done]|done|]. intros n Hn. by apply not_elem_of_nil in Hn. }
    destruct (rb_Failing b) as [|f fs] eqn:Eb.
    { simplify_eq. split_and!; [split; [naive_solver|done]|done|]. intros n Hn. by apply not_elem_of_nil in Hn. }
    rewrite <- Ef, <- Eb in *. simplify_eq. rewrite bool_decide_eq_true, namesNotIn_nil. split_and!.
    - split; [intros H; split; [done|]; exists b; naive_solver|].
      intros (_ & b' & [= <-] & _ & _ & [?|[?|?]]); [congruence..|done].
    - tauto.
    - intros n [Hn Hb]%list_elem_of_In%List.filter_In. rewrite <- list_elem_of_In in Hn. split; [done|].
      intros b' [= <-] _ _. by apply negb_true_iff, bool_decide_eq_false in Hb. }
  cbn [rv_Failed rv_PreExistingRed rv_NewFailures rv_NewFailuresTotal]. unfold Red. cbn [mark_red cr_Exit cr_PreExistingRed].
  rewrite (proj2 (Z.eqb_neq _ _) Hx). cbn [negb andb]. split_and!.
  - rewrite negb_true_iff, <- Hpre. destruct pre; naive_solver.
  - done.
  - rewrite Hpre. tauto.
  - rewrite length_take. lia.
  - rewrite length_take. lia.
  - intros n Hn%elem_of_take. destruct Hn as (i & Hi & _). apply list_elem_of_lookup_2 in Hi. destruct (Hf n Hi) as [H1 H2].
    split_and!; [done| |done]. destruct pre; [|done]. rewrite Hnil in Hi by done. by apply not_elem_of_nil in Hi.
Qed.
