(* ===== verification/Runner.v ===== *)
(** Running one check: internal/apexv1/runner.go, vacuous.go and shellnote.go, from the
    exit of its shell and its output to the result recorded. The processes themselves
    (their start, their group, their ports and leftovers) are what [Ran] reports. *)
From S2P Require Import Prelude Regex Markdown TestCounts Spec Change Effective Regression.

(** ** Words in an output (vacuous.go) *)

(** utf8.DecodeRuneInString's rune, and utf8.DecodeLastRuneInString's. *)
Definition FirstRune (s : gostring) : Z := match DecodeRune s with Some (r, _) => r | None => RuneError end.

Definition RuneStart (b : byte) : bool := negb (between 128 191 (bz b)).

Definition LastRune (s : gostring) : Z :=
  match rev s with
  | [] => RuneError
  | b :: t =>
      if (bz b <? 128)%Z then bz b
      else
        let start := match list_find RuneStart (take 3 t) with
                     | Some (k, _) => length s - 2 - k
                     | None => length s - 5
                     end in
        match DecodeRune (drop start s) with
        | Some (r, w) => if Nat.eqb (start + w) (length s) then r else RuneError
        | None => RuneError
        end
  end.

Section words.
(** unicode.IsLetter and unicode.IsDigit, tables of the Go library. *)
Context (IsLetter IsDigit : Z -> bool).

Definition isWord (r : Z) : bool := IsLetter r || IsDigit r.

(** No letter or digit is glued to either end of [phrase], between [before] and
    [after]. *)
Definition apart (before phrase after : gostring) : bool :=
  (negb (isWord (FirstRune phrase)) || negb (isWord (LastRune before))) &&
  (negb (isWord (LastRune phrase)) || negb (isWord (FirstRune after))).

(** containsWord's loop from [off] on; each round moves [off] on. *)
Fixpoint contains_from (s phrase : gostring) (fuel off : nat) : bool :=
  match fuel with
  | 0 => false
  | S fuel' =>
      if Nat.ltb off (length s) then
        match Index (drop off s) phrase with
        | None => false
        | Some j =>
            let i := j + off in
            apart (take i s) phrase (drop (i + length phrase) s) || contains_from s phrase fuel' (S i)
        end
      else false
  end.

Definition containsWord (s phrase : gostring) : bool := contains_from s phrase (length s) 0.

(** The phrase a line says, "" when it says none. *)
Definition said_by (phrases : list gostring) (line : gostring) : gostring :=
  default [] (List.find (containsWord line) phrases).

(** vacuousPhrase's loop: the first phrase said, the first words of the lines that
    say one, and those of the lines that say none. *)
Definition vacuous_line (phrases : list gostring) (acc : gostring * list gostring * list gostring) (line : gostring)
    : gostring * list gostring * list gostring :=
  let '(said, vacuousFirst, plainFirst) := acc in
  match Fields line with
  | [] => acc
  | w :: _ =>
      let hit := said_by phrases line in
      if hit =s "" then (said, vacuousFirst, plainFirst ++ [w])
      else (if said =s "" then hit else said, vacuousFirst ++ [w], plainFirst)
  end.

Definition vacuousPhrase (output : gostring) (phrases : list gostring) : gostring :=
  match phrases with
  | [] => []
  | _ =>
      let '(said, vacuousFirst, plainFirst) := foldl (vacuous_line phrases) ([], [], []) (split_byte nl output) in
      if existsb (slices_Contains vacuousFirst) plainFirst then [] else said
  end.
End words.

(** isIdentByte, and mentionsVar's search for one spelling of the variable. *)
Definition isIdentByte (c : byte) : bool := c_word (bz c).

Fixpoint mentions_ref (s ref : gostring) (fuel off : nat) : bool :=
  match fuel with
  | 0 => false
  | S fuel' =>
      match Index (drop off s) ref with
      | None => false
      | Some i =>
          let end_ := off + i + length ref in
          match s !! end_ with
          | Some c => if isIdentByte c then mentions_ref s ref fuel' end_ else true
          | None => true
          end
      end
  end.

Definition mentionsVar (s name : gostring) : bool :=
  existsb (fun ref => mentions_ref s ref (S (length s)) 0) [bs "$" ++ name; bs "${" ++ name].

(** ** The output kept (runner.go) *)

Definition outputKeep : N := 4194304.
Definition tailLines : nat := 40.

(** capped.Write: the last [max] bytes. *)
Definition capped_write (max : N) (buf p : gostring) : gostring :=
  let b := buf ++ p in drop (N.to_nat (N.of_nat (length b) - max)) b.

Definition lastLines (s : gostring) (n : nat) : list gostring :=
  let s := TrimRight s newlines in
  if s =s "" then []
  else let lines := split_byte nl s in drop (length lines - n) lines.

(** ** A builtin sh does not have (shellnote.go) *)

Definition shellOnlyBuiltins : list gostring :=
  [ bs "source"; bs "[["; bs "declare"; bs "typeset"; bs "shopt"; bs "pushd"; bs "popd"; bs "dirs"; bs "let"; bs "mapfile";
    bs "readarray"; bs "select"; bs "setopt"; bs "unsetopt"; bs "autoload"; bs "compgen"; bs "complete"; bs "disown";
    bs "enable"; bs "caller"; bs "suspend"; bs "function" ].

Definition builtinNotFoundRe : re :=
  cats [ BolM; Opt (cats [ Star (Cls (cnot c_space)); lit "sh: "; Opt (lit "line "); digits; lit ": " ]);
         Grp 1 (Plus (Cls (cnot c_space))); lit ": "; Opt (lit "command "); lit "not found"; Opt (lit [x0d]); EolM ].

Definition shellBuiltinNotFound (out : gostring) : gostring :=
  let out := ReplaceAllRe ansiRe out (fun _ => []) in
  default [] (List.find (slices_Contains shellOnlyBuiltins) ((fun m => group out m 1) <$> FindAll builtinNotFoundRe out)).

Definition exitNotFound : Z := 127.

Definition shellBuiltinNote (exit : Z) (out : gostring) : gostring :=
  if negb (Z.eqb exit exitNotFound) then []
  else
    let name := shellBuiltinNotFound out in
    if name =s "" then []
    else
      let fix_ := if name =s "source" then bs "use `.`, its POSIX form (`. <file>`)"
                  else bs "write that line in POSIX sh, or run it with bash explicitly (bash -c '…')" in
      bs "`" ++ name ++ "` is a bash/zsh builtin that /bin/sh here (dash) does not have — ape runs checks with sh, so the command is not missing from this machine: " ++ fix_.

(** ** A check's exit *)

Definition ReasonVacuous : gostring := "vacuous".
Definition ReasonIdle : gostring := "idle".
Definition ReasonCeiling : gostring := "ceiling".
Definition ExitVacuous : Z := -2.
Definition ExitUnrun : Z := -3.
Definition ExitTimeout : Z := 124.

(** What Wait returned: no error, an exec.ExitError of its ExitCode, or another. *)
Inductive WaitErr := WaitNil | WaitExit (code : Z) | WaitOther (msg : gostring).
#[export] Instance WaitErr_eq_dec : EqDecision WaitErr.
Proof. solve_decision. Defined.

(** Where the run's contexts stand: not done, cancelled as idle, past the ceiling, or
    cancelled by ape's own interrupt. *)
Inductive CtxState := CtxRunning | CtxIdle | CtxDeadline | CtxCancelled.

(** The limits as a message shows them: the durations and the keys that set them. *)
Record LimitText := MkLimitText { li_Idle : gostring; li_IdleKey : gostring; li_Max : gostring; li_MaxKey : gostring }.

(** The exit, its reason and detail, and the note written to the output. *)
Definition checkExit (ctx : CtxState) (err : WaitErr) (lim : LimitText) : Z * gostring * gostring * gostring :=
  let timed_out detail := bs "
[ape] check timed out: " ++ detail ++ [nl] in
  match err with
  | WaitNil => (0%Z, [], [], [])
  | _ =>
      match ctx with
      | CtxIdle =>
          let detail := bs "no output and no CPU time for " ++ li_Idle lim ++ " (" ++ li_IdleKey lim ++ ")" in
          (ExitTimeout, ReasonIdle, detail, timed_out detail)
      | CtxDeadline =>
          let detail := bs "still running at " ++ li_Max lim ++ " (" ++ li_MaxKey lim ++ ")" in
          (ExitTimeout, ReasonCeiling, detail, timed_out detail)
      | CtxRunning | CtxCancelled =>
          match err with
          | WaitExit code =>
              (if (code <? 0)%Z then 128%Z else code, [], [],
               match ctx with CtxCancelled => bs "
[ape] interrupted
" | _ => [] end)
          | WaitOther msg => (exitNotFound, [], [], bs "
[ape] " ++ msg ++ [nl])
          | WaitNil => (0%Z, [], [], [])
          end
      end
  end.

(** What running a command gave: the writes of its output, what Wait returned, the
    contexts as its shell exited and as its exit is judged, after its leftovers were
    ended and its output read, who held its port, what it left running, and whether its
    output stayed open past the drain. *)
Record Ran := MkRan {
  ran_chunks : list gostring; ran_err : WaitErr; ran_exited : CtxState; ran_judged : CtxState; ran_port : gostring;
  ran_leftovers : list gostring; ran_held : bool }.

(** runCheck's part from the exit of the shell on. [vacuous] is [None] for the nil of a
    gate's own command. *)
Section run_check.
Context (IsLetter IsDigit : Z -> bool) (Quote : gostring -> gostring) (outputDrain : gostring).

Definition note (text : gostring) (buf : gostring) : gostring := capped_write outputKeep buf text.

Definition output_of (ran : Ran) : gostring := foldl (capped_write outputKeep) [] (ran_chunks ran).

(** Why a red check is port-held, asked only of one that ended by itself. *)
Definition portHeld (ran : Ran) : gostring :=
  match ran_exited ran, ran_err ran with
  | CtxRunning, WaitNil => []
  | CtxRunning, _ => ran_port ran
  | _, _ => []
  end.

(** A verdict so far: the exit, its reason and detail, and the output. *)
Record Judged := MkJudged { j_exit : Z; j_reason : gostring; j_detail : gostring; j_buf : gostring }.

Definition judge_port (port : gostring) (j : Judged) : Judged :=
  if (port <>s "") && negb (Z.eqb (j_exit j) 0) && negb (Z.eqb (j_exit j) ExitTimeout) then
    MkJudged ExitUnrun ReasonUnrun (port ++ " (port-held): not ready, never red for the product")
      (note (bs "
[ape] unrun (port-held): " ++ port ++ [nl]) (j_buf j))
  else j.

Definition judge_vacuous (vacuous : option (list gostring)) (j : Judged) : Judged :=
  if Z.eqb (j_exit j) 0 then
    let ph := vacuousPhrase IsLetter IsDigit (j_buf j) (default [] vacuous) in
    if ph <>s "" then
      let detail := bs "exit 0, but the output says " ++ Quote ph ++ " and nothing shows a test ran" in
      MkJudged ExitVacuous ReasonVacuous detail (note (bs "
[ape] vacuous: " ++ detail ++ " (checks.vacuous_output)
") (j_buf j))
    else j
  else j.

(** The verdict on skips, with the counts and the skip's reason. *)
Definition judge_skips (cmd : gostring) (vacuous : option (list gostring)) (j : Judged) : Judged * option TestCounts * gostring :=
  let '(tests, verdict) :=
    judgeSkips cmd (j_buf j) (Z.eqb (j_exit j) 0 && match vacuous with Some _ => true | None => false end) in
  match verdict with
  | Some (skip, skipDetail) =>
      (MkJudged ExitUnrun ReasonUnrun skipDetail (note (bs "
[ape] unrun (" ++ skip ++ "): " ++ skipDetail ++ [nl]) (j_buf j)), tests, skip)
  | None => (j, tests, [])
  end.

Definition judge_run (cmd : gostring) (lim : LimitText) (vacuous : option (list gostring)) (ran : Ran)
    : Judged * option TestCounts * gostring :=
  let '(exit, reason, detail, text) := checkExit (ran_judged ran) (ran_err ran) lim in
  let j := MkJudged exit reason detail (note text (output_of ran)) in
  judge_skips cmd vacuous (judge_vacuous vacuous (judge_port (portHeld ran) j)).

(** The notes that end a log: a builtin sh lacks, what was left running, an output held
    open. *)
Definition closing_notes (shellNote : gostring) (ran : Ran) (buf : gostring) : gostring :=
  let buf := if shellNote <>s "" then note (bs "
[ape] note: " ++ shellNote ++ [nl]) buf else buf in
  let buf := match ran_leftovers ran with
             | [] => buf
             | _ => note (bs "
[ape] the check exited with " ++ ItoaN (length (ran_leftovers ran)) ++
                         " process(es) it started still running; ape ended them: " ++ Join (ran_leftovers ran) "; " ++ [nl]) buf
             end in
  if ran_held ran then note (bs "
[ape] the output was still held open " ++ outputDrain ++
               " after the check exited, by a process outside its process group; ape stopped reading it
") buf else buf.

(** A command that could not be prepared, [inl], or that ran. *)
Definition runCheck (cmd : gostring) (lim : LimitText) (vacuous : option (list gostring)) (ran : gostring + Ran) : CheckResult :=
  let result exit tail reason detail tests skip shellNote leftovers :=
    MkResult [] None [] [] [] false cmd exit tail reason detail false 0 false [] tests skip shellNote leftovers in
  match ran with
  | inl msg => result exitNotFound [bs "[ape] " ++ msg] [] [] None [] [] []
  | inr ran =>
      let '(j, tests, skip) := judge_run cmd lim vacuous ran in
      let shellNote := shellBuiltinNote (j_exit j) (j_buf j) in
      let buf := closing_notes shellNote ran (j_buf j) in
      result (j_exit j) (lastLines buf tailLines) (j_reason j) (j_detail j) tests skip shellNote (ran_leftovers ran)
  end.
End run_check.

(** ** Words *)
Section word_facts.
Context (IsLetter IsDigit : Z -> bool).
Let apart := apart IsLetter IsDigit.

(** [phrase] stands apart at position [i] of [s]. *)
Definition stands_at (s phrase : gostring) (i : nat) : Prop :=
  i < length s /\ HasPrefix (drop i s) phrase = true /\ apart (take i s) phrase (drop (i + length phrase) s) = true.

Lemma contains_from_spec s phrase fuel : forall off, length s <= off + fuel ->
  contains_from IsLetter IsDigit s phrase fuel off = true <-> exists i, off <= i /\ stands_at s phrase i.
Proof.
  induction fuel as [|fuel IH]; intros off Hoff; simpl.
  { split; [done|]. intros (i & Hi & Hl & _). lia. }
  destruct (Nat.ltb_spec off (length s)) as [Hlt|Hge]; [|split; [done|intros (i & Hi & Hl & _); lia]].
  destruct (Index (drop off s) phrase) as [j|] eqn:E.
  - apply Index_least in E as [Hj Hleast]. rewrite drop_drop in Hj. rewrite orb_true_iff, IH by lia.
    assert (Hmin : forall i, off <= i -> HasPrefix (drop i s) phrase = true -> j + off <= i).
    { intros i Hi Hp. destruct (decide (j + off <= i)) as [|Hn]; [done|].
      specialize (Hleast (i - off) ltac:(lia)). rewrite drop_drop in Hleast.
      replace (off + (i - off)) with i in Hleast by lia. congruence. }
    split.
    + intros [Ha|(i & Hi & Hs)]; [|exists i; split; [lia|done]].
      destruct (decide (j + off < length s)) as [Hin|Hout].
      * exists (j + off). split; [lia|]. split; [done|]. split; [by rewrite Nat.add_comm|done].
      * exists off. split; [done|]. exfalso. apply Hout.
        destruct phrase as [|c phrase]; [|rewrite drop_ge in Hj by lia; done].
        specialize (Hmin off ltac:(lia) eq_refl). lia.
    + intros (i & Hi & Hl & Hp & Ha). pose proof (Hmin i Hi Hp). destruct (decide (i = j + off)) as [->|]; [by left|].
      right. exists i. split; [lia|]. done.
  - split; [done|]. intros (i & Hi & Hl & Hp & _). pose proof (Index_absent _ _ E (i - off)) as Ha.
    rewrite drop_drop in Ha. replace (off + (i - off)) with i in Ha by lia. congruence.
Qed.

(** containsWord finds a phrase exactly where an occurrence of it has no letter or
    digit glued to an end that is one itself. *)
Theorem containsWord_spec s phrase :
  containsWord IsLetter IsDigit s phrase = true <->
  exists a b, s = a ++ phrase ++ b /\ length a < length s /\ apart a phrase b = true.
Proof.
  unfold containsWord. rewrite contains_from_spec by lia. split.
  - intros (i & _ & Hi & [b Hb]%HasPrefix_spec & Ha). exists (take i s), b.
    rewrite <- Hb, take_drop, length_take. split_and!; [done|lia|].
    by rewrite <- drop_drop, Hb, drop_app_length in Ha.
  - intros (a & b & -> & Hl & Ha). exists (length a). split; [lia|]. split; [done|].
    rewrite drop_app_length, HasPrefix_app, take_app_length, <- drop_drop, drop_app_length, drop_app_length. done.
Qed.

(** *** Vacuous outputs *)

Definition first_word (l : gostring) : option gostring := head (Fields l).

(** The first word of a line that says a phrase, [b = true], or that says none. *)
Definition word_of (phrases : list gostring) (b : bool) (l : gostring) : option gostring :=
  w ← first_word l; if bool_decide (said_by IsLetter IsDigit phrases l = []) then (if b then None else Some w) else (if b then Some w else None).

Definition first_said (phrases : list gostring) (ls : list gostring) : gostring :=
  default [] (said_by IsLetter IsDigit phrases <$> List.find (fun l => match word_of phrases true l with Some _ => true | None => false end) ls).

Lemma find_app {A} (f : A -> bool) l k : List.find f (l ++ k) = match List.find f l with Some x => Some x | None => List.find f k end.
Proof. induction l as [|x l IH]; simpl; [done|]. by destruct (f x). Qed.

Lemma word_of_said phrases l w : word_of phrases true l = Some w -> first_word l = Some w /\ said_by IsLetter IsDigit phrases l <> [].
Proof. unfold word_of. destruct (first_word l); simpl; [|done]. case_bool_decide; naive_solver. Qed.

Lemma vacuous_fold phrases ls :
  foldl (vacuous_line IsLetter IsDigit phrases) ([], [], []) ls =
  (first_said phrases ls, omap (word_of phrases true) ls, omap (word_of phrases false) ls).
Proof.
  induction ls as [|l ls IH] using rev_ind; [done|].
  rewrite foldl_app, IH, !omap_app. cbn [foldl]. unfold vacuous_line, first_said. rewrite find_app.
  cbn [List.find omap list_omap].
  assert (forall b, word_of phrases b l = w ← head (Fields l); if bool_decide (said_by IsLetter IsDigit phrases l = [])
    then (if b then None else Some w) else (if b then Some w else None)) as Hw by done.
  rewrite !Hw. clear Hw. destruct (Fields l) as [|w ws]; cbn [head mbind option_bind].
  { rewrite !app_nil_r. by destruct (List.find _ ls). }
  destruct (decide (said_by IsLetter IsDigit phrases l = [])) as [E|E].
  - rewrite E, !(bool_decide_true _ eq_refl), app_nil_r. by destruct (List.find _ ls).
  - rewrite !(bool_decide_false _ E), app_nil_r. destruct (List.find _ ls) as [k|] eqn:Ek; cbn.
    + apply find_some in Ek as [_ Hk]. destruct (word_of phrases true k) as [v|] eqn:Ev; [|done].
      apply word_of_said in Ev as [_ Hv]. by rewrite (bool_decide_false _ Hv).
    + done.
Qed.

Lemma first_said_spec phrases ls ph :
  (first_said phrases ls = ph /\ ph <> []) <->
  exists pre l post, ls = pre ++ l :: post /\ first_word l <> None /\ said_by IsLetter IsDigit phrases l = ph /\ ph <> [] /\
    Forall (fun k => first_word k <> None -> said_by IsLetter IsDigit phrases k = []) pre.
Proof.
  unfold first_said. induction ls as [|k ls IH]; cbn [List.find].
  { split; [naive_solver|]. intros ([|] & ? & ? & ? & _); done. }
  destruct (word_of phrases true k) as [w|] eqn:Ew.
  - apply word_of_said in Ew as [Hw Hs]. cbn. split.
    + intros [<- Hne]. exists [], k, ls. split_and!; try done. by rewrite Hw.
    + intros ([|q pre] & l & post & Heq & Hl & Hsl & Hne & Hpre); simplify_eq/=; [done|].
      apply Forall_cons in Hpre as [Hq _]. exfalso. apply Hs, Hq. by rewrite Hw.
  - assert (first_word k <> None -> said_by IsLetter IsDigit phrases k = []) as Hk.
    { unfold word_of in Ew. destruct (first_word k); [|done]. cbn in Ew. case_bool_decide; naive_solver. }
    rewrite IH. split.
    + intros (pre & l & post & -> & H). exists (k :: pre), l, post. naive_solver.
    + intros ([|q pre] & l & post & Heq & Hl & Hsl & Hne & Hpre); simplify_eq/=; [naive_solver|].
      apply Forall_cons in Hpre as [_ Hpre]. eauto 10.
Qed.

Lemma no_shared_spec phrases ls :
  existsb (slices_Contains (omap (word_of phrases true) ls)) (omap (word_of phrases false) ls) = false <->
  (forall l k, l ∈ ls -> k ∈ ls -> first_word l <> None -> first_word l = first_word k ->
     said_by IsLetter IsDigit phrases l <> [] -> said_by IsLetter IsDigit phrases k <> []).
Proof.
  rewrite <- not_true_iff_false, existsb_exists. unfold slices_Contains. split.
  - intros H l k Hl Hk Hw Heq Hs Hn. apply H. destruct (first_word l) as [w|] eqn:E; [|done]. exists w. split.
    + apply list_elem_of_In, list_elem_of_omap. exists k. split; [done|]. unfold word_of. rewrite <- Heq. cbn. by rewrite bool_decide_true.
    + apply bool_decide_eq_true, list_elem_of_omap. exists l. split; [done|]. unfold word_of. rewrite E. cbn. by rewrite bool_decide_false.
  - intros H (w & Hk%list_elem_of_In & Hl%bool_decide_eq_true). apply list_elem_of_omap in Hk as (k & Hk & Ek), Hl as (l & Hl & El).
    apply word_of_said in El as [Hw Hs]. unfold word_of in Ek. destruct (first_word k) as [v|] eqn:Ev; [|done]. cbn in Ek.
    case_bool_decide as Hn; [|done]. simplify_eq. apply (H l k); [done|done| |by rewrite Hw, Ev|done|done]. by rewrite Hw.
Qed.

(** An output is vacuous, by the first phrase said, exactly when some line says a
    phrase and no line that says none starts with the same word as one that does. *)
Theorem vacuousPhrase_spec out phrases ph :
  let lines := split_byte nl out in
  let says := said_by IsLetter IsDigit phrases in
  (vacuousPhrase IsLetter IsDigit out phrases = ph /\ ph <> []) <->
  (exists pre l post, lines = pre ++ l :: post /\ first_word l <> None /\ says l = ph /\ ph <> [] /\
     Forall (fun k => first_word k <> None -> says k = []) pre) /\
  (forall l k, l ∈ lines -> k ∈ lines -> first_word l <> None -> first_word l = first_word k -> says l <> [] -> says k <> []).
Proof.
  cbn zeta. rewrite <- first_said_spec, <- no_shared_spec. unfold vacuousPhrase. destruct phrases as [|p phrases].
  { split; [naive_solver|]. intros [[H Hne] _]. exfalso. apply Hne. rewrite <- H. unfold first_said.
    by destruct (List.find _ _). }
  rewrite vacuous_fold. destruct (existsb _ _); naive_solver.
Qed.
End word_facts.

(** ** The output kept *)

Definition last_bytes (max : N) (s : gostring) : gostring := drop (N.to_nat (N.of_nat (length s) - max)) s.

Lemma capped_write_last max s p : capped_write max (last_bytes max s) p = last_bytes max (s ++ p).
Proof.
  unfold capped_write, last_bytes. set (k := N.to_nat (N.of_nat (length s) - max)).
  pose proof (take_drop k s) as Hs. assert (length (take k s) = k) as Ha by (rewrite length_take; lia).
  set (a := take k s) in *. set (b := drop k s) in *. clearbody a b. rewrite <- Hs, <- app_assoc.
  assert (N.to_nat (N.of_nat (length (a ++ b ++ p)) - max) = length a + N.to_nat (N.of_nat (length (b ++ p)) - max)) as ->.
  { subst k. rewrite <- Hs in Ha. rewrite !length_app in *. lia. }
  by rewrite <- drop_drop, drop_app_length.
Qed.

(** The buffer holds the last bytes of what was written, however it was cut up. *)
Lemma capped_writes max ps : forall s, foldl (capped_write max) (last_bytes max s) ps = last_bytes max (s ++ mjoin ps).
Proof.
  induction ps as [|p ps IH]; intros s; cbn [foldl mjoin list_join]; [by rewrite app_nil_r|].
  rewrite capped_write_last, IH. by rewrite app_assoc.
Qed.

Lemma output_of_last ran : output_of ran = last_bytes outputKeep (mjoin (ran_chunks ran)).
Proof. unfold output_of. apply (capped_writes outputKeep (ran_chunks ran) []). Qed.

(** ** Green results *)

(** The counts show a test that ran: not only skips, and no skip in a check that names
    its tests. *)
Definition tested (cmd : gostring) (c : TestCounts) : Prop :=
  (0 < tc_Skipped c -> tc_Passed c <> 0 \/ tc_Failed c <> 0)%Z /\
  ((0 < tc_Skipped c)%Z -> MatchString namesTestsRe cmd = false).

Lemma skipVerdict_None cmd c : skipVerdict cmd c = None <-> tested cmd c.
Proof.
  unfold skipVerdict, tested. destruct (Z.eqb_spec (tc_Passed c) 0), (Z.ltb_spec 0 (tc_Skipped c)), (Z.eqb_spec (tc_Failed c) 0),
    (MatchString namesTestsRe cmd); cbn; naive_solver lia.
Qed.

(** An ExitError is of an unsuccessful exit. *)
Definition exits_nonzero (ran : gostring + Ran) : Prop :=
  match ran with inr r => forall code, ran_err r = WaitExit code -> code <> 0%Z | inl _ => True end.

Lemma checkExit_red ctx err lim : err <> WaitNil -> (forall code, err = WaitExit code -> code <> 0%Z) ->
  (checkExit ctx err lim).1.1.1 <> 0%Z.
Proof.
  intros Hne Hc. destruct err as [|code|msg]; [done| |]; destruct ctx; try done; cbn.
  all: specialize (Hc code eq_refl); destruct (Z.ltb_spec code 0); lia.
Qed.

Section green.
Context (IsLetter IsDigit : Z -> bool) (Quote : gostring -> gostring) (outputDrain : gostring).

Lemma runCheck_exit cmd lim vacuous r :
  cr_Exit (runCheck IsLetter IsDigit Quote outputDrain cmd lim vacuous (inr r)) = j_exit (judge_run IsLetter IsDigit Quote cmd lim vacuous r).1.1.
Proof. unfold runCheck. by destruct (judge_run _ _ _ _ _ _ _) as [[j tests] skip]. Qed.

(** Once red, a verdict stays red. *)
Lemma judge_port_red port j : j_exit j <> 0%Z -> j_exit (judge_port port j) <> 0%Z.
Proof. intros H. unfold judge_port. by destruct (_ && _). Qed.

Lemma judge_vacuous_red vacuous j : j_exit j <> 0%Z -> judge_vacuous IsLetter IsDigit Quote vacuous j = j.
Proof. intros H. unfold judge_vacuous. apply Z.eqb_neq in H. by rewrite H. Qed.

Lemma judge_skips_exit cmd vacuous j : j_exit (judge_skips cmd vacuous j).1.1 = 0%Z <->
  j_exit j = 0%Z /\ (vacuous <> None -> forall c, testCounts (j_buf j) = Some c -> tested cmd c).
Proof.
  unfold judge_skips, judgeSkips. destruct (Z.eqb_spec (j_exit j) 0) as [H|H].
  - destruct (testCounts (j_buf j)) as [c|], vacuous as [phrases|]; cbn; try naive_solver.
    pose proof (skipVerdict_None cmd c) as Hs. destruct (skipVerdict cmd c) as [[skip detail]|]; cbn; naive_solver.
  - destruct (testCounts (j_buf j)); cbn; naive_solver.
Qed.

(** C9: A check is recorded green exactly when its shell exited 0, no vacuous phrase
    speaks for its output, and, where ape judges the output, the runner's counts do not
    say that only skips, or a named test's skip, made it pass. *)
Theorem runCheck_green cmd lim vacuous ran :
  exits_nonzero ran ->
  cr_Exit (runCheck IsLetter IsDigit Quote outputDrain cmd lim vacuous ran) = 0%Z <->
  exists r, ran = inr r /\ ran_err r = WaitNil /\
    let out := last_bytes outputKeep (mjoin (ran_chunks r)) in
    vacuousPhrase IsLetter IsDigit out (default [] vacuous) = [] /\
    (vacuous <> None -> forall c, testCounts out = Some c -> tested cmd c).
Proof.
  intros Hc. destruct ran as [msg|r]; [split; [done|naive_solver]|].
  rewrite runCheck_exit. unfold judge_run.
  destruct (decide (ran_err r = WaitNil)) as [He|He].
  - assert (portHeld r = []) as -> by (unfold portHeld; rewrite He; by destruct (ran_exited r)).
    rewrite He, output_of_last. cbn [checkExit]. unfold note at 1. rewrite capped_write_last, app_nil_r.
    set (out := last_bytes _ _). cbn [judge_port]. rewrite judge_skips_exit. unfold judge_port, judge_vacuous. cbn [j_exit Z.eqb negb andb bool_decide].
    rewrite andb_false_r. cbn [andb j_exit j_buf Z.eqb].
    destruct (decide (vacuousPhrase IsLetter IsDigit out (default [] vacuous) = [])) as [E|E].
    + rewrite (bool_decide_true _ E). cbn [negb j_exit j_buf]. naive_solver.
    + rewrite (bool_decide_false _ E). cbn [negb j_exit j_buf]. naive_solver.
  - pose proof (checkExit_red (ran_judged r) (ran_err r) lim He Hc) as Hx.
    destruct (checkExit _ _ _) as [[[exit reason] detail] text]. cbn [fst] in Hx.
    rewrite judge_skips_exit, judge_vacuous_red by by apply judge_port_red.
    split; [|naive_solver]. intros [H _]. by apply (judge_port_red (portHeld r)) in H.
Qed.
End green.

(** ** Samples *)

Definition ascii_letter (r : Z) : bool := c_lower r || c_upper r.
Definition ran_of (out : gostring) (err : WaitErr) : gostring + Ran := inr (MkRan [out] err CtxRunning CtxRunning [] [] false).
Definition sample_run (cmd out : gostring) : CheckResult :=
  runCheck ascii_letter c_digit (fun s => s) "5s" cmd (MkLimitText "1m" "check.idle" "5m" "check.max")
    (Some [bs "no tests to run"; bs "0 passing"]) (ran_of out WaitNil).

(** A pass beside packages with no test is green; the same line alone is vacuous; a run
    of skips is unrun; ten passing tests do not say 0 passing. *)
Example runs_judged :
  (cr_Exit (sample_run "go test ./... -run X" "ok  a 0.1s
ok  b 0.1s [no tests to run]"), cr_Exit (sample_run "go test ./... -run X" "ok  b 0.1s [no tests to run]"),
   cr_Exit (sample_run "go test -v ./..." "--- SKIP: TestDB (0.00s)
PASS"), cr_Exit (sample_run "npx mocha" "  10 passing (5ms)"), cr_Exit (sample_run "npx mocha" "  0 passing (5ms)"))
  = (0, -2, -3, 0, -2)%Z.
Proof. vm_compute. reflexivity. Qed.

Lemma runCheck_green_witness :
  let ran := ran_of "ok  a 0.1s" WaitNil in
  exits_nonzero ran /\
  exists r, ran = inr r /\ ran_err r = WaitNil /\
    let out := last_bytes outputKeep (mjoin (ran_chunks r)) in
    vacuousPhrase ascii_letter c_digit out [bs "no tests to run"; bs "0 passing"] = [] /\
    (Some [bs "no tests to run"; bs "0 passing"] <> None -> forall c, testCounts out = Some c -> tested "go test ./..." c).
Proof.
  assert (exits_nonzero (ran_of "ok  a 0.1s" WaitNil)) as H by (intros code Hc; discriminate Hc).
  assert (cr_Exit (sample_run "go test ./..." "ok  a 0.1s") = 0%Z) as Hg by (vm_compute; reflexivity).
  split; [exact H|]. exact (proj1 (runCheck_green ascii_letter c_digit (fun s => s) "5s" "go test ./..." _ _ _ H) Hg).
Defined.

(** A check that failed by itself, and whose output was still being read when its
    ceiling passed, is recorded as killed at the ceiling, not by its own exit. *)
Theorem late_reading_loses_exit IsLetter IsDigit Quote outputDrain cmd lim vacuous chunks code port leftovers held :
  let r := runCheck IsLetter IsDigit Quote outputDrain cmd lim vacuous
             (inr (MkRan chunks (WaitExit code) CtxRunning CtxDeadline port leftovers held)) in
  cr_Exit r = ExitTimeout /\ cr_Reason r = ReasonCeiling.
Proof.
  cbn zeta. unfold runCheck, judge_run. cbn [ran_judged ran_err checkExit].
  unfold judge_port. cbn [j_exit]. rewrite andb_false_r. rewrite judge_vacuous_red by done.
  unfold judge_skips, judgeSkips. by destruct (testCounts _).
Qed.
