(* ===== verification/Shell.v ===== *)
(** The command lines the guards read: the lexer and the scanner of
    internal/apexv1/tagguard.go, which split a shell command line into simple commands
    and find the program each one runs; and the functions of path/filepath they use, on
    a Unix system. *)
From S2P Require Import Prelude Regex Markdown Spec.

(** ** Runes written (unicode/utf8) *)

Definition byte_of (z : Z) : byte := default x00 (Byte.of_N (Z.to_N z)).

Definition valid_rune (r : Z) : bool := between 0 55295 r || between 57344 1114111 r.

(** utf8.AppendRune: a rune that is none is written as [RuneError]. *)
Definition EncodeRune (r : Z) : gostring :=
  let r := if valid_rune r then r else RuneError in
  if (r <? 128)%Z then [byte_of r]
  else if (r <? 2048)%Z then [byte_of (192 + r / 64); byte_of (128 + r mod 64)]%Z
  else if (r <? 65536)%Z then [byte_of (224 + r / 4096); byte_of (128 + r / 64 mod 64); byte_of (128 + r mod 64)]%Z
  else [byte_of (240 + r / 262144); byte_of (128 + r / 4096 mod 64); byte_of (128 + r / 64 mod 64); byte_of (128 + r mod 64)]%Z.

Definition encode (rs : list Z) : gostring := rs ≫= EncodeRune.

(** ** Paths (path/filepath) *)

(** The text after the last slash. *)
Fixpoint after_slash (cur s : gostring) : gostring :=
  match s with
  | [] => cur
  | c :: s' => if Byte.eqb c "/" then after_slash [] s' else after_slash (cur ++ [c]) s'
  end.

Definition filepath_Base (path : gostring) : gostring :=
  if path =s "" then bs "."
  else
    let base := after_slash [] (TrimRight path [bs "/"]) in
    if base =s "" then bs "/" else base.

(** Clean's handling of one element, on the elements kept, the last first. *)
Definition clean_step (rooted : bool) (kept : list gostring) (e : gostring) : list gostring :=
  if (e =s "") || (e =s ".") then kept
  else if e =s ".." then
    match kept with
    | k :: kept' => if k =s ".." then e :: kept else kept'
    | [] => if rooted then [] else [e]
    end
  else e :: kept.

Definition filepath_Clean (path : gostring) : gostring :=
  let rooted := HasPrefix path "/" in
  let out := (if rooted then bs "/" else []) ++ Join (rev (foldl (clean_step rooted) [] (split_byte "/" path))) "/" in
  if out =s "" then bs "." else out.

(** filepath.Join of two elements. *)
Definition filepath_Join (a b : gostring) : gostring :=
  if a =s "" then (if b =s "" then [] else filepath_Clean b) else filepath_Clean (a ++ "/" ++ b).

Definition filepath_IsAbs (path : gostring) : bool := HasPrefix path "/".

(** ** The lexer *)

(** shellLexer, but for its input; the words of a command and the word being read. *)
Record Lexer := MkLexer {
  lx_cmds : list (list gostring); lx_words : list gostring; lx_cur : gostring; lx_inTok : bool; lx_piped : list bool }.

Definition endWord (lx : Lexer) : Lexer :=
  if lx_inTok lx then MkLexer (lx_cmds lx) (lx_words lx ++ [lx_cur lx]) [] false (lx_piped lx) else lx.

Definition endCmd (lx : Lexer) : Lexer :=
  let lx := endWord lx in
  match lx_words lx with
  | [] => lx
  | _ => MkLexer (lx_cmds lx ++ [lx_words lx]) [] (lx_cur lx) (lx_inTok lx) (lx_piped lx ++ [false])
  end.

(** A rune written to the word. *)
Definition write (r : Z) (lx : Lexer) : Lexer :=
  MkLexer (lx_cmds lx) (lx_words lx) (lx_cur lx ++ EncodeRune r) true (lx_piped lx).
Definition inWord (lx : Lexer) : Lexer := MkLexer (lx_cmds lx) (lx_words lx) (lx_cur lx) true (lx_piped lx).

(** strings.ContainsRune of an ASCII set. *)
Definition in_set (set : gostring) (r : Z) : bool := existsb (fun b => Z.eqb (bz b) r) set.

(** A single-quoted text, from after its quote to after its end. *)
Fixpoint single (lx : Lexer) (rs : list Z) : Lexer * list Z :=
  match rs with
  | [] => (lx, [])
  | c :: rs' => if one "'" c then (lx, rs') else single (write c lx) rs'
  end.

Fixpoint double (lx : Lexer) (rs : list Z) : Lexer * list Z :=
  match rs with
  | [] => (lx, [])
  | c :: rs' =>
      if one x22 c then (lx, rs')
      else match rs' with
           | n :: rs'' => if one "\" c && in_set (dq ++ "\$`") n then double (write n lx) rs'' else double (write c lx) rs'
           | [] => (write c lx, [])
           end
  end.

Fixpoint skip_while (f : Z -> bool) (rs : list Z) : list Z :=
  match rs with
  | c :: rs' => if f c then skip_while f rs' else rs
  | [] => []
  end.

Definition is_digits (s : gostring) : bool := forallb (fun b => c_digit (bz b)) s.

Definition redirect (lx : Lexer) (rs : list Z) : Lexer * list Z :=
  let lx := if lx_inTok lx && is_digits (lx_cur lx) then MkLexer (lx_cmds lx) (lx_words lx) [] false (lx_piped lx) else lx in
  (endWord lx,
   skip_while (fun r => negb (in_set [" "; x09; nl; ";"; "&"; "|"; "("; ")"]%byte r))
     (skip_while (in_set [" "; x09]%byte) (skip_while (in_set "<>&|") rs))).

(** The last command writes into a pipe. *)
Definition pipe (lx : Lexer) : Lexer :=
  MkLexer (lx_cmds lx) (lx_words lx) (lx_cur lx) (lx_inTok lx) (match lx_piped lx with [] => [] | p => removelast p ++ [true] end).

(** step: the rune [c], and whatever it introduces of the runes after it. *)
Definition step (lx : Lexer) (c : Z) (rs : list Z) : Lexer * list Z :=
  if one "\" c then
    match rs with
    | n :: rs' => (if one nl n then lx else write n lx, rs')
    | [] => (lx, [])
    end
  else if one "'" c then single (inWord lx) rs
  else if one x22 c then double (inWord lx) rs
  else if one " " c || one x09 c then (endWord lx, rs)
  else if one ">" c || one "<" c then redirect lx rs
  else if one "|" c then
    let lx := endCmd lx in
    match rs with
    | n :: rs' => if one "|" n then (lx, rs') else if one "&" n then (pipe lx, rs') else (pipe lx, rs)
    | [] => (pipe lx, rs)
    end
  else if in_set [nl; ";"; "&"; "("; ")"; "`"]%byte c || ((one "{" c || one "}" c) && negb (lx_inTok lx)) then (endCmd lx, rs)
  else if one "$" c then
    match rs with
    | n :: rs' => if one "(" n then (endCmd lx, rs') else (write c lx, rs)
    | [] => (write c lx, rs)
    end
  else if one "#" c && negb (lx_inTok lx) then (endCmd lx, tail (skip_while (fun r => negb (one nl r)) rs))
  else (write c lx, rs).

(** Each step consumes a rune at least, so the runes left bound the steps. *)
Fixpoint lex_loop (fuel : nat) (lx : Lexer) (rs : list Z) : Lexer :=
  match fuel, rs with
  | S fuel', c :: rs' => let '(lx, rs) := step lx c rs' in lex_loop fuel' lx rs
  | _, _ => lx
  end.

Definition lexShell (line : gostring) : Lexer :=
  let rs := runes line in endCmd (lex_loop (length rs) (MkLexer [] [] [] false []) rs).

Definition shellCommands (line : gostring) : list (list gostring) := lx_cmds (lexShell line).

(** shellPipelines: a command joins the group of one that writes into it. *)
Definition pipeline_step (acc : list (list (list gostring)) * bool) (cp : list gostring * bool) : list (list (list gostring)) * bool :=
  let '(out, joined) := acc in
  let '(words, piped) := cp in
  (match last out with
   | Some g => if joined then removelast out ++ [g ++ [words]] else out ++ [[words]]
   | None => [[words]]
   end, piped).

Definition shellPipelines (line : gostring) : list (list (list gostring)) :=
  let lx := lexShell line in fst (foldl pipeline_step ([], false) (zip (lx_cmds lx) (lx_piped lx))).

(** ** The scanner *)

Definition assignRe : re :=
  cats [ Bol; Cls (cor (cor c_upper c_lower) (one "_")); Star (Cls (cor (cor c_upper c_lower) (cor c_digit (one "_")))); lit "=" ].

Definition wrappers : list gostring :=
  [ bs "env"; bs "command"; bs "exec"; bs "nohup"; bs "time"; bs "sudo"; bs "doas"; bs "xargs"; bs "timeout"; bs "nice";
    bs "setsid"; bs "busybox"; bs "stdbuf" ].

Definition wrapperValueOpts (base : gostring) : list gostring :=
  if base =s "sudo" then [bs "-u"; bs "-g"; bs "-p"; bs "-C"; bs "-D"; bs "-r"; bs "-t"; bs "-U"; bs "-T"; bs "-R"]
  else if base =s "doas" then [bs "-u"; bs "-C"]
  else if base =s "env" then [bs "-u"; bs "--unset"; bs "-C"; bs "--chdir"]
  else if base =s "exec" then [bs "-a"]
  else if base =s "timeout" then [bs "-s"; bs "--signal"; bs "-k"; bs "--kill-after"]
  else if base =s "nice" then [bs "-n"; bs "--adjustment"]
  else if base =s "xargs" then [bs "-I"; bs "-n"; bs "-P"; bs "-d"; bs "-E"; bs "-L"; bs "-s"; bs "-a"]
  else if base =s "stdbuf" then [bs "-i"; bs "-o"; bs "-e"]
  else [].

(** What is left of a wrapper's words after its options: nothing is run, a string is
    to be split, or the words of the command. *)
Inductive Unwrapped := RunsNothing | Splits (words : list gostring) | Runs (words : list gostring).

Fixpoint wrapper_opts (base : gostring) (words : list gostring) : Unwrapped :=
  match words with
  | o :: words' =>
      if HasPrefix o "-" then
        if o =s "--" then Runs words'
        else if (base =s "command") && ((o =s "-v") || (o =s "-V")) then RunsNothing
        else match words' with
             | _ :: words'' =>
                 if (base =s "env") && ((o =s "-S") || (o =s "--split-string")) then Splits words'
                 else if slices_Contains (wrapperValueOpts base) o then wrapper_opts base words'' else wrapper_opts base words'
             | [] => Runs []
             end
      else Runs words
  | [] => Runs []
  end.

(** scanCmd's first loop: the assignments and wrappers dropped. Each round drops a
    word, so the words bound the rounds. *)
Fixpoint unwrap (fuel : nat) (words : list gostring) : Unwrapped :=
  match fuel, words with
  | S fuel', w :: words' =>
      let base := filepath_Base w in
      if MatchString assignRe w then unwrap fuel' words'
      else if negb (slices_Contains wrappers base) then Runs words
      else match wrapper_opts base words' with
           | Runs words => unwrap fuel' (if base =s "timeout" then tail words else words)
           | u => u
           end
  | _, _ => Runs words
  end.

Definition is_shell (base : gostring) : bool := slices_Contains [bs "sh"; bs "bash"; bs "zsh"; bs "dash"; bs "ksh"] base.

(** The word after a shell's first option that holds a c. *)
Fixpoint shell_script (args : list gostring) : option gostring :=
  match args with
  | f :: args' =>
      match args' with
      | s :: _ => if HasPrefix f "-" && negb (HasPrefix f "--") && Contains f "c" then Some s else shell_script args'
      | [] => None
      end
  | [] => None
  end.

(** A judge's verdict: what it denies, "" to allow. *)
Definition cmdJudge := list gostring -> gostring -> gostring.

(** The first verdict that is not "". *)
Fixpoint first_verdict {A} (f : A -> gostring) (l : list A) : gostring :=
  match l with
  | [] => []
  | x :: l' => let what := f x in if what <>s "" then what else first_verdict f l'
  end.

(** scanCmd on the words of one command, the scripts it runs scanned by [scan]. *)
Definition scanCmd (scan : gostring -> gostring) (cwd : gostring) (judge : cmdJudge) (words : list gostring) : gostring :=
  match unwrap (length words) words with
  | RunsNothing => []
  | Splits words => scan (Join words " ")
  | Runs [] => []
  | Runs ((w :: args) as words) =>
      let base := filepath_Base w in
      if is_shell base then match shell_script args with Some script => scan script | None => judge words cwd end
      else if base =s "eval" then scan (Join args " ")
      else judge words cwd
  end.

(** scanCmds: [levels] is 4 - depth, the levels left. *)
Fixpoint scan_levels (levels : nat) (cwd : gostring) (judge : cmdJudge) (command : gostring) : gostring :=
  match levels with
  | O => []
  | S levels' => first_verdict (scanCmd (scan_levels levels' cwd judge) cwd judge) (shellCommands command)
  end.

Definition scanCmds (command cwd : gostring) (judge : cmdJudge) : gostring := scan_levels 4 cwd judge command.

(** *** Git invocations *)

Definition gitJudge := gostring -> list gostring -> gostring -> gostring.

Definition gitValueOpts : list gostring :=
  [bs "-c"; bs "--git-dir"; bs "--work-tree"; bs "--namespace"; bs "--config-env"; bs "--super-prefix"].

(** git's global options, then its subcommand and arguments, and the directory it runs
    in. *)
Fixpoint git_globals (dir : gostring) (args : list gostring) : gostring * list gostring :=
  match args with
  | a :: args' =>
      if HasPrefix a "-" then
        match args' with
        | v :: args'' =>
            if a =s "-C" then git_globals (if filepath_IsAbs v then v else filepath_Join dir v) args''
            else if slices_Contains gitValueOpts a then git_globals dir args''
            else git_globals dir args'
        | [] => (dir, [])
        end
      else (dir, args)
  | [] => (dir, [])
  end.

Definition gitInvocation (judge : gitJudge) (args : list gostring) (cwd : gostring) : gostring :=
  match git_globals cwd args with
  | (dir, sub :: args) => judge sub args dir
  | (_, []) => []
  end.

Definition git_command (judge : gitJudge) : cmdJudge := fun words cwd =>
  match words with
  | w :: args => if filepath_Base w =s "git" then gitInvocation judge args cwd else []
  | [] => []
  end.

Definition scanGit (command cwd : gostring) (judge : gitJudge) : gostring := scanCmds command cwd (git_command judge).

(** The program is ape. *)
Definition is_ape (w : gostring) : bool := let base := filepath_Base w in (base =s "ape") || (base =s "ape.exe").

(** ** Encoding and decoding *)

Lemma bz_byte_of z : (0 <= z < 256)%Z -> bz (byte_of z) = z.
Proof.
  intros H. unfold bz, byte_of. destruct (Byte.of_N (Z.to_N z)) as [b|] eqn:E; cbn.
  - apply Byte.to_of_N in E. rewrite E. lia.
  - apply Byte.of_N_None_iff in E. lia.
Qed.

Lemma between_true lo hi x : (lo <= x <= hi)%Z -> between lo hi x = true.
Proof. intros H. apply andb_true_intro. split; apply Z.leb_le; lia. Qed.

Lemma between_false lo hi x : (x < lo \/ hi < x)%Z -> between lo hi x = false.
Proof. intros H. apply andb_false_iff. rewrite !Z.leb_gt. lia. Qed.

(** The pieces of a rune's encoding. *)
Ltac rune_bytes := repeat (rewrite bz_byte_of by lia).
Ltac between_cases := repeat (first [rewrite between_true by lia | rewrite between_false by lia]).

Lemma DecodeRune_Encode r t : valid_rune r = true -> DecodeRune (EncodeRune r ++ t) = Some (r, length (EncodeRune r)).
Proof.
  intros Hv. unfold EncodeRune. rewrite Hv.
  assert (0 <= r <= 55295 \/ 57344 <= r <= 1114111)%Z as Hr.
  { apply orb_true_iff in Hv. unfold between in Hv. rewrite !andb_true_iff, !Z.leb_le in Hv. lia. }
  assert (r = 64 * (r / 64) + r mod 64 /\ 0 <= r mod 64 < 64)%Z as [H0 H0'] by (split; [apply Z.div_mod; lia|apply Z.mod_pos_bound; lia]).
  assert (r / 64 = 64 * (r / 64 / 64) + r / 64 mod 64 /\ 0 <= r / 64 mod 64 < 64)%Z as [H1 H1'] by (split; [apply Z.div_mod; lia|apply Z.mod_pos_bound; lia]).
  assert (r / 64 / 64 = r / 4096)%Z as E1 by (rewrite Z.div_div by lia; done).
  assert (r / 4096 = 64 * (r / 4096 / 64) + r / 4096 mod 64 /\ 0 <= r / 4096 mod 64 < 64)%Z as [H2 H2'] by (split; [apply Z.div_mod; lia|apply Z.mod_pos_bound; lia]).
  assert (r / 4096 / 64 = r / 262144)%Z as E2 by (rewrite Z.div_div by lia; done).
  rewrite E1 in H1. rewrite E2 in H2.
  destruct (Z.ltb_spec r 128); [|destruct (Z.ltb_spec r 2048); [|destruct (Z.ltb_spec r 65536)]]; cbn [app DecodeRune]; rune_bytes.
  - destruct (Z.ltb_spec r 128); [done|lia].
  - destruct (Z.ltb_spec (192 + r / 64) 128); [lia|]. between_cases. f_equal. f_equal. lia.
  - destruct (Z.ltb_spec (224 + r / 4096) 128); [lia|]. rewrite (between_false 194 223), (between_true 224 239) by lia.
    rewrite between_true, between_true; [f_equal; f_equal; lia|lia|].
    destruct (Z.eqb_spec (224 + r / 4096) 224), (Z.eqb_spec (224 + r / 4096) 237); lia.
  - destruct (Z.ltb_spec (240 + r / 262144) 128); [lia|].
    rewrite (between_false 194 223), (between_false 224 239), (between_true 240 244) by lia.
    rewrite between_true, between_true, between_true; [f_equal; f_equal; lia|lia|lia|].
    destruct (Z.eqb_spec (240 + r / 262144) 240), (Z.eqb_spec (240 + r / 262144) 244); lia.
Qed.

Lemma runes_skip_app k : forall s t, k = length s -> runes_skip k (s ++ t) = runes_skip 0 t.
Proof. induction k as [|k IH]; intros [|c s] t H; try discriminate; [done|]. cbn. apply IH. by injection H. Qed.

Lemma EncodeRune_cons r : exists b s, EncodeRune r = b :: s.
Proof. unfold EncodeRune. repeat case_match; eauto. Qed.

Lemma runes_encode rs : Forall (fun r => valid_rune r = true) rs -> runes (encode rs) = rs.
Proof.
  induction 1 as [|r rs Hr _ IH]; [done|]. unfold encode. cbn [mbind list_bind]. fold (encode rs).
  pose proof (DecodeRune_Encode r (encode rs) Hr) as Hd. destruct (EncodeRune_cons r) as (b & s & E).
  unfold runes. rewrite E in *. cbn [app] in *. cbn [runes_skip]. rewrite Hd. cbn [length].
  rewrite Nat.sub_succ, Nat.sub_0_r, runes_skip_app by done. f_equal. exact IH.
Qed.

(** ** Command lines as they are written *)

(** A piece of a word: plain runes, 'quoted' or "quoted" ones, or an escaped one. *)
Inductive piece := Plain (rs : list Z) | Quoted (rs : list Z) | Doubled (rs : list Z) | Escaped (r : Z).
Inductive sep := Semi | AndIf | OrIf | Pipe | Amp | NewLine.

(** The runes the shell reads as more than themselves. *)
Definition special : gostring := [ "\"; "'"; x22; " "; x09; ">"; "<"; "|"; nl; ";"; "&"; "("; ")"; "`"; "{"; "}"; "$"; "#" ]%byte.

Definition piece_ok (p : piece) : Prop :=
  match p with
  | Plain rs => rs <> [] /\ Forall (fun r => valid_rune r = true /\ in_set special r = false) rs
  | Quoted rs => Forall (fun r => valid_rune r = true /\ one "'" r = false) rs
  | Doubled rs => Forall (fun r => valid_rune r = true) rs
  | Escaped r => valid_rune r = true /\ one nl r = false
  end.

Definition rune (b : byte) : Z := bz b.
Definition escape (r : Z) : list Z := if in_set (dq ++ "\$`") r then [rune "\"; r] else [r].

Definition show_piece (p : piece) : list Z :=
  match p with
  | Plain rs => rs
  | Quoted rs => rune "'" :: rs ++ [rune "'"]
  | Doubled rs => rune x22 :: (rs ≫= escape) ++ [rune x22]
  | Escaped r => [rune "\"; r]
  end.
Definition mean_piece (p : piece) : list Z := match p with Plain rs | Quoted rs | Doubled rs => rs | Escaped r => [r] end.

Definition show_word (w : list piece) : list Z := w ≫= show_piece.
Definition mean_word (w : list piece) : gostring := encode (w ≫= mean_piece).

Definition words_of (c : list (list piece)) : list gostring := mean_word <$> c.

Fixpoint show_cmd (ws : list (list piece)) : list Z :=
  match ws with
  | [] => []
  | [w] => show_word w
  | w :: ws' => show_word w ++ rune " " :: show_cmd ws'
  end.

Definition show_sep (s : sep) : list Z :=
  bz <$> match s with Semi => bs "; " | AndIf => bs " && " | OrIf => bs " || " | Pipe => bs " | " | Amp => bs " & " | NewLine => [nl] end.

(** Commands each followed by a separator, and a last one. *)
Fixpoint show_line (l : list (list (list piece) * sep)) (c : list (list piece)) : list Z :=
  match l with
  | [] => show_cmd c
  | (d, s) :: l' => show_cmd d ++ show_sep s ++ show_line l' c
  end.

Definition cmd_ok (c : list (list piece)) : Prop := c <> [] /\ Forall (fun w => w <> [] /\ Forall piece_ok w) c.

(** ** The lexer reads them *)

Definition lex (lx : Lexer) (rs : list Z) : Lexer := lex_loop (length rs) lx rs.

Lemma in_set_one set r b : in_set set r = false -> b ∈ set -> one b r = false.
Proof.
  intros H Hb. unfold one. apply not_true_is_false. intros Hr. apply not_true_iff_false in H. apply H.
  apply existsb_exists. exists b. rewrite <- list_elem_of_In. split; [done|]. by rewrite Z.eqb_sym.
Qed.

Lemma single_length rs : forall lx, length (single lx rs).2 <= length rs.
Proof. induction rs as [|c rs IH]; intros lx; cbn; [done|]. destruct (one _ c); cbn; [lia|]. specialize (IH (write c lx)). lia. Qed.

Lemma double_length n : forall lx rs, length rs <= n -> length (double lx rs).2 <= length rs.
Proof.
  induction n as [|n IH]; intros lx [|c rs] Hn; cbn [length] in *; [cbn; lia|lia|cbn; lia|]. cbn [double].
  destruct (one x22 c); [cbn; lia|]. destruct rs as [|d rs]; [cbn; lia|]. cbn [length] in *. destruct (_ && _).
  - pose proof (IH (write d lx) rs ltac:(lia)). lia.
  - pose proof (IH (write c lx) (d :: rs) ltac:(cbn; lia)). cbn [length] in *. lia.
Qed.

Lemma skip_while_length f rs : length (skip_while f rs) <= length rs.
Proof. induction rs as [|c rs IH]; cbn; [done|]. destruct (f c); cbn; lia. Qed.

Lemma step_length lx c rs : length (step lx c rs).2 <= length rs.
Proof.
  pose proof (single_length rs (inWord lx)). pose proof (double_length (length rs) (inWord lx) rs ltac:(lia)).
  assert (forall f, length (tail (skip_while f rs)) <= length rs) as Ht.
  { intros f. pose proof (skip_while_length f rs). destruct (skip_while f rs); cbn in *; lia. }
  unfold step, redirect. repeat case_match; cbn [snd length] in *; try lia; try apply Ht.
  all: do 2 (etrans; [apply skip_while_length|]); apply skip_while_length.
Qed.

Lemma lex_loop_fuel fuel : forall lx rs, length rs <= fuel -> lex_loop fuel lx rs = lex lx rs.
Proof.
  induction fuel as [fuel IH] using lt_wf_ind. intros lx [|c rs] Hf; [by destruct fuel|].
  destruct fuel as [|fuel]; cbn in *; [lia|]. unfold lex. cbn [length lex_loop].
  pose proof (step_length lx c rs). destruct (step lx c rs) as [lx' rs']. cbn in *.
  rewrite IH by lia. destruct (decide (length rs = fuel)) as [->|]; [by rewrite IH by lia|]. by rewrite (IH (length rs)) by lia.
Qed.

Lemma lex_step lx c rs : lex lx (c :: rs) = let '(lx', rs') := step lx c rs in lex lx' rs'.
Proof.
  unfold lex at 1. cbn [length lex_loop]. pose proof (step_length lx c rs).
  destruct (step lx c rs). cbn in *. by apply lex_loop_fuel.
Qed.

Definition writes (rs : list Z) (lx : Lexer) : Lexer :=
  MkLexer (lx_cmds lx) (lx_words lx) (lx_cur lx ++ encode rs) true (lx_piped lx).

Lemma write_writes r rs lx : writes rs (write r lx) = writes (r :: rs) lx.
Proof. unfold writes, write. cbn. unfold encode. cbn. by rewrite app_assoc. Qed.

Lemma writes_writes rs rs' lx : writes rs' (writes rs lx) = writes (rs ++ rs') lx.
Proof. unfold writes, encode. cbn. by rewrite bind_app, app_assoc. Qed.

Lemma writes_nil lx : lx_inTok lx = true -> writes [] lx = lx.
Proof. destruct lx; cbn. intros ->. unfold writes. cbn. by rewrite app_nil_r. Qed.

Lemma writes_inWord rs lx : writes rs (inWord lx) = writes rs lx.
Proof. done. Qed.

Lemma single_spec rs t : forall lx, lx_inTok lx = true -> Forall (fun r => one "'" r = false) rs ->
  single lx (rs ++ rune "'" :: t) = (writes rs lx, t).
Proof.
  induction rs as [|r rs IH]; intros lx Ht Hr; cbn [app single].
  - by rewrite writes_nil.
  - apply Forall_cons in Hr as [Hr Hrs]. rewrite Hr, IH, write_writes by done. done.
Qed.

Lemma double_spec rs t : forall lx, lx_inTok lx = true ->
  double lx ((rs ≫= escape) ++ rune x22 :: t) = (writes rs lx, t).
Proof.
  induction rs as [|r rs IH]; intros lx Ht.
  - cbn. by rewrite writes_nil.
  - rewrite bind_cons, <- app_assoc. remember ((rs ≫= escape) ++ rune x22 :: t) as u eqn:Hu. unfold escape at 1.
    destruct (in_set (dq ++ "\$`") r) eqn:E; cbn [app double].
    + change (one x22 (rune "\")) with false. change (one "\" (rune "\")) with true. rewrite E. cbn [andb].
      by rewrite IH, write_writes.
    + assert (one x22 r = false /\ one "\" r = false) as [-> ->].
      { split; (apply (in_set_one (dq ++ "\$`")); [done|]); apply (bool_decide_unpack _); vm_compute; exact I. }
      cbn [andb]. destruct u as [|n u']; [destruct (rs ≫= escape); discriminate|]. by rewrite IH, write_writes.
Qed.

(** A plain rune is written. *)
Lemma plain_step lx r rs : in_set special r = false -> step lx r rs = (write r lx, rs).
Proof.
  intros Hr. unfold step.
  assert (forall b, b ∈ special -> one b r = false) as Ho by (intros b; by apply in_set_one).
  assert (in_set [nl; ";"; "&"; "("; ")"; "`"]%byte r = false) as ->.
  { apply not_true_is_false. intros (b & Hb & Hbr)%existsb_exists. apply not_true_iff_false in Hr. apply Hr.
    apply existsb_exists. exists b. split; [|done]. revert b Hb Hbr. clear. cbn. naive_solver. }
  rewrite !Ho by (apply (bool_decide_unpack _); vm_compute; exact I). done.
Qed.

Lemma lex_piece p t lx : piece_ok p -> lex lx (show_piece p ++ t) = lex (writes (mean_piece p) lx) t.
Proof.
  destruct p as [rs|rs|rs|r]; cbn [piece_ok show_piece mean_piece].
  - intros [Hne Hrs]. destruct rs as [|r rs]; [done|]. clear Hne. revert lx r Hrs.
    induction rs as [|r' rs IH]; intros lx r Hrs; apply Forall_cons in Hrs as [[_ Hr] Hrs]; cbn [app].
    + rewrite lex_step, plain_step by done. rewrite <- write_writes. by rewrite writes_nil.
    + rewrite lex_step, plain_step by done. rewrite <- write_writes. by apply (IH (write r lx) r').
  - intros Hrs. cbn [app]. rewrite lex_step, <- app_assoc. change (step lx (rune "'") ?rs) with (single (inWord lx) rs).
    cbn [app]. rewrite single_spec; [by rewrite writes_inWord|done|]. by eapply Forall_impl; [exact Hrs|]; intros x [_ ?].
  - intros _. cbn [app]. rewrite lex_step, <- app_assoc. change (step lx (rune x22) ?rs) with (double (inWord lx) rs).
    cbn [app]. rewrite double_spec by done. by rewrite writes_inWord.
  - intros [_ Hr]. cbn [app]. rewrite lex_step. change (step lx (rune "\") (r :: t)) with (if one nl r then lx else write r lx, t).
    rewrite Hr. rewrite <- (writes_nil (write r lx)) by done. by rewrite write_writes.
Qed.

Lemma lex_word w t : forall lx, Forall piece_ok w -> w <> [] -> lex lx (show_word w ++ t) = lex (writes (w ≫= mean_piece) lx) t.
Proof.
  induction w as [|p w IH]; intros lx Hw Hne; [done|]. apply Forall_cons in Hw as [Hp Hw].
  unfold show_word. rewrite !bind_cons, <- app_assoc, lex_piece by done. destruct w as [|q w].
  - cbn. by rewrite app_nil_r.
  - fold (show_word (q :: w)). rewrite IH by done. by rewrite writes_writes.
Qed.

(** Between words: the words of the command read so far, and no word begun. *)
Definition ready (cmds : list (list gostring)) (words : list gostring) (piped : list bool) : Lexer := MkLexer cmds words [] false piped.

Lemma endWord_writes cmds words piped rs : endWord (writes rs (ready cmds words piped)) = ready cmds (words ++ [encode rs]) piped.
Proof. done. Qed.

(** A command read: the lexer's state is its words, but for the end of the last. *)
Lemma lex_cmd c t : forall cmds words piped, cmd_ok c ->
  exists lx, lex (ready cmds words piped) (show_cmd c ++ t) = lex lx t /\ endWord lx = ready cmds (words ++ words_of c) piped.
Proof.
  induction c as [|w c IH]; intros cmds words piped [Hne Hc]; [done|]. apply Forall_cons in Hc as [[Hw Hp] Hc].
  destruct c as [|v c].
  - exists (writes (w ≫= mean_piece) (ready cmds words piped)). cbn [show_cmd]. by rewrite lex_word.
  - change (show_cmd (w :: v :: c)) with (show_word w ++ rune " " :: show_cmd (v :: c)).
    rewrite <- app_assoc, lex_word by done. cbn [app]. rewrite lex_step.
    change (step ?lx (rune " ") ?rs) with (endWord lx, rs). cbv beta iota. rewrite endWord_writes.
    destruct (IH cmds (words ++ [encode (w ≫= mean_piece)]) piped) as (lx & -> & Hlx); [by split|].
    exists lx. split; [done|]. by rewrite Hlx, <- app_assoc.
Qed.

Lemma endCmd_ready lx cmds words piped : endWord lx = ready cmds words piped -> words <> [] ->
  endCmd lx = ready (cmds ++ [words]) [] (piped ++ [false]).
Proof. intros H Hw. unfold endCmd. rewrite H. by destruct words. Qed.

Lemma endWord_ready lx cmds words piped : endWord lx = ready cmds words piped -> endWord (endWord lx) = ready cmds words piped.
Proof. intros ->. done. Qed.

(** A separator ends the command. *)
Lemma lex_sep s t lx cmds words piped : endWord lx = ready cmds words piped -> words <> [] ->
  exists piped', lex lx (show_sep s ++ t) = lex (ready (cmds ++ [words]) [] piped') t.
Proof.
  intros H Hw. pose proof (endCmd_ready _ _ _ _ H Hw) as He. pose proof (endWord_ready _ _ _ _ H) as H'.
  pose proof (endCmd_ready _ _ _ _ H' Hw) as He'.
  assert (forall lx rs, step lx (bz " ") rs = (endWord lx, rs)) as Hsp by done.
  assert (forall lx rs, step lx (bz ";") rs = (endCmd lx, rs)) as Hse by done.
  assert (forall lx rs, step lx (bz "&") rs = (endCmd lx, rs)) as Ham by done.
  assert (forall lx rs, step lx (bz nl) rs = (endCmd lx, rs)) as Hnl by done.
  assert (forall lx rs, step lx (bz "|") (bz "|" :: rs) = (endCmd lx, rs)) as Hor by done.
  assert (forall lx rs, step lx (bz "|") (bz " " :: rs) = (pipe (endCmd lx), bz " " :: rs)) as Hpi by done.
  destruct s; cbn [show_sep fmap list_fmap app]; change (bz <$> ?l) with (map bz l).
  - eexists. change (map bz (bs "; ") ++ t) with (bz ";" :: bz " " :: t). by rewrite lex_step, Hse, lex_step, Hsp, He.
  - eexists. change (map bz (bs " && ") ++ t) with (bz " " :: bz "&" :: bz "&" :: bz " " :: t).
    by rewrite lex_step, Hsp, lex_step, Ham, lex_step, Ham, lex_step, Hsp, He'.
  - eexists. change (map bz (bs " || ") ++ t) with (bz " " :: bz "|" :: bz "|" :: bz " " :: t).
    by rewrite lex_step, Hsp, lex_step, Hor, lex_step, Hsp, He'.
  - eexists. change (map bz (bs " | ") ++ t) with (bz " " :: bz "|" :: bz " " :: t).
    by rewrite lex_step, Hsp, lex_step, Hpi, lex_step, Hsp, He'.
  - eexists. change (map bz (bs " & ") ++ t) with (bz " " :: bz "&" :: bz " " :: t).
    by rewrite lex_step, Hsp, lex_step, Ham, lex_step, Hsp, He'.
  - eexists. change (map bz [nl] ++ t) with (bz nl :: t). by rewrite lex_step, Hnl, He.
Qed.

Lemma mean_nonempty c : cmd_ok c -> words_of c <> [].
Proof. intros [H _]. by destruct c. Qed.

Lemma lex_line l c : forall cmds piped, Forall (fun d => cmd_ok d.1) l -> cmd_ok c ->
  lx_cmds (endCmd (lex (ready cmds [] piped) (show_line l c))) = cmds ++ ((fun d => words_of d.1) <$> l) ++ [words_of c].
Proof.
  induction l as [|[d s] l IH]; intros cmds piped Hl Hc.
  - cbn [show_line]. destruct (lex_cmd c [] cmds [] piped Hc) as (lx & Hlx & He). rewrite app_nil_r in Hlx. rewrite Hlx.
    cbn [app] in He. unfold lex. cbn [length lex_loop]. by rewrite (endCmd_ready _ _ _ _ He (mean_nonempty c Hc)).
  - apply Forall_cons in Hl as [Hd Hl]. cbn [show_line].
    destruct (lex_cmd d (show_sep s ++ show_line l c) cmds [] piped Hd) as (lx & -> & He). cbn [app] in He.
    destruct (lex_sep s (show_line l c) lx _ _ _ He (mean_nonempty d Hd)) as (piped' & ->).
    rewrite IH by done. rewrite fmap_cons. cbn [fst]. by rewrite <- app_assoc.
Qed.

Lemma Forall_bind {A B} (P : B -> Prop) (f : A -> list B) l : Forall (fun x => Forall P (f x)) l -> Forall P (l ≫= f).
Proof. induction 1; cbn; [constructor|]. by apply Forall_app. Qed.

Lemma show_piece_valid p : piece_ok p -> Forall (fun r => valid_rune r = true) (show_piece p).
Proof.
  destruct p as [rs|rs|rs|r]; cbn [piece_ok show_piece].
  - intros [_ H]. eapply Forall_impl; [exact H|]. naive_solver.
  - intros H. constructor; [done|]. apply Forall_app. split; [|by repeat constructor]. eapply Forall_impl; [exact H|]. naive_solver.
  - intros H. constructor; [done|]. apply Forall_app. split; [|by repeat constructor]. apply Forall_bind.
    eapply Forall_impl; [exact H|]. intros r Hr. unfold escape. destruct (in_set _ r); by repeat constructor.
  - intros [H _]. by repeat constructor.
Qed.

Lemma show_cmd_valid c : cmd_ok c -> Forall (fun r => valid_rune r = true) (show_cmd c).
Proof.
  intros [_ H]. induction H as [|w c [_ Hw] Hc IH]; [constructor|].
  assert (Forall (fun r => valid_rune r = true) (show_word w)) as Hv.
  { apply Forall_bind. eapply Forall_impl; [exact Hw|]. apply show_piece_valid. }
  destruct c as [|v c]; [done|]. change (show_cmd (w :: v :: c)) with (show_word w ++ rune " " :: show_cmd (v :: c)).
  apply Forall_app. split; [done|]. by constructor.
Qed.

Lemma show_line_valid l c : Forall (fun d => cmd_ok d.1) l -> cmd_ok c -> Forall (fun r => valid_rune r = true) (show_line l c).
Proof.
  intros Hl Hc. induction Hl as [|[d s] l Hd Hl IH]; cbn [show_line]; [by apply show_cmd_valid|].
  apply Forall_app. split; [by apply show_cmd_valid|]. apply Forall_app. split; [|done]. destruct s; by repeat constructor.
Qed.

(** The text of a command line. *)
Definition line_text (l : list (list (list piece) * sep)) (c : list (list piece)) : gostring := encode (show_line l c).

Lemma shellCommands_lexes l c : Forall (fun d => cmd_ok d.1) l -> cmd_ok c ->
  shellCommands (line_text l c) = ((fun d => words_of d.1) <$> l) ++ [words_of c].
Proof.
  intros Hl Hc. unfold shellCommands, lexShell, line_text. rewrite runes_encode by by apply show_line_valid.
  apply (lex_line l c [] []); done.
Qed.

(** The lexer reads back every command line of words, however they are quoted and
    separated: each simple command, in order, as its words without their quotes. *)
Theorem shellCommands_show l c :
  Forall (fun d => cmd_ok d.1) l -> cmd_ok c ->
  shellCommands (line_text l c) = ((fun d => words_of d.1) <$> l) ++ [words_of c].
Proof. apply shellCommands_lexes. Qed.

(** FOO=1 git tag -m 'a && b' "v$1"; ls\ -l *)
Definition sample_line : list (list (list piece) * sep) :=
  [([[Plain (bz <$> bs "FOO=1")]; [Plain (bz <$> bs "git")]; [Plain (bz <$> bs "tag")]; [Plain (bz <$> bs "-m")];
     [Quoted (bz <$> bs "a && b")]; [Doubled (bz <$> bs "v$1")]], Semi)].
Definition sample_last : list (list piece) := [[Plain (bz <$> bs "ls"); Escaped (bz " "); Plain (bz <$> bs "-l")]].

Lemma sample_ok : Forall (fun d => cmd_ok d.1) sample_line /\ cmd_ok sample_last.
Proof.
  split; [apply Forall_singleton|]; (split; [done|]); repeat (constructor || split); done.
Qed.

Lemma shellCommands_show_witness :
  line_text sample_line sample_last = bs "FOO=1 git tag -m 'a && b' " ++ dq ++ bs "v\$1" ++ dq ++ bs "; ls\ -l" /\
  shellCommands (line_text sample_line sample_last) =
    [[bs "FOO=1"; bs "git"; bs "tag"; bs "-m"; bs "a && b"; bs "v$1"]; [bs "ls -l"]].
Proof.
  split; [vm_compute; reflexivity|]. exact (shellCommands_show sample_line sample_last (proj1 sample_ok) (proj2 sample_ok)).
Defined.
