(* ===== verification/Domains.v ===== *)
(** Which hosts a workspace may reach: the domain patterns of internal/sandbox/profile.go,
    their order, intersection and cover (egressnet.go), the matcher (match.go), and the
    CONNECT proxy's decision (proxy.go). *)
From S2P Require Import Prelude Regex Markdown Spec Shell.

(** ** Patterns *)

(** validateDomainPattern: whether an entry is a host name, or one with a single leading
    wildcard label. *)
Definition validateDomainPattern (d : gostring) : bool :=
  if d =s "" then false
  else if HasPrefix d "*." then
    let rest := drop 2 d in negb ((rest =s "") || Contains rest "*")
  else negb (Contains d "*").

(** domainCovers: whether the policy's pattern [p] authorizes the requested pattern [r]. *)
Definition domainCovers (p r : gostring) : bool :=
  if p =s r then true
  else if negb (HasPrefix p "*.") then false
  else
    let suffix := drop 1 p in
    if HasPrefix r "*." then HasSuffix (drop 1 r) suffix else HasSuffix r suffix.

(** ** Cases *)

(** What the allowlists rely on of strings.ToLower: a trimmed and lowered string is trimmed
    and lowered. *)
Class Lowering (ToLower : gostring -> gostring) : Prop :=
  lowered_fixed : forall s, ToLower (TrimSpace (ToLower (TrimSpace s))) = ToLower (TrimSpace s).

(** strings.ToLower on ASCII. *)
Definition lower_byte (b : byte) : byte :=
  let z := bz b in if between 65 90 z then byte_of (z + 32) else b.
Definition ascii_lower (s : gostring) : gostring := lower_byte <$> s.

Section egress.
Context (ToLower : gostring -> gostring).

Definition norm (d : gostring) : gostring := ToLower (TrimSpace d).

Fixpoint sorted_loop (seen : gset gostring) (domains : list gostring) : list gostring :=
  match domains with
  | [] => []
  | d :: ds =>
      let d := norm d in
      if (d =s "") || bool_decide (d ∈ seen) then sorted_loop seen ds else d :: sorted_loop ({[d]} ∪ seen) ds
  end.

Definition SortedDomains (domains : list gostring) : list gostring := sort_Strings (sorted_loop ∅ domains).

(** Whether a pattern of the policy authorizes [r]. *)
Definition authorized (pol : list gostring) (r : gostring) : bool := existsb (fun a => domainCovers a r) pol.

(** IntersectDomains: what is granted of [requested], and what is refused. *)
Definition IntersectDomains (requested allowed : list gostring) : list gostring * list gostring :=
  let req := SortedDomains requested in
  let pol := SortedDomains allowed in
  (List.filter (authorized pol) req, List.filter (fun r => negb (authorized pol r)) req).

(** ** The matcher *)

Record Matcher := MkMatcher { m_exact : gset gostring; m_suffixes : list gostring }.

Definition matcher_step (m : Matcher) (p : gostring) : Matcher :=
  let p := norm p in
  if p =s "" then m
  else
    let '(rest, ok) := CutPrefix p "*." in
    if ok then MkMatcher (m_exact m) (m_suffixes m ++ ["." ++ rest])
    else MkMatcher ({[p]} ∪ m_exact m) (m_suffixes m).

Definition NewMatcher (patterns : list gostring) : Matcher := foldl matcher_step (MkMatcher ∅ []) patterns.

(** The name Allowed looks up: lowered, without its port and brackets. *)
Definition hostname (host : gostring) : gostring :=
  let host := ToLower host in
  let host :=
    match LastIndex host ":" with
    | Some i => if negb (Contains host "]") || HasSuffix (take i host) "]" then take i host else host
    | None => host
    end in
  Trim host [bs "["; bs "]"].

Definition Allowed (m : Matcher) (host : gostring) : bool :=
  let h := hostname host in
  bool_decide (h ∈ m_exact m) || existsb (HasSuffix h) (m_suffixes m).

(** ** The proxy *)

(** net.SplitHostPort; [None] for an error. *)
Definition net_SplitHostPort (hostport : gostring) : option (gostring * gostring) :=
  match LastIndex hostport ":" with
  | None => None
  | Some i =>
      let unexpected j k := Contains (drop j hostport) "[" || Contains (drop k hostport) "]" in
      let port := drop (S i) hostport in
      if HasPrefix hostport "[" then
        match Index hostport "]" with
        | Some e => if decide (S e = i) then
                      if unexpected 1 (S e) then None else Some (drop 1 (take e hostport), port)
                    else None
        | None => None
        end
      else
        let host := take i hostport in
        if Contains host ":" || unexpected 0 0 then None else Some (host, port)
  end.

(** splitHostPort *)
Definition splitHostPort (authority : gostring) : gostring * gostring :=
  default (authority, bs "443") (net_SplitHostPort authority).

(** net.JoinHostPort *)
Definition net_JoinHostPort (host port : gostring) : gostring :=
  if Contains host ":" then "[" ++ host ++ "]:" ++ port else host ++ ":" ++ port.

Record SystemRoute := MkSystemRoute { sr_Host : gostring; sr_Port : gostring; sr_Target : gostring; sr_Reason : gostring }.

Definition route_key (r : SystemRoute) : gostring := ToLower (sr_Host r) ++ ":" ++ sr_Port r.
Definition complete (r : SystemRoute) : bool := negb ((sr_Host r =s "") || (sr_Port r =s "") || (sr_Target r =s "")).

Record Proxy := MkProxy { px_matcher : Matcher; px_jobID : gostring; px_allowedPorts : gset gostring;
  px_systemRoutes : gmap gostring SystemRoute }.

Definition route_step (routes : gmap gostring SystemRoute) (r : SystemRoute) : gmap gostring SystemRoute :=
  if complete r then <[route_key r := r]> routes else routes.

(** NewProxy, of its configuration's matcher, job, ports and routes. *)
Definition NewProxy (matcher : option Matcher) (jobID : gostring) (ports : list gostring) (routes : list SystemRoute) : Proxy :=
  MkProxy (default (NewMatcher []) matcher) jobID
    (list_to_set (match ports with [] => [bs "443"] | _ => ports end)) (foldl route_step ∅ routes).

(** A line of the trail: its timestamp and duration are the clock's. *)
Record EgressAudit := MkEgressAudit { ea_JobID : gostring; ea_Host : gostring; ea_Port : gostring;
  ea_Decision : gostring; ea_Reason : gostring; ea_BytesUp : Z; ea_BytesDown : Z }.

Definition decisionAllowed : gostring := "allowed".
Definition decisionDenied : gostring := "denied".

(** What a request meets: the dial's error, whether the client's connection can be taken
    over and answered, and the bytes each way. *)
Record Tunnel := MkTunnel { tn_dial : option gostring; tn_hijack : bool; tn_answer : bool; tn_up : Z; tn_down : Z }.

(** What a request leads to: the address dialled, the lines of the trail, whether the
    client gets its tunnel, and the status it is answered with otherwise. *)
Record Outcome := MkOutcome { oc_dialled : option gostring; oc_trail : list EgressAudit; oc_open : bool; oc_status : Z }.

(** tunnel *)
Definition tunnel (p : Proxy) (t : Tunnel) (host port dialAddr reason : gostring) : Outcome :=
  match tn_dial t with
  | Some err => MkOutcome (Some dialAddr) [MkEgressAudit (px_jobID p) host port decisionDenied ("dial failed: " ++ err) 0 0] false 502
  | None =>
      if negb (tn_hijack t) then MkOutcome (Some dialAddr) [] false 500
      else if negb (tn_answer t) then MkOutcome (Some dialAddr) [] false 0
      else MkOutcome (Some dialAddr) [MkEgressAudit (px_jobID p) host port decisionAllowed reason (tn_up t) (tn_down t)] true 200
  end.

(** handle *)
Definition handle (p : Proxy) (t : Tunnel) (method authority : gostring) : Outcome :=
  if method <>s "CONNECT" then MkOutcome None [] false 405
  else
    let '(host, port) := splitHostPort authority in
    match px_systemRoutes p !! (ToLower host ++ ":" ++ port) with
    | Some route => tunnel p t host port (sr_Target route) (sr_Reason route)
    | None =>
        if negb (bool_decide (port ∈ px_allowedPorts p)) then
          MkOutcome None [MkEgressAudit (px_jobID p) host port decisionDenied "port not allowed" 0 0] false 403
        else if negb (Allowed (px_matcher p) host) then
          MkOutcome None [MkEgressAudit (px_jobID p) host port decisionDenied "domain not authorized" 0 0] false 403
        else tunnel p t host port (net_JoinHostPort host port) ""
    end.

End egress.
