(* ===== verification/DomainFacts.v ===== *)
(** What the patterns mean, and that an intersection with the policy never widens it. *)
From S2P Require Import Prelude Regex Markdown Spec Shell Domains.

(** ** Lowering *)

Lemma lower_byte_cases b : lower_byte b = b \/ (65 <= bz b <= 90 /\ bz (lower_byte b) = bz b + 32)%Z.
Proof. destruct b; vm_compute; (by left) || (right; split; [split; discriminate|reflexivity]). Qed.

Lemma lower_byte_idem b : lower_byte (lower_byte b) = lower_byte b.
Proof. by destruct b. Qed.

(** Bytes a lowering neither changes nor produces. *)
Definition caseless (b : byte) : bool := negb (between 65 90 (bz b)) && negb (between 97 122 (bz b)).

Lemma lower_caseless c b : caseless c = true -> Byte.eqb c (lower_byte b) = Byte.eqb c b.
Proof.
  unfold caseless, between. intros H. destruct (lower_byte_cases b) as [->|[H1 H2]]; [done|].
  assert (c <> b /\ c <> lower_byte b) as [Hb Hl].
  { split; intros ->; rewrite ?H2 in H; revert H; repeat (case_match || destruct (Z.leb_spec _ _)); simpl; try done; lia. }
  rewrite <- byte_eqb_neq in Hb, Hl. by rewrite Hb, Hl.
Qed.

Lemma lower_HasPrefix u s : forallb caseless u = true -> HasPrefix (ascii_lower s) u = HasPrefix s u.
Proof.
  revert s. induction u as [|c u IH]; intros s H; [done|]. apply andb_true_iff in H as [Hc Hu].
  destruct s as [|b s]; [done|]. cbn [ascii_lower fmap list_fmap HasPrefix]. rewrite lower_caseless by done. f_equal. by apply IH.
Qed.

Lemma lower_no_unit units s : Forall (fun u => forallb caseless u = true) units -> no_unit units s -> no_unit units (ascii_lower s).
Proof.
  intros Hu H. apply Forall_forall. intros u Hin. rewrite lower_HasPrefix; [by eapply Forall_forall in H|by eapply Forall_forall in Hu].
Qed.

Lemma spaces_caseless : Forall (fun u => forallb caseless u = true) spaces /\ Forall (fun u => forallb caseless u = true) (map (@rev byte) spaces).
Proof. split; repeat constructor. Qed.

#[export] Instance ascii_lowering : Lowering ascii_lower.
Proof.
  intros s. set (t := TrimSpace s). assert (no_unit spaces t /\ no_unit (map (@rev byte) spaces) (rev t)) as [H1 H2].
  { unfold t, TrimSpace. split; [apply no_unit_Trim, spaces_nonempty|]. unfold Trim, TrimRight. rewrite rev_involutive.
    apply (trim_left_skip_no_unit _ 0). apply nonempty_units_rev, spaces_nonempty. }
  assert (TrimSpace (ascii_lower t) = ascii_lower t) as ->.
  { unfold TrimSpace, Trim. rewrite trim_left_no_unit_id by (apply lower_no_unit; [apply spaces_caseless|done]).
    unfold TrimRight. replace (rev (ascii_lower t)) with (ascii_lower (rev t)) by apply map_rev.
    pose proof (trim_left_no_unit_id (map (@rev byte) spaces) (ascii_lower (rev t))) as E. unfold TrimLeft in E.
    rewrite E by (apply lower_no_unit; [apply spaces_caseless|done]). unfold ascii_lower. rewrite <- map_rev. by rewrite rev_involutive. }
  unfold ascii_lower. rewrite <- list_fmap_compose. apply list_fmap_ext. intros i b _. apply lower_byte_idem.
Qed.

(** ** Patterns and the hosts they match *)

(** The hosts a pattern stands for: itself, or those inside the wildcard's suffix. *)
Inductive matches : gostring -> gostring -> Prop :=
| match_exact p : HasPrefix p "*." = false -> matches p p
| match_wild rest x : matches ("*." ++ rest) (x ++ "." ++ rest).

Lemma matches_wild rest h : matches ("*." ++ rest) h <-> HasSuffix h ("." ++ rest) = true.
Proof.
  rewrite HasSuffix_spec. split.
  - intros H. remember (bs "*." ++ rest) as p eqn:E. destruct H as [p Hp|r x]; [by rewrite E, HasPrefix_app in Hp|].
    apply app_inv_head in E as ->. by exists x.
  - intros [x ->]. constructor.
Qed.

Lemma matches_plain p h : HasPrefix p "*." = false -> matches p h <-> h = p.
Proof.
  intros Hp. split; [|intros ->; by constructor]. intros H. destruct H as [p|r x]; [done|]. by rewrite HasPrefix_app in Hp.
Qed.

(** A covered pattern stands for fewer hosts. *)
Lemma covers_matches p r h : domainCovers p r = true -> matches r h -> matches p h.
Proof.
  unfold domainCovers. destruct (decide (p = r)) as [->|E]; [done|]. rewrite (bool_decide_false _ E).
  destruct (HasPrefix p "*.") eqn:Hp; [|done]. apply HasPrefix_spec in Hp as [s ->]. cbn [negb].
  change (drop 1 (bs "*." ++ s)) with (bs "." ++ s). intros Hc Hm. apply matches_wild.
  destruct (HasPrefix r "*.") eqn:Hr.
  - apply HasPrefix_spec in Hr as [t ->]. change (drop 1 (bs "*." ++ t)) with (bs "." ++ t) in Hc.
    apply matches_wild in Hm. apply HasSuffix_spec in Hm as [x ->]. apply HasSuffix_spec in Hc as [y Hy].
    apply HasSuffix_spec. exists (x ++ y). by rewrite Hy, app_assoc.
  - by apply (matches_plain r h Hr) in Hm as ->.
Qed.

Section egress.
Context (ToLower : gostring -> gostring).
Abbreviation norm := (norm ToLower).
Abbreviation SortedDomains := (SortedDomains ToLower).
Abbreviation NewMatcher := (NewMatcher ToLower).
Abbreviation Allowed := (Allowed ToLower).
Abbreviation IntersectDomains := (IntersectDomains ToLower).

(** ** The matcher *)

Definition admits (m : Matcher) (h : gostring) : Prop := h ∈ m_exact m \/ exists suf, suf ∈ m_suffixes m /\ HasSuffix h suf = true.

Lemma Allowed_admits m host : Allowed m host = true <-> admits m (hostname ToLower host).
Proof.
  unfold Allowed, admits. rewrite orb_true_iff, bool_decide_eq_true, existsb_exists. by setoid_rewrite list_elem_of_In.
Qed.

Lemma matcher_step_admits m p h :
  admits (matcher_step ToLower m p) h <-> admits m h \/ (norm p <> [] /\ matches (norm p) h).
Proof.
  unfold matcher_step. fold (norm p). destruct (decide (norm p = bs "")) as [E|E].
  { rewrite (bool_decide_true _ E). change (bs "") with (@nil byte) in E. naive_solver. }
  rewrite (bool_decide_false _ E). unfold CutPrefix. destruct (HasPrefix (norm p) "*.") eqn:Hp.
  - apply HasPrefix_spec in Hp as [s Hs]. rewrite Hs, matches_wild. change (drop (length (bs "*.")) (bs "*." ++ s)) with s.
    unfold admits. cbn [m_exact m_suffixes]. set_unfold. naive_solver.
  - rewrite (matches_plain _ _ Hp). unfold admits. cbn [m_exact m_suffixes]. set_unfold. change (bs "") with (@nil byte) in E. naive_solver.
Qed.

Lemma NewMatcher_admits ps h : admits (NewMatcher ps) h <-> exists p, p ∈ ps /\ norm p <> [] /\ matches (norm p) h.
Proof.
  unfold Domains.NewMatcher. assert (forall m, admits (foldl (matcher_step ToLower) m ps) h <->
    admits m h \/ exists p, p ∈ ps /\ norm p <> [] /\ matches (norm p) h) as ->.
  { induction ps as [|p ps IH]; intros m; cbn [foldl]; [|rewrite IH, matcher_step_admits]; set_unfold; naive_solver. }
  unfold admits. cbn [m_exact m_suffixes]. set_unfold. naive_solver.
Qed.

Lemma Allowed_iff ps host : Allowed (NewMatcher ps) host = true <->
  exists p, p ∈ ps /\ norm p <> [] /\ matches (norm p) (hostname ToLower host).
Proof. by rewrite Allowed_admits, NewMatcher_admits. Qed.

(** ** Sorted lists of domains *)

Lemma sorted_loop_elem x ds : forall seen, x ∈ sorted_loop ToLower seen ds <-> x <> [] /\ (x ∉ seen) /\ exists d, d ∈ ds /\ x = norm d.
Proof.
  induction ds as [|d ds IH]; intros seen; cbn [sorted_loop]; [set_solver|]. fold (norm d).
  destruct (decide (norm d = bs "")) as [E|E].
  { rewrite (bool_decide_true _ E). cbn [orb]. rewrite IH. change (bs "") with (@nil byte) in E. set_unfold. naive_solver. }
  rewrite (bool_decide_false _ E). change (bs "") with (@nil byte) in E. cbn [orb]. case_bool_decide as Hs; [|rewrite elem_of_cons]; rewrite IH; set_unfold.
  - naive_solver.
  - destruct (decide (x = norm d)) as [->|]; naive_solver.
Qed.

Lemma sorted_loop_NoDup ds : forall seen, NoDup (sorted_loop ToLower seen ds).
Proof.
  induction ds as [|d ds IH]; intros seen; cbn [sorted_loop]; [constructor|]. fold (norm d). case_match; [done|].
  constructor; [|done]. rewrite sorted_loop_elem. set_solver.
Qed.

Lemma elem_of_SortedDomains x ds : x ∈ SortedDomains ds <-> x <> [] /\ exists d, d ∈ ds /\ x = norm d.
Proof. unfold SortedDomains. rewrite sort_Strings_perm, sorted_loop_elem. set_solver. Qed.

Lemma SortedDomains_NoDup ds : NoDup (SortedDomains ds).
Proof. unfold SortedDomains. rewrite sort_Strings_perm. apply sorted_loop_NoDup. Qed.

(** A list of domains that SortedDomains leaves. *)
Definition canonical (ds : list gostring) : Prop :=
  Sorted str_le ds /\ NoDup ds /\ Forall (fun d => d <> [] /\ norm d = d) ds.

Lemma SortedDomains_canonical ds : Lowering ToLower -> canonical (SortedDomains ds).
Proof.
  intros HL. split; [apply sort_Strings_sorted|]. split; [apply SortedDomains_NoDup|]. apply Forall_forall. intros x Hx.
  apply elem_of_SortedDomains in Hx as (Hx & d & _ & ->). split; [done|]. apply HL.
Qed.

Lemma sorted_loop_id ds : forall seen, NoDup ds -> Forall (fun d => d <> [] /\ norm d = d) ds -> (forall d, d ∈ ds -> d ∉ seen) ->
  sorted_loop ToLower seen ds = ds.
Proof.
  induction ds as [|d ds IH]; intros seen HN HF Hs; [done|]. apply NoDup_cons in HN as [Hd HN]. apply Forall_cons in HF as [[Hne Hn] HF].
  cbn [sorted_loop]. fold (norm d). rewrite Hn, (bool_decide_false (d = bs "")) by done. rewrite bool_decide_false by set_solver. cbn [orb].
  f_equal. apply IH; [done..|]. set_solver.
Qed.

Lemma SortedDomains_id ds : canonical ds -> SortedDomains ds = ds.
Proof.
  intros (HS & HN & HF). unfold Domains.SortedDomains. rewrite sorted_loop_id by set_solver. by apply sort_Strings_id.
Qed.

Lemma canonical_filter f ds : canonical ds -> canonical (List.filter f ds).
Proof.
  intros (HS & HN & HF). split; [by apply Sorted_filter_str|]. split; [by apply NoDup_ListNoDup, List.NoDup_filter, NoDup_ListNoDup|].
  rewrite Forall_forall in HF |- *. intros d Hd. apply HF. apply list_elem_of_In, List.filter_In in Hd as [Hd _]. by apply list_elem_of_In.
Qed.

(** ** Intersection *)

Lemma authorized_spec pol r : authorized pol r = true <-> exists a, a ∈ pol /\ domainCovers a r = true.
Proof. unfold authorized. rewrite existsb_exists. by setoid_rewrite list_elem_of_In. Qed.

Lemma elem_of_granted r req pol : r ∈ fst (IntersectDomains req pol) <->
  r ∈ SortedDomains req /\ exists a, a ∈ SortedDomains pol /\ domainCovers a r = true.
Proof. cbn [fst Domains.IntersectDomains]. by rewrite list_elem_of_In, List.filter_In, <- list_elem_of_In, authorized_spec. Qed.

(** What a grant allows, the policy allows and the request asked for. *)
Lemma granted_narrows req pol host : Lowering ToLower ->
  Allowed (NewMatcher (fst (IntersectDomains req pol))) host = true ->
  Allowed (NewMatcher pol) host = true /\ Allowed (NewMatcher req) host = true.
Proof.
  intros HL. rewrite !Allowed_iff. intros (r & Hr & _ & Hm). apply elem_of_granted in Hr as (Hr & a & Ha & Hc).
  destruct (SortedDomains_canonical req HL) as (_ & _ & HF). rewrite Forall_forall in HF. destruct (HF r Hr) as [_ Hn]. rewrite Hn in Hm.
  apply elem_of_SortedDomains in Ha as (Hane & a' & Ha' & ->). apply elem_of_SortedDomains in Hr as (Hrne & r' & Hr' & ->).
  split; [exists a'; split; [done|]; split; [done|]; by eapply covers_matches|by exists r'].
Qed.

(** Nothing granted is refused when it is asked for again. *)
Lemma granted_again req pol : Lowering ToLower ->
  let g := fst (IntersectDomains req pol) in IntersectDomains g pol = (g, []).
Proof.
  intros HL g. unfold Domains.IntersectDomains. assert (SortedDomains g = g) as ->.
  { apply SortedDomains_id, canonical_filter, SortedDomains_canonical, HL. }
  assert (forall r, r ∈ g -> authorized (SortedDomains pol) r = true) as Hg.
  { intros r [_ Hr]%elem_of_granted. by apply authorized_spec. }
  clearbody g. f_equal; induction g as [|r g IH]; [done| |done|]; cbn [List.filter]; rewrite (Hg r) by (by left); cbn [negb].
  - f_equal. apply IH. intros x Hx. apply Hg. by right.
  - apply IH. intros x Hx. apply Hg. by right.
Qed.

(** ** The proxy *)

Lemma route_in (rs : list SystemRoute) k r : foldl (route_step ToLower) ∅ rs !! k = Some r ->
  r ∈ rs /\ complete r = true /\ route_key ToLower r = k.
Proof.
  assert (forall m, foldl (route_step ToLower) m rs !! k = Some r ->
    m !! k = Some r \/ (r ∈ rs /\ complete r = true /\ route_key ToLower r = k)) as H.
  { induction rs as [|x rs IH]; intros m; cbn [foldl]; [by left|]. intros H%IH. destruct H as [H|H]; [|set_solver].
    unfold route_step in H. destruct (complete x) eqn:E; [|by left]. apply lookup_insert_Some in H. set_solver. }
  intros Hk. by apply H in Hk as [Hk|Hk]; [|].
Qed.

Lemma tunnel_dials p t host port addr reason : oc_dialled (tunnel p t host port addr reason) = Some addr.
Proof. unfold tunnel. by repeat case_match. Qed.

(** The address a request is led to: a route's target, or the authority's own, on an
    allowed port and an allowed name. *)
Lemma handle_dials p t method authority a : oc_dialled (handle ToLower p t method authority) = Some a ->
  let '(host, port) := splitHostPort authority in
  (exists r, px_systemRoutes p !! (ToLower host ++ ":" ++ port) = Some r /\ a = sr_Target r) \/
  (port ∈ px_allowedPorts p /\ Allowed (px_matcher p) host = true /\ a = net_JoinHostPort host port).
Proof.
  unfold handle. case_match; [done|]. destruct (splitHostPort authority) as [host port]. destruct (_ !! _) as [r|].
  { rewrite tunnel_dials. intros [= <-]. left. by exists r. }
  destruct (decide (port ∈ px_allowedPorts p)) as [Hp|Hp]; [rewrite (bool_decide_true _ Hp)|by rewrite (bool_decide_false _ Hp)].
  destruct (Domains.Allowed _ _ host) eqn:Ha; cbn [negb]; [|discriminate].
  rewrite tunnel_dials. intros [= <-]. by right.
Qed.

End egress.
