(* ===== verification/PersonMatch.v ===== *)
(** A person's own words: the phrase of a person act and its matcher, the kinds of a
    prompt, and the transcript's check of a clause, of internal/apexv1/personact.go. *)
From S2P Require Import Prelude Regex Markdown Spec Shell.

(** ** The acts *)

Definition ActMilestoneApprove : gostring := "milestone approve".
Definition ActTweakApprove : gostring := "change approve".
Definition ActAnswer : gostring := "change answer".
Definition ActAcceptTask : gostring := "change accept".
Definition ActAcceptConfig : gostring := "project accept-config".
Definition ActAcceptRed : gostring := "milestone close --accept-red".
Definition ActAllowPendingHuman : gostring := "change archive --allow-pending-human".
Definition ActDecisionAccept : gostring := "decision accept".
Definition ActQuestionAnswer : gostring := "question answer".
Definition actionAcceptConfig : gostring := "accept the config".

(** PersonActSpec, with its act and whether it is a long run. *)
Definition PersonActs : list (gostring * bool) :=
  [ (ActMilestoneApprove, true); (ActTweakApprove, false); (ActAnswer, false); (ActAcceptTask, false); (ActAcceptConfig, false);
    (ActAcceptRed, true); (ActAllowPendingHuman, true); (ActDecisionAccept, false); (ActQuestionAnswer, false) ].

Record PersonCall := MkCall {
  pc_Act : gostring; pc_Target : gostring; pc_Task : gostring; pc_Text : gostring; pc_By : gostring;
  pc_ArgvSHA256 : gostring; pc_Line : gostring; pc_Literal : bool }.

(** Spec().Long *)
Definition Long (c : PersonCall) : bool :=
  match List.find (fun s => fst s =s pc_Act c) PersonActs with Some (_, long) => long | None => false end.

Definition answerLike (c : PersonCall) : bool := (pc_Act c =s ActAnswer) || (pc_Act c =s ActQuestionAnswer).

Definition Phrase (c : PersonCall) : gostring :=
  if (pc_Act c =s ActMilestoneApprove) || (pc_Act c =s ActTweakApprove) then bs "approve " ++ pc_Target c
  else if answerLike c then bs "answer " ++ pc_Target c ++ ": " ++ pc_Text c
  else if pc_Act c =s ActAcceptTask then bs "accept " ++ pc_Task c ++ " of " ++ pc_Target c
  else if pc_Act c =s ActAcceptConfig then actionAcceptConfig
  else if pc_Act c =s ActAcceptRed then bs "accept red on " ++ pc_Target c
  else if pc_Act c =s ActAllowPendingHuman then bs "allow pending human on " ++ pc_Target c
  else if pc_Act c =s ActDecisionAccept then bs "accept " ++ pc_Target c
  else [].

(** targetKey: the act and target a prompt may grant once. *)
Definition targetKey (c : PersonCall) : gostring := pc_Act c ++ [x00] ++ pc_Target c ++ [x00] ++ pc_Task c.

(** ArgvSHA256: words joined by NUL. *)
Definition ArgvSHA256 (sha256 : gostring -> gostring) (argv : list gostring) : gostring := sha256 (Join argv [x00]).

(** ** The kinds of a prompt *)

Definition promptTyped : gostring := "typed".
Definition promptNotification : gostring := "notification".
Definition promptDelivery : gostring := "delivery".
Definition DeliveryTag : gostring := "<ape-delivery ".
Definition harnessTagPrefixes : list gostring := [bs "<task-notification>"; bs "<system-reminder>"; bs "<local-command-"; DeliveryTag].

(** tagName: a letter, then letters, digits and - _ : . *)
Definition tagName (name : gostring) : bool :=
  match runes name with
  | [] => true
  | r :: rs => (c_lower r || c_upper r) && forallb (fun r => c_lower r || c_upper r || in_set "0123456789-_:." r) rs
  end.

(** A <name …>…</name> block at the start of a text, and what follows it. *)
Definition tag_block (s : gostring) : option gostring :=
  if negb (HasPrefix s "<") then None
  else match Index s ">" with
       | None => None
       | Some end_ =>
           if Nat.ltb end_ 2 then None
           else
             let inner := slice s 1 end_ in
             let name := match Cut inner " " with Some (a, _) => a | None => inner end in
             if (name =s "") || negb (tagName name) then None
             else snd <$> Cut (drop (S end_) s) (bs "</" ++ name ++ ">")
       end.

(** tagBlocksOnly's loop; each round drops a block, so the text's length bounds it. *)
Fixpoint tag_blocks (fuel blocks : nat) (s : gostring) : bool :=
  match fuel with
  | O => false
  | S fuel' =>
      let s := TrimSpace s in
      if s =s "" then Nat.ltb 0 blocks
      else match tag_block s with Some rest => tag_blocks fuel' (S blocks) rest | None => false end
  end.
Definition tagBlocksOnly (s : gostring) : bool := tag_blocks (S (length s)) 0 s.

Definition promptKindOf (prompt : gostring) : gostring :=
  let s := TrimSpace prompt in
  if Contains s DeliveryTag then promptDelivery
  else if existsb (HasPrefix s) harnessTagPrefixes then promptNotification
  else if tagBlocksOnly s then promptNotification
  else promptTyped.

(** ** The matcher *)

Definition negations : list gostring :=
  [ bs "not"; bs "no"; bs "never"; bs "dont"; bs "don't"; bs "wait"; bs "hold"; bs "cannot"; bs "nope"; bs "stop" ].
Definition isNegation (w : gostring) : bool := slices_Contains negations w || HasSuffix w "n't".

Record ptoken := MkToken { pt_s : gostring; pt_start : nat; pt_end : nat }.

(** The single quotes a word may hold, as runes and encoded. *)
Definition apostrophes : list Z := [39; 8217; 8216]%Z.
Definition apostrophe_units : list gostring := EncodeRune <$> apostrophes.

Definition sentenceEnds : gostring := [".";"!";"?";";";nl]%byte.
Definition is_end (b : byte) : bool := existsb (Byte.eqb b) sentenceEnds.

(** strings.IndexAny and strings.LastIndexAny + 1, of an ASCII set. *)
Fixpoint IndexEnd (s : gostring) : option nat :=
  match s with
  | [] => None
  | b :: s' => if is_end b then Some 0 else S <$> IndexEnd s'
  end.
Definition after_last_end (s : gostring) : nat :=
  match IndexEnd (rev s) with Some j => length s - j | None => 0 end.

Definition normSpace (s : gostring) : gostring := Join (Fields s) " ".

Definition quoteMax : nat := 160.
(** clip: at most [n] characters, an ellipsis marking the cut. *)
Definition clip (s : gostring) (n : nat) : gostring :=
  if Nat.leb (length (runes s)) n then s else encode (take (n - 1) (runes s)) ++ "…".

(** The runes of a string with their offsets, as range gives them. *)
Fixpoint rune_offsets (skip off : nat) (s : gostring) : list (nat * Z) :=
  match s with
  | [] => []
  | _ :: s' =>
      match skip with
      | S k => rune_offsets k (S off) s'
      | O => match DecodeRune s with
             | Some (r, w) => (off, r) :: rune_offsets (w - 1) (S off) s'
             | None => []
             end
      end
  end.

Section matcher.
(** Unicode tables of the Go library. *)
Context (IsLetter IsDigit : Z -> bool) (ToLower : gostring -> gostring).

(** words: the phrase's words, lowercased; an answer's text is matched apart. *)
Definition call_words (c : PersonCall) : list gostring :=
  Fields (ToLower (if answerLike c then bs "answer " ++ pc_Target c else Phrase c)).

Definition wordRune (r : Z) : bool :=
  IsLetter r || IsDigit r || one "-" r || one "_" r || existsb (Z.eqb r) apostrophes.

Definition tokenWord (w : gostring) : gostring :=
  ToLower (ReplaceAll (ReplaceAll (Trim w apostrophe_units) (EncodeRune 8217) "'") (EncodeRune 8216) "'").

Definition token_of (text : gostring) (a b : nat) : ptoken := MkToken (tokenWord (slice text a b)) a b.

Definition token_step (text : gostring) (acc : list ptoken * option nat) (ir : nat * Z) : list ptoken * option nat :=
  let '(out, start) := acc in
  let '(i, r) := ir in
  if wordRune r then (out, match start with Some a => Some a | None => Some i end)
  else match start with Some a => (out ++ [token_of text a i], None) | None => (out, None) end.

Definition promptTokens (text : gostring) : list ptoken :=
  let '(out, start) := foldl (token_step text) ([], None) (rune_offsets 0 0 text) in
  match start with Some a => out ++ [token_of text a (length text)] | None => out end.

(** The words after the target, within its sentence and at most three: none is a
    negation. *)
Fixpoint negated_after (end_ left : nat) (toks : list ptoken) : bool :=
  match left, toks with
  | S left', t :: toks' =>
      if Nat.ltb end_ (pt_end t) then false else if isNegation (pt_s t) then true else negated_after end_ left' toks'
  | _, _ => false
  end.

(** The phrase at the front of the tokens [ts] of [text]: the raw sentence. *)
Definition match_here (text : gostring) (c : PersonCall) (want : list gostring) (toks ts : list ptoken) : option gostring :=
  let found := take (length want) ts in
  if negb (bool_decide (pt_s <$> found = want)) then None
  else match head found, last found with
       | Some first, Some last =>
           let start := after_last_end (take (pt_start first) text) in
           let end_ := if answerLike c then length text
                       else match IndexEnd (drop (pt_end last) text) with Some j => pt_end last + j | None => length text end in
           if negb (answerLike c) && bool_decide (text !! end_ = Some ("?")%byte) then None
           else if existsb (fun t => Nat.leb start (pt_start t) && Nat.leb (pt_end t) (pt_start first) && isNegation (pt_s t)) toks then None
           else if (if answerLike c
                    then let ans := normSpace (pc_Text c) in (ans =s "") || negb (Contains (normSpace (drop (pt_end last) text)) ans)
                    else negated_after end_ 3 (drop (length want) ts))
                then None
           else Some (TrimSpace (slice text start end_))
       | _, _ => None
       end.

Fixpoint match_from (text : gostring) (c : PersonCall) (want : list gostring) (toks ts : list ptoken) : option gostring :=
  match ts with
  | [] => None
  | _ :: ts' => match match_here text c want toks ts with Some raw => Some raw | None => match_from text c want toks ts' end
  end.

(** The quote and the raw sentence. *)
Definition matchAct (text : gostring) (c : PersonCall) : option (gostring * gostring) :=
  let toks := promptTokens text in
  let want := call_words c in
  match want with
  | [] => None
  | _ => (fun raw => (clip raw quoteMax, raw)) <$> match_from text c want toks toks
  end.

(** ** A message that holds a clause *)

Definition commandNameRe : re :=
  cats [ lit "<command-name>"; Star (Cls c_space); Grp 1 (Cat (lit "/") (Plus (Cls (cnot (cor (one "<") c_space))))); Star (Cls c_space);
         lit "</command-name>" ].
Definition commandArgsRe : re :=
  cats [ lit "<command-args>"; Grp 1 (Lazy (Cls (fun _ => true))); lit "</command-args>" ].

Definition slashCommandLine (text : gostring) : option gostring :=
  m ← FindSubmatchIndex commandNameRe text;
  let line := group text m 1 in
  Some (match FindSubmatchIndex commandArgsRe text with
        | Some a => let args := TrimSpace (group text a 1) in if args <>s "" then line ++ " " ++ args else line
        | None => line
        end).

Definition holdsClause (text want : gostring) : bool :=
  Contains (ToLower (normSpace text)) want ||
  match slashCommandLine text with Some line => Contains (ToLower (normSpace line)) want | None => false end.
End matcher.

(** ** Runes read are runes *)

Lemma bz_range b : (0 <= bz b < 256)%Z.
Proof. unfold bz. pose proof (Byte.to_N_bounded b). lia. Qed.

Lemma valid_rune_spec r : valid_rune r = true <-> (0 <= r <= 55295 \/ 57344 <= r <= 1114111)%Z.
Proof. unfold valid_rune. by rewrite orb_true_iff, !between_spec. Qed.

Lemma DecodeRune_valid s r w : DecodeRune s = Some (r, w) -> valid_rune r = true.
Proof.
  intros H. apply valid_rune_spec. destruct s as [|b0 s]; [done|]. pose proof (bz_range b0). cbn [DecodeRune] in H.
  assert (valid_rune RuneError = true) as He%valid_rune_spec by done.
  destruct (Z.ltb_spec (bz b0) 128); [simplify_eq; lia|].
  destruct (between 194 223 (bz b0)) eqn:E2; [|destruct (between 224 239 (bz b0)) eqn:E3; [|destruct (between 240 244 (bz b0)) eqn:E4]];
    [| | |by simplify_eq].
  - destruct s as [|b1 s]; try by simplify_eq. destruct (between 128 191 (bz b1)) eqn:F1; simplify_eq; [|done].
    apply between_spec in E2, F1. lia.
  - destruct s as [|b1 [|b2 s]]; try by simplify_eq. destruct (between _ _ (bz b1) && _) eqn:F; simplify_eq; [|done].
    apply andb_true_iff in F as [F1 F2]. apply between_spec in E3, F1, F2.
    destruct (Z.eqb_spec (bz b0) 224), (Z.eqb_spec (bz b0) 237); lia.
  - destruct s as [|b1 [|b2 [|b3 s]]]; try by simplify_eq. destruct (between _ _ (bz b1) && _ && _) eqn:F; simplify_eq; [|done].
    rewrite !andb_true_iff in F. destruct F as [[F1 F2] F3]. apply between_spec in E4, F1, F2, F3.
    destruct (Z.eqb_spec (bz b0) 240), (Z.eqb_spec (bz b0) 244); lia.
Qed.

Lemma runes_skip_valid s : forall k, Forall (fun r => valid_rune r = true) (runes_skip k s).
Proof.
  induction s as [|b s IH]; intros k; cbn [runes_skip]; [constructor|]. destruct k; [|done].
  destruct (DecodeRune (b :: s)) as [[r w]|] eqn:E; [|constructor]. apply DecodeRune_valid in E. by constructor.
Qed.

Lemma encode_app rs rs' : encode (rs ++ rs') = encode rs ++ encode rs'.
Proof. apply bind_app. Qed.

(** A clipped text has at most [n] characters. *)
Lemma clip_bound s n : 1 <= n -> length (runes (clip s n)) <= n.
Proof.
  intros Hn. unfold clip. destruct (Nat.leb_spec (length (runes s)) n); [done|].
  change (bs "…") with (encode [8230%Z]). rewrite <- encode_app, runes_encode.
  - rewrite length_app, length_take. cbn. lia.
  - apply Forall_app. split; [|by repeat constructor]. apply Forall_take, runes_skip_valid.
Qed.

(** ** The matcher *)
Section matcher_facts.
Context (IsLetter IsDigit : Z -> bool) (ToLower : gostring -> gostring).

(** The tokens that end by [end_]. *)
Fixpoint within (end_ : nat) (toks : list ptoken) : list ptoken :=
  match toks with
  | t :: toks' => if Nat.ltb end_ (pt_end t) then [] else t :: within end_ toks'
  | [] => []
  end.

Lemma negated_after_spec end_ n toks : negated_after end_ n toks = existsb (fun t => isNegation (pt_s t)) (take n (within end_ toks)).
Proof.
  revert toks. induction n as [|n IH]; intros [|t toks]; try done. cbn [negated_after within].
  destruct (Nat.ltb end_ (pt_end t)); [done|]. cbn [take existsb]. rewrite <- IH. by destruct (isNegation (pt_s t)).
Qed.

(** The bounds of the sentence the words from [first] to [last] stand in. *)
Definition sentence_start (text : gostring) (first : ptoken) : nat := after_last_end (take (pt_start first) text).
Definition sentence_end (text : gostring) (c : PersonCall) (last : ptoken) : nat :=
  if answerLike c then length text
  else match IndexEnd (drop (pt_end last) text) with Some j => pt_end last + j | None => length text end.

(** Nothing in the sentence takes the words back: no negation before them; no question
    and no negation in the three words after; for an answer, its own text after. *)
Definition meant (text : gostring) (c : PersonCall) (toks : list ptoken) (first last : ptoken) (post : list ptoken) : Prop :=
  (forall t, t ∈ toks -> sentence_start text first <= pt_start t -> pt_end t <= pt_start first -> isNegation (pt_s t) = false) /\
  (if answerLike c
   then normSpace (pc_Text c) <> [] /\ Contains (normSpace (drop (pt_end last) text)) (normSpace (pc_Text c)) = true
   else text !! sentence_end text c last <> Some ("?")%byte /\
        Forall (fun t => isNegation (pt_s t) = false) (take 3 (within (sentence_end text c last) post))).

(** The words of [c]'s phrase are the tokens [mid], and are meant; [raw] is their sentence. *)
Definition asks_at (text : gostring) (c : PersonCall) (toks mid post : list ptoken) (raw : gostring) : Prop :=
  exists first last, pt_s <$> mid = call_words ToLower c /\ head mid = Some first /\ list.last mid = Some last /\
    meant text c toks first last post /\
    raw = TrimSpace (slice text (sentence_start text first) (sentence_end text c last)).

(** [text] asks for [c], in the sentence [raw]. *)
Definition asks (text : gostring) (c : PersonCall) (raw : gostring) : Prop :=
  exists pre mid post, promptTokens IsLetter IsDigit ToLower text = pre ++ mid ++ post /\
    asks_at text c (promptTokens IsLetter IsDigit ToLower text) mid post raw.

Lemma existsb_false {A} (f : A -> bool) l : existsb f l = false <-> Forall (fun x => f x = false) l.
Proof. induction l as [|x l IH]; cbn; [by split|]. by rewrite orb_false_iff, Forall_cons, IH. Qed.

Lemma meant_spec text c toks first last post :
  meant text c toks first last post <->
  negb (answerLike c) && bool_decide (text !! sentence_end text c last = Some ("?")%byte) = false /\
  existsb (fun t => Nat.leb (sentence_start text first) (pt_start t) && Nat.leb (pt_end t) (pt_start first) && isNegation (pt_s t)) toks = false /\
  (if answerLike c
   then let ans := normSpace (pc_Text c) in (ans =s "") || negb (Contains (normSpace (drop (pt_end last) text)) ans)
   else negated_after (sentence_end text c last) 3 post) = false.
Proof.
  unfold meant.
  assert ((forall t, t ∈ toks -> sentence_start text first <= pt_start t -> pt_end t <= pt_start first -> isNegation (pt_s t) = false) <->
    existsb (fun t => Nat.leb (sentence_start text first) (pt_start t) && Nat.leb (pt_end t) (pt_start first) && isNegation (pt_s t)) toks = false) as ->.
  { rewrite existsb_false, Forall_forall. split; intros H t Ht; specialize (H t Ht).
    - destruct (Nat.leb_spec (sentence_start text first) (pt_start t)), (Nat.leb_spec (pt_end t) (pt_start first)); cbn; auto.
    - intros H1%Nat.leb_le H2%Nat.leb_le. by rewrite H1, H2 in H. }
  destruct (answerLike c); cbn [negb andb].
  - rewrite orb_false_iff, bool_decide_eq_false, negb_false_iff. naive_solver.
  - rewrite bool_decide_eq_false, negated_after_spec, (existsb_false _ (take 3 _)). naive_solver.
Qed.

Lemma match_here_spec text c toks ts raw :
  match_here text c (call_words ToLower c) toks ts = Some raw <->
  exists mid post, ts = mid ++ post /\ asks_at text c toks mid post raw.
Proof.
  set (want := call_words ToLower c). unfold match_here. set (n := length want).
  destruct (decide (pt_s <$> take n ts = want)) as [E|E].
  - rewrite (bool_decide_true _ E). cbn [negb]. split.
    + destruct (head (take n ts)) as [first|] eqn:Hf; [|done]. destruct (last (take n ts)) as [la|] eqn:Hl; [|done].
      fold (sentence_start text first) (sentence_end text c la). intros H. exists (take n ts), (drop n ts).
      split; [by rewrite take_drop|]. exists first, la. rewrite meant_spec. fold want.
      destruct (_ && _) eqn:H1; [done|]. destruct (existsb _ toks) eqn:H2; [done|].
      match type of H with (if ?b then _ else _) = _ => destruct b eqn:H3; [done|] end. by simplify_eq.
    + intros (mid & post & -> & first & la & Hw & Hf & Hl & Hm & ->). fold want in Hw.
      assert (n = length mid) as -> by (unfold n; by rewrite <- Hw, length_fmap).
      rewrite take_app_length, Hf, Hl, drop_app_length. fold (sentence_start text first) (sentence_end text c la).
      apply meant_spec in Hm as (-> & -> & H3).
      match goal with |- (if ?b then _ else _) = _ => replace b with false by (symmetry; exact H3) end. done.
  - rewrite (bool_decide_false _ E). split; [done|]. intros (mid & post & -> & first & la & Hw & _). fold want in Hw. exfalso. apply E.
    assert (n = length mid) as -> by (unfold n; by rewrite <- Hw, length_fmap). by rewrite take_app_length.
Qed.

Lemma match_from_spec text c toks ts :
  (forall raw, match_from text c (call_words ToLower c) toks ts = Some raw -> exists pre mid post, ts = pre ++ mid ++ post /\ asks_at text c toks mid post raw) /\
  (match_from text c (call_words ToLower c) toks ts = None -> forall pre mid post raw, ts = pre ++ mid ++ post -> ~ asks_at text c toks mid post raw).
Proof.
  induction ts as [|t ts [IH1 IH2]]; cbn [match_from].
  { split; [done|]. intros _ [|] [|] post raw H; try done. intros (? & ? & _ & ? & _). done. }
  destruct (match_here _ _ _ _ (t :: ts)) as [raw0|] eqn:E.
  - split; [|done]. intros raw [= <-]. apply match_here_spec in E as (mid & post & Hts & Ha). by exists [], mid, post.
  - split.
    + intros raw Hr. destruct (IH1 raw Hr) as (pre & mid & post & -> & Ha). by exists (t :: pre), mid, post.
    + intros Hn [|q pre] mid post raw Hts Ha.
      * assert (match_here text c (call_words ToLower c) toks (t :: ts) = Some raw) as H by (apply match_here_spec; exists mid, post; done). congruence.
      * injection Hts as -> ->. by apply (IH2 Hn pre mid post raw).
Qed.

(** The matcher finds a person's request exactly: it succeeds when, and only when, the
    prompt holds the act's words in order with its exact target, meant and not taken back,
    and it returns their sentence, with a quote of at most 160 characters. *)
Theorem matchAct_spec text c :
  (matchAct IsLetter IsDigit ToLower text c <> None <-> exists raw, asks text c raw) /\
  (forall quote raw, matchAct IsLetter IsDigit ToLower text c = Some (quote, raw) ->
     asks text c raw /\ quote = clip raw quoteMax /\ length (runes quote) <= quoteMax).
Proof.
  unfold matchAct. pose proof (match_from_spec text c (promptTokens IsLetter IsDigit ToLower text) (promptTokens IsLetter IsDigit ToLower text)) as [H1 H2].
  destruct (call_words ToLower c) as [|w ws] eqn:Ew.
  { split; [|done]. split; [done|]. intros (raw & pre & mid & post & _ & first & la & Hw & Hf & _). rewrite Ew in Hw. by destruct mid. }
  rewrite <- Ew in *. destruct (match_from _ _ _ _ _) as [raw0|] eqn:E; cbn [fmap option_fmap option_map].
  - destruct (H1 raw0 eq_refl) as (pre & mid & post & Ht & Ha). split.
    + split; [|done]. intros _. exists raw0, pre, mid, post. done.
    + intros quote raw [= <- <-]. split; [exists pre, mid, post; done|]. split; [done|]. apply clip_bound. unfold quoteMax. lia.
  - split; [|done]. split; [done|]. intros (raw & pre & mid & post & Ht & Ha). by destruct (H2 eq_refl pre mid post raw Ht).
Qed.
End matcher_facts.
