(* ===== verification/PersonGrants.v ===== *)
(** The grants of a person's words: the prompts recorded, the transcripts they are checked
    against, and the grants issued and consumed, of internal/apexv1/personact.go, with
    requirePerson of session.go and takePersonAct of internal/apecmd/v1_personact.go. *)
From S2P Require Import Prelude Regex Markdown Spec Shell PersonMatch.

Local Open Scope Z_scope.

(** ** Records *)

(** Times are nanoseconds. *)
Definition GrantTTL : Z := 120 * 10 ^ 9.
Definition day : Z := 24 * 3600 * 10 ^ 9.

Record PromptRecord := MkPrompt {
  pr_TS : gostring; pr_SessionID : gostring; pr_TranscriptPath : gostring; pr_Prompt : gostring; pr_PromptID : gostring; pr_Kind : gostring }.

Definition notification (r : PromptRecord) : bool := (pr_Kind r =s promptNotification) || (pr_Kind r =s promptDelivery).
Definition delivery (r : PromptRecord) : bool := pr_Kind r =s promptDelivery.

(** A user message of a transcript. *)
Record TranscriptPrompt := MkMessage { tp_PromptID : gostring; tp_Origin : gostring; tp_Text : gostring }.
Definition originHuman : gostring := "human".

(** A grant; [g_Expires] is [None] when its text is no time. *)
Record Grant := MkGrant {
  g_SessionID : gostring; g_PromptID : gostring; g_PromptTS : gostring; g_Act : gostring; g_Target : gostring; g_Task : gostring;
  g_ArgvSHA256 : gostring; g_Quote : gostring; g_Expires : option Z }.

Record PersonAct := MkAct {
  pa_Act : gostring; pa_Target : gostring; pa_ArgvSHA256 : gostring; pa_By : gostring; pa_PromptTS : gostring; pa_Quote : gostring;
  pa_Grant : gostring; pa_granted : bool }.

(** PersonAct.Same *)
Definition Same (a : option PersonAct) (c : PersonCall) : bool :=
  match a with
  | Some a => (pa_Act a =s pc_Act c) && (pa_Target a =s pc_Target c) && (pa_ArgvSHA256 a =s pc_ArgvSHA256 c)
  | None => false
  end.

(** The files of _apex/state and the transcripts, and the clock: the prompt logs by
    name, the messages of each transcript, the grants by name with their modification
    times, the issued markers and the consumed grants. *)
Record PWorld := MkPWorld {
  pw_prompts : gmap gostring (list PromptRecord); pw_transcripts : gmap gostring (list TranscriptPrompt);
  pw_grants : gmap gostring (Z * Grant); pw_issued : gmap gostring Z; pw_consumed : gmap gostring (Z * Grant); pw_now : Z }.

Definition set_prompts p w := MkPWorld p (pw_transcripts w) (pw_grants w) (pw_issued w) (pw_consumed w) (pw_now w).
Definition set_transcripts t w := MkPWorld (pw_prompts w) t (pw_grants w) (pw_issued w) (pw_consumed w) (pw_now w).
Definition set_grants g w := MkPWorld (pw_prompts w) (pw_transcripts w) g (pw_issued w) (pw_consumed w) (pw_now w).
Definition set_issued i w := MkPWorld (pw_prompts w) (pw_transcripts w) (pw_grants w) i (pw_consumed w) (pw_now w).
Definition set_consumed c w := MkPWorld (pw_prompts w) (pw_transcripts w) (pw_grants w) (pw_issued w) c (pw_now w).
Definition set_now n w := MkPWorld (pw_prompts w) (pw_transcripts w) (pw_grants w) (pw_issued w) (pw_consumed w) n.

(** What a hook is told. *)
Record HookPayload := MkPayload {
  hp_ToolName : gostring; hp_SessionID : gostring; hp_PromptID : gostring; hp_TranscriptPath : gostring; hp_Prompt : gostring }.

(** A run's lock and its ended result, as a person act meets them. *)
Record RunLock := MkLock { rl_Alive : bool; rl_Verb : gostring; rl_PersonAct : option PersonAct }.
Record RunResult := MkRunResult { rr_Reported : bool; rr_Verb : gostring; rr_PersonAct : option PersonAct; rr_HeadAfter : gostring }.

(** Why a person act is denied. *)
Inductive Why :=
| WhyMonitor | WhyMany | WhyNotLiteral | WhyBusy | WhyByMismatch | WhyNoPromptID | WhyDelivery | WhyNoRecord | WhyNoTyped
| WhyNotRightAfter | WhyNotAsked | WhyNoOrigin | WhyNotShown | WhySpent | WhyNotWritten.
Inductive Verdict := Allowed | Denied (why : Why).

(** How far the writes of a grant got: both its files, none, only its folder made, or
    only its marker written. *)
Inductive Writes := BothWritten | NoFolder | NoMarker | NoGrantFile.

Definition keyRe : re := Cls (cnot (cor (cor c_upper c_lower) (cor c_digit (in_set "._-")))).
Definition sanitizeKey (s : gostring) : gostring := ReplaceAllRe keyRe s (fun _ => bs "_").

Definition promptMax : N := 65536.

(** unicode.IsControl *)
Definition IsControl (r : Z) : bool := between 0 31 r || between 127 159 r.

Section grants.
Context (IsLetter IsDigit : Z -> bool) (ToLower sha256 : gostring -> gostring).
(** The secret scan: a clause without its secrets, [None] when it could not run. *)
Context (redactText : gostring -> option gostring).
(** The environment of the process. *)
Context (getenv : gostring -> gostring).

Let matchAct := matchAct IsLetter IsDigit ToLower.
Let holdsClause := holdsClause ToLower.
Let ArgvSHA256 := ArgvSHA256 sha256.

Definition envApeSession : gostring := "APE_SESSION".
Definition EnvClaudeSessionID : gostring := "CLAUDE_CODE_SESSION_ID".

(** ModelSession: the variable that marks a model's tool call, "" for a terminal. *)
Definition ModelSession : gostring :=
  if getenv envApeSession <>s "" then envApeSession else if getenv "CLAUDECODE" <>s "" then bs "CLAUDECODE" else [].

(** ** Prompts *)

Definition promptLogPath (sessionID : gostring) : gostring :=
  let key := sanitizeKey sessionID in if key =s "" then bs "no-session" else key.

(** RecordPrompt, in a v1 project. *)
Definition RecordPrompt (ts : gostring) (p : HookPayload) (w : PWorld) : PWorld :=
  if getenv envApeSession <>s "" then w
  else
    let rec := MkPrompt ts (hp_SessionID p) (hp_TranscriptPath p) (take (N.to_nat promptMax) (hp_Prompt p)) (hp_PromptID p) (promptKindOf (hp_Prompt p)) in
    let key := promptLogPath (hp_SessionID p) in
    set_prompts (<[key := default [] (pw_prompts w !! key) ++ [rec]]> (pw_prompts w)) w.

Definition promptRecords (w : PWorld) (sessionID : gostring) : list PromptRecord :=
  List.filter (fun r => pr_SessionID r =s sessionID) (default [] (pw_prompts w !! promptLogPath sessionID)).

Definition lastRecord (recs : list PromptRecord) (promptID : gostring) : option PromptRecord :=
  List.find (fun r => pr_PromptID r =s promptID) (rev recs).

(** ** Transcripts *)

Definition messages (w : PWorld) (path : gostring) : list TranscriptPrompt :=
  if filepath_IsAbs path then default [] (pw_transcripts w !! path) else [].

Definition transcriptHolds (w : PWorld) (path promptID clause : gostring) : bool :=
  let want := ToLower (normSpace clause) in
  (promptID <>s "") &&
  existsb (fun m => (tp_PromptID m =s promptID) && (tp_Origin m =s originHuman) && holdsClause (tp_Text m) want) (messages w path).

(** transcriptOrigins of one id: "human" when a message of it is the person's, else the
    first one's kind; [None] when it has no message. *)
Definition origin_of (w : PWorld) (path id : gostring) : option gostring :=
  let kinds := tp_Origin <$> List.filter (fun m => tp_PromptID m =s id) (messages w path) in
  if (path =s "") || (id =s "") then None
  else if existsb (fun k => k =s originHuman) kinds then Some originHuman else head kinds.

(** ** Turns *)

Inductive Opener := OpenedByPerson | OpenedByOther | NoTurn (why : Why).

Definition turnOpener (rec : option PromptRecord) (origin : option gostring) : Opener :=
  if match rec with Some r => delivery r | None => false end then NoTurn WhyDelivery
  else if match origin with Some k => (k <>s "") && (k <>s originHuman) | None => false end then OpenedByOther
  else if match rec with Some r => notification r | None => false end then OpenedByOther
  else match rec with None => NoTurn WhyNoRecord | Some _ => OpenedByPerson end.

Definition latestTyped (w : PWorld) (recs : list PromptRecord) (skip transcript : gostring) : option PromptRecord :=
  List.find (fun r => (pr_PromptID r <>s skip) && negb (notification r) && (pr_TranscriptPath r =s transcript) &&
                      bool_decide (origin_of w transcript (pr_PromptID r) = Some originHuman)) (rev recs).

(** The records before the last one of [prompt], the last first; then those of [prompt]
    itself skipped. *)
Fixpoint before_last (prompt : gostring) (rrecs : list PromptRecord) : list PromptRecord :=
  match rrecs with
  | [] => []
  | r :: rrecs' => if pr_PromptID r =s prompt then rrecs' else before_last prompt rrecs'
  end.
Fixpoint right_after (typed prompt : gostring) (rrecs : list PromptRecord) : bool :=
  match rrecs with
  | [] => false
  | r :: rrecs' => if pr_PromptID r =s prompt then right_after typed prompt rrecs' else pr_PromptID r =s typed
  end.
Definition turnRightAfter (recs : list PromptRecord) (typed prompt : gostring) : bool :=
  right_after typed prompt (before_last prompt (rev recs)).

(** ** Grants *)

Definition grantPath (argvSHA : gostring) : gostring := sanitizeKey argvSHA.
Definition issuedPath (sessionID promptID : gostring) (c : PersonCall) : gostring := ArgvSHA256 [sessionID; promptID; targetKey c].

(** loadGrant: a file that names no command line is none. *)
Definition loadGrant (files : gmap gostring (Z * Grant)) (name : gostring) : option Grant :=
  match files !! name with Some (_, g) => if g_ArgvSHA256 g =s "" then None else Some g | None => None end.

Definition live (w : PWorld) (g : Grant) : bool := match g_Expires g with Some e => pw_now w <? e | None => false end.

Definition matches (g : Grant) (c : PersonCall) : bool :=
  (g_Act g =s pc_Act c) && (g_Target g =s pc_Target c) && (g_Task g =s pc_Task c) && (g_ArgvSHA256 g =s pc_ArgvSHA256 c).

Definition ownSession (g : Grant) : bool :=
  let sid := getenv EnvClaudeSessionID in (sid <>s "") && (g_SessionID g =s sid).

Definition HasGrant (w : PWorld) (c : PersonCall) : bool :=
  match loadGrant (pw_grants w) (grantPath (pc_ArgvSHA256 c)) with
  | Some g => matches g c && live w g && ownSession g
  | None => false
  end.

(** backing: the prompt record and the quote that stand behind a grant. *)
Definition backing (w : PWorld) (g : Grant) (c : PersonCall) : option (PromptRecord * gostring) :=
  if (g_SessionID g =s "") || (g_PromptID g =s "") then None
  else match lastRecord (promptRecords w (g_SessionID g)) (g_PromptID g) with
       | None => None
       | Some rec =>
           if notification rec then None
           else match matchAct (pr_Prompt rec) c with
                | None => None
                | Some (quote, raw) =>
                    if (pr_TranscriptPath rec =s "") || negb (transcriptHolds w (pr_TranscriptPath rec) (g_PromptID g) raw) then None
                    else Some (rec, quote)
                end
       end.

(** quoteFor: a clause on one line, without secrets, # and control characters. *)
Definition quoteFor (clause : gostring) : gostring :=
  match redactText clause with
  | None => bs "(quote withheld: the secret scan could not run)"
  | Some redacted =>
      clip (encode (omap (fun r => if one "#" r then Some 65283 else if IsControl r then None else Some r) (runes (normSpace redacted)))) quoteMax
  end.

(** ConsumeGrant: [moved] says the rename to consumed/[name] succeeded. *)
Definition ConsumeGrant (name : gostring) (moved : bool) (c : PersonCall) (w : PWorld) : PWorld * option PersonAct :=
  let path := grantPath (pc_ArgvSHA256 c) in
  match loadGrant (pw_grants w) path with
  | None => (w, None)
  | Some g =>
      if negb (matches g c) then (w, None)
      else if negb (live w g) then (set_grants (delete path (pw_grants w)) w, None)
      else if negb (ownSession g) then (w, None)
      else match backing w g c with
           | None => (w, None)
           | Some (rec, quote) =>
               if negb moved then (w, None)
               else
                 (match pw_grants w !! path with
                  | Some f => set_consumed (<[name := f]> (pw_consumed w)) (set_grants (delete path (pw_grants w)) w)
                  | None => w
                  end,
                  Some (MkAct (pc_Act c) (pc_Target c) (pc_ArgvSHA256 c) [] (pr_TS rec) (quoteFor quote) name true))
           end
  end.

(** LockPersonAct *)
Definition LockPersonAct (w : PWorld) (l : option RunLock) (c : PersonCall) : option PersonAct :=
  match l ≫= rl_PersonAct with
  | None => None
  | Some a =>
      if pa_ArgvSHA256 a <>s pc_ArgvSHA256 c then None
      else if ModelSession =s "CLAUDECODE" then
        if (pa_Grant a =s "") || Contains (pa_Grant a) "/" || Contains (pa_Grant a) "\" then None
        else match loadGrant (pw_consumed w) (pa_Grant a) with
             | None => None
             | Some g =>
                 if (g_Act g =s pa_Act a) && (g_Target g =s pa_Target a) && matches g c && ownSession g then
                   match backing w g c with
                   | Some _ => Some (MkAct (pa_Act a) (pa_Target a) (pa_ArgvSHA256 a) (pa_By a) (pa_PromptTS a) (pa_Quote a) (pa_Grant a) true)
                   | None => None
                   end
                 else None
             end
      else Some (MkAct (pa_Act a) (pa_Target a) (pa_ArgvSHA256 a) (pa_By a) (pa_PromptTS a) (pa_Quote a) (pa_Grant a) (pa_granted a))
  end.

(** pruneGrants: what is a day old. *)
Definition pruneGrants (w : PWorld) : PWorld :=
  let young (t : Z) := pw_now w - day <= t in
  set_grants (filter (fun kv => young kv.2.1) (pw_grants w))
    (set_issued (filter (fun kv => young kv.2) (pw_issued w)) (set_consumed (filter (fun kv => young kv.2.1) (pw_consumed w)) w)).

(** grantVerdict's judgement: the prompt whose words grant [c], with the quote. *)
Definition grant_words (w : PWorld) (p : HookPayload) (c : PersonCall) : Why + PromptRecord * gostring :=
  let transcript := hp_TranscriptPath p in
  let recs := promptRecords w (hp_SessionID p) in
  let rec := lastRecord recs (hp_PromptID p) in
  let judge r :=
    match matchAct (pr_Prompt r) c with
    | None => inl WhyNotAsked
    | Some (quote, raw) =>
        if (transcript =s "") || (pr_TranscriptPath r <>s transcript) || negb (transcriptHolds w transcript (pr_PromptID r) raw) then
          inl (if bool_decide (origin_of w transcript (pr_PromptID r) = Some []) then WhyNoOrigin else WhyNotShown)
        else inr (r, quote)
    end in
  if (hp_PromptID p =s "") || (hp_SessionID p =s "") then inl WhyNoPromptID
  else match turnOpener rec (origin_of w transcript (hp_PromptID p)), rec with
       | NoTurn why, _ => inl why
       | OpenedByOther, _ =>
           match latestTyped w recs (hp_PromptID p) transcript with
           | None => inl WhyNoTyped
           | Some r => if turnRightAfter recs (pr_PromptID r) (hp_PromptID p) then judge r else inl WhyNotRightAfter
           end
       | OpenedByPerson, Some r => judge r
       | OpenedByPerson, None => inl WhyNoRecord
       end.

(** grantVerdict, with the marker it wrote. *)
Definition grantVerdict (writes : Writes) (p : HookPayload) (c : PersonCall) (w : PWorld) : PWorld * Verdict * option gostring :=
  match grant_words w p c with
  | inl why => (w, Denied why, None)
  | inr (rec, quote) =>
      let promptID := pr_PromptID rec in
      let path := grantPath (pc_ArgvSHA256 c) in
      if match loadGrant (pw_grants w) path with
         | Some g => live w g && matches g c && (g_SessionID g =s hp_SessionID p) && (g_PromptID g =s promptID)
         | None => false
         end then (w, Allowed, None)
      else
        let issued := issuedPath (hp_SessionID p) promptID c in
        match pw_issued w !! issued with
        | Some _ => (w, Denied WhySpent, None)
        | None =>
            match writes with
            | NoFolder => (w, Denied WhyNotWritten, None)
            | NoMarker => (pruneGrants w, Denied WhyNotWritten, None)
            | _ =>
                let w := pruneGrants w in
                let g := MkGrant (hp_SessionID p) promptID (pr_TS rec) (pc_Act c) (pc_Target c) (pc_Task c) (pc_ArgvSHA256 c)
                           (quoteFor quote) (Some (pw_now w + GrantTTL)) in
                let w := set_issued (<[issued := pw_now w]> (pw_issued w)) w in
                match writes with
                | BothWritten => (set_grants (<[path := (pw_now w, g)]> (pw_grants w)) w, Allowed, Some issued)
                | _ => (w, Denied WhyNotWritten, Some issued)
                end
            end
        end
  end.

(** longVerb and attachVerdict: [None] when no run decides. *)
Definition longVerb (act : gostring) : gostring :=
  if act =s ActAcceptRed then bs "milestone close" else if act =s ActAllowPendingHuman then bs "change archive" else act.

Definition attachVerdict (lock : option RunLock) (result : option RunResult) (head : gostring) (c : PersonCall) : option Verdict :=
  let verb := longVerb (pc_Act c) in
  match lock with
  | Some l =>
      if rl_Alive l then Some (if (rl_Verb l =s verb) && Same (rl_PersonAct l) c then Allowed else Denied WhyBusy)
      else match result with
           | Some r => if negb (rr_Reported r) && (rr_Verb r =s verb) && Same (rr_PersonAct r) c && (rr_HeadAfter r =s head) then Some Allowed else None
           | None => None
           end
  | None =>
      match result with
      | Some r => if negb (rr_Reported r) && (rr_Verb r =s verb) && Same (rr_PersonAct r) c && (rr_HeadAfter r =s head) then Some Allowed else None
      | None => None
      end
  end.

(** PersonActGate in a v1 project. *)
Definition PersonActGate (writes : Writes) (lock : option RunLock) (result : option RunResult) (head userName : gostring)
    (p : HookPayload) (calls : list PersonCall) (w : PWorld) : PWorld * Verdict * option gostring :=
  match calls with
  | [] => (w, Allowed, None)
  | c :: more =>
      if getenv envApeSession <>s "" then (w, Allowed, None)
      else if hp_ToolName p =s "Monitor" then (w, Denied WhyMonitor, None)
      else match more with
           | _ :: _ => (w, Denied WhyMany, None)
           | [] =>
               if negb (pc_Literal c) then (w, Denied WhyNotLiteral, None)
               else match (if Long c then attachVerdict lock result head c else None) with
                    | Some v => (w, v, None)
                    | None =>
                        if (pc_By c <>s "") && (userName <>s "") && (pc_By c <>s userName) then (w, Denied WhyByMismatch, None)
                        else grantVerdict writes p c w
                    end
           end
  end.

(** ** The command's side *)

(** PersonBy *)
Definition PersonBy (name promptTS quote : gostring) : gostring := name ++ " (prompt " ++ promptTS ++ ": " ++ dq ++ quote ++ dq ++ ")".

Inductive Refusal := NoGrant | NoUserName | ByMismatch | PersonOnly.

(** takePersonAct: the act a call carries out, [inr None] under APE_SESSION. *)
Definition takePersonAct (name : gostring) (moved : bool) (userName : gostring) (c : PersonCall) (w : PWorld)
    : PWorld * (Refusal + option PersonAct) :=
  if ModelSession =s "" then (w, inr (Some (MkAct (pc_Act c) (pc_Target c) (pc_ArgvSHA256 c) (pc_By c) [] [] [] false)))
  else if ModelSession <>s "CLAUDECODE" then (w, inr None)
  else if negb (HasGrant w c) then (w, inl NoGrant)
  else if userName =s "" then (w, inl NoUserName)
  else if (pc_By c <>s "") && (pc_By c <>s userName) then (w, inl ByMismatch)
  else match ConsumeGrant name moved c w with
       | (w, None) => (w, inl NoGrant)
       | (w, Some a) =>
           (w, inr (Some (MkAct (pa_Act a) (pa_Target a) (pa_ArgvSHA256 a) (PersonBy userName (pa_PromptTS a) (pa_Quote a))
                            (pa_PromptTS a) (pa_Quote a) (pa_Grant a) (pa_granted a))))
       end.

(** requirePerson: [None] lets the act be done. *)
Definition requirePerson (a : option PersonAct) (act : gostring) : option Refusal :=
  if ModelSession =s "" then None
  else if (ModelSession =s "CLAUDECODE") && match a with Some a => pa_granted a && (pa_Act a =s act) | None => false end then None
  else Some PersonOnly.
End grants.
