(* ===== verification/PersonFacts.v ===== *)
(** Theorems of the person acts: a model session acts for a person only on the person's
    own words, and a prompt's words are spent once. *)
From S2P Require Import Prelude Regex Markdown Spec Shell PersonMatch PersonGrants.

Local Open Scope Z_scope.

(** The key of the words a grant stands for: its session, prompt, act and target. *)
Definition grant_key (sha256 : gostring -> gostring) (g : Grant) : gostring :=
  issuedPath sha256 (g_SessionID g) (g_PromptID g) (MkCall (g_Act g) (g_Target g) (g_Task g) [] [] [] [] true).

Section facts.
Context (IsLetter IsDigit : Z -> bool) (ToLower sha256 : gostring -> gostring) (redactText : gostring -> option gostring)
  (getenv : gostring -> gostring).
Let asks := asks IsLetter IsDigit ToLower.
Let backing := backing IsLetter IsDigit ToLower.
Let ConsumeGrant := ConsumeGrant IsLetter IsDigit ToLower redactText getenv.
Let takePersonAct := takePersonAct IsLetter IsDigit ToLower redactText getenv.
Let LockPersonAct := LockPersonAct IsLetter IsDigit ToLower getenv.
Let grant_words := grant_words IsLetter IsDigit ToLower.
Let grantVerdict := grantVerdict IsLetter IsDigit ToLower sha256 redactText.
Let PersonActGate := PersonActGate IsLetter IsDigit ToLower sha256 redactText getenv.
Let RecordPrompt := RecordPrompt getenv.
Let issuedPath := issuedPath sha256.

(** ** Attested acts *)

(** The person typed [r] in session [sid], its words ask for [c], and the transcript it
    names shows the person's message of that prompt holding them. *)
Definition attested (w : PWorld) (sid : gostring) (c : PersonCall) (r : PromptRecord) : Prop :=
  r ∈ promptRecords w sid /\ notification r = false /\
  exists raw, asks (pr_Prompt r) c raw /\
    exists m, m ∈ messages w (pr_TranscriptPath r) /\ tp_PromptID m = pr_PromptID r /\ tp_Origin m = originHuman /\
      holdsClause ToLower (tp_Text m) (ToLower (normSpace raw)) = true.

Lemma lastRecord_spec recs id r : lastRecord recs id = Some r -> r ∈ recs /\ pr_PromptID r = id.
Proof.
  unfold lastRecord. intros [Hin Hid]%find_some. apply bool_decide_eq_true in Hid. split; [|done].
  by apply list_elem_of_In, in_rev.
Qed.

Lemma promptRecords_session w sid r : r ∈ promptRecords w sid -> pr_SessionID r = sid.
Proof. unfold promptRecords. intros [_ H]%list_elem_of_In%filter_In. by apply bool_decide_eq_true in H. Qed.

Lemma transcriptHolds_spec w path id clause : transcriptHolds ToLower w path id clause = true ->
  exists m, m ∈ messages w path /\ tp_PromptID m = id /\ tp_Origin m = originHuman /\
    holdsClause ToLower (tp_Text m) (ToLower (normSpace clause)) = true.
Proof.
  unfold transcriptHolds. intros [_ (m & Hin & Hm)%existsb_exists]%andb_true_iff.
  rewrite !andb_true_iff, !bool_decide_eq_true in Hm. exists m. rewrite list_elem_of_In. naive_solver.
Qed.

Lemma matchAct_asks text c quote raw : matchAct IsLetter IsDigit ToLower text c = Some (quote, raw) -> asks text c raw.
Proof.
  unfold matchAct. destruct (call_words ToLower c) as [|x xs] eqn:E; [done|]. rewrite <- E in *.
  pose proof (match_from_spec ToLower text c (promptTokens IsLetter IsDigit ToLower text) (promptTokens IsLetter IsDigit ToLower text)) as [H _].
  destruct (match_from _ _ _ _ _) as [raw0|]; [|done]. intros [= <- <-]. destruct (H raw0 eq_refl) as (pre & mid & post & Ht & Ha).
  exists pre, mid, post. done.
Qed.

Lemma backing_attested w g c rec quote : backing w g c = Some (rec, quote) ->
  attested w (g_SessionID g) c rec /\ pr_PromptID rec = g_PromptID g.
Proof.
  unfold backing, PersonGrants.backing. intros H. destruct (_ || _); [done|].
  destruct (lastRecord _ _) as [r|] eqn:Er; [|done]. apply lastRecord_spec in Er as [Hin Hid].
  destruct (notification r) eqn:En; [done|]. destruct (matchAct _ _ _ _ c) as [[q raw]|] eqn:Em; [|done].
  destruct (_ || negb _) eqn:Et; [done|]. simplify_eq. apply orb_false_iff in Et as [_ Et%negb_false_iff].
  split; [|done]. split; [done|]. split; [done|]. exists raw. split; [by eapply matchAct_asks|].
  apply transcriptHolds_spec in Et as (m & Hm & Hi & Ho & Hc). exists m. rewrite Hi. by rewrite Hid.
Qed.

(** What ConsumeGrant gave, and on what. *)
Lemma ConsumeGrant_Some name moved c w w' a : ConsumeGrant name moved c w = (w', Some a) ->
  exists f g rec quote, pw_grants w !! grantPath (pc_ArgvSHA256 c) = Some f /\ f.2 = g /\ matches g c = true /\ live w g = true /\
    ownSession getenv g = true /\ backing w g c = Some (rec, quote) /\
    w' = set_consumed (<[name := f]> (pw_consumed w)) (set_grants (delete (grantPath (pc_ArgvSHA256 c)) (pw_grants w)) w) /\
    a = MkAct (pc_Act c) (pc_Target c) (pc_ArgvSHA256 c) [] (pr_TS rec) (quoteFor redactText quote) name true.
Proof.
  unfold ConsumeGrant, PersonGrants.ConsumeGrant, loadGrant. intros H.
  destruct (pw_grants w !! grantPath (pc_ArgvSHA256 c)) as [[t g]|] eqn:Eg; [|done].
  destruct (g_ArgvSHA256 g =s ""); [done|].
  destruct (matches g c) eqn:Em; [|done]. destruct (live w g) eqn:El; [|done]. destruct (ownSession getenv g) eqn:Eo; [|done].
  cbn [negb] in H. fold (backing w g c) in H. destruct (backing w g c) as [[rec quote]|] eqn:Eb; [|done].
  destruct moved; [|done]. simplify_eq/=. exists (t, g), g, rec, quote. done.
Qed.

(** What ConsumeGrant left when it gave nothing. *)
Lemma ConsumeGrant_None name moved c w w' : ConsumeGrant name moved c w = (w', None) ->
  pw_now w' = pw_now w /\ pw_issued w' = pw_issued w /\ pw_grants w' ⊆ pw_grants w.
Proof.
  unfold ConsumeGrant, PersonGrants.ConsumeGrant. intros H. destruct (loadGrant _ _) as [g|]; [|by simplify_eq].
  destruct (negb (matches g c)); [by simplify_eq|]. destruct (negb (live w g)); [simplify_eq; split_and!; [done|done|apply delete_subseteq]|].
  destruct (negb _); [by simplify_eq|]. destruct (PersonGrants.backing _ _ _ _ _ _) as [[rec quote]|]; [|by simplify_eq].
  destruct (negb moved); by simplify_eq.
Qed.

(** C16: In a model session a person's act is done only on the person's own words: when the
    act a command took lets it act, either it runs in a person's terminal, or the caller's
    own session has a typed prompt that asks for this very act and target, which the
    transcript shows as the person's, and the record says who, and by which prompt. *)
Theorem person_act_attested name moved userName c w w' a act :
  takePersonAct name moved userName c w = (w', inr a) -> requirePerson getenv a act = None ->
  ModelSession getenv = [] \/
  (ModelSession getenv = bs "CLAUDECODE" /\ act = pc_Act c /\
   exists r quote, attested w (getenv EnvClaudeSessionID) c r /\ getenv EnvClaudeSessionID <> [] /\
     a = Some (MkAct (pc_Act c) (pc_Target c) (pc_ArgvSHA256 c) (PersonBy userName (pr_TS r) (quoteFor redactText quote))
                 (pr_TS r) (quoteFor redactText quote) name true)).
Proof.
  unfold takePersonAct, PersonGrants.takePersonAct, requirePerson. intros Ht Hr.
  destruct (decide (ModelSession getenv = bs "")) as [E|E]; [by left|]. right.
  rewrite (bool_decide_false _ E) in Ht, Hr. destruct (decide (ModelSession getenv = bs "CLAUDECODE")) as [E'|E'].
  2: { rewrite (bool_decide_false _ E') in Hr. done. }
  rewrite (bool_decide_true _ E') in Ht, Hr. cbn [negb andb] in *.
  destruct (negb (HasGrant _ _ _)); [done|]. destruct (userName =s ""); [done|]. destruct (_ && _); [done|].
  destruct (PersonGrants.ConsumeGrant _ _ _ _ _ _ _ _ _) as [w1 [b|]] eqn:Ec; [|done]. simplify_eq.
  destruct (ConsumeGrant_Some name moved c w w' b Ec) as (f & g & rec & quote & _ & _ & Hm & _ & Ho & Hb & _ & ->).
  cbn [pa_granted pa_Act pa_Target pa_ArgvSHA256 pa_PromptTS pa_Quote pa_Grant] in *.
  destruct (decide (pc_Act c = act)) as [<-|Hn]; [|by rewrite bool_decide_false in Hr].
  split; [done|]. split; [done|]. exists rec, quote. apply backing_attested in Hb as [Ha _].
  unfold ownSession in Ho. apply andb_true_iff in Ho as [Hs Hg]. apply bool_decide_eq_true in Hg.
  apply negb_true_iff, bool_decide_eq_false in Hs. rewrite <- Hg. split; [done|]. split; [by rewrite Hg|done].
Qed.

(** ** What a grant is issued on *)

(** [prompt] opened the turn right after [typed]'s: between their last records stand
    records of [prompt] only. *)
Lemma turnRightAfter_spec recs typed prompt : turnRightAfter recs typed prompt = true ->
  exists older t between p newer, recs = older ++ t :: between ++ p :: newer /\ pr_PromptID t = typed /\ pr_PromptID p = prompt /\
    Forall (fun r => pr_PromptID r = prompt) between /\ Forall (fun r => pr_PromptID r <> prompt) newer.
Proof.
  unfold turnRightAfter. intros H.
  assert (forall l, before_last prompt l = [] \/ exists newer p rest, l = newer ++ p :: rest /\ before_last prompt l = rest /\
    pr_PromptID p = prompt /\ Forall (fun r => pr_PromptID r <> prompt) newer) as Hb.
  { induction l as [|r l IH]; [by left|]. cbn [before_last]. destruct (decide (pr_PromptID r = prompt)) as [E|E].
    - rewrite (bool_decide_true _ E). right. exists [], r, l. done.
    - rewrite (bool_decide_false _ E). destruct IH as [IH|(newer & p & rest & -> & Hr & Hp & Hn)]; [by left|].
      right. exists (r :: newer), p, rest. split_and!; try done. by constructor. }
  assert (forall l, right_after typed prompt l = true -> exists between t rest, l = between ++ t :: rest /\ pr_PromptID t = typed /\
    Forall (fun r => pr_PromptID r = prompt) between) as Ha.
  { induction l as [|r l IH]; [done|]. cbn [right_after]. destruct (decide (pr_PromptID r = prompt)) as [E|E].
    - rewrite (bool_decide_true _ E). intros (between & t & rest & -> & Ht & Hf)%IH. exists (r :: between), t, rest.
      split_and!; try done. by constructor.
    - rewrite (bool_decide_false _ E), bool_decide_eq_true. intros Ht. exists [], r, l. done. }
  destruct (Hb (rev recs)) as [E|(newer & p & rest & Hrev & Hr & Hp & Hn)]; [by rewrite E in H|].
  rewrite Hr in H. apply Ha in H as (between & t & rest' & -> & Ht & Hf).
  exists (rev rest'), t, (rev between), p, (rev newer). split.
  - rewrite <- (rev_involutive recs), Hrev, !rev_app_distr. cbn [rev]. rewrite rev_app_distr. cbn [rev].
    by rewrite <- !app_assoc.
  - split_and!; try done; by apply Forall_rev.
Qed.

(** The turn [p] was opened by the person with [r], or is the one turn after [r]'s. *)
Definition in_turn (w : PWorld) (p : HookPayload) (r : PromptRecord) : Prop :=
  pr_PromptID r = hp_PromptID p \/
  exists older t between q newer, promptRecords w (hp_SessionID p) = older ++ t :: between ++ q :: newer /\
    pr_PromptID t = pr_PromptID r /\ pr_PromptID q = hp_PromptID p /\
    Forall (fun r => pr_PromptID r = hp_PromptID p) between /\ Forall (fun r => pr_PromptID r <> hp_PromptID p) newer.

Lemma judge_attested w sid transcript c r quote raw : r ∈ promptRecords w sid -> notification r = false ->
  matchAct IsLetter IsDigit ToLower (pr_Prompt r) c = Some (quote, raw) ->
  (transcript =s "") || (pr_TranscriptPath r <>s transcript) || negb (transcriptHolds ToLower w transcript (pr_PromptID r) raw) = false ->
  attested w sid c r.
Proof.
  intros Hin Hn Hm [[_ Hp%negb_false_iff%bool_decide_eq_true]%orb_false_iff Ht%negb_false_iff]%orb_false_iff.
  split; [done|]. split; [done|]. exists raw. split; [by eapply matchAct_asks|]. rewrite Hp. by apply transcriptHolds_spec.
Qed.

Lemma turnOpener_person rec o : turnOpener rec o = OpenedByPerson -> exists r, rec = Some r /\ notification r = false.
Proof.
  unfold turnOpener. destruct rec as [r|]; [|by repeat case_match]. destruct (delivery r); [done|]. destruct (match o with Some _ => _ | None => _ end); [done|].
  destruct (notification r) eqn:E; [done|]. by exists r.
Qed.

Lemma latestTyped_spec w recs skip tr r : latestTyped w recs skip tr = Some r -> r ∈ recs /\ notification r = false.
Proof.
  unfold latestTyped. intros [Hin H]%find_some. apply andb_true_iff in H as [[[_ H%negb_true_iff]%andb_true_iff _]%andb_true_iff _].
  split; [by apply list_elem_of_In, in_rev|done].
Qed.

Lemma grant_words_attested w p c r quote : grant_words w p c = inr (r, quote) ->
  attested w (hp_SessionID p) c r /\ in_turn w p r.
Proof.
  unfold grant_words, PersonGrants.grant_words. intros H. destruct (_ || _); [done|].
  destruct (turnOpener _ _) as [| |why] eqn:Eo; [| |done].
  - destruct (turnOpener_person _ _ Eo) as (r0 & Er & Hn). rewrite Er in H. apply lastRecord_spec in Er as [Hin Hid].
    destruct (matchAct _ _ _ _ c) as [[q raw]|] eqn:Em; [|done]. destruct (_ || negb _) eqn:Ej; [done|]. simplify_eq.
    split; [by eapply judge_attested|by left].
  - destruct (latestTyped _ _ _ _) as [r0|] eqn:El; [|done]. apply latestTyped_spec in El as [Hin Hn].
    destruct (turnRightAfter _ _ _) eqn:Et; [|done]. apply turnRightAfter_spec in Et as (older & t & between & q0 & newer & Hrec & Ht & Hq & Hb & Hne).
    destruct (matchAct _ _ _ _ c) as [[q raw]|] eqn:Em; [|done]. destruct (_ || negb _) eqn:Ej; [done|]. simplify_eq.
    split; [by eapply judge_attested|]. right. exists older, t, between, q0, newer. done.
Qed.

(** What grantVerdict did when it wrote a marker. *)
Lemma grantVerdict_writes writes p c w w' v k : grantVerdict writes p c w = (w', v, Some k) ->
  exists r quote g', grant_words w p c = inr (r, quote) /\ k = issuedPath (hp_SessionID p) (pr_PromptID r) c /\ pw_issued w !! k = None /\
    w' = set_grants g' (set_issued (<[k := pw_now w]> (pw_issued (pruneGrants w))) (pruneGrants w)) /\
    (g' = pw_grants (pruneGrants w) \/ exists path g, g' = <[path := (pw_now w, g)]> (pw_grants (pruneGrants w)) /\ grant_key sha256 g = k).
Proof.
  unfold grantVerdict, PersonGrants.grantVerdict. fold (grant_words w p c). intros H.
  destruct (grant_words w p c) as [why|[r quote]]; [done|].
  destruct (match loadGrant _ _ with Some _ => _ | None => _ end); [done|].
  destruct (pw_issued w !! _) as [t|] eqn:Ei; [done|]. exists r, quote.
  destruct writes; simplify_eq; eexists; (do 3 (split; [done|])); (split; [reflexivity|]).
  - right. eexists _, _. split; [reflexivity|]. done.
  - by left.
Qed.

Lemma grantVerdict_quiet writes p c w w' v : grantVerdict writes p c w = (w', v, None) -> w' = w \/ w' = pruneGrants w.
Proof.
  unfold grantVerdict, PersonGrants.grantVerdict. intros H. destruct (PersonGrants.grant_words _ _ _ _ _ _) as [why|[r quote]]; [simplify_eq; auto|].
  destruct (match loadGrant _ _ with Some _ => _ | None => _ end); [simplify_eq; auto|].
  destruct (pw_issued w !! _) as [t|]; [simplify_eq; auto|]. destruct writes; simplify_eq; auto.
Qed.

(** The gate changes files only where one literal call is judged. *)
Lemma PersonActGate_judges writes lock result head userName p calls w w' v k :
  PersonActGate writes lock result head userName p calls w = (w', v, k) ->
  (w' = w /\ k = None) \/
  (exists c, calls = [c] /\ pc_Literal c = true /\ getenv envApeSession = [] /\ grantVerdict writes p c w = (w', v, k)).
Proof.
  unfold PersonActGate, PersonGrants.PersonActGate. intros H. destruct calls as [|c more]; [left; naive_solver|].
  destruct (decide (getenv envApeSession = bs "")) as [E|E]; [rewrite (bool_decide_true _ E) in H|rewrite (bool_decide_false _ E) in H; left; naive_solver].
  cbn [negb] in H. destruct (hp_ToolName p =s "Monitor"); [left; naive_solver|]. destruct more; [|left; naive_solver].
  destruct (pc_Literal c) eqn:El; [|left; naive_solver]. cbn [negb] in H.
  destruct (if Long c then _ else _); [left; naive_solver|]. destruct (_ && _); [left; naive_solver|].
  right. exists c. done.
Qed.

(** Pre-tool writes a grant only on words the person typed in this turn, or in the turn
    right before one that a notification opened; the grant is for the act, target and
    session those words name. *)
Theorem grant_issued_on_words writes lock result head userName p calls w w' v k :
  PersonActGate writes lock result head userName p calls w = (w', v, Some k) ->
  exists c r, calls = [c] /\ pc_Literal c = true /\ getenv envApeSession = [] /\ attested w (hp_SessionID p) c r /\ in_turn w p r /\
    k = issuedPath (hp_SessionID p) (pr_PromptID r) c /\ pw_issued w !! k = None.
Proof.
  intros [[_ H]|(c & -> & Hl & He & H)]%PersonActGate_judges; [done|].
  apply grantVerdict_writes in H as (r & quote & g' & Hg & -> & Hi & _). apply grant_words_attested in Hg as [Ha Ht].
  exists c, r. done.
Qed.
End facts.

(** ** Words are spent once *)

Section once.
Context (IsLetter IsDigit : Z -> bool) (ToLower sha256 : gostring -> gostring) (redactText : gostring -> option gostring).

(** What happened, the last first: a marker written at a time, and a grant used. *)
Inductive Event := Issued (key : gostring) (at_ : Z) | Used (key : gostring).

Local Abbreviation grant_key := (grant_key sha256).

(** The use of a grant: takePersonAct gave a granted act, so it took the grant of the
    command line. *)
Definition use_of (c : PersonCall) (w : PWorld) (r : Refusal + option PersonAct) : list Event :=
  match r, pw_grants w !! grantPath (pc_ArgvSHA256 c) with
  | inr (Some a), Some (_, g) => if pa_granted a then [Used (grant_key g)] else []
  | _, _ => []
  end.
Definition issue_of (w : PWorld) (k : option gostring) : list Event :=
  match k with Some k => [Issued k (pw_now w)] | None => [] end.

(** The steps of a project's sessions: a prompt arrives, a transcript grows, time passes,
    pre-tool judges a command line, and a command takes its act. Each process has an
    environment of its own. *)
Inductive step : PWorld * list Event -> PWorld * list Event -> Prop :=
| step_prompt getenv ts p w log : step (w, log) (RecordPrompt getenv ts p w, log)
| step_transcript t w log : step (w, log) (set_transcripts t w, log)
| step_time n w log : pw_now w <= n -> step (w, log) (set_now n w, log)
| step_gate getenv writes lock result head userName p calls w log w' v k :
    PersonActGate IsLetter IsDigit ToLower sha256 redactText getenv writes lock result head userName p calls w = (w', v, k) ->
    step (w, log) (w', issue_of w k ++ log)
| step_take getenv name moved userName c w log w' r :
    takePersonAct IsLetter IsDigit ToLower redactText getenv name moved userName c w = (w', r) ->
    step (w, log) (w', use_of c w r ++ log).

Inductive reached : PWorld * list Event -> Prop :=
| reached_start w : pw_grants w = ∅ -> pw_issued w = ∅ -> reached (w, [])
| reached_step s s' : reached s -> step s s' -> reached s'.

Definition issues (k : gostring) (log : list Event) : nat :=
  length (List.filter (fun e => match e with Issued k' _ => k' =s k | Used _ => false end) log).
Definition uses (k : gostring) (log : list Event) : nat :=
  length (List.filter (fun e => match e with Used k' => k' =s k | Issued _ _ => false end) log).

(** The grants on disk that stand for [k]. *)
Definition held (m : gmap gostring (Z * Grant)) (k : gostring) : nat := size (filter (fun kv => grant_key kv.2.2 = k) m).

(** Every issue younger than a day has its marker, and the issues of one key are more
    than a day apart. *)
Definition marked (w : PWorld) (log : list Event) : Prop :=
  forall k t, Issued k t ∈ log -> t <= pw_now w /\ (pw_now w - day <= t -> is_Some (pw_issued w !! k)).
Definition spaced (log : list Event) : Prop :=
  forall newer k t2 older t1, log = newer ++ Issued k t2 :: older -> Issued k t1 ∈ older -> t1 + day < t2.
(** The markers' own times are those of their issues. *)
Definition dated (w : PWorld) (log : list Event) : Prop :=
  forall k t, pw_issued w !! k = Some t -> forall t', Issued k t' ∈ log -> t' <= t.
Definition accounted (w : PWorld) (log : list Event) : Prop :=
  forall k, (uses k log + held (pw_grants w) k <= issues k log)%nat.
Record once_inv (s : PWorld * list Event) : Prop := MkOnce {
  oi_marked : marked s.1 s.2; oi_spaced : spaced s.2; oi_dated : dated s.1 s.2; oi_accounted : accounted s.1 s.2 }.

Lemma held_mono m m' k : m ⊆ m' -> (held m k <= held m' k)%nat.
Proof. intros H. apply map_subseteq_size, map_filter_subseteq_mono. done. Qed.

Lemma held_delete m path f : m !! path = Some f -> forall k,
  (held (delete path m) k + (if bool_decide (grant_key f.2 = k) then 1 else 0) = held m k)%nat.
Proof.
  intros Hm k. unfold held. rewrite map_filter_delete. case_bool_decide as E.
  - assert (filter (fun kv => grant_key kv.2.2 = k) m !! path = Some f) as Hf by (by apply map_lookup_filter_Some).
    pose proof (map_size_ne_0_lookup_2 _ path (mk_is_Some _ _ Hf)) as Hz.
    rewrite (map_size_delete_Some path _ (mk_is_Some _ _ Hf)), Nat.add_1_r. by apply Nat.succ_pred.
  - rewrite delete_id; [lia|]. apply map_lookup_filter_None. right. intros x Hx. simplify_eq/=. congruence.
Qed.

Lemma held_insert m path f k : (held (<[path := f]> m) k <= held m k + (if bool_decide (grant_key f.2 = k) then 1 else 0))%nat.
Proof.
  unfold held. rewrite map_filter_insert. cbn [snd]. case_decide as E.
  - rewrite bool_decide_true by done. rewrite map_size_insert. case_match; unfold id; lia.
  - rewrite bool_decide_false by done. transitivity (size (filter (fun kv => grant_key kv.2.2 = k) m)); [|lia].
    apply map_subseteq_size, map_filter_subseteq_mono, delete_subseteq.
Qed.

Lemma once_frame w w' log : once_inv (w, log) -> pw_now w <= pw_now w' -> pw_issued w' = pw_issued w -> pw_grants w' ⊆ pw_grants w -> once_inv (w', log).
Proof.
  intros [Hm Hs Hd Ha] Hn Hi Hg. constructor; cbn [fst snd] in *; [|done| |].
  - intros k t Hin. destruct (Hm k t Hin) as [Ht Hk]. rewrite Hi. split; [lia|]. intros. apply Hk. lia.
  - intros k t. rewrite Hi. apply Hd.
  - intros k. specialize (Ha k). pose proof (held_mono _ _ k Hg). lia.
Qed.

Lemma prune_once w log : once_inv (w, log) -> once_inv (pruneGrants w, log).
Proof.
  intros [Hm Hs Hd Ha]. constructor; cbn [fst snd] in *; [|done| |].
  - intros k t Hin. destruct (Hm k t Hin) as [Ht Hk]. split; [done|]. intros Hy. cbn [pruneGrants set_grants set_issued set_consumed pw_now pw_issued] in *. destruct (Hk Hy) as [t' Ht'].
    exists t'. apply map_lookup_filter_Some. split; [done|]. cbn [snd]. specialize (Hd k t' Ht' t Hin). lia.
  - intros k t. cbn. intros [Ht _]%map_lookup_filter_Some. by apply Hd.
  - intros k. specialize (Ha k). cbn. pose proof (held_mono _ _ k (map_filter_subseteq (fun kv => pw_now w - day <= kv.2.1) (pw_grants w))). lia.
Qed.

(** A marker written for a key that has none. *)
Lemma issue_once w log k g' : once_inv (w, log) -> pw_issued w !! k = None ->
  (forall j, held g' j <= held (pw_grants w) j + (if bool_decide (k = j) then 1 else 0))%nat ->
  once_inv (set_grants g' (set_issued (<[k := pw_now w]> (pw_issued w)) w), Issued k (pw_now w) :: log).
Proof.
  intros [Hm Hs Hd Ha] Hk Hg. constructor; cbn [fst snd] in *; [| | |].
  - intros j t [[= -> <-]|Hin]%list_elem_of_In%in_inv; cbn; [rewrite lookup_insert_eq; split; [lia|eauto]|].
    apply list_elem_of_In in Hin. destruct (Hm j t Hin) as [Ht Hj]. split; [done|]. intros Hy. destruct (decide (k = j)) as [->|Hn].
    + rewrite lookup_insert_eq. eauto.
    + rewrite lookup_insert_ne by done. auto.
  - intros [|e newer] j t2 older t1 Heq Hin; simplify_eq/=.
    + destruct (Hm j t1 Hin) as [_ Hj]. destruct (decide (pw_now w - day <= t1)) as [Hy|Hy]; [|lia].
      destruct (Hj Hy) as [x Hx]. congruence.
    + by eapply Hs.
  - intros j t. cbn. destruct (decide (k = j)) as [->|Hn].
    + rewrite lookup_insert_eq. intros [= <-] t' [?|Hin]%list_elem_of_In%in_inv; [simplify_eq; lia|]. apply list_elem_of_In in Hin. by apply (Hm j t').
    + rewrite lookup_insert_ne by done. intros Ht t' [[= ??]|Hin]%list_elem_of_In%in_inv; [done|]. apply list_elem_of_In in Hin. by eapply Hd.
  - intros j. specialize (Ha j). specialize (Hg j). unfold uses, issues in *. cbn [List.filter].
    case_bool_decide; cbn [length set_grants pw_grants]; lia.
Qed.

Lemma gate_once getenv writes lock result head userName p calls w log w' v k : once_inv (w, log) ->
  PersonActGate IsLetter IsDigit ToLower sha256 redactText getenv writes lock result head userName p calls w = (w', v, k) ->
  once_inv (w', issue_of w k ++ log).
Proof.
  intros Hw [[-> ->]|(c & _ & _ & _ & H)]%PersonActGate_judges; [done|]. destruct k as [k|].
  - apply grantVerdict_writes in H as (r & quote & g' & _ & _ & Hnone & -> & Hg').
    refine (issue_once (pruneGrants w) log k g' _ _ _); [by apply prune_once|apply map_lookup_filter_None; by left|].
    intros j. destruct Hg' as [->|(path & g & -> & Hg)]; [lia|]. etransitivity; [apply held_insert|]. cbn [snd]. by rewrite Hg.
  - apply grantVerdict_quiet in H as [->| ->]; [done|by apply prune_once].
Qed.

Lemma use_of_none c w r : match r with inr (Some a) => pa_granted a = false | _ => True end -> use_of c w r = [].
Proof. unfold use_of. destruct r as [|[a|]]; try done. intros ->. by destruct (pw_grants w !! _) as [[]|]. Qed.

Ltac no_use := simplify_eq; split_and!; [done|done|left; split; [by apply use_of_none|done]].

(** Taking an act: without a use the grants only shrink; a use takes its grant away. *)
Lemma takePersonAct_world getenv name moved userName c w w' r :
  takePersonAct IsLetter IsDigit ToLower redactText getenv name moved userName c w = (w', r) ->
  pw_now w' = pw_now w /\ pw_issued w' = pw_issued w /\
  ((use_of c w r = [] /\ pw_grants w' ⊆ pw_grants w) \/
   (exists f, pw_grants w !! grantPath (pc_ArgvSHA256 c) = Some f /\ use_of c w r = [Used (grant_key f.2)] /\
      pw_grants w' = delete (grantPath (pc_ArgvSHA256 c)) (pw_grants w))).
Proof.
  unfold takePersonAct. intros H.
  destruct (ModelSession getenv =s ""); [no_use|]. destruct (ModelSession getenv <>s "CLAUDECODE"); [no_use|].
  destruct (negb (HasGrant _ _ _)); [no_use|]. destruct (userName =s ""); [no_use|]. destruct (_ && _); [no_use|].
  destruct (ConsumeGrant _ _ _ _ _ _ _ _ _) as [w1 [a|]] eqn:Ec; simplify_eq.
  - apply ConsumeGrant_Some in Ec as (f & g & rec & quote & Hf & <- & _ & _ & _ & _ & -> & ->).
    do 2 (split; [done|]). right. exists f. split; [done|]. unfold use_of. rewrite Hf. by destruct f.
  - apply ConsumeGrant_None in Ec as (Hn & Hi & Hg). do 2 (split; [done|]). left. split; [done|done].
Qed.

Lemma take_once getenv name moved userName c w log w' r : once_inv (w, log) ->
  takePersonAct IsLetter IsDigit ToLower redactText getenv name moved userName c w = (w', r) -> once_inv (w', use_of c w r ++ log).
Proof.
  intros Hw (Hn & Hi & [[-> Hg]|(f & Hf & -> & Hg)])%takePersonAct_world; [apply (once_frame w); [done|lia|done|done]|].
  assert (once_inv (w', log)) as Hw' by (apply (once_frame w); [done|lia|done|rewrite Hg; apply delete_subseteq]).
  destruct Hw' as [Hm Hs Hd _]. constructor; cbn [fst snd app] in *.
  - intros k t [?|Hin]%elem_of_cons; [done|auto].
  - intros [|e newer] k t2 older t1 Heq Hin; simplify_eq/=. by eapply Hs.
  - intros k t Ht t' [?|Hin]%elem_of_cons; [done|eauto].
  - intros k. pose proof (oi_accounted _ Hw k) as Ha. cbn [fst snd] in Ha. rewrite Hg. rewrite <- (held_delete _ _ _ Hf k) in Ha.
    unfold uses, issues in *. cbn [List.filter]. case_bool_decide; cbn [length]; lia.
Qed.

Lemma reached_once s : reached s -> once_inv s.
Proof.
  induction 1 as [w Hg Hi|s s' _ IH Hstep].
  - constructor; cbn [fst snd].
    + by intros k t ?%elem_of_nil.
    + by intros [] * ?.
    + intros k t. by rewrite Hi.
    + intros k. unfold held. rewrite Hg, map_filter_empty, map_size_empty. done.
  - inversion Hstep; subst.
    + unfold RecordPrompt. case_match; [done|]. by apply (once_frame w).
    + by apply (once_frame w).
    + by apply (once_frame w).
    + by eapply gate_once.
    + by eapply take_once.
Qed.

(** Where hooks and commands run one after the other, of whatever sessions, a person's
    words are spent once: for every key of a session, prompt, act and target the grants used are no more than the grants issued,
    and two issues for one key are more than a day apart, so a prompt grants an act on a
    target at most once a day however often the command line is varied or repeated. *)
Theorem words_spent_once w log : reached (w, log) ->
  (forall k, uses k log <= issues k log)%nat /\
  (forall newer k t2 older t1, log = newer ++ Issued k t2 :: older -> Issued k t1 ∈ older -> t1 + day < t2).
Proof.
  intros H%reached_once. split; [|apply (oi_spaced _ H)]. intros k. pose proof (oi_accounted _ H k). cbn [fst snd] in *. lia.
Qed.
End once.

(** ** Witnesses *)

Module Sample.
(** A session s1 whose person typed "approve M2", at time 0, with a digest that keeps the
    text; ASCII letters only. *)
Definition low (s : gostring) : gostring := (fun b => if c_upper (bz b) then byte_of (bz b + 32) else b) <$> s.
Definition letter (r : Z) : bool := c_lower r || c_upper r.
Definition env (k : gostring) : gostring := if k =s "CLAUDECODE" then bs "1" else if k =s EnvClaudeSessionID then bs "s1" else [].
Definition typed : PromptRecord := MkPrompt "2026-07-01T10:00:00Z" "s1" "/t" "approve M2" "p1" promptTyped.
Definition world : PWorld :=
  MkPWorld {[ bs "s1" := [typed] ]} {[ bs "/t" := [MkMessage "p1" originHuman "approve M2"] ]} ∅ ∅ ∅ 0.
Definition payload : HookPayload := MkPayload "Bash" "s1" "p1" "/t" [].
Definition approve : PersonCall := MkCall ActMilestoneApprove "M2" [] [] [] "ape-milestone-approve-M2" "ape v1 milestone approve M2" true.
Definition gate (w : PWorld) := PersonActGate letter c_digit low (fun s => s) Some env BothWritten None None [] "ann" payload [approve] w.
Definition take (w : PWorld) := takePersonAct letter c_digit low Some env "g1" true "ann" approve w.
Definition granted : PWorld := (gate world).1.1.
Definition done_ : PWorld := (take granted).1.
Definition key : gostring := issuedPath (fun s => s) "s1" "p1" approve.
Definition act : PersonAct :=
  MkAct ActMilestoneApprove "M2" "ape-milestone-approve-M2" (PersonBy "ann" "2026-07-01T10:00:00Z" "approve M2") "2026-07-01T10:00:00Z" "approve M2" "g1" true.

Lemma gate_gives : gate world = (granted, Allowed, Some key).
Proof. vm_compute. reflexivity. Qed.
Lemma take_gives : take granted = (done_, inr (Some act)).
Proof. vm_compute. reflexivity. Qed.
Lemma take_again : snd (take done_) = inl NoGrant /\ snd (fst (gate done_)) = Denied WhySpent.
Proof. vm_compute. split; reflexivity. Qed.
End Sample.

(** The sample's act is attested. *)
Lemma person_act_attested_witness : exists r, attested Sample.letter c_digit Sample.low Sample.granted "s1" Sample.approve r.
Proof.
  destruct (person_act_attested Sample.letter c_digit Sample.low (fun s => s) Some Sample.env "g1" true "ann" Sample.approve Sample.granted Sample.done_ (Some Sample.act)
    ActMilestoneApprove Sample.take_gives) as [H|(_ & _ & r & quote & H & _)].
  - vm_compute. reflexivity.
  - vm_compute in H. discriminate H.
  - exists r. exact H.
Defined.

(** The sample's grant was issued on the sample's prompt. *)
Lemma grant_issued_on_words_witness : exists c r,
  attested Sample.letter c_digit Sample.low Sample.world "s1" c r /\ in_turn Sample.world Sample.payload r.
Proof.
  destruct (grant_issued_on_words Sample.letter c_digit Sample.low (fun s => s) Some Sample.env BothWritten None None [] "ann" Sample.payload
    [Sample.approve] Sample.world Sample.granted Allowed Sample.key Sample.gate_gives) as (c & r & _ & _ & _ & Ha & Ht & _).
  exists c, r. split; [exact Ha|exact Ht].
Defined.

(** The sample's run: the grant is issued once and used once. *)
Lemma words_spent_once_witness :
  uses Sample.key [Used Sample.key; Issued Sample.key 0] = 1%nat /\
  (forall k, uses k [Used Sample.key; Issued Sample.key 0] <= issues k [Used Sample.key; Issued Sample.key 0])%nat.
Proof.
  split; [vm_compute; reflexivity|].
  refine (proj1 (words_spent_once Sample.letter c_digit Sample.low (fun s => s) Some Sample.done_ [Used Sample.key; Issued Sample.key 0] _)).
  eapply reached_step; [eapply reached_step; [apply (reached_start _ _ _ _ _ Sample.world); reflexivity|]|].
  - refine (step_gate _ _ _ _ _ _ _ _ _ _ _ _ _ _ _ _ _ _ Sample.gate_gives).
  - refine (step_take _ _ _ _ _ _ _ _ _ _ _ [Issued Sample.key 0] _ _ Sample.take_gives).
Defined.
