(* ===== verification/GrantRace.v ===== *)
(** The grants of the person acts (internal/apexv1/personact.go) under processes that
    interleave: pre-tool's hook and the command, each file operation a step of its own. *)
From S2P Require Import Prelude Regex Markdown Spec Shell PersonMatch PersonGrants PersonFacts.

Local Open Scope Z_scope.

(** ** Processes *)

(** Where a process is. The hook has judged the words when it looks for a grant that waits,
    then for the marker, then writes the marker, then the grant. The command looks whether a
    grant waits, reads it, and moves it away or, where it expired, removes it. *)
Inductive Proc :=
| HookJudges (p : HookPayload) (c : PersonCall)
| HookLooks (p : HookPayload) (c : PersonCall) (rec : PromptRecord) (quote : gostring)
| HookStats (p : HookPayload) (c : PersonCall) (rec : PromptRecord) (quote : gostring)
| HookMarks (p : HookPayload) (c : PersonCall) (rec : PromptRecord) (quote : gostring)
| HookWrites (p : HookPayload) (c : PersonCall) (rec : PromptRecord) (quote : gostring)
| HookEnds (v : Verdict)
| TakeLooks (sid : gostring) (c : PersonCall)
| TakeReads (sid : gostring) (c : PersonCall)
| TakeMoves (c : PersonCall) (rec : PromptRecord) (quote : gostring)
| TakeRemoves (c : PersonCall)
| TakeEnds (a : option PersonAct).

(** The files, the processes, and, to tell grants apart, a number for each grant written:
    the number of the one at each path, the next number, and those of the grants that
    became acts. *)
Record Race := MkRace { ra_files : PWorld; ra_procs : gmap nat Proc; ra_ids : gmap gostring nat; ra_next : nat; ra_used : list nat }.

Section race.
Context (IsLetter IsDigit : Z -> bool) (ToLower sha256 : gostring -> gostring) (redactText : gostring -> option gostring).

(** The environment of a command of session [sid]. *)
Definition session_env (sid : gostring) (k : gostring) : gostring :=
  if k =s "CLAUDECODE" then bs "1" else if k =s EnvClaudeSessionID then sid else [].

(** grantVerdict: the hook's next step; [ok] says the file operation succeeds. *)
Definition hook_step (ok : bool) (x : Proc) (s : Race) : Race * Proc :=
  let w := ra_files s in
  match x with
  | HookJudges p c =>
      (s, match grant_words IsLetter IsDigit ToLower w p c with inl why => HookEnds (Denied why) | inr (rec, quote) => HookLooks p c rec quote end)
  | HookLooks p c rec quote =>
      (s, if match loadGrant (pw_grants w) (grantPath (pc_ArgvSHA256 c)) with
             | Some g => live w g && matches g c && (g_SessionID g =s hp_SessionID p) && (g_PromptID g =s pr_PromptID rec)
             | None => false
             end then HookEnds Allowed else HookStats p c rec quote)
  | HookStats p c rec quote =>
      (s, if bool_decide (is_Some (pw_issued w !! issuedPath sha256 (hp_SessionID p) (pr_PromptID rec) c)) then HookEnds (Denied WhySpent)
          else if ok then HookMarks p c rec quote else HookEnds (Denied WhyNotWritten))
  | HookMarks p c rec quote =>
      if ok then (MkRace (set_issued (<[issuedPath sha256 (hp_SessionID p) (pr_PromptID rec) c := pw_now w]> (pw_issued w)) w)
                    (ra_procs s) (ra_ids s) (ra_next s) (ra_used s), HookWrites p c rec quote)
      else (s, HookEnds (Denied WhyNotWritten))
  | HookWrites p c rec quote =>
      let path := grantPath (pc_ArgvSHA256 c) in
      let g := MkGrant (hp_SessionID p) (pr_PromptID rec) (pr_TS rec) (pc_Act c) (pc_Target c) (pc_Task c) (pc_ArgvSHA256 c)
                 (quoteFor redactText quote) (Some (pw_now w + GrantTTL)) in
      if ok then (MkRace (set_grants (<[path := (pw_now w, g)]> (pw_grants w)) w) (ra_procs s) (<[path := ra_next s]> (ra_ids s)) (S (ra_next s)) (ra_used s), HookEnds Allowed)
      else (s, HookEnds (Denied WhyNotWritten))
  | _ => (s, x)
  end.

(** HasGrant, ConsumeGrant: the command's next step; [name] names the consumed grant. *)
Definition take_step (ok : bool) (name : gostring) (x : Proc) (s : Race) : Race * Proc :=
  let w := ra_files s in
  match x with
  | TakeLooks sid c => (s, if HasGrant (session_env sid) w c then TakeReads sid c else TakeEnds None)
  | TakeReads sid c =>
      (s, match loadGrant (pw_grants w) (grantPath (pc_ArgvSHA256 c)) with
          | None => TakeEnds None
          | Some g =>
              if negb (matches g c) then TakeEnds None
              else if negb (live w g) then TakeRemoves c
              else if negb (ownSession (session_env sid) g) then TakeEnds None
              else match backing IsLetter IsDigit ToLower w g c with None => TakeEnds None | Some (rec, quote) => TakeMoves c rec quote end
          end)
  | TakeRemoves c =>
      let path := grantPath (pc_ArgvSHA256 c) in
      (if ok then MkRace (set_grants (delete path (pw_grants w)) w) (ra_procs s) (delete path (ra_ids s)) (ra_next s) (ra_used s) else s, TakeEnds None)
  | TakeMoves c rec quote =>
      let path := grantPath (pc_ArgvSHA256 c) in
      match pw_grants w !! path, ok with
      | Some f, true =>
          (MkRace (set_consumed (<[name := f]> (pw_consumed w)) (set_grants (delete path (pw_grants w)) w))
             (ra_procs s) (delete path (ra_ids s)) (ra_next s) (option_list (ra_ids s !! path) ++ ra_used s),
           TakeEnds (Some (MkAct (pc_Act c) (pc_Target c) (pc_ArgvSHA256 c) [] (pr_TS rec) (quoteFor redactText quote) name true)))
      | _, _ => (s, TakeEnds None)
      end
  | _ => (s, x)
  end.

Definition proc_step (ok : bool) (name : gostring) (x : Proc) (s : Race) : Race * Proc :=
  match x with
  | TakeLooks _ _ | TakeReads _ _ | TakeMoves _ _ _ | TakeRemoves _ | TakeEnds _ => take_step ok name x s
  | _ => hook_step ok x s
  end.

Definition set_proc (i : nat) (x : Proc) (s : Race) : Race := MkRace (ra_files s) (<[i := x]> (ra_procs s)) (ra_ids s) (ra_next s) (ra_used s).

(** A process steps. *)
Definition race_step (ok : bool) (name : gostring) (i : nat) (s : Race) : Race :=
  match ra_procs s !! i with
  | None => s
  | Some x => let '(s', x') := proc_step ok name x s in set_proc i x' s'
  end.

(** What the other processes and the clock change: prompts, transcripts, markers and
    consumed grants at will, time, and grants that are pruned. *)
Definition others (s s' : Race) : Prop :=
  exists gone : list gostring, pw_grants (ra_files s') = foldr delete (pw_grants (ra_files s)) gone /\ ra_ids s' = foldr delete (ra_ids s) gone /\
    ra_procs s' = ra_procs s /\ ra_next s' = ra_next s /\ ra_used s' = ra_used s.

(** A process that begins: the hook on a call's payload, or the command of a session. *)
Definition begins (x : Proc) : Prop := match x with HookJudges _ _ | TakeLooks _ _ => True | _ => False end.

(** The runs: any number of hooks and commands, interleaved at will, from no grants. *)
Inductive raced : Race -> Prop :=
| raced_start w : pw_grants w = ∅ -> raced (MkRace w ∅ ∅ 0 [])
| raced_begin s i x : raced s -> ra_procs s !! i = None -> begins x -> raced (set_proc i x s)
| raced_step s ok name i : raced s -> raced (race_step ok name i s)
| raced_others s s' : raced s -> others s s' -> raced s'.

(** ** A grant is used once *)

Definition acted (x : Proc) : Prop := match x with TakeEnds (Some _) => True | _ => False end.
#[export] Instance acted_dec x : Decision (acted x).
Proof. destruct x; try (right; intros H; exact H). destruct a; [left; exact I|right; intros H; exact H]. Defined.

(** The processes that were given an act. *)
Definition actors (s : Race) : gmap nat Proc := filter (fun kv => acted kv.2) (ra_procs s).

Record race_inv (s : Race) : Prop := MkRaceInv {
  ri_dom : dom (ra_ids s) = dom (pw_grants (ra_files s));
  ri_inj : forall p q n, ra_ids s !! p = Some n -> ra_ids s !! q = Some n -> p = q;
  ri_next : forall p n, ra_ids s !! p = Some n -> (n < ra_next s)%nat /\ n ∉ ra_used s;
  ri_used : NoDup (ra_used s) /\ Forall (fun n => n < ra_next s)%nat (ra_used s);
  ri_acts : size (actors s) = length (ra_used s) }.

(** The files of a state and the processes of another, with as many acts. *)
Lemma inv_procs s s' : race_inv s -> dom (ra_ids s') = dom (pw_grants (ra_files s')) -> ra_ids s' = ra_ids s ->
  ra_next s' = ra_next s -> ra_used s' = ra_used s -> size (actors s') = size (actors s) -> race_inv s'.
Proof. intros [H1 H2 H3 H4 H5] E1 E2 E3 E4 E5. split; rewrite ?E2, ?E3, ?E4 in *; [done..|congruence]. Qed.

Lemma dom_delete_both (gone : list gostring) (m : gmap gostring nat) (g : gmap gostring (Z * Grant)) : dom m = dom g -> dom (foldr delete m gone) = dom (foldr delete g gone).
Proof. intros H. induction gone as [|k gone IH]; [done|]. cbn [foldr]. by rewrite !dom_delete_L, IH. Qed.

Lemma lookup_delete_all (gone : list gostring) (m : gmap gostring nat) p n : foldr delete m gone !! p = Some n -> m !! p = Some n.
Proof. induction gone as [|k gone IH]; [done|]. cbn [foldr]. intros [_ H]%lookup_delete_Some. auto. Qed.

(** Grants that go leave the rest as it was. *)
Lemma inv_gone s s' (gone : list gostring) : race_inv s -> pw_grants (ra_files s') = foldr delete (pw_grants (ra_files s)) gone ->
  ra_ids s' = foldr delete (ra_ids s) gone -> ra_next s' = ra_next s -> ra_used s' = ra_used s -> size (actors s') = size (actors s) -> race_inv s'.
Proof.
  intros [H1 H2 H3 H4 H5] Eg Ei En Eu Ea. split.
  - rewrite Ei, Eg. by apply dom_delete_both.
  - rewrite Ei. intros p q n Hp%lookup_delete_all Hq%lookup_delete_all. by eapply H2.
  - rewrite Ei, En, Eu. intros p n Hp%lookup_delete_all. by eapply H3.
  - by rewrite En, Eu.
  - by rewrite Ea, Eu.
Qed.

Lemma actors_set i x x' s : ra_procs s !! i = Some x -> ~ acted x ->
  size (actors (set_proc i x' s)) = (size (actors s) + if decide (acted x') then 1 else 0)%nat.
Proof.
  intros Hi Hx. unfold actors. cbn [ra_procs set_proc]. assert (filter (fun kv => acted kv.2) (ra_procs s) !! i = None) as Hn.
  { apply map_lookup_filter_None. right. intros y Hy. simplify_eq. done. }
  rewrite map_filter_insert. cbn [snd]. destruct (decide (acted x')) as [H|H].
  - rewrite map_size_insert_None by done. lia.
  - rewrite map_filter_delete, delete_id by done. lia.
Qed.

(** A step that changes no grant and gives no act. *)
Lemma quiet_step s s' i x x' : race_inv s -> ra_procs s !! i = Some x -> ~ acted x -> ~ acted x' ->
  ra_procs s' = ra_procs s -> pw_grants (ra_files s') = pw_grants (ra_files s) -> ra_ids s' = ra_ids s -> ra_next s' = ra_next s -> ra_used s' = ra_used s ->
  race_inv (set_proc i x' s').
Proof.
  intros Hs Hi Hx Hx' Ep Eg Ei En Eu. apply (inv_procs s); try done; cbn [set_proc ra_ids ra_files ra_next ra_used]; [rewrite Ei, Eg; apply Hs|].
  rewrite <- Ep in Hi. rewrite (actors_set i x x' s' Hi Hx), decide_False by done. unfold actors. rewrite Ep. lia.
Qed.

(** The hook's grant takes the next number. *)
Lemma write_step s i x path f v w' : race_inv s -> ra_procs s !! i = Some x -> ~ acted x -> pw_grants w' = <[path := f]> (pw_grants (ra_files s)) ->
  race_inv (set_proc i (HookEnds v) (MkRace w' (ra_procs s) (<[path := ra_next s]> (ra_ids s)) (S (ra_next s)) (ra_used s))).
Proof.
  intros [H1 H2 H3 [H4 H4'] H5] Hi Hx Eg. split; cbn [set_proc ra_ids ra_files ra_next ra_used].
  - by rewrite Eg, !dom_insert_L, H1.
  - intros p q n [[<- <-]|[Hp Hn]]%lookup_insert_Some [[<- E]|[Hq Hn']]%lookup_insert_Some; try done.
    + apply H3 in Hn' as [? _]. lia.
    + apply H3 in Hn as [? _]. lia.
    + by eapply H2.
  - intros p n [[<- <-]|[_ Hn]]%lookup_insert_Some.
    + split; [lia|]. intros Hin. rewrite Forall_forall in H4'. apply H4' in Hin. lia.
    + destruct (H3 p n Hn). split; [lia|done].
  - split; [done|]. eapply Forall_impl; [exact H4'|]. cbn. lia.
  - rewrite (actors_set i x _ (MkRace w' (ra_procs s) _ _ _)); [|done|done]. rewrite decide_False by (intros []). rewrite Nat.add_0_r. exact H5.
Qed.

(** A command that moves a grant away uses its number. *)
Lemma move_step s i x path a w' : race_inv s -> ra_procs s !! i = Some x -> ~ acted x -> is_Some (pw_grants (ra_files s) !! path) ->
  pw_grants w' = delete path (pw_grants (ra_files s)) ->
  race_inv (set_proc i (TakeEnds (Some a)) (MkRace w' (ra_procs s) (delete path (ra_ids s)) (ra_next s) (option_list (ra_ids s !! path) ++ ra_used s))).
Proof.
  intros [H1 H2 H3 [H4 H4'] H5] Hi Hx Hp Eg. apply elem_of_dom in Hp. rewrite <- H1 in Hp. apply elem_of_dom in Hp as [n Hn]. rewrite Hn. cbn [option_list app].
  destruct (H3 path n Hn) as [Hlt Hnin]. split; cbn [set_proc ra_ids ra_files ra_next ra_used].
  - by rewrite Eg, !dom_delete_L, H1.
  - intros p q m [_ Hp]%lookup_delete_Some [_ Hq]%lookup_delete_Some. by eapply H2.
  - intros p m [Hne Hm]%lookup_delete_Some. destruct (H3 p m Hm) as [? ?]. split; [done|]. intros [->|?]%elem_of_cons; [|done]. apply Hne. by eapply H2.
  - split; by constructor.
  - rewrite (actors_set i x _ (MkRace w' (ra_procs s) _ _ _)); [|done|done]. rewrite decide_True by done. cbn [length].
    change (size (actors s) + 1 = S (length (ra_used s)))%nat. lia.
Qed.

Ltac quiet Hs Hi := eapply (quiet_step _ _ _ _ _ Hs Hi); [intros []|repeat case_match; intros []|reflexivity..].

Lemma step_inv s ok name i : race_inv s -> race_inv (race_step ok name i s).
Proof.
  intros Hs. unfold race_step. destruct (ra_procs s !! i) as [x|] eqn:Hi; [|done].
  destruct x as [p c|p c rec quote|p c rec quote|p c rec quote|p c rec quote|v|sid c|sid c|c rec quote|c|a]; cbn [proc_step hook_step take_step].
  1-3: quiet Hs Hi.
  - destruct ok; quiet Hs Hi.
  - destruct ok; [|quiet Hs Hi]. eapply (write_step s i _ _ _ _ _ Hs Hi); [intros []|reflexivity].
  - quiet Hs Hi.
  - quiet Hs Hi.
  - quiet Hs Hi.
  - destruct (pw_grants (ra_files s) !! grantPath (pc_ArgvSHA256 c)) as [f|] eqn:Ef; [destruct ok|]; [|quiet Hs Hi..].
    eapply (move_step s i _ _ _ _ Hs Hi); [intros []|by rewrite Ef|reflexivity].
  - destruct ok; [|quiet Hs Hi]. apply (inv_gone s _ [grantPath (pc_ArgvSHA256 c)]); try done.
    rewrite (actors_set i (TakeRemoves c)); [|done|intros []]. rewrite decide_False by (intros []). cbn. unfold actors. cbn. lia.
  - unfold set_proc. rewrite insert_id by done. by destruct s.
Qed.

Lemma raced_inv s : raced s -> race_inv s.
Proof.
  induction 1 as [w Hw|s i x _ IH Hi Hx|s ok name i _ IH|s s' _ IH (gone & Eg & Ei & Ep & En & Eu)].
  - split; cbn [ra_ids ra_files ra_next ra_used].
    + by rewrite Hw, !dom_empty_L.
    + intros p q n. by rewrite lookup_empty.
    + intros p n. by rewrite lookup_empty.
    + split; [apply NoDup_nil_2|constructor].
    + unfold actors. cbn [ra_procs]. by rewrite map_filter_empty, map_size_empty.
  - apply (inv_procs s); try done; [apply IH|]. unfold actors, set_proc. cbn [ra_procs]. rewrite map_filter_insert_not'; [done| |].
    + intros H. by destruct x as [| | | | | | | | | |[]].
    + intros y Hy. congruence.
  - by apply step_inv.
  - eapply inv_gone; try done. unfold actors. by rewrite Ep.
Qed.

(** C17: A grant is used once, whatever processes race for it. Any number of hooks and commands
    run at a time, each step a single file operation - the look for a waiting grant, the look
    for the marker, the write of the marker, the write of the grant, the read of the grant,
    its move, its removal -, in any order and with any of the writes and moves failing, while
    grants are pruned: the commands that are given an act are exactly as many as the grants
    that were moved, each moved once, and every one of them was written by a hook, so that
    acts given are never more than grants written. (A hook that finds no marker can be one
    of two: see [issued_twice].) *)
Theorem grants_used_once s : raced s ->
  NoDup (ra_used s) /\ Forall (fun n => n < ra_next s)%nat (ra_used s) /\ size (actors s) = length (ra_used s) /\ (size (actors s) <= ra_next s)%nat /\
  forall path n, ra_ids s !! path = Some n -> n ∉ ra_used s.
Proof.
  intros H. destruct (raced_inv s H) as [_ _ H3 [HN HF] H5]. split_and!; [done|done|done| |intros path n Hn; by eapply H3].
  assert (ra_used s ⊆+ seq 0%nat (ra_next s)) as Hsub.
  { apply NoDup_submseteq; [done|]. intros n Hn. rewrite Forall_forall in HF. apply elem_of_seq. apply HF in Hn. lia. }
  apply submseteq_length in Hsub. rewrite length_seq in Hsub. lia.
Qed.
End race.

(** ** Samples *)

(** The person typed "approve M2" once. Two commands of the session, and a second command
    line for the same act and target. *)
Definition approve_again : PersonCall := MkCall ActMilestoneApprove "M2" [] [] [] "ape-milestone-approve-M2-yes" "ape v1 milestone approve M2 --yes" true.
Abbreviation go i s := (race_step PersonFacts.Sample.letter c_digit PersonFacts.Sample.low (fun x => x) Some true "g1" i s).
Definition run_procs (schedule : list nat) (s : Race) : Race := foldl (fun s i => go i s) s schedule.
Definition hook_of (c : PersonCall) : Proc := HookJudges PersonFacts.Sample.payload c.
Definition take_of (c : PersonCall) : Proc := TakeLooks "s1" c.
Abbreviation raced_sample := (raced PersonFacts.Sample.letter c_digit PersonFacts.Sample.low (fun x => x) Some).

Lemma run_raced schedule s : raced_sample s -> raced_sample (run_procs schedule s).
Proof. revert s. induction schedule as [|i schedule IH]; intros s H; [done|]. apply IH. by apply raced_step. Qed.

(** Two commands race for one grant: both read it, one is given the act. *)
Definition contended : Race :=
  run_procs [0; 0; 0; 0; 0; 1; 1; 2; 2; 1; 2]%nat (set_proc 2 (take_of PersonFacts.Sample.approve)
    (set_proc 1 (take_of PersonFacts.Sample.approve) (set_proc 0 (hook_of PersonFacts.Sample.approve) (MkRace PersonFacts.Sample.world ∅ ∅ 0 [])))).

Lemma grants_used_once_witness : ra_used contended = [0%nat] /\ size (actors contended) = 1%nat /\ (size (actors contended) <= ra_next contended)%nat.
Proof.
  split; [vm_compute; reflexivity|]. split; [vm_compute; reflexivity|].
  refine (proj1 (proj2 (proj2 (proj2 (grants_used_once PersonFacts.Sample.letter c_digit PersonFacts.Sample.low (fun x => x) Some contended _))))).
  apply run_raced. apply raced_begin; [apply raced_begin; [apply raced_begin; [apply raced_start|..]|..]|..]; try reflexivity; exact I.
Defined.

(** Two hooks of one turn, for two command lines of one act and target, that both look for
    the marker before either writes it, both write a grant, and both commands are given the
    act: the person's words are spent twice. One after the other, the second is denied. *)
Theorem issued_twice :
  let start := set_proc 3 (take_of approve_again) (set_proc 2 (take_of PersonFacts.Sample.approve)
    (set_proc 1 (hook_of approve_again) (set_proc 0 (hook_of PersonFacts.Sample.approve) (MkRace PersonFacts.Sample.world ∅ ∅ 0 [])))) in
  let overlapping := run_procs [0; 0; 0; 1; 1; 1; 0; 0; 1; 1; 2; 2; 2; 3; 3; 3]%nat start in
  let serial := run_procs [0; 0; 0; 0; 0; 1; 1; 1; 1; 1; 2; 2; 2; 3; 3; 3]%nat start in
  size (actors overlapping) = 2%nat /\ size (pw_issued (ra_files overlapping)) = 1%nat /\
  size (actors serial) = 1%nat /\ ra_procs serial !! 1%nat = Some (HookEnds (Denied WhySpent)).
Proof. vm_compute. split_and!; reflexivity. Qed.
