(* ===== verification/State.v ===== *)
(** A change's state.json and the records beside it, internal/apexv1/state.go,
    attempts.go, human.go and baseaccept.go. *)
From S2P Require Import Prelude Change Effective Regression.

Inductive Status :=
| StatusDraft | StatusInProgress | StatusVerified | StatusReviewed | StatusBlocked | StatusArchived
| StatusAbandoned | StatusAnswered.
#[export] Instance Status_eq_dec : EqDecision Status.
Proof. solve_decision. Defined.

Record Baseline := MkBaseline { b_Task : gostring; b_Exit : Z; b_Cmd : gostring; b_SHA : gostring }.
Record Replan := MkReplan { rp_At : gostring; rp_SHA : gostring; rp_From : gostring; rp_To : gostring }.
Record GreenAtBaseline := MkGAB {
  g_Task : gostring; g_Kind : CheckKind; g_Cmd : gostring; g_SHA : gostring; g_AtReplan : bool; g_Regression : bool }.
Record Verify := MkVerify {
  v_SHA : gostring; v_At : gostring; v_Results : list CheckResult; v_PendingHuman : list gostring; v_Green : bool;
  v_GreenAtBaseline : list GreenAtBaseline; v_Stale : bool; v_StaleReason : gostring;
  v_Regression : option RegressionVerdict; v_FullSkipped : nat }.
Record Approval := MkApproval { ap_By : gostring; ap_At : gostring; ap_PlanDigest : gostring }.
Record Rebase := MkRebase {
  rs_At : gostring; rs_From : gostring; rs_To : gostring; rs_Head : gostring; rs_Rebased : bool;
  rs_OldTipRef : gostring; rs_Conflicts : list gostring }.
Record Review := MkReview { rw_Verdict : gostring; rw_At : gostring; rw_SHA : gostring; rw_Findings : gostring }.
Record ReviewVoid := MkVoid { vo_At : gostring; vo_Run : gostring; vo_Verdict : gostring; vo_Violations : list gostring }.
Record Answer := MkAnswer { an_By : gostring; an_At : gostring; an_Text : gostring; an_ReplansBefore : nat }.
(** [ac_Evidence] are the evidence's paths and URLs. *)
Record Accept := MkAccept { ac_Task : gostring; ac_By : gostring; ac_At : gostring; ac_Evidence : list gostring; ac_Run : gostring }.

(** A delegate's fail that went back to the change (delegate.go). *)
Record DelegateReturn := MkReturn { dr_Run : gostring; dr_Reason : gostring; dr_Defects : list gostring; dr_At : gostring }.

Record State := MkState {
  st_ID : gostring; st_Status : Status; st_BaseBranch : gostring; st_BaseSHA : gostring; st_StartedAt : gostring;
  st_Baseline : list Baseline; st_PlanDigest : gostring; st_BaseFingerprints : gmap gostring gostring;
  st_Replans : list Replan; st_Rebases : list Rebase; st_Approved : option Approval;
  st_Regression : option RegressionBaseline; st_MilestoneRegression : option RegressionBaseline;
  st_Verify : option Verify; st_Review : option Review; st_Accepted : list Accept;
  st_BlockedReason : option gostring; st_ReviewVoided : list ReviewVoid; st_AllowPendingHuman : bool;
  st_AllowPendingHumanBy : gostring; st_Answer : option Answer; st_AbandonedReason : gostring;
  st_ArchivedAt : gostring; st_ArchivedTo : gostring; st_CreatedAt : gostring; st_BranchTip : gostring;
  st_TipRef : gostring; st_DelegateReturns : gmap gostring (list DelegateReturn) }.

(** Assignments to a field. *)
Definition set_Status (x : Status) (s : State) : State :=
  MkState (st_ID s) x (st_BaseBranch s) (st_BaseSHA s) (st_StartedAt s) (st_Baseline s) (st_PlanDigest s)
    (st_BaseFingerprints s) (st_Replans s) (st_Rebases s) (st_Approved s) (st_Regression s)
    (st_MilestoneRegression s) (st_Verify s) (st_Review s) (st_Accepted s) (st_BlockedReason s)
    (st_ReviewVoided s) (st_AllowPendingHuman s) (st_AllowPendingHumanBy s) (st_Answer s)
    (st_AbandonedReason s) (st_ArchivedAt s) (st_ArchivedTo s) (st_CreatedAt s) (st_BranchTip s)
    (st_TipRef s) (st_DelegateReturns s).
Definition set_BaseBranch (x : gostring) (s : State) : State :=
  MkState (st_ID s) (st_Status s) x (st_BaseSHA s) (st_StartedAt s) (st_Baseline s) (st_PlanDigest s)
    (st_BaseFingerprints s) (st_Replans s) (st_Rebases s) (st_Approved s) (st_Regression s)
    (st_MilestoneRegression s) (st_Verify s) (st_Review s) (st_Accepted s) (st_BlockedReason s)
    (st_ReviewVoided s) (st_AllowPendingHuman s) (st_AllowPendingHumanBy s) (st_Answer s)
    (st_AbandonedReason s) (st_ArchivedAt s) (st_ArchivedTo s) (st_CreatedAt s) (st_BranchTip s)
    (st_TipRef s) (st_DelegateReturns s).
Definition set_BaseSHA (x : gostring) (s : State) : State :=
  MkState (st_ID s) (st_Status s) (st_BaseBranch s) x (st_StartedAt s) (st_Baseline s) (st_PlanDigest s)
    (st_BaseFingerprints s) (st_Replans s) (st_Rebases s) (st_Approved s) (st_Regression s)
    (st_MilestoneRegression s) (st_Verify s) (st_Review s) (st_Accepted s) (st_BlockedReason s)
    (st_ReviewVoided s) (st_AllowPendingHuman s) (st_AllowPendingHumanBy s) (st_Answer s)
    (st_AbandonedReason s) (st_ArchivedAt s) (st_ArchivedTo s) (st_CreatedAt s) (st_BranchTip s)
    (st_TipRef s) (st_DelegateReturns s).
Definition set_StartedAt (x : gostring) (s : State) : State :=
  MkState (st_ID s) (st_Status s) (st_BaseBranch s) (st_BaseSHA s) x (st_Baseline s) (st_PlanDigest s)
    (st_BaseFingerprints s) (st_Replans s) (st_Rebases s) (st_Approved s) (st_Regression s)
    (st_MilestoneRegression s) (st_Verify s) (st_Review s) (st_Accepted s) (st_BlockedReason s)
    (st_ReviewVoided s) (st_AllowPendingHuman s) (st_AllowPendingHumanBy s) (st_Answer s)
    (st_AbandonedReason s) (st_ArchivedAt s) (st_ArchivedTo s) (st_CreatedAt s) (st_BranchTip s)
    (st_TipRef s) (st_DelegateReturns s).
Definition set_Baseline (x : list Baseline) (s : State) : State :=
  MkState (st_ID s) (st_Status s) (st_BaseBranch s) (st_BaseSHA s) (st_StartedAt s) x (st_PlanDigest s)
    (st_BaseFingerprints s) (st_Replans s) (st_Rebases s) (st_Approved s) (st_Regression s)
    (st_MilestoneRegression s) (st_Verify s) (st_Review s) (st_Accepted s) (st_BlockedReason s)
    (st_ReviewVoided s) (st_AllowPendingHuman s) (st_AllowPendingHumanBy s) (st_Answer s)
    (st_AbandonedReason s) (st_ArchivedAt s) (st_ArchivedTo s) (st_CreatedAt s) (st_BranchTip s)
    (st_TipRef s) (st_DelegateReturns s).
Definition set_PlanDigest (x : gostring) (s : State) : State :=
  MkState (st_ID s) (st_Status s) (st_BaseBranch s) (st_BaseSHA s) (st_StartedAt s) (st_Baseline s) x
    (st_BaseFingerprints s) (st_Replans s) (st_Rebases s) (st_Approved s) (st_Regression s)
    (st_MilestoneRegression s) (st_Verify s) (st_Review s) (st_Accepted s) (st_BlockedReason s)
    (st_ReviewVoided s) (st_AllowPendingHuman s) (st_AllowPendingHumanBy s) (st_Answer s)
    (st_AbandonedReason s) (st_ArchivedAt s) (st_ArchivedTo s) (st_CreatedAt s) (st_BranchTip s)
    (st_TipRef s) (st_DelegateReturns s).
Definition set_BaseFingerprints (x : gmap gostring gostring) (s : State) : State :=
  MkState (st_ID s) (st_Status s) (st_BaseBranch s) (st_BaseSHA s) (st_StartedAt s) (st_Baseline s)
    (st_PlanDigest s) x (st_Replans s) (st_Rebases s) (st_Approved s) (st_Regression s)
    (st_MilestoneRegression s) (st_Verify s) (st_Review s) (st_Accepted s) (st_BlockedReason s)
    (st_ReviewVoided s) (st_AllowPendingHuman s) (st_AllowPendingHumanBy s) (st_Answer s)
    (st_AbandonedReason s) (st_ArchivedAt s) (st_ArchivedTo s) (st_CreatedAt s) (st_BranchTip s)
    (st_TipRef s) (st_DelegateReturns s).
Definition set_Replans (x : list Replan) (s : State) : State :=
  MkState (st_ID s) (st_Status s) (st_BaseBranch s) (st_BaseSHA s) (st_StartedAt s) (st_Baseline s)
    (st_PlanDigest s) (st_BaseFingerprints s) x (st_Rebases s) (st_Approved s) (st_Regression s)
    (st_MilestoneRegression s) (st_Verify s) (st_Review s) (st_Accepted s) (st_BlockedReason s)
    (st_ReviewVoided s) (st_AllowPendingHuman s) (st_AllowPendingHumanBy s) (st_Answer s)
    (st_AbandonedReason s) (st_ArchivedAt s) (st_ArchivedTo s) (st_CreatedAt s) (st_BranchTip s)
    (st_TipRef s) (st_DelegateReturns s).
Definition set_Rebases (x : list Rebase) (s : State) : State :=
  MkState (st_ID s) (st_Status s) (st_BaseBranch s) (st_BaseSHA s) (st_StartedAt s) (st_Baseline s)
    (st_PlanDigest s) (st_BaseFingerprints s) (st_Replans s) x (st_Approved s) (st_Regression s)
    (st_MilestoneRegression s) (st_Verify s) (st_Review s) (st_Accepted s) (st_BlockedReason s)
    (st_ReviewVoided s) (st_AllowPendingHuman s) (st_AllowPendingHumanBy s) (st_Answer s)
    (st_AbandonedReason s) (st_ArchivedAt s) (st_ArchivedTo s) (st_CreatedAt s) (st_BranchTip s)
    (st_TipRef s) (st_DelegateReturns s).
Definition set_Approved (x : option Approval) (s : State) : State :=
  MkState (st_ID s) (st_Status s) (st_BaseBranch s) (st_BaseSHA s) (st_StartedAt s) (st_Baseline s)
    (st_PlanDigest s) (st_BaseFingerprints s) (st_Replans s) (st_Rebases s) x (st_Regression s)
    (st_MilestoneRegression s) (st_Verify s) (st_Review s) (st_Accepted s) (st_BlockedReason s)
    (st_ReviewVoided s) (st_AllowPendingHuman s) (st_AllowPendingHumanBy s) (st_Answer s)
    (st_AbandonedReason s) (st_ArchivedAt s) (st_ArchivedTo s) (st_CreatedAt s) (st_BranchTip s)
    (st_TipRef s) (st_DelegateReturns s).
Definition set_Regression (x : option RegressionBaseline) (s : State) : State :=
  MkState (st_ID s) (st_Status s) (st_BaseBranch s) (st_BaseSHA s) (st_StartedAt s) (st_Baseline s)
    (st_PlanDigest s) (st_BaseFingerprints s) (st_Replans s) (st_Rebases s) (st_Approved s) x
    (st_MilestoneRegression s) (st_Verify s) (st_Review s) (st_Accepted s) (st_BlockedReason s)
    (st_ReviewVoided s) (st_AllowPendingHuman s) (st_AllowPendingHumanBy s) (st_Answer s)
    (st_AbandonedReason s) (st_ArchivedAt s) (st_ArchivedTo s) (st_CreatedAt s) (st_BranchTip s)
    (st_TipRef s) (st_DelegateReturns s).
Definition set_MilestoneRegression (x : option RegressionBaseline) (s : State) : State :=
  MkState (st_ID s) (st_Status s) (st_BaseBranch s) (st_BaseSHA s) (st_StartedAt s) (st_Baseline s)
    (st_PlanDigest s) (st_BaseFingerprints s) (st_Replans s) (st_Rebases s) (st_Approved s)
    (st_Regression s) x (st_Verify s) (st_Review s) (st_Accepted s) (st_BlockedReason s)
    (st_ReviewVoided s) (st_AllowPendingHuman s) (st_AllowPendingHumanBy s) (st_Answer s)
    (st_AbandonedReason s) (st_ArchivedAt s) (st_ArchivedTo s) (st_CreatedAt s) (st_BranchTip s)
    (st_TipRef s) (st_DelegateReturns s).
Definition set_Verify (x : option Verify) (s : State) : State :=
  MkState (st_ID s) (st_Status s) (st_BaseBranch s) (st_BaseSHA s) (st_StartedAt s) (st_Baseline s)
    (st_PlanDigest s) (st_BaseFingerprints s) (st_Replans s) (st_Rebases s) (st_Approved s)
    (st_Regression s) (st_MilestoneRegression s) x (st_Review s) (st_Accepted s) (st_BlockedReason s)
    (st_ReviewVoided s) (st_AllowPendingHuman s) (st_AllowPendingHumanBy s) (st_Answer s)
    (st_AbandonedReason s) (st_ArchivedAt s) (st_ArchivedTo s) (st_CreatedAt s) (st_BranchTip s)
    (st_TipRef s) (st_DelegateReturns s).
Definition set_Review (x : option Review) (s : State) : State :=
  MkState (st_ID s) (st_Status s) (st_BaseBranch s) (st_BaseSHA s) (st_StartedAt s) (st_Baseline s)
    (st_PlanDigest s) (st_BaseFingerprints s) (st_Replans s) (st_Rebases s) (st_Approved s)
    (st_Regression s) (st_MilestoneRegression s) (st_Verify s) x (st_Accepted s) (st_BlockedReason s)
    (st_ReviewVoided s) (st_AllowPendingHuman s) (st_AllowPendingHumanBy s) (st_Answer s)
    (st_AbandonedReason s) (st_ArchivedAt s) (st_ArchivedTo s) (st_CreatedAt s) (st_BranchTip s)
    (st_TipRef s) (st_DelegateReturns s).
Definition set_Accepted (x : list Accept) (s : State) : State :=
  MkState (st_ID s) (st_Status s) (st_BaseBranch s) (st_BaseSHA s) (st_StartedAt s) (st_Baseline s)
    (st_PlanDigest s) (st_BaseFingerprints s) (st_Replans s) (st_Rebases s) (st_Approved s)
    (st_Regression s) (st_MilestoneRegression s) (st_Verify s) (st_Review s) x (st_BlockedReason s)
    (st_ReviewVoided s) (st_AllowPendingHuman s) (st_AllowPendingHumanBy s) (st_Answer s)
    (st_AbandonedReason s) (st_ArchivedAt s) (st_ArchivedTo s) (st_CreatedAt s) (st_BranchTip s)
    (st_TipRef s) (st_DelegateReturns s).
Definition set_BlockedReason (x : option gostring) (s : State) : State :=
  MkState (st_ID s) (st_Status s) (st_BaseBranch s) (st_BaseSHA s) (st_StartedAt s) (st_Baseline s)
    (st_PlanDigest s) (st_BaseFingerprints s) (st_Replans s) (st_Rebases s) (st_Approved s)
    (st_Regression s) (st_MilestoneRegression s) (st_Verify s) (st_Review s) (st_Accepted s) x
    (st_ReviewVoided s) (st_AllowPendingHuman s) (st_AllowPendingHumanBy s) (st_Answer s)
    (st_AbandonedReason s) (st_ArchivedAt s) (st_ArchivedTo s) (st_CreatedAt s) (st_BranchTip s)
    (st_TipRef s) (st_DelegateReturns s).
Definition set_ReviewVoided (x : list ReviewVoid) (s : State) : State :=
  MkState (st_ID s) (st_Status s) (st_BaseBranch s) (st_BaseSHA s) (st_StartedAt s) (st_Baseline s)
    (st_PlanDigest s) (st_BaseFingerprints s) (st_Replans s) (st_Rebases s) (st_Approved s)
    (st_Regression s) (st_MilestoneRegression s) (st_Verify s) (st_Review s) (st_Accepted s)
    (st_BlockedReason s) x (st_AllowPendingHuman s) (st_AllowPendingHumanBy s) (st_Answer s)
    (st_AbandonedReason s) (st_ArchivedAt s) (st_ArchivedTo s) (st_CreatedAt s) (st_BranchTip s)
    (st_TipRef s) (st_DelegateReturns s).
Definition set_AllowPendingHuman (x : bool) (s : State) : State :=
  MkState (st_ID s) (st_Status s) (st_BaseBranch s) (st_BaseSHA s) (st_StartedAt s) (st_Baseline s)
    (st_PlanDigest s) (st_BaseFingerprints s) (st_Replans s) (st_Rebases s) (st_Approved s)
    (st_Regression s) (st_MilestoneRegression s) (st_Verify s) (st_Review s) (st_Accepted s)
    (st_BlockedReason s) (st_ReviewVoided s) x (st_AllowPendingHumanBy s) (st_Answer s)
    (st_AbandonedReason s) (st_ArchivedAt s) (st_ArchivedTo s) (st_CreatedAt s) (st_BranchTip s)
    (st_TipRef s) (st_DelegateReturns s).
Definition set_AllowPendingHumanBy (x : gostring) (s : State) : State :=
  MkState (st_ID s) (st_Status s) (st_BaseBranch s) (st_BaseSHA s) (st_StartedAt s) (st_Baseline s)
    (st_PlanDigest s) (st_BaseFingerprints s) (st_Replans s) (st_Rebases s) (st_Approved s)
    (st_Regression s) (st_MilestoneRegression s) (st_Verify s) (st_Review s) (st_Accepted s)
    (st_BlockedReason s) (st_ReviewVoided s) (st_AllowPendingHuman s) x (st_Answer s)
    (st_AbandonedReason s) (st_ArchivedAt s) (st_ArchivedTo s) (st_CreatedAt s) (st_BranchTip s)
    (st_TipRef s) (st_DelegateReturns s).
Definition set_Answer (x : option Answer) (s : State) : State :=
  MkState (st_ID s) (st_Status s) (st_BaseBranch s) (st_BaseSHA s) (st_StartedAt s) (st_Baseline s)
    (st_PlanDigest s) (st_BaseFingerprints s) (st_Replans s) (st_Rebases s) (st_Approved s)
    (st_Regression s) (st_MilestoneRegression s) (st_Verify s) (st_Review s) (st_Accepted s)
    (st_BlockedReason s) (st_ReviewVoided s) (st_AllowPendingHuman s) (st_AllowPendingHumanBy s) x
    (st_AbandonedReason s) (st_ArchivedAt s) (st_ArchivedTo s) (st_CreatedAt s) (st_BranchTip s)
    (st_TipRef s) (st_DelegateReturns s).
Definition set_AbandonedReason (x : gostring) (s : State) : State :=
  MkState (st_ID s) (st_Status s) (st_BaseBranch s) (st_BaseSHA s) (st_StartedAt s) (st_Baseline s)
    (st_PlanDigest s) (st_BaseFingerprints s) (st_Replans s) (st_Rebases s) (st_Approved s)
    (st_Regression s) (st_MilestoneRegression s) (st_Verify s) (st_Review s) (st_Accepted s)
    (st_BlockedReason s) (st_ReviewVoided s) (st_AllowPendingHuman s) (st_AllowPendingHumanBy s)
    (st_Answer s) x (st_ArchivedAt s) (st_ArchivedTo s) (st_CreatedAt s) (st_BranchTip s) (st_TipRef s) (st_DelegateReturns s).
Definition set_ArchivedAt (x : gostring) (s : State) : State :=
  MkState (st_ID s) (st_Status s) (st_BaseBranch s) (st_BaseSHA s) (st_StartedAt s) (st_Baseline s)
    (st_PlanDigest s) (st_BaseFingerprints s) (st_Replans s) (st_Rebases s) (st_Approved s)
    (st_Regression s) (st_MilestoneRegression s) (st_Verify s) (st_Review s) (st_Accepted s)
    (st_BlockedReason s) (st_ReviewVoided s) (st_AllowPendingHuman s) (st_AllowPendingHumanBy s)
    (st_Answer s) (st_AbandonedReason s) x (st_ArchivedTo s) (st_CreatedAt s) (st_BranchTip s)
    (st_TipRef s) (st_DelegateReturns s).
Definition set_ArchivedTo (x : gostring) (s : State) : State :=
  MkState (st_ID s) (st_Status s) (st_BaseBranch s) (st_BaseSHA s) (st_StartedAt s) (st_Baseline s)
    (st_PlanDigest s) (st_BaseFingerprints s) (st_Replans s) (st_Rebases s) (st_Approved s)
    (st_Regression s) (st_MilestoneRegression s) (st_Verify s) (st_Review s) (st_Accepted s)
    (st_BlockedReason s) (st_ReviewVoided s) (st_AllowPendingHuman s) (st_AllowPendingHumanBy s)
    (st_Answer s) (st_AbandonedReason s) (st_ArchivedAt s) x (st_CreatedAt s) (st_BranchTip s)
    (st_TipRef s) (st_DelegateReturns s).
Definition set_BranchTip (x : gostring) (s : State) : State :=
  MkState (st_ID s) (st_Status s) (st_BaseBranch s) (st_BaseSHA s) (st_StartedAt s) (st_Baseline s)
    (st_PlanDigest s) (st_BaseFingerprints s) (st_Replans s) (st_Rebases s) (st_Approved s)
    (st_Regression s) (st_MilestoneRegression s) (st_Verify s) (st_Review s) (st_Accepted s)
    (st_BlockedReason s) (st_ReviewVoided s) (st_AllowPendingHuman s) (st_AllowPendingHumanBy s)
    (st_Answer s) (st_AbandonedReason s) (st_ArchivedAt s) (st_ArchivedTo s) (st_CreatedAt s) x
    (st_TipRef s) (st_DelegateReturns s).
Definition set_TipRef (x : gostring) (s : State) : State :=
  MkState (st_ID s) (st_Status s) (st_BaseBranch s) (st_BaseSHA s) (st_StartedAt s) (st_Baseline s)
    (st_PlanDigest s) (st_BaseFingerprints s) (st_Replans s) (st_Rebases s) (st_Approved s)
    (st_Regression s) (st_MilestoneRegression s) (st_Verify s) (st_Review s) (st_Accepted s)
    (st_BlockedReason s) (st_ReviewVoided s) (st_AllowPendingHuman s) (st_AllowPendingHumanBy s)
    (st_Answer s) (st_AbandonedReason s) (st_ArchivedAt s) (st_ArchivedTo s) (st_CreatedAt s)
    (st_BranchTip s) x (st_DelegateReturns s).
Definition set_DelegateReturns (x : gmap gostring (list DelegateReturn)) (s : State) : State :=
  MkState (st_ID s) (st_Status s) (st_BaseBranch s) (st_BaseSHA s) (st_StartedAt s) (st_Baseline s)
    (st_PlanDigest s) (st_BaseFingerprints s) (st_Replans s) (st_Rebases s) (st_Approved s)
    (st_Regression s) (st_MilestoneRegression s) (st_Verify s) (st_Review s) (st_Accepted s)
    (st_BlockedReason s) (st_ReviewVoided s) (st_AllowPendingHuman s) (st_AllowPendingHumanBy s)
    (st_Answer s) (st_AbandonedReason s) (st_ArchivedAt s) (st_ArchivedTo s) (st_CreatedAt s)
    (st_BranchTip s) (st_TipRef s) x.

(** State.Active *)
Definition Active (s : State) : bool :=
  match st_Status s with StatusInProgress | StatusVerified | StatusReviewed => true | _ => false end.

(** State.PendingHuman *)
Definition PendingHuman (s : State) (humanTasks : list gostring) : list gostring :=
  List.filter (fun t => negb (slices_Contains (ac_Task <$> st_Accepted s) t)) humanTasks.

(** A new change's state (NewChange). *)
Definition new_state (id createdAt : gostring) : State :=
  MkState id StatusDraft [] [] [] [] [] ∅ [] [] None None None None None [] None [] false [] None [] [] [] createdAt [] [] ∅.

(** ** Attempts (attempts.go) *)

Record Attempts := MkAttempts { at_Since : Z; at_Total : Z; at_AtAnswer : Z }.

(** ** Acceptances (human.go, baseaccept.go) *)

Definition set_pending (p : list gostring) (v : Verify) : Verify :=
  MkVerify (v_SHA v) (v_At v) (v_Results v) p (v_Green v) (v_GreenAtBaseline v) (v_Stale v) (v_StaleReason v)
    (v_Regression v) (v_FullSkipped v).

Definition refreshPending (c : Change) (s : State) : State :=
  set_Verify (set_pending (PendingHuman s (HumanTasks c)) <$> st_Verify s) s.

Definition withAcceptance (c : Change) (rec : Accept) (s : State) : State :=
  refreshPending c (set_Accepted (List.filter (fun a => ac_Task a <>s ac_Task rec) (st_Accepted s) ++ [rec]) s).

(** The last acceptance of a task: its index. *)
Definition last_accept (task : gostring) (l : list Accept) : option nat :=
  (fun p => length l - S (fst p)) <$> list_find (fun a => ac_Task a = task) (rev l).

Definition merge_one (out : list Accept) (e : Accept) : list Accept :=
  match last_accept (ac_Task e) out with
  | None => out ++ [e]
  | Some i => match out !! i with
              | Some o => if str_leb (ac_At o) (ac_At e) then <[i := e]> out else out
              | None => out
              end
  end.

Definition mergeAccepted (own extra : list Accept) : list Accept := foldl merge_one own extra.

(** [baseAccepted] is accepted.json on the change's base branch. *)
Definition withBaseAccepted (inGit : bool) (baseAccepted : list Accept) (s : State) : State :=
  if (st_BaseBranch s =s "") || negb inGit then s
  else match baseAccepted with [] => s | _ => set_Accepted (mergeAccepted (st_Accepted s) baseAccepted) s end.

(** ** A delegate's returns (delegate.go) *)

Definition DelegateByPrefix : gostring := "delegate:".

(** When a person last answered the change, or accepted [task]; empty when never. *)
Definition person_reset (st : State) (task : gostring) : gostring :=
  foldl (fun reset a => if (ac_Task a =s task) && negb (HasPrefix (ac_By a) DelegateByPrefix) && negb (str_leb (ac_At a) reset)
                        then ac_At a else reset)
    (match st_Answer st with Some a => an_At a | None => [] end) (st_Accepted st).

Definition returnsSinceReset (st : State) (task : gostring) : list DelegateReturn :=
  let reset := person_reset st task in
  List.filter (fun r => (reset =s "") || negb (str_leb (dr_At r) reset)) (default [] (st_DelegateReturns st !! task)).
