(* ===== verification/Roadmap.v ===== *)
(** The roadmap, internal/apexv1/roadmap.go: milestones parsed, their statuses
    written, new ones appended, ids allocated, the document validated. *)
From S2P Require Import Prelude Regex Markdown.

Definition MilestoneProposed : gostring := "proposed".
Definition MilestoneApproved : gostring := "approved".
Definition MilestoneDone : gostring := "done".

(** strconv.ParseFloat and time.ParseDuration give values the roadmap keeps and
    never computes with: their type is a parameter. *)
Record Milestone (F : Type) := MkMilestone {
  ms_ID : gostring; ms_Title : gostring; ms_Line : nat; ms_Status : gostring; ms_StatusText : gostring;
  ms_StatusLine : nat; ms_Gate : gostring; ms_Budget : option F; ms_BudgetRaw : gostring;
  ms_BudgetTokens : option Z; ms_BudgetTokensRaw : gostring; ms_BudgetWallSecs : option F;
  ms_BudgetWallRaw : gostring; ms_Goal : gostring; ms_OutOfScope : list gostring; ms_ApprovedAt : gostring }.
Arguments MkMilestone {F}. Arguments ms_ID {F}. Arguments ms_Title {F}. Arguments ms_Line {F}.
Arguments ms_Status {F}. Arguments ms_StatusText {F}. Arguments ms_StatusLine {F}. Arguments ms_Gate {F}.
Arguments ms_Budget {F}. Arguments ms_BudgetRaw {F}. Arguments ms_BudgetTokens {F}.
Arguments ms_BudgetTokensRaw {F}. Arguments ms_BudgetWallSecs {F}. Arguments ms_BudgetWallRaw {F}.
Arguments ms_Goal {F}. Arguments ms_OutOfScope {F}. Arguments ms_ApprovedAt {F}.

Record Roadmap (F : Type) := MkRoadmap {
  rm_Title : gostring; rm_Milestones : list (Milestone F); rm_lines : list gostring; rm_headErrs : list Finding }.
Arguments MkRoadmap {F}. Arguments rm_Title {F}. Arguments rm_Milestones {F}. Arguments rm_lines {F}.
Arguments rm_headErrs {F}.

(** [^(M\d+)\s*[—–:-]\s*(.+)$] *)
Definition milestoneHeadRe : re :=
  cats [ Bol; Grp 1 (Cat (lit "M") (Plus (Cls c_digit))); Star (Cls c_space);
         Cls (cor c_emdash (cor c_endash (cor (one ":") (one "-")))); Star (Cls c_space);
         Grp 2 (Plus (Cls c_dot)); Eol ].

(** [^approved\s*\(by\s+(.+?)\s+(\S+)\)$] *)
Definition approvedRe : re :=
  cats [ Bol; lit "approved"; Star (Cls c_space); lit "(by"; Plus (Cls c_space);
         Grp 1 (Cat (Cls c_dot) (Lazy (Cls c_dot))); Plus (Cls c_space); Grp 2 (Plus (Cls (cnot c_space)));
         lit ")"; Eol ].

(** [^done\s*\((?:accepted red by (.+?)\s+)?(\S+)\s+([0-9a-f]{7,40})\)$] *)
Definition c_hex : Z -> bool := cor c_digit (between 97 102).
Definition doneRe : re :=
  cats [ Bol; lit "done"; Star (Cls c_space); lit "(";
         Opt (cats [ lit "accepted red by "; Grp 1 (Cat (Cls c_dot) (Lazy (Cls c_dot))); Plus (Cls c_space) ]);
         Grp 2 (Plus (Cls (cnot c_space))); Plus (Cls c_space); Grp 3 (Rep (Cls c_hex) 7 40); lit ")"; Eol ].

Definition isSome {A} (o : option A) : bool := match o with Some _ => true | None => false end.

(** [(?i)^next\b]: simple case folding of n, e, x and t is ASCII only. *)
Definition c_fold (lo up : byte) : Z -> bool := cor (one lo) (one up).
Definition next_fold : re := cats [ Cls (c_fold "n" "N"); Cls (c_fold "e" "E"); Cls (c_fold "x" "X"); Cls (c_fold "t" "T") ].
Definition nextHeadingRe : re := cats [ Bol; next_fold; WordB ].

Definition stripComment (v : gostring) : gostring :=
  TrimSpace (match Index v " #" with Some i => take i v | None => v end).

Definition classifyMilestoneStatus (text : gostring) : gostring * gostring :=
  if text =s MilestoneProposed then (MilestoneProposed, [])
  else match FindSubmatchIndex approvedRe text with
       | Some m => (MilestoneApproved, group text m 2)
       | None => if MatchString doneRe text then (MilestoneDone, []) else (text, [])
       end.

Section roadmap.
(** strings.ToLower, strconv.ParseFloat, time.ParseDuration in seconds (above 0),
    and ParseTokens. *)
Context {F : Type} (ToLower : gostring -> gostring) (ParseFloat ParseDuration : gostring -> option F)
  (ParseTokens : gostring -> option Z).

Definition new_milestone (id title : gostring) (line : nat) : Milestone F :=
  MkMilestone id title line [] [] 0 [] None [] None [] None [] [] [] [].

(** One field of a milestone, [None] for a key that is not one. *)
Definition ms_field (ms : Milestone F) (n : nat) (key val : gostring) : option (Milestone F * bool) :=
  let '(MkMilestone id title line st stt stl gate bu bur bt btr bw bwr goal oos appr) := ms in
  if key =s "status" then
    let text := stripComment val in
    let '(status, at_) := classifyMilestoneStatus text in
    Some (MkMilestone id title line status text n gate bu bur bt btr bw bwr goal oos at_, false)
  else if key =s "gate" then
    Some (MkMilestone id title line st stt stl (Trim val [bs "`"]) bu bur bt btr bw bwr goal oos appr, false)
  else if key =s "budget" then
    let raw := stripComment val in
    let num := TrimSpace (TrimPrefix (TrimSpace (TrimSuffix raw "USD")) "$") in
    let bu' := match ParseFloat num with Some f => Some f | None => bu end in
    Some (MkMilestone id title line st stt stl gate bu' raw bt btr bw bwr goal oos appr, false)
  else if key =s "budget-tokens" then
    let raw := stripComment val in
    let bt' := match ParseTokens raw with Some t => Some t | None => bt end in
    Some (MkMilestone id title line st stt stl gate bu bur bt' raw bw bwr goal oos appr, false)
  else if key =s "budget-wall" then
    let raw := stripComment val in
    let bw' := match ParseDuration (TrimSpace raw) with Some t => Some t | None => bw end in
    Some (MkMilestone id title line st stt stl gate bu bur bt btr bw' raw goal oos appr, false)
  else if key =s "goal" then
    Some (MkMilestone id title line st stt stl gate bu bur bt btr bw bwr val oos appr, false)
  else if key =s "out of scope" then
    Some (MkMilestone id title line st stt stl gate bu bur bt btr bw bwr goal
            (if val <>s "" then oos ++ [val] else oos) appr, true)
  else None.

Definition add_oos (ms : Milestone F) (o : gostring) : Milestone F :=
  let '(MkMilestone id title line st stt stl gate bu bur bt btr bw bwr goal oos appr) := ms in
  MkMilestone id title line st stt stl gate bu bur bt btr bw bwr goal (oos ++ [o]) appr.

(** One line of a milestone's section: the milestone and inOOS. *)
Definition ms_line (acc : Milestone F * bool) (l : mdLine) : Milestone F * bool :=
  let '(ms, inOOS) := acc in
  if md_InCode l then acc
  else
    let t := TrimSpace (md_Text l) in
    let item (inOOS : bool) :=
      if inOOS && (HasPrefix t "- " || HasPrefix t "* ") then (add_oos ms (TrimSpace (drop 2 t)), inOOS)
      else (ms, inOOS) in
    match Cut t ":" with
    | Some (key, val) =>
        if negb (HasPrefix t "-") && negb (HasPrefix t "*") then
          match ms_field ms (md_N l) (ToLower (TrimSpace key)) (TrimSpace val) with
          | Some acc' => acc'
          | None => item false
          end
        else item inOOS
    | None => item inOOS
    end.

Definition parse_milestone (s : section) (m : mres) : Milestone F :=
  fst (foldl ms_line (new_milestone (group (sec_Title s) m 1) (TrimSpace (group (sec_Title s) m 2)) (sec_Line s), false)
         (sec_Body s)).

Definition rm_section (file : gostring) (acc : list (Milestone F) * list Finding) (s : section)
    : list (Milestone F) * list Finding :=
  let '(mss, errs) := acc in
  if MatchString nextHeadingRe (sec_Title s) then acc
  else match FindSubmatchIndex milestoneHeadRe (sec_Title s) with
       | None => (mss, errs ++ [finding file (sec_Line s) "roadmap section must be `## M<n> — <title>` (or `## Next`)"])
       | Some m => (mss ++ [parse_milestone s m], errs)
       end.

Definition first_h1 (lines : list mdLine) : gostring :=
  match List.find (fun l => Nat.eqb (fst (headingLevel l)) 1) lines with Some l => snd (headingLevel l) | None => [] end.

Definition ParseRoadmap (file doc : gostring) : Roadmap F :=
  let lines := splitLines doc in
  let '(mss, errs) := foldl (rm_section file) ([], []) (h2Sections lines) in
  MkRoadmap (first_h1 lines) mss (split_byte nl (ReplaceAll doc [x0d; x0a] [nl])) errs.

Definition find_milestone (r : Roadmap F) (id : gostring) : option (Milestone F) :=
  List.find (fun m => ms_ID m =s id) (rm_Milestones r).

(** The first milestone not yet done. *)
Definition Current (r : Roadmap F) : option (Milestone F) :=
  List.find (fun m => ms_Status m <>s MilestoneDone) (rm_Milestones r).

Definition NextID (r : Roadmap F) : gostring :=
  let maxN := foldl (fun acc m => match Atoi_digits (TrimPrefix (ms_ID m) "M") with
                                  | Some n => if (acc <? n)%Z then n else acc | None => acc end)
                0%Z (rm_Milestones r) in
  bs "M" ++ Itoa (wrap64 (maxN + 1)).

(** [None] when the roadmap has no such milestone. *)
Definition WithStatus (r : Roadmap F) (id text : gostring) : option gostring :=
  match find_milestone r id with
  | None => None
  | Some m =>
      let line := bs "Status: " ++ text in
      Some (Join (match ms_StatusLine m with
                  | S i => <[i := line]> (rm_lines r)
                  | O => take (ms_Line m) (rm_lines r) ++ [line] ++ drop (ms_Line m) (rm_lines r)
                  end) [nl])
  end.

(** [budget] is the budget as strconv.FormatFloat writes it. *)
Definition AppendMilestone (doc id title gate : gostring) (budget : option gostring) (goal : gostring)
    (outOfScope : list gostring) : gostring :=
  TrimRight doc newlines ++ [nl; nl] ++ "## " ++ id ++ " — " ++ title ++ [nl] ++
  "Status: " ++ MilestoneProposed ++ [nl] ++ "Gate: " ++ gate ++ [nl] ++
  match budget with Some b => bs "Budget: " ++ b ++ [nl] | None => [] end ++
  "Goal: " ++ (if goal =s "" then bs "<!-- one paragraph: what is true when this milestone is done -->" else goal) ++ [nl] ++
  "Out of scope:" ++ [nl] ++ mjoin ((fun o => bs "- " ++ o ++ [nl]) <$> outOfScope).

(** One milestone's findings after the duplicate check. *)
Definition milestone_findings (file : gostring) (m : Milestone F) : list Finding :=
  (if (ms_Status m =s MilestoneProposed) || (ms_Status m =s MilestoneApproved) || (ms_Status m =s MilestoneDone) then []
   else if ms_Status m =s "" then [finding file (ms_Line m) (ms_ID m ++ " has no `Status:` line")]
   else [finding file (ms_StatusLine m) (ms_ID m ++ " status " ++ dq ++ ms_StatusText m ++ dq ++
           " is not proposed | approved (by <who> <ts>) | done (<ts> <sha>) | done (accepted red by <who> <ts> <sha>) — only ape writes it")]) ++
  (if ms_Gate m =s "" then [finding file (ms_Line m) (ms_ID m ++ " has no `Gate:` — one command that is red until the milestone is done")] else []) ++
  (if (ms_BudgetRaw m <>s "") && negb (isSome (ms_Budget m))
   then [finding file (ms_Line m) (ms_ID m ++ " budget " ++ dq ++ ms_BudgetRaw m ++ dq ++ " is not a number (USD)")] else []) ++
  (if (ms_BudgetTokensRaw m <>s "") && negb (isSome (ms_BudgetTokens m))
   then [finding file (ms_Line m) (ms_ID m ++ " Budget-tokens " ++ dq ++ ms_BudgetTokensRaw m ++ dq ++
           " is not a token count above 0 (60M, 500k, 1.5G, 2000000)")] else []) ++
  (if (ms_BudgetWallRaw m <>s "") && negb (isSome (ms_BudgetWallSecs m))
   then [finding file (ms_Line m) (ms_ID m ++ " Budget-wall " ++ dq ++ ms_BudgetWallRaw m ++ dq ++
           " is not a duration above 0 (4h, 90m, 2h30m)")] else []) ++
  (if (TrimSpace (ms_Goal m) =s "") || negb (hasProse [MdLine 0 (ms_Goal m) false])
   then [finding file (ms_Line m) (ms_ID m ++ " has no `Goal:` paragraph")] else []).

Fixpoint milestones_findings (file : gostring) (seen : list gostring) (mss : list (Milestone F)) : list Finding :=
  match mss with
  | [] => []
  | m :: mss' =>
      (if slices_Contains seen (ms_ID m) then [finding file (ms_Line m) ("duplicate milestone " ++ ms_ID m)] else []) ++
      milestone_findings file m ++ milestones_findings file (ms_ID m :: seen) mss'
  end.

Definition ValidateRoadmap (file doc : gostring) : list Finding :=
  let r := ParseRoadmap file doc in
  rm_headErrs r ++
  (if rm_Title r <>s "Roadmap" then [finding file 1 "first heading must be `# Roadmap`"] else []) ++
  (match rm_Milestones r with
   | [] => [finding file 0 ("no milestones — add one with `ape milestone new " ++ dq ++ "<title>" ++ dq ++
              " --gate " ++ dq ++ "<cmd>" ++ dq ++ "`")]
   | _ => [] end) ++
  milestones_findings file [] (rm_Milestones r).
End roadmap.

(** Budget lines before the last milestone's Goal. *)
Definition appendMilestoneBudgets (doc tokens wall : gostring) : gostring :=
  let lines := (if tokens <>s "" then bs "Budget-tokens: " ++ tokens ++ [nl] else []) ++
               (if wall <>s "" then bs "Budget-wall: " ++ wall ++ [nl] else []) in
  if lines =s "" then doc
  else match LastIndex doc ([nl] ++ "Goal: ") with
       | None => doc
       | Some i => take (S i) doc ++ lines ++ drop (S i) doc
       end.
