(* ===== verification/RoadmapFacts.v ===== *)
(** Theorems about the roadmap: writing a status changes that milestone alone, and
    a new milestone's id is new. *)
From S2P Require Import Prelude Regex Markdown Roadmap.
From Stdlib Require Import DecimalString Decimal DecimalPos.

(** ** Replacing one line of a section *)

(** A line that is neither a level-1 nor a level-2 heading. *)
Definition plain (l : mdLine) : Prop := Nat.ltb 0 (fst (headingLevel l)) && Nat.leb (fst (headingLevel l)) 2 = false.

Lemma h2_step_plain out cur l : plain l ->
  h2_step (out, cur) l = match cur with Some c => (alter (add_body l) c out, cur) | None => (out, None) end.
Proof. unfold plain, h2_step. destruct (headingLevel l) as [lv t]. simpl. by intros ->. Qed.

(** The open section, when there is one, is the last. *)
Definition open_last (acc : list section * option nat) : Prop :=
  match snd acc with Some c => S c = length (fst acc) | None => True end.

Lemma h2_open_last lines : open_last (foldl h2_step ([], None) lines).
Proof.
  induction lines as [|l lines IH] using rev_ind; [done|]. rewrite foldl_app. simpl.
  destruct (foldl h2_step ([], None) lines) as [out cur]. unfold open_last in *. simpl in *.
  destruct (headingLevel l) as [lv t]. destruct (_ && _).
  - destruct (Nat.eqb lv 2); simpl; [|done]. rewrite length_app. simpl. lia.
  - destruct cur as [c|]; simpl; [|done]. by rewrite length_alter.
Qed.

(** Line [l] of the document can be any plain line, the sections being [mk] of it. *)
Definition replaceable (lines : list mdLine) (l : mdLine) (mk : mdLine -> list section) (cur : option nat) : Prop :=
  exists a b, lines = a ++ l :: b /\ plain l /\
    forall l', plain l' -> foldl h2_step ([], None) (a ++ l' :: b) = (mk l', cur).

Lemma replaceable_snoc lines l mk cur x mk' cur' :
  replaceable lines l mk cur -> (forall l', h2_step (mk l', cur) x = (mk' l', cur')) ->
  replaceable (lines ++ [x]) l mk' cur'.
Proof.
  intros (a & b & -> & Hl & Hr) Hx. exists a, (b ++ [x]). split_and!; [by rewrite <- app_assoc|done|].
  intros l' Hl'. change (a ++ l' :: b ++ [x]) with (a ++ (l' :: b) ++ [x]).
  rewrite app_assoc, foldl_app, Hr by done. apply Hx.
Qed.

(** A line of a section's body is a plain line of the document, and another plain
    line in its place takes its place in the body. *)
Lemma h2_replace lines : forall out cur S1 lv t n B1 l B2 S2,
  foldl h2_step ([], None) lines = (out, cur) ->
  out = (S1 ++ [MkSection lv t n (B1 ++ l :: B2)]) ++ S2 ->
  replaceable lines l (fun l' => (S1 ++ [MkSection lv t n (B1 ++ l' :: B2)]) ++ S2) cur.
Proof.
  induction lines as [|x lines IH] using rev_ind; intros out cur S1 lv t n B1 l B2 S2 Hf Hout.
  { simpl in Hf. simplify_eq. by destruct S1. }
  pose proof (h2_open_last lines) as Hopen. rewrite foldl_app in Hf. simpl in Hf.
  destruct (foldl h2_step ([], None) lines) as [out0 cur0] eqn:E. unfold open_last in Hopen. simpl in Hopen.
  destruct (headingLevel x) as [hl ht] eqn:Hx. unfold h2_step in Hf. rewrite Hx in Hf.
  destruct (Nat.ltb 0 hl && Nat.leb hl 2) eqn:Hh.
  - destruct (Nat.eqb hl 2) eqn:H2; injection Hf as <- <-.
    + destruct S2 as [|s2 S2 _] using rev_ind.
      { rewrite app_nil_r in Hout. apply app_inj_tail in Hout as [_ Hout]. simplify_eq. by destruct B1. }
      rewrite !app_assoc in Hout. apply app_inj_tail in Hout as [Hout <-].
      eapply replaceable_snoc; [by eapply (IH _ _ S1 lv t n B1 l B2 S2)|]. intros l'.
      simpl. rewrite Hx, Hh, H2. rewrite !app_assoc. do 2 f_equal. rewrite Hout, !length_app. done.
    + eapply replaceable_snoc; [by eapply IH|]. intros l'. simpl. by rewrite Hx, Hh, H2.
  - assert (plain x) as Hp by (unfold plain; by rewrite Hx). destruct cur0 as [c|]; injection Hf as <- <-.
    2:{ eapply replaceable_snoc; [by eapply IH|]. intros l'. by rewrite h2_step_plain. }
    destruct out0 as [|s0 out0 _] using rev_ind; [simpl in Hopen; lia|].
    rewrite length_app in Hopen. simpl in Hopen. replace c with (length out0) in * by lia.
    rewrite alter_snoc in Hout. destruct S2 as [|s2 S2 _] using rev_ind.
    + rewrite app_nil_r in Hout. apply app_inj_tail in Hout as [-> Hout]. destruct s0 as [lv0 t0 n0 B0].
      unfold add_body in Hout. simpl in Hout. injection Hout as -> -> -> Hout. destruct B2 as [|y B2 _] using rev_ind.
      { apply app_inj_tail in Hout as [-> ->]. exists lines, []. split_and!; [done..|].
        intros l' Hl'. rewrite foldl_app, E. cbn [foldl]. rewrite h2_step_plain by done.
        by rewrite alter_snoc, app_nil_r. }
      change (B1 ++ l :: B2 ++ [y]) with (B1 ++ (l :: B2) ++ [y]) in Hout. rewrite app_assoc in Hout.
      apply app_inj_tail in Hout as [-> ->].
      eapply replaceable_snoc; [eapply (IH _ _ S1 lv t n B1 l B2 []); [done|by rewrite app_nil_r]|].
      intros l'. rewrite h2_step_plain, !app_nil_r, alter_snoc by done. unfold add_body. simpl. by rewrite <- app_assoc.
    + rewrite !app_assoc in Hout. apply app_inj_tail in Hout as [Hout <-].
      eapply replaceable_snoc; [eapply (IH _ _ S1 lv t n B1 l B2 (S2 ++ [s0])); [done|by rewrite Hout, app_assoc]|].
      intros l'. rewrite h2_step_plain, !app_assoc by done. rewrite Hout.
      replace (length ((S1 ++ [MkSection lv t n (B1 ++ l :: B2)]) ++ S2)) with
        (length (((S1 ++ [MkSection lv t n (B1 ++ l' :: B2)]) ++ S2))) by (rewrite !length_app; simpl; lia).
      by rewrite alter_snoc.
Qed.

(** ** A milestone's status lines *)

Definition set_status {F} (st stt : gostring) (stl : nat) (ap : gostring) (m : Milestone F) : Milestone F :=
  MkMilestone (ms_ID m) (ms_Title m) (ms_Line m) st stt stl (ms_Gate m) (ms_Budget m) (ms_BudgetRaw m)
    (ms_BudgetTokens m) (ms_BudgetTokensRaw m) (ms_BudgetWallSecs m) (ms_BudgetWallRaw m) (ms_Goal m)
    (ms_OutOfScope m) ap.

(** The milestone as it reads once its status line holds [text]. *)
Definition with_status {F} (text : gostring) (m : Milestone F) : Milestone F :=
  let '(status, at_) := classifyMilestoneStatus text in set_status status text (ms_StatusLine m) at_ m.

Section status.
Context {F : Type} (ToLower : gostring -> gostring) (ParseFloat ParseDuration : gostring -> option F)
  (ParseTokens : gostring -> option Z).
Abbreviation ms_line := (ms_line ToLower ParseFloat ParseDuration ParseTokens).

(** The value of a status line, [None] for another line. *)
Definition status_of (l : mdLine) : option gostring :=
  let t := TrimSpace (md_Text l) in
  if md_InCode l || HasPrefix t "-" || HasPrefix t "*" then None
  else match Cut t ":" with
       | Some (key, val) => if ToLower (TrimSpace key) =s "status" then Some (stripComment (TrimSpace val)) else None
       | None => None
       end.

Definition put_status (n : nat) (text : gostring) (m : Milestone F) : Milestone F :=
  let '(status, at_) := classifyMilestoneStatus text in set_status status text n at_ m.

Lemma ms_line_status m b l text : status_of l = Some text -> ms_line (m, b) l = (put_status (md_N l) text m, false).
Proof.
  unfold status_of, Roadmap.ms_line, put_status. destruct (md_InCode l); [done|].
  destruct (HasPrefix _ "-"); [done|]. destruct (HasPrefix _ "*"); [done|]. cbn [orb andb negb].
  destruct (Cut _ ":") as [[key val]|]; [|done]. destruct (ToLower (TrimSpace key) =s "status") eqn:E; [|done].
  intros [= <-]. destruct m. unfold ms_field. rewrite E. by destruct (classifyMilestoneStatus _).
Qed.

Lemma ms_line_frame m b l st stt stl ap : status_of l = None ->
  ms_line (set_status st stt stl ap m, b) l = (set_status st stt stl ap (fst (ms_line (m, b) l)), snd (ms_line (m, b) l)).
Proof.
  unfold status_of, Roadmap.ms_line. destruct (md_InCode l); [done|]. set (t := TrimSpace (md_Text l)).
  destruct m as [f1 f2 f3 f4 f5 f6 f7 f8 f9 f10 f11 f12 f13 f14 f15 f16]. unfold set_status. cbn [ms_ID ms_Title ms_Line ms_Gate ms_Budget ms_BudgetRaw ms_BudgetTokens
    ms_BudgetTokensRaw ms_BudgetWallSecs ms_BudgetWallRaw ms_Goal ms_OutOfScope].
  destruct (Cut t ":") as [[key val]|]; [|by destruct (b && _)].
  destruct (HasPrefix t "-"); [by destruct (b && _)|]. destruct (HasPrefix t "*"); [by destruct (b && _)|].
  cbn [orb andb negb]. unfold ms_field. destruct (_ =s "status"); [done|]. intros _.
  repeat match goal with |- context [if ?x =s ?y then _ else _] => destruct (x =s y); [done|] end. done.
Qed.

Lemma ms_line_status_line m b l : status_of l = None -> ms_StatusLine (fst (ms_line (m, b) l)) = ms_StatusLine m.
Proof.
  intros H. pose proof (ms_line_frame m b l (ms_Status m) (ms_StatusText m) (ms_StatusLine m) (ms_ApprovedAt m) H) as E.
  replace (set_status (ms_Status m) (ms_StatusText m) (ms_StatusLine m) (ms_ApprovedAt m) m) with m in E by by destruct m.
  by rewrite E.
Qed.

Lemma ms_fold_frame body : forall m b st stt stl ap, Forall (fun l => status_of l = None) body ->
  foldl ms_line (set_status st stt stl ap m, b) body =
  (set_status st stt stl ap (fst (foldl ms_line (m, b) body)), snd (foldl ms_line (m, b) body)).
Proof.
  induction body as [|l body IH]; intros m b st stt stl ap Hb; [done|]. apply Forall_cons in Hb as [Hl Hb].
  cbn [foldl]. rewrite ms_line_frame by done. rewrite IH by done. by destruct (ms_line (m, b) l).
Qed.

(** A milestone with a status line has it where StatusLine says, and none after. *)
Lemma status_split body : forall m b i, ms_StatusLine m = 0 ->
  ms_StatusLine (fst (foldl ms_line (m, b) body)) = S i ->
  exists B1 l B2 text, body = B1 ++ l :: B2 /\ md_N l = S i /\ status_of l = Some text /\
    Forall (fun l => status_of l = None) B2.
Proof.
  induction body as [|l body IH] using rev_ind; intros m b i Hm Hs; [simpl in Hs; congruence|].
  rewrite foldl_app in Hs. cbn [foldl] in Hs. destruct (foldl ms_line (m, b) body) as [m1 b1] eqn:E.
  destruct (status_of l) as [text|] eqn:Hl.
  - exists body, l, [], text. split_and!; [done| |done|constructor]. rewrite (ms_line_status _ _ _ _ Hl) in Hs.
    unfold put_status in Hs. by destruct (classifyMilestoneStatus text).
  - rewrite ms_line_status_line in Hs by done. destruct (IH m b i Hm) as (B1 & l1 & B2 & text & -> & Hn & Ht & HB).
    { by rewrite E. }
    exists B1, l1, (B2 ++ [l]), text. split_and!; [by rewrite <- app_assoc|done|done|]. apply Forall_app. auto.
Qed.

(** Another value in the last status line. *)
Lemma ms_fold_status B1 l l' B2 text text' m b : status_of l = Some text -> status_of l' = Some text' -> md_N l' = md_N l ->
  Forall (fun l => status_of l = None) B2 ->
  fst (foldl ms_line (m, b) (B1 ++ l' :: B2)) = with_status text' (fst (foldl ms_line (m, b) (B1 ++ l :: B2))).
Proof.
  intros Hl Hl' Hn HB. rewrite !foldl_app. cbn [foldl]. destruct (foldl ms_line (m, b) B1) as [m1 b1].
  rewrite (ms_line_status _ _ _ _ Hl), (ms_line_status _ _ _ _ Hl'). unfold put_status, with_status.
  destruct (classifyMilestoneStatus text), (classifyMilestoneStatus text') eqn:E. rewrite !ms_fold_frame by done.
  cbn [fst]. unfold set_status. cbn. by rewrite Hn.
Qed.
End status.

(** ** Replacing one line of a document *)

Lemma find_split {A} (f : A -> bool) l x : List.find f l = Some x ->
  exists pre post, l = pre ++ x :: post /\ f x = true /\ Forall (fun y => f y = false) pre.
Proof.
  induction l as [|y l IH]; [done|]. simpl. destruct (f y) eqn:E.
  - intros [= <-]. exists [], l. split_and!; [done..|constructor].
  - intros (pre & post & -> & Hx & Hp)%IH. exists (y :: pre), post. split_and!; [done..|]. by constructor.
Qed.

Lemma omap_split {A B} (f : A -> option B) l pre x post : omap f l = pre ++ x :: post ->
  exists S1 s S2, l = (S1 ++ [s]) ++ S2 /\ f s = Some x /\ omap f S1 = pre /\ omap f S2 = post.
Proof.
  revert pre. induction l as [|a l IH]; intros pre H; [by destruct pre|]. simpl in H. destruct (f a) as [y|] eqn:E.
  - destruct pre as [|z pre]; injection H as -> H.
    + exists [], a, l. done.
    + destruct (IH _ H) as (S1 & s & S2 & -> & Hs & H1 & H2). exists (a :: S1), s, S2. split_and!; [done..| |done].
      simpl. rewrite E. f_equal. done.
  - destruct (IH _ H) as (S1 & s & S2 & -> & Hs & H1 & H2). exists (a :: S1), s, S2. split_and!; [done..| |done].
    simpl. by rewrite E.
Qed.


Lemma lookup_middle_eq {A} (a : list A) x b : (a ++ x :: b) !! length a = Some x.
Proof. by rewrite list_lookup_middle. Qed.

Lemma scan_replace raw : forall fence i a l b t', scan_lines fence i raw = a ++ l :: b -> md_InCode l = false ->
  is_fence (TrimSpace t') = false ->
  scan_lines fence i (<[length a := t']> raw) = a ++ MdLine (md_N l) t' false :: b.
Proof.
  induction raw as [|t raw IH]; intros fence i a l b t' Hs Hl Ht'; [by destruct a|].
  rewrite scan_lines_cons in Hs. destruct a as [|x a]; simplify_eq/=.
  - simpl in Hl. pose proof (fence_flag_false _ _ Hl) as ->. change ([] : gostring) with (bs "") in *.
    assert (fence_step "" t = "") as ->.
    { unfold fence_flag in Hl. unfold fence_step. by destruct (is_fence (TrimSpace t)). }
    change (MdLine (i + 1) t' false :: scan_lines "" (i + 1) raw) with (MdLine (i + 1) t' false :: scan_lines "" (i + 1) raw).
    by rewrite Ht'.
  - change (scan_lines fence i (t :: <[length a := t']> raw) = MdLine (i + 1) t (fence_flag fence t) :: a ++ MdLine (md_N l) t' false :: b).
    rewrite scan_lines_cons. f_equal. by apply IH.
Qed.

Lemma elem_of_Join c l sep : c ∈ Join l sep -> c ∈ sep \/ exists p, p ∈ l /\ c ∈ p.
Proof.
  induction l as [|p l IH]; [intros H; by apply not_elem_of_nil in H|]. destruct l as [|q l].
  - intros H. right. exists p. split; [by apply elem_of_cons; left|done].
  - rewrite Join_cons by done. intros [H|[H|H]%elem_of_app]%elem_of_app.
    + right. exists p. split; [by apply elem_of_cons; left|done].
    + by left.
    + destruct (IH H) as [?|(r & Hr & Hc)]; [by left|]. right. exists r. split; [by apply elem_of_cons; right|done].
Qed.

Lemma split_byte_elem c s p d : p ∈ split_byte c s -> d ∈ p -> d ∈ s.
Proof.
  intros Hp Hd. rewrite <- (Join_split_byte c s). induction (split_byte c s) as [|u us IH]; [by apply not_elem_of_nil in Hp|].
  apply elem_of_cons in Hp as [->|Hp]; [destruct us; simpl; set_solver|].
  destruct us as [|v us]; [by apply not_elem_of_nil in Hp|]. rewrite Join_cons by done. set_solver.
Qed.

(** The pieces of a document, one of them replaced, are the pieces of their join. *)
Lemma split_replace doc i t : x0d ∉ doc -> x0d ∉ t -> nl ∉ t ->
  let ps := split_byte nl (ReplaceAll doc [x0d; x0a] [nl]) in
  split_byte nl (ReplaceAll (Join (<[i := t]> ps) [nl]) [x0d; x0a] [nl]) = <[i := t]> ps.
Proof.
  intros Hcr Htc Htn ps. unfold ps. change [nl] with [x0a]. rewrite (ReplaceAll_no_cr doc) by done.
  pose proof (split_byte_pieces nl doc) as Hp. pose proof (split_byte_nonempty nl doc) as Hne.
  rewrite ReplaceAll_no_cr.
  - apply split_byte_Join; [|by apply Forall_insert].
    intros H. apply (f_equal length) in H. rewrite length_insert in H. by destruct (split_byte nl doc).
  - intros [H|(p & Hp' & Hin)]%elem_of_Join; [by apply list_elem_of_singleton in H|].
    apply list_elem_of_lookup in Hp' as [j Hj]. apply list_lookup_insert_Some in Hj as [(_ & <- & _)|[_ Hj]]; [done|].
    apply Hcr. eapply split_byte_elem; [by eapply list_elem_of_lookup_2|done].
Qed.

Lemma raw_lines_replace doc i t : x0d ∉ doc -> i < length (raw_lines doc) -> t <> [] -> x0d ∉ t -> nl ∉ t ->
  raw_lines (Join (<[i := t]> (split_byte nl (ReplaceAll doc [x0d; x0a] [nl]))) [nl]) = <[i := t]> (raw_lines doc).
Proof.
  intros Hcr Hi Ht Htc Htn. pose proof (split_replace doc i t Hcr Htc Htn) as Hs. cbv zeta in Hs.
  unfold raw_lines in Hi |- *. change [nl] with [x0a] in *. rewrite Hs.
  set (ps := split_byte nl (ReplaceAll doc [x0d; x0a] [x0a])) in *. clearbody ps.
  destruct ps as [|p0 ps _] using rev_ind; [simpl in Hi; lia|]. destruct p0 as [|c p0].
  - rewrite last_snoc in Hi |- *. rewrite removelast_last in Hi |- *. rewrite insert_app_l, last_snoc, removelast_last by done. done.
  - rewrite last_snoc in Hi |- *. destruct (decide (i = length ps)) as [->|Hn].
    + rewrite insert_app_r_alt, Nat.sub_diag by lia. simpl. rewrite last_snoc. by destruct t.
    + rewrite length_app in Hi. simpl in Hi. rewrite insert_app_l by lia. by rewrite last_snoc.
Qed.

(** ** Writing a status *)

(** A status text as it stands in its line: one line, trimmed, no comment. *)
Definition status_text (text : gostring) : Prop :=
  (nl ∉ text) /\ (x0d ∉ text) /\ TrimSpace ("Status: " ++ text) = bs "Status: " ++ text /\
  TrimSpace (" " ++ text) = text /\ stripComment text = text.

Lemma headingLevel_status n text : headingLevel (MdLine n (bs "Status: " ++ text) false) = (0, []).
Proof.
  unfold headingLevel. cbn [md_InCode md_Text]. destruct (TrimRight_prefix (bs "Status: " ++ text) blank_tab) as [q Hq].
  destruct (TrimRight (bs "Status: " ++ text) blank_tab) as [|c t]; [done|]. simpl in Hq. by simplify_eq.
Qed.

Lemma first_h1_replace (a b : list mdLine) l l' : plain l -> plain l' -> first_h1 (a ++ l :: b) = first_h1 (a ++ l' :: b).
Proof.
  intros Hl Hl'. unfold first_h1.
  assert (forall x, plain x -> Nat.eqb (fst (headingLevel x)) 1 = false) as Hp.
  { intros x Hx. unfold plain in Hx. destruct (fst (headingLevel x)) as [|[|n]]; done. }
  assert (forall x, plain x -> List.find (fun l => Nat.eqb (fst (headingLevel l)) 1) (a ++ x :: b) =
    List.find (fun l => Nat.eqb (fst (headingLevel l)) 1) (a ++ b)) as H; [|by rewrite !H].
  intros x Hx. induction a as [|y a IH]; simpl; [by rewrite Hp|]. by rewrite IH.
Qed.

Section with_status.
Context {F : Type} (ToLower : gostring -> gostring) (ParseFloat ParseDuration : gostring -> option F)
  (ParseTokens : gostring -> option Z).
Abbreviation ParseRoadmap := (ParseRoadmap ToLower ParseFloat ParseDuration ParseTokens).
Abbreviation parse_milestone := (parse_milestone ToLower ParseFloat ParseDuration ParseTokens).
Abbreviation rm_section := (rm_section ToLower ParseFloat ParseDuration ParseTokens).

(** What a section of the roadmap is. *)
Definition sec_ms (s : section) : option (Milestone F) :=
  if MatchString nextHeadingRe (sec_Title s) then None
  else parse_milestone s <$> FindSubmatchIndex milestoneHeadRe (sec_Title s).

Lemma rm_fold file secs : forall mss errs, exists errs',
  foldl (rm_section file) (mss, errs) secs = (mss ++ omap sec_ms secs, errs').
Proof.
  induction secs as [|s secs IH]; intros mss errs; [exists errs; simpl; by rewrite app_nil_r|].
  cbn [foldl omap list_omap]. unfold sec_ms at 1, Roadmap.rm_section at 2.
  destruct (MatchString nextHeadingRe _); [apply IH|].
  destruct (FindSubmatchIndex _ _); simpl; [|apply IH]. destruct (IH (mss ++ [parse_milestone s m]) errs) as [e ->].
  exists e. by rewrite <- app_assoc.
Qed.

(** Sections with the same titles and lines give the same shape errors. *)
Lemma rm_fold_errs file secs secs' : 
  Forall2 (fun s s' => sec_Title s = sec_Title s' /\ sec_Line s = sec_Line s') secs secs' -> forall mss mss' errs,
  snd (foldl (rm_section file) (mss, errs) secs) = snd (foldl (rm_section file) (mss', errs) secs').
Proof.
  induction 1 as [|s s' secs secs' [Ht Hl] _ IH]; intros mss mss' errs; [done|]. cbn [foldl].
  unfold Roadmap.rm_section at 2 4. rewrite Ht, Hl. destruct (MatchString nextHeadingRe _); [by apply IH|].
  destruct (FindSubmatchIndex _ _); by apply IH.
Qed.

(** Writing a status line reads back as its text. *)
Lemma status_of_line n text : ToLower "Status" = "status" -> status_text text ->
  status_of ToLower (MdLine n (bs "Status: " ++ text) false) = Some text.
Proof.
  intros Hlow (_ & _ & Htrim & Hval & Hstrip). unfold status_of. cbn [md_InCode md_Text]. rewrite Htrim. cbn [orb].
  change (Cut (bs "Status: " ++ text) ":") with (Some (bs "Status", bs " " ++ text)).
  change (HasPrefix (bs "Status: " ++ text) "-") with false. change (HasPrefix (bs "Status: " ++ text) "*") with false.
  cbn [orb]. change (TrimSpace "Status") with (bs "Status"). rewrite Hlow, bool_decide_true, Hval, Hstrip by done. done.
Qed.

Lemma splitLines_status doc a l b text : x0d ∉ doc -> status_text text -> splitLines doc = a ++ l :: b -> md_InCode l = false ->
  splitLines (Join (<[length a := bs "Status: " ++ text]> (split_byte nl (ReplaceAll doc [x0d; x0a] [nl]))) [nl]) =
  a ++ MdLine (md_N l) (bs "Status: " ++ text) false :: b.
Proof.
  intros Hcr (Hnl & Hcr' & Htrim & _) Hl Hcode. unfold splitLines in *. rewrite raw_lines_replace; [|done| |done| |].
  - apply (scan_replace _ _ _ _ _ _ _ Hl Hcode). rewrite Htrim. done.
  - rewrite <- (length_scan_lines "" 0), Hl, length_app. simpl. lia.
  - set_solver.
  - set_solver.
Qed.

Lemma same_heads_errs file S1 S2 lv t n body body' :
  snd (foldl (rm_section file) ([], []) ((S1 ++ [MkSection lv t n body']) ++ S2)) =
  snd (foldl (rm_section file) ([], []) ((S1 ++ [MkSection lv t n body]) ++ S2)).
Proof.
  apply rm_fold_errs. repeat apply Forall2_app; [|by repeat constructor|]; by apply Forall_Forall2_diag, Forall_true.
Qed.

(** Writing a milestone's status writes nothing else. In a document without
    carriage returns, when milestone [id] has a status line, parsing what
    WithStatus returns gives the same title, the same milestones in the same
    order, the same shape errors and the same lines, except for the status line
    of the first milestone of that id, which reads back as [text]. *)
Theorem WithStatus_parse (file doc id text doc' : gostring) (m : Milestone F) :
  ToLower "Status" = "status" -> x0d ∉ doc -> status_text text ->
  find_milestone (ParseRoadmap file doc) id = Some m -> 0 < ms_StatusLine m ->
  WithStatus (ParseRoadmap file doc) id text = Some doc' ->
  let r := ParseRoadmap file doc in
  exists pre post, rm_Milestones r = pre ++ m :: post /\ Forall (fun q => ms_ID q <> id) pre /\
    ParseRoadmap file doc' =
      MkRoadmap (rm_Title r) (pre ++ with_status text m :: post)
        (<[ms_StatusLine m - 1 := bs "Status: " ++ text]> (rm_lines r)) (rm_headErrs r).
Proof.
  intros Hlow Hcr (Hnl & Hcr' & Htrim & Hval & Hstrip) Hfind Hpos Hws r.
  unfold WithStatus in Hws. rewrite Hfind in Hws. destruct (ms_StatusLine m) as [|i] eqn:Hi; [lia|]. injection Hws as <-.
  set (line := bs "Status: " ++ text) in *. rewrite Nat.sub_1_r. cbn [Nat.pred].
  destruct (rm_fold file (h2Sections (splitLines doc)) [] []) as [e He]. 
  assert (rm_Milestones r = omap sec_ms (h2Sections (splitLines doc))) as Hms.
  { unfold r, Roadmap.ParseRoadmap. by rewrite He. }
  destruct (find_split _ _ _ Hfind) as (pre & post & Hsplit & Hid & Hpre). fold r in Hsplit. rewrite Hms in Hsplit.
  destruct (omap_split _ _ _ _ _ Hsplit) as (S1 & s & S2 & Hsecs & Hs & HS1 & HS2).
  unfold sec_ms in Hs. destruct (MatchString nextHeadingRe (sec_Title s)) eqn:Hnext; [done|].
  destruct (FindSubmatchIndex milestoneHeadRe (sec_Title s)) as [g|] eqn:Hg; [|done]. injection Hs as Hs.
  destruct s as [lv t n body]. cbn [sec_Title] in *. unfold Roadmap.parse_milestone in Hs. cbn [sec_Title sec_Line sec_Body] in Hs.
  destruct (status_split ToLower ParseFloat ParseDuration ParseTokens body
    (new_milestone (group t g 1) (TrimSpace (group t g 2)) n) false i) as (B1 & l & B2 & old & Hbody & Hn & Hold & HB2).
  { done. } { by rewrite Hs. }
  subst body. unfold h2Sections in Hsecs. destruct (foldl h2_step ([], None) (splitLines doc)) as [out cur] eqn:Eh.
  cbn [fst] in Hsecs. destruct (h2_replace _ _ _ _ _ _ _ _ _ _ _ Eh Hsecs) as (a & b & Hlines & Hplain & Hrep).
  assert (md_InCode l = false) as Hcode.
  { unfold status_of in Hold. by destruct (md_InCode l). }
  assert (length a = i) as Ha.
  { pose proof (lookup_middle_eq a l b) as Hlk. rewrite <- Hlines in Hlk. apply scan_lines_lookup in Hlk. lia. }
  set (l' := MdLine (S i) line false).
  assert (plain l') as Hplain' by (unfold plain, l', line; by rewrite headingLevel_status).
  assert (status_of ToLower l' = Some text) as Hnew by (by apply status_of_line).
  assert (splitLines (Join (<[i := line]> (rm_lines r)) [nl]) = a ++ l' :: b) as Hsplit'.
  { unfold r, Roadmap.ParseRoadmap. rewrite He. cbn [rm_lines]. subst i. unfold l', line. rewrite <- Hn. by apply splitLines_status. }
  assert (split_byte nl (ReplaceAll (Join (<[i := line]> (rm_lines r)) [nl]) [x0d; x0a] [nl]) = <[i := line]> (rm_lines r)) as Hraw'.
  { unfold r, Roadmap.ParseRoadmap. rewrite He. cbn [rm_lines]. apply split_replace; [done|..]; unfold line; set_solver. }
  exists pre, post. split_and!; [by rewrite Hms| |].
  { eapply Forall_impl; [exact Hpre|]. intros q Hq. by apply bool_decide_eq_false in Hq. }
  assert (sec_ms (MkSection lv t n (B1 ++ l' :: B2)) = Some (with_status text m)) as Hs'.
  { unfold sec_ms. cbn [sec_Title]. rewrite Hnext, Hg. cbn [fmap option_fmap option_map]. f_equal.
    unfold Roadmap.parse_milestone. cbn [sec_Title sec_Line sec_Body]. rewrite <- Hs.
    by apply (ms_fold_status ToLower ParseFloat ParseDuration ParseTokens B1 l l' B2 old text). }
  fold r. set (doc2 := Join _ _) in Hsplit', Hraw' |- *. clearbody doc2. unfold Roadmap.ParseRoadmap at 1. rewrite Hsplit', Hraw'. unfold h2Sections. rewrite Hrep by done. cbn [fst].
  destruct (rm_fold file ((S1 ++ [MkSection lv t n (B1 ++ l' :: B2)]) ++ S2) [] []) as [e' He'].
  rewrite He'. cbn [rm_Title rm_headErrs].
  assert (e' = rm_headErrs r) as ->.
  { pose proof (same_heads_errs file S1 S2 lv t n (B1 ++ l :: B2) (B1 ++ l' :: B2)) as Herr. rewrite <- Hsecs, He' in Herr.
    unfold r, Roadmap.ParseRoadmap, h2Sections in *. rewrite Eh in *. cbn [fst] in *. by rewrite He in Herr |- *. }
  f_equal.
  - unfold r, Roadmap.ParseRoadmap. rewrite He. cbn [rm_Title]. rewrite Hlines. by apply first_h1_replace.
  - rewrite !omap_app. cbn [omap list_omap]. rewrite Hs', HS1, HS2. by rewrite <- app_assoc.
Qed.
End with_status.

Lemma WithStatus_parse_witness :
  let ToLower := fun s : gostring => if s =s "Status" then bs "status" else if s =s "Gate" then bs "gate" else s in
  let none := fun _ : gostring => None : option Z in
  let doc := bs "# Roadmap
## M1 — First
Status: proposed
Gate: make test
## M2 — Second
Status: proposed
" in
  let text := bs "approved (by Ada 2026-01-02T03:04:05Z)" in
  exists m doc' pre post,
    WithStatus (ParseRoadmap ToLower none none none "roadmap.md" doc) "M2" text = Some doc' /\
    ParseRoadmap ToLower none none none "roadmap.md" doc' =
      MkRoadmap "Roadmap" (pre ++ with_status text m :: post)
        (<[ms_StatusLine m - 1 := bs "Status: " ++ text]> (split_byte nl doc)) [].
Proof.
  intros ToLower none doc text.
  assert (x0d ∉ doc) as Hcr by (apply (bool_decide_unpack _); vm_compute; exact I).
  assert (status_text text) as Ht.
  { repeat split; try (apply (bool_decide_unpack _); vm_compute; exact I); vm_compute; reflexivity. }
  destruct (find_milestone (ParseRoadmap ToLower none none none "roadmap.md" doc) "M2") as [m|] eqn:Hm; [|vm_compute in Hm; discriminate].
  destruct (WithStatus (ParseRoadmap ToLower none none none "roadmap.md" doc) "M2" text) as [doc'|] eqn:Hd; [|vm_compute in Hd; discriminate].
  assert (0 < ms_StatusLine m) as Hl by (vm_compute in Hm; injection Hm as <-; vm_compute; lia).
  destruct (WithStatus_parse ToLower none none none "roadmap.md" doc "M2" text doc' m eq_refl Hcr Ht Hm Hl Hd)
    as (pre & post & _ & _ & H).
  exists m, doc', pre, post. split; [reflexivity|]. exact H.
Defined.

(** ** The next milestone's id *)

Lemma bs_cons a s : bs (String.String a s) = Ascii.byte_of_ascii a :: bs s.
Proof. done. Qed.

(** The value of digits read from the left. *)
Fixpoint dval (acc : Z) (d : uint) : Z :=
  match d with
  | Nil => acc
  | D0 d => dval (acc * 10) d | D1 d => dval (acc * 10 + 1) d | D2 d => dval (acc * 10 + 2) d
  | D3 d => dval (acc * 10 + 3) d | D4 d => dval (acc * 10 + 4) d | D5 d => dval (acc * 10 + 5) d
  | D6 d => dval (acc * 10 + 6) d | D7 d => dval (acc * 10 + 7) d | D8 d => dval (acc * 10 + 8) d
  | D9 d => dval (acc * 10 + 9) d
  end.

Lemma digits_value_uint d : forall acc, digits_value acc (bs (NilEmpty.string_of_uint d)) = Some (dval acc d).
Proof.
  induction d; intros acc; cbn [NilEmpty.string_of_uint dval]; try done; rewrite bs_cons; cbn -[Z.mul Z.add dval bs];
    rewrite <- IHd; f_equal; lia.
Qed.

Lemma dval_pos d : forall p, dval (Zpos p) d = Zpos (Pos.of_uint_acc d p).
Proof. induction d; intros p; cbn [dval Pos.of_uint_acc]; try done; rewrite <- IHd; f_equal; lia. Qed.

Lemma dval_uint d : dval 0 d = Z.of_N (Pos.of_uint d).
Proof. induction d; cbn [dval Pos.of_uint]; try done; cbn [Z.of_N]; rewrite <- dval_pos; done. Qed.

Lemma Atoi_Itoa n : (1 <= n < 2 ^ 63)%Z -> Atoi_digits (Itoa n) = Some n.
Proof.
  intros Hn. destruct n as [|p|p]; [lia| |lia]. unfold Itoa. cbn [Z.to_int NilZero.string_of_int].
  assert (Pos.to_uint p <> Nil) as Hne.
  { intros H. pose proof (Unsigned.of_to p) as Hp. by rewrite H in Hp. }
  assert (NilZero.string_of_uint (Pos.to_uint p) = NilEmpty.string_of_uint (Pos.to_uint p)) as ->
    by by destruct (Pos.to_uint p).
  unfold Atoi_digits. rewrite digits_value_uint, dval_uint, Unsigned.of_to. cbn [Z.of_N].
  destruct (bs (NilEmpty.string_of_uint (Pos.to_uint p))) eqn:E.
  - exfalso. destruct (Pos.to_uint p); done.
  - destruct (Z.leb_spec (Zpos p) (2 ^ 63 - 1)); [done|lia].
Qed.

(** `ape milestone new` never allocates an id the roadmap has. A parsed id is M
    and digits, so none is the one string a wrapped int64 sum could give. *)
Theorem NextID_fresh {F} (r : Roadmap F) :
  bs "M-9223372036854775808" ∉ ms_ID <$> rm_Milestones r -> NextID r ∉ ms_ID <$> rm_Milestones r.
Proof.
  intros Hw. unfold NextID. set (step := fun acc m => _).
  assert (forall mss a, (0 <= a <= 2 ^ 63 - 1)%Z -> (a <= foldl step a mss <= 2 ^ 63 - 1)%Z /\
    forall m n, m ∈ mss -> Atoi_digits (TrimPrefix (ms_ID m) "M") = Some n -> (n <= foldl step a mss)%Z) as Hfold.
  { induction mss as [|m mss IH]; intros a Ha; simpl; [split; [lia|set_solver]|].
    assert (a <= step a m <= 2 ^ 63 - 1 /\ forall n, Atoi_digits (TrimPrefix (ms_ID m) "M") = Some n -> n <= step a m)%Z as [Hs Hm].
    { unfold step. destruct (Atoi_digits _) as [n|] eqn:E; [|split; [lia|done]].
      assert (n <= 2 ^ 63 - 1)%Z.
      { unfold Atoi_digits in E. destruct (TrimPrefix _ _); [done|]. destruct (digits_value _ _); [|done].
        destruct (Z.leb_spec z (2 ^ 63 - 1)); [|done]. by simplify_eq. }
      destruct (Z.ltb_spec a n); split; try lia; intros ? [= <-]; lia. }
    destruct (IH (step a m)) as [H1 H2]; [lia|]. split; [lia|]. intros q n [->|Hq]%elem_of_cons Hn; [|by eapply H2].
    specialize (Hm n Hn). lia. }
  destruct (Hfold (rm_Milestones r) 0%Z) as [Hmax Hle]; [lia|]. set (mx := foldl step 0%Z (rm_Milestones r)) in *.
  destruct (decide (mx = 2 ^ 63 - 1)%Z) as [Hq|Hq].
  - rewrite Hq. exact Hw.
  - replace (wrap64 (mx + 1)) with (mx + 1)%Z by (unfold wrap64; rewrite Z.mod_small; lia).
    intros (m & Hm & Hin)%list_elem_of_fmap. specialize (Hle m (mx + 1)%Z Hin). rewrite <- Hm, TrimPrefix_app, Atoi_Itoa in Hle by lia.
    specialize (Hle eq_refl). lia.
Qed.

Lemma NextID_fresh_witness :
  let ms := fun id => new_milestone id "t" 1 : Milestone Z in
  let r := MkRoadmap "Roadmap" [ms "M1"; ms "M7"; ms "M10"; ms "M2"] [] [] in
  (bs "M-9223372036854775808" ∉ ms_ID <$> rm_Milestones r) /\ NextID r = "M11" /\ (NextID r ∉ ms_ID <$> rm_Milestones r).
Proof.
  intros ms r. assert (bs "M-9223372036854775808" ∉ ms_ID <$> rm_Milestones r) as H
    by (apply (bool_decide_unpack _); vm_compute; exact I).
  split; [exact H|]. split; [vm_compute; reflexivity|]. exact (NextID_fresh r H).
Defined.
