(* ===== verification/Next.v ===== *)
(** Next, the findings noticed out of scope: internal/apexv1/next.go and nextmove.go.
    The list a roadmap or next.md holds, how a line is added to it, and the move of
    a roadmap's Next block into next.md. An index that Go keeps as -1 for "none" is
    an option here. *)
From S2P Require Import Prelude Regex Markdown Spec Change Roadmap.

Definition NextPointer : gostring := "Next — not milestones: [next.md](next.md)".

Definition nextMDSkeleton : gostring :=
  "# Next

Findings noticed out of scope, for apex-plan to triage at the next delivery — not milestones.
".

(** [(?i)^next\b.*\]\((\./)?next\.md\)\s*$] *)
Definition nextPointerRe : re :=
  cats [ Bol; next_fold; WordB; Star (Cls c_dot); lit "]("; Opt (lit "./"); next_fold; lit ".";
         Cls (c_fold "m" "M"); Cls (c_fold "d" "D"); lit ")"; Star (Cls c_space); Eol ].

(** [(?i)^next\b.*:\s*$] *)
Definition nextLabelRe : re := cats [ Bol; next_fold; WordB; Star (Cls c_dot); lit ":"; Star (Cls c_space); Eol ].

Definition NextLine (date text from : gostring) : gostring :=
  let line := bs "- " ++ date ++ " " ++ TrimSpace text in
  if from <>s "" then line ++ " (from " ++ from ++ ")" else line.

Definition is_item (t : gostring) : bool := HasPrefix t "- " || HasPrefix t "* ".

Definition isListLine (l : gostring) : bool :=
  let t := TrimSpace l in
  is_item t || (t <>s "") && (HasPrefix l " " || HasPrefix l [x09]).

Definition blank_text (l : gostring) : bool := TrimSpace l =s "".

(** A list without the elements that satisfy [p] at its end. *)
Fixpoint drop_end {A} (p : A -> bool) (l : list A) : list A :=
  match l with
  | [] => []
  | x :: l' => match drop_end p l' with [] => if p x then [] else [x] | r => x :: r end
  end.

Definition drop_blank_end : list gostring -> list gostring := drop_end blank_text.

(** The lines [a:b]. *)
Definition slice_list {A} (ls : list A) (a b : nat) : list A := take (b - a) (drop a ls).

(** ** Adding to a roadmap's block *)

(** AppendNextLines' scan: whether it is in code, the section, its end, the label and
    the first level-2 heading. *)
Record append_scan := MkScan { as_code : bool; as_section : option nat; as_end : option nat; as_label : option nat; as_h2 : option nat }.

Definition append_step (s : append_scan) (il : nat * gostring) : append_scan :=
  let '(i, l) := il in
  let t := TrimSpace l in
  if is_fence t then MkScan (negb (as_code s)) (as_section s) (as_end s) (as_label s) (as_h2 s)
  else if as_code s then s
  else
    let level := count_hash t in
    let heading := Nat.ltb 0 level && Nat.leb level 2 && HasPrefix (drop level t) " " in
    if heading && isSome (as_section s) && negb (isSome (as_end s))
    then MkScan (as_code s) (as_section s) (Some i) (as_label s) (as_h2 s)
    else if heading && Nat.eqb level 2 then
      MkScan (as_code s)
        (if negb (isSome (as_section s)) && MatchString nextHeadingRe (TrimSpace (drop level t)) then Some i else as_section s)
        (as_end s) (as_label s) (match as_h2 s with None => Some i | h => h end)
    else if negb heading && negb (isSome (as_h2 s)) && negb (isSome (as_label s)) && MatchString nextLabelRe t
    then MkScan (as_code s) (as_section s) (as_end s) (Some i) (as_h2 s)
    else s.

(** A list line's end from line [j] on: past the last list line before another line. *)
Fixpoint list_end (ls : list gostring) (j at_ : nat) : nat :=
  match ls with
  | [] => at_
  | l :: ls' => if isListLine l then list_end ls' (j + 1) (j + 1) else if blank_text l then list_end ls' (j + 1) at_ else at_
  end.

(** Where the lines go: under the section, under the label, or nowhere yet. *)
Definition append_at (ls : list gostring) : option nat :=
  let s := foldl append_step (MkScan false None None None None) (imap pair ls) in
  match as_section s, as_label s with
  | Some sec, _ =>
      let e := default (length ls) (as_end s) in
      Some (sec + 1 + length (drop_blank_end (slice_list ls (sec + 1) e)))
  | None, Some label => Some (list_end (slice_list ls (label + 1) (default (length ls) (as_h2 s))) (label + 1) (label + 1))
  | None, None => None
  end.

Definition AppendNextLines (roadmap : gostring) (lines : list gostring) : gostring :=
  match lines with
  | [] => roadmap
  | _ =>
      let doc := ReplaceAll roadmap [x0d; x0a] [x0a] in
      let ls := split_byte nl (TrimSuffix doc [nl]) in
      match append_at ls with
      | None => Join (drop_blank_end ls ++ [[]; bs "## Next"] ++ lines) [nl] ++ [nl]
      | Some at_ => Join (take at_ ls ++ lines ++ drop at_ ls) [nl] ++ (if HasSuffix doc [nl] then [nl] else [])
      end
  end.

(** ** Reading the items *)

(** nextListItems' loop: the items so far and whether the last one may go on; [inr]
    when it returned. *)
Definition item_step (label atHeading : bool) (acc : (list gostring * bool) + list gostring) (l : mdLine)
    : (list gostring * bool) + list gostring :=
  match acc with
  | inr out => inr out
  | inl (out, in_) =>
      if md_InCode l then inl (out, in_)
      else if Nat.ltb 0 (fst (headingLevel l)) then if atHeading then inr out else inl (out, false)
      else
        let t := TrimSpace (md_Text l) in
        if is_item t then
          let item := TrimSpace (drop 2 t) in
          if item <>s "" then inl (out ++ [item], true) else inl (out, in_)
        else if in_ && (t <>s "") && isListLine (md_Text l)
        then inl (alter (fun x => x ++ " " ++ t) (length out - 1) out, true)
        else if label && (t <>s "") then inr out
        else inl (out, false)
  end.

Definition items_of (acc : (list gostring * bool) + list gostring) : list gostring :=
  match acc with inl (out, _) => out | inr out => out end.

Definition nextListItems (body : list mdLine) (label atHeading : bool) : list gostring :=
  items_of (foldl (item_step label atHeading) (inl ([], false)) body).

(** The items under the label, or the pointer, above the first level-2 heading. *)
Fixpoint label_items (lines : list mdLine) : list gostring :=
  match lines with
  | [] => []
  | l :: lines' =>
      if Nat.eqb (fst (headingLevel l)) 2 then []
      else
        let t := TrimSpace (md_Text l) in
        if negb (md_InCode l) && (MatchString nextLabelRe t || MatchString nextPointerRe t)
        then nextListItems lines' true true
        else label_items lines'
  end.

Definition NextItems (roadmap : gostring) : list gostring :=
  let lines := splitLines roadmap in
  label_items lines ++
  (h2Sections lines ≫= (fun s => if MatchString nextHeadingRe (sec_Title s) then nextListItems (sec_Body s) false true else [])).

Definition NextFileItems (doc : gostring) : list gostring := nextListItems (splitLines doc) false false.

(** Each item once, first seen first. *)
Definition once (items : list gostring) : list gostring :=
  foldl (fun out it => if slices_Contains out it then out else out ++ [it]) [] items.

(** roadmapNext on the two files' texts. *)
Definition roadmapNext (next roadmap : option gostring) : list gostring :=
  once (match next with Some d => NextFileItems d | None => [] end ++ match roadmap with Some d => NextItems d | None => [] end).

(** ** Where a roadmap's Next sits *)

Record roadmapNextLayout := MkLayout {
  ln_label : option nat; ln_labelEnd : nat; ln_sections : list (nat * nat); ln_firstH2 : nat; ln_pointer : option nat;
  ln_residueEnd : option nat }.

(** The first loop of scanRoadmapNext: the sections closed so far, the open one, the
    first level-2 heading, the pointer and the label. *)
Record next_scan := MkNextScan {
  ns_sections : list (nat * nat); ns_open : option nat; ns_firstH2 : option nat; ns_pointer : option nat; ns_label : option nat }.

Definition next_step (s : next_scan) (il : nat * mdLine) : next_scan :=
  let '(i, ln) := il in
  let '(lv, title) := headingLevel ln in
  if Nat.ltb 0 lv && Nat.leb lv 2 then
    let sections := match ns_open s with Some o => ns_sections s ++ [(o, i)] | None => ns_sections s end in
    if Nat.eqb lv 2 then
      MkNextScan sections (if MatchString nextHeadingRe title then Some i else None)
        (match ns_firstH2 s with None => Some i | h => h end) (ns_pointer s) (ns_label s)
    else MkNextScan sections None (ns_firstH2 s) (ns_pointer s) (ns_label s)
  else if md_InCode ln || isSome (ns_open s) then s
  else
    let t := TrimSpace (md_Text ln) in
    if negb (isSome (ns_pointer s)) && MatchString nextPointerRe t
    then MkNextScan (ns_sections s) (ns_open s) (ns_firstH2 s) (Some i) (ns_label s)
    else if negb (isSome (ns_label s)) && negb (isSome (ns_firstH2 s)) && MatchString nextLabelRe t
    then MkNextScan (ns_sections s) (ns_open s) (ns_firstH2 s) (ns_pointer s) (Some i)
    else s.

(** blockEnd's loop over the lines from [j] up to the limit. *)
Fixpoint block_end (ls : list mdLine) (j end_ : nat) : nat :=
  match ls with
  | [] => end_
  | l :: ls' =>
      if md_InCode l then end_
      else if isListLine (md_Text l) then block_end ls' (j + 1) (j + 1)
      else if blank_text (md_Text l) then block_end ls' (j + 1) end_
      else end_
  end.

Definition blockEnd (lines : list mdLine) (from limit : nat) : nat :=
  block_end (slice_list lines (from + 1) limit) (from + 1) (from + 1).

Definition scanRoadmapNext (lines : list mdLine) : roadmapNextLayout :=
  let s := foldl next_step (MkNextScan [] None None None None) (imap pair lines) in
  let sections := match ns_open s with Some o => ns_sections s ++ [(o, length lines)] | None => ns_sections s end in
  let firstH2 := default (length lines) (ns_firstH2 s) in
  let labelEnd := match ns_label s with Some l => blockEnd lines l firstH2 | None => 0 end in
  let residueEnd := match ns_pointer s with
                    | Some p => if Nat.ltb p firstH2 && negb (bool_decide (ns_label s = Some p)) && Nat.ltb (p + 1) (blockEnd lines p firstH2)
                                then Some (blockEnd lines p firstH2) else None
                    | None => None
                    end in
  MkLayout (ns_label s) labelEnd sections firstH2 (ns_pointer s) residueEnd.

Definition holds_next (l : roadmapNextLayout) : bool :=
  isSome (ln_label l) || negb (bool_decide (ln_sections l = [])) || isSome (ln_residueEnd l).

Definition hasNextBlock (roadmap : gostring) : bool := holds_next (scanRoadmapNext (splitLines roadmap)).

Definition withNextPointer (roadmap : gostring) : gostring :=
  let lines := splitLines roadmap in
  let at_ := ln_firstH2 (scanRoadmapNext lines) in
  let before := drop_blank_end (md_Text <$> take at_ lines) in
  Join (before ++ (match before with [] => [] | _ => [[]] end) ++ [NextPointer] ++
        (if Nat.ltb at_ (length lines) then [[]] else []) ++ (md_Text <$> drop at_ lines)) [nl] ++ [nl].

(** ** next.md *)

Definition appendNextMD (next : option gostring) (lines : list gostring) : gostring :=
  match next, lines with
  | Some n, [] => n
  | _, _ =>
      let doc := match next with Some n => ReplaceAll n [x0d; x0a] [x0a] | None => nextMDSkeleton end in
      let ls := drop_blank_end (split_byte nl (TrimRight doc newlines)) in
      let ls' := match lines with
                 | [] => ls
                 | l0 :: _ =>
                     match last ls with
                     | Some e => if negb (isListLine e) || negb (isListLine l0) then ls ++ [[]] else ls
                     | None => ls
                     end ++ lines
                 end in
      Join ls' [nl] ++ [nl]
  end.

(** nextWrites: the roadmap's new text and next.md's, where they are written. *)
Definition nextWrites (roadmap : gostring) (next : option gostring) (lines : list gostring) : option gostring * option gostring :=
  if bool_decide (next = None) && hasNextBlock roadmap then (Some (AppendNextLines roadmap lines), None)
  else
    (if negb (hasNextBlock roadmap) && negb (isSome (ln_pointer (scanRoadmapNext (splitLines roadmap)))) then Some (withNextPointer roadmap) else None,
     Some (appendNextMD next lines)).

(** ** The move *)

Record nextChunk := MkChunk { ch_item : gostring; ch_raw : list gostring; ch_blank : bool }.

(** One line of chunks' reader: the pieces so far and whether the last may go on. *)
Definition chunk_step (acc : list nextChunk * bool) (ln : mdLine) : list nextChunk * bool :=
  let '(out, in_) := acc in
  let t := TrimSpace (md_Text ln) in
  if md_InCode ln then (out ++ [MkChunk [] [md_Text ln] false], false)
  else if is_item t then
    let item := TrimSpace (drop 2 t) in (out ++ [MkChunk item [md_Text ln] false], item <>s "")
  else if in_ && (t <>s "") && isListLine (md_Text ln) then
    (alter (fun c => MkChunk (ch_item c ++ " " ++ t) (ch_raw c ++ [md_Text ln]) (ch_blank c)) (length out - 1) out, true)
  else (out ++ [MkChunk [] [md_Text ln] (t =s "")], false).

(** The bodies the block is made of. *)
Definition next_bodies (l : roadmapNextLayout) (lines : list mdLine) : list (list mdLine) :=
  match ln_label l with Some b => [slice_list lines (b + 1) (ln_labelEnd l)] | None => [] end ++
  match ln_pointer l, ln_residueEnd l with Some p, Some e => [slice_list lines (p + 1) e] | _, _ => [] end ++
  ((fun s => slice_list lines (fst s + 1) (snd s)) <$> ln_sections l).

Definition chunks (l : roadmapNextLayout) (lines : list mdLine) : list nextChunk :=
  next_bodies l lines ≫= (fun body => fst (foldl chunk_step ([], false) body)).

Record outLine := MkOut { ol_text : gostring; ol_h2 : bool; ol_blank : bool }.

(** moved's loop: the lines out, whether the pointer is placed, whether a removal just
    happened, and the line it goes on from. *)
Record move_state := MkMove { mv_out : list outLine; mv_placed : bool; mv_joined : bool; mv_from : nat }.

Definition line_blank (ln : mdLine) : bool := negb (md_InCode ln) && blank_text (md_Text ln).

Definition move_line (s : move_state) (i : nat) (ln : mdLine) : move_state :=
  let blank := line_blank ln in
  if mv_joined s && blank && match last (mv_out s) with None => true | Some o => ol_blank o end then s
  else MkMove (mv_out s ++ [MkOut (md_Text ln) (Nat.eqb (fst (headingLevel ln)) 2) blank]) (mv_placed s) false (mv_from s).

Definition move_step (l : roadmapNextLayout) (s : move_state) (il : nat * mdLine) : move_state :=
  let '(i, ln) := il in
  if Nat.ltb i (mv_from s) then s
  else if bool_decide (ln_label l = Some i) then
    if mv_placed s then MkMove (mv_out s) true true (ln_labelEnd l)
    else MkMove (mv_out s ++ [MkOut NextPointer false false]) true (mv_joined s) (ln_labelEnd l)
  else match List.find (fun sec => Nat.eqb (fst sec) i) (rev (ln_sections l)) with
       | Some sec => MkMove (mv_out s) (mv_placed s) true (snd sec)
       | None =>
           match ln_residueEnd l with
           | Some e =>
               if bool_decide (ln_pointer l = Some i)
               then MkMove (mv_out s ++ [MkOut (md_Text ln) false false]) (mv_placed s) true e
               else move_line s i ln
           | None => move_line s i ln
           end
       end.

Fixpoint first_h2_out (out : list outLine) : nat :=
  match out with [] => 0 | o :: out' => if ol_h2 o then 0 else S (first_h2_out out') end.

(** The pointer put above the first level-2 heading. *)
Definition place_pointer (out : list outLine) : list outLine :=
  let at_ := first_h2_out out in
  let bl := MkOut [] false true in
  take at_ out ++
  match last (take at_ out) with Some o => if ol_blank o then [] else [bl] | None => [] end ++
  [MkOut NextPointer false false] ++
  match drop at_ out with o :: _ => if ol_blank o then [] else [bl] | [] => [] end ++
  drop at_ out.

Definition moved_lines (l : roadmapNextLayout) (lines : list mdLine) : list outLine :=
  let s := foldl (move_step l) (MkMove [] (isSome (ln_pointer l)) false 0) (imap pair lines) in
  let out := if mv_joined s then drop_end ol_blank (mv_out s) else mv_out s in
  if mv_placed s then out else place_pointer out.

Definition moved (l : roadmapNextLayout) (lines : list mdLine) : gostring := Join (ol_text <$> moved_lines l lines) [nl] ++ [nl].

(** planNextMove's loop over the chunks: the items seen, the block, whether its last line
    is blank, the items moved and the duplicates. *)
Record plan_state := MkPlan {
  pl_seen : list gostring; pl_block : list gostring; pl_lastBlank : bool; pl_moved : list gostring; pl_duplicates : list gostring }.

Definition plan_chunk (s : plan_state) (c : nextChunk) : plan_state :=
  if ch_item c <>s "" then
    if slices_Contains (pl_seen s) (ch_item c)
    then MkPlan (pl_seen s) (pl_block s) (pl_lastBlank s) (pl_moved s) (pl_duplicates s ++ [ch_item c])
    else MkPlan (pl_seen s ++ [ch_item c]) (pl_block s ++ ch_raw c) (ch_blank c) (pl_moved s ++ [ch_item c]) (pl_duplicates s)
  else if ch_blank c && pl_lastBlank s then s
  else MkPlan (pl_seen s) (pl_block s ++ ch_raw c) (ch_blank c) (pl_moved s) (pl_duplicates s).

Record NextMoveResult := MkMoveResult {
  nm_Moved : list gostring; nm_Duplicates : list gostring; nm_Created : bool; nm_PointerAdded : bool; nm_Pending : bool }.

Definition planNextMove (roadmap : gostring) (next : option gostring) : NextMoveResult * gostring * gostring :=
  let lines := splitLines roadmap in
  let l := scanRoadmapNext lines in
  let seen := match next with Some n => NextFileItems n | None => [] end in
  let s := foldl plan_chunk (MkPlan seen [] true [] []) (chunks l lines) in
  let created := bool_decide (next = None) in
  let added := negb (isSome (ln_pointer l)) in
  (MkMoveResult (pl_moved s) (pl_duplicates s) created added (created || added || holds_next l),
   moved l lines, appendNextMD next (drop_blank_end (pl_block s))).

(** ** next.md's check, and a review's findings *)

(** [^(\d{2,4}-\d{1,2}-\d{1,2})(\s+|$)] *)
Definition nextDateRe : re :=
  cats [ Bol; Grp 1 (cats [Rep (Cls c_digit) 2 4; lit "-"; Rep (Cls c_digit) 1 2; lit "-"; Rep (Cls c_digit) 1 2]);
         Grp 2 (Alt (Plus (Cls c_space)) Eol) ].

(** A trailing (from <id>), the id without parentheses. *)
Definition nextFromRe : re :=
  cats [ lit "(from "; Grp 1 (Star (Cls (cnot (cor (one "(") (one ")"))))); lit ")"; Eol ].

(** What is wrong with an item, "" when nothing: [real] is whether time.Parse reads the
    date. *)
Definition bad_item (real : gostring -> bool) (item : gostring) : gostring :=
  let bad := match FindSubmatchIndex nextDateRe item with
             | Some m =>
                 let d := group item m 1 in
                 if negb (real d) || negb (Nat.eqb (length d) 10) then bs "its date " ++ d ++ " is not a real YYYY-MM-DD"
                 else if blank_text (drop (length (group item m 0)) item) then bs "it has no text after its date" else []
             | None => []
             end in
  match FindSubmatchIndex nextFromRe item with
  | Some m => if (bad =s "") && negb (MatchString ChangeIDRe (group item m 1)) then bs "(from " ++ group item m 1 ++ ") names no change id" else bad
  | None => bad
  end.

Definition ValidateNextMD (real : gostring -> bool) (truncate : gostring -> nat -> gostring) (file doc : gostring) : list Finding :=
  omap (fun l =>
    if md_InCode l || negb (is_item (md_Text l)) then None
    else
      let item := TrimSpace (drop 2 (md_Text l)) in
      let bad := bad_item real item in
      if bad <>s "" then Some (finding file (md_N l) ("next item " ++ dq ++ truncate item 60 ++ dq ++ " is malformed: " ++ bad ++
        " — an item reads `- YYYY-MM-DD <text> (from <change-id>)`, as ape next add writes it"))
      else None) (splitLines doc).

(** [(?i)^noticed,?\s+out of scope$]; s also folds to the long s. *)
Definition fold_lit (s : gostring) : re := cats ((fun c => Cls (fun x => fold_rune x c)) <$> s).
Definition noticedTitleRe : re :=
  cats [ Bol; fold_lit "noticed"; Opt (lit ","); Plus (Cls c_space); fold_lit "out of scope"; Eol ].

Definition dots : list gostring := [bs "."].

(** One line of noticedItems: the items so far and the level of the section it is in. *)
Definition noticed_step (acc : list gostring * nat) (l : mdLine) : list gostring * nat :=
  let '(out, in_) := acc in
  let '(lv, title) := headingLevel l in
  if Nat.ltb 0 lv then
    if Nat.leb 2 lv && Nat.leb lv 4 && MatchString noticedTitleRe title then (out, lv)
    else if Nat.leb lv in_ then (out, 0) else (out, in_)
  else if Nat.eqb in_ 0 || md_InCode l || negb (is_item (md_Text l)) then acc
  else
    let item := TrimSpace (drop 2 (md_Text l)) in
    if (item =s "") || EqualFold (TrimRight item dots) "none" ||
       Nat.leb 7 (length item) && EqualFold (take 7 item) "answer:" || slices_Contains out item
    then acc else (out ++ [item], in_).

Definition noticedItems (review : gostring) : list gostring := fst (foldl noticed_step ([], 0) (splitLines review)).
