(* ===== verification/NextFacts.v ===== *)
(** Theorems about Next: a line added to next.md is read back, and the move of a
    roadmap's Next block carries every line of it and keeps every other line. *)
From S2P Require Import Prelude Regex Markdown Spec Change Roadmap Next.

(** ** Dropping an end *)

Section drop_end.
Context {A : Type} (p : A -> bool).

Lemma drop_end_decompose l : exists e, l = drop_end p l ++ e /\ Forall (fun x => p x = true) e.
Proof.
  induction l as [|x l (e & IH & He)]; [by exists []|]. simpl. destruct (drop_end p l) as [|y r] eqn:E.
  - destruct (p x) eqn:Ex; [exists (x :: l)|exists l]; simpl in IH; subst; auto.
  - exists e. split; [|done]. by rewrite IH at 1.
Qed.

Lemma drop_end_app l e : Forall (fun x => p x = true) e -> drop_end p (l ++ e) = drop_end p l.
Proof.
  intros He. induction l as [|x l IH]; simpl; [|by rewrite IH].
  induction He as [|x e Hx He IH]; [done|]. simpl. by rewrite IH, Hx.
Qed.

Lemma drop_end_filter l : List.filter (fun x => negb (p x)) (drop_end p l) = List.filter (fun x => negb (p x)) l.
Proof.
  destruct (drop_end_decompose l) as (e & He & Hp). rewrite He at 2. rewrite List.filter_app.
  assert (List.filter (fun x => negb (p x)) e = []) as ->; [|by rewrite app_nil_r].
  clear He. induction Hp as [|x e Hx _ IH]; [done|]. simpl. by rewrite Hx.
Qed.
End drop_end.

(** ** Adding to next.md *)

Lemma trimmed_lines doc : x0d ∉ doc -> drop_blank_end (split_byte nl (TrimRight doc newlines)) = drop_blank_end (raw_lines doc).
Proof.
  intros Hcr. unfold raw_lines. rewrite ReplaceAll_no_cr by done.
  pose proof (Join_split_byte nl doc) as Hj. pose proof (split_byte_pieces nl doc) as Hp.
  destruct (split_byte nl doc) as [|t ts _] using rev_ind; [by rewrite <- Hj|].
  rewrite Join_snoc in Hj. apply Forall_app in Hp as [Hts Ht]. rewrite Forall_singleton in Ht. rewrite last_snoc.
  assert (blank_text [] = true) as Hb by done. destruct t as [|c t].
  - rewrite removelast_last, <- Hj, app_nil_r, TrimRight_unlines by done.
    destruct (rstrip_decompose ts) as [k Hk]. rewrite Hk at 2. unfold drop_blank_end.
    rewrite drop_end_app by (apply Forall_replicate; done). destruct (rstrip ts) as [|u us] eqn:E; [done|].
    rewrite split_byte_Join; [done|done|]. rewrite <- E. by apply rstrip_Forall.
  - assert (TrimRight doc newlines = doc) as -> by (rewrite <- Hj; by apply TrimRight_nl_app).
    rewrite <- Hj, <- Join_snoc, split_byte_Join; [done|by destruct ts|]. apply Forall_app. split; [done|by apply Forall_singleton].
Qed.

(** The item a line is read as. *)
Definition item_of (l : gostring) : gostring := TrimSpace (drop 2 (TrimSpace l)).

Lemma item_fold_inl ls out b : exists out' b', foldl (item_step false false) (inl (out, b)) ls = inl (out', b').
Proof.
  revert out b. induction ls as [|l ls IH]; intros out b; [by eexists _, _|]. cbn [foldl item_step].
  repeat case_match; try done; apply IH.
Qed.

(** Blank lines, wherever they are, read as no item. *)
Lemma blank_items fence i bl out b : Forall (fun t => blank_text t = true) bl ->
  exists b', foldl (item_step false false) (inl (out, b)) (scan_lines fence i bl) = inl (out, b').
Proof.
  intros Hb. revert fence i b. induction Hb as [|t bl Ht _ IH]; intros fence i b; [by eexists|].
  rewrite scan_lines_cons. cbn [foldl item_step md_InCode md_Text]. apply bool_decide_eq_true in Ht. rewrite Ht.
  destruct (fence_flag fence t); [apply IH|].
  destruct (Nat.ltb 0 (fst (headingLevel _))); [apply IH|]. cbn. rewrite andb_false_r. apply IH.
Qed.

Lemma fence_after_blanks fence bl : Forall (fun t => blank_text t = true) bl -> fence_after fence bl = fence.
Proof.
  intros Hb. revert fence. induction Hb as [|t bl Ht _ IH]; intros fence; [done|]. change (fence_after fence (t :: bl)) with (fence_after (fence_step fence t) bl).
  rewrite IH. unfold fence_step. apply bool_decide_eq_true in Ht. rewrite Ht. cbn. by rewrite !andb_false_r.
Qed.

(** A line that starts an item is no heading and no fence. *)
Lemma item_line_plain t n : HasPrefix t "- " = true -> is_item (TrimSpace t) = true -> item_of t <> [] ->
  is_fence (TrimSpace t) = false /\ fst (headingLevel (MdLine n t false)) = 0.
Proof.
  intros Hp Hi _. split.
  - unfold is_item, is_fence in *. destruct (TrimSpace t) as [|c s]; [done|].
    destruct c; try done.
  - unfold headingLevel. cbn [md_InCode md_Text]. destruct (TrimRight_prefix t blank_tab) as [e He].
    destruct (TrimRight t blank_tab) as [|c s]; [done|]. rewrite He in Hp. destruct c; done.
Qed.

Section add.
Context (doc l : gostring).
Hypotheses (Hcr : x0d ∉ doc) (Hout : fence_after "" (raw_lines doc) = "") (Hnl : nl ∉ l) (Hlcr : x0d ∉ l).
Hypotheses (Hp : HasPrefix l "- " = true) (Hi : is_item (TrimSpace l) = true) (Hne : item_of l <> []).

(** The lines of next.md with the line added. *)
Lemma appendNextMD_lines : exists bl, Forall (fun t => blank_text t = true) bl /\
  raw_lines (appendNextMD (Some doc) [l]) = drop_blank_end (raw_lines doc) ++ bl ++ [l].
Proof.
  unfold appendNextMD. rewrite ReplaceAll_no_cr, trimmed_lines by done. set (ls := drop_blank_end (raw_lines doc)).
  destruct (drop_end_decompose blank_text (raw_lines doc)) as (e & He & _). fold drop_blank_end in He. fold ls in He.
  assert (forall c, c ∉ doc \/ c = nl -> Forall (fun t => c ∉ t) (raw_lines doc)) as Hno.
  { intros c [Hc| ->]; [|apply raw_lines_no_nl]. apply Forall_forall. intros t Ht Hct. apply Hc. by eapply raw_lines_subset. }
  assert (forall c, c ∉ doc \/ c = nl -> Forall (fun t => c ∉ t) ls) as Hls.
  { intros c Hc. specialize (Hno c Hc). rewrite He in Hno. by apply Forall_app in Hno as [? _]. }
  assert (forall bl, Forall (fun t => t = []) bl -> raw_lines (Join (ls ++ bl ++ [l]) [nl] ++ [nl]) = ls ++ bl ++ [l]) as Hraw.
  { intros bl Hbl. rewrite unlines_Join by (intros Hx; apply app_nil in Hx as [_ Hx]; by apply app_nil in Hx as [_ ?]).
    assert (forall c, c ∉ l -> Forall (fun t => c ∉ t) (bl ++ [l])) as Hbl'.
    { intros c Hc. apply Forall_app. split; [|by apply Forall_singleton].
      eapply Forall_impl; [exact Hbl|]. intros t ->. set_solver. }
    apply raw_lines_unlines; apply Forall_app; split; auto. }
  destruct (last ls) as [e0|]; [destruct (_ || _)|].
  - exists [[]]. split; [by repeat constructor|]. rewrite <- app_assoc. apply Hraw. by repeat constructor.
  - exists []. split; [done|]. by apply (Hraw []).
  - exists []. split; [done|]. by apply (Hraw []).
Qed.

Lemma appendNextMD_items : NextFileItems (appendNextMD (Some doc) [l]) = NextFileItems doc ++ [item_of l].
Proof.
  destruct appendNextMD_lines as (bl & Hbl & Hl). unfold NextFileItems, nextListItems, splitLines. rewrite Hl.
  destruct (drop_end_decompose blank_text (raw_lines doc)) as (e & He & Hblank). fold drop_blank_end in He.
  set (ls := drop_blank_end (raw_lines doc)) in *. rewrite He.
  assert (fence_after "" ls = "") as Hf.
  { rewrite He, fence_after_app, fence_after_blanks in Hout by done. exact Hout. }
  rewrite !scan_lines_app, !foldl_app, (fence_after_blanks _ bl Hbl), Hf.
  destruct (item_fold_inl (scan_lines "" 0 ls) [] false) as (out & b & ->).
  destruct (blank_items "" (0 + length ls) e out b Hblank) as [b1 ->].
  destruct (blank_items "" (0 + length ls) bl out b Hbl) as [b2 ->].
  rewrite scan_lines_cons. cbn [foldl scan_lines item_step md_InCode md_Text].
  destruct (item_line_plain l (0 + length ls + length bl + 1) Hp Hi Hne) as [H1 H2].
  assert (fence_flag "" l = false) as -> by (unfold fence_flag; by rewrite H1). rewrite H2, Hi. cbn [Nat.ltb Nat.leb].
  fold (item_of l). by rewrite bool_decide_false.
Qed.
End add.

(** A finding added to next.md is read back. Adding the line of `ape next add` to a
    next.md that ends outside a code block leaves every item it held as it was read,
    in order, and reads the new one last. *)
Theorem AddNext_read (doc date text from : gostring) :
  let l := NextLine date text from in
  x0d ∉ doc -> fence_after "" (raw_lines doc) = "" -> nl ∉ l -> x0d ∉ l -> is_item (TrimSpace l) = true -> item_of l <> [] ->
  NextFileItems (appendNextMD (Some doc) [l]) = NextFileItems doc ++ [item_of l].
Proof.
  intros l Hcr Hf Hnl Hlcr Hi Hne. apply appendNextMD_items; try done. unfold l, NextLine. by destruct (from <>s "").
Qed.

Lemma AddNext_read_witness :
  let l := NextLine "2025-01-02" "the CSV export ignores --tz " "greet-twice" in
  NextFileItems (appendNextMD (Some nextMDSkeleton) [l]) = NextFileItems nextMDSkeleton ++ [item_of l] /\
  item_of l = "2025-01-02 the CSV export ignores --tz (from greet-twice)".
Proof.
  intros l. split; [|vm_compute; reflexivity].
  apply (AddNext_read nextMDSkeleton "2025-01-02" "the CSV export ignores --tz " "greet-twice");
    try (apply (bool_decide_unpack _); vm_compute; exact I); vm_compute; discriminate || reflexivity.
Defined.

(** ** The block the move carries *)

Lemma chunk_fold body : forall out in_, (in_ = true -> out <> []) ->
  mjoin (ch_raw <$> fst (foldl chunk_step (out, in_) body)) = mjoin (ch_raw <$> out) ++ (md_Text <$> body).
Proof.
  induction body as [|ln body IH]; intros out in_ Hin; [by rewrite app_nil_r|]. cbn [foldl].
  assert (forall o i, (i = true -> o <> []) -> mjoin (ch_raw <$> o) = mjoin (ch_raw <$> out) ++ [md_Text ln] ->
    mjoin (ch_raw <$> fst (foldl chunk_step (o, i) body)) = mjoin (ch_raw <$> out) ++ (md_Text <$> ln :: body)) as Hstep.
  { intros o i Hi Ho. rewrite IH, Ho, fmap_cons by done. by rewrite <- app_assoc. }
  unfold chunk_step at 2. destruct (md_InCode ln); [|destruct (is_item _); [|destruct (in_ && _ && _) eqn:E]];
    apply Hstep; try (intros _; apply snoc_not_nil); try (rewrite fmap_app, join_app; done); try done.
  - intros _ Hn. apply (f_equal length) in Hn. rewrite length_alter in Hn. apply andb_prop in E as [[-> _]%andb_prop _].
    destruct out; [by apply Hin|done].
  - apply andb_prop in E as [[-> _]%andb_prop _]. specialize (Hin eq_refl). destruct out as [|c out _] using rev_ind; [done|].
    rewrite length_app. cbn [length]. replace (length out + 1 - 1) with (length out) by lia. rewrite alter_snoc, !fmap_app, !join_app.
    cbn. by rewrite !app_nil_r, <- app_assoc.
Qed.

(** The chunks are the block, byte for byte. *)
Lemma chunks_raw l lines : mjoin (ch_raw <$> chunks l lines) = mjoin (fmap md_Text <$> next_bodies l lines).
Proof.
  unfold chunks. induction (next_bodies l lines) as [|body bodies IH]; [done|].
  rewrite bind_cons, fmap_app, join_app, IH, chunk_fold by done. done.
Qed.

(** The chunks the move carries: those that hold no item, and the first of each item
    not seen before. *)
Fixpoint fresh (seen : list gostring) (cs : list nextChunk) : list nextChunk :=
  match cs with
  | [] => []
  | c :: cs' =>
      if ch_item c =s "" then c :: fresh seen cs'
      else if slices_Contains seen (ch_item c) then fresh seen cs'
      else c :: fresh (seen ++ [ch_item c]) cs'
  end.

Definition chunk_items (cs : list nextChunk) : list gostring := List.filter (fun x => x <>s "") (ch_item <$> cs).
Definition nonblank (ls : list gostring) : list gostring := List.filter (fun t => negb (blank_text t)) ls.

Lemma nonblank_app a b : nonblank (a ++ b) = nonblank a ++ nonblank b.
Proof. apply List.filter_app. Qed.

(** A blank chunk is a blank line. *)
Definition blank_ok (c : nextChunk) : Prop := ch_blank c = true -> nonblank (ch_raw c) = [].

Lemma chunk_fold_blank body : forall out in_, Forall blank_ok out -> (in_ = true -> exists o c, out = o ++ [c] /\ ch_blank c = false) ->
  Forall blank_ok (fst (foldl chunk_step (out, in_) body)).
Proof.
  induction body as [|ln body IH]; intros out in_ Ho Hin; [done|]. cbn [foldl]. unfold chunk_step at 2.
  destruct (md_InCode ln); [|destruct (is_item _); [|destruct (in_ && _ && _) eqn:E]].
  - apply IH; [|done]. apply Forall_app. split; [done|]. by apply Forall_singleton.
  - apply IH; [|eauto]. apply Forall_app. split; [done|]. by apply Forall_singleton.
  - apply andb_prop in E as [[-> _]%andb_prop _]. destruct (Hin eq_refl) as (o & c & -> & Hc).
    rewrite length_app. cbn [length]. replace (length o + 1 - 1) with (length o) by lia. rewrite alter_snoc.
    apply IH; [|eauto]. apply Forall_app in Ho as [Ho _]. apply Forall_app. split; [done|]. apply Forall_singleton.
    unfold blank_ok. cbn. congruence.
  - apply IH; [|done]. apply Forall_app. split; [done|]. apply Forall_singleton. unfold blank_ok, nonblank. cbn.
    unfold blank_text. by intros ->.
Qed.

Lemma chunks_blank l lines : Forall blank_ok (chunks l lines).
Proof.
  unfold chunks. induction (next_bodies l lines) as [|body bodies IH]; [done|]. rewrite bind_cons. apply Forall_app. split; [|done].
  by apply chunk_fold_blank.
Qed.

Lemma plan_fold cs : forall s, Forall blank_ok cs ->
  let s' := foldl plan_chunk s cs in
  nonblank (pl_block s') = nonblank (pl_block s) ++ nonblank (mjoin (ch_raw <$> fresh (pl_seen s) cs)) /\
  pl_moved s' = pl_moved s ++ chunk_items (fresh (pl_seen s) cs) /\
  pl_seen s' = pl_seen s ++ chunk_items (fresh (pl_seen s) cs) /\
  pl_moved s' ++ pl_duplicates s' ≡ₚ pl_moved s ++ pl_duplicates s ++ chunk_items cs.
Proof.
  induction cs as [|c cs IH]; intros s Hb; cbn [foldl fresh].
  { cbn. by rewrite !app_nil_r. }
  apply Forall_cons in Hb as [Hc Hb].
  assert (forall r, chunk_items (c :: r) = (if bool_decide (ch_item c = "") then [] else [ch_item c]) ++ chunk_items r) as Hi
    by (intros r; unfold chunk_items; rewrite fmap_cons; cbn [List.filter]; by destruct (bool_decide (ch_item c = ""))).
  assert (forall r, nonblank (mjoin (ch_raw <$> c :: r)) = nonblank (ch_raw c) ++ nonblank (mjoin (ch_raw <$> r))) as Hn
    by (intros r; rewrite fmap_cons; apply nonblank_app).
  destruct (bool_decide (ch_item c = "")) eqn:Ei.
  - rewrite Hn, !Hi. destruct (ch_blank c && pl_lastBlank s) eqn:El.
    + assert (plan_chunk s c = s) as -> by (unfold plan_chunk; by rewrite Ei, El). apply andb_prop in El as [El _]. rewrite (Hc El). by apply IH.
    + assert (plan_chunk s c = MkPlan (pl_seen s) (pl_block s ++ ch_raw c) (ch_blank c) (pl_moved s) (pl_duplicates s)) as Hp
        by (unfold plan_chunk; by rewrite Ei, El).
      destruct (IH (plan_chunk s c) Hb) as (H1 & H2 & H3 & H4). rewrite Hp in H1, H2, H3, H4 |- *. cbn [pl_block pl_seen pl_moved pl_duplicates] in H1, H2, H3, H4 |- *.
      split_and!; [|exact H2|exact H3|exact H4]. rewrite H1. by rewrite nonblank_app, <- app_assoc.
  - destruct (slices_Contains (pl_seen s) (ch_item c)) eqn:Es.
    + assert (plan_chunk s c = MkPlan (pl_seen s) (pl_block s) (pl_lastBlank s) (pl_moved s) (pl_duplicates s ++ [ch_item c])) as Hp
        by (unfold plan_chunk; by rewrite Ei, Es).
      destruct (IH (plan_chunk s c) Hb) as (H1 & H2 & H3 & H4). rewrite Hp in H1, H2, H3, H4 |- *. cbn [pl_block pl_seen pl_moved pl_duplicates] in H1, H2, H3, H4 |- *.
      split_and!; [exact H1|exact H2|exact H3|]. rewrite H4, Hi. by rewrite <- app_assoc.
    + assert (plan_chunk s c = MkPlan (pl_seen s ++ [ch_item c]) (pl_block s ++ ch_raw c) (ch_blank c) (pl_moved s ++ [ch_item c]) (pl_duplicates s)) as Hp
        by (unfold plan_chunk; by rewrite Ei, Es).
      destruct (IH (plan_chunk s c) Hb) as (H1 & H2 & H3 & H4). rewrite Hp in H1, H2, H3, H4 |- *. cbn [pl_block pl_seen pl_moved pl_duplicates] in H1, H2, H3, H4 |- *. rewrite Hn, !Hi. split_and!.
      * rewrite H1. by rewrite nonblank_app, <- app_assoc.
      * by rewrite H2, <- app_assoc.
      * by rewrite H3, <- app_assoc.
      * rewrite H4, <- app_assoc. apply Permutation_app_head. by rewrite !app_assoc, (Permutation_app_comm [_]).
Qed.

Lemma fresh_spec cs : forall seen, NoDup (chunk_items (fresh seen cs)) /\
  (forall it, it ∈ chunk_items (fresh seen cs) -> it ∉ seen) /\
  (forall it, it ∈ chunk_items cs -> it ∈ seen \/ it ∈ chunk_items (fresh seen cs)).
Proof.
  induction cs as [|c cs IH]; intros seen.
  { cbn. split_and!; [constructor|intros it H; by apply not_elem_of_nil in H|intros it H; by apply not_elem_of_nil in H]. }
  assert (forall r, chunk_items (c :: r) = (if bool_decide (ch_item c = "") then [] else [ch_item c]) ++ chunk_items r) as Hi
    by (intros r; unfold chunk_items; rewrite fmap_cons; cbn [List.filter]; by destruct (bool_decide (ch_item c = ""))).
  cbn [fresh]. destruct (bool_decide (ch_item c = "")) eqn:Ei; rewrite ?Hi; [apply IH|].
  unfold slices_Contains. destruct (bool_decide_reflect (ch_item c ∈ seen)) as [Hs|Hs].
  - destruct (IH seen) as (H1 & H2 & H3). split_and!; [done|done|]. intros it Hit%elem_of_cons. destruct Hit as [->|Hit]; auto.
  - destruct (IH (seen ++ [ch_item c])) as (H1 & H2 & H3). rewrite Hi. cbn [app]. split_and!.
    + constructor; [|done]. intros H%H2. apply H, elem_of_app. right. by apply list_elem_of_singleton.
    + intros it [->|Hit]%elem_of_cons; [done|]. intros Hin. apply (H2 it Hit), elem_of_app. by left.
    + intros it [->|Hit]%elem_of_cons; [right; by apply elem_of_cons; left|]. destruct (H3 it Hit) as [[?|?%list_elem_of_singleton]%elem_of_app|?];
        [by left|subst; right; by apply elem_of_cons; left|right; by apply elem_of_cons; right].
Qed.

(** The move carries the whole block, each item once. The pieces it reads are the
    roadmap's Next block byte for byte; the items it moves are each moved once, were
    not in next.md, and together with the duplicates it reports are all the block's;
    a duplicate is an item next.md held or the move carries; and what it adds to
    next.md is, blank lines aside, exactly the lines of the pieces that are no
    duplicate, in order. *)
Theorem planNextMove_carries (roadmap : gostring) (next : option gostring) :
  let lines := splitLines roadmap in
  let l := scanRoadmapNext lines in
  let had := match next with Some n => NextFileItems n | None => [] end in
  let '(r, _, newNext) := planNextMove roadmap next in
  mjoin (ch_raw <$> chunks l lines) = mjoin (fmap md_Text <$> next_bodies l lines) /\
  NoDup (nm_Moved r) /\ (forall it, it ∈ nm_Moved r -> it ∉ had) /\
  nm_Moved r ++ nm_Duplicates r ≡ₚ chunk_items (chunks l lines) /\
  (forall it, it ∈ nm_Duplicates r -> it ∈ had \/ it ∈ nm_Moved r) /\
  exists block, newNext = appendNextMD next block /\
    nonblank block = nonblank (mjoin (ch_raw <$> fresh had (chunks l lines))).
Proof.
  intros lines l had. unfold planNextMove. fold lines. fold l. fold had.
  destruct (plan_fold (chunks l lines) (MkPlan had [] true [] []) (chunks_blank l lines)) as (H1 & H2 & _ & H4).
  cbn [pl_block pl_seen pl_moved pl_duplicates app] in H1, H2, H4. destruct (fresh_spec (chunks l lines) had) as (F1 & F2 & F3).
  cbn [nm_Moved nm_Duplicates]. split_and!.
  - apply chunks_raw.
  - by rewrite H2.
  - intros it. rewrite H2. apply F2.
  - exact H4.
  - intros it Hit. rewrite H2. apply F3. rewrite <- H4. apply elem_of_app. by right.
  - eexists. split; [done|]. etrans; [apply drop_end_filter|exact H1].
Qed.

(** ** The roadmap the move leaves *)

Lemma block_end_range ls : forall j e, e <= j -> e <= block_end ls j e <= j + length ls.
Proof.
  induction ls as [|l ls IH]; intros j e He; cbn [block_end length]; [lia|].
  destruct (md_InCode l); [lia|]. destruct (isListLine _); [pose proof (IH (j + 1) (j + 1)); lia|].
  destruct (blank_text _); [pose proof (IH (j + 1) e); lia|lia].
Qed.

Lemma block_end_indep ls : forall j e, block_end ls j e = e \/ forall e', block_end ls j e' = block_end ls j e.
Proof.
  induction ls as [|l ls IH]; intros j e; cbn [block_end]; [by left|].
  destruct (md_InCode l); [by left|]. destruct (isListLine _); [by right|]. destruct (blank_text _); [apply IH|by left].
Qed.

(** The end of a list is the end from any line of it. *)
Lemma block_end_inside ls : forall k j e, e <= j -> j + k < block_end ls j e ->
  block_end (drop (k + 1) ls) (j + k + 1) (j + k + 1) = block_end ls j e.
Proof.
  induction ls as [|l ls IH]; intros k j e He Hk; cbn [block_end] in *; [lia|].
  destruct (md_InCode l); [lia|]. destruct k as [|k].
  - rewrite Nat.add_0_r in *. destruct (isListLine _); [done|]. destruct (blank_text _); [|lia].
    destruct (block_end_indep ls (j + 1) e) as [E|E]; [lia|]. apply E.
  - replace (S k + 1) with (S (k + 1)) by lia. cbn [drop]. replace (j + S k + 1) with (j + 1 + k + 1) by lia.
    destruct (isListLine _); [|destruct (blank_text _); [|lia]]; apply IH; lia.
Qed.

Lemma blockEnd_range lines from limit : from < limit -> from < blockEnd lines from limit <= limit.
Proof.
  intros Hl. unfold blockEnd, slice_list. pose proof (block_end_range (take (limit - (from + 1)) (drop (from + 1) lines)) (from + 1) (from + 1)).
  rewrite length_take in *. lia.
Qed.

Lemma blockEnd_inside lines from mid limit : from < mid < blockEnd lines from limit ->
  blockEnd lines mid limit = blockEnd lines from limit.
Proof.
  intros [H1 H2]. unfold blockEnd, slice_list in *.
  pose proof (block_end_inside (take (limit - (from + 1)) (drop (from + 1) lines)) (mid - from - 1) (from + 1) (from + 1)) as Hin.
  replace (mid - from - 1 + 1) with (mid - from) in Hin by lia. replace (from + 1 + (mid - from - 1)) with mid in Hin by lia.
  rewrite <- Hin by lia. f_equal. rewrite skipn_firstn_comm, skipn_skipn. f_equal; [lia|]. f_equal. lia.
Qed.

(** What scanRoadmapNext's loop keeps after [i] lines. *)
Definition scan_ok (i : nat) (s : next_scan) : Prop :=
  (forall a b, (a, b) ∈ ns_sections s -> a < b <= i /\ (exists h, ns_firstH2 s = Some h /\ h <= a) /\
     (forall o, ns_open s = Some o -> b <= o)) /\
  (forall a b a' b', (a, b) ∈ ns_sections s -> (a', b') ∈ ns_sections s -> (a, b) = (a', b') \/ b <= a' \/ b' <= a) /\
  (forall o, ns_open s = Some o -> o < i /\ exists h, ns_firstH2 s = Some h /\ h <= o) /\
  (forall h, ns_firstH2 s = Some h -> h < i) /\
  (forall p, ns_pointer s = Some p -> p < i) /\
  (forall l, ns_label s = Some l -> l < i /\ forall h, ns_firstH2 s = Some h -> l < h).

Lemma scan_step_ok i s ln : scan_ok i s -> scan_ok (S i) (next_step s (i, ln)).
Proof.
  intros (H1 & H2 & H3 & H4 & H5 & H6). unfold next_step. destruct (headingLevel ln) as [lv title].
  set (sections := match ns_open s with Some o => ns_sections s ++ [(o, i)] | None => ns_sections s end).
  assert (forall a b, (a, b) ∈ sections -> a < b <= i /\ exists h, ns_firstH2 s = Some h /\ h <= a) as Hs1.
  { intros a b Hab. unfold sections in Hab. destruct (ns_open s) as [o|] eqn:Eo; [|by destruct (H1 a b Hab) as (? & ? & _)].
    apply elem_of_app in Hab as [Hab|Hab%list_elem_of_singleton]; [by destruct (H1 a b Hab) as (? & ? & _)|].
    simplify_eq. destruct (H3 o eq_refl). split; [lia|done]. }
  assert (forall a b a' b', (a, b) ∈ sections -> (a', b') ∈ sections -> (a, b) = (a', b') \/ b <= a' \/ b' <= a) as Hs2.
  { intros a b a' b' Ha Ha'. unfold sections in *. destruct (ns_open s) as [o|] eqn:Eo; [|by eapply H2].
    apply elem_of_app in Ha as [Ha|Ha%list_elem_of_singleton], Ha' as [Ha'|Ha'%list_elem_of_singleton]; simplify_eq.
    - by eapply H2.
    - destruct (H1 a b Ha) as (_ & _ & Hb). right. left. by apply Hb.
    - destruct (H1 a' b' Ha') as (_ & _ & Hb). right. right. by apply Hb.
    - by left. }
  destruct (_ && _); [destruct (Nat.eqb lv 2)|].
  - assert (forall h, (match ns_firstH2 s with None => Some i | h => h end) = Some h -> (ns_firstH2 s = Some h \/ ns_firstH2 s = None /\ h = i)) as Hh
      by (intros h; destruct (ns_firstH2 s); intros [= <-]; auto).
    split_and!; cbn.
    + intros a b Hab. destruct (Hs1 a b Hab) as (? & h & Eh & ?). rewrite Eh. split_and!; [lia|lia|eauto|].
      intros o. destruct (MatchString _ _); [intros [= <-]; lia|done].
    + exact Hs2.
    + intros o. destruct (MatchString _ _); [intros [= <-]|done]. split; [lia|].
      destruct (ns_firstH2 s) as [h|] eqn:Eh; [exists h; specialize (H4 h eq_refl); split; [done|lia]|eauto].
    + intros h [Eh|[_ ->]]%Hh; [specialize (H4 h Eh)|]; lia.
    + intros p Hp. specialize (H5 p Hp). lia.
    + intros l Hl. destruct (H6 l Hl) as [? Hlh]. split; [lia|]. intros h [Eh|[_ ->]]%Hh; [by apply Hlh|done].
  - split_and!; cbn; [intros a b Hab; destruct (Hs1 a b Hab); split_and!; [lia|lia|done|done]|exact Hs2|done| | |].
    + intros h Hh. specialize (H4 h Hh). lia.
    + intros p Hp. specialize (H5 p Hp). lia.
    + intros l Hl. destruct (H6 l Hl). split; [lia|done].
  - assert (scan_ok (S i) s) as Hok.
    { split_and!; [|done|..].
      - intros a b Hab. destruct (H1 a b Hab) as (? & ? & ?). split_and!; [lia|lia|done|done].
      - intros o Ho. destruct (H3 o Ho). split; [lia|done].
      - intros h Hh. specialize (H4 h Hh). lia.
      - intros p Hp. specialize (H5 p Hp). lia.
      - intros l Hl. destruct (H6 l Hl). split; [lia|done]. }
    destruct (_ || _); [done|]. destruct Hok as (K1 & K2 & K3 & K4 & K5 & K6). destruct (_ && _); [|destruct (_ && _) eqn:El; [|done]].
    + split_and!; cbn; try done. intros p [= <-]. lia.
    + split_and!; cbn; try done. intros l [= <-]. split; [lia|]. intros h Hh.
      apply andb_prop in El as [[_ El]%andb_prop _]. by rewrite Hh in El.
Qed.

Lemma foldl_imap {A S : Type} (P : nat -> S -> Prop) (f : S -> nat * A -> S) (s : S) (l : list A) :
  P 0 s -> (forall i s x, l !! i = Some x -> P i s -> P (Datatypes.S i) (f s (i, x))) -> P (length l) (foldl f s (imap pair l)).
Proof.
  intros H0 Hs. induction l as [|x l IH] using rev_ind; [done|].
  rewrite imap_app, foldl_app, length_app. cbn [imap foldl length]. rewrite Nat.add_0_r, Nat.add_1_r. apply Hs.
  - by apply list_lookup_middle.
  - apply IH. intros i s' y Hy. apply Hs. by apply lookup_app_l_Some.
Qed.

(** What the layout of a document is. *)
Record layout_ok (l : roadmapNextLayout) : Prop := {
  lo_label b : ln_label l = Some b -> b < ln_labelEnd l <= ln_firstH2 l;
  lo_residue e : ln_residueEnd l = Some e -> exists p, ln_pointer l = Some p /\ p < e <= ln_firstH2 l /\ ln_label l <> Some p;
  lo_sections a b : (a, b) ∈ ln_sections l -> ln_firstH2 l <= a < b;
  lo_disjoint a b a' b' : (a, b) ∈ ln_sections l -> (a', b') ∈ ln_sections l -> (a, b) = (a', b') \/ b <= a' \/ b' <= a;
  lo_label_in b p e : ln_label l = Some b -> ln_pointer l = Some p -> ln_residueEnd l = Some e -> p < b < e -> ln_labelEnd l = e;
  lo_pointer_in b p e : ln_label l = Some b -> ln_pointer l = Some p -> ln_residueEnd l = Some e -> b < p < ln_labelEnd l -> e = ln_labelEnd l }.

Lemma scan_layout lines : layout_ok (scanRoadmapNext lines).
Proof.
  unfold scanRoadmapNext. set (s := foldl next_step _ _).
  assert (scan_ok (length lines) s) as (H1 & H2 & H3 & H4 & H5 & H6).
  { apply (foldl_imap scan_ok).
    - split_and!; cbn; try done. all: intros; set_solver.
    - intros i s' ln _. apply scan_step_ok. }
  clearbody s. set (firstH2 := default (length lines) (ns_firstH2 s)).
  set (sections := match ns_open s with Some o => ns_sections s ++ [(o, length lines)] | None => ns_sections s end).
  assert (forall b, ns_label s = Some b -> b < firstH2) as Hlab.
  { intros b Hb. destruct (H6 b Hb) as [? Hh]. unfold firstH2. destruct (ns_firstH2 s); [by apply Hh|done]. }
  assert (forall a b, (a, b) ∈ sections -> firstH2 <= a < b) as Hsec.
  { intros a b Hab. unfold sections in Hab. assert ((a, b) ∈ ns_sections s \/ ns_open s = Some a /\ b = length lines) as [Hab'|[Ho ->]].
    { destruct (ns_open s); [|by left]. apply elem_of_app in Hab as [?|?%list_elem_of_singleton]; [by left|simplify_eq; by right]. }
    - destruct (H1 a b Hab') as (? & (h & Eh & ?) & _). unfold firstH2. rewrite Eh. cbn. lia.
    - destruct (H3 a Ho) as (? & h & Eh & ?). unfold firstH2. rewrite Eh. cbn. lia. }
  assert (forall a b a' b', (a, b) ∈ sections -> (a', b') ∈ sections -> (a, b) = (a', b') \/ b <= a' \/ b' <= a) as Hdis.
  { intros a b a' b' Ha Ha'. unfold sections in *. destruct (ns_open s) as [o|] eqn:Eo; [|by eapply H2].
    apply elem_of_app in Ha as [Ha|Ha%list_elem_of_singleton], Ha' as [Ha'|Ha'%list_elem_of_singleton]; simplify_eq.
    - by eapply H2.
    - destruct (H1 a b Ha) as (_ & _ & Hb). right. left. by apply Hb.
    - destruct (H1 a' b' Ha') as (_ & _ & Hb). right. right. by apply Hb.
    - by left. }
  set (residue := match ns_pointer s with Some p => _ | None => None end).
  assert (forall e, residue = Some e -> exists p, ns_pointer s = Some p /\ p < firstH2 /\ e = blockEnd lines p firstH2 /\ ns_label s <> Some p) as Hres.
  { intros e He. unfold residue in He. destruct (ns_pointer s) as [p|]; [|done]. destruct (_ && _ && _) eqn:E; [|done]. simplify_eq.
    apply andb_prop in E as [[E1%Nat.ltb_lt E2]%andb_prop _]. apply negb_true_iff, bool_decide_eq_false in E2. eauto. }
  split; cbn [ln_label ln_labelEnd ln_sections ln_firstH2 ln_pointer ln_residueEnd].
  - intros b Hb. rewrite Hb. apply blockEnd_range, Hlab, Hb.
  - intros e He. destruct (Hres e He) as (p & Hp & Hlt & -> & Hne). exists p. split_and!; [done|by apply blockEnd_range..|done].
  - exact Hsec.
  - exact Hdis.
  - intros b p e Hb Hp He [Hpb Hbe]. destruct (Hres e He) as (p' & Hp' & _ & -> & _). rewrite Hb. simplify_eq. by apply blockEnd_inside.
  - intros b p e Hb Hp He [Hbp Hpe]. destruct (Hres e He) as (p' & Hp' & _ & -> & _). rewrite Hb in *. simplify_eq. by apply blockEnd_inside.
Qed.

(** ** The walk *)

Section walk.
Context (l : roadmapNextLayout) (Hl : layout_ok l).

(** A line of the Next block. *)
Definition in_next (i : nat) : bool :=
  match ln_label l with Some b => Nat.leb b i && Nat.ltb i (ln_labelEnd l) | None => false end ||
  existsb (fun s => Nat.leb (fst s) i && Nat.ltb i (snd s)) (ln_sections l) ||
  match ln_pointer l, ln_residueEnd l with Some p, Some e => Nat.ltb p i && Nat.ltb i e | _, _ => false end.

(** Every part of the block that starts before [m] ends by [m]. *)
Definition whole (m : nat) : Prop :=
  (forall b, ln_label l = Some b -> b < m -> ln_labelEnd l <= m) /\
  (forall a b, (a, b) ∈ ln_sections l -> a < m -> b <= m) /\
  (forall p e, ln_pointer l = Some p -> ln_residueEnd l = Some e -> p < m -> e <= m).

Lemma in_next_iff i : in_next i = true <->
  (exists b, ln_label l = Some b /\ b <= i < ln_labelEnd l) \/ (exists a b, (a, b) ∈ ln_sections l /\ a <= i < b) \/
  (exists p e, ln_pointer l = Some p /\ ln_residueEnd l = Some e /\ p < i < e).
Proof.
  unfold in_next. rewrite !orb_true_iff, existsb_exists. split.
  - intros [[H|([a b] & Hin & H)]|H].
    + left. destruct (ln_label l) as [b|]; [|done]. apply andb_prop in H as [?%Nat.leb_le ?%Nat.ltb_lt]. eauto.
    + right. left. apply andb_prop in H as [?%Nat.leb_le ?%Nat.ltb_lt]. exists a, b. split; [by apply list_elem_of_In|done].
    + right. right. destruct (ln_pointer l) as [p|]; [|done]. destruct (ln_residueEnd l) as [e|]; [|done].
      apply andb_prop in H as [?%Nat.ltb_lt ?%Nat.ltb_lt]. eauto 6.
  - intros [(b & -> & ? & ?)|[(a & b & Hin & ? & ?)|(p & e & -> & -> & ? & ?)]].
    + left. left. apply andb_true_intro. split; [by apply Nat.leb_le|by apply Nat.ltb_lt].
    + left. right. exists (a, b). split; [by apply list_elem_of_In|]. apply andb_true_intro. split; [by apply Nat.leb_le|by apply Nat.ltb_lt].
    + right. apply andb_true_intro. split; by apply Nat.ltb_lt.
Qed.

Lemma whole_label b : ln_label l = Some b -> whole b -> whole (ln_labelEnd l).
Proof.
  intros Hb (W1 & W2 & W3). pose proof (lo_label l Hl b Hb) as Hr. split_and!.
  - done.
  - intros a c Hac Hlt. pose proof (lo_sections l Hl a c Hac). lia.
  - intros p e Hp He Hlt. destruct (lo_residue l Hl e He) as (p' & Hp' & Hr' & Hne). rewrite Hp in Hp'. injection Hp' as <-.
    assert (p <> b) by congruence. destruct (decide (p < b)); [specialize (W3 p e Hp He); lia|].
    rewrite (lo_pointer_in l Hl b p e Hb Hp He); lia.
Qed.

Lemma whole_section a b : (a, b) ∈ ln_sections l -> whole a -> whole b.
Proof.
  intros Hab (W1 & W2 & W3). pose proof (lo_sections l Hl a b Hab) as Hr. split_and!.
  - intros c Hc _. pose proof (lo_label l Hl c Hc). specialize (W1 c Hc). lia.
  - intros c d Hcd Hlt. destruct (lo_disjoint l Hl a b c d Hab Hcd) as [[= -> ->]|[?|?]]; lia.
  - intros p e Hp He _. destruct (lo_residue l Hl e He) as (p' & Hp' & Hr' & Hne). rewrite Hp in Hp'. injection Hp' as <-.
    specialize (W3 p e Hp He). lia.
Qed.

Lemma whole_pointer p e : ln_pointer l = Some p -> ln_residueEnd l = Some e -> whole p -> whole e.
Proof.
  intros Hp He (W1 & W2 & W3). destruct (lo_residue l Hl e He) as (p' & Hp' & Hr & Hne). rewrite Hp in Hp'. injection Hp' as <-. split_and!.
  - intros b Hb Hlt. assert (p <> b) by congruence. destruct (decide (b < p)); [specialize (W1 b Hb); lia|].
    rewrite (lo_label_in l Hl b p e Hb Hp He); lia.
  - intros a c Hac Hlt. pose proof (lo_sections l Hl a c Hac). lia.
  - intros p' e' Hp' He' _. simplify_eq. done.
Qed.

(** A line the walk stops at is no line of the block, unless it starts one. *)
Lemma whole_out i : whole i -> ln_label l <> Some i -> (forall b, (i, b) ∉ ln_sections l) -> in_next i = false.
Proof.
  intros (W1 & W2 & W3) Hn1 Hn2. apply not_true_iff_false. rewrite in_next_iff.
  intros [(b & Hb & ? & ?)|[(a & b & Hin & ? & ?)|(p & e & Hp & He & ? & ?)]].
  - assert (b <> i) by congruence. specialize (W1 b Hb). lia.
  - assert (a <> i) by (intros ->; by apply (Hn2 b)). specialize (W2 a b Hin). lia.
  - specialize (W3 p e Hp He). lia.
Qed.

Lemma whole_next i : whole i -> ln_label l <> Some i -> (forall b, (i, b) ∉ ln_sections l) ->
  (ln_pointer l = Some i -> ln_residueEnd l = None) -> whole (S i).
Proof.
  intros (W1 & W2 & W3) Hn1 Hn2 Hn3. split_and!.
  - intros b Hb ?. assert (b <> i) by congruence. specialize (W1 b Hb). lia.
  - intros a b Hin ?. assert (a <> i) by (intros ->; by apply (Hn2 b)). specialize (W2 a b Hin). lia.
  - intros p e Hp He ?. assert (p <> i) by (intros ->; by rewrite (Hn3 Hp) in He). specialize (W3 p e Hp He). lia.
Qed.
End walk.

(** The pointer's line is not blank. *)
Lemma pointer_line lines p : ln_pointer (scanRoadmapNext lines) = Some p -> exists ln, lines !! p = Some ln /\ line_blank ln = false.
Proof.
  unfold scanRoadmapNext. cbn [ln_pointer].
  apply (foldl_imap (fun _ s => ns_pointer s = Some p -> exists ln, lines !! p = Some ln /\ line_blank ln = false)); [done|].
  intros i s ln Hi IH. unfold next_step. destruct (headingLevel ln) as [lv title].
  destruct (_ && _); [by destruct (Nat.eqb lv 2)|]. destruct (md_InCode ln || _) eqn:Ec; [done|].
  destruct (_ && MatchString nextPointerRe _) eqn:E; [|destruct (_ && MatchString nextLabelRe _); exact IH]. cbn. intros [= <-]. exists ln. split; [done|].
  apply andb_prop in E as [_ E]. unfold line_blank, blank_text.
  destruct (bool_decide_reflect (TrimSpace (md_Text ln) = "")) as [Hb|Hb]; [|by rewrite andb_false_r]. by rewrite Hb in E.
Qed.

Section moved.
Context (l : roadmapNextLayout) (Hl : layout_ok l) (lines : list mdLine).
Hypothesis Hptr : forall p, ln_pointer l = Some p -> exists ln, lines !! p = Some ln /\ line_blank ln = false.

(** The texts of the lines that are outside the block and not blank. *)
Definition outside (ils : list (nat * mdLine)) : list gostring :=
  omap (fun il => if in_next l (fst il) || line_blank (snd il) then None else Some (md_Text (snd il))) ils.

(** The texts of the lines out that are not blank. *)
Definition texts (out : list outLine) : list gostring := ol_text <$> List.filter (fun o => negb (ol_blank o)) out.

Definition inserted (placed : bool) : list gostring := if isSome (ln_pointer l) then [] else if placed then [NextPointer] else [].

(** [out] is [kept] with the pointer line put in when [placed]. *)
Definition keeps (placed : bool) (out : list outLine) (kept : list gostring) : Prop :=
  exists a b, texts out = a ++ inserted placed ++ b /\ kept = a ++ b.

Lemma texts_app a b : texts (a ++ b) = texts a ++ texts b.
Proof. unfold texts. by rewrite List.filter_app, fmap_app. Qed.

Lemma keeps_app placed out kept out' kept' : keeps placed out kept -> texts out' = kept' -> keeps placed (out ++ out') (kept ++ kept').
Proof. intros (a & b & Ha & ->) <-. exists a, (b ++ texts out'). by rewrite texts_app, Ha, <- !app_assoc. Qed.

Lemma outside_snoc ils i ln : outside (ils ++ [(i, ln)]) =
  outside ils ++ (if in_next l i || line_blank ln then [] else [md_Text ln]).
Proof. unfold outside. rewrite omap_app. cbn. by destruct (_ || _). Qed.

Definition move_ok (i : nat) (s : move_state) : Prop :=
  whole l (Nat.max i (mv_from s)) /\ (forall j, i <= j < mv_from s -> in_next l j = true) /\
  (isSome (ln_pointer l) = true -> mv_placed s = true) /\
  keeps (mv_placed s) (mv_out s) (outside (imap pair (take i lines))).

(** A jump over lines of the block. *)
Lemma jump_ok i s ln out placed joined to kept : move_ok i s -> mv_from s <= i -> lines !! i = Some ln -> i < to ->
  whole l to -> (forall j, S i <= j < to -> in_next l j = true) -> (isSome (ln_pointer l) = true -> placed = true) ->
  keeps placed out (outside (imap pair (take i lines)) ++ kept) -> (if in_next l i || line_blank ln then [] else [md_Text ln]) = kept ->
  move_ok (S i) (MkMove out placed joined to).
Proof.
  intros _ _ Hln Hlt Hw Hin Hp Hk Ho. split_and!; cbn [mv_from mv_placed mv_out]; [by rewrite Nat.max_r by lia|done|done|].
  rewrite (take_S_r _ _ ln Hln), imap_app. cbn [imap]. rewrite outside_snoc, Nat.add_0_r, length_take_le; [by rewrite Ho|].
  apply lookup_lt_Some in Hln. lia.
Qed.

Lemma move_step_ok i s ln : lines !! i = Some ln -> move_ok i s -> move_ok (S i) (move_step l s (i, ln)).
Proof.
  intros Hln Hok. pose proof Hok as (Hw & Hin & Hp & Hk). unfold move_step. destruct (Nat.ltb_spec i (mv_from s)) as [Hlt|Hge].
  { destruct s as [out placed joined from]. cbn [mv_from mv_placed mv_out] in *. split_and!; cbn [mv_from mv_placed mv_out].
    - by rewrite Nat.max_r in * by lia.
    - intros j Hj. apply Hin. lia.
    - done.
    - rewrite (take_S_r _ _ ln Hln), imap_app. cbn [imap]. rewrite outside_snoc, Nat.add_0_r, length_take_le by (apply lookup_lt_Some in Hln; lia).
      rewrite Hin by lia. by rewrite app_nil_r. }
  rewrite Nat.max_l in Hw by lia. destruct (bool_decide_reflect (ln_label l = Some i)) as [Elab|Elab].
  { pose proof (lo_label l Hl i Elab) as Hr. assert (forall j, i <= j < ln_labelEnd l -> in_next l j = true) as Hj
      by (intros j Hj; apply in_next_iff; left; eauto).
    assert (in_next l i = true) as Hi by (apply Hj; lia). pose proof (whole_label l Hl i Elab Hw) as Hw'.
    destruct (mv_placed s) eqn:Epl; eapply (jump_ok i s ln); eauto; try lia; try (intros; apply Hj; lia); rewrite ?Hi; try done.
    - by rewrite app_nil_r.
    - rewrite app_nil_r. destruct Hk as (a & b & Ha & Hab). exists (a ++ b), []. rewrite !app_nil_r. split; [|exact Hab].
      rewrite texts_app, Ha. unfold inserted. destruct (isSome (ln_pointer l)); [by specialize (Hp eq_refl)|]. done. }
  destruct (List.find _ (rev (ln_sections l))) as [[a e]|] eqn:Ef.
  { apply List.find_some in Ef as [Hs Ea%Nat.eqb_eq]. cbn in Ea. subst a. apply in_rev, list_elem_of_In in Hs.
    pose proof (lo_sections l Hl i e Hs) as Hr. assert (forall j, i <= j < e -> in_next l j = true) as Hj
      by (intros j Hj; apply in_next_iff; right; left; eauto).
    assert (in_next l i = true) as Hi by (apply Hj; lia). pose proof (whole_section l Hl i e Hs Hw) as Hw'.
    eapply (jump_ok i s ln); eauto; try (cbn; lia); try (intros; apply Hj; cbn in *; lia); rewrite ?Hi; try done. by rewrite app_nil_r. }
  assert (forall b, (i, b) ∉ ln_sections l) as Esec.
  { intros b Hb. apply list_elem_of_In, in_rev in Hb. apply (List.find_none _ _ Ef) in Hb. cbn in Hb. by rewrite Nat.eqb_refl in Hb. }
  pose proof (whole_out l i Hw Elab Esec) as Hi.
  assert ((ln_pointer l = Some i -> ln_residueEnd l = None) -> move_ok (S i) (move_line s i ln)) as Hline.
  { intros Hnp. pose proof (whole_next l i Hw Elab Esec Hnp) as Hw'. unfold move_line.
    assert (forall out, keeps (mv_placed s) out (outside (imap pair (take i lines)) ++ (if line_blank ln then [] else [md_Text ln])) ->
      move_ok (S i) (MkMove out (mv_placed s) (mv_joined s) (mv_from s)) /\ move_ok (S i) (MkMove out (mv_placed s) false (mv_from s))) as Hout.
    { intros out Ho. assert (keeps (mv_placed s) out (outside (imap pair (take (S i) lines)))) as Ho'.
      { rewrite (take_S_r _ _ ln Hln), imap_app. cbn [imap].
        rewrite outside_snoc, Nat.add_0_r, length_take_le, Hi by (apply lookup_lt_Some in Hln; lia). exact Ho. }
      split; split_and!; cbn [mv_from mv_placed mv_out]; try done; try (by rewrite Nat.max_l by lia); intros j Hj; lia. }
    destruct (_ && _ && _) eqn:E.
    - apply andb_prop in E as [[_ E]%andb_prop _]. destruct (Hout (mv_out s)) as [Hd _]; [by rewrite E, app_nil_r|]. by destruct s.
    - apply Hout. apply keeps_app; [done|]. unfold texts. cbn. by destruct (line_blank ln). }
  destruct (ln_residueEnd l) as [e|] eqn:Ee; [|by apply Hline].
  destruct (bool_decide_reflect (ln_pointer l = Some i)) as [Epp|Epp]; [|by apply Hline].
  destruct (lo_residue l Hl e Ee) as (p' & Hp' & Hr & _). rewrite Epp in Hp'. injection Hp' as <-.
  pose proof (whole_pointer l Hl i e Epp Ee Hw) as Hw'. destruct (Hptr i Epp) as (ln' & Hln' & Hbl). rewrite Hln in Hln'. injection Hln' as <-.
  apply (jump_ok i s ln _ _ _ e [md_Text ln]); [done|done|done|lia|done| |done| |].
  - intros j Hj. apply in_next_iff. right. right. exists i, e. split_and!; [done|done|lia|lia].
  - by apply keeps_app.
  - by rewrite Hi, Hbl.
Qed.

Lemma first_h2_out_texts out : texts (place_pointer out) = texts (take (first_h2_out out) out) ++ [NextPointer] ++ texts (drop (first_h2_out out) out).
Proof.
  unfold place_pointer. rewrite !texts_app.
  assert (forall x : list outLine, x = [] \/ x = [MkOut [] false true] -> texts x = []) as Hb by (by intros x [->| ->]).
  rewrite (Hb (match last _ with Some _ => _ | None => _ end)), (Hb (match drop _ _ with [] => _ | _ => _ end)); [done|..].
  - destruct (drop _ out) as [|o r]; [by left|]. destruct (ol_blank o); auto.
  - destruct (last _) as [o|]; [|by left]. destruct (ol_blank o); auto.
Qed.

Lemma moved_lines_keeps : exists a b,
  texts (moved_lines l lines) = a ++ (if isSome (ln_pointer l) then [] else [NextPointer]) ++ b /\ outside (imap pair lines) = a ++ b.
Proof.
  unfold moved_lines. set (s := foldl (move_step l) _ _).
  assert (move_ok (length lines) s) as (_ & _ & Hp & Hk).
  { apply (foldl_imap move_ok); [|intros; by apply move_step_ok]. split_and!; cbn [mv_from mv_placed mv_out].
    - split_and!; intros; lia.
    - intros; lia.
    - done.
    - exists [], []. unfold inserted. by destruct (isSome (ln_pointer l)). }
  rewrite firstn_all in Hk. clearbody s. set (out := if mv_joined s then _ else _).
  assert (texts out = texts (mv_out s)) as Ht.
  { unfold out. destruct (mv_joined s); [|done]. unfold texts. by rewrite drop_end_filter. }
  destruct Hk as (a & b & Ha & Hab). unfold inserted in Ha. destruct (mv_placed s) eqn:Ep.
  - exists a, b. split; [congruence|done].
  - destruct (isSome (ln_pointer l)); [by specialize (Hp eq_refl)|]. exists (texts (take (first_h2_out out) out)), (texts (drop (first_h2_out out) out)).
    split; [apply first_h2_out_texts|]. rewrite <- texts_app, firstn_skipn, Ht, Ha. done.
Qed.
End moved.

(** the move loses nothing else. The roadmap it leaves has, blank lines aside, every
    line outside the Next block in order and no line of it, and one line more, the
    pointer to next.md, when there was none. *)
Theorem moved_keeps (roadmap : gostring) :
  let lines := splitLines roadmap in
  let l := scanRoadmapNext lines in
  exists out a b, moved l lines = Join (ol_text <$> out) [nl] ++ [nl] /\
    texts out = a ++ (if isSome (ln_pointer l) then [] else [NextPointer]) ++ b /\
    outside l (imap pair lines) = a ++ b.
Proof.
  intros lines l. destruct (moved_lines_keeps l (scan_layout lines) lines (pointer_line lines)) as (a & b & Ha & Hb).
  exists (moved_lines l lines), a, b. done.
Qed.

(** ** Where the code departs from what it says *)

Definition next_one : gostring := "# Next

- one
".
Definition roadmap_note : gostring := "# Roadmap

## M1 — A

## Next
  note
- three
".

(** A move can change an item next.md holds, though it is said to carry the block
    byte for byte: a block that opens with an indented line is put right under
    next.md's list, where that line reads as the last item's continuation. *)
Lemma move_alters_item :
  let '(r, _, newNext) := planNextMove roadmap_note (Some next_one) in
  NextFileItems next_one = [bs "one"] /\ nm_Moved r = [bs "three"] /\ NextFileItems newNext = [bs "one note"; bs "three"].
Proof. vm_compute. repeat split. Qed.
