(* ===== verification/Command.v ===== *)
(** The commands: the errors they refuse with, the monad they are written in, and the rule
    their theorems are proved by. *)
From S2P Require Import Prelude.

(** ** Errors and the command monad *)

(** A refusal, by its Go type and code; its message is not modelled. *)
Inductive Err := FailError (code : gostring) | UsageError (code : gostring) | ConflictError (code : gostring) | OtherError.

(** A command of a world [W] leaves a world, and an error or a value. *)
Definition CmdOf (W A : Type) : Type := W -> W * (Err + A).

Section monad.
Context {W : Type}.
Definition cret {A} (x : A) : CmdOf W A := fun w => (w, inr x).
Definition fail {A} (e : Err) : CmdOf W A := fun w => (w, inl e).
Definition cbind {A B} (m : CmdOf W A) (f : A -> CmdOf W B) : CmdOf W B := fun w =>
  match m w with (w', inl e) => (w', inl e) | (w', inr x) => f x w' end.
Definition get : CmdOf W W := fun w => (w, inr w).
Definition modify (f : W -> W) : CmdOf W unit := fun w => (f w, inr tt).
Definition check (o : option Err) : CmdOf W unit := match o with Some e => fail e | None => cret tt end.
Definition refuse (b : bool) (e : Err) : CmdOf W unit := if b then fail e else cret tt.
End monad.

Notation "'let*' x := m 'in' k" := (cbind m (fun x => k)) (at level 10, x pattern, m at level 100, k at level 200).
Notation "m ;; k" := (cbind m (fun _ => k)) (at level 100, right associativity).

(** ** Reasoning about commands *)

(** [wp I m Q w]: from [w], [m] ends with a value and a world in [Q], or refuses in a
    world in [I]. *)
Definition wp {W A : Type} (I : W -> Prop) (m : CmdOf W A) (Q : A -> W -> Prop) (w : W) : Prop :=
  match m w with (w', inl _) => I w' | (w', inr x) => Q x w' end.

Section wp.
Context {W : Type} (I : W -> Prop).

Lemma wp_bind {A B} (m : CmdOf W A) (f : A -> CmdOf W B) Q w :
  wp I m (fun x => wp I (f x) Q) w -> wp I (cbind m f) Q w.
Proof. unfold wp, cbind. by destruct (m w) as [w' [e|x]]. Qed.

Lemma wp_ret {A} (x : A) (Q : A -> W -> Prop) w : Q x w -> wp I (cret x) Q w.
Proof. done. Qed.

Lemma wp_fail {A} e (Q : A -> W -> Prop) w : I w -> wp I (fail e) Q w.
Proof. done. Qed.

Lemma wp_get (Q : W -> W -> Prop) w : Q w w -> wp I get Q w.
Proof. done. Qed.

Lemma wp_modify f (Q : unit -> W -> Prop) w : Q tt (f w) -> wp I (modify f) Q w.
Proof. done. Qed.

Lemma wp_check o (Q : unit -> W -> Prop) w : I w -> Q tt w -> wp I (check o) Q w.
Proof. by destruct o. Qed.

Lemma wp_refuse (b : bool) e (Q : unit -> W -> Prop) w : I w -> (b = false -> Q tt w) -> wp I (refuse b e) Q w.
Proof. destruct b; [done|]. intros _ HQ. by apply HQ. Qed.

Lemma wp_mono {A} (m : CmdOf W A) (Q Q' : A -> W -> Prop) w :
  wp I m Q w -> (forall x w', Q x w' -> Q' x w') -> wp I m Q' w.
Proof. unfold wp. destruct (m w) as [w' [e|x]]; auto. Qed.

Lemma wp_if {A} (b : bool) (m n : CmdOf W A) (Q : A -> W -> Prop) w :
  (b = true -> wp I m Q w) -> (b = false -> wp I n Q w) -> wp I (if b then m else n) Q w.
Proof. destruct b; auto. Qed.

Lemma wp_when (b : bool) o (Q : unit -> W -> Prop) w : I w -> Q tt w -> wp I (if b then check o else cret tt) Q w.
Proof. intros Hi HQ. destruct b; [by apply wp_check|done]. Qed.

(** What holds of every end of a command holds of the world it leaves. *)
Lemma wp_fst {A} (m : CmdOf W A) w : wp I m (fun _ => I) w -> I (fst (m w)).
Proof. unfold wp. by destruct (m w) as [w' [e|x]]. Qed.
End wp.

(** One step of a command. *)
Ltac wp1 :=
  match goal with
  | |- wp _ (cbind _ _) _ _ => apply wp_bind
  | |- wp _ (cret _) _ _ => apply wp_ret
  | |- wp _ get _ _ => apply wp_get
  | |- wp _ (modify _) _ _ => apply wp_modify
  | |- wp _ (fail _) _ _ => apply wp_fail
  | |- wp _ (check _) _ _ => apply wp_check; [try assumption|]
  | |- wp _ (refuse _ _) _ _ => apply wp_refuse; [try assumption|intros ?]
  | |- wp _ (if _ then check _ else cret tt) _ _ => apply wp_when; [try assumption|]
  | |- wp _ (if _ then _ else _) _ _ => apply wp_if; intros ?
  end; cbv beta.
Ltac wps := repeat wp1.
