(* ===== verification/Lifecycle.v ===== *)
(** The lifecycle of a change: internal/apexv1/lifecycle.go, catchup.go, blocks.go,
    attempts.go, answer.go, tweak.go, review_run.go and archive.go's Archive and
    Abandon. A command runs in a world (the change's records, HEAD and the specs)
    and in a host, which answers what it asks of git, the file system, the clock,
    the configuration and the commands it runs. *)
From S2P Require Import Prelude Regex Markdown Spec Change Merge Effective Regression Roadmap State Command.

(** ** The world *)

(** What a command reads and writes: the change's state.json (where its records
    live), its attempts, its milestone's consecutive blocks, the acceptances its
    base branch records, the branch HEAD is on, whether change/<id> exists, and
    the specs. *)
Record World := MkWorld {
  w_State : State; w_Attempts : Attempts; w_Blocks : Z; w_BaseAccepted : list Accept;
  w_Head : gostring; w_HasBranch : bool; w_Specs : gmap gostring gostring }.

Definition set_w_State (s : State) (w : World) : World :=
  MkWorld s (w_Attempts w) (w_Blocks w) (w_BaseAccepted w) (w_Head w) (w_HasBranch w) (w_Specs w).
Definition set_w_Attempts (a : Attempts) (w : World) : World :=
  MkWorld (w_State w) a (w_Blocks w) (w_BaseAccepted w) (w_Head w) (w_HasBranch w) (w_Specs w).
Definition set_w_Blocks (b : Z) (w : World) : World :=
  MkWorld (w_State w) (w_Attempts w) b (w_BaseAccepted w) (w_Head w) (w_HasBranch w) (w_Specs w).
Definition set_w_BaseAccepted (l : list Accept) (w : World) : World :=
  MkWorld (w_State w) (w_Attempts w) (w_Blocks w) l (w_Head w) (w_HasBranch w) (w_Specs w).
Definition set_w_Head (h : gostring) (w : World) : World :=
  MkWorld (w_State w) (w_Attempts w) (w_Blocks w) (w_BaseAccepted w) h (w_HasBranch w) (w_Specs w).
Definition set_w_HasBranch (b : bool) (w : World) : World :=
  MkWorld (w_State w) (w_Attempts w) (w_Blocks w) (w_BaseAccepted w) (w_Head w) b (w_Specs w).
Definition set_w_Specs (m : gmap gostring gostring) (w : World) : World :=
  MkWorld (w_State w) (w_Attempts w) (w_Blocks w) (w_BaseAccepted w) (w_Head w) (w_HasBranch w) m.

Definition Cmd : Type -> Type := CmdOf World.

(** ** The limits (limits.go) *)

Record Limits := MkLimits {
  l_Attempts : option Z; l_AttemptsTotal : option Z; l_Replans : option Z; l_ConsecutiveBlocks : option Z }.

Definition intOr (v : option Z) (def : Z) : Z := match v with Some n => n | None => def end.
Definition AttemptsCap (l : Limits) : Z := intOr (l_Attempts l) 5.
Definition AttemptsTotalCap (l : Limits) : Z := intOr (l_AttemptsTotal l) 15.
Definition ReplansCap (l : Limits) : Z := intOr (l_Replans l) 3.
Definition ConsecutiveBlocksCap (l : Limits) : Z := intOr (l_ConsecutiveBlocks l) 2.

(** The whole-number rules of Limits.UnmarshalYAML. *)
Definition limits_ok (l : Limits) : bool :=
  forallb (fun v => match v with Some n => (1 <=? n)%Z | None => true end)
    [l_Attempts l; l_AttemptsTotal l; l_ConsecutiveBlocks l] &&
  match l_Replans l with Some n => (0 <=? n)%Z | None => true end.

(** ** The host *)

(** The places where a command saves a state (each save may fail, or be written and
    fail to commit) and asks what HEAD is and what moved since a commit. *)
Inductive site := AtStart | AtVerify | AtRed | AtReview | AtBlock | AtCatchUp | AtReapply | AtSettle | AtAccept | AtApprove | AtAnswer | AtArchive | AtAbandon | AtReturn.
(** Which run of checks: a start's, a catch-up's, a verify's, and the regression
    commands at a start and at a catch-up. *)
Inductive stage := RunStart | RunCatchUp | RunVerify | RunRegression | RunMilestone.

Record Host := MkHost {
  (* the change and its project *)
  h_id : gostring; h_doc : Change; h_inGit : bool; h_readFrom : gostring; h_limits : Limits; h_now : gostring;
  h_headSHA : site -> gostring;
  h_sha256 : gostring -> gostring; h_ToLower : gostring -> gostring; h_Quote : gostring -> gostring; h_RawQuote : gostring -> gostring;
  h_spec_path : gostring -> gostring; h_specCap : Z;
  h_capabilities : list gostring; h_redAtGate : list gostring;
  h_roadmap : option (Roadmap gostring); h_others : list (gostring * Change);
  h_regressionCmd : gostring; h_milestoneRegressionCmd : gostring; h_baselines : list change_baselines;
  (* what its guards find *)
  h_recover : option Err; h_load : option Err; h_person : option Err; h_cleanTree : option Err;
  h_behindUpstream : option Err; h_baseExists : bool; h_switch : option Err; h_createBranch : option Err;
  h_checkFindings : list Finding; h_approvalRecord : option Err; h_approvalChecks : list Finding;
  h_codeMoved : site -> gostring -> bool; h_diffFails : gostring -> bool; h_unresolved : list gostring;
  h_dirty : Err + list gostring; h_gateTouch : option Err; h_fits : option Err; h_branchFree : option Err;
  h_journal : option Err; h_docsOnly : bool * list gostring; h_findingsFile : bool; h_branchForWrite : option Err;
  h_evidence : Err + list gostring; h_typeFindings : list Finding; h_reservedFindings : list Finding; h_destExists : bool;
  (* git on the base branch *)
  h_baseTip : option gostring; h_isAncestor : gostring -> gostring -> bool; h_recordsOnly : bool;
  h_commitFolder : option Err; h_rebase : Err + list gostring; h_rebasedSpecs : gmap gostring gostring;
  h_baseSpecs : gmap gostring gostring; h_baseCapabilities : list gostring; h_reload : option Err; h_detach : option Err;
  h_reattach : option Err;
  h_layOut : option Err; h_unmerged : Err + list gostring; h_reapplied : option Err; h_stageState : option Err;
  h_oldTipRef : gostring; h_squash : option Err; h_keepTip : option Err; h_deleteBranch : option Err; h_branchTip : gostring;
  h_takeFolder : option Err; h_dest : gostring;
  h_squashSwitch : option Err; h_squashBack : bool; h_baseBranch : option Err; h_destOnBase : bool; h_readFolder : option Err;
  (* git undoing a start that failed: its reset, its switch back, its delete *)
  h_undoReset : bool; h_undoSwitch : bool; h_undoDelete : bool;
  (* after a session that reviewed or accepted *)
  h_settleGit : option Err; h_touched : Err + list gostring; h_verdictFile : option Err;
  (* writes *)
  h_save : site -> option Err; h_commit : site -> option Err; h_secretUndone : site -> bool; h_edit : site -> option Err;
  h_writeAttempts : option Err; h_noteBlocked : option Err;
  (* the commands it runs *)
  h_run : stage -> PlannedCheck -> CheckResult; h_stopAt : stage -> nat -> bool; h_interrupted : stage -> bool;
  h_output : stage -> gostring }.

(** ** Branches, requirement conflicts and fingerprints *)

Definition ChangeBranchPrefix : gostring := "change/".
Definition ChangeBranch (id : gostring) : gostring := ChangeBranchPrefix ++ id.
Definition ChangeOfBranch (branch : gostring) : gostring :=
  let '(id, ok) := CutPrefix branch ChangeBranchPrefix in if ok then id else [].

(** Change.IsTweak *)
Definition MilestoneNone : gostring := "none".
Definition IsTweak (c : Change) : bool := m_Milestone (c_Meta c) =s MilestoneNone.

Definition requirementConflicts (Quote : gostring -> gostring) (a b : Change) : list gostring :=
  c_Deltas a ≫= (fun da => omap (fun db =>
    if bool_decide (reqKey da = reqKey db)
    then Some (bs "[" ++ d_Capability da ++ "] " ++ Quote (d_Name da) ++ " (" ++ op_text (d_Op da) ++ " here, " ++ op_text (d_Op db) ++ " there)")
    else None) (c_Deltas b)).

Definition requirementFingerprint (sha256 : gostring -> gostring) (r : Requirement) : gostring :=
  sha256 (TrimRight (Join ((fun l => TrimRight l blank_tab) <$> split_byte nl (r_Text r)) [nl]) newlines).

Definition baseFingerprints (sha256 : gostring -> gostring) (specs : gmap gostring gostring) (c : Change) : gmap gostring gostring :=
  foldl (fun out d =>
    if bool_decide (d_Op d = OpAdded) then out
    else match LoadSpec specs (d_Capability d) with
         | None => out
         | Some spec => match Find spec (d_Name d) with
                        | Some r => <[d_Capability d ++ "/" ++ d_Name d := requirementFingerprint sha256 r]> out
                        | None => out
                        end
         end) ∅ (c_Deltas c).

Definition fingerprint_message (key : gostring) : gostring :=
  bs "[" ++ match Cut key "/" with Some (a, b) => a ++ "] " ++ b | None => key end ++ " changed in the spec since this change started".

Definition fingerprintConflicts (sha256 : gostring -> gostring) (specs : gmap gostring gostring)
    (recorded : gmap gostring gostring) (c : Change) : list gostring :=
  let live := baseFingerprints sha256 specs c in
  sort_Strings (omap (fun '(key, sha) => match live !! key with
                                         | Some now => if now <>s sha then Some (fingerprint_message key) else None
                                         | None => None
                                         end) (map_to_list recorded)).

(** ** Small parts of the commands *)

Definition replansSinceAnswer (st : State) : Z :=
  let n := Z.of_nat (length (st_Replans st)) in
  match st_Answer st with
  | None => n
  | Some a => if (n <? Z.of_nat (an_ReplansBefore a))%Z then n else (n - Z.of_nat (an_ReplansBefore a))%Z
  end.

(** CheckResult.Outcome *)
Definition Outcome (r : CheckResult) : gostring :=
  if cr_Reason r <>s "" then cr_Reason r ++ ": " ++ cr_Detail r else bs "exit " ++ Itoa (cr_Exit r).

Definition limit (xs : list gostring) (n : nat) : list gostring :=
  if Nat.leb (length xs) n then xs else take n xs ++ [bs "… " ++ ItoaN (length xs - n) ++ " more"].

Definition Failing (rs : list CheckResult) : list CheckResult := List.filter Red rs.

(** The baseline kept for a check: the last one recorded of its ref, when its
    command is the same. *)
Definition base_of (base : list Baseline) (ref : gostring) : option Baseline :=
  List.find (fun b => b_Task b =s ref) (rev base).

Definition kept_baseline (base : list Baseline) (pc : PlannedCheck) : option Baseline :=
  match base_of base (pc_Ref pc) with Some b => if b_Cmd b =s pc_Cmd pc then Some b else None | None => None end.

Definition baseline_of (sha : gostring) (r : CheckResult) : Baseline := MkBaseline (cr_Task r) (cr_Exit r) (cr_Cmd r) sha.

(** rebaseline: the kept baselines, then those of the checks it ran. *)
Definition rebaseline (run : list PlannedCheck -> list CheckResult) (planned : list PlannedCheck) (head : gostring) (st : State)
    : State * list CheckResult :=
  let kept := omap (kept_baseline (st_Baseline st)) planned in
  let todo := List.filter (fun pc => negb (isSome (kept_baseline (st_Baseline st) pc))) planned in
  let out := run todo in
  (set_Baseline (kept ++ (baseline_of head <$> out)) st, out).

Definition green_at (c : Change) (st : State) (pc : PlannedCheck) : option GreenAtBaseline :=
  if bool_decide (pc_Kind pc = KindScenario) && negb (pc_Delta pc) then None
  else match base_of (st_Baseline st) (pc_Ref pc) with
       | None => None
       | Some b =>
           if negb (Z.eqb (b_Exit b) 0) || ((b_Cmd b <>s "") && (b_Cmd b <>s pc_Cmd pc)) then None
           else Some (MkGAB (pc_Ref pc) (pc_Kind pc) (pc_Cmd pc) (b_SHA b)
                        ((b_SHA b <>s "") && (st_BaseSHA st <>s "") && (b_SHA b <>s st_BaseSHA st))
                        (bool_decide (pc_Kind pc = KindTask) && match find_task c (pc_Ref pc) with Some t => t_Regression t | None => false end))
       end.

Definition greenAtBaseline (c : Change) (planned : list PlannedCheck) (st : State) : list GreenAtBaseline :=
  omap (green_at c st) planned.

(** The task checks a start baselined green, of a change that adds or modifies
    behaviour, and that are not meant to be. *)
Definition vacuous_tasks (c : Change) (baselined : list CheckResult) : list CheckResult :=
  if existsb (fun d => negb (bool_decide (d_Op d = OpRemoved))) (c_Deltas c)
  then List.filter (fun r => bool_decide (cr_Kind r = Some KindTask) && Z.eqb (cr_Exit r) 0 &&
         match find_task c (cr_Task r) with Some t => negb (t_Regression t) | None => false end) baselined
  else [].

(** ** The commands *)

Record StartResult := MkStartResult { sr_Status : Status; sr_BaseSHA : gostring; sr_Resumed : bool; sr_Baseline : list CheckResult }.

Record VerifyResult := MkVerifyResult {
  vr_Status : Status; vr_SHA : gostring; vr_Green : bool; vr_Results : list CheckResult; vr_PendingHuman : list gostring;
  vr_GreenAtBaseline : list GreenAtBaseline; vr_Regression : option RegressionVerdict; vr_FullSkipped : nat }.

(** A catch-up with a moved base branch. *)
Record CatchUp := MkCatchUp {
  cu_From : gostring; cu_To : gostring; cu_Rebased : bool; cu_Baseline : list CheckResult; cu_Regression : option CheckResult;
  cu_OldTipRef : gostring; cu_Conflicts : list gostring }.

Definition CodeNothingToRebaseline : gostring := "change.nothing-to-rebaseline".
Definition CodeWrongStatus : gostring := "change.wrong-status".
Definition CodeReplansExceeded : gostring := "change.replans-exceeded".
Definition CodeAttemptsTotalExceeded : gostring := "change.attempts-total-exceeded".
Definition CodeAttemptsExceeded : gostring := "change.attempts-exceeded".
Definition CodeConflicted : gostring := "change.conflicted".
Definition CodeRunInterrupted : gostring := "run.interrupted".

Section commands.
Context (H : Host).
Let doc : Change := h_doc H.
Let branch : gostring := ChangeBranch (h_id H).
Let digest : gostring := PlanDigest (h_sha256 H) doc.

(** saveAndCommit: the state written, then committed in a git work tree. A commit refused
    for a secret, of a state.json that was clean, takes the edit back ([h_secretUndone]:
    it was such a refusal, and git restored the file); any other failed commit leaves
    the state written. *)
Definition saveAndCommit (s : site) (st : State) : Cmd unit :=
  let* w := get in
  check (h_save H s);; modify (set_w_State st);;
  if negb (h_inGit H) then cret tt
  else match h_commit H s with
       | None => cret tt
       | Some e => (if h_secretUndone H s then modify (set_w_State (w_State w)) else cret tt);; fail e
       end.

(** saveChangeState: where the change's records were read. *)
Definition saveChangeState (s : site) (st : State) : Cmd unit :=
  if h_readFrom H =s "" then saveAndCommit s st
  else check (h_edit H s);; modify (set_w_State st).

Definition updateAttempts (f : Attempts -> Attempts) : Cmd Attempts :=
  let* w := get in
  let a := f (w_Attempts w) in
  check (h_writeAttempts H);; modify (set_w_Attempts a);; cret a.

(** requireChange: a change moved to the archive is refused, else its state. *)
Definition requireChange : Cmd State :=
  let* w := get in
  match st_Status (w_State w) with
  | StatusArchived | StatusAbandoned => fail (FailError "change.archived")
  | _ => check (h_load H);; cret (w_State w)
  end.

Definition requireOnBranch : Cmd unit :=
  let* w := get in refuse (h_inGit H && (w_Head w <>s branch)) (FailError "change.wrong-branch").

Definition interrupted (s : stage) : Cmd unit := refuse (h_interrupted H s) (FailError CodeRunInterrupted).

Definition run_stage (s : stage) (checks : list PlannedCheck) : list CheckResult :=
  fst (RunChecks (h_run H s) (h_stopAt H s) checks).

(** ChangeChecks at the specs of the tree. *)
Definition planned (w : World) : list PlannedCheck := ChangeChecks (h_capabilities H) (w_Specs w) (h_redAtGate H) doc.

Definition regressionRef : gostring := "regression".
Definition regression_check (cmd : gostring) : PlannedCheck := MkPlanned regressionRef KindRegression [] [] [] false cmd 0 false.

(** runRegression *)
Definition runRegression (s : stage) (cmd : gostring) : option CheckResult := head (run_stage s [regression_check cmd]).

(** *** Blocks (blocks.go) *)

Definition noteBlocked : Cmd unit :=
  if IsTweak doc || (m_Milestone (c_Meta doc) =s "") || negb (h_inGit H) then cret tt
  else check (h_noteBlocked H);; modify (fun w => set_w_Blocks (w_Blocks w + 1)%Z w).

Definition blockAndCount (reason : gostring) (st : State) : Cmd State :=
  let st' := set_BlockedReason (Some reason) (set_Status StatusBlocked st) in
  saveChangeState AtBlock st';; noteBlocked;; cret st'.

Definition blocksExceeded (m : gostring) : Cmd unit :=
  let* w := get in
  if (m =s "") || (m =s MilestoneNone) then cret tt
  else refuse (ConsecutiveBlocksCap (h_limits H) <=? w_Blocks w)%Z (FailError "milestone.blocks-exceeded").

Definition Block (reason : gostring) : Cmd State :=
  check (h_recover H);;
  refuse (TrimSpace reason =s "") (UsageError "usage.reason");;
  let* st := requireChange in
  (if h_readFrom H =s "" then check (h_branchForWrite H) else cret tt);;
  if bool_decide (st_Status st = StatusBlocked) then
    let st' := set_BlockedReason (Some (TrimSpace reason)) st in
    saveChangeState AtBlock st';; cret st'
  else blockAndCount (TrimSpace reason) st.

(** *** The approval a start needs (lifecycle.go, tweak.go) *)

Definition requireTweakApproved (st : State) : Cmd unit :=
  match st_Approved st with
  | None => fail (FailError "change.not-approved")
  | Some a => refuse ((ap_PlanDigest a <>s "") && (ap_PlanDigest a <>s digest) && (st_PlanDigest st =s "")) (FailError "change.not-approved")
  end.

Definition requireApproved (st : State) : Cmd unit :=
  if IsTweak doc then requireTweakApproved st
  else
    let approved := match h_roadmap H with
                    | Some r => match find_milestone r (m_Milestone (c_Meta doc)) with
                                | Some ms => ms_Status ms =s MilestoneApproved | None => false end
                    | None => false end in
    refuse (negb approved) (FailError "milestone.not-approved");; check (h_approvalRecord H).

Definition ApproveTweak (by_ : gostring) : Cmd State :=
  check (h_person H);; check (h_recover H);;
  refuse (TrimSpace by_ =s "") (UsageError "usage.by");;
  let* st := requireChange in
  refuse (negb (IsTweak doc)) (FailError "change.approve-milestone");;
  let* w := get in
  let started := (h_readFrom H =s branch) || (st_BaseSHA st <>s "") || (h_inGit H && w_HasBranch w) in
  let open := match st_Status st with StatusDraft | StatusBlocked | StatusAnswered => true | _ => false end in
  refuse (negb open || started) (FailError CodeWrongStatus);;
  refuse (negb (bool_decide (h_approvalChecks H = []))) (FailError "change.check-failed");;
  if match st_Approved st with Some a => ap_PlanDigest a =s digest | None => false end then cret st
  else
    let st' := set_Approved (Some (MkApproval (TrimSpace by_) (h_now H) digest)) st in
    saveChangeState AtApprove st';; cret st'.

(** *** Start *)

(** rebaselineRegression *)
Definition rebaselineRegression (st : State) : State :=
  let cmd := h_regressionCmd H in
  if (cmd =s "") || match st_Regression st with Some b => rb_Cmd b =s cmd | None => false end then st
  else match runRegression RunRegression cmd with
       | Some r => set_Regression (Some (regressionBaseline r (h_headSHA H AtStart) (h_now H) (h_output H RunRegression))) st
       | None => st
       end.

(** rebaselineMilestoneRegression *)
Definition rebaselineMilestoneRegression (st : State) : State :=
  let cmd := h_milestoneRegressionCmd H in
  if IsTweak doc || (cmd =s "") || (cmd =s h_regressionCmd H) ||
     match st_MilestoneRegression st with Some b => rb_Cmd b =s cmd | None => false end then st
  else if match milestoneRegressionBaseline (h_baselines H) (m_Milestone (c_Meta doc)) cmd with
          | Some (other, _) => other <>s h_id H | None => false end then st
  else match runRegression RunMilestone cmd with
       | Some r => set_MilestoneRegression (Some (regressionBaseline r (h_headSHA H AtStart) (h_now H) (h_output H RunMilestone))) st
       | None => st
       end.

(** refuseVacuousChecks *)
Definition refuseVacuousChecks (st : State) (baselined : list CheckResult) : Cmd unit :=
  refuse (negb (bool_decide (vacuous_tasks doc baselined = [])) &&
          negb (negb (h_diffFails H (st_BaseSHA st)) && h_codeMoved H AtStart (st_BaseSHA st))) (FailError "change.vacuous-check").

(** Whether a start re-plans and re-baselines, or is refused. *)
Definition start_kind (w : World) (st : State) : Err + (bool * bool) :=
  let planChanged := (st_PlanDigest st <>s "") && (st_PlanDigest st <>s digest) in
  match st_Status st with
  | StatusDraft | StatusBlocked | StatusAnswered => inr (planChanged, false)
  | StatusInProgress | StatusVerified | StatusReviewed =>
      let specChanged := negb (bool_decide (fingerprintConflicts (h_sha256 H) (w_Specs w) (st_BaseFingerprints st) doc = [])) in
      if negb planChanged && negb specChanged && negb (regressionStale (h_regressionCmd H) (st_Regression st))
      then inl (FailError CodeNothingToRebaseline)
      else inr (planChanged || specChanged, true)
  | _ => inl (FailError CodeWrongStatus)
  end.

(** What a start records before its checks run. *)
Definition begun (replan rebase : bool) (st : State) : State :=
  let st := if (st_BaseSHA st =s "") || (bool_decide (st_Status st = StatusDraft) && negb replan)
            then set_StartedAt (h_now H) (set_BaseSHA (h_headSHA H AtStart) st) else st in
  let st := if replan then set_Replans (st_Replans st ++ [MkReplan (h_now H) (h_headSHA H AtStart) (st_PlanDigest st) digest]) st else st in
  if replan || rebase then set_Review None (set_Verify None st) else st.

(** What it records once they have run. *)
Definition started (specs : gmap gostring gostring) (st : State) : State :=
  set_BlockedReason None (set_Status StatusInProgress
    (set_BaseFingerprints (baseFingerprints (h_sha256 H) specs doc) (set_PlanDigest digest st))).

(** start: [enter] creates the change's branch, once every check has passed. *)
Definition start (enter : State -> Cmd State) : Cmd StartResult :=
  let* st := requireChange in
  let* w := get in
  match start_kind w st with
  | inl e => fail e
  | inr (replan, rebase) =>
      refuse (negb (bool_decide (h_checkFindings H = []))) (FailError "change.check-failed");;
      requireApproved st;;
      refuse (existsb (fun '(other, d) => (other <>s h_id H) && negb (bool_decide (requirementConflicts (h_Quote H) doc d = [])))
                (h_others H)) (ConflictError "change.requirement-conflict");;
      (if replan && (ReplansCap (h_limits H) <? replansSinceAnswer st + 1)%Z then
         blockAndCount ("replans exceeded: re-plan " ++ Itoa (replansSinceAnswer st + 1) ++ " of at most " ++
                        Itoa (ReplansCap (h_limits H))) st;;
         fail (FailError CodeReplansExceeded)
       else cret tt);;
      let* st := enter st in
      let '(st, results) := rebaseline (run_stage RunStart) (planned w) (h_headSHA H AtStart) (begun replan rebase st) in
      interrupted RunStart;;
      refuseVacuousChecks st results;;
      let st := rebaselineRegression st in
      interrupted RunRegression;;
      let st := rebaselineMilestoneRegression st in
      interrupted RunMilestone;;
      let st := started (w_Specs w) st in
      updateAttempts (fun a => MkAttempts 0 (at_Total a) (at_AtAnswer a));;
      saveAndCommit AtStart st;;
      cret (MkStartResult StatusInProgress (st_BaseSHA st) false results)
  end.

(** *** The catch-up with a moved base branch (catchup.go) *)

(** baseMoved: the tip, and whether a rebase is needed, when the base moved. *)
Definition baseMoved (st : State) : option (gostring * bool) :=
  if (st_BaseBranch st =s "") || negb (h_inGit H) then None
  else match h_baseTip H with
       | None => None
       | Some tip =>
           if (tip =s "") || (tip =s st_BaseSHA st) then None
           else
             let needRebase := negb (h_isAncestor H tip "HEAD") in
             let ahead := (st_BaseSHA st =s "") || h_isAncestor H (st_BaseSHA st) tip in
             if needRebase || ahead then Some (tip, needRebase) else None
       end.

Definition set_stale (reason : gostring) (v : Verify) : Verify :=
  MkVerify (v_SHA v) (v_At v) (v_Results v) (v_PendingHuman v) (v_Green v) (v_GreenAtBaseline v) true reason
    (v_Regression v) (v_FullSkipped v).

Definition short (sha : gostring) : gostring := take 7 sha.

(** The status a catch-up without conflicts leaves. *)
Definition caught_status (inArchive : bool) (s : Status) : Status :=
  match s with StatusVerified | StatusReviewed => if inArchive then s else StatusInProgress | _ => s end.

(** recordCatchUp's state. *)
Definition caught_up (cu : CatchUp) (head : gostring) (inArchive : bool) (st : State) : State :=
  let st1 := set_Rebases (st_Rebases st ++ [MkRebase (h_now H) (st_BaseSHA st) (cu_To cu) head (cu_Rebased cu)
                                              (cu_OldTipRef cu) (cu_Conflicts cu)]) st in
  let st2 := set_Baseline (baseline_of (cu_To cu) <$> cu_Baseline cu) (set_BaseSHA (cu_To cu) st1) in
  let st3 := match cu_Regression cu with
             | Some r => set_Regression (Some (regressionBaseline r (cu_To cu) (h_now H) (h_output H RunCatchUp))) st2
             | None => st2 end in
  let st4 := set_Verify (set_stale ("base moved: " ++ st_BaseBranch st ++ " " ++ short (cu_From cu) ++ ".." ++ short (cu_To cu) ++
                                    "; the change was rebased onto it") <$> st_Verify st3) st3 in
  match cu_Conflicts cu with
  | [] => set_Status (caught_status inArchive (st_Status st4)) st4
  | _ => set_BlockedReason None (set_Status StatusInProgress st4)
  end.

Definition recordCatchUp (cu : CatchUp) (head : gostring) (inArchive : bool) (st : State) : Cmd State :=
  let st' := caught_up cu head inArchive st in saveAndCommit AtCatchUp st';; cret st'.

(** The last rebase's record. *)
Definition set_last_rebase (f : Rebase -> Rebase) (st : State) : State :=
  set_Rebases (alter f (length (st_Rebases st) - 1) (st_Rebases st)) st.

(** layOutConflict, and commitAppliedNetDiff when the net diff applies after all: the
    branch recreated at the base's tip, then the net diff applied to its tree. *)
Definition layOutConflict (cu : CatchUp) (inArchive : bool) (st : State) : Cmd (State * option CatchUp) :=
  check (h_layOut H);;
  modify (set_w_Specs (h_baseSpecs H));;
  let cu := MkCatchUp (cu_From cu) (cu_To cu) (cu_Rebased cu) (cu_Baseline cu) (cu_Regression cu) (h_oldTipRef H) (cu_Conflicts cu) in
  let* st1 := recordCatchUp cu (cu_To cu) inArchive st in
  match h_unmerged H with
  | inl e => fail e
  | inr unmerged =>
      modify (set_w_Specs (h_rebasedSpecs H));;
      match unmerged with
      | [] =>
          check (h_reapplied H);;
          let st2 := set_last_rebase (fun r => MkRebase (rs_At r) (rs_From r) (rs_To r) (h_headSHA H AtReapply) (rs_Rebased r) (rs_OldTipRef r) []) st1 in
          let st3 := set_BlockedReason (st_BlockedReason st) (set_Status (caught_status inArchive (st_Status st)) st2) in
          saveAndCommit AtReapply st3;;
          cret (st3, Some (MkCatchUp (cu_From cu) (cu_To cu) (cu_Rebased cu) (cu_Baseline cu) (cu_Regression cu) (cu_OldTipRef cu) []))
      | _ =>
          let st2 := set_last_rebase (fun r => MkRebase (rs_At r) (rs_From r) (rs_To r) (rs_Head r) (rs_Rebased r) (rs_OldTipRef r) unmerged) st1 in
          check (h_save H AtReapply);; modify (set_w_State st2);; check (h_stageState H);;
          fail (ConflictError CodeConflicted)
      end
  end.

(** A result without its stray files. *)
Definition no_strays (r : CheckResult) : CheckResult :=
  MkResult (cr_Task r) (cr_Kind r) (cr_Capability r) (cr_Requirement r) (cr_Scenario r) (cr_Delta r) (cr_Cmd r) (cr_Exit r) (cr_Tail r)
    (cr_Reason r) (cr_Detail r) (cr_PreExistingRed r) (cr_Tries r) (cr_Flaky r) []
    (cr_Tests r) (cr_Skip r) (cr_ShellNote r) (cr_Leftovers r).

(** baselineAt: the checks of the change at its base's tip, in place, HEAD back on
    the branch after. *)
Definition baselineAt : Cmd (list CheckResult * option CheckResult) :=
  check (h_detach H);;
  let results := no_strays <$> run_stage RunCatchUp (ChangeChecks (h_baseCapabilities H) (h_baseSpecs H) (h_redAtGate H) doc) in
  let regression := if h_regressionCmd H =s "" then None else no_strays <$> runRegression RunCatchUp (h_regressionCmd H) in
  match h_reattach H with
  | Some e => modify (set_w_Head []);; fail e
  | None => cret (results, regression)
  end.

(** rebaseOrConflict: the branch rebased, or the files the rebase stopped on. *)
Definition rebaseOrConflict : Cmd (list gostring) :=
  match h_rebase H with
  | inl e => fail e
  | inr [] => modify (set_w_Specs (h_rebasedSpecs H));; cret []
  | inr conflicts => cret conflicts
  end.

(** catchUp: [isStart] when start asks for it. *)
Definition catchUp (isStart inArchive : bool) (st : State) : Cmd (State * option CatchUp) :=
  let* w := get in
  if w_Head w <>s branch then cret (st, None)
  else match baseMoved st with
       | None => cret (st, None)
       | Some (tip, needRebase) =>
           if h_recordsOnly H then cret (st, None)
           else
             (if isStart then check (h_behindUpstream H) else cret tt);;
             check (h_commitFolder H);;
             let* conflicts := (if needRebase then rebaseOrConflict else cret []) in
             check (h_reload H);;
             let* (results, regression) := baselineAt in
             interrupted RunCatchUp;;
             let cu := MkCatchUp (st_BaseSHA st) tip needRebase results regression [] conflicts in
             match conflicts with
             | [] => let* st' := recordCatchUp cu (h_headSHA H AtCatchUp) inArchive st in cret (st', Some cu)
             | _ => layOutConflict cu inArchive st
             end
       end.

Definition no_enter (st : State) : Cmd State := cret st.

Definition reenter (switched : bool) : Cmd StartResult :=
  let* st := requireChange in
  let* (_, cu) := catchUp true false st in
  fun w => match start no_enter w with
           | (w', inl (FailError code)) =>
               if (code =s CodeNothingToRebaseline) && (switched || isSome cu)
               then (w', inr (MkStartResult (st_Status (w_State w')) (st_BaseSHA (w_State w')) true []))
               else (w', inl (FailError code))
           | res => res
           end.

(** Start from a branch that is no change's: the branch is created, and a start that
    fails after that is undone by three git commands, whose own errors are dropped: a
    reset of the tree, a switch back, and the branch's deletion, which git refuses of
    the branch HEAD is on. *)
Definition enter_branch (cur : gostring) (st : State) : Cmd State :=
  check (h_cleanTree H);; check (h_createBranch H);;
  modify (fun w => set_w_HasBranch true (set_w_Head branch w));; cret (set_BaseBranch cur st).

Definition undo_start (cur : gostring) (before w : World) : World :=
  let w1 := if h_undoReset H then set_w_State (w_State before) w else w in
  let w2 := if h_undoSwitch H then set_w_Head cur w1 else w1 in
  if h_undoDelete H && (w_Head w2 <>s branch) then set_w_HasBranch false w2 else w2.

Definition start_new (cur : gostring) : Cmd StartResult := fun w =>
  match start (enter_branch cur) w with
  | (w', inl e) => if w_HasBranch w' then (undo_start cur w w', inl e) else (w', inl e)
  | res => res
  end.

Definition Start : Cmd StartResult :=
  check (h_recover H);;
  (fun w => match requireChange w with
            | (_, inr _) => if IsTweak doc then (w, inr tt) else blocksExceeded (m_Milestone (c_Meta doc)) w
            | (_, inl _) => (w, inr tt)
            end);;
  if negb (h_inGit H) then start no_enter
  else
    let* w := get in
    let cur := w_Head w in
    if cur =s branch then reenter false
    else if ChangeOfBranch cur <>s "" then fail (FailError "change.wrong-branch")
    else if cur =s "" then fail (FailError "branch.detached")
    else if w_HasBranch w then
      check (h_cleanTree H);; check (h_switch H);; modify (set_w_Head branch);; reenter true
    else check (h_behindUpstream H);; start_new cur.

(** *** Verify *)

(** checkPlanFrozen *)
Definition checkPlanFrozen (st : State) : Cmd unit :=
  refuse ((st_PlanDigest st <>s "") && (st_PlanDigest st <>s digest)) (FailError "change.plan-drift").

Definition recorded_verify (res : VerifyResult) (regression : option RegressionVerdict) (fullSkipped : nat) : Verify :=
  MkVerify (vr_SHA res) (h_now H) (vr_Results res) (vr_PendingHuman res) (vr_Green res) (vr_GreenAtBaseline res) false []
    regression fullSkipped.

(** redBlock *)
Definition redBlock (st : State) (res : VerifyResult) (what : gostring) (e : Err) : Cmd VerifyResult :=
  let failing := (fun r => cr_Task r ++ " (" ++ Outcome r ++ ")") <$> Failing (vr_Results res) in
  let st := if bool_decide (st_Status st = StatusInProgress) then st
            else set_Verify (Some (recorded_verify res (verdict_skip (vr_Regression res)) 0)) st in
  blockAndCount (what ++ " — " ++ Join (limit failing 5) ", ") st;; fail e.

Definition set_vr_Status (s : Status) (r : VerifyResult) : VerifyResult :=
  MkVerifyResult s (vr_SHA r) (vr_Green r) (vr_Results r) (vr_PendingHuman r) (vr_GreenAtBaseline r) (vr_Regression r) (vr_FullSkipped r).

Definition redAttempt (st : State) (res : VerifyResult) : Cmd VerifyResult :=
  let* a := updateAttempts (fun a => MkAttempts (at_Since a + 1) (at_Total a + 1) (at_AtAnswer a))%Z in
  let total := (at_Total a - at_AtAnswer a)%Z in
  if (AttemptsTotalCap (h_limits H) <=? total)%Z then
    redBlock st res ("attempts_total exceeded: " ++ Itoa total ++ " red verifies across its starts") (FailError CodeAttemptsTotalExceeded)
  else if (at_Since a <? AttemptsCap (h_limits H))%Z then
    if bool_decide (st_Status st = StatusInProgress) then cret (set_vr_Status (st_Status st) res)
    else
      let st' := set_Status StatusInProgress (set_Verify (Some (recorded_verify res (verdict_skip (vr_Regression res)) 0)) st) in
      saveAndCommit AtRed st';; cret (set_vr_Status StatusInProgress res)
  else redBlock st res ("attempts exceeded: " ++ Itoa (at_Since a) ++ " red verifies") (FailError CodeAttemptsExceeded).

(** The checks a verify runs, its skipped verdict, and how many full scenarios it
    leaves out. *)
Definition verify_plan (w : World) (st : State) : list PlannedCheck * option RegressionVerdict * nat :=
  let '(checks, fullSkipped) := changeChecks (h_capabilities H) (w_Specs w) (h_redAtGate H) doc in
  let cmd := h_regressionCmd H in
  if cmd =s "" then (checks, None, fullSkipped)
  else
    let '(skip, paths) := h_docsOnly H in
    if skip then (checks, Some (skippedRegression cmd (st_Regression st) paths), fullSkipped)
    else (checks ++ [regression_check cmd], None, fullSkipped).

(** The results as judged: the regression command's, the last, against its
    baseline. *)
Definition judged (st : State) (skipped : option RegressionVerdict) (results : list CheckResult)
    : option RegressionVerdict * list CheckResult :=
  if (h_regressionCmd H =s "") || isSome skipped then (skipped, results)
  else match last results with
       | None => (None, results)
       | Some r => let '(v, r') := judgeRegression r (st_Regression st) (h_output H RunVerify) in
                   (Some v, removelast results ++ [r'])
       end.

(** verify: [keepReview] is archive's re-verify. *)
Definition verify (keepReview : bool) (st : State) : Cmd VerifyResult :=
  let* w := get in
  match h_dirty H with
  | inl _ => fail (FailError "git.status-failed")
  | inr dirty =>
      refuse (negb (bool_decide (dirty = []))) (FailError "tree.dirty");;
      check (h_gateTouch H);;
      let '(checks, skipped, fullSkipped) := verify_plan w st in
      let results := run_stage RunVerify checks in
      interrupted RunVerify;;
      let '(regression, results) := judged st skipped results in
      let green := forallb (fun r => negb (Red r)) results in
      let pending := PendingHuman (withBaseAccepted (h_inGit H) (w_BaseAccepted w) st) (HumanTasks doc) in
      let res := MkVerifyResult (st_Status st) (h_headSHA H AtVerify) green results pending (greenAtBaseline doc (planned w) st)
                   regression fullSkipped in
      if negb green then redAttempt st res
      else
        let st1 := set_Verify (Some (recorded_verify res skipped fullSkipped)) st in
        let passed := match st_Review st with Some r => rw_Verdict r =s "pass" | None => false end in
        let status :=
          if bool_decide (st_Status st = StatusReviewed) && passed then
            match st_Review st with
            | Some r => if h_codeMoved H AtVerify (rw_SHA r) && negb keepReview then StatusVerified else st_Status st
            | None => st_Status st
            end
          else StatusVerified in
        let st2 := set_Status status st1 in
        saveAndCommit AtVerify st2;; cret (set_vr_Status status res)
  end.

(** VerifyChange is `ape change verify`. *)
Definition VerifyChange : Cmd VerifyResult :=
  check (h_recover H);;
  let* st := requireChange in
  refuse (negb (Active st)) (FailError CodeWrongStatus);;
  requireOnBranch;;
  refuse (negb (bool_decide (h_unresolved H = []))) (FailError "change.unresolved-conflict");;
  checkPlanFrozen st;;
  let* (st, _) := catchUp false false st in
  verify false st.

(** *** Review *)

Definition ReviewChange (verdict findings : gostring) : Cmd State :=
  check (h_recover H);;
  refuse ((verdict <>s "pass") && (verdict <>s "block")) (UsageError "usage.verdict");;
  let* st := requireChange in
  refuse (match st_Status st with StatusVerified | StatusReviewed => false | _ => true end) (FailError CodeWrongStatus);;
  requireOnBranch;;
  refuse (negb (h_findingsFile H)) (UsageError "usage.findings-missing");;
  (if verdict =s "pass" then
     match st_Verify st with
     | Some v => refuse (negb (v_Green v)) (FailError "verify.missing");; refuse (h_codeMoved H AtReview (v_SHA v)) (FailError "verify.stale")
     | None => fail (FailError "verify.missing")
     end
   else cret tt);;
  let st' := set_Status (if verdict =s "pass" then StatusReviewed else StatusInProgress)
               (set_Review (Some (MkReview verdict (h_now H) (h_headSHA H AtReview) findings)) st) in
  saveAndCommit AtReview st';; cret st'.

(** reviewStale *)
Definition reviewStale (st : State) : bool :=
  match st_Review st with None => true | Some r => h_codeMoved H AtReview (rw_SHA r) end.

Definition ReverifyStaleReview : Cmd (option VerifyResult) :=
  let* st := requireChange in
  if negb (bool_decide (st_Status st = StatusReviewed)) || negb (reviewStale st) then cret None
  else let* res := VerifyChange in
       if vr_Green res then cret (Some res) else fail (FailError "verify.red").

(** branchName *)
Definition branchName (b : gostring) : gostring := if b =s "" then bs "a detached HEAD" else b.

(** HEAD put back on [b] after a session, which is a violation where it had moved. *)
Definition head_back (b : gostring) : Cmd (list gostring) :=
  let* w := get in
  if w_Head w =s b then cret []
  else check (h_switch H);; modify (set_w_Head b);; cret ["switched HEAD to " ++ branchName (w_Head w)].

(** The state of a change whose review is voided. *)
Definition voided_state (run : gostring) (recorded : bool) (violations : list gostring) (st : State) : State :=
  let verdict := match st_Review st with Some r => if recorded then rw_Verdict r else [] | None => [] end in
  let status := match st_Verify st with
                | Some v => if v_Green v && negb (h_codeMoved H AtSettle (v_SHA v)) then StatusVerified else StatusInProgress
                | None => StatusInProgress end in
  set_Status status (set_Review None (set_ReviewVoided (st_ReviewVoided st ++ [MkVoid (h_now H) run verdict violations]) st)).

(** SettleReviewRun on a session [run] that left [files] it may not touch, committed or
    not; [recorded] says a review was recorded since it started. Without a violation
    nothing changes. *)
Definition SettleReviewRun (run : gostring) (files : list gostring) (recorded : bool) : Cmd State :=
  let* moved := (if h_inGit H then head_back branch else cret []) in
  check (h_settleGit H);;
  let* st := requireChange in
  if bool_decide (moved ++ files = []) then cret st
  else let st' := voided_state run recorded (moved ++ files) st in saveAndCommit AtSettle st';; cret st'.

(** *** A person's acts *)

Definition AnswerChange (text by_ : gostring) : Cmd State :=
  check (h_person H);;
  refuse (TrimSpace by_ =s "") (UsageError "usage.by");;
  refuse (TrimSpace text =s "") (UsageError "usage.text");;
  let* st := requireChange in
  refuse (negb (bool_decide (st_Status st = StatusBlocked))) (FailError CodeWrongStatus);;
  let answer := MkAnswer (TrimSpace by_) (h_now H) (TrimSpace text) (length (st_Replans st)) in
  let st' := set_Answer (Some answer) (set_Status StatusAnswered st) in
  if negb (h_inGit H) then check (h_save H AtAnswer);; modify (set_w_State st');; cret st'
  else
    check (h_edit H AtAnswer);; modify (set_w_State st');;
    updateAttempts (fun a => MkAttempts (at_Since a) (at_Total a) (at_Total a));; cret st'.

(** humanTask *)
Definition humanTask (task : gostring) : Cmd unit :=
  match find_task doc task with
  | None => fail (UsageError "usage.no-such-task")
  | Some t => refuse (negb (Human t)) (FailError "accept.not-human-review")
  end.

(** accept: the acceptance of a task by a person, or by a delegate's [run]. *)
Definition accept (task by_ run : gostring) : Cmd State :=
  check (h_recover H);;
  refuse (TrimSpace by_ =s "") (UsageError "usage.by");;
  let rec ev := MkAccept task (TrimSpace by_) (h_now H) ev run in
  let* w := get in
  let st := w_State w in
  match st_Status st with
  | StatusArchived | StatusAbandoned =>
      (* acceptArchived: on the base branch the change was archived into *)
      if negb (h_inGit H) then fail (FailError "change.archived")
      else match h_evidence H with
           | inl e => fail e
           | inr ev =>
               refuse (bool_decide (st_Status st = StatusAbandoned)) (FailError CodeWrongStatus);;
               humanTask task;;
               let st' := withAcceptance doc (rec ev) st in
               check (h_edit H AtAccept);; modify (set_w_State st');; cret st'
           end
  | _ =>
      check (h_load H);;
      humanTask task;;
      if (h_readFrom H =s branch) && bool_decide (st_Status st = StatusReviewed) then
        (* acceptOnBase *)
        refuse ((st_BaseBranch st =s "") || negb (h_baseExists H)) (FailError "git.branch-failed");;
        match h_evidence H with
        | inl e => fail e
        | inr ev =>
            check (h_edit H AtAccept);;
            let recorded := mergeAccepted (w_BaseAccepted w) [rec ev] in
            modify (set_w_BaseAccepted recorded);;
            cret (refreshPending doc (set_Accepted (mergeAccepted (st_Accepted st) recorded) st))
        end
      else
        (if h_readFrom H <>s branch then requireOnBranch else cret tt);;
        match h_evidence H with
        | inl e => fail e
        | inr ev => let st' := withAcceptance doc (rec ev) st in saveChangeState AtAccept st';; cret st'
        end
  end.

Definition Accept (task by_ : gostring) : Cmd State := check (h_person H);; accept task by_ [].

(** *** A delegate's session (delegate.go) *)

(** A delegate's run, its folder under the archive when [d_Archived]; and its verdict,
    where its file holds one of this run. *)
Record DelegateRun := MkDelegateRun {
  d_ID : gostring; d_Task : gostring; d_Skill : gostring; d_Branch : gostring; d_Archived : bool }.
Record DelegateVerdict := MkDelegateVerdict { dv_Verdict : gostring; dv_Reason : gostring; dv_Defects : list gostring }.
Inductive DelegateOutcome := DelegateVoided | DelegateReturned | DelegateToPerson | DelegateAccepted.
Definition NoVerdictReason : gostring := "no verdict".

(** The defects a verdict names in the change's own diff (changeTouched). *)
Definition own_defects (st : State) (defects : list gostring) : Cmd (list gostring) :=
  match defects with
  | [] => cret []
  | _ =>
      refuse (st_BaseSHA st =s "") OtherError;;
      match h_touched H with inl e => fail e | inr touched => cret (List.filter (slices_Contains touched) defects) end
  end.

Definition returned_state (run : DelegateRun) (reason : gostring) (defects : list gostring) (st : State) : State :=
  let prior := default [] (st_DelegateReturns st !! d_Task run) in
  set_DelegateReturns (<[d_Task run := prior ++ [MkReturn (d_ID run) reason defects (h_now H)]]> (st_DelegateReturns st))
    (set_Review None (set_Status StatusInProgress st)).

Definition settleDelegateFail (run : DelegateRun) (v : DelegateVerdict) : Cmd DelegateOutcome :=
  if d_Archived run then cret DelegateToPerson
  else
    check (h_recover H);;
    let* w := get in
    if match st_Status (w_State w) with StatusArchived | StatusAbandoned => true | _ => false end then cret DelegateToPerson
    else
      let* st := requireChange in
      let* defects := own_defects st (dv_Defects v) in
      if negb (bool_decide (returnsSinceReset (withBaseAccepted (h_inGit H) (w_BaseAccepted w) st) (d_Task run) = [])) ||
         bool_decide (defects = []) || negb (bool_decide (st_Status st = StatusReviewed))
      then cret DelegateToPerson
      else saveChangeState AtReturn (returned_state run (dv_Reason v) defects st);; cret DelegateReturned.

(** AcceptDelegated *)
Definition AcceptDelegated (run : DelegateRun) : Cmd State := accept (d_Task run) (DelegateByPrefix ++ d_Skill run) (d_ID run).

(** SettleDelegateRun on a session that left [files] it may not touch, or committed. *)
Definition SettleDelegateRun (run : DelegateRun) (files : list gostring) (verdict : option DelegateVerdict) : Cmd DelegateOutcome :=
  let* moved := (if d_Branch run <>s "" then head_back (d_Branch run) else cret []) in
  check (h_settleGit H);;
  if negb (bool_decide (moved ++ files = [])) then check (h_verdictFile H);; cret DelegateVoided
  else
    let* v := (match verdict with
               | Some v => cret v
               | None => check (h_verdictFile H);; cret (MkDelegateVerdict "fail" NoVerdictReason [])
               end) in
    if dv_Verdict v <>s "pass" then settleDelegateFail run v
    else AcceptDelegated run;; cret DelegateAccepted.

(** *** Archive and Abandon (archive.go) *)

Definition archivable (allowPendingHuman : bool) (st : State) : Cmd (list gostring) :=
  let* w := get in
  refuse (negb (bool_decide (st_Status st = StatusReviewed) && match st_Review st with Some r => rw_Verdict r =s "pass" | None => false end))
    (FailError CodeWrongStatus);;
  refuse (negb (h_inGit H)) (FailError "git.not-a-repo");;
  checkPlanFrozen st;;
  check (h_fits H);;
  let pending := PendingHuman (withBaseAccepted (h_inGit H) (w_BaseAccepted w) st) (HumanTasks doc) in
  refuse (negb (bool_decide (pending = [])) && negb allowPendingHuman) (FailError "archive.pending-human");;
  refuse (negb (w_HasBranch w) || (st_BaseBranch st =s "")) (FailError "change.no-branch");;
  refuse (negb (h_baseExists H)) (FailError "git.branch-failed");;
  cret pending.

(** enterChangeBranch *)
Definition enterChangeBranch (st : State) : Cmd State :=
  check (h_commitFolder H);;
  let* w := get in
  if w_Head w =s branch then cret st
  else if ChangeOfBranch (w_Head w) <>s "" then fail (FailError "change.wrong-branch")
  else check (h_switch H);; modify (set_w_Head branch);; requireChange.

(** archiveFresh *)
Definition archiveFresh (st : State) : Cmd unit :=
  let codeMoved := match st_Verify st with
                   | None => true
                   | Some v => v_Stale v || h_codeMoved H AtArchive (v_SHA v)
                   end in
  if negb codeMoved then cret tt
  else let* res := verify true st in
       if vr_Green res then cret tt else fail (FailError "verify.red").

(** planArchive: the merged specs. *)
Definition planArchive (st : State) : Cmd (list SpecUpdate) :=
  let* w := get in
  refuse (negb (bool_decide (fingerprintConflicts (h_sha256 H) (w_Specs w) (st_BaseFingerprints st) doc = []))) (ConflictError "archive.base-changed");;
  refuse (negb (bool_decide (h_typeFindings H = []))) (FailError "change.check-failed");;
  refuse (negb (bool_decide (h_reservedFindings H = []))) (FailError "change.check-failed");;
  let '(updates, conflicts) := MergeDelta (h_ToLower H) (h_Quote H) (h_RawQuote H) (h_spec_path H) (w_Specs w) doc in
  refuse (negb (bool_decide (conflicts = []))) (ConflictError "archive.delta-conflict");;
  refuse (h_destExists H) (ConflictError "archive.folder-exists");;
  refuse (existsb (fun u => negb (u_Retired u) && negb (bool_decide (ValidateSpec (u_Path u) (u_content u) (h_specCap H) = []))) updates)
    (FailError "archive.spec-invalid");;
  cret updates.

(** writeArchive's writes to specs/. *)
Definition write_update (specs : gmap gostring gostring) (u : SpecUpdate) : gmap gostring gostring :=
  if u_Retired u then delete (u_Capability u) specs else <[u_Capability u := u_content u]> specs.

(** The state writeArchive saves, with the base's acceptances folded in. *)
Definition archived_state (w : World) (st : State) (pending : list gostring) (by_ : gostring) : State :=
  let merged := withBaseAccepted (h_inGit H) (w_BaseAccepted w) st in
  let st := match w_BaseAccepted w with [] => st | _ => if st_BaseBranch st =s "" then st else refreshPending doc merged end in
  let st := set_TipRef ("refs/apex/archive/" ++ h_id H) (set_BranchTip (h_headSHA H AtArchive)
              (set_ArchivedTo (h_dest H) (set_ArchivedAt (h_now H) (set_Status StatusArchived st)))) in
  match pending with [] => st | _ => set_AllowPendingHumanBy by_ (set_AllowPendingHuman true st) end.

(** squashOntoBase: one commit on the base branch; then the branch's tip kept and the
    branch deleted. [h_squashSwitch]: the journal cannot be written, or HEAD not
    switched. A squash that fails later ([h_squash]) is undone: by a reset of the base's
    tree, which is taken to do its work, and a switch back, whose error is dropped. *)
Definition squashOntoBase (st : State) (updates : list SpecUpdate) (pending : list gostring) (by_ : gostring) : Cmd State :=
  let* w := get in
  check (h_squashSwitch H);;
  modify (set_w_Head (st_BaseBranch st));;
  match h_squash H with
  | Some e => (if h_squashBack H then modify (set_w_Head branch) else cret tt);; fail e
  | None =>
      let st' := archived_state w st pending by_ in
      modify (fun w => set_w_State st' (set_w_Specs (foldl write_update (w_Specs w) updates)
        (set_w_BaseAccepted [] (if IsTweak doc then w else set_w_Blocks 0 w))));;
      check (h_keepTip H);; check (h_deleteBranch H);; modify (set_w_HasBranch false);; cret st'
  end.

Definition Archive (allowPendingHuman : bool) (by_ : gostring) : Cmd State :=
  (if allowPendingHuman then check (h_person H) else cret tt);;
  check (h_recover H);;
  let* st := requireChange in
  let* pending := archivable allowPendingHuman st in
  check (h_branchFree H);; check (h_behindUpstream H);;
  let* st := enterChangeBranch st in
  check (h_gateTouch H);; check (h_journal H);;
  refuse (reviewStale st) (FailError "review.stale");;
  let* (st, _) := catchUp false true st in
  archiveFresh st;;
  let* w := get in
  let st := w_State w in
  let* updates := planArchive st in
  squashOntoBase st updates pending by_.

(** leaveChangeBranch: HEAD goes to the base branch; the branch's tip, empty when
    there is no branch. *)
Definition leaveChangeBranch (st : State) : Cmd gostring :=
  let* w := get in
  let cur := w_Head w in
  refuse ((ChangeOfBranch cur <>s "") && (cur <>s branch)) (FailError "change.wrong-branch");;
  if negb (w_HasBranch w) then cret []
  else
    (if (cur =s branch) && (st_BaseBranch st <>s "") then check (h_branchFree H) else cret tt);;
    check (h_commitFolder H);;
    (if cur =s branch then
       refuse ((st_BaseBranch st =s "") || negb (h_baseExists H)) (FailError "git.branch-failed");;
       check (h_switch H);; modify (set_w_Head (st_BaseBranch st))
     else cret tt);;
    check (h_takeFolder H);; check (h_reload H);; cret (h_branchTip H).

(** The state Abandon saves. *)
Definition abandoned_state (reason tip : gostring) (st : State) : State :=
  let st' := set_BranchTip tip (set_ArchivedTo (h_dest H) (set_ArchivedAt (h_now H)
               (set_AbandonedReason (TrimSpace reason) (set_Status StatusAbandoned st)))) in
  if tip <>s "" then set_TipRef ("refs/apex/abandoned/" ++ h_id H) st' else st'.

(** abandonElsewhere: with HEAD on another change's branch, one commit on the base
    branch, without a checkout. *)
Definition abandonElsewhere (reason : gostring) (st : State) : Cmd State :=
  (if (st_BaseBranch st =s "") || negb (h_baseExists H) then check (h_baseBranch H) else cret tt);;
  (if h_readFrom H =s branch then check (h_branchFree H) else cret tt);;
  let tip := if h_readFrom H =s branch then h_branchTip H else [] in
  refuse (h_destOnBase H) (ConflictError "archive.folder-exists");;
  check (h_readFolder H);;
  let st' := abandoned_state reason tip st in
  check (h_edit H AtAbandon);; modify (set_w_State st');;
  (if tip <>s "" then check (h_keepTip H);; check (h_deleteBranch H);; modify (set_w_HasBranch false) else cret tt);;
  cret st'.

Definition Abandon (reason : gostring) : Cmd State :=
  check (h_recover H);;
  refuse (TrimSpace reason =s "") (UsageError "usage.reason");;
  let* st := requireChange in
  let* w := get in
  if (ChangeOfBranch (w_Head w) <>s "") && (ChangeOfBranch (w_Head w) <>s h_id H) && (h_readFrom H <>s "") then abandonElsewhere reason st
  else
    refuse (h_destExists H) (ConflictError "archive.folder-exists");;
    let* tip := (if h_inGit H then leaveChangeBranch st else cret []) in
    let st' := abandoned_state reason tip st in
    check (h_save H AtAbandon);; modify (set_w_State st');;
    (if h_inGit H then check (h_commit H AtAbandon) else cret tt);;
    (if h_inGit H && (tip <>s "") then check (h_keepTip H);; check (h_deleteBranch H);; modify (set_w_HasBranch false) else cret tt);;
    cret st'.
End commands.
