(* ===== verification/Guards.v ===== *)
(** The guards on a session's shell commands: internal/apexv1/tagguard.go, bashguard.go's
    push, kill and record guards, and rebaseguard.go. Their theorems are in [GuardFacts]. *)
From S2P Require Import Prelude Regex Markdown Spec Change Merge Effective Regression Roadmap State Command Lifecycle Shell.

Record PreToolDecision := MkDecision { Deny : bool; Path : gostring; Reason : gostring }.
Definition allow : PreToolDecision := MkDecision false [] [].
Definition deny (reason : gostring) : PreToolDecision := MkDecision true [] reason.

(** strings.Replace(s, "%s", what, 1) *)
Definition with_what (s what : gostring) : gostring :=
  match Cut s "%s" with Some (a, b) => a ++ what ++ b | None => s end.

Section guards.
(** The hook's own environment; what git says of a repository's tags and HEAD. *)
Context (getenv : gostring -> gostring) (isLocalTagOnly : gostring -> gostring -> bool) (CurrentBranch : gostring -> gostring).

Definition EnvAllowTag : gostring := "APE_ALLOW_TAG".
Definition EnvAllowPush : gostring := "APE_ALLOW_PUSH".
Definition EnvAllowKill : gostring := "APE_ALLOW_KILL".

Definition overrideSet (name : gostring) : bool := getenv name =s "1".

Definition inlineOverrideNote (command : gostring) : gostring :=
  if negb (Contains command "APE_ALLOW_") then []
  else bs " An APE_ALLOW_* set inside the command (VAR=1 cmd, env, export) does not count: only the environment the person launched the session with does.".

(** ** Tags *)

Definition tagGuardReason : gostring :=
  bs "only a person tags or releases: %s — leave the tag to the human (ask them to run it). " ++
  "A session they started with " ++ EnvAllowTag ++ "=1 may tag.".

Definition tagValueOpts : list gostring :=
  [ bs "-m"; bs "--message"; bs "-F"; bs "--file"; bs "-u"; bs "--local-user"; bs "--cleanup"; bs "--sort"; bs "--format"; bs "--trailer" ].
Definition tagOptionalValueOpts : list gostring :=
  [ bs "--contains"; bs "--no-contains"; bs "--merged"; bs "--no-merged"; bs "--points-at" ].
Definition tagListPrefixes : list gostring :=
  [ bs "--contains="; bs "--no-contains="; bs "--merged="; bs "--no-merged="; bs "--points-at=" ].

(** gitTagCmd's loop: what lists, verifies and deletes, and the names. *)
Record TagArgs := MkTagArgs { ta_list : bool; ta_verify : bool; ta_del : bool; ta_names : list gostring }.

Fixpoint tag_args (args : list gostring) (t : TagArgs) : TagArgs :=
  let '(MkTagArgs list verify del names) := t in
  match args with
  | [] => t
  | a :: args' =>
      if a =s "--" then MkTagArgs list verify del (names ++ args')
      else if (a =s "-l") || (a =s "--list") then tag_args args' (MkTagArgs true verify del names)
      else if (a =s "-v") || (a =s "--verify") then tag_args args' (MkTagArgs list true del names)
      else if (a =s "-d") || (a =s "--delete") then tag_args args' (MkTagArgs list verify true names)
      else if slices_Contains tagValueOpts a then match args' with [] => t | _ :: args'' => tag_args args'' t end
      else if slices_Contains tagOptionalValueOpts a then
        match args' with
        | n :: args'' => if HasPrefix n "-" then tag_args args' (MkTagArgs true verify del names)
                         else tag_args args'' (MkTagArgs true verify del names)
        | [] => MkTagArgs true verify del names
        end
      else if existsb (HasPrefix a) tagListPrefixes then tag_args args' (MkTagArgs true verify del names)
      else if HasPrefix a "-" && negb (HasPrefix a "--") && Contains a "d" && negb (HasPrefix a "-n")
           then tag_args args' (MkTagArgs list verify true names)
      else if HasPrefix a "-" then tag_args args' t
      else tag_args args' (MkTagArgs list verify del (names ++ [a]))
  end.

Definition gitTagCmd (args : list gostring) : gostring :=
  let t := tag_args args (MkTagArgs false false false []) in
  if ta_del t then bs "`git tag " ++ Join args " " ++ "` deletes a tag"
  else if ta_list t || ta_verify t || bool_decide (ta_names t = []) then []
  else bs "`git tag " ++ Join args " " ++ "` creates a tag".

Definition pushValueOpts : list gostring := [ bs "-o"; bs "--push-option"; bs "--repo"; bs "--receive-pack"; bs "--exec" ].

(** gitPushCmd's loop: a verdict, or whether it deletes and the positional words. *)
Fixpoint push_args (args : list gostring) (del : bool) (pos : list gostring) : gostring + bool * list gostring :=
  match args with
  | [] => inr (del, pos)
  | a :: args' =>
      if a =s "--" then inr (del, pos ++ args')
      else if (a =s "--tags") || (a =s "--follow-tags") || (a =s "--mirror") then inl (bs "`git push " ++ a ++ "` pushes tags")
      else if (a =s "-d") || (a =s "--delete") then push_args args' true pos
      else if slices_Contains pushValueOpts a then match args' with [] => inr (del, pos) | _ :: args'' => push_args args'' del pos end
      else if HasPrefix a "-" then push_args args' del pos
      else push_args args' del (pos ++ [a])
  end.

(** One refspec, with the words after it. *)
Definition judge_ref (del : bool) (dir ref : gostring) (rest : list gostring) : gostring :=
  let r := TrimPrefix ref "+" in
  match (if r =s "tag" then rest else []) with
  | n :: _ => bs "`git push ... tag " ++ n ++ "` pushes a tag"
  | [] =>
      if Contains r "refs/tags/" then bs "`git push ... " ++ ref ++ "` pushes a tag"
      else
        let '(name, deleting) :=
          match Cut r ":" with
          | Some (src, dst) => if src =s "" then (dst, true) else (src, del)
          | None => (r, del)
          end in
        if (name =s "") || negb (isLocalTagOnly dir name) then []
        else if deleting then bs "`git push ... " ++ ref ++ "` deletes the tag " ++ name
        else bs "`git push ... " ++ ref ++ "` pushes the tag " ++ name
  end.

Fixpoint judge_refs (del : bool) (dir : gostring) (refs : list gostring) : gostring :=
  match refs with
  | [] => []
  | ref :: rest => let what := judge_ref del dir ref rest in if what <>s "" then what else judge_refs del dir rest
  end.

Definition gitPushCmd (args : list gostring) (dir : gostring) : gostring :=
  match push_args args false [] with
  | inl what => what
  | inr (del, _ :: refs) => judge_refs del dir refs
  | inr (_, []) => []
  end.

Definition judgeTag : gitJudge := fun sub args dir =>
  if sub =s "tag" then gitTagCmd args else if sub =s "push" then gitPushCmd args dir else [].

Definition TagGuard (command cwd : gostring) : PreToolDecision :=
  if negb (Contains command "git") || overrideSet EnvAllowTag then allow
  else
    let what := scanGit command cwd judgeTag in
    if what <>s "" then deny (with_what tagGuardReason what ++ inlineOverrideNote command) else allow.

(** ** Pushes *)

Definition pushGuardReason : gostring :=
  bs "only a person pushes: %s publishes to a remote (and, with push.followTags, every reachable unpushed tag) — " ++
  "leave the push to the human (ask them to run it). A session they started with " ++ EnvAllowPush ++ "=1 may push.".

Definition judgePush : gitJudge := fun sub args _ =>
  if sub <>s "push" then [] else bs "`" ++ TrimSpace (bs "git push " ++ Join args " ") ++ "`".

Definition PushGuard (command cwd : gostring) : PreToolDecision :=
  if overrideSet EnvAllowPush then allow
  else
    let what := scanGit command cwd judgePush in
    if what =s "" then allow else deny (with_what pushGuardReason what ++ inlineOverrideNote command).

(** ** Kills by name *)

Definition killByName : list gostring := [ bs "pkill"; bs "killall"; bs "killall5"; bs "skill" ].
Definition pidLookups : list gostring := [ bs "pgrep"; bs "pidof" ].

Definition killGuardReason : gostring :=
  bs "%s stops processes by name or pattern, which can stop processes this session did not start " ++
  "(another session's, an eval runner's, the person's own) — stop the process you started by its PID (kill <pid>). " ++
  "A session the person started with " ++ EnvAllowKill ++ "=1 may use pkill/killall.".

Definition judgeKill : cmdJudge := fun words _ =>
  match words with
  | w :: _ => if slices_Contains killByName (filepath_Base w) then bs "`" ++ Join words " " ++ "`" else []
  | [] => []
  end.

(** The commands the scanner puts to its judge, in order. *)
Definition cmd_words (scan : gostring -> list (list gostring)) (words : list gostring) : list (list gostring) :=
  match unwrap (length words) words with
  | RunsNothing => []
  | Splits words => scan (Join words " ")
  | Runs [] => []
  | Runs ((w :: args) as words) =>
      let base := filepath_Base w in
      if is_shell base then match shell_script args with Some script => scan script | None => [words] end
      else if base =s "eval" then scan (Join args " ")
      else [words]
  end.

Fixpoint scan_words (levels : nat) (command : gostring) : list (list gostring) :=
  match levels with
  | O => []
  | S levels' => shellCommands command ≫= cmd_words (scan_words levels')
  end.

(** The first command scanned whose program is one of [names]. *)
Definition first_run (names : list gostring) (command : gostring) : option (list gostring) :=
  List.find (fun words => match words with w :: _ => slices_Contains names (filepath_Base w) | [] => false end) (scan_words 4 command).

Definition killOfLookup (command : gostring) : gostring :=
  match first_run [bs "kill"] command, first_run pidLookups command with
  | Some kill, Some lookup => bs "`" ++ Join kill " " ++ "` of the pids `" ++ Join lookup " " ++ "` finds"
  | _, _ => []
  end.

Definition KillGuard (command cwd : gostring) : PreToolDecision :=
  if overrideSet EnvAllowKill then allow
  else
    let what := scanCmds command cwd judgeKill in
    let what := if what =s "" then killOfLookup command else what in
    if what =s "" then allow else deny (with_what killGuardReason what ++ inlineOverrideNote command).

(** ** The records of a person's words *)

Definition c_name : Z -> bool := cor (cor c_upper c_lower) (cor c_digit (one "_")).
Definition recordPathRe : re :=
  cats [ Alt Bol (Cls (cnot c_name)); lit "state"; Plus (lit "/"); Star (cats [ lit "."; Plus (lit "/") ]);
         Grp 1 (Alt (lit "prompts") (lit "grants")); Alt Eol (Cls (cnot (cor c_name (one "-")))) ].

Definition recordGuardReason : gostring :=
  bs "%s: the person's recorded prompts and pre-tool's grants are what a person act rests on (E2), " ++
  "so only Claude Code's hooks and ape write them, and only ape and Claude Code run its hook and worker plumbing — " ++
  "to have a person act done, ask the person to type its phrase (`ape hook pre-tool --help`)".

Definition judgeRecord : cmdJudge := fun words _ =>
  match words with
  | w :: args =>
      if negb (is_ape w) then []
      else match args with
           | a :: rest =>
               if a =s "__run" then bs "`ape __run` is a long run's worker"
               else match rest with
                    | b :: _ => if (a =s "hook") && ((b =s "user-prompt") || (b =s "pre-tool"))
                                then bs "`ape hook " ++ b ++ "` is Claude Code's hook" else []
                    | [] => []
                    end
           | [] => []
           end
  | [] => []
  end.

Definition RecordGuard (command cwd : gostring) : PreToolDecision :=
  match FindSubmatchIndex recordPathRe command with
  | Some m => deny (with_what recordGuardReason (bs "the command names _apex/state/" ++ group command m 1))
  | None =>
      if negb (Contains command "ape") then allow
      else
        let what := scanCmds command cwd judgeRecord in
        if what =s "" then allow else deny (with_what recordGuardReason what)
  end.

(** ** Rebases on a change branch *)

Definition judgeRebase : gitJudge := fun sub args dir =>
  if (sub <>s "rebase") && (sub <>s "merge") && (sub <>s "cherry-pick") then []
  else if existsb (fun a => (a =s "--abort") || (a =s "--quit")) args then []
  else
    let branch := CurrentBranch dir in
    let id := ChangeOfBranch branch in
    if id =s "" then []
    else bs "`git " ++ sub ++ "` on " ++ branch ++ ": ape, never the session, brings a change up to date with its base — " ++
         "`ape change start " ++ id ++ "`, `ape change verify " ++ id ++ "` and `ape change archive " ++ id ++
         "` rebase it onto its moved base and re-take the baseline; a conflict is left on the branch: resolve the markers by editing, `git add`, commit".

Definition RebaseGuard (command cwd : gostring) : PreToolDecision :=
  if negb (Contains command "git") ||
     (negb (Contains command "rebase") && negb (Contains command "merge") && negb (Contains command "cherry-pick")) then allow
  else
    let what := scanGit command cwd judgeRebase in
    if what <>s "" then deny what else allow.
End guards.
