(* ===== verification/GuardFacts.v ===== *)
(** Theorems of the command guards: what the scanner finds in a command line, what the
    guards deny and allow, and what they miss. *)
From S2P Require Import Prelude Regex Markdown Spec Change Merge Effective Regression Roadmap State Command Lifecycle Shell Guards.

(** ** The scanner *)

Lemma first_verdict_bind {A B} (f : B -> gostring) (g : A -> list B) l :
  first_verdict f (l ≫= g) = first_verdict (fun x => first_verdict f (g x)) l.
Proof.
  induction l as [|x l IH]; [done|]. rewrite bind_cons. cbn [first_verdict]. rewrite <- IH. clear IH.
  induction (g x) as [|y ys IH]; cbn [app first_verdict]; [done|].
  destruct (decide (f y = [])) as [E|E]; [by rewrite !(bool_decide_true _ E)|]. by rewrite !(bool_decide_false _ E).
Qed.

Lemma first_verdict_None {A} (f : A -> gostring) l : first_verdict f l = [] <-> Forall (fun x => f x = []) l.
Proof.
  induction l as [|x l IH]; cbn [first_verdict]; [by split|]. rewrite Forall_cons, <- IH.
  destruct (decide (f x = [])) as [E|E]; [rewrite (bool_decide_true _ E)|rewrite (bool_decide_false _ E)]; naive_solver.
Qed.

Lemma first_verdict_ext {A} (f g : A -> gostring) l : (forall x, f x = g x) -> first_verdict f l = first_verdict g l.
Proof. intros H. induction l as [|x l IH]; cbn; [done|]. by rewrite H, IH. Qed.

(** The scanner's verdict is the first its judge gives the commands it visits. *)
Lemma scan_first cwd judge n : forall command,
  scan_levels n cwd judge command = first_verdict (fun ws => judge ws cwd) (scan_words n command).
Proof.
  induction n as [|n IH]; intros command; [done|]. cbn [scan_levels scan_words]. rewrite first_verdict_bind.
  apply first_verdict_ext. intros words. unfold scanCmd, cmd_words.
  destruct (unwrap _ words) as [|ws|[|w args]]; try done.
  assert (forall x : gostring, (if x <>s "" then x else []) = x) as Hone by (intros x; by case_bool_decide; subst).
  destruct (is_shell _); [destruct (shell_script args); [done|]|destruct (_ =s "eval"); [done|]]; cbn [first_verdict]; by rewrite Hone.
Qed.

Lemma scanCmds_denies command cwd judge : scanCmds command cwd judge <> [] <-> exists ws, ws ∈ scan_words 4 command /\ judge ws cwd <> [].
Proof.
  unfold scanCmds. rewrite scan_first, first_verdict_None, Forall_forall. split.
  - intros H. destruct (decide (Exists (fun ws => judge ws cwd <> []) (scan_words 4 command))) as [E|E].
    + apply Exists_exists in E as (ws & ? & ?). eauto.
    + exfalso. apply H. intros ws Hws. destruct (decide (judge ws cwd = [])) as [|Hn]; [done|].
      exfalso. apply E, Exists_exists. eauto.
  - intros (ws & Hin & Hne) H. by apply Hne, H.
Qed.

(** ** What a written command line runs *)

(** A word the scanner drops before the program: an assignment, or a wrapper with no
    option that takes no argument of its own. *)
Definition prefix_word (w : gostring) : Prop :=
  HasPrefix w "-" = false /\
  (MatchString assignRe w = true \/
   MatchString assignRe w = false /\ filepath_Base w ∈ wrappers /\ filepath_Base w <> bs "timeout").

(** A word that is the program run. *)
Definition program (w : gostring) : Prop :=
  HasPrefix w "-" = false /\ MatchString assignRe w = false /\ filepath_Base w ∉ wrappers.

(** [runs n line ws]: [line] runs the command [ws], by itself or in a script given to a
    shell's -c, at most [n] levels deep. *)
Inductive runs : nat -> gostring -> list gostring -> Prop :=
| runs_here n l c d pre w args :
    Forall (fun d => cmd_ok d.1) l -> cmd_ok c -> d ∈ (l.*1 ++ [c]) ->
    words_of d = pre ++ w :: args -> Forall prefix_word pre -> program w ->
    is_shell (filepath_Base w) = false -> filepath_Base w <> bs "eval" ->
    runs (S n) (line_text l c) (w :: args)
| runs_script n l c d pre w script args ws :
    Forall (fun d => cmd_ok d.1) l -> cmd_ok c -> d ∈ (l.*1 ++ [c]) ->
    words_of d = pre ++ w :: bs "-c" :: script :: args -> Forall prefix_word pre -> program w ->
    is_shell (filepath_Base w) = true -> runs n script ws -> runs (S n) (line_text l c) ws.

Lemma wrapper_opts_none base w ws : HasPrefix w "-" = false -> wrapper_opts base (w :: ws) = Runs (w :: ws).
Proof. intros H. cbn [wrapper_opts]. by rewrite H. Qed.

Lemma unwrap_prefix pre w args : Forall prefix_word pre -> program w ->
  forall fuel, length pre < fuel -> unwrap fuel (pre ++ w :: args) = Runs (w :: args).
Proof.
  intros Hpre (Hd & Ha & Hw). induction Hpre as [|p pre [Hpd Hp] Hpre IH]; intros [|fuel] Hf; cbn [length] in *; try lia.
  - cbn [app unwrap]. unfold slices_Contains. by rewrite Ha, bool_decide_false.
  - cbn [app unwrap]. destruct Hp as [->|(-> & Hb & Ht)]; [by rewrite IH by lia|].
    unfold slices_Contains. rewrite (bool_decide_true _ Hb). cbn [negb].
    assert (exists v vs, pre ++ w :: args = v :: vs /\ HasPrefix v "-" = false) as (v & vs & E & Hv).
    { destruct pre as [|q pre]; [eexists _, _; by split|]. apply Forall_cons in Hpre as [[Hq _] _]. eexists _, _; by split. }
    rewrite E, wrapper_opts_none by done. rewrite bool_decide_false by done. rewrite <- E. apply IH. lia.
Qed.

Lemma in_line n l c d : Forall (fun d => cmd_ok d.1) l -> cmd_ok c -> d ∈ (l.*1 ++ [c]) ->
  forall ws, ws ∈ cmd_words (scan_words n) (words_of d) -> ws ∈ scan_words (S n) (line_text l c).
Proof.
  intros Hl Hc Hd ws Hws. cbn [scan_words]. rewrite shellCommands_lexes by done. apply list_elem_of_bind.
  exists (words_of d). split; [done|]. apply elem_of_app in Hd as [Hd|Hd].
  - apply elem_of_app. left. apply list_elem_of_fmap in Hd as (e & -> & He). apply list_elem_of_fmap. eauto.
  - apply elem_of_app. right. apply list_elem_of_singleton in Hd as ->. by apply list_elem_of_singleton.
Qed.

Lemma runs_scanned n line ws : runs n line ws -> ws ∈ scan_words n line.
Proof.
  induction 1 as [n l c d pre w args Hl Hc Hd Hw Hpre Hp Hs He|n l c d pre w script args ws Hl Hc Hd Hw Hpre Hp Hs _ IH].
  - apply (in_line n l c d); [done..|]. unfold cmd_words. rewrite Hw, unwrap_prefix; [|done|done|rewrite length_app; cbn; lia].
    rewrite Hs, bool_decide_false by done. by apply list_elem_of_singleton.
  - apply (in_line n l c d); [done..|]. unfold cmd_words. rewrite Hw, unwrap_prefix; [|done|done|rewrite length_app; cbn; lia].
    rewrite Hs. exact IH.
Qed.

(** ** What the guards deny *)

(** git's options before its subcommand: flags, and options with their value. *)
Inductive git_opts : list gostring -> Prop :=
| git_opts_nil : git_opts []
| git_opts_flag g l : HasPrefix g "-" = true -> g <> bs "-C" -> g ∉ gitValueOpts -> git_opts l -> git_opts (g :: l)
| git_opts_value o v l : o = bs "-C" \/ o ∈ gitValueOpts -> git_opts l -> git_opts (o :: v :: l).

Lemma value_opt_dash o : o = bs "-C" \/ o ∈ gitValueOpts -> HasPrefix o "-" = true.
Proof.
  assert (Forall (fun o => HasPrefix o "-" = true) (bs "-C" :: gitValueOpts)) as H by (repeat constructor).
  rewrite Forall_forall in H. intros Ho. apply H, elem_of_cons. naive_solver.
Qed.

Lemma git_globals_opts opts : git_opts opts -> forall dir sub args, HasPrefix sub "-" = false ->
  exists dir', git_globals dir (opts ++ sub :: args) = (dir', sub :: args).
Proof.
  induction 1 as [|g l Hg HC Hv _ IH|o v l Ho _ IH]; intros dir sub args Hs.
  - exists dir. cbn. by rewrite Hs.
  - destruct (IH dir sub args Hs) as (dir' & E). exists dir'. cbn [app git_globals]. rewrite Hg.
    unfold slices_Contains. rewrite (bool_decide_false _ HC), (bool_decide_false _ Hv). rewrite E.
    by destruct l.
  - pose proof (value_opt_dash o Ho) as Hd. cbn [app git_globals]. rewrite Hd.
    destruct (decide (o = bs "-C")) as [E|E]; [rewrite (bool_decide_true _ E); by apply IH|].
    unfold slices_Contains. rewrite (bool_decide_false _ E), bool_decide_true by naive_solver. by apply IH.
Qed.

(** A command that runs git's subcommand [sub] on [args]. *)
Definition git_runs (sub : gostring) (args ws : list gostring) : Prop :=
  exists w opts, ws = w :: opts ++ sub :: args /\ filepath_Base w = bs "git" /\ git_opts opts.

Lemma scanGit_denies (judge : gitJudge) line cwd sub args ws :
  runs 4 line ws -> git_runs sub args ws -> HasPrefix sub "-" = false -> (forall dir, judge sub args dir <> []) ->
  scanGit line cwd judge <> [].
Proof.
  intros Hr (w & opts & -> & Hw & Ho) Hs Hj. apply scanCmds_denies. eexists. split; [by apply runs_scanned|].
  unfold git_command. rewrite (bool_decide_true _ Hw). unfold gitInvocation.
  destruct (git_globals_opts opts Ho cwd sub args Hs) as (dir & ->). apply Hj.
Qed.

Section denials.
Context (getenv : gostring -> gostring).


Definition judged_programs : list gostring := [bs "git"; bs "eval"; bs "kill"] ++ killByName ++ wrappers.

(** A command line that runs programs the scanner passes over. *)
Definition quiet (ws : list gostring) : Prop :=
  exists w args, ws = w :: args /\ MatchString assignRe w = false /\
    (filepath_Base w ∉ judged_programs) /\ is_shell (filepath_Base w) = false.

Lemma scan_quiet n l c : Forall (fun d => cmd_ok d.1) l -> cmd_ok c -> Forall (fun d => quiet (words_of d)) (l.*1 ++ [c]) ->
  Forall quiet (scan_words n (line_text l c)).
Proof.
  intros Hl Hc Hq. destruct n as [|n]; [constructor|]. cbn [scan_words]. rewrite shellCommands_lexes by done.
  assert (Forall quiet (((fun d => words_of d.1) <$> l) ++ [words_of c])) as Hw.
  { apply Forall_app in Hq as [Hq Hqc]. apply Forall_app. split; [|rewrite Forall_singleton in Hqc; by apply Forall_singleton].
    apply Forall_forall. intros ws (d & -> & Hd)%list_elem_of_fmap. apply (proj1 (Forall_forall _ _) Hq), list_elem_of_fmap. eauto. }
  apply Forall_bind. eapply Forall_impl; [exact Hw|]. intros ws (w & args & -> & Ha & Hb & Hs).
  unfold cmd_words. cbn [length unwrap]. rewrite Ha. unfold slices_Contains.
  rewrite (bool_decide_false (filepath_Base w ∈ wrappers)) by (unfold judged_programs in *; set_solver). cbn [negb]. rewrite Hs, bool_decide_false by (unfold judged_programs in *; set_solver).
  apply Forall_singleton. exists w, args. done.
Qed.

(** No false alarm: a line whose commands run other programs is allowed by the push
    and kill guards, whatever its arguments, quoted text and names mention. *)
Theorem guards_allow l c cwd :
  Forall (fun d => cmd_ok d.1) l -> cmd_ok c -> Forall (fun d => quiet (words_of d)) (l.*1 ++ [c]) ->
  PushGuard getenv (line_text l c) cwd = allow /\ KillGuard getenv (line_text l c) cwd = allow.
Proof.
  intros Hl Hc Hq. pose proof (scan_quiet 4 l c Hl Hc Hq) as Hs. rewrite Forall_forall in Hs.
  assert (forall judge, (forall ws, quiet ws -> judge ws cwd = []) -> scanCmds (line_text l c) cwd judge = []) as Hj.
  { intros judge Hj. destruct (decide (scanCmds (line_text l c) cwd judge = [])) as [|Hne]; [done|].
    apply scanCmds_denies in Hne as (ws & Hin & Hne). by destruct Hne; apply Hj, Hs. }
  split.
  - unfold PushGuard. destruct (overrideSet _ _); [done|]. unfold scanGit. rewrite Hj; [done|].
    intros ws (w & args & -> & _ & Hb & _). cbn [git_command]. by rewrite bool_decide_false by (unfold judged_programs in *; set_solver).
  - unfold KillGuard. destruct (overrideSet _ _); [done|]. rewrite Hj.
    + assert (first_run [bs "kill"] (line_text l c) = None) as Hk.
      { unfold first_run. destruct (List.find _ _) as [ws|] eqn:E; [|done]. apply find_some in E as [Hin Hk].
        apply list_elem_of_In, Hs in Hin as (w & args & -> & _ & Hb & _). apply bool_decide_eq_true in Hk. (unfold judged_programs in *; set_solver). }
      unfold killOfLookup. by rewrite Hk.
    + intros ws (w & args & -> & _ & Hb & _). cbn [judgeKill]. unfold slices_Contains. by rewrite bool_decide_false by (unfold judged_programs in *; set_solver).
Qed.
End denials.

(** ** Tags *)

(** Not an option that lists or verifies. *)
Definition not_listing (a : gostring) : Prop :=
  (a ∉ [bs "-l"; bs "--list"; bs "-v"; bs "--verify"]) /\ (a ∉ tagOptionalValueOpts) /\ existsb (HasPrefix a) tagListPrefixes = false.

Lemma not_listing_false a : not_listing a ->
  (a =s "-l") || (a =s "--list") = false /\ (a =s "-v") || (a =s "--verify") = false /\
  slices_Contains tagOptionalValueOpts a = false /\ existsb (HasPrefix a) tagListPrefixes = false.
Proof.
  intros (Hl & Ho & Hp). unfold slices_Contains. rewrite !orb_false_iff, !bool_decide_eq_false. set_solver.
Qed.

Lemma tag_args_keeps n : forall args t, length args <= n -> Forall not_listing args ->
  let r := tag_args args t in
  ta_list r = ta_list t /\ ta_verify r = ta_verify t /\ (ta_names t <> [] -> ta_names r <> []).
Proof.
  induction n as [|n IH]; intros [|a args] [list verify del names] Hn Ha; cbn [length] in Hn; try (by cbn); try lia.
  apply Forall_cons in Ha as [Hna Ha]. apply not_listing_false in Hna as (E1 & E2 & E3 & E4).
  cbn [tag_args]. rewrite E1, E2, E3, E4.
  destruct (a =s "--"); [cbn; split_and!; [done..|]; by destruct names|].
  destruct ((a =s "-d") || _); [apply (IH args (MkTagArgs list verify true names)); [lia|done]|].
  destruct (slices_Contains tagValueOpts a).
  { destruct args as [|b args]; [done|]. apply Forall_cons in Ha as [_ Ha]. apply (IH args (MkTagArgs list verify del names)); [cbn in Hn; lia|done]. }
  destruct (_ && _); [apply (IH args (MkTagArgs list verify true names)); [lia|done]|].
  destruct (HasPrefix a "-"); [apply (IH args (MkTagArgs list verify del names)); [lia|done]|].
  destruct (IH args (MkTagArgs list verify del (names ++ [a]))) as (Hl & Hv & Hns); [lia|done|]. cbn in *.
  split_and!; [done|done|]. intros _. apply Hns. by destruct names.
Qed.

Lemma tag_args_name name post : HasPrefix name "-" = false -> Forall not_listing (name :: post) ->
  forall pre t, Forall not_listing pre -> Forall (fun a => a ∉ tagValueOpts) pre -> ta_names (tag_args (pre ++ name :: post) t) <> [].
Proof.
  intros Hd Hp. assert ((name ∉ tagValueOpts) /\ name <> bs "--" /\ name <> bs "-d" /\ name <> bs "--delete") as (Hv & H1 & H2 & H3).
  { split_and!; [|by intros ->..]. intros Hin.
    assert (Forall (fun o => HasPrefix o "-" = true) tagValueOpts) as H by (repeat constructor).
    rewrite Forall_forall in H. apply H in Hin. congruence. }
  induction pre as [|a pre IH]; intros [list verify del names] Hpre Hvs; cbn [app].
  - apply Forall_cons in Hp as [Hna Hp]. apply not_listing_false in Hna as (E1 & E2 & E3 & E4).
    cbn [tag_args]. unfold slices_Contains in *. rewrite E1, E2, E3, E4, Hd, !bool_decide_false by done. cbn [orb andb].
    edestruct (tag_args_keeps (length post) post) as (_ & _ & Hns); [done|done|]. apply Hns. cbn. by destruct names.
  - apply Forall_cons in Hpre as [Hna Hpre]. apply Forall_cons in Hvs as [Hva Hvs].
    apply not_listing_false in Hna as (E1 & E2 & E3 & E4). cbn [tag_args]. rewrite E1, E2, E3, E4.
    unfold slices_Contains. rewrite (bool_decide_false _ Hva).
    destruct (a =s "--"); [cbn; by destruct names, pre|].
    repeat (match goal with |- context [if ?b then _ else _] => destruct b end); by apply IH.
Qed.

(** A git tag command that names a tag and asks for no listing or verification is
    denied, whatever its other options. *)
Theorem gitTagCmd_denies pre name post :
  HasPrefix name "-" = false -> Forall not_listing (pre ++ name :: post) -> Forall (fun a => a ∉ tagValueOpts) pre ->
  gitTagCmd (pre ++ name :: post) <> [].
Proof.
  intros Hd Hl Hv. pose proof Hl as Hl'. apply Forall_app in Hl' as [Hpre Hpost].
  pose proof (tag_args_name name post Hd Hpost pre (MkTagArgs false false false []) Hpre Hv) as Hn.
  destruct (tag_args_keeps (length (pre ++ name :: post)) (pre ++ name :: post) (MkTagArgs false false false [])) as (E1 & E2 & _); [done|done|].
  unfold gitTagCmd. rewrite E1, E2, (bool_decide_false _ Hn). by destruct (ta_del _).
Qed.

Lemma gitTagCmd_denies_witness : gitTagCmd [bs "-a"; bs "v1"; bs "-m"; bs "release 1"] <> [].
Proof.
  apply (gitTagCmd_denies [bs "-a"] (bs "v1") [bs "-m"; bs "release 1"]); [reflexivity| |].
  - repeat constructor; apply (bool_decide_unpack _); vm_compute; exact I.
  - repeat constructor. apply (bool_decide_unpack _); vm_compute; exact I.
Defined.

(** ** Where the tag guard denies a listing *)

(** A listing of tags that match a pattern with their messages, git tag -n <pattern>,
    is denied as a creation. *)
Theorem TagGuard_denies_listing getenv isLocalTagOnly cwd :
  overrideSet getenv EnvAllowTag = false -> Deny (TagGuard getenv isLocalTagOnly "git tag -n5 'v1*'" cwd) = true.
Proof. intros H. unfold TagGuard. rewrite H. vm_compute. reflexivity. Qed.

Lemma TagGuard_denies_listing_witness : Deny (TagGuard (fun _ => []) (fun _ _ => false) "git tag -n5 'v1*'" "/repo") = true.
Proof. apply TagGuard_denies_listing. reflexivity. Defined.

(** ** Samples *)

Definition plain (s : gostring) : list piece := [Plain (bz <$> s)].

(** make; FOO=1 sudo git -C sub push origin *)
Definition push_line : list (list (list piece) * sep) := [([plain "make"], Semi)].
Definition push_last : list (list piece) :=
  [plain "FOO=1"; plain "sudo"; plain "git"; plain "-C"; plain "sub"; plain "push"; plain "origin"].
(** bash -c 'make; FOO=1 sudo git -C sub push origin' *)
Definition script_last : list (list piece) := [plain "bash"; plain "-c"; [Quoted (show_line push_line push_last)]].

Ltac cmd_ok_tac := split; [discriminate|]; repeat (constructor || split); try discriminate; reflexivity.
Ltac member_tac := apply (bool_decide_unpack _); vm_compute; exact I.

Lemma push_ok : Forall (fun d => cmd_ok d.1) push_line /\ cmd_ok push_last /\ cmd_ok script_last.
Proof. split_and!; [apply Forall_singleton; cmd_ok_tac|cmd_ok_tac|cmd_ok_tac]. Qed.

Lemma push_runs : runs 4 (line_text [] script_last) [bs "git"; bs "-C"; bs "sub"; bs "push"; bs "origin"].
Proof.
  destruct push_ok as (Hl & Hc & Hs).
  apply (runs_script 3 [] script_last script_last [] (bs "bash") (line_text push_line push_last) []);
    [constructor|done|by apply list_elem_of_singleton|vm_compute; reflexivity|constructor| |reflexivity|].
  { split_and!; [reflexivity|vm_compute; reflexivity|member_tac]. }
  apply (runs_here 2 push_line push_last push_last [bs "FOO=1"; bs "sudo"] (bs "git")); [done|done| |vm_compute; reflexivity| | |reflexivity|discriminate].
  { apply elem_of_app. right. by apply list_elem_of_singleton. }
  { apply Forall_cons. split; [split; [reflexivity|left; vm_compute; reflexivity]|]. apply Forall_singleton. split; [reflexivity|].
    right. split_and!; [vm_compute; reflexivity|member_tac|discriminate]. }
  split_and!; [reflexivity|vm_compute; reflexivity|member_tac].
Qed.


(** echo 'git push && pkill x' | grep "git push" *)
Definition quiet_line : list (list (list piece) * sep) :=
  [([plain "echo"; [Quoted (bz <$> bs "git push && pkill x")]], Pipe)].
Definition quiet_last : list (list piece) := [plain "grep"; [Doubled (bz <$> bs "git push")]].

Lemma guards_allow_witness :
  PushGuard (fun _ => []) (line_text quiet_line quiet_last) "/repo" = allow /\
  KillGuard (fun _ => []) (line_text quiet_line quiet_last) "/repo" = allow.
Proof.
  apply (guards_allow (fun _ => []) quiet_line quiet_last); [apply Forall_singleton; cmd_ok_tac|cmd_ok_tac|].
  apply Forall_cons; split; [|apply Forall_singleton].
  - exists (bs "echo"), [bs "git push && pkill x"]. split_and!; [vm_compute; reflexivity|vm_compute; reflexivity|member_tac|vm_compute; reflexivity].
  - exists (bs "grep"), [bs "git push"]. split_and!; [vm_compute; reflexivity|vm_compute; reflexivity|member_tac|vm_compute; reflexivity].
Defined.
