(* ===== verification/SubjectGuard.v ===== *)
(** The guard on commit subjects of internal/apexv1/subjectguard.go: no command a session
    runs makes a commit whose subject starts apex:, which marks ape's own records. *)
From S2P Require Import Prelude Regex Markdown Spec Change Merge Effective Regression Roadmap State Command Lifecycle Shell Guards GuardFacts.

(** ** The message sources of a commit *)

(** messageArgs *)
Record messageArgs := MkMsg {
  ma_msgs : list gostring; ma_file : gostring; ma_reuse : gostring; ma_template : gostring;
  ma_amend : bool; ma_stdin : bool; ma_noCommit : bool }.
Definition no_message : messageArgs := MkMsg [] [] [] [] false false false.

Definition longValueOpts : list gostring :=
  [ bs "--author"; bs "--date"; bs "--trailer"; bs "--cleanup"; bs "--pathspec-from-file"; bs "--fixup"; bs "--strategy";
    bs "--strategy-option"; bs "--into-name" ].

(** The short options that take a value, of a subcommand. *)
Definition shortValue (sub : gostring) : gostring :=
  if sub =s "commit" then bs "mFCct" else if sub =s "commit-tree" then bs "mFpS" else if sub =s "merge" then bs "mFsX" else [].

(** messageArgs.take *)
Definition take_msg (sub opt v : gostring) (m : messageArgs) : messageArgs :=
  let '(MkMsg msgs file reuse template amend stdin noCommit) := m in
  if (opt =s "m") || (opt =s "--message") then MkMsg (msgs ++ [v]) file reuse template amend stdin noCommit
  else if (opt =s "F") || (opt =s "--file") then MkMsg msgs v reuse template amend (v =s "-") noCommit
  else if slices_Contains [bs "C"; bs "c"; bs "--reuse-message"; bs "--reedit-message"] opt then
    if sub =s "commit" then MkMsg msgs file v template amend stdin noCommit else m
  else if (opt =s "t") || (opt =s "--template") then
    if sub =s "commit" then MkMsg msgs file reuse v amend stdin noCommit else m
  else m.

(** What a word of the arguments does: it ends the options, gives an option a value or
    takes the next word for it, skips the next word, or sets a flag. *)
Inductive Word := Ends | Gives (opt v : gostring) | TakesNext (opt : gostring) | SkipsNext | Amends | NoCommits | Nothing.

Definition messageOpts : list gostring := [bs "--message"; bs "--file"; bs "--reuse-message"; bs "--reedit-message"; bs "--template"].

(** messageArgs.long *)
Definition long_word (sub a : gostring) : Word :=
  let '(name, v, eq) := match Cut a "=" with Some (n, v) => (n, v, true) | None => (a, [], false) end in
  if slices_Contains messageOpts name then if eq then Gives name v else TakesNext name
  else if name =s "--amend" then Amends
  else if slices_Contains [bs "--no-commit"; bs "--abort"; bs "--quit"] name then NoCommits
  else if name =s "--squash" then if sub =s "merge" then NoCommits else if eq then Nothing else SkipsNext
  else if slices_Contains longValueOpts name && negb eq then SkipsNext
  else Nothing.

(** A short-option cluster: its first option that takes a value. *)
Fixpoint short_word (sub cluster : gostring) : Word :=
  match cluster with
  | [] => Nothing
  | c :: v =>
      if existsb (Byte.eqb c) (shortValue sub) then match v with [] => TakesNext [c] | _ => Gives [c] v end
      else short_word sub v
  end.

Definition msg_word (sub a : gostring) : Word :=
  if a =s "--" then Ends
  else if HasPrefix a "--" then long_word sub a
  else if HasPrefix a "-" && Nat.ltb 1 (length a) then short_word sub (drop 1 a)
  else Nothing.

Definition set_amend (m : messageArgs) : messageArgs :=
  MkMsg (ma_msgs m) (ma_file m) (ma_reuse m) (ma_template m) true (ma_stdin m) (ma_noCommit m).
Definition set_noCommit (m : messageArgs) : messageArgs :=
  MkMsg (ma_msgs m) (ma_file m) (ma_reuse m) (ma_template m) (ma_amend m) (ma_stdin m) true.

(** parseMessageArgs: an option that wants a word that is not there gets the empty one. *)
Fixpoint parse_msg (sub : gostring) (args : list gostring) (m : messageArgs) : messageArgs :=
  match args with
  | [] => m
  | a :: args' =>
      match msg_word sub a with
      | Ends => m
      | Gives opt v => parse_msg sub args' (take_msg sub opt v m)
      | TakesNext opt =>
          match args' with v :: args'' => parse_msg sub args'' (take_msg sub opt v m) | [] => take_msg sub opt [] m end
      | SkipsNext => match args' with _ :: args'' => parse_msg sub args'' m | [] => m end
      | Amends => parse_msg sub args' (set_amend m)
      | NoCommits => parse_msg sub args' (set_noCommit m)
      | Nothing => parse_msg sub args' m
      end
  end.
Definition parseMessageArgs (sub : gostring) (args : list gostring) : messageArgs := parse_msg sub args no_message.

(** ** Subjects *)

Definition heredocRe : re :=
  let ws := Star (Cls c_space) in
  let quote := Opt (Cls (in_set ("'" ++ dq))) in
  let name n := Grp n (Cat (Cls (cor (cor c_upper c_lower) (one "_"))) (Star (Cls (cor (cor c_upper c_lower) (cor c_digit (one "_")))))) in
  cats [ Bol; ws; lit "$("; ws; lit "cat"; Plus (Cls c_space); lit "<<"; Opt (lit "-"); ws; quote; name 1; quote; ws; Cls (one nl);
         Grp 2 (Lazy (Cls (fun _ => true))); Cls (one nl); ws; name 3; ws; lit ")"; ws; Eol ].

Definition patchSubjectRe : re :=
  let ws := Star (Cls c_space) in
  cats [ BolM; lit "Subject:"; ws; Star (cats [ lit "["; Star (Cls (cnot (one "]"))); lit "]"; ws ]); Grp 1 (Star (Cls c_dot)); EolM ].

(** firstLine *)
Definition firstLine (text : gostring) : gostring := default [] (List.find (fun l => TrimSpace l <>s "") (split_byte nl text)).

Definition subjectGuardReason : gostring :=
  bs "%s — a commit subject starting `apex:` marks ape's own record: the provenance checks " ++
  "exempt it, `apex: project init` and `apex: lift` start the project's v1 epoch, and `apex: config accepted` is a " ++
  "person's acceptance. Only ape writes one; commit with your own subject (the change's type: `feat: …`, `fix: …`).".

Section subject.
Context (ToLower : gostring -> gostring).
(** The files, and the lines a git query in a directory prints. *)
Context (ReadFile : gostring -> option gostring) (gitLines : gostring -> list gostring -> list gostring).

Definition ReservedSubject (subject : gostring) : bool := HasPrefix (ToLower (TrimSpace subject)) "apex:".

Definition messageReserved (msg : gostring) : bool :=
  if Contains msg "$(" || Contains msg "`" then
    match FindSubmatchIndex heredocRe msg with
    | Some m => if group msg m 1 =s group msg m 3 then ReservedSubject (firstLine (group msg m 2)) else Contains (ToLower msg) "apex:"
    | None => Contains (ToLower msg) "apex:"
    end
  else ReservedSubject (firstLine msg).

Definition inDir (dir p : gostring) : gostring := if filepath_IsAbs p then p else filepath_Join dir p.

Definition commitSubject (dir rev : gostring) : gostring :=
  default [] (head (gitLines dir [bs "log"; bs "-1"; bs "--format=%s"; rev; bs "--"])).

Definition file_reserved (path : gostring) : bool := match ReadFile path with Some b => messageReserved b | None => false end.

(** messageVerdict *)
Definition messageVerdict (sub : gostring) (args : list gostring) (dir : gostring) : gostring :=
  let m := parseMessageArgs sub args in
  let cmd := bs "`git " ++ sub ++ "`" in
  if ma_noCommit m then []
  else match ma_msgs m with
       | _ :: _ => if messageReserved (Join (ma_msgs m) [nl; nl]) then cmd ++ " with a message whose subject starts `apex:`" else []
       | [] =>
           if ma_stdin m then cmd ++ " -F - reads its message from stdin, which ape cannot check — give the message with -m"
           else if ma_file m <>s "" then
             if file_reserved (inDir dir (ma_file m)) then cmd ++ " -F " ++ ma_file m ++ ", whose subject starts `apex:`" else []
           else if ma_reuse m <>s "" then
             if ReservedSubject (commitSubject dir (ma_reuse m))
             then cmd ++ " reusing the message of " ++ ma_reuse m ++ ", whose subject starts `apex:`" else []
           else if (sub =s "commit") && ma_amend m then
             if ReservedSubject (commitSubject dir "HEAD") then bs "`git commit --amend` keeping HEAD's subject, which starts `apex:`" else []
           else if ma_template m <>s "" then
             if file_reserved (inDir dir (ma_template m)) then cmd ++ " -t " ++ ma_template m ++ ", whose subject starts `apex:`" else []
           else []
       end.

(** The words of git cherry-pick: [None] when it commits nothing, else the commits. *)
Fixpoint pick_args (args : list gostring) : option (list gostring) :=
  match args with
  | [] => Some []
  | a :: args' =>
      if slices_Contains [bs "-n"; bs "--no-commit"; bs "--abort"; bs "--quit"; bs "--continue"; bs "--skip"] a then None
      else if slices_Contains [bs "-m"; bs "--mainline"; bs "-X"; bs "--strategy-option"; bs "--strategy"] a then
        match args' with _ :: args'' => pick_args args'' | [] => Some [] end
      else if HasPrefix a "-" then pick_args args'
      else cons a <$> pick_args args'
  end.

Definition pick_subjects (dir rev : gostring) : list gostring :=
  if Contains rev ".." then gitLines dir [bs "log"; bs "--format=%s"; rev] else [commitSubject dir rev].

Definition cherryPickVerdict (args : list gostring) (dir : gostring) : gostring :=
  match pick_args args with
  | None => []
  | Some revs =>
      first_verdict (fun rev =>
        first_verdict (fun s => if ReservedSubject s then bs "`git cherry-pick " ++ rev ++ "` copies a commit whose subject starts `apex:` (" ++ s ++ ")" else [])
          (pick_subjects dir rev)) revs
  end.

(** The words of git am: [None] when it applies nothing, else the patch files. *)
Fixpoint am_args (args : list gostring) : option (list gostring) :=
  match args with
  | [] => Some []
  | a :: args' =>
      if slices_Contains [bs "--continue"; bs "--skip"; bs "--abort"; bs "--quit"; bs "--resolved"; bs "-r"; bs "--show-current-patch"] a
         || HasPrefix a "--show-current-patch=" then None
      else if slices_Contains [bs "-p"; bs "-C"; bs "--directory"; bs "--exclude"; bs "--include"; bs "--patch-format";
                               bs "--whitespace"; bs "--resolvemsg"; bs "--quoted-cr"; bs "--empty"] a then
        match args' with _ :: args'' => am_args args'' | [] => Some [] end
      else if HasPrefix a "-" then am_args args'
      else cons a <$> am_args args'
  end.

Definition amVerdict (args : list gostring) (dir : gostring) : gostring :=
  match am_args args with
  | None => []
  | Some files =>
      if bool_decide (files = []) || slices_Contains files "-"
      then bs "`git am` reads its patches from stdin, which ape cannot check — name the patch files"
      else first_verdict (fun f =>
             match ReadFile (inDir dir f) with
             | Some b => if existsb (fun m => ReservedSubject (group b m 1)) (FindAll patchSubjectRe b)
                         then bs "`git am " ++ f ++ "` applies a patch whose subject starts `apex:`" else []
             | None => []
             end) files
  end.

Definition judgeSubject : gitJudge := fun sub args dir =>
  if slices_Contains [bs "commit"; bs "commit-tree"; bs "merge"] sub then messageVerdict sub args dir
  else if sub =s "cherry-pick" then cherryPickVerdict args dir
  else if sub =s "am" then amVerdict args dir
  else [].

Definition SubjectGuard (command cwd : gostring) : PreToolDecision :=
  if negb (Contains command "git") then allow
  else
    let what := scanGit command cwd judgeSubject in
    if what <>s "" then deny (with_what subjectGuardReason what) else allow.
End subject.

(** ** What is denied *)

(** Short options that take no value. *)
Definition flags (sub fl : gostring) : Prop := Forall (fun b => (b ∉ shortValue sub) /\ b <> "-"%byte) fl.

(** The name of a long option. *)
Definition long_name (a : gostring) : gostring := match Cut a "=" with Some (n, _) => n | None => a end.

Definition special_names : list gostring :=
  messageOpts ++ longValueOpts ++ [bs "--amend"; bs "--no-commit"; bs "--abort"; bs "--quit"; bs "--squash"].

(** [says sub args msgs]: the arguments of git [sub] give the messages [msgs], in any
    spelling git documents, among operands, flags and other options with their values. *)
Inductive says (sub : gostring) : list gostring -> list gostring -> Prop :=
| says_nil : says sub [] []
| says_operand a args msgs : HasPrefix a "-" = false -> says sub args msgs -> says sub (a :: args) msgs
| says_flags fl args msgs : flags sub fl -> says sub args msgs -> says sub ((bs "-" ++ fl) :: args) msgs
| says_m fl v args msgs : flags sub fl -> says sub args msgs -> says sub ((bs "-" ++ fl ++ bs "m") :: v :: args) (v :: msgs)
| says_mv fl v args msgs : flags sub fl -> v <> [] -> says sub args msgs -> says sub ((bs "-" ++ fl ++ bs "m" ++ v) :: args) (v :: msgs)
| says_message v args msgs : says sub args msgs -> says sub (bs "--message" :: v :: args) (v :: msgs)
| says_message_eq v args msgs : says sub args msgs -> says sub ((bs "--message=" ++ v) :: args) (v :: msgs)
| says_long a args msgs : HasPrefix a "--" = true -> a <> bs "--" -> long_name a ∉ special_names -> says sub args msgs -> says sub (a :: args) msgs
| says_valued o v args msgs : o ∈ longValueOpts -> says sub args msgs -> says sub (o :: v :: args) msgs
| says_amend args msgs : says sub args msgs -> says sub (bs "--amend" :: args) msgs.

Definition message_subs : list gostring := [bs "commit"; bs "commit-tree"; bs "merge"].

Lemma m_takes_value sub : sub ∈ message_subs -> existsb (Byte.eqb "m"%byte) (shortValue sub) = true.
Proof.
  intros H. assert (Forall (fun s => existsb (Byte.eqb "m"%byte) (shortValue s) = true) message_subs) as Ha by (repeat constructor).
  by apply (proj1 (Forall_forall _ _) Ha).
Qed.

Lemma short_word_flags sub fl t : flags sub fl -> short_word sub (fl ++ t) = short_word sub t.
Proof.
  induction 1 as [|b fl [Hb _] _ IH]; [done|]. cbn [app short_word].
  destruct (existsb _ _) eqn:E; [|done]. apply existsb_exists in E as (c & Hc & Heq). apply byte_eqb_eq in Heq as ->.
  destruct Hb. by apply list_elem_of_In.
Qed.

(** A cluster of flags is read from its first letter that is none of them. *)
Lemma msg_word_cluster sub fl t : flags sub fl -> fl ++ t <> [] -> head t <> Some "-"%byte ->
  msg_word sub (bs "-" ++ fl ++ t) = short_word sub t.
Proof.
  intros Hf Hne Ht. rewrite <- (short_word_flags sub fl t Hf). destruct (fl ++ t) as [|b u] eqn:E; [done|].
  assert (b <> "-"%byte) as Hb.
  { destruct fl as [|c fl]; cbn [app] in E; [subst t; intros ->; by apply Ht|]. injection E as -> _. by apply Forall_cons in Hf as [[_ ?] _]. }
  unfold msg_word. change (bs "-" ++ b :: u) with ("-"%byte :: b :: u). change (bs "--") with ["-"%byte; "-"%byte].
  rewrite bool_decide_false by congruence. cbn [HasPrefix length drop Nat.ltb Nat.leb]. rewrite byte_eqb_refl.
  destruct (Byte.eqb "-" b) eqn:He; [by apply byte_eqb_eq in He as <-|]. done.
Qed.

Lemma long_word_special sub a : long_name a ∉ special_names -> long_word sub a = Nothing.
Proof.
  intros H. unfold long_word, long_name, special_names, slices_Contains in *.
  destruct (Cut a "=") as [[n v]|]; rewrite !bool_decide_false by set_solver; done.
Qed.

Lemma valued_word sub o : o ∈ longValueOpts -> msg_word sub o = SkipsNext.
Proof.
  intros H. assert (Forall (fun o => msg_word sub o = SkipsNext) longValueOpts) as Ha by (repeat constructor; by destruct (sub =s "merge")).
  by apply (proj1 (Forall_forall _ _) Ha).
Qed.

Lemma msg_word_operand sub a : HasPrefix a "-" = false -> msg_word sub a = Nothing.
Proof.
  intros H. unfold msg_word. destruct a as [|b a]; [done|]. change (bs "--") with ["-"%byte; "-"%byte]. change (bs "-") with ["-"%byte] in *. cbn [HasPrefix] in *.
  rewrite andb_true_r in H. rewrite bool_decide_false; [|intros [= -> ->]; by rewrite byte_eqb_refl in H]. by rewrite H.
Qed.

Lemma parse_says sub args msgs : sub ∈ message_subs -> says sub args msgs -> forall m,
  ma_msgs (parse_msg sub args m) = ma_msgs m ++ msgs /\ ma_noCommit (parse_msg sub args m) = ma_noCommit m.
Proof.
  intros Hs. pose proof (m_takes_value sub Hs) as Hm.
  assert (forall v m, ma_msgs (take_msg sub "m" v m) = ma_msgs m ++ [v] /\ ma_noCommit (take_msg sub "m" v m) = ma_noCommit m /\
                      ma_msgs (take_msg sub "--message" v m) = ma_msgs m ++ [v] /\ ma_noCommit (take_msg sub "--message" v m) = ma_noCommit m) as Ht
    by (intros v []; done).
  induction 1 as [|a args msgs Ha _ IH|fl args msgs Hf _ IH|fl v args msgs Hf _ IH|fl v args msgs Hf Hv _ IH|v args msgs _ IH|v args msgs _ IH|a args msgs Ha Hn Hl _ IH|o v args msgs Ho _ IH|args msgs _ IH];
    intros m; cbn [parse_msg].
  - by rewrite app_nil_r.
  - rewrite msg_word_operand by done. apply IH.
  - destruct fl as [|b fl]; [apply IH|]. rewrite <- (app_nil_r (b :: fl)), msg_word_cluster by done. apply IH.
  - rewrite msg_word_cluster; [|done|by destruct fl|done]. change (bs "m") with ["m"%byte]. cbn [short_word]. rewrite Hm. change ["m"%byte] with (bs "m").
    destruct (Ht v m) as (E1 & E2 & _). destruct (IH (take_msg sub "m" v m)) as [-> ->]. rewrite E1, E2. by rewrite <- app_assoc.
  - rewrite msg_word_cluster; [|done|by destruct fl|done]. change (bs "m") with ["m"%byte]. cbn [app short_word]. rewrite Hm. destruct v as [|b v]; [done|]. change ["m"%byte] with (bs "m").
    destruct (Ht (b :: v) m) as (E1 & E2 & _). destruct (IH (take_msg sub "m" (b :: v) m)) as [-> ->]. rewrite E1, E2. by rewrite <- app_assoc.
  - change (msg_word sub (bs "--message")) with (TakesNext (bs "--message")). cbv iota beta.
    destruct (Ht v m) as (_ & _ & E1 & E2). destruct (IH (take_msg sub "--message" v m)) as [-> ->]. rewrite E1, E2. by rewrite <- app_assoc.
  - change (msg_word sub (bs "--message=" ++ v)) with (Gives (bs "--message") v). cbv iota beta.
    destruct (Ht v m) as (_ & _ & E1 & E2). destruct (IH (take_msg sub "--message" v m)) as [-> ->]. rewrite E1, E2. by rewrite <- app_assoc.
  - unfold msg_word. rewrite bool_decide_false, Ha, long_word_special by done. apply IH.
  - rewrite valued_word by done. apply IH.
  - apply (IH (set_amend m)).
Qed.

Section subject_facts.
Context (ToLower : gostring -> gostring) (ReadFile : gostring -> option gostring) (gitLines : gostring -> list gostring -> list gostring).
Let SubjectGuard := SubjectGuard ToLower ReadFile gitLines.

(** The message has no command substitution and its subject, the first line that is not
    blank, is ape's. *)
Definition subject_is_ape (msg : gostring) : Prop :=
  Contains msg "$(" = false /\ Contains msg "`" = false /\
  exists blanks l rest, split_byte nl msg = blanks ++ l :: rest /\ Forall (fun b => TrimSpace b = []) blanks /\
    TrimSpace l <> [] /\ ReservedSubject ToLower l = true.

Lemma firstLine_spec msg blanks l rest : split_byte nl msg = blanks ++ l :: rest -> Forall (fun b => TrimSpace b = []) blanks ->
  TrimSpace l <> [] -> firstLine msg = l.
Proof.
  unfold firstLine. intros -> Hb Hl. induction Hb as [|b blanks Hb _ IH]; cbn [app List.find].
  - by rewrite (bool_decide_false _ Hl).
  - by rewrite (bool_decide_true _ Hb).
Qed.

Lemma messageReserved_ape msg : subject_is_ape msg -> messageReserved ToLower msg = true.
Proof.
  intros (H1 & H2 & blanks & l & rest & Hs & Hb & Hl & Hr). unfold messageReserved. rewrite H1, H2. cbn [orb].
  by rewrite (firstLine_spec msg blanks l rest).
Qed.

(** No session commits under ape's name: a line that runs git commit, commit-tree or
    merge with messages in any spelling, among any other options, behind wrappers, in
    quotes or in a script given to a shell, is denied when the subject git would store
    starts apex:, in any case and after blank lines. *)
Theorem subject_denied line cwd ws sub args msgs :
  runs 4 line ws -> git_runs sub args ws -> Contains line "git" = true -> sub ∈ message_subs ->
  says sub args msgs -> msgs <> [] -> subject_is_ape (Join msgs [nl; nl]) ->
  Deny (SubjectGuard line cwd) = true.
Proof.
  intros Hr Hg Hc Hs Hsay Hne Hm. unfold SubjectGuard, SubjectGuard.SubjectGuard. rewrite Hc. cbn [negb].
  rewrite bool_decide_false; [done|]. apply (scanGit_denies _ line cwd sub args ws); [done|done| |].
  - assert (Forall (fun s => HasPrefix s "-" = false) message_subs) as Ha by (repeat constructor). by apply (proj1 (Forall_forall _ _) Ha).
  - intros dir. unfold judgeSubject, slices_Contains. rewrite bool_decide_true by done. unfold messageVerdict, parseMessageArgs.
    destruct (parse_says sub args msgs Hs Hsay no_message) as [E1 E2]. rewrite E1, E2. cbn [ma_noCommit ma_msgs no_message app].
    destruct msgs as [|m msgs]; [done|]. rewrite messageReserved_ape by done. done.
Qed.
End subject_facts.

(** The guard's parameters on ASCII text, without files or commits. *)
Definition ascii_lower (s : gostring) : gostring := (fun b => if c_upper (bz b) then byte_of (bz b + 32) else b) <$> s.

(** sudo git commit -am 'Apex: config accepted' *)
Definition commit_line : list (list piece) :=
  [plain "sudo"; plain "git"; plain "commit"; plain "-am"; [Quoted (bz <$> bs "Apex: config accepted")]].

Lemma commit_runs : runs 4 (line_text [] commit_line) [bs "git"; bs "commit"; bs "-am"; bs "Apex: config accepted"].
Proof.
  apply (runs_here 3 [] commit_line commit_line [bs "sudo"] (bs "git") [bs "commit"; bs "-am"; bs "Apex: config accepted"]);
    [constructor|cmd_ok_tac|apply list_elem_of_singleton; reflexivity|vm_compute; reflexivity| | |vm_compute; reflexivity|vm_compute; discriminate].
  - apply Forall_singleton. split; [reflexivity|]. right. split_and!; [vm_compute; reflexivity|member_tac|vm_compute; discriminate].
  - split_and!; [reflexivity|vm_compute; reflexivity|member_tac].
Qed.

Lemma subject_denied_witness :
  line_text [] commit_line = bs "sudo git commit -am 'Apex: config accepted'" /\
  Deny (SubjectGuard ascii_lower (fun _ => None) (fun _ _ => []) (line_text [] commit_line) "/repo") = true.
Proof.
  split; [vm_compute; reflexivity|].
  apply (subject_denied ascii_lower (fun _ => None) (fun _ _ => []) _ "/repo" _ (bs "commit") [bs "-am"; bs "Apex: config accepted"] [bs "Apex: config accepted"] commit_runs).
  - exists (bs "git"), []. split_and!; [reflexivity|vm_compute; reflexivity|constructor].
  - vm_compute. reflexivity.
  - member_tac.
  - apply (says_m _ (bs "a")); [|constructor]. apply Forall_singleton. split; [member_tac|discriminate].
  - discriminate.
  - split; [vm_compute; reflexivity|]. split; [vm_compute; reflexivity|].
    exists [], (bs "Apex: config accepted"), []. split_and!; [reflexivity|constructor|vm_compute; discriminate|vm_compute; reflexivity].
Defined.

(** What the guards do not see, although their documented limits (a script file, an
    alias, a substitution) name none of it: a push behind a shell keyword, or in a script
    whose -c is followed by another option; a commit whose line splits the word git by
    quotes, which the subject guard's first test of the whole text misses; and a message
    given by an abbreviation of --message, which git accepts. *)
Theorem guards_miss getenv cwd ToLower ReadFile gitLines :
  Deny (PushGuard getenv "if make; then git push; fi" cwd) = false /\
  Deny (PushGuard getenv "! git push" cwd) = false /\
  Deny (PushGuard getenv "bash -c -e 'git push'" cwd) = false /\
  Deny (SubjectGuard ToLower ReadFile gitLines "gi''t commit -m 'apex: config accepted'" cwd) = false /\
  shellCommands "gi''t commit -m 'apex: config accepted'" = [[bs "git"; bs "commit"; bs "-m"; bs "apex: config accepted"]] /\
  Deny (SubjectGuard ToLower ReadFile gitLines "git commit --mess 'apex: config accepted'" cwd) = false.
Proof.
  split_and!; try (vm_compute; reflexivity); unfold PushGuard; destruct (overrideSet getenv EnvAllowPush); try done; vm_compute; reflexivity.
Qed.
