(* ===== verification/Paths.v ===== *)
(** Paths of path/filepath: relative paths and directories, and what they are on clean
    absolute paths, as lists of elements. *)
From S2P Require Import Prelude Regex Shell.

(** ** Operations *)

(** filepath.Dir *)
Definition filepath_Dir (path : gostring) : gostring :=
  filepath_Clean (match LastIndex path "/" with Some i => take (S i) path | None => [] end).

(** The elements of a clean path. *)
Definition els (path : gostring) : list gostring :=
  if path =s "." then [] else List.filter (fun e => e <>s "") (split_byte "/" path).

(** The two paths without the elements they share. *)
Fixpoint strip_common (b t : list gostring) : list gostring * list gostring :=
  match b, t with
  | x :: b', y :: t' => if x =s y then strip_common b' t' else (b, t)
  | _, _ => (b, t)
  end.

(** filepath.Rel *)
Definition filepath_Rel (basepath targpath : gostring) : option gostring :=
  let base := filepath_Clean basepath in
  let targ := filepath_Clean targpath in
  if base =s targ then Some (bs ".")
  else if negb (Bool.eqb (HasPrefix base "/") (HasPrefix targ "/")) then None
  else
    let '(b, t) := strip_common (els base) (els targ) in
    match b with
    | [] => Some (Join t "/")
    | x :: _ => if x =s ".." then None else Some (Join (((fun _ => bs "..") <$> b) ++ t) "/")
    end.

(** ** Clean absolute paths *)

Definition good (e : gostring) : Prop := e <> [] /\ ("/"%byte ∉ e) /\ e <> bs "." /\ e <> bs "..".
Definition abs (es : list gostring) : gostring := bs "/" ++ Join es "/".

Lemma good_sep es : Forall good es -> Forall (fun e => "/"%byte ∉ e) es.
Proof. intros H. eapply Forall_impl; [exact H|]. by intros e (_ & ? & _). Qed.

Lemma split_abs es : Forall good es -> split_byte "/" (abs es) = [] :: (match es with [] => [[]] | _ => es end).
Proof.
  intros H. unfold abs. change (bs "/") with (["/"%byte]). cbn [app split_byte]. rewrite byte_eqb_refl. f_equal.
  destruct es as [|e es]; [done|]. apply split_byte_Join; [done|by apply good_sep].
Qed.

Lemma clean_step_good rooted kept e : good e -> clean_step rooted kept e = e :: kept.
Proof.
  intros (H1 & _ & H3 & H4). unfold clean_step. change (bs "") with (@nil byte).
  by rewrite (bool_decide_false _ H1), (bool_decide_false _ H3), (bool_decide_false _ H4).
Qed.

Lemma clean_good rooted es : Forall good es -> forall kept, foldl (clean_step rooted) kept es = rev es ++ kept.
Proof.
  induction 1 as [|e es He _ IH]; intros kept; [done|]. cbn [foldl rev]. rewrite clean_step_good, IH by done. by rewrite <- app_assoc.
Qed.

Lemma Clean_abs es : Forall good es -> filepath_Clean (abs es) = abs es.
Proof.
  intros H. unfold filepath_Clean. change (HasPrefix (abs es) "/") with true. rewrite split_abs by done. cbn [foldl].
  change (clean_step true [] []) with (@nil gostring).
  assert (foldl (clean_step true) [] match es with [] => [[]] | _ => es end = rev es) as ->.
  { destruct es as [|e es]; [done|]. rewrite clean_good by done. by rewrite app_nil_r. }
  rewrite rev_involutive. reflexivity.
Qed.

(** A rooted path cleans to good elements. *)
Lemma clean_rooted l : Forall (fun e => "/"%byte ∉ e) l -> forall kept, Forall good kept -> Forall good (foldl (clean_step true) kept l).
Proof.
  induction 1 as [|e l He _ IH]; intros kept Hk; [done|]. cbn [foldl]. apply IH. unfold clean_step.
  destruct (decide (e = bs "")) as [E1|E1]; [by rewrite (bool_decide_true _ E1)|]. rewrite (bool_decide_false _ E1).
  destruct (decide (e = bs ".")) as [E2|E2]; [by rewrite (bool_decide_true _ E2)|]. rewrite (bool_decide_false _ E2). cbn [orb].
  destruct (decide (e = bs "..")) as [E3|E3].
  - rewrite (bool_decide_true _ E3). destruct Hk as [|k kept Hg Hk]; [constructor|]. destruct Hg as (_ & _ & _ & Hd).
    by rewrite (bool_decide_false _ Hd).
  - rewrite (bool_decide_false _ E3). by constructor.
Qed.

Lemma Clean_is_abs path : filepath_IsAbs path = true -> exists es, Forall good es /\ filepath_Clean path = abs es.
Proof.
  unfold filepath_IsAbs, filepath_Clean. intros ->. eexists (rev _). split; [apply Forall_rev, clean_rooted; [apply split_byte_pieces|constructor]|].
  reflexivity.
Qed.

(** A path that is not rooted does not clean to a rooted one. *)
Lemma clean_parts rooted l : Forall (fun e => "/"%byte ∉ e) l -> forall kept, Forall (fun e => e <> [] /\ "/"%byte ∉ e) kept ->
  Forall (fun e => e <> [] /\ "/"%byte ∉ e) (foldl (clean_step rooted) kept l).
Proof.
  induction 1 as [|e l He _ IH]; intros kept Hk; [done|]. cbn [foldl]. apply IH. unfold clean_step.
  destruct (decide (e = bs "")) as [E1|E1]; [by rewrite (bool_decide_true _ E1)|]. rewrite (bool_decide_false _ E1).
  destruct (e =s "."); [done|]. cbn [orb]. assert (e <> [] /\ "/"%byte ∉ e) as Ho by (split; [exact E1|exact He]).
  destruct (e =s ".."); [|by constructor]. destruct kept as [|k kept]; [destruct rooted; [done|by constructor]|].
  destruct (k =s ".."); [by constructor|by apply Forall_cons in Hk as [_ Hk]].
Qed.

Lemma Clean_rooted path : filepath_IsAbs (filepath_Clean path) = true -> filepath_IsAbs path = true.
Proof.
  unfold filepath_IsAbs, filepath_Clean. destruct (HasPrefix path "/") eqn:E; [done|]. cbn [app].
  pose proof (clean_parts false (split_byte "/" path) (split_byte_pieces _ _) [] ltac:(constructor)) as Hp. apply Forall_rev in Hp.
  change (@List.rev) with (@rev) in *. destruct (rev (foldl _ _ _)) as [|e l]; [done|]. apply Forall_cons in Hp as [[He Hs] _].
  destruct e as [|c e]; [done|]. assert (HasPrefix (Join ((c :: e) :: l) "/") "/" = false) as Hf.
  { apply not_true_is_false. rewrite HasPrefix_spec. intros [u Hu]. assert (c = "/"%byte) as ->; [|set_solver].
    destruct l as [|f l]; [|rewrite Join_cons in Hu by done]; by injection Hu. }
  rewrite bool_decide_false; [by rewrite Hf|]. intros Hn. rewrite Hn in Hf. by destruct l as [|f l]; [|rewrite Join_cons in Hn by done].
Qed.

Lemma els_abs es : Forall good es -> els (abs es) = es.
Proof.
  intros H. unfold els. rewrite bool_decide_false by discriminate. rewrite split_abs by done. cbn [List.filter].
  change (bool_decide (@nil byte = bs "")) with true. cbn [negb]. destruct es as [|e es]; [done|].
  induction H as [|x l (Hx & _) _ IH]; [done|]. cbn [List.filter]. rewrite (bool_decide_false _ Hx). cbn [negb]. by f_equal.
Qed.

Lemma Join_app a b sep : a <> [] -> b <> [] -> Join (a ++ b) sep = Join a sep ++ sep ++ Join b sep.
Proof.
  intros Ha Hb. induction a as [|x a IH]; [done|]. destruct (decide (a = [])) as [->|Hn]; [cbn [app]; by rewrite Join_cons|].
  rewrite (Join_cons x a), <- !app_assoc, <- IH by done. cbn [app]. apply Join_cons. by destruct a.
Qed.

Lemma Join_abs a b : Forall good a -> Forall good b -> filepath_Join (abs a) (Join b "/") = abs (a ++ b).
Proof.
  intros Ha Hb. unfold filepath_Join. rewrite bool_decide_false by discriminate. unfold filepath_Clean.
  change (HasPrefix (abs a ++ "/" ++ Join b "/") "/") with true.
  assert (foldl (clean_step true) [] (split_byte "/" (abs a ++ "/" ++ Join b "/")) = rev (a ++ b)) as ->.
  { assert (forall l, l <> [] -> Forall (fun e => "/"%byte ∉ e) l -> split_byte "/" (Join l "/" ++ "/" ++ Join b "/") = l ++ match b with [] => [[]] | _ => b end) as Hs.
    { intros l Hl Hf. destruct b as [|y b]; [|rewrite <- Join_app by done; apply split_byte_Join; [by destruct l|apply Forall_app; split; [done|by apply good_sep]]].
      change (Join l "/" ++ "/" ++ Join [] "/") with (Join l "/" ++ "/" ++ Join [[]] "/"). rewrite <- Join_app by done.
      apply split_byte_Join; [by destruct l|]. apply Forall_app. split; [done|]. apply Forall_singleton. set_solver. }
    assert (foldl (clean_step true) (rev a) match b with [] => [[]] | _ => b end = rev (a ++ b)) as Hb'.
    { rewrite rev_app_distr. destruct b as [|y b]; [done|]. by apply clean_good. }
    unfold abs. change (bs "/" ++ Join a "/") with ("/"%byte :: Join a "/"). cbn [app split_byte]. rewrite byte_eqb_refl.
    destruct a as [|x a].
    - change (split_byte "/" (Join [] "/" ++ "/" ++ Join b "/")) with ([] :: split_byte "/" (Join b "/")). cbn [foldl].
      change (clean_step true (clean_step true [] []) []) with (@nil gostring). destruct b as [|y b]; [reflexivity|].
      rewrite split_byte_Join by (done || by apply good_sep). exact Hb'.
    - rewrite Hs by (done || by apply good_sep). cbn [foldl]. change (clean_step true [] []) with (@nil gostring).
      rewrite foldl_app, (clean_good true (x :: a) Ha), app_nil_r. exact Hb'. }
  rewrite rev_involutive. reflexivity.
Qed.

Lemma abs_inj a b : Forall good a -> Forall good b -> abs a = abs b -> a = b.
Proof. intros Ha Hb H. rewrite <- (els_abs a), <- (els_abs b) by done. by rewrite H. Qed.

Lemma strip_common_prefix b t : strip_common b (b ++ t) = ([], t).
Proof. induction b as [|x b IH]; [by destruct t|]. cbn [app strip_common]. by rewrite bool_decide_true. Qed.

(** A path under a folder. *)
Lemma Rel_under b t : Forall good b -> Forall good t ->
  filepath_Rel (abs b) (abs (b ++ t)) = Some (match t with [] => bs "." | _ => Join t "/" end).
Proof.
  intros Hb Ht. unfold filepath_Rel. rewrite !Clean_abs by (done || by apply Forall_app). destruct t as [|e t].
  { rewrite app_nil_r. by rewrite bool_decide_true. }
  rewrite bool_decide_false.
  2: { intros H%abs_inj; [|done|by apply Forall_app]. apply (f_equal length) in H. rewrite length_app in H. cbn in H. lia. }
  change (HasPrefix (abs b) "/") with true. change (HasPrefix (abs (b ++ e :: t)) "/") with true. cbn [Bool.eqb negb].
  rewrite !els_abs by (done || by apply Forall_app). by rewrite strip_common_prefix.
Qed.

(** A path that is not under a folder leaves it first. *)
Definition leaves (rel : gostring) : Prop := rel = bs ".." \/ HasPrefix rel "../" = true.

Lemma strip_common_spec b : forall t b' t', strip_common b t = (b', t') -> exists c, b = c ++ b' /\ t = c ++ t'.
Proof.
  induction b as [|x b IH]; intros t b' t' H.
  - exists []. destruct t; by simplify_eq/=.
  - destruct t as [|y t]; [exists []; by simplify_eq/=|]. cbn [strip_common] in H.
    destruct (decide (x = y)) as [->|E]; [|exists []; rewrite bool_decide_false in H by done; by simplify_eq].
    rewrite bool_decide_true in H by done. apply IH in H as (c & -> & ->). by exists (y :: c).
Qed.

Lemma Rel_outside b t : Forall good b -> Forall good t -> ~ (exists u, t = b ++ u) ->
  exists rel, filepath_Rel (abs b) (abs t) = Some rel /\ leaves rel.
Proof.
  intros Hb Ht Hn. unfold filepath_Rel. rewrite !Clean_abs by done. rewrite bool_decide_false.
  2: { intros ->%abs_inj; [|done..]. apply Hn. exists []. by rewrite app_nil_r. }
  change (HasPrefix (abs b) "/") with true. change (HasPrefix (abs t) "/") with true. cbn [Bool.eqb negb].
  rewrite !els_abs by done. destruct (strip_common b t) as [b' t'] eqn:E. apply strip_common_spec in E as (c & -> & ->).
  destruct b' as [|x b']; [destruct Hn; exists t'; by rewrite app_nil_r|].
  apply Forall_app in Hb as [_ Hb]. apply Forall_cons in Hb as [(_ & _ & _ & Hx) _]. rewrite (bool_decide_false _ Hx).
  eexists. split; [done|]. rewrite fmap_cons. cbn [app]. destruct (((fun _ => bs "..") <$> b') ++ t') as [|y l] eqn:El; [by left|].
  right. rewrite Join_cons by done. reflexivity.
Qed.

(** A relative path of elements does not leave. *)
Lemma Join_stays t : Forall good t -> ~ leaves (Join t "/").
Proof.
  intros Ht [H|H].
  - destruct t as [|e t]; [done|]. apply Forall_cons in Ht as [(He & Hs & _ & Hd) Ht].
    destruct t as [|f t]; [done|]. rewrite Join_cons in H by done.
    assert ("/"%byte ∈ bs "..") as Hin by (rewrite <- H; set_solver). revert Hin. apply (bool_decide_unpack _). vm_compute. exact I.
  - apply HasPrefix_spec in H as [u H]. assert (split_byte "/" (Join t "/") = bs ".." :: split_byte "/" u) as Hs.
    { rewrite H. change (bs "../" ++ u) with (bs ".." ++ "/"%byte :: u). apply split_byte_app. apply (bool_decide_unpack _). vm_compute. exact I. }
    destruct t as [|e t]; [done|]. rewrite split_byte_Join in Hs by (done || by apply good_sep).
    injection Hs as He _. apply Forall_cons in Ht as [(_ & _ & _ & Hd) _]. done.
Qed.

(** ** Directory and base *)

Lemma LastIndex_none e : "/"%byte ∉ e -> LastIndex e "/" = None.
Proof.
  induction e as [|b e IH]; [done|]. rewrite not_elem_of_cons. intros [Hb He]. cbn [LastIndex]. rewrite IH by done.
  change (bs "/") with ["/"%byte]. cbn [HasPrefix]. destruct (Byte.eqb "/" b) eqn:E; [|done]. by apply byte_eqb_eq in E.
Qed.

Lemma LastIndex_last s e : "/"%byte ∉ e -> LastIndex (s ++ "/"%byte :: e) "/" = Some (length s).
Proof.
  intros He. induction s as [|b s IH]; cbn [app LastIndex]; [by rewrite LastIndex_none|]. by rewrite IH.
Qed.

(** The text of a path that ends with an element: what stands before its last slash. *)
Lemma abs_snoc es e : exists d, abs (es ++ [e]) = d ++ "/"%byte :: e /\ (es <> [] -> d = abs es) /\ (es = [] -> d = []).
Proof.
  unfold abs. destruct (decide (es = [])) as [->|Hn]; [exists []; done|].
  exists (bs "/" ++ Join es "/"). rewrite Join_app by done. split; [by rewrite <- app_assoc|done].
Qed.

Lemma Dir_abs es e : Forall good (es ++ [e]) -> filepath_Dir (abs (es ++ [e])) = abs es.
Proof.
  intros H. apply Forall_app in H as [Hes He]. rewrite Forall_singleton in He. destruct (abs_snoc es e) as (d & E & Hd & Hd0).
  unfold filepath_Dir. rewrite E, LastIndex_last by apply He.
  replace (take (S (length d)) (d ++ "/"%byte :: e)) with (d ++ "/" ++ Join [] "/") by (rewrite firstn_app, firstn_all2, Nat.sub_succ_l, Nat.sub_diag by lia; reflexivity).
  destruct (decide (es = [])) as [->|Hn]; [rewrite Hd0 by done; reflexivity|]. rewrite Hd by done.
  pose proof (Join_abs es [] Hes (List.Forall_nil _)) as HJ. rewrite (app_nil_r es) in HJ. unfold filepath_Join in HJ. rewrite bool_decide_false in HJ by discriminate. exact HJ.
Qed.

Lemma after_slash_spec s e : "/"%byte ∉ e -> forall cur, after_slash cur (s ++ "/"%byte :: e) = e.
Proof.
  intros He. assert (forall l cur, "/"%byte ∉ l -> after_slash cur l = cur ++ l) as Hno.
  { induction l as [|b l IH]; intros cur Hl; [by rewrite app_nil_r|]. rewrite not_elem_of_cons in Hl. destruct Hl as [Hb Hl]. cbn [after_slash].
    destruct (Byte.eqb b "/") eqn:E; [apply byte_eqb_eq in E; congruence|]. rewrite IH by done. by rewrite <- app_assoc. }
  induction s as [|b s IH]; intros cur; cbn [app after_slash].
  - rewrite byte_eqb_refl. by apply Hno.
  - destruct (Byte.eqb b "/"); apply IH.
Qed.

Lemma TrimRight_slash s e : e <> [] -> "/"%byte ∉ e -> TrimRight (s ++ e) [bs "/"] = s ++ e.
Proof.
  intros Hne He. destruct e as [|b0 e0 _] using rev_ind; [done|]. unfold TrimRight. rewrite app_assoc, rev_app_distr. cbn [rev app].
  change (map _ [bs "/"]) with [["/"%byte]]. cbn [trim_left_skip List.find HasPrefix].
  destruct (Byte.eqb "/" b0) eqn:E; [apply byte_eqb_eq in E; set_solver|]. cbn [andb rev]. by rewrite rev_involutive.
Qed.

Lemma Base_abs es e : good e -> filepath_Base (abs (es ++ [e])) = e.
Proof.
  intros (Hne & Hs & _). destruct (abs_snoc es e) as (d & E & _). unfold filepath_Base. rewrite bool_decide_false by (rewrite E; by destruct d).
  rewrite E. replace (d ++ "/"%byte :: e) with ((d ++ ["/"%byte]) ++ e) by (by rewrite <- app_assoc). rewrite TrimRight_slash by done.
  rewrite <- app_assoc. cbn [app]. rewrite after_slash_spec by done. by rewrite (bool_decide_false _ Hne).
Qed.
