(* ===== verification/Policy.v ===== *)
(** What a workspace may be created with: the errors of internal/workspace, and the
    default-deny policy of internal/aped/policy.go. The links of the file system and the
    working directory are the host's. *)
From S2P Require Import Prelude Regex Markdown Spec Shell Paths Domains.

(** ** Errors (internal/workspace/backend.go, wireerror.go) *)

(** An error by the sentinel errors.Is finds in it; [Plain] wraps none. Messages are not
    modelled. *)
Inductive WErr := ErrUnsupported | ErrNotFound | ErrBusy | ErrValidation | ErrDeviceUnavailable | ErrPolicyDenied | Plain.
#[export] Instance WErr_eq : EqDecision WErr.
Proof. solve_decision. Defined.

Definition CodeUnsupported : gostring := "UNSUPPORTED".
Definition CodeNotFound : gostring := "NOT_FOUND".
Definition CodeBusy : gostring := "BUSY".
Definition CodeValidation : gostring := "VALIDATION".
Definition CodeDeviceUnavailable : gostring := "DEVICE_UNAVAILABLE".
Definition CodeDenied : gostring := "DENIED".

(** Code *)
Definition Code (err : option WErr) : gostring :=
  match err with
  | None => ""
  | Some ErrUnsupported => CodeUnsupported
  | Some ErrNotFound => CodeNotFound
  | Some ErrBusy => CodeBusy
  | Some ErrValidation => CodeValidation
  | Some ErrDeviceUnavailable => CodeDeviceUnavailable
  | Some ErrPolicyDenied => CodeDenied
  | Some Plain => ""
  end.

(** ErrorForCode *)
Definition ErrorForCode (code : gostring) : WErr :=
  if code =s CodeUnsupported then ErrUnsupported
  else if code =s CodeNotFound then ErrNotFound
  else if code =s CodeBusy then ErrBusy
  else if code =s CodeValidation then ErrValidation
  else if code =s CodeDeviceUnavailable then ErrDeviceUnavailable
  else if code =s CodeDenied then ErrPolicyDenied
  else Plain.

(** The first check that refuses. *)
Definition first_of (a b : option WErr) : option WErr := match a with Some e => Some e | None => b end.
Notation "a 'orelse' b" := (first_of a b) (at level 60, right associativity) : go_scope.

(** ** The wire's shapes (internal/workspace/types.go) *)

Record MountSpec := MkMountSpec { mt_Source : gostring; mt_Dest : gostring; mt_ReadOnly : bool }.
Record Device := MkDevice { dv_PCI : gostring; dv_USB : gostring }.

(** ** The policy *)

Record EgressPolicy := MkEgressPolicy { ep_Enabled : bool; ep_AllowedDomains : list gostring; ep_MaxDomains : Z }.
Record Limits := MkLimits { lm_MaxVCPUs : Z; lm_MaxMemMB : Z; lm_MaxWorkspaces : Z; lm_MaxMounts : Z }.
Record DevicePolicy := MkDevicePolicy { dp_PCI : list gostring; dp_USB : list gostring }.
Record Policy := MkPolicy { po_Images : list gostring; po_MountRoots : list gostring; po_MountRootsRO : list gostring;
  po_Limits : Limits; po_Devices : DevicePolicy; po_Egress : EgressPolicy }.

Record ResolvedCreate := MkResolvedCreate { rc_Image : gostring; rc_MountPath : gostring; rc_VCPUs : Z; rc_MemMB : Z;
  rc_Devices : list Device; rc_EgressDomains : list gostring; rc_Mounts : list MountSpec }.

(** Validate *)
Definition Validate (p : Policy) : bool :=
  let l := po_Limits p in
  negb ((lm_MaxVCPUs l <? 0) || (lm_MaxMemMB l <? 0) || (lm_MaxWorkspaces l <? 0) || (lm_MaxMounts l <? 0))%Z
  && negb (ep_MaxDomains (po_Egress p) <? 0)%Z
  && forallb validateDomainPattern (ep_AllowedDomains (po_Egress p)).

(** ** Paths of the host *)

(** os.Getwd and filepath.EvalSymlinks, [None] for an error. *)
Record PathHost := MkPathHost { ph_Getwd : option gostring; ph_EvalSymlinks : gostring -> option gostring }.

(** filepath.Abs *)
Definition filepath_Abs (h : PathHost) (p : gostring) : option gostring :=
  if filepath_IsAbs p then Some (filepath_Clean p)
  else match ph_Getwd h with Some wd => Some (filepath_Join wd p) | None => None end.

(** canonicalPath *)
Definition canonicalPath (h : PathHost) (p : gostring) : option gostring :=
  match filepath_Abs h p with
  | Some a => match ph_EvalSymlinks h a with Some r => Some (filepath_Clean r) | None => None end
  | None => None
  end.

(** pathUnder *)
Definition pathUnder (path root : gostring) : bool :=
  if path =s root then true
  else match filepath_Rel root path with
       | Some rel => (rel <>s "..") && negb (HasPrefix rel "../")
       | None => false
       end.

(** The guest's layout (internal/sandbox/descriptor.go). *)
Definition FrameworkDest : gostring := "/opt/apex-framework".
Definition GovernanceDest : gostring := "/opt/apex-governance".
Definition ApeBinRoot : gostring := "/opt/ape".
Definition ApeBinDest : gostring := ApeBinRoot ++ "/bin".

Section checks.
Context (ToLower : gostring -> gostring) (h : PathHost) (p : Policy).

(** Whether a root of [roots] that resolves holds [resolved]. *)
Definition root_holds (resolved root : gostring) : bool :=
  match canonicalPath h root with Some croot => pathUnder resolved croot | None => false end.

(** checkImage *)
Definition checkImage (image : gostring) : option WErr :=
  if slices_Contains (po_Images p) image then None else Some ErrPolicyDenied.

(** checkMount; protectHomeHint only words its error. *)
Definition checkMount (mountPath : gostring) : option WErr :=
  if mountPath =s "" then None
  else match canonicalPath h mountPath with
       | None => Some ErrValidation
       | Some resolved =>
           if existsb (root_holds resolved) (po_MountRoots p ++ po_MountRootsRO p) then None else Some ErrPolicyDenied
       end.

(** readOnlyRootFor *)
Definition readOnlyRootFor (source : gostring) : bool :=
  match canonicalPath h source with
  | None => false
  | Some resolved => existsb (root_holds resolved) (po_MountRootsRO p)
  end.

(** The body of checkMounts' loop after the checks of the destination. *)
Definition check_bind (m : MountSpec) : option WErr :=
  if (mt_Dest m =s FrameworkDest) || (mt_Dest m =s GovernanceDest) then
    if mt_ReadOnly m then None else Some ErrPolicyDenied
  else if mt_Dest m =s ApeBinDest then
    if mt_ReadOnly m then None else Some ErrPolicyDenied
  else
    checkMount (mt_Source m) orelse
    (if negb (mt_ReadOnly m) && readOnlyRootFor (mt_Source m) then Some ErrPolicyDenied else None).

Fixpoint mounts_loop (seen : gset gostring) (mounts : list MountSpec) : option WErr :=
  match mounts with
  | [] => None
  | m :: ms =>
      if TrimSpace (mt_Dest m) =s "" then Some ErrValidation
      else if bool_decide (mt_Dest m ∈ seen) then Some ErrValidation
      else check_bind m orelse mounts_loop ({[mt_Dest m]} ∪ seen) ms
  end.

(** A ceiling: zero is none. *)
Definition over (ceiling n : Z) : bool := (0 <? ceiling)%Z && (ceiling <? n)%Z.

(** checkMounts *)
Definition checkMounts (mounts : list MountSpec) : option WErr :=
  if over (lm_MaxMounts (po_Limits p)) (Z.of_nat (length mounts)) then Some ErrPolicyDenied else mounts_loop ∅ mounts.

(** checkLimits *)
Definition checkLimits (rc : ResolvedCreate) (currentCount : Z) : option WErr :=
  let l := po_Limits p in
  if over (lm_MaxVCPUs l) (rc_VCPUs rc) then Some ErrPolicyDenied
  else if over (lm_MaxMemMB l) (rc_MemMB rc) then Some ErrPolicyDenied
  else if ((0 <? lm_MaxWorkspaces l) && (lm_MaxWorkspaces l <=? currentCount))%Z then Some ErrPolicyDenied
  else None.

(** checkEgress *)
Definition checkEgress (domains : list gostring) : option WErr :=
  let e := po_Egress p in
  match domains with
  | [] => None
  | _ =>
      if negb (ep_Enabled e) then Some ErrPolicyDenied
      else if over (ep_MaxDomains e) (Z.of_nat (length domains)) then Some ErrPolicyDenied
      else match snd (IntersectDomains ToLower domains (ep_AllowedDomains e)) with [] => None | _ => Some ErrPolicyDenied end
  end.

Definition checkDevice (d : Device) : option WErr :=
  if (dv_PCI d <>s "") && (dv_USB d <>s "") then Some ErrValidation
  else if dv_PCI d <>s "" then (if slices_Contains (dp_PCI (po_Devices p)) (dv_PCI d) then None else Some ErrPolicyDenied)
  else if dv_USB d <>s "" then (if slices_Contains (dp_USB (po_Devices p)) (dv_USB d) then None else Some ErrPolicyDenied)
  else Some ErrValidation.

(** checkDevices *)
Fixpoint checkDevices (devices : list Device) : option WErr :=
  match devices with [] => None | d :: ds => checkDevice d orelse checkDevices ds end.

(** CheckCreate *)
Definition CheckCreate (rc : ResolvedCreate) (currentCount : Z) : option WErr :=
  checkImage (rc_Image rc) orelse checkMount (rc_MountPath rc) orelse checkMounts (rc_Mounts rc) orelse
  checkLimits rc currentCount orelse checkEgress (rc_EgressDomains rc) orelse checkDevices (rc_Devices rc).

End checks.
