(* ===== verification/PolicyFacts.v ===== *)
(** What the policy authorizes, declaratively: CheckCreate passes exactly those creates. *)
From S2P Require Import Prelude Regex Markdown Spec Shell Paths Domains DomainFacts Policy.

(** ** Errors *)

(** A sentinel survives the wire. *)
Lemma ErrorForCode_Code e : ErrorForCode (Code (Some e)) = e.
Proof. by destruct e. Qed.

Lemma first_of_None a b : a orelse b = None <-> a = None /\ b = None.
Proof. destruct a; naive_solver. Qed.

Lemma deny_None (b : bool) (e : WErr) : (if b then Some e else None) = None <-> b = false.
Proof. by destruct b. Qed.

Lemma allow_None (b : bool) (e : WErr) : (if b then None else Some e) = None <-> b = true.
Proof. by destruct b. Qed.

(** ** Paths *)

(** What the checks rely on of the host: the working directory, and what an absolute path
    resolves to, are absolute. *)
Class AbsHost (h : PathHost) : Prop := {
  getwd_abs : forall wd, ph_Getwd h = Some wd -> filepath_IsAbs wd = true;
  links_abs : forall p q, filepath_IsAbs p = true -> ph_EvalSymlinks h p = Some q -> filepath_IsAbs q = true }.

(** A path's elements, after its links are followed. *)
Definition located (h : PathHost) (path : gostring) (es : list gostring) : Prop :=
  Forall good es /\ canonicalPath h path = Some (abs es).

(** [path] is [root], or lies in it. *)
Definition under (h : PathHost) (path root : gostring) : Prop :=
  exists rs u, located h root rs /\ located h path (rs ++ u).

Lemma pathUnder_spec a b : Forall good a -> Forall good b -> pathUnder (abs a) (abs b) = true <-> exists u, a = b ++ u.
Proof.
  intros Ha Hb. unfold pathUnder. destruct (decide (abs a = abs b)) as [E|E].
  { rewrite (bool_decide_true _ E). apply abs_inj in E as ->; [|done..]. split; [|done]. exists []. by rewrite app_nil_r. }
  rewrite (bool_decide_false _ E). split.
  - intros H. destruct (decide (b `prefix_of` a)) as [Hp|Hp]; [exact Hp|].
    destruct (Rel_outside b a Hb Ha Hp) as (rel & Hr & [->|Hl]); rewrite Hr in H; [done|]. rewrite Hl in H. by destruct (rel <>s "..").
  - intros [u ->]. apply Forall_app in Ha as [_ Hu]. rewrite Rel_under by done.
    destruct u as [|e u]; [by rewrite app_nil_r in E|]. pose proof (Join_stays _ Hu) as Hl. unfold leaves in Hl.
    rewrite bool_decide_false by tauto. destruct (HasPrefix _ _); [tauto|done].
Qed.

Section host.
Context (h : PathHost) `{!AbsHost h}.

Lemma canonical_located p c : canonicalPath h p = Some c -> exists es, c = abs es /\ located h p es.
Proof.
  intros Hc. unfold located. rewrite Hc. revert Hc. unfold canonicalPath. destruct (filepath_Abs h p) as [a|] eqn:Ea; [|done].
  destruct (ph_EvalSymlinks h a) as [q|] eqn:Eq; [|done]. intros [= <-].
  assert (filepath_IsAbs a = true) as Ha.
  { unfold filepath_Abs in Ea. destruct (filepath_IsAbs p) eqn:Ep.
    - injection Ea as <-. apply Clean_is_abs in Ep as (es & _ & ->). reflexivity.
    - destruct (ph_Getwd h) as [wd|] eqn:Ew; [|done]. injection Ea as <-. apply getwd_abs in Ew. unfold filepath_Join.
      rewrite bool_decide_false by (by intros ->). apply HasPrefix_spec in Ew as [w ->].
      destruct (Clean_is_abs ((bs "/" ++ w) ++ "/" ++ p)) as (es & _ & ->); reflexivity. }
  destruct (Clean_is_abs q) as (es & Hg & E); [by eapply links_abs|]. exists es. by rewrite E.
Qed.

Lemma located_inj p a b : located h p a -> located h p b -> a = b.
Proof. intros [Ha Ea] [Hb Eb]. apply abs_inj; [done..|]. congruence. Qed.

Lemma root_holds_spec p es root : located h p es -> root_holds h (abs es) root = true <-> under h p root.
Proof.
  intros Hp. unfold root_holds, under. destruct (canonicalPath h root) as [c|] eqn:E.
  - apply canonical_located in E as (rs & -> & Hr). rewrite pathUnder_spec by (apply Hp || apply Hr). split.
    + intros [u ->]. by exists rs, u.
    + intros (rs' & u & Hr' & Hp'). rewrite (located_inj root rs rs') by done. exists u. by eapply located_inj.
  - split; [done|]. intros (rs & u & [_ Hr] & _). congruence.
Qed.

Lemma roots_hold_spec p es roots : located h p es ->
  existsb (root_holds h (abs es)) roots = true <-> exists root, root ∈ roots /\ under h p root.
Proof. intros Hp. rewrite existsb_exists. setoid_rewrite <- list_elem_of_In. by setoid_rewrite (root_holds_spec p es). Qed.

Lemma under_located p root : under h p root -> exists es, located h p es.
Proof. intros (rs & u & _ & Hp). by exists (rs ++ u). Qed.

(** ** What is permitted *)

Context (ToLower : gostring -> gostring) (p : Policy).

(** A ceiling holds; zero is none. *)
Definition within (ceiling n : Z) : Prop := (ceiling <= 0 \/ n <= ceiling)%Z.

Lemma over_false ceiling n : over ceiling n = false <-> within ceiling n.
Proof. unfold over, within. rewrite andb_false_iff, !Z.ltb_ge. lia. Qed.

(** A source is none, or lies after its links under a root. *)
Definition source_ok (s : gostring) : Prop := s = [] \/ exists root, root ∈ po_MountRoots p ++ po_MountRootsRO p /\ under h s root.

(** The destinations of aped's own mounts. *)
Definition system_dest (d : gostring) : Prop := d ∈ [FrameworkDest; GovernanceDest; ApeBinDest].
#[export] Instance system_dest_dec d : Decision (system_dest d).
Proof. unfold system_dest. apply _. Defined.

Record bind_ok (m : MountSpec) : Prop := {
  bk_system : system_dest (mt_Dest m) -> mt_ReadOnly m = true;
  bk_source : ~ system_dest (mt_Dest m) -> source_ok (mt_Source m);
  bk_writable : ~ system_dest (mt_Dest m) -> mt_ReadOnly m = false ->
    ~ exists root, root ∈ po_MountRootsRO p /\ under h (mt_Source m) root }.

Definition domain_ok (d : gostring) : Prop := norm ToLower d <> [] ->
  exists a, a ∈ ep_AllowedDomains (po_Egress p) /\ norm ToLower a <> [] /\ domainCovers (norm ToLower a) (norm ToLower d) = true.

Definition device_ok (d : Device) : Prop :=
  (dv_PCI d <> [] /\ dv_USB d = [] /\ dv_PCI d ∈ dp_PCI (po_Devices p)) \/
  (dv_PCI d = [] /\ dv_USB d <> [] /\ dv_USB d ∈ dp_USB (po_Devices p)).

(** A create the policy permits beside [n] workspaces. *)
Record Permitted (rc : ResolvedCreate) (n : Z) : Prop := {
  pm_image : rc_Image rc ∈ po_Images p;
  pm_project : source_ok (rc_MountPath rc);
  pm_mounts : within (lm_MaxMounts (po_Limits p)) (Z.of_nat (length (rc_Mounts rc)));
  pm_dests : Forall (fun m => TrimSpace (mt_Dest m) <> []) (rc_Mounts rc) /\ NoDup (mt_Dest <$> rc_Mounts rc);
  pm_binds : Forall bind_ok (rc_Mounts rc);
  pm_vcpus : within (lm_MaxVCPUs (po_Limits p)) (rc_VCPUs rc);
  pm_mem : within (lm_MaxMemMB (po_Limits p)) (rc_MemMB rc);
  pm_count : within (lm_MaxWorkspaces (po_Limits p)) (n + 1);
  pm_egress : rc_EgressDomains rc <> [] ->
    ep_Enabled (po_Egress p) = true /\ within (ep_MaxDomains (po_Egress p)) (Z.of_nat (length (rc_EgressDomains rc))) /\
    Forall domain_ok (rc_EgressDomains rc);
  pm_devices : Forall device_ok (rc_Devices rc) }.

Lemma checkMount_ok s : checkMount h p s = None <-> source_ok s.
Proof.
  unfold checkMount, source_ok. destruct (decide (s = bs "")) as [E|E].
  { rewrite (bool_decide_true _ E). split; [by left|done]. }
  rewrite (bool_decide_false _ E). change (bs "") with (@nil byte) in E. destruct (canonicalPath h s) as [c|] eqn:Ec.
  - apply canonical_located in Ec as (es & -> & Hs). rewrite allow_None, (roots_hold_spec s es) by done. tauto.
  - split; [done|]. intros [?|(root & _ & Hu)]; [done|]. apply under_located in Hu as (es & _ & Hs). congruence.
Qed.

Lemma readOnlyRootFor_spec s : readOnlyRootFor h p s = true <-> exists root, root ∈ po_MountRootsRO p /\ under h s root.
Proof.
  unfold readOnlyRootFor. destruct (canonicalPath h s) as [c|] eqn:Ec.
  - apply canonical_located in Ec as (es & -> & Hs). by apply roots_hold_spec.
  - split; [done|]. intros (root & _ & Hu). apply under_located in Hu as (es & _ & Hs). congruence.
Qed.

Lemma check_bind_ok m : check_bind h p m = None <-> bind_ok m.
Proof.
  unfold check_bind. destruct (decide (system_dest (mt_Dest m))) as [Hs|Hs].
  - assert (check_bind h p m = if mt_ReadOnly m then None else Some ErrPolicyDenied) as E.
    { unfold check_bind. unfold system_dest in Hs. rewrite !elem_of_cons, elem_of_nil in Hs.
      destruct Hs as [->|[->|[->|[]]]]; reflexivity. }
    unfold check_bind in E. rewrite E, allow_None. split; [|intros []; auto]. intros H. by split.
  - unfold system_dest in Hs. rewrite !elem_of_cons, elem_of_nil in Hs. rewrite !bool_decide_false by tauto. cbn [orb].
    rewrite first_of_None, checkMount_ok, deny_None, andb_false_iff, negb_false_iff.
    assert (~ system_dest (mt_Dest m)) as Hn by (unfold system_dest; by rewrite !elem_of_cons, elem_of_nil).
    pose proof (readOnlyRootFor_spec (mt_Source m)) as Hr. destruct (readOnlyRootFor h p (mt_Source m)); split.
    + intros [H1 H2]. split; [done|auto|]. intros _ HR. destruct H2; congruence.
    + intros [H1 H2 H3]. split; [auto|]. left. destruct (mt_ReadOnly m); [done|]. exfalso. by apply H3, Hr.
    + intros [H1 H2]. split; [done|auto|]. intros _ _ Hu. by apply Hr in Hu.
    + intros [H1 H2 H3]. split; [auto|by right].
Qed.

Lemma mounts_loop_ok ms : forall seen, mounts_loop h p seen ms = None <->
  Forall (fun m => TrimSpace (mt_Dest m) <> []) ms /\ NoDup (mt_Dest <$> ms) /\ Forall bind_ok ms /\ Forall (fun m => mt_Dest m ∉ seen) ms.
Proof.
  induction ms as [|m ms IH]; intros seen; cbn [mounts_loop]; [split; [|done]; repeat split; constructor|].
  rewrite fmap_cons, NoDup_cons, !Forall_cons. destruct (decide (TrimSpace (mt_Dest m) = bs "")) as [E|E].
  { rewrite (bool_decide_true _ E). change (bs "") with (@nil byte) in E. split; [done|tauto]. }
  rewrite (bool_decide_false _ E). change (bs "") with (@nil byte) in E. destruct (decide (mt_Dest m ∈ seen)) as [Hs|Hs]; [rewrite (bool_decide_true _ Hs); split; [done|tauto]|].
  rewrite (bool_decide_false _ Hs), first_of_None, check_bind_ok, IH.
  assert (Forall (fun x => mt_Dest x ∉ {[mt_Dest m]} ∪ seen) ms <-> (mt_Dest m ∉ mt_Dest <$> ms) /\ Forall (fun x => mt_Dest x ∉ seen) ms) as ->.
  { rewrite !Forall_forall. set_solver. }
  tauto.
Qed.

Lemma checkDevice_ok d : checkDevice p d = None <-> device_ok d.
Proof.
  unfold checkDevice, device_ok, slices_Contains. change (bs "") with (@nil byte).
  destruct (decide (dv_PCI d = [])) as [E1|E1], (decide (dv_USB d = [])) as [E2|E2];
    rewrite ?(bool_decide_true _ E1), ?(bool_decide_false _ E1), ?(bool_decide_true _ E2), ?(bool_decide_false _ E2); cbn [negb andb];
    rewrite ?allow_None, ?bool_decide_eq_true; naive_solver.
Qed.

Lemma checkDevices_ok ds : checkDevices p ds = None <-> Forall device_ok ds.
Proof. induction ds as [|d ds IH]; cbn [checkDevices]; [split; [constructor|done]|]. by rewrite first_of_None, checkDevice_ok, IH, Forall_cons. Qed.

Lemma checkEgress_ok ds : checkEgress ToLower p ds = None <->
  (ds <> [] -> ep_Enabled (po_Egress p) = true /\ within (ep_MaxDomains (po_Egress p)) (Z.of_nat (length ds)) /\ Forall domain_ok ds).
Proof.
  unfold checkEgress. destruct ds as [|d0 ds0]; [done|]. set (ds := d0 :: ds0). assert (ds <> []) as Hne by done. clearbody ds.
  transitivity (ep_Enabled (po_Egress p) = true /\ within (ep_MaxDomains (po_Egress p)) (Z.of_nat (length ds)) /\ Forall domain_ok ds); [|tauto].
  rewrite <- over_false. destruct (ep_Enabled _); cbn [negb]; [|naive_solver]. destruct (over _ _); [naive_solver|].
  transitivity (snd (IntersectDomains ToLower ds (ep_AllowedDomains (po_Egress p))) = []); [by case_match|].
  assert (snd (IntersectDomains ToLower ds (ep_AllowedDomains (po_Egress p))) = [] <-> Forall domain_ok ds) as ->; [|tauto].
  cbn [IntersectDomains snd]. rewrite filter_nil_iff, Forall_forall. unfold domain_ok.
  setoid_rewrite elem_of_SortedDomains. setoid_rewrite negb_false_iff. setoid_rewrite authorized_spec.
  setoid_rewrite elem_of_SortedDomains. naive_solver.
Qed.

Lemma CheckCreate_ok rc n : CheckCreate ToLower h p rc n = None <-> Permitted rc n.
Proof.
  unfold CheckCreate. rewrite !first_of_None. unfold checkImage, checkMounts, checkLimits, slices_Contains.
  rewrite allow_None, bool_decide_eq_true, checkMount_ok, checkEgress_ok, checkDevices_ok.
  assert (forall (b : bool) x, (if b then Some ErrPolicyDenied else x) = None <-> b = false /\ x = None) as Hif by (intros [] ?; naive_solver).
  rewrite !Hif, !over_false, mounts_loop_ok, andb_false_iff, Z.ltb_ge, Z.leb_gt.
  assert (forall c, (c <= 0 \/ n < c)%Z <-> within c (n + 1)) as Hc by (unfold within; lia). rewrite Hc.
  assert (Forall (fun m => mt_Dest m ∉ (∅ : gset gostring)) (rc_Mounts rc)) as Hall by (apply Forall_forall; set_solver).
  split; [intros H; split; tauto|intros []; tauto].
Qed.

End host.

(** The hosts a permitted list of domains reaches, the policy's own domains reach. *)
Lemma permitted_hosts ToLower (p : Policy) ds host : Forall (domain_ok ToLower p) ds ->
  Allowed ToLower (NewMatcher ToLower ds) host = true -> Allowed ToLower (NewMatcher ToLower (ep_AllowedDomains (po_Egress p))) host = true.
Proof.
  rewrite Forall_forall, !Allowed_iff. intros Hd (d & Hin & Hne & Hm). destruct (Hd d Hin Hne) as (a & Ha & Hane & Hc).
  exists a. split; [done|]. split; [done|]. by eapply covers_matches.
Qed.

(** C27: CheckCreate passes exactly the creates the policy permits: a listed image; a
    project and mounts from under allowed roots after symbolic links, each at its own
    destination, writable only outside the read-only roots, the daemon's own mounts
    read-only; resources, mounts and workspaces within their ceilings; listed devices; and
    egress, where it is enabled, to domains the allowed ones cover. Every host such
    domains let a workspace reach is one the policy's own domains let through. *)
Theorem CheckCreate_permits (h : PathHost) (ToLower : gostring -> gostring) (p : Policy) (rc : ResolvedCreate) (n : Z) :
  AbsHost h ->
  (CheckCreate ToLower h p rc n = None <-> Permitted h ToLower p rc n) /\
  (CheckCreate ToLower h p rc n = None -> forall host,
     Allowed ToLower (NewMatcher ToLower (rc_EgressDomains rc)) host = true ->
     Allowed ToLower (NewMatcher ToLower (ep_AllowedDomains (po_Egress p))) host = true).
Proof.
  intros Hh. split; [by apply CheckCreate_ok|]. rewrite CheckCreate_ok by done. intros Hp host.
  destruct (decide (rc_EgressDomains rc = [])) as [->|Hne]; [done|]. apply permitted_hosts. by apply (pm_egress _ _ _ _ _ Hp Hne).
Qed.
