(* ===== verification/Workspaces.v ===== *)
(** A workspace to provision: WorkspaceSpec of internal/sandbox/kata.go, the binds the
    containerd driver gives the guest (containerd_driver_linux.go), and the guest paths
    and names of descriptor.go. *)
From S2P Require Import Prelude Regex Markdown Spec Shell Paths Domains Policy.

(** ** The spec *)

Record BindMount := MkBindMount { bm_Source : gostring; bm_Dest : gostring; bm_ReadOnly : bool }.
Record Composition := MkComposition { cp_StagingDir : gostring; cp_GuestHome : gostring; cp_Binds : list BindMount; cp_Env : list gostring }.

Definition MountHostFS : gostring := "host-fs".
Definition MountVolume : gostring := "volume".
Definition MountEphemeral : gostring := "ephemeral".
Definition NetworkNone : gostring := "none".
Definition DefaultProjectDest : gostring := "/workspace".

Record WorkspaceSpec := MkWorkspaceSpec { sp_Name : gostring; sp_Image : gostring; sp_VMM : gostring; sp_Mount : gostring;
  sp_ProjectRoot : gostring; sp_ProjectDest : gostring; sp_Volume : gostring; sp_Comp : option Composition;
  sp_HTTPSProxy : gostring; sp_SSHPort : Z; sp_Network : gostring; sp_Env : list gostring; sp_Command : list gostring;
  sp_Mounts : list MountSpec; sp_Cwd : gostring; sp_ApeVersion : gostring; sp_IdleStop : gostring;
  sp_EgressDomains : list gostring; sp_NetnsPath : gostring }.

Definition set_netns (s : WorkspaceSpec) (path : gostring) : WorkspaceSpec :=
  MkWorkspaceSpec (sp_Name s) (sp_Image s) (sp_VMM s) (sp_Mount s) (sp_ProjectRoot s) (sp_ProjectDest s) (sp_Volume s) (sp_Comp s)
    (sp_HTTPSProxy s) (sp_SSHPort s) (sp_Network s) (sp_Env s) (sp_Command s) (sp_Mounts s) (sp_Cwd s) (sp_ApeVersion s)
    (sp_IdleStop s) (sp_EgressDomains s) path.

(** ** The guest's layout *)

Definition WorkspaceRoot : gostring := "/workspace".
Definition UserMountRoot : gostring := "/mnt".
Definition DefaultGuestHome : gostring := "/sandbox/home".
Definition reservedDests : list gostring := [WorkspaceRoot; FrameworkDest; GovernanceDest; ApeBinRoot; DefaultGuestHome].

(** HasRepoMounts *)
Definition HasRepoMounts (s : WorkspaceSpec) : bool :=
  existsb (fun m => (mt_Dest m =s WorkspaceRoot) || HasPrefix (mt_Dest m) (WorkspaceRoot ++ "/")) (sp_Mounts s).

(** HasEgress *)
Definition HasEgress (s : WorkspaceSpec) : bool :=
  match sp_EgressDomains s with [] => false | _ => TrimSpace (sp_HTTPSProxy s) <>s "" end.

(** containerdMounts: the binds the guest gets, in order. *)
Definition containerdMounts (s : WorkspaceSpec) : list BindMount :=
  let dest := if sp_ProjectDest s =s "" then DefaultProjectDest else sp_ProjectDest s in
  (if sp_Mount s =s MountHostFS then
     if (TrimSpace (sp_ProjectRoot s) <>s "") && negb (HasRepoMounts s) then [MkBindMount (sp_ProjectRoot s) dest false] else []
   else if sp_Mount s =s MountVolume then
     if TrimSpace (sp_Volume s) <>s "" then [MkBindMount (sp_Volume s) dest false] else []
   else []) ++
  match sp_Comp s with
  | Some c => MkBindMount (cp_StagingDir c) (cp_GuestHome c) false :: cp_Binds c
  | None => []
  end ++
  ((fun m => MkBindMount (mt_Source m) (mt_Dest m) (mt_ReadOnly m)) <$> sp_Mounts s).

(** validateGuestDest, ValidateUserMountDest: whether a user's mount may have this
    destination. *)
Definition validateGuestDest (dest : gostring) : bool :=
  let d := TrimSpace dest in
  (d <>s "") && HasPrefix d "/" && (filepath_Clean d =s d) &&
  forallb (fun res => negb ((d =s res) || HasPrefix d (res ++ "/"))) reservedDests.

(** ValidateMountName *)
Definition ValidateMountName (name : gostring) : bool :=
  negb ((name =s "") || (name =s ".") || (name =s "..")) && negb (existsb (fun c => Byte.eqb c "/" || Byte.eqb c "\") name).

(** RepoDest *)
Definition RepoDest (name : gostring) : gostring := filepath_Join WorkspaceRoot name.

(** defaultDest *)
Definition defaultDest (dest source : gostring) : gostring :=
  let d := TrimSpace dest in
  if d <>s "" then filepath_Clean d else filepath_Join UserMountRoot (filepath_Base source).
