(* ===== verification/Executor.v ===== *)
(** The privileged executor of internal/aped: exec.go's command server with its audit
    trail (audit.go, command.go) and its interactive sessions (execstream.go). The
    backend, the provisioner, the network helper and the registry are the host's; what
    the executor asks of them is recorded act by act. *)
From S2P Require Import Prelude Regex Markdown Spec Shell Paths Domains Policy Workspaces.

(** ** Commands (command.go) *)

Definition OpCapabilities : gostring := "capabilities".
Definition OpCreate : gostring := "create".
Definition OpStart : gostring := "start".
Definition OpStop : gostring := "stop".
Definition OpFreeze : gostring := "freeze".
Definition OpUnfreeze : gostring := "unfreeze".
Definition OpSuspend : gostring := "suspend".
Definition OpResume : gostring := "resume".
Definition OpExec : gostring := "exec".
Definition OpAttach : gostring := "attach".
Definition OpSnapshot : gostring := "snapshot".
Definition OpList : gostring := "list".
Definition OpInspect : gostring := "inspect".
Definition OpDestroy : gostring := "destroy".

Record CreateCommand := MkCreateCommand { cc_Spec : WorkspaceSpec; cc_Caller : gostring }.
Record DestroyRequest := MkDestroyRequest { dr_Force : bool; dr_RemoveVolume : bool }.
Record ExecRequest := MkExecRequest { er_Cmd : list gostring; er_TTY : bool; er_Env : list gostring }.
Record AttachRequest := MkAttachRequest { at_Shell : gostring; at_TTY : bool; at_Cmd : list gostring }.
Record AttachStreamCommand := MkAttachStream { as_Exec : option ExecRequest; as_Attach : option AttachRequest; as_Forward : option Z }.

Record Command := MkCommand { cm_Op : gostring; cm_ID : gostring; cm_Create : option CreateCommand;
  cm_Destroy : option DestroyRequest; cm_Exec : option ExecRequest; cm_Attach : option AttachStreamCommand; cm_Snapshot : option gostring }.

(** ** The trail (audit.go); a record's time is the clock's. *)

Record Peer := MkPeer { pe_UID : Z; pe_PID : Z }.
#[export] Instance Peer_eq : EqDecision Peer.
Proof. solve_decision. Defined.

Record ResolvedArgs := MkResolvedArgs { ra_WorkspaceID : gostring; ra_Image : gostring; ra_Mount : gostring; ra_EgressDomains : list gostring }.
Record AuditOutcome := MkAuditOutcome { ao_OK : bool; ao_VMID : gostring; ao_Error : option WErr }.
Record AuditRecord := MkAuditRecord { ar_BoundaryPeer : option Peer; ar_Caller : gostring; ar_Op : gostring; ar_Resolved : ResolvedArgs;
  ar_Rule : gostring; ar_Decision : gostring; ar_Outcome : AuditOutcome }.

Definition DecisionAllow : gostring := "allow".
Definition DecisionDeny : gostring := "deny".

(** What a reply carries besides its code. *)
Inductive Payload := PCapabilities | PWorkspace (id : gostring) | POK | PExit (code : Z) | PSnapshot (id : gostring) | PList (ids : list gostring) | PStatus.
Record Response := MkResponse { rs_Code : gostring; rs_Payload : option Payload; rs_Audit : list AuditRecord }.

(** errorResponse *)
Definition errorResponse (e : WErr) : Response :=
  let code := Code (Some e) in MkResponse (if code =s "" then CodeValidation else code) None [].
Definition okResponse (v : Payload) : Response := MkResponse "" (Some v) [].
(** respondValue *)
Definition respondValue (r : WErr + Payload) : Response := match r with inl e => errorResponse e | inr v => okResponse v end.

(** asError *)
Definition asError (r : Response) : option WErr := if rs_Code r =s "" then None else Some (ErrorForCode (rs_Code r)).

(** strconv.Atoi *)
Definition Atoi (s : gostring) : option Z :=
  if HasPrefix s "-" then
    let t := drop 1 s in
    if t =s "" then None
    else match digits_value 0 t with Some n => if (n <=? 2 ^ 63)%Z then Some (- n)%Z else None | None => None end
  else Atoi_digits (TrimPrefix s "+").

(** ParseProxyHostPort (internal/sandbox/egressnet.go); [URLHost] is url.Parse's host. *)
Definition ParseProxyHostPort (URLHost : gostring -> option gostring) (proxyURL : gostring) : option (gostring * Z) :=
  let raw := TrimSpace proxyURL in
  if raw =s "" then None
  else
    let raw := if Contains raw "//" then raw else "http://" ++ raw in
    match URLHost raw with
    | None => None
    | Some host =>
        match net_SplitHostPort host with
        | None => None
        | Some (hh, p) =>
            match Atoi p with
            | Some n => if ((n <=? 0) || (65535 <? n))%Z then None else Some (hh, n)
            | None => None
            end
        end
    end.

(** ** The host, and what is asked of it *)

Inductive Verb := VStart | VStop | VFreeze | VUnfreeze | VSuspend | VResume.

(** The network helper: EnsureNetns and DeleteNetns. *)
Record NetnsProvider := MkNetns { nn_Ensure : gostring -> Z -> WErr + gostring; nn_Delete : gostring -> option WErr }.

Record Host := MkHost {
  ho_Capabilities : option WErr;
  ho_List : WErr + list gostring;
  ho_Inspect : gostring -> option WErr;
  ho_Verb : Verb -> gostring -> option WErr;
  ho_Exec : gostring -> ExecRequest -> WErr + Z;
  ho_Snapshot : gostring -> gostring -> WErr + gostring;
  ho_Destroy : gostring -> DestroyRequest -> option WErr;
  ho_Provision : WorkspaceSpec -> WErr + gostring;
  ho_Interactive : bool;
  ho_OpenExec : gostring -> ExecRequest -> option WErr;
  ho_OpenAttach : gostring -> AttachRequest -> option WErr;
  ho_Touch : option (gostring -> option WErr);
  ho_Netns : option NetnsProvider;
  (** url.Parse's host *)
  ho_URLHost : gostring -> option gostring }.

(** An act of the executor. *)
Inductive Act :=
| AList (n : option Z)
| ARead (op : gostring)
| AVerb (v : Verb) (id : gostring)
| AExec (id : gostring) (req : ExecRequest)
| AOpenExec (id : gostring) (req : ExecRequest)
| AOpenAttach (id : gostring) (req : AttachRequest)
| ASnapshot (id : gostring)
| ADestroy (id : gostring) (req : DestroyRequest)
| AProvision (spec : WorkspaceSpec)
| AEnsureNetns (name : gostring) (port : Z)
| ADeleteNetns (name : gostring)
| ATouch (id : gostring).

(** The log an Auditor writes to: none, or a file, with whether it takes the n-th record
    it is handed (a write that fails is taken to leave nothing of it). *)
Definition Sink : Type := option (nat -> bool).
Definition takes (s : Sink) (n : nat) : bool := match s with Some f => f n | None => false end.

(** The executor's world: the log it was given, the records it made, those the log took,
    and its acts, in order. *)
Record World := MkWorld { xw_sink : Sink; xw_recorded : list AuditRecord; xw_trail : list AuditRecord; xw_acts : list Act }.

Definition X (A : Type) : Type := World -> World * A.
#[export] Instance X_ret : MRet X := fun A x w => (w, x).
#[export] Instance X_bind : MBind X := fun A B f m w => let '(w', x) := m w in f x w'.

Definition act (a : Act) : X unit := fun w => (MkWorld (xw_sink w) (xw_recorded w) (xw_trail w) (xw_acts w ++ [a]), tt).
(** Auditor.Record: the record is handed to the log, if there is one, whatever becomes of
    the write, and returned. *)
Definition Record_ (r : AuditRecord) : X AuditRecord := fun w =>
  (MkWorld (xw_sink w) (xw_recorded w ++ [r])
     (if takes (xw_sink w) (length (xw_recorded w)) then xw_trail w ++ [r] else xw_trail w) (xw_acts w), r).
(** Auditor.Note *)
Definition note_record : AuditRecord := MkAuditRecord None "" "Note" (MkResolvedArgs "" "" "" []) "" "" (MkAuditOutcome false "" (Some Plain)).
Definition Note : X unit := _ ← Record_ note_record; mret tt.

Section executor.
Context (ToLower : gostring -> gostring) (fs : PathHost) (policy : Policy) (allowedUIDs : list Z) (h : Host).

(** audit *)
Definition audit (peer : Peer) (caller op : gostring) (resolved : ResolvedArgs) (decision : gostring) (outcome : AuditOutcome) : X AuditRecord :=
  Record_ (MkAuditRecord (Some peer) caller op resolved ("policy:" ++ op) decision outcome).

(** decisionFor, outcomeFor *)
Definition decisionFor (err : option WErr) : gostring :=
  match err with Some ErrPolicyDenied => DecisionDeny | _ => DecisionAllow end.
Definition outcomeFor (err : option WErr) (id : gostring) : AuditOutcome :=
  match err with Some e => MkAuditOutcome false id (Some e) | None => MkAuditOutcome true id None end.

Definition id_args (id : gostring) : ResolvedArgs := MkResolvedArgs id "" "" [].

(** touchUsage *)
Definition touchUsage (id : gostring) (opErr : option WErr) : X unit :=
  match ho_Touch h, opErr with
  | Some touch, None =>
      if id =s "" then mret tt
      else _ ← act (ATouch id); match touch id with Some _ => Note | None => mret tt end
  | _, _ => mret tt
  end.

(** attachEgressNetns *)
Definition attachEgressNetns (spec : WorkspaceSpec) : X (WErr + WorkspaceSpec) :=
  if negb (HasEgress spec) then mret (inr spec)
  else match ho_Netns h with
       | None => mret (inl ErrUnsupported)
       | Some nn =>
           match ParseProxyHostPort (ho_URLHost h) (sp_HTTPSProxy spec) with
           | None => mret (inl ErrValidation)
           | Some (_, port) =>
               _ ← act (AEnsureNetns (sp_Name spec) port);
               match nn_Ensure nn (sp_Name spec) port with
               | inl e => mret (inl e)
               | inr path => mret (inr (set_netns spec path))
               end
           end
       end.

(** DeleteNetns, with the note of its failure. *)
Definition delete_netns (nn : NetnsProvider) (name : gostring) : X unit :=
  _ ← act (ADeleteNetns name); match nn_Delete nn name with Some _ => Note | None => mret tt end.

(** releaseEgressNetns *)
Definition releaseEgressNetns (spec : WorkspaceSpec) : X unit :=
  match ho_Netns h with
  | Some nn => if sp_NetnsPath spec =s "" then mret tt else delete_netns nn (sp_Name spec)
  | None => mret tt
  end.

Definition spec_mount (spec : WorkspaceSpec) : gostring := if sp_Mount spec =s MountHostFS then sp_ProjectRoot spec else "".

(** resolvedCreateFromSpec *)
Definition resolvedCreateFromSpec (spec : WorkspaceSpec) : ResolvedCreate :=
  MkResolvedCreate (sp_Image spec) (spec_mount spec) 0 0 [] (sp_EgressDomains spec) (sp_Mounts spec).

(** auditResolved *)
Definition auditResolved (spec : WorkspaceSpec) : ResolvedArgs :=
  MkResolvedArgs (sp_Name spec) (sp_Image spec) (spec_mount spec) (sp_EgressDomains spec).

(** The workspaces a create counts: none when they cannot be listed. *)
Definition listed : option Z := match ho_List h with inr l => Some (Z.of_nat (length l)) | inl _ => None end.

Definition replied (r : Response) (rec : AuditRecord) : Response * list AuditRecord := (r, [rec]).

(** doCreate, from its provisioning on. *)
Definition finish_create (record : AuditOutcome -> X AuditRecord) (spec : WorkspaceSpec) : X (Response * list AuditRecord) :=
  _ ← act (AProvision spec);
  match ho_Provision h spec with
  | inl e =>
      _ ← releaseEgressNetns spec;
      rec ← record (MkAuditOutcome false "" (Some e)); mret (replied (errorResponse e) rec)
  | inr id =>
      rec ← record (MkAuditOutcome true id None); mret (replied (okResponse (PWorkspace id)) rec)
  end.

(** doCreate *)
Definition doCreate (cmd : Command) (peer : Peer) : X (Response * list AuditRecord) :=
  match cm_Create cmd with
  | None => mret (errorResponse ErrValidation, [])
  | Some cc =>
      let spec := cc_Spec cc in
      let resolved := auditResolved spec in
      let record d o := audit peer (cc_Caller cc) "CreateVM" resolved d o in
      _ ← act (AList listed);
      match CheckCreate ToLower fs policy (resolvedCreateFromSpec spec) (default 0%Z listed) with
      | Some e => rec ← record DecisionDeny (MkAuditOutcome false "" (Some e)); mret (replied (errorResponse e) rec)
      | None =>
          attached ← attachEgressNetns spec;
          match attached with
          | inl e => rec ← record DecisionAllow (MkAuditOutcome false "" (Some e)); mret (replied (errorResponse e) rec)
          | inr spec => finish_create (record DecisionAllow) spec
          end
      end
  end.

(** mutate *)
Definition mutate (peer : Peer) (op id : gostring) (fn : X (option WErr)) : X (Response * list AuditRecord) :=
  if id =s "" then mret (errorResponse ErrValidation, [])
  else
    err ← fn;
    rec ← audit peer "" op (id_args id) (decisionFor err) (outcomeFor err id);
    mret (replied (match err with Some e => errorResponse e | None => okResponse POK end) rec).

(** A verb on an id. *)
Definition verb (v : Verb) (id : gostring) : X (option WErr) := _ ← act (AVerb v id); mret (ho_Verb h v id).

(** dispatch *)
Definition dispatch (cmd : Command) (peer : Peer) : X (Response * list AuditRecord) :=
  let op := cm_Op cmd in let id := cm_ID cmd in
  let read r := _ ← act (ARead op); mret (respondValue r, []) in
  if op =s OpCapabilities then read (match ho_Capabilities h with Some e => inl e | None => inr PCapabilities end)
  else if op =s OpCreate then doCreate cmd peer
  else if op =s OpStart then mutate peer "StartVM" id (err ← verb VStart id; _ ← touchUsage id err; mret err)
  else if op =s OpStop then mutate peer "StopVM" id (verb VStop id)
  else if op =s OpFreeze then mutate peer "FreezeVM" id (verb VFreeze id)
  else if op =s OpUnfreeze then mutate peer "UnfreezeVM" id (verb VUnfreeze id)
  else if op =s OpSuspend then mutate peer "SuspendVM" id (verb VSuspend id)
  else if op =s OpResume then mutate peer "ResumeVM" id (verb VResume id)
  else if op =s OpExec then
    match cm_Exec cmd with
    | None => mret (errorResponse ErrValidation, [])
    | Some req =>
        _ ← act (AExec id req);
        let r := ho_Exec h id req in
        let err := match r with inl e => Some e | inr _ => None end in
        _ ← touchUsage id err;
        rec ← audit peer "" "ExecVM" (id_args id) (decisionFor err) (outcomeFor err id);
        mret (replied (respondValue (match r with inl e => inl e | inr c => inr (PExit c) end)) rec)
    end
  else if op =s OpSnapshot then
    _ ← act (ASnapshot id);
    mret (respondValue (match ho_Snapshot h id (default [] (cm_Snapshot cmd)) with inl e => inl e | inr s => inr (PSnapshot s) end), [])
  else if op =s OpDestroy then
    let req := default (MkDestroyRequest false false) (cm_Destroy cmd) in
    mutate peer "DestroyVM" id (
      _ ← act (ADestroy id req);
      _ ← match ho_Netns h with Some nn => delete_netns nn id | None => mret tt end;
      mret (ho_Destroy h id req))
  else if op =s OpList then read (match ho_List h with inl e => inl e | inr l => inr (PList l) end)
  else if op =s OpInspect then read (match ho_Inspect h id with Some e => inl e | None => inr PStatus end)
  else mret (errorResponse ErrValidation, []).

(** ForwardArgv *)
Definition ForwardArgv (port : Z) : option (list gostring) :=
  if ((port <? 1) || (65535 <? port))%Z then None
  else Some [filepath_Join ApeBinDest "ape"; bs "sandbox-connect"; Itoa port].

(** The session handleStream opens: its op, and the error of its opening. *)
Definition open_session (id : gostring) (a : AttachStreamCommand) : option (gostring * X (option WErr)) :=
  match as_Forward a, as_Exec a, as_Attach a with
  | Some port, _, _ =>
      Some (bs "ForwardVM",
        match ForwardArgv port with
        | Some argv => let req := MkExecRequest argv false [] in _ ← act (AOpenExec id req); mret (ho_OpenExec h id req)
        | None => mret (Some Plain)
        end)
  | None, Some req, _ => Some (bs "ExecVM", _ ← act (AOpenExec id req); mret (ho_OpenExec h id req))
  | None, None, Some req => Some (bs "AttachVM", _ ← act (AOpenAttach id req); mret (ho_OpenAttach h id req))
  | None, None, None => None
  end.

(** handleStream, to its acknowledgement; the relay that follows carries bytes only. *)
Definition handleStream (cmd : Command) (peer : Peer) : X Response :=
  if negb (ho_Interactive h) then mret (errorResponse ErrUnsupported)
  else if cm_ID cmd =s "" then mret (errorResponse ErrValidation)
  else match cm_Attach cmd ≫= open_session (cm_ID cmd) with
       | None => mret (errorResponse ErrValidation)
       | Some (op, open) =>
           err ← open;
           rec ← audit peer "" op (id_args (cm_ID cmd)) (decisionFor err) (outcomeFor err (cm_ID cmd));
           mret (MkResponse (match err with Some e => rs_Code (errorResponse e) | None => "" end) None [rec])
       end.

(** peerAllowed *)
Definition peerAllowed (peer : Peer) : bool := bool_decide (pe_UID peer ∈ allowedUIDs).

Definition reject_record (peer : Peer) : AuditRecord :=
  MkAuditRecord (Some peer) "" "RejectPeer" (MkResolvedArgs "" "" "" []) "so_peercred" DecisionDeny (MkAuditOutcome false "" (Some Plain)).

(** handleConn: [peer] is what the socket says of its other end, [packet] what it sent,
    [None] for an error of either; a packet that does not decode is [Some None]. *)
Definition handleConn (peer : option Peer) (packet : option (option Command)) : X (option Response) :=
  match peer, packet with
  | Some peer, Some packet =>
      if negb (peerAllowed peer) then
        _ ← Record_ (reject_record peer); mret (Some (MkResponse CodeDenied None []))
      else match packet with
           | None => mret (Some (errorResponse ErrValidation))
           | Some cmd =>
               if cm_Op cmd =s OpAttach then
                 _ ← touchUsage (cm_ID cmd) None; r ← handleStream cmd peer; mret (Some r)
               else
                 r ← dispatch cmd peer;
                 let '(resp, records) := r in mret (Some (MkResponse (rs_Code resp) (rs_Payload resp) records))
           end
  | _, _ => mret None
  end.

End executor.
