(* ===== verification/ExecutorFacts.v ===== *)
(** What the executor does on a connection: whoever it provisions for is permitted, and
    every act is accounted for. *)
From S2P Require Import Prelude Regex Markdown Spec Shell Paths Domains DomainFacts Policy PolicyFacts Workspaces Executor.

(** ** Reasoning about the executor *)

(** The records of [tr] that a log takes, [n] having been handed to it before. *)
Fixpoint kept (s : Sink) (n : nat) (tr : list AuditRecord) : list AuditRecord :=
  match tr with
  | [] => []
  | r :: tr => (if takes s n then [r] else []) ++ kept s (S n) tr
  end.

Lemma kept_app s n tr tr' : kept s n (tr ++ tr') = kept s n tr ++ kept s (n + length tr) tr'.
Proof.
  revert n. induction tr as [|r tr IH]; intros n; cbn [app kept length]; [by rewrite Nat.add_0_r|].
  by rewrite IH, <- app_assoc, <- Nat.add_succ_comm.
Qed.

(** The world after some acts and records. *)
Definition after (w : World) (ac : list Act) (tr : list AuditRecord) : World :=
  MkWorld (xw_sink w) (xw_recorded w ++ tr) (xw_trail w ++ kept (xw_sink w) (length (xw_recorded w)) tr) (xw_acts w ++ ac).

Lemma after_nil w : after w [] [] = w.
Proof. unfold after. cbn [kept]. rewrite !app_nil_r. by destruct w. Qed.

Lemma after_after w ac tr ac' tr' : after (after w ac tr) ac' tr' = after w (ac ++ ac') (tr ++ tr').
Proof. unfold after. cbn [xw_sink xw_recorded xw_trail xw_acts]. by rewrite kept_app, length_app, !app_assoc. Qed.

(** [m] adds acts and records, its value with them in [Q]. *)
Definition xp {A} (m : X A) (Q : A -> list Act -> list AuditRecord -> Prop) : Prop :=
  forall w, exists x ac tr, m w = (after w ac tr, x) /\ Q x ac tr.

Lemma xp_ret {A} (x : A) (Q : A -> list Act -> list AuditRecord -> Prop) : Q x [] [] -> xp (mret x) Q.
Proof. intros H w. exists x, [], []. by rewrite after_nil. Qed.

Lemma xp_bind {A B} (m : X A) (f : A -> X B) Q :
  xp m (fun x ac tr => xp (f x) (fun y ac' tr' => Q y (ac ++ ac') (tr ++ tr'))) -> xp (m ≫= f) Q.
Proof.
  intros H w. destruct (H w) as (x & ac & tr & E & Hx). destruct (Hx (after w ac tr)) as (y & ac' & tr' & E' & Hy).
  exists y, (ac ++ ac'), (tr ++ tr'). split; [|done]. unfold mbind, X_bind. by rewrite E, E', after_after.
Qed.

Lemma xp_act a (Q : unit -> list Act -> list AuditRecord -> Prop) : Q tt [a] [] -> xp (act a) Q.
Proof. intros H w. exists tt, [a], []. split; [|done]. unfold act, after. cbn [kept]. by rewrite !app_nil_r. Qed.

Lemma xp_record r (Q : AuditRecord -> list Act -> list AuditRecord -> Prop) : Q r [] [r] -> xp (Record_ r) Q.
Proof.
  intros H w. exists r, [], [r]. split; [|done]. unfold Record_, after. cbn [kept]. rewrite !app_nil_r.
  destruct (takes _ _); by rewrite ?app_nil_r.
Qed.

Lemma xp_mono {A} (m : X A) (Q Q' : A -> list Act -> list AuditRecord -> Prop) :
  (forall x ac tr, Q x ac tr -> Q' x ac tr) -> xp m Q -> xp m Q'.
Proof. intros HQ H w. destruct (H w) as (x & ac & tr & E & Hx). exists x, ac, tr. auto. Qed.

Ltac xstep :=
  match goal with
  | |- xp (mret _) _ => apply xp_ret
  | |- xp (mbind _ _) _ => apply xp_bind
  | |- xp (act _) _ => apply xp_act
  | |- xp (Record_ _) _ => apply xp_record
  end.
Ltac xsteps := repeat xstep; cbn [app].

(** ** Acts *)

(** An act on a workspace, and the workspace. *)
Definition acts_on (a : Act) : option gostring :=
  match a with
  | AVerb _ id | AExec id _ | AOpenExec id _ | AOpenAttach id _ | ADestroy id _ => Some id
  | AProvision spec => Some (sp_Name spec)
  | AEnsureNetns name _ | ADeleteNetns name => Some name
  | AList _ | ARead _ | ASnapshot _ | ATouch _ => None
  end.

(** What stands in the trail beside an operation's own record. *)
Definition only_notes (tr : list AuditRecord) : Prop := Forall (fun r => r = note_record) tr.

Section executor.
Context (ToLower : gostring -> gostring) (fs : PathHost) (policy : Policy) (allowedUIDs : list Z) (h : Host).

Lemma touchUsage_xp id e : xp (touchUsage h id e) (fun _ ac tr => (ac = [] \/ ac = [ATouch id]) /\ only_notes tr).
Proof.
  unfold touchUsage. repeat case_match; try (xsteps; split; [by left|constructor]).
  all: unfold Note; xsteps; split; [by right|]; repeat constructor.
Qed.

Lemma delete_netns_xp nn name : xp (delete_netns nn name) (fun _ ac tr => ac = [ADeleteNetns name] /\ only_notes tr).
Proof. unfold delete_netns. xstep. xstep. case_match; unfold Note; xsteps; (split; [done|]); repeat constructor. Qed.

(** What a command leaves: acts on one workspace, and, where there are any, one record of
    the operation, which the reply carries, beside notes. *)
Definition accounted (peer : Peer) (r : Response * list AuditRecord) (ac : list Act) (tr : list AuditRecord) : Prop :=
  (Forall (fun a => acts_on a = None) ac /\ r.2 = [] /\ only_notes tr) \/
  exists rec notes, r.2 = [rec] /\ tr = notes ++ [rec] /\ only_notes notes /\ ar_BoundaryPeer rec = Some peer /\
    ar_Op rec <> bs "Note" /\
    Forall (fun a => acts_on a = None \/ acts_on a = Some (ra_WorkspaceID (ar_Resolved rec))) ac /\
    ao_OK (ar_Outcome rec) = bool_decide (rs_Code r.1 = []).

Lemma errorResponse_code e : rs_Code (errorResponse e) <> [].
Proof. by destruct e. Qed.

Lemma error_fails e : bool_decide (rs_Code (errorResponse e) = []) = false.
Proof. apply bool_decide_eq_false, errorResponse_code. Qed.

Lemma accounted_intro peer resp rec ac notes tr : tr = notes ++ [rec] -> only_notes notes -> ar_BoundaryPeer rec = Some peer ->
  ar_Op rec <> bs "Note" -> Forall (fun a => acts_on a = None \/ acts_on a = Some (ra_WorkspaceID (ar_Resolved rec))) ac ->
  ao_OK (ar_Outcome rec) = bool_decide (rs_Code resp = []) -> accounted peer (resp, [rec]) ac tr.
Proof. intros. right. by exists rec, notes. Qed.

Definition no_provision (ac : list Act) : Prop := Forall (fun a => match a with AProvision _ => False | _ => True end) ac.

Lemma mutate_xp peer op id fn :
  op <> bs "Note" ->
  xp fn (fun _ ac tr => Forall (fun a => acts_on a = None \/ acts_on a = Some id) ac /\ no_provision ac /\ only_notes tr) ->
  xp (mutate peer op id fn) (fun r ac tr => accounted peer r ac tr /\ no_provision ac).
Proof.
  intros Hop Hfn. unfold mutate. case_match; [xsteps; unfold accounted; split; [left; repeat constructor|constructor]|]. xstep.
  eapply xp_mono; [|exact Hfn]. intros err ac tr (Hac & Hnp & Htr). cbn beta. unfold audit, replied. xsteps. rewrite !app_nil_r. split; [|done].
  apply (accounted_intro _ _ _ _ tr); [done..|]. destruct err as [e|]; [|done]. by rewrite error_fails.
Qed.

Lemma verb_xp v id : xp (verb h v id) (fun _ ac tr => Forall (fun a => acts_on a = None \/ acts_on a = Some id) ac /\ no_provision ac /\ only_notes tr).
Proof. unfold verb. xsteps. split; [|split; repeat constructor]. apply Forall_singleton. by right. Qed.

(** ** The commands *)

Lemma touch_after v id : xp (err ← verb h v id; _ ← touchUsage h id err; mret err)
  (fun _ ac tr => Forall (fun a => acts_on a = None \/ acts_on a = Some id) ac /\ no_provision ac /\ only_notes tr).
Proof.
  unfold verb. xsteps. eapply xp_mono; [|apply touchUsage_xp]. cbn beta. intros _ ac tr [[->| ->] Htr]; xsteps; rewrite ?app_nil_r.
  - split; [apply Forall_singleton; by right|]. split; [repeat constructor|done].
  - split; [apply Forall_cons; split; [by right|apply Forall_singleton; by left]|]. split; [repeat constructor|done].
Qed.

Lemma destroy_xp id req : xp (_ ← act (ADestroy id req); _ ← match ho_Netns h with Some nn => delete_netns nn id | None => mret tt end; mret (ho_Destroy h id req))
  (fun _ ac tr => Forall (fun a => acts_on a = None \/ acts_on a = Some id) ac /\ no_provision ac /\ only_notes tr).
Proof.
  xstep. xstep. xstep. destruct (ho_Netns h) as [nn|].
  - eapply xp_mono; [|apply delete_netns_xp]. intros _ ac tr [-> Htr]. cbn beta. xsteps. rewrite ?app_nil_r.
    split; [|split; [repeat constructor|done]]. apply Forall_cons; split; [by right|apply Forall_singleton; by right].
  - xsteps. split; [apply Forall_singleton; by right|]. split; repeat constructor.
Qed.

(** What a create that is not refused outright does. *)
Definition create_acts (spec spec' : WorkspaceSpec) (ac : list Act) : Prop :=
  exists before after, ac = before ++ AProvision spec' :: after /\ no_provision before /\ no_provision after /\
    Permitted fs ToLower policy (resolvedCreateFromSpec spec) (default 0%Z (listed h)) /\
    (HasEgress spec = false -> before = [AList (listed h)] /\ spec' = spec) /\
    (HasEgress spec = true -> exists nn port path, before = [AList (listed h); AEnsureNetns (sp_Name spec) port] /\
       ho_Netns h = Some nn /\ nn_Ensure nn (sp_Name spec) port = inr path /\ spec' = set_netns spec path).

Lemma release_xp spec : xp (releaseEgressNetns h spec)
  (fun _ ac tr => (ac = [] \/ ac = [ADeleteNetns (sp_Name spec)]) /\ only_notes tr).
Proof.
  unfold releaseEgressNetns. repeat case_match; try (xsteps; split; [by left|constructor]).
  eapply xp_mono; [|apply delete_netns_xp]. intros _ ac tr [-> Htr]. split; [by right|done].
Qed.

(** The record a create leaves. *)
Definition create_record (peer : Peer) (caller : gostring) (spec : WorkspaceSpec) (decision : gostring) (o : AuditOutcome) : AuditRecord :=
  MkAuditRecord (Some peer) caller "CreateVM" (auditResolved spec) ("policy:" ++ "CreateVM") decision o.

Lemma finish_create_xp peer caller spec spec' : sp_Name spec' = sp_Name spec ->
  xp (finish_create h (audit peer caller "CreateVM" (auditResolved spec) DecisionAllow) spec')
    (fun r ac tr => exists after, ac = AProvision spec' :: after /\ no_provision after /\
      Forall (fun a => acts_on a = Some (sp_Name spec)) ac /\ accounted peer r ac tr).
Proof.
  intros Hn. unfold finish_create, audit, replied. xstep. xstep. destruct (ho_Provision h spec') as [e|id].
  - xstep. eapply xp_mono; [|apply release_xp]. cbn beta. intros _ ac tr [Hac Htr]. xsteps. rewrite !app_nil_r. exists ac.
    assert (Forall (fun a => acts_on a = Some (sp_Name spec)) (AProvision spec' :: ac)) as Ha.
    { apply Forall_cons. split; [cbn; by rewrite Hn|]. destruct Hac as [->| ->]; [constructor|]. apply Forall_singleton. cbn. by rewrite Hn. }
    split; [done|]. split; [destruct Hac as [->| ->]; repeat constructor|]. split; [done|].
    apply (accounted_intro _ _ _ _ tr); [done..| |by rewrite error_fails]. eapply Forall_impl; [exact Ha|]. by right.
  - xsteps. exists []. assert (Forall (fun a => acts_on a = Some (sp_Name spec)) [AProvision spec']) as Ha.
    { apply Forall_singleton. cbn. by rewrite Hn. }
    split; [done|]. split; [constructor|]. split; [done|]. apply (accounted_intro _ _ _ _ []); [done|constructor|done|done| |done].
    eapply Forall_impl; [exact Ha|]. by right.
Qed.

Lemma attach_xp spec : xp (attachEgressNetns h spec)
  (fun r ac tr => tr = [] /\ Forall (fun a => acts_on a = Some (sp_Name spec)) ac /\ no_provision ac /\
    forall spec', r = inr spec' -> sp_Name spec' = sp_Name spec /\ (HasEgress spec = false -> ac = [] /\ spec' = spec) /\
      (HasEgress spec = true -> exists nn port path, ac = [AEnsureNetns (sp_Name spec) port] /\
        ho_Netns h = Some nn /\ nn_Ensure nn (sp_Name spec) port = inr path /\ spec' = set_netns spec path)).
Proof.
  unfold attachEgressNetns. destruct (HasEgress spec); cbn [negb].
  2: { xsteps. split; [done|]. split; [constructor|]. split; [constructor|]. by intros spec' [= <-]. }
  destruct (ho_Netns h) as [nn|]; [|xsteps; repeat split; (constructor || done)].
  destruct (ParseProxyHostPort _ _) as [[hh port]|]; [|xsteps; repeat split; (constructor || done)].
  xstep. xstep. assert (Forall (fun a => acts_on a = Some (sp_Name spec)) [AEnsureNetns (sp_Name spec) port]) as Ha by by apply Forall_singleton.
  destruct (nn_Ensure nn (sp_Name spec) port) as [e|path] eqn:En; xsteps; (split; [done|]); (split; [done|]); (split; [repeat constructor|]); [done|].
  intros spec' [= <-]. split; [done|]. split; [done|]. intros _. by exists nn, port, path.
Qed.

Context `{!AbsHost fs}.

Lemma doCreate_xp cmd peer : cm_Op cmd = OpCreate ->
  xp (doCreate ToLower fs policy h cmd peer) (fun r ac tr => accounted peer r ac tr /\
    (no_provision ac \/ exists cc spec', cm_Create cmd = Some cc /\ create_acts (cc_Spec cc) spec' ac)).
Proof.
  intros Hop. unfold doCreate. destruct (cm_Create cmd) as [cc|] eqn:Ec.
  2: { xsteps. split; [left; repeat constructor|left; constructor]. }
  set (spec := cc_Spec cc). xstep. xstep. destruct (CheckCreate _ _ _ _ _) as [e|] eqn:Echk.
  - unfold audit, replied. xsteps. split; [|left; repeat constructor]. apply (accounted_intro _ _ _ _ []); [done|constructor|done|done| |by rewrite error_fails].
    apply Forall_singleton. by left.
  - apply CheckCreate_ok in Echk; [|done]. xstep. eapply xp_mono; [|apply attach_xp]. cbn beta.
    intros [e|spec'] ac tr (-> & Hac & Hnp & Hr).
    + unfold audit, replied. xsteps. rewrite app_nil_r. split.
      * apply (accounted_intro _ _ _ _ []); [done|constructor|done|done| |by rewrite error_fails]. apply Forall_cons. split; [by left|].
        eapply Forall_impl; [exact Hac|]. by right.
      * left. by constructor.
    + destruct (Hr spec' eq_refl) as (Hn & He1 & He2). eapply xp_mono; [|by apply (finish_create_xp _ _ spec)].
      intros r ac' tr' (after & -> & Hafter & Hon & Hacc). cbn [app]. split.
      * destruct Hacc as [(Hall & _)|(rec & notes & H1 & H2 & H3 & H4 & H5 & H6 & H7)].
        { apply Forall_cons in Hall as [Hx _]. done. }
        right. exists rec, notes. split; [done|]. split; [done|]. split; [done|]. split; [done|]. split; [done|]. split; [|done]. apply Forall_cons. split; [by left|]. apply Forall_app. split; [|done].
        apply Forall_cons in H6 as [Hx _]. apply Forall_cons in Hon as [Hy _]. destruct Hx as [Hx|Hx]; [congruence|].
        eapply Forall_impl; [exact Hac|]. intros a Ha. right. cbn beta in Ha. congruence.
      * right. exists cc, spec'. split; [done|]. exists (AList (listed h) :: ac), after. split; [done|].
        split; [by constructor|]. split; [done|]. split; [exact Echk|]. split.
        -- intros HE. destruct (He1 HE) as [-> ->]. done.
        -- intros HE. destruct (He2 HE) as (nn & port & path & -> & ? & ? & ->). by exists nn, port, path.
Qed.

(** What a command of an admitted peer leaves. *)
Definition handled (peer : Peer) (cmd : Command) (r : Response * list AuditRecord) (ac : list Act) (tr : list AuditRecord) : Prop :=
  accounted peer r ac tr /\
  (no_provision ac \/ exists cc spec', cm_Op cmd = OpCreate /\ cm_Create cmd = Some cc /\ create_acts (cc_Spec cc) spec' ac).

Lemma read_xp peer cmd op r : xp (_ ← act (ARead op); mret (r, [])) (handled peer cmd).
Proof. xsteps. split; [left|left]; repeat constructor. Qed.

Lemma mutate_handled peer cmd op id fn : op <> bs "Note" ->
  xp fn (fun _ ac tr => Forall (fun a => acts_on a = None \/ acts_on a = Some id) ac /\ no_provision ac /\ only_notes tr) ->
  xp (mutate peer op id fn) (handled peer cmd).
Proof. intros Hop Hfn. eapply xp_mono; [|by apply mutate_xp]. intros r ac tr [Ha Hn]. split; [done|by left]. Qed.

Lemma exec_xp peer cmd id req resp :
  let err := match ho_Exec h id req with inl e => Some e | inr _ => None end in
  resp = respondValue (match ho_Exec h id req with inl e => inl e | inr c => inr (PExit c) end) ->
  xp (_ ← act (AExec id req); _ ← touchUsage h id err;
      rec ← audit peer "" "ExecVM" (id_args id) (decisionFor err) (outcomeFor err id); mret (replied resp rec)) (handled peer cmd).
Proof.
  intros err ->. xstep. xstep. xstep. eapply xp_mono; [|apply touchUsage_xp]. cbn beta. intros _ ac tr [Hac Htr].
  unfold audit, replied. xsteps. rewrite app_nil_r. split.
  - apply (accounted_intro _ _ _ _ tr); [done..| |].
    + apply Forall_cons. split; [by right|]. destruct Hac as [->| ->]; [constructor|]. apply Forall_singleton. by left.
    + unfold err. destruct (ho_Exec h id req) as [e|]; [|done]. cbn [respondValue]. by rewrite error_fails.
  - left. destruct Hac as [->| ->]; repeat constructor.
Qed.

Lemma dispatch_xp cmd peer : xp (dispatch ToLower fs policy h cmd peer) (handled peer cmd).
Proof.
  unfold dispatch. case_match; [apply read_xp|]. destruct (decide (cm_Op cmd = OpCreate)) as [E|E].
  { rewrite (bool_decide_true _ E). eapply xp_mono; [|by apply doCreate_xp]. intros r ac tr [Ha [Hn|(cc & spec' & Hc & Hp)]]; (split; [done|]); [by left|].
    right. by exists cc, spec'. }
  rewrite (bool_decide_false _ E). clear E.
  case_match; [apply mutate_handled; [done|apply touch_after]|].
  do 5 (case_match; [apply mutate_handled; [done|apply verb_xp]|]).
  case_match.
  { destruct (cm_Exec cmd) as [req|]; [by apply exec_xp|]. xsteps. split; left; repeat constructor. }
  case_match; [xsteps; split; left; repeat constructor|].
  case_match; [apply mutate_handled; [done|apply destroy_xp]|].
  do 2 (case_match; [apply read_xp|]). xsteps. split; left; repeat constructor.
Qed.

(** An interactive session. *)
Lemma open_xp id a op open : open_session h id a = Some (op, open) -> op <> bs "Note" /\
  xp open (fun _ ac tr => Forall (fun x => acts_on x = Some id) ac /\ no_provision ac /\ tr = []).
Proof.
  unfold open_session. repeat case_match; intros ?; simplify_eq; (split; [done|]); xsteps;
    (split; [|split; [repeat constructor|done]]); try (by apply Forall_singleton). constructor.
Qed.

Lemma handleStream_xp cmd peer : xp (handleStream h cmd peer) (fun r ac tr => handled peer cmd (r, rs_Audit r) ac tr).
Proof.
  unfold handleStream. case_match; [xsteps; split; left; repeat constructor|]. case_match; [xsteps; split; left; repeat constructor|].
  destruct (cm_Attach cmd ≫= open_session h (cm_ID cmd)) as [[op open]|] eqn:E; [|xsteps; split; left; repeat constructor].
  apply bind_Some in E as (a & _ & E). apply open_xp in E as [Hop Hopen]. xstep. eapply xp_mono; [|exact Hopen]. cbn beta.
  intros err ac tr (Hac & Hnp & ->). unfold audit. xsteps. rewrite app_nil_r. cbn [rs_Audit]. split; [|by left].
  apply (accounted_intro _ _ _ _ []); [done|constructor|done|done| |].
  - eapply Forall_impl; [exact Hac|]. by right.
  - destruct err as [e|]; [|done]. cbn [rs_Code]. by rewrite error_fails.
Qed.

(** What a connection leaves: nothing, a refusal of the peer, or what its command does. *)
Definition served (peer : option Peer) (packet : option (option Command)) (resp : option Response) (ac : list Act) (tr : list AuditRecord) : Prop :=
  (ac = [] /\ tr = []) \/
  (exists p, peer = Some p /\ (pe_UID p ∉ allowedUIDs) /\ ac = [] /\ tr = [reject_record p] /\ resp = Some (MkResponse CodeDenied None [])) \/
  (exists p cmd r, peer = Some p /\ pe_UID p ∈ allowedUIDs /\ packet = Some (Some cmd) /\ resp = Some r /\ handled p cmd (r, rs_Audit r) ac tr).

Lemma handleConn_xp peer packet : xp (handleConn ToLower fs policy allowedUIDs h peer packet) (served peer packet).
Proof.
  unfold handleConn. destruct peer as [p|]; [|xsteps; by left]. destruct packet as [packet|]; [|xsteps; by left].
  unfold peerAllowed. destruct (decide (pe_UID p ∈ allowedUIDs)) as [Hp|Hp].
  2: { rewrite (bool_decide_false _ Hp). cbn [negb]. xsteps. right. left. by exists p. }
  rewrite (bool_decide_true _ Hp). cbn [negb]. destruct packet as [cmd|]; [|xsteps; by left]. case_match.
  - xstep. eapply xp_mono; [|apply touchUsage_xp]. cbn beta. intros _ ac tr [Hac Htr]. xstep.
    eapply xp_mono; [|apply handleStream_xp]. cbn beta. intros r ac' tr' [Hacc Hprov]. xsteps. rewrite !app_nil_r. right. right.
    exists p, cmd, r. do 4 (split; [done|]). assert (Forall (fun a => acts_on a = None) ac /\ no_provision ac) as [Ha Hn].
    { destruct Hac as [->| ->]; split; repeat constructor. }
    split.
    + destruct Hacc as [(H1 & H2 & H3)|(rec & notes & H1 & -> & H3 & H4 & H5 & H6 & H7)].
      * left. split; [by apply Forall_app|]. split; [done|by apply Forall_app].
      * right. exists rec, (tr ++ notes). rewrite app_assoc. split; [done|]. split; [done|]. split; [by apply Forall_app|]. do 2 (split; [done|]).
        split; [|done]. apply Forall_app. split; [|done]. eapply Forall_impl; [exact Ha|]. by left.
    + destruct Hprov as [Hp'|(cc & spec' & Hop & _)]; [left; by apply Forall_app|]. exfalso.
      by rewrite Hop in H.
  - xstep. eapply xp_mono; [|apply dispatch_xp]. intros [resp records] ac tr Hh. cbn beta iota. xsteps. rewrite !app_nil_r. right. right.
    eexists p, cmd, _. do 4 (split; [done|]). exact Hh.
Qed.

End executor.

(** ** Theorems *)

(** C25: Whatever the host answers, a connection provisions a workspace only for a peer of
    the allowed users, on a create whose concrete spec the policy permits beside the
    workspaces listed: its image is listed, every bind of its mount list comes, after
    symbolic links, from under an allowed root and is not writable under a read-only one,
    its egress is within the allowed domains. The spec is provisioned as it was checked
    but for the namespace the network helper was asked for in between, and only where
    egress was granted; nothing else is provisioned, and nothing before the check but the
    listing is done. *)
Theorem provision_permitted (ToLower : gostring -> gostring) (fs : PathHost) (policy : Policy) (allowedUIDs : list Z) (h : Host)
    (peer : option Peer) (packet : option (option Command)) (w : World) (spec' : WorkspaceSpec) :
  AbsHost fs ->
  let w' := fst (handleConn ToLower fs policy allowedUIDs h peer packet w) in
  exists ac, xw_acts w' = xw_acts w ++ ac /\
    (AProvision spec' ∈ ac -> exists p cmd cc,
       peer = Some p /\ pe_UID p ∈ allowedUIDs /\ packet = Some (Some cmd) /\ cm_Op cmd = OpCreate /\ cm_Create cmd = Some cc /\
       create_acts ToLower fs policy h (cc_Spec cc) spec' ac).
Proof.
  intros Hfs w'. destruct (handleConn_xp ToLower fs policy allowedUIDs h peer packet w) as (resp & ac & tr & E & Hs).
  exists ac. subst w'. rewrite E. split; [done|]. intros Hin.
  destruct Hs as [(-> & _)|[(p & _ & _ & -> & _)|(p & cmd & r & Hp & Hu & Hc & _ & _ & [Hn|(cc & spec & Hop & Hcc & Hca)])]];
    [by apply elem_of_nil in Hin..| |].
  - unfold no_provision in Hn. rewrite Forall_forall in Hn. by apply Hn in Hin.
  - exists p, cmd, cc. do 5 (split; [done|]). enough (spec' = spec) as -> by exact Hca.
    destruct Hca as (before & after & -> & Hb & Ha & _). unfold no_provision in Hb, Ha. rewrite Forall_forall in Hb, Ha.
    rewrite elem_of_app, elem_of_cons in Hin. destruct Hin as [Hin|[[= ->]|Hin]]; [by apply Hb in Hin|done|by apply Ha in Hin].
Qed.

(** C26: Every act on a workspace is accounted for, whatever becomes of the log: a
    connection that acts on one has an allowed peer and makes, beside notes of failed
    clean-ups, exactly one record, last, of its peer and that workspace, which says
    whether the operation succeeded as the reply does, and which the reply hands to the
    front. The log gains exactly those of the connection's records whose write succeeds,
    in order, and none where there is no log; with a log that takes it, the operation's
    record is the log's last. (A snapshot, a read, a list and the touch of the usage clock
    are not acts in this sense: they are not recorded.) *)
Theorem acts_accounted (ToLower : gostring -> gostring) (fs : PathHost) (policy : Policy) (allowedUIDs : list Z) (h : Host)
    (peer : option Peer) (packet : option (option Command)) (w : World) (a : Act) (id : gostring) :
  AbsHost fs ->
  let '(w', resp) := handleConn ToLower fs policy allowedUIDs h peer packet w in
  exists ac tr, xw_acts w' = xw_acts w ++ ac /\ xw_recorded w' = xw_recorded w ++ tr /\
    xw_trail w' = xw_trail w ++ kept (xw_sink w) (length (xw_recorded w)) tr /\
    (a ∈ ac -> acts_on a = Some id -> exists p r rec notes,
       peer = Some p /\ pe_UID p ∈ allowedUIDs /\ resp = Some r /\ tr = notes ++ [rec] /\ only_notes notes /\ rs_Audit r = [rec] /\
       ar_BoundaryPeer rec = Some p /\ ra_WorkspaceID (ar_Resolved rec) = id /\ ar_Op rec <> bs "Note" /\
       ao_OK (ar_Outcome rec) = bool_decide (rs_Code r = []) /\
       (takes (xw_sink w) (length (xw_recorded w) + length notes) = true -> last (xw_trail w') = Some rec)).
Proof.
  intros Hfs. destruct (handleConn_xp ToLower fs policy allowedUIDs h peer packet w) as (resp & ac & tr & E & Hs).
  rewrite E. exists ac, tr. do 3 (split; [done|]). intros Hin Hon.
  destruct Hs as [(-> & _)|[(p & _ & _ & -> & _)|(p & cmd & r & Hp & Hu & Hc & -> & Hacc & _)]]; [by apply elem_of_nil in Hin..|].
  destruct Hacc as [(Hall & _)|(rec & notes & H1 & -> & H3 & H4 & H5 & H6 & H7)].
  - rewrite Forall_forall in Hall. apply Hall in Hin. congruence.
  - exists p, r, rec, notes. rewrite Forall_forall in H6. destruct (H6 a Hin) as [?|Ha]; [congruence|].
    do 7 (split; [done|]). split; [congruence|]. do 2 (split; [done|]). intros Ht. cbn [after xw_trail].
    rewrite kept_app. cbn [kept]. rewrite Ht, app_assoc. apply last_snoc.
Qed.
