(* ===== verification/ExecutorSamples.v ===== *)
(** What the executor's checks do not see, and concrete connections. *)
From S2P Require Import Prelude Regex Markdown Spec Shell Paths Domains DomainFacts Policy PolicyFacts Workspaces Executor ExecutorFacts.

(** ** What the policy does not check *)

(** The policy without its ceilings on processors, memory and workspaces. *)
Definition without_ceilings (p : Policy) : Policy :=
  MkPolicy (po_Images p) (po_MountRoots p) (po_MountRootsRO p) (MkLimits 0 0 0 (lm_MaxMounts (po_Limits p))) (po_Devices p) (po_Egress p).

(** On a node whose workspaces cannot be listed, a create is checked against none of
    the ceilings on processors, memory and workspaces: the checks answer as those of the
    policy without them. (The first two are never checked: no create carries them.) *)
Theorem ceilings_open (ToLower : gostring -> gostring) (fs : PathHost) (policy : Policy) (h : Host) (spec : WorkspaceSpec) (e : WErr) :
  ho_List h = inl e ->
  CheckCreate ToLower fs policy (resolvedCreateFromSpec spec) (default 0%Z (listed h)) =
  CheckCreate ToLower fs (without_ceilings policy) (resolvedCreateFromSpec spec) (default 0%Z (listed h)).
Proof.
  intros He. unfold listed. rewrite He. unfold CheckCreate. assert (checkLimits policy (resolvedCreateFromSpec spec) (default 0%Z (@None Z)) = None) as ->; [|reflexivity].
  unfold checkLimits, over. cbn [rc_VCPUs rc_MemMB resolvedCreateFromSpec default].
  assert (forall c, (0 <? c)%Z && (c <? 0)%Z = false) as H1 by lia. assert (forall c, (0 <? c)%Z && (c <=? 0)%Z = false) as H2 by lia.
  by rewrite !H1, H2.
Qed.

Definition plain_spec (name image : gostring) : WorkspaceSpec :=
  MkWorkspaceSpec name image "clh" MountVolume "" "" "" None "" 0 NetworkNone [] [] [] "" "" "" [] "".

(** A spec whose volume and composed home are [s]. *)
Definition volume_spec (name image s : gostring) : WorkspaceSpec :=
  MkWorkspaceSpec name image "clh" MountVolume "" "" s (Some (MkComposition s DefaultGuestHome [] [])) "" 0 NetworkNone [] [] [] "" "" "" [] "/proc/1/ns/net".

(** The policy does not bound what the guest is given beside its mount list. For any
    host path and any policy that lists an image, also one without a mount root and
    without egress, there is a spec the policy permits whose guest gets that path writable
    at /workspace, as its volume, and as its home, and which names any network namespace. *)
Theorem binds_unchecked (ToLower : gostring -> gostring) (fs : PathHost) (policy : Policy) (image s : gostring) (n : Z) :
  image ∈ po_Images policy -> within (lm_MaxWorkspaces (po_Limits policy)) (n + 1) -> within (lm_MaxMounts (po_Limits policy)) 0 -> TrimSpace s <> [] ->
  exists spec, CheckCreate ToLower fs policy (resolvedCreateFromSpec spec) n = None /\
    MkBindMount s DefaultProjectDest false ∈ containerdMounts spec /\ MkBindMount s DefaultGuestHome false ∈ containerdMounts spec /\
    sp_EgressDomains spec = [] /\ sp_NetnsPath spec = bs "/proc/1/ns/net".
Proof.
  intros Hi Hn Hm Hs. exists (volume_spec "w" image s). split.
  - unfold CheckCreate. rewrite !first_of_None. unfold checkImage, slices_Contains. rewrite allow_None, bool_decide_eq_true.
    split; [done|]. split; [done|]. split.
    { unfold checkMounts. apply over_false in Hm. change (Z.of_nat _) with 0%Z. by rewrite Hm. }
    split; [|done]. unfold checkLimits, over. cbn [rc_VCPUs rc_MemMB resolvedCreateFromSpec].
    assert (forall c, (0 <? c)%Z && (c <? 0)%Z = false) as H1 by lia. rewrite !H1. unfold within in Hn.
    assert ((0 <? lm_MaxWorkspaces (po_Limits policy)) && (lm_MaxWorkspaces (po_Limits policy) <=? n) = false)%Z as -> by lia. done.
  - unfold containerdMounts. cbn [sp_ProjectDest sp_Mount sp_Volume sp_Comp sp_Mounts volume_spec cp_StagingDir cp_GuestHome cp_Binds].
    change (bool_decide (bs "" = bs "")) with true. change (bool_decide (MountVolume = MountHostFS)) with false.
    change (bool_decide (MountVolume = MountVolume)) with true. cbn match. change (bs "") with (@nil byte). rewrite (bool_decide_false _ Hs).
    cbn [negb app]. split; [by left|]. split; [by right; left|done].
Qed.

(** A create for a name that is taken costs the workspace that has it its network: the
    helper is asked for the namespace anew before the provisioner refuses, and then to
    delete it. *)
Theorem recreate_cuts_egress (ToLower : gostring -> gostring) (fs : PathHost) (policy : Policy) (allowedUIDs : list Z) (h : Host)
    (p : Peer) (cmd : Command) (cc : CreateCommand) (live : list gostring) (nn : NetnsProvider) (host path : gostring) (port : Z) (e : WErr) (w : World) :
  pe_UID p ∈ allowedUIDs -> cm_Op cmd = OpCreate -> cm_Create cmd = Some cc ->
  ho_List h = inr live -> sp_Name (cc_Spec cc) ∈ live ->
  CheckCreate ToLower fs policy (resolvedCreateFromSpec (cc_Spec cc)) (Z.of_nat (length live)) = None ->
  HasEgress (cc_Spec cc) = true -> ho_Netns h = Some nn -> ParseProxyHostPort (ho_URLHost h) (sp_HTTPSProxy (cc_Spec cc)) = Some (host, port) ->
  nn_Ensure nn (sp_Name (cc_Spec cc)) port = inr path -> path <> [] ->
  ho_Provision h (set_netns (cc_Spec cc) path) = inl e ->
  let name := sp_Name (cc_Spec cc) in
  xw_acts (fst (handleConn ToLower fs policy allowedUIDs h (Some p) (Some (Some cmd)) w)) =
  xw_acts w ++ [AList (Some (Z.of_nat (length live))); AEnsureNetns name port; AProvision (set_netns (cc_Spec cc) path); ADeleteNetns name].
Proof.
  intros Hu Hop Hcc Hl Hin Hck Heg Hnn Hpp Hen Hpath Hpr name. unfold handleConn, peerAllowed. rewrite (bool_decide_true _ Hu). cbn [negb].
  rewrite (bool_decide_false (cm_Op cmd = OpAttach)) by (by rewrite Hop). unfold dispatch.
  rewrite (bool_decide_false (cm_Op cmd = OpCapabilities)) by (by rewrite Hop). rewrite (bool_decide_true _ Hop). unfold doCreate. rewrite Hcc.
  unfold listed. rewrite Hl. change (default 0%Z (Some (Z.of_nat (length live)))) with (Z.of_nat (length live)). unfold mbind, X_bind, mret, X_ret. cbn [act xw_sink xw_recorded xw_trail xw_acts]. rewrite Hck.
  unfold attachEgressNetns. rewrite Heg, Hnn, Hpp. cbn [negb]. unfold mbind, X_bind, mret, X_ret. cbn [act xw_sink xw_recorded xw_trail xw_acts]. rewrite Hen.
  unfold finish_create. unfold mbind, X_bind, mret, X_ret. cbn [act xw_sink xw_recorded xw_trail xw_acts]. rewrite Hpr. unfold releaseEgressNetns. rewrite Hnn.
  change (sp_NetnsPath (set_netns (cc_Spec cc) path)) with path. change (bs "") with (@nil byte). rewrite (bool_decide_false _ Hpath).
  unfold delete_netns, mbind, X_bind, mret, X_ret. cbn [act xw_sink xw_recorded xw_trail xw_acts]. change (sp_Name (set_netns (cc_Spec cc) path)) with name.
  destruct (nn_Delete nn name); cbn; rewrite <- !app_assoc; reflexivity.
Qed.

(** ** A node *)

Definition sample_fs : PathHost :=
  MkPathHost (Some (bs "/srv")) (fun p => if p =s "/srv/link" then Some (bs "/srv/projects/app") else Some p).

#[export] Instance sample_fs_abs : AbsHost sample_fs.
Proof.
  split; [by intros wd [= <-]|]. intros p q Hp. cbn [ph_EvalSymlinks sample_fs]. case_match; intros [= <-]; [reflexivity|done].
Qed.

Definition sample_policy : Policy :=
  MkPolicy [bs "ape:1"] [bs "/srv/projects"] [bs "/srv/shared"] (MkLimits 4 8192 3 10) (MkDevicePolicy [] [])
    (MkEgressPolicy true [bs "github.com"; bs "*.githubusercontent.com"] 5).

Definition sample_spec : WorkspaceSpec :=
  MkWorkspaceSpec "w" "ape:1" "clh" MountHostFS "/srv/link" "" "" None "http://169.254.42.1:3128" 0 NetworkNone [] []
    [MkMountSpec "/var/lib/aped/framework/v1" FrameworkDest true; MkMountSpec "/srv/link" "/workspace/app" false; MkMountSpec "/srv/shared/x" "/mnt/x" true]
    "/workspace/app" "" "" [bs "github.com"; bs "raw.githubusercontent.com"] "".

Definition sample_netns : NetnsProvider := MkNetns (fun name _ => inr ("/run/netns/ape-" ++ name)) (fun _ => None).

Definition sample_host (provision : WorkspaceSpec -> WErr + gostring) (live : WErr + list gostring) : Host :=
  MkHost None live (fun _ => None) (fun _ _ => None) (fun _ _ => inr 0%Z) (fun _ _ => inl ErrUnsupported) (fun _ _ => None)
    provision true (fun _ _ => None) (fun _ _ => None) None (Some sample_netns)
    (fun u => if u =s "http://169.254.42.1:3128" then Some (bs "169.254.42.1:3128") else None).

Definition node : Host := sample_host (fun s => inr (sp_Name s)) (inr [bs "v"]).
Definition taken : Host := sample_host (fun _ => inl Plain) (inr [bs "v"; bs "w"]).
Definition front : Peer := MkPeer 990 17.
Definition create_cmd (s : WorkspaceSpec) : Command := MkCommand OpCreate "" (Some (MkCreateCommand s "operator")) None None None None.
(** A log that fails the second write. *)
Definition boot : World := MkWorld (Some (fun n => negb (n =? 1))) [] [] [].

Abbreviation serve h peer cmd := (handleConn ascii_lower sample_fs sample_policy [990%Z] h (Some peer) (Some (Some cmd)) boot).

Lemma CheckCreate_permits_witness : Permitted sample_fs ascii_lower sample_policy (resolvedCreateFromSpec sample_spec) 1.
Proof. apply (proj1 (proj1 (CheckCreate_permits sample_fs ascii_lower sample_policy (resolvedCreateFromSpec sample_spec) 1 _))). vm_compute. reflexivity. Defined.

(** The sample's create is provisioned, and its parts come from the theorem. *)
Lemma provision_permitted_witness : exists ac, xw_acts (fst (serve node front (create_cmd sample_spec))) = ac /\
  create_acts ascii_lower sample_fs sample_policy node sample_spec (set_netns sample_spec "/run/netns/ape-w") ac.
Proof.
  destruct (provision_permitted ascii_lower sample_fs sample_policy [990%Z] node (Some front) (Some (Some (create_cmd sample_spec))) boot
    (set_netns sample_spec "/run/netns/ape-w") _) as (ac & E & H).
  exists ac. split; [exact E|]. destruct H as (p & cmd & cc & Hp & _ & Hc & _ & Hcc & Hca).
  - assert (ac = [AList (Some 1%Z); AEnsureNetns "w" 3128; AProvision (set_netns sample_spec "/run/netns/ape-w")]) as ->.
    { change (xw_acts boot ++ ac) with ac in E. rewrite <- E. vm_compute. reflexivity. }
    right. right. left.
  - injection Hc as <-. injection Hcc as <-. exact Hca.
Defined.

Lemma acts_accounted_witness : exists rec, last (xw_trail (fst (serve node front (create_cmd sample_spec)))) = Some rec /\ ar_BoundaryPeer rec = Some front.
Proof.
  pose proof (acts_accounted ascii_lower sample_fs sample_policy [990%Z] node (Some front) (Some (Some (create_cmd sample_spec))) boot
    (AEnsureNetns "w" 3128) "w" _) as H. destruct (serve node front (create_cmd sample_spec)) as [w' resp] eqn:Es. cbn [fst].
  destruct H as (ac & tr & Ha & Ht & _ & H). change (xw_acts boot ++ ac) with ac in Ha. change (xw_recorded boot ++ tr) with tr in Ht.
  assert (xw_acts w' = [AList (Some 1%Z); AEnsureNetns "w" 3128; AProvision (set_netns sample_spec "/run/netns/ape-w")] /\ length (xw_recorded w') = 1) as [Hacts Hlen].
  { replace w' with (fst (serve node front (create_cmd sample_spec))) by (by rewrite Es). split; vm_compute; reflexivity. }
  destruct H as (p & r & rec & notes & Hp & _ & _ & Htr & _ & _ & Hb & _ & _ & _ & Hlast); [rewrite <- Ha, Hacts; right; left|reflexivity|].
  exists rec. rewrite Ht, Htr, length_app in Hlen. destruct notes as [|x notes]; [|cbn in Hlen; lia]. split; [by apply Hlast|]. congruence.
Defined.

Lemma recreate_cuts_egress_witness : xw_acts (fst (serve taken front (create_cmd sample_spec))) =
  [AList (Some 2%Z); AEnsureNetns "w" 3128; AProvision (set_netns sample_spec "/run/netns/ape-w"); ADeleteNetns "w"].
Proof.
  apply (recreate_cuts_egress ascii_lower sample_fs sample_policy [990%Z] taken front (create_cmd sample_spec) (MkCreateCommand sample_spec "operator")
    [bs "v"; bs "w"] sample_netns "169.254.42.1" "/run/netns/ape-w" 3128 Plain boot); try reflexivity; try (vm_compute; reflexivity).
  - left.
  - right. left.
  - discriminate.
Defined.

Lemma ceilings_open_witness :
  CheckCreate ascii_lower sample_fs (MkPolicy [bs "ape:1"] [] [] (MkLimits 1 1 1 0) (MkDevicePolicy [] []) (MkEgressPolicy false [] 0))
    (resolvedCreateFromSpec (plain_spec "w" "ape:1")) (default 0%Z (listed (sample_host (fun _ => inl Plain) (inl Plain)))) = None.
Proof.
  rewrite (ceilings_open ascii_lower sample_fs _ (sample_host (fun _ => inl Plain) (inl Plain)) (plain_spec "w" "ape:1") Plain eq_refl).
  vm_compute. reflexivity.
Defined.

Lemma binds_unchecked_witness : exists spec,
  CheckCreate ascii_lower sample_fs (MkPolicy [bs "ape:1"] [] [] (MkLimits 0 0 0 0) (MkDevicePolicy [] []) (MkEgressPolicy false [] 0))
    (resolvedCreateFromSpec spec) 0 = None /\ MkBindMount "/" DefaultProjectDest false ∈ containerdMounts spec.
Proof.
  destruct (binds_unchecked ascii_lower sample_fs (MkPolicy [bs "ape:1"] [] [] (MkLimits 0 0 0 0) (MkDevicePolicy [] []) (MkEgressPolicy false [] 0))
    "ape:1" "/" 0) as (spec & H1 & H2 & _).
  - left.
  - by left.
  - by left.
  - discriminate.
  - by exists spec.
Defined.
