(* ===== verification/GateScript.v ===== *)
(** The scripts a milestone's gate runs, of internal/apexv1/gatescript.go: the gate line's
    simple commands, and of each the script that its approval freezes. *)
From S2P Require Import Prelude Regex Markdown Spec Shell Paths.

(** ** The lexer *)

(** gateLexer, but for its input. *)
Record GateLexer := MkGateLexer {
  gl_cmds : list (list gostring); gl_cur : list gostring; gl_w : gostring; gl_inWord : bool; gl_target : bool }.

Definition gl_endWord (l : GateLexer) : GateLexer :=
  if gl_inWord l then
    MkGateLexer (gl_cmds l) (if gl_target l then gl_cur l else gl_cur l ++ [gl_w l]) [] false false
  else MkGateLexer (gl_cmds l) (gl_cur l) [] false (gl_target l).

Definition gl_endCmd (l : GateLexer) : GateLexer :=
  let l := gl_endWord l in
  MkGateLexer (match gl_cur l with [] => gl_cmds l | cur => gl_cmds l ++ [cur] end) [] (gl_w l) (gl_inWord l) false.

(** w.WriteRune, with inWord set as [add] does and a quote does. *)
Definition gl_add (r : Z) (l : GateLexer) : GateLexer :=
  MkGateLexer (gl_cmds l) (gl_cur l) (gl_w l ++ EncodeRune r) true (gl_target l).
Definition gl_quote (l : GateLexer) : GateLexer := MkGateLexer (gl_cmds l) (gl_cur l) (gl_w l) true (gl_target l).

(** unicode.IsSpace *)
Definition IsSpace (r : Z) : bool :=
  between 9 13 r || between 8192 8202 r ||
  existsb (Z.eqb r) [32; 133; 160; 5760; 8232; 8233; 8239; 8287; 12288]%Z.

Definition dollar : Z := bz "$".

Section gate.
(** unicode.IsLetter and unicode.IsDigit, tables of the Go library. *)
Context (IsLetter IsDigit : Z -> bool).

(** The runes after a closing backquote. *)
Fixpoint skip_backquote (rs : list Z) : list Z :=
  match rs with
  | [] => []
  | r :: rs' =>
      if one "\" r then match rs' with _ :: rs'' => skip_backquote rs'' | [] => [] end
      else if one "`" r then rs' else skip_backquote rs'
  end.

(** The runes after the bracket that closes [depth] open ones. [quoted]: inside single
    quotes, which open no bracket. *)
Fixpoint skip_bracket (open closer : byte) (depth : nat) (quoted : bool) (rs : list Z) : list Z :=
  match rs with
  | [] => []
  | r :: rs' =>
      if quoted then skip_bracket open closer depth (negb (one "'" r)) rs'
      else if one "\" r then match rs' with _ :: rs'' => skip_bracket open closer depth false rs'' | [] => [] end
      else if one "'" r then skip_bracket open closer depth true rs'
      else if one open r then skip_bracket open closer (S depth) false rs'
      else if one closer r then match depth with S (S d) => skip_bracket open closer (S d) false rs' | _ => rs' end
      else skip_bracket open closer depth false rs'
  end.

Definition name_rune (r : Z) : bool := one "_" r || IsLetter r || IsDigit r.

(** skipExpansion: the runes after the expansion that [r], a $ or a backquote, starts. *)
Definition skipExpansion (r : Z) (rs : list Z) : list Z :=
  if one "`" r then skip_backquote rs
  else match rs with
       | [] => []
       | o :: rs' =>
           if one "(" o then skip_bracket "(" ")" 1 false rs'
           else if one "{" o then skip_bracket "{" "}" 1 false rs'
           else if IsDigit o || in_set "?@#*$!-" o then rs'
           else if negb (one "_" o) && negb (IsLetter o) then rs
           else skip_while name_rune rs'
       end.

Fixpoint gl_single (l : GateLexer) (rs : list Z) : GateLexer * list Z :=
  match rs with
  | [] => (l, [])
  | r :: rs' => if one "'" r then (l, rs') else gl_single (gl_add r l) rs'
  end.

(** doubleQuoted, from after the opening quote. Each round consumes a rune at least. *)
Fixpoint gl_double (fuel : nat) (l : GateLexer) (rs : list Z) : GateLexer * list Z :=
  match fuel, rs with
  | S fuel', r :: rs' =>
      if one x22 r then (l, rs')
      else if one "\" r then
        match rs' with
        | n :: rs'' => gl_double fuel' (gl_add n l) rs''
        | [] => (l, [])
        end
      else if one "$" r || one "`" r then gl_double fuel' (gl_add dollar l) (skipExpansion r rs')
      else gl_double fuel' (gl_add r l) rs'
  | _, _ => (l, rs)
  end.

Definition gl_redirection (l : GateLexer) (rs : list Z) : GateLexer * list Z :=
  let l := if gl_inWord l && is_digits (gl_w l) then MkGateLexer (gl_cmds l) (gl_cur l) [] false (gl_target l) else l in
  let l := gl_endWord l in
  (MkGateLexer (gl_cmds l) (gl_cur l) (gl_w l) (gl_inWord l) true, skip_while (in_set "<>&|") rs).

Definition gl_step (l : GateLexer) (r : Z) (rs : list Z) : GateLexer * list Z :=
  if one "\" r then
    match rs with
    | n :: rs' => (if one nl n then l else gl_add n l, rs')
    | [] => (l, [])
    end
  else if one "'" r then gl_single (gl_quote l) rs
  else if one x22 r then gl_double (length rs) (gl_quote l) rs
  else if one "$" r || one "`" r then (gl_add dollar l, skipExpansion r rs)
  else if one "#" r && negb (gl_inWord l) then (l, skip_while (fun c => negb (one nl c)) rs)
  else if in_set [nl; ";"; "|"; "("; ")"]%byte r || (one "&" r && negb (match rs with n :: _ => one ">" n | [] => false end))
  then (gl_endCmd l, rs)
  else if one "<" r || one ">" r || one "&" r then gl_redirection l rs
  else if IsSpace r then (gl_endWord l, rs)
  else (gl_add r l, rs).

(** Each step consumes a rune at least, so the runes left bound the steps. *)
Fixpoint gl_loop (fuel : nat) (l : GateLexer) (rs : list Z) : GateLexer :=
  match fuel, rs with
  | S fuel', r :: rs' => let '(l, rs) := gl_step l r rs' in gl_loop fuel' l rs
  | _, _ => l
  end.

Definition gateCommands (gate : gostring) : list (list gostring) :=
  let rs := runes gate in gl_cmds (gl_endCmd (gl_loop (length rs) (MkGateLexer [] [] [] false false) rs)).

(** ** The scripts *)

Record interpreter := MkInterpreter {
  in_noScript : gostring; in_withArg : gostring; in_noScriptLong : list gostring; in_withArgLong : list gostring; in_plus : bool }.

Definition shellInterpreter : interpreter := MkInterpreter "cs" "oO" [] [] true.

(** interpreters *)
Definition interpreters (name : gostring) : option interpreter :=
  if slices_Contains [bs "sh"; bs "bash"; bs "zsh"; bs "dash"] name then Some shellInterpreter
  else if name =s "python" then Some (MkInterpreter "cm" "WX" [] [] false)
  else if name =s "node" then
    Some (MkInterpreter "ep" "r" [bs "--eval"; bs "--print"] [bs "--require"; bs "--import"; bs "--loader"; bs "--conditions"] false)
  else if name =s "ruby" then Some (MkInterpreter "e" "IrCEF" [] [] false)
  else if name =s "perl" then Some (MkInterpreter "eE" [] [] [] false)
  else None.

Definition commandPrefixes : list gostring :=
  [ bs "!"; bs "{"; bs "if"; bs "then"; bs "else"; bs "elif"; bs "do"; bs "while"; bs "until"; bs "time"; bs "exec";
    bs "command"; bs "env" ].

(** What a word of short options says: code instead of a file, an argument in the next
    word, or neither. *)
Inductive ShortOpts := GivesCode | TakesNext | NoMore.

Fixpoint short_opts (i : interpreter) (rs : list Z) : ShortOpts :=
  match rs with
  | [] => NoMore
  | r :: rs' =>
      if in_set (in_noScript i) r then GivesCode
      else if in_set (in_withArg i) r then match rs' with [] => TakesNext | _ => NoMore end
      else short_opts i rs'
  end.

(** interpreter.script *)
Fixpoint in_script (i : interpreter) (args : list gostring) : gostring :=
  match args with
  | [] => []
  | a :: args' =>
      if a =s "--" then default [] (head args')
      else if a =s "-" then []
      else if HasPrefix a "--" then
        let '(name, glued) := match Cut a "=" with Some (name, _) => (name, true) | None => (a, false) end in
        if slices_Contains (in_noScriptLong i) name then []
        else if negb glued && slices_Contains (in_withArgLong i) name then match args' with _ :: rest => in_script i rest | [] => [] end
        else in_script i args'
      else if HasPrefix a "-" || (in_plus i && HasPrefix a "+") then
        match short_opts i (runes (tail a)) with
        | GivesCode => []
        | TakesNext => match args' with _ :: rest => in_script i rest | [] => [] end
        | NoMore => in_script i args'
        end
      else a
  end.

Definition isAssignment (w : gostring) : bool :=
  match Cut w "=" with
  | Some (name, _) =>
      match runes name with
      | [] => false
      | r :: rs => (one "_" r || IsLetter r) && forallb name_rune rs
      end
  | None => false
  end.

Definition ContainsAny (s chars : gostring) : bool := existsb (fun b => bool_decide (b ∈ chars)) s.

Definition repoPath (w : gostring) : option gostring :=
  if (w =s "") || HasPrefix w "-" || ContainsAny w "$*?[~" || filepath_IsAbs w || HasPrefix w "/" then None
  else
    let rel := filepath_Clean w in
    if (rel =s ".") || (rel =s "..") || HasPrefix rel "../" then None else Some rel.

(** The words of a command from its executable on: gateScripts' inner loop. *)
Fixpoint executable (env : bool) (c : list gostring) : list gostring :=
  match c with
  | w :: c' =>
      if isAssignment w || slices_Contains commandPrefixes w || (env && HasPrefix w "-") then executable (env || (w =s "env")) c'
      else c
  | [] => []
  end.

Definition digits_dot : list gostring := [bs "0"; bs "1"; bs "2"; bs "3"; bs "4"; bs "5"; bs "6"; bs "7"; bs "8"; bs "9"; bs "."].

(** The scripts one command adds. *)
Definition cmd_scripts (c : list gostring) : list gostring :=
  match executable false c with
  | [] => []
  | exe :: args =>
      (if Contains exe "/" then option_list (repoPath exe) else []) ++
      (match interpreters (TrimRight (filepath_Base exe) digits_dot) with
       | Some i => option_list (repoPath (in_script i args))
       | None => []
       end)
  end.

Definition gateScripts (gate : gostring) : list gostring :=
  sort_Strings (elements (list_to_set (gateCommands gate ≫= cmd_scripts) : gset gostring)).
End gate.

(** ** Every script is a path under the root *)

(** A clean relative path: elements that are no dots, after the ".." that lead out. *)
Definition rel_shape (kept : list gostring) : Prop := exists n gs, kept = gs ++ replicate n (bs "..") /\ Forall good gs.

Lemma clean_rel l : Forall (fun e => "/"%byte ∉ e) l -> forall kept, rel_shape kept -> rel_shape (foldl (clean_step false) kept l).
Proof.
  induction 1 as [|e l He _ IH]; intros kept Hk; [done|]. cbn [foldl]. apply IH. unfold clean_step.
  destruct (decide (e = bs "")) as [E1|E1]; [by rewrite (bool_decide_true _ E1)|]. rewrite (bool_decide_false _ E1).
  destruct (decide (e = bs ".")) as [E2|E2]; [by rewrite (bool_decide_true _ E2)|]. rewrite (bool_decide_false _ E2). cbn [orb].
  destruct Hk as (n & gs & -> & Hg). destruct (decide (e = bs "..")) as [->|E3].
  - rewrite bool_decide_true by done. destruct Hg as [|g gs Hg Hgs]; cbn [app].
    + exists (S n), []. by destruct n.
    + destruct Hg as (_ & _ & _ & Hd). rewrite (bool_decide_false _ Hd). by exists n, gs.
  - rewrite (bool_decide_false _ E3). exists n, (e :: gs). split; [done|]. by constructor.
Qed.

(** What a clean path's bytes are: those of the path. *)
Lemma clean_bytes rooted (P : byte -> Prop) l : Forall (Forall P) l -> forall kept, Forall (Forall P) kept ->
  Forall (Forall P) (foldl (clean_step rooted) kept l).
Proof.
  induction 1 as [|e l He _ IH]; intros kept Hk; [done|]. cbn [foldl]. apply IH. unfold clean_step.
  repeat case_match; auto. by apply Forall_cons in Hk as [_ Hk].
Qed.

Lemma Join_bytes (P : byte -> Prop) sep es : Forall P sep -> Forall (Forall P) es -> Forall P (Join es sep).
Proof.
  intros Hs. induction 1 as [|e es He Hes IH]; [constructor|]. destruct es as [|f es]; [done|]. rewrite Join_cons by done.
  by repeat (apply Forall_app; split).
Qed.

Lemma split_bytes (P : byte -> Prop) s : Forall P s -> Forall (Forall P) (split_byte "/" s).
Proof.
  induction 1 as [|c s Hc _ IH]; cbn [split_byte]; [by repeat constructor|]. destruct (Byte.eqb _ _); [by constructor|].
  destruct (split_byte "/" s) as [|p ps]; [by repeat constructor|]. apply Forall_cons in IH as [? ?]. by repeat constructor.
Qed.

Definition wild : gostring := "$*?[~".

Lemma ContainsAny_false s : ContainsAny s wild = false <-> Forall (fun b => b ∉ wild) s.
Proof.
  unfold ContainsAny. induction s as [|c s IH]; [done|]. cbn [existsb]. rewrite orb_false_iff, bool_decide_eq_false, IH.
  by rewrite Forall_cons.
Qed.

(** A path under the root, as repoPath gives it: its elements are names, none of them a
    dot, and it holds no rune the shell would expand. *)
Definition under_root (p : gostring) : Prop :=
  exists es, es <> [] /\ Forall good es /\ p = Join es "/" /\ ContainsAny p wild = false.

Lemma repoPath_under w p : repoPath w = Some p -> under_root p.
Proof.
  unfold repoPath. change (bs "$*?[~") with wild. destruct (_ || _ || _ || _ || HasPrefix w "/") eqn:E; [done|].
  rewrite !orb_false_iff in E. destruct E as [[[[E1 _] E2] E3] E4]. destruct (_ || _ || HasPrefix _ _) eqn:F; [done|]. intros [= <-].
  rewrite !orb_false_iff, !bool_decide_eq_false in F. destruct F as [[F1 F2] F3].
  unfold filepath_Clean in *. rewrite E4 in *. cbn [app] in *.
  set (kept := foldl (clean_step false) [] (split_byte "/" w)) in *.
  assert (rel_shape kept) as (n & gs & Hk & Hg).
  { apply clean_rel; [apply split_byte_pieces|]. by exists 0, []. }
  assert (Forall (Forall (fun b => b ∉ wild)) kept) as Hb.
  { apply clean_bytes; [|constructor]. by apply split_bytes, ContainsAny_false. }
  clearbody kept. subst kept. rewrite rev_app_distr in *.
  assert (rev (replicate n (bs "..")) = replicate n (bs "..")) as Hrev.
  { clear. induction n as [|n IH]; [done|]. cbn [replicate rev]. rewrite IH. by rewrite <- replicate_S_end. }
  rewrite Hrev in *. destruct n as [|n].
  - cbn [replicate app] in *. rewrite app_nil_r in *. destruct (decide (Join (rev gs) "/" = bs "")) as [J|J].
    { rewrite (bool_decide_true _ J) in F1. done. }
    rewrite (bool_decide_false _ J). exists (rev gs). split_and!; [by intros R; rewrite R in J|by apply Forall_rev|done|].
    apply ContainsAny_false, Join_bytes; [|by apply Forall_rev]. apply Forall_singleton. apply (bool_decide_unpack _). vm_compute. exact I.
  - exfalso. cbn [replicate app] in *. set (rest := replicate n (bs "..") ++ rev gs) in *.
    rewrite bool_decide_false in F2, F3 by (destruct rest; [done|by rewrite Join_cons]). destruct (decide (rest = [])) as [R|R].
    + by rewrite R in F2.
    + rewrite Join_cons in F3 by done. rewrite app_assoc in F3. by rewrite HasPrefix_app in F3.
Qed.

Section scripts.
Context (IsLetter IsDigit : Z -> bool).
Local Abbreviation gateScripts := (gateScripts IsLetter IsDigit).
Local Abbreviation gateCommands := (gateCommands IsLetter IsDigit).
Local Abbreviation cmd_scripts := (cmd_scripts IsLetter IsDigit).

Lemma elem_of_gateScripts gate p : p ∈ gateScripts gate <-> exists c, c ∈ gateCommands gate /\ p ∈ cmd_scripts c.
Proof.
  unfold GateScript.gateScripts. rewrite sort_Strings_perm, elem_of_elements, elem_of_list_to_set, list_elem_of_bind. naive_solver.
Qed.

Lemma cmd_scripts_under c p : p ∈ cmd_scripts c -> under_root p.
Proof.
  unfold GateScript.cmd_scripts. destruct (executable _ _ _ _) as [|exe args]; [by intros ?%elem_of_nil|].
  assert (forall w, p ∈ option_list (repoPath w) -> under_root p) as Hw.
  { intros w. destruct (repoPath w) as [q|] eqn:E; [|by intros ?%elem_of_nil]. intros ->%list_elem_of_singleton. by eapply repoPath_under. }
  intros [H|H]%elem_of_app.
  - destruct (Contains _ _); [by eapply Hw|by apply elem_of_nil in H].
  - destruct (interpreters _); [by eapply Hw|by apply elem_of_nil in H].
Qed.

(** C36: What an approval freezes is well formed: the scripts of a gate line are sorted and
    without repeats, and each is a relative path of plain names, with no dots and nothing
    a shell would expand, so that joined to the project's root it stays under it, at
    those names. *)
Theorem gateScripts_typed gate :
  Sorted str_le (gateScripts gate) /\ NoDup (gateScripts gate) /\
  Forall (fun p => exists es, es <> [] /\ Forall good es /\ p = Join es "/" /\ ContainsAny p "$*?[~" = false /\
    forall root, Forall good root -> filepath_Join (abs root) p = abs (root ++ es)) (gateScripts gate).
Proof.
  split_and!; [apply sort_Strings_sorted| |].
  - unfold GateScript.gateScripts. rewrite sort_Strings_perm. apply NoDup_elements.
  - apply Forall_forall. intros p (c & _ & Hp)%elem_of_gateScripts. apply cmd_scripts_under in Hp as (es & Hne & Hg & -> & Hw).
    exists es. split_and!; try done. intros root Hr. by apply Join_abs.
Qed.

(** ** The lexer reads a written line *)

Local Abbreviation skipExpansion := (skipExpansion IsLetter IsDigit).
Local Abbreviation gl_double := (gl_double IsLetter IsDigit).
Local Abbreviation gl_step := (gl_step IsLetter IsDigit).
Local Abbreviation gl_loop := (gl_loop IsLetter IsDigit).

Lemma skip_backquote_length n : forall rs, length rs <= n -> length (skip_backquote rs) <= length rs.
Proof.
  induction n as [|n IH]; intros [|r rs] Hn; cbn [length] in *; [cbn; lia|lia|cbn; lia|]. cbn [skip_backquote].
  destruct (one "\" r).
  - destruct rs as [|x rs]; cbn [length] in *; [lia|]. pose proof (IH rs ltac:(lia)). lia.
  - destruct (one "`" r); [lia|]. pose proof (IH rs ltac:(lia)). lia.
Qed.

Lemma skip_bracket_length open closer n : forall depth quoted rs, length rs <= n ->
  length (skip_bracket open closer depth quoted rs) <= length rs.
Proof.
  induction n as [|n IH]; intros depth quoted [|r rs] Hn; cbn [length] in *; [cbn; lia|lia|cbn; lia|]. cbn [skip_bracket].
  assert (forall d q, length (skip_bracket open closer d q rs) <= S (length rs)) as Hr.
  { intros d q. pose proof (IH d q rs ltac:(lia)). lia. }
  destruct quoted; [apply Hr|]. destruct (one "\" r).
  - destruct rs as [|x rs]; cbn [length] in *; [lia|]. pose proof (IH depth false rs ltac:(lia)). lia.
  - repeat case_match; auto.
Qed.

Lemma skipExpansion_length r rs : length (skipExpansion r rs) <= length rs.
Proof.
  unfold GateScript.skipExpansion. destruct (one "`" r); [by eapply skip_backquote_length|]. destruct rs as [|o rs]; [done|].
  cbn [length]. pose proof (skip_bracket_length "(" ")" _ 1 false rs (le_n _)). pose proof (skip_bracket_length "{" "}" _ 1 false rs (le_n _)).
  pose proof (skip_while_length (name_rune IsLetter IsDigit) rs). repeat case_match; cbn [length]; lia.
Qed.

Lemma gl_single_length rs : forall l, length (gl_single l rs).2 <= length rs.
Proof. induction rs as [|c rs IH]; intros l; cbn; [done|]. destruct (one _ c); cbn; [lia|]. specialize (IH (gl_add c l)). lia. Qed.

Lemma gl_double_length fuel : forall l rs, length (gl_double fuel l rs).2 <= length rs.
Proof.
  induction fuel as [|fuel IH]; intros l [|r rs]; cbn [GateScript.gl_double length]; try (cbn; lia).
  pose proof (skipExpansion_length r rs). destruct (one x22 r); [cbn; lia|]. destruct (one "\" r).
  - destruct rs as [|n rs]; [cbn; lia|]. specialize (IH (gl_add n l) rs). cbn [length]. lia.
  - destruct (_ || _); [specialize (IH (gl_add dollar l) (skipExpansion r rs)); lia|specialize (IH (gl_add r l) rs); lia].
Qed.

Lemma gl_step_length l r rs : length (gl_step l r rs).2 <= length rs.
Proof.
  pose proof (gl_single_length rs (gl_quote l)). pose proof (gl_double_length (length rs) (gl_quote l) rs).
  pose proof (skipExpansion_length r rs). unfold GateScript.gl_step, gl_redirection.
  repeat case_match; cbn [snd length] in *; try lia; apply skip_while_length.
Qed.

Definition gl_lex (l : GateLexer) (rs : list Z) : GateLexer := gl_loop (length rs) l rs.

Lemma gl_loop_fuel fuel : forall l rs, length rs <= fuel -> gl_loop fuel l rs = gl_lex l rs.
Proof.
  induction fuel as [fuel IH] using lt_wf_ind. intros l [|c rs] Hf; [by destruct fuel|].
  destruct fuel as [|fuel]; cbn in *; [lia|]. unfold gl_lex. cbn [length GateScript.gl_loop].
  pose proof (gl_step_length l c rs). destruct (gl_step l c rs) as [l' rs']. cbn in *.
  rewrite IH by lia. destruct (decide (length rs = fuel)) as [->|]; [by rewrite IH by lia|]. by rewrite (IH (length rs)) by lia.
Qed.

Lemma gl_lex_step l c rs : gl_lex l (c :: rs) = let '(l', rs') := gl_step l c rs in gl_lex l' rs'.
Proof.
  unfold gl_lex at 1. cbn [length GateScript.gl_loop]. pose proof (gl_step_length l c rs).
  destruct (gl_step l c rs). cbn in *. by apply gl_loop_fuel.
Qed.

Definition gl_writes (rs : list Z) (l : GateLexer) : GateLexer :=
  MkGateLexer (gl_cmds l) (gl_cur l) (gl_w l ++ encode rs) true (gl_target l).

Lemma gl_add_writes r rs l : gl_writes rs (gl_add r l) = gl_writes (r :: rs) l.
Proof. unfold gl_writes, gl_add. cbn. unfold encode. cbn. by rewrite app_assoc. Qed.

Lemma gl_writes_writes rs rs' l : gl_writes rs' (gl_writes rs l) = gl_writes (rs ++ rs') l.
Proof. unfold gl_writes, encode. cbn. by rewrite bind_app, app_assoc. Qed.

Lemma gl_writes_nil l : gl_inWord l = true -> gl_writes [] l = l.
Proof. destruct l; cbn. intros ->. unfold gl_writes. cbn. by rewrite app_nil_r. Qed.

Lemma gl_single_spec rs t : forall l, gl_inWord l = true -> Forall (fun r => one "'" r = false) rs ->
  gl_single l (rs ++ rune "'" :: t) = (gl_writes rs l, t).
Proof.
  induction rs as [|r rs IH]; intros l Ht Hr; cbn [app gl_single].
  - by rewrite gl_writes_nil.
  - apply Forall_cons in Hr as [Hr Hrs]. rewrite Hr, IH, gl_add_writes by done. done.
Qed.

Lemma gl_double_spec rs t : forall fuel l, gl_inWord l = true -> length ((rs ≫= escape) ++ rune x22 :: t) <= fuel ->
  gl_double fuel l ((rs ≫= escape) ++ rune x22 :: t) = (gl_writes rs l, t).
Proof.
  induction rs as [|r rs IH]; intros fuel l Ht Hf.
  - destruct fuel as [|fuel]; [cbn in Hf; lia|]. cbn [mbind list_bind app GateScript.gl_double]. by rewrite gl_writes_nil.
  - revert Hf. rewrite bind_cons, <- app_assoc. remember ((rs ≫= escape) ++ rune x22 :: t) as u eqn:Hu.
    destruct (in_set (dq ++ "\$`") r) eqn:E; (destruct fuel as [|fuel]; [unfold escape; rewrite E; cbn; lia|]);
      [assert (escape r = [rune "\"; r]) as -> by (unfold escape; by rewrite E)|assert (escape r = [r]) as -> by (unfold escape; by rewrite E)];
      cbn [app length GateScript.gl_double]; intros Hf.
    + change (one x22 (rune "\")) with false. change (one "\" (rune "\")) with true. cbv iota.
      rewrite IH by (done || lia). by rewrite gl_add_writes.
    + rewrite !(in_set_one _ _ _ E) by (apply (bool_decide_unpack _); vm_compute; exact I). cbn [orb].
      rewrite IH by (done || lia). by rewrite gl_add_writes.
Qed.

(** A piece as both lexers read it: its plain runes are no white space either. *)
Definition gate_piece (p : piece) : Prop :=
  piece_ok p /\ match p with Plain rs => Forall (fun r => IsSpace r = false) rs | _ => True end.
Definition gate_cmd (c : list (list piece)) : Prop := c <> [] /\ Forall (fun w => w <> [] /\ Forall gate_piece w) c.

Lemma gl_plain_step l r rs : in_set special r = false -> IsSpace r = false -> gl_step l r rs = (gl_add r l, rs).
Proof.
  intros Hr Hs. unfold GateScript.gl_step.
  assert (forall b, b ∈ special -> one b r = false) as Ho by (intros b; by apply in_set_one).
  assert (in_set [nl; ";"; "|"; "("; ")"]%byte r = false) as ->.
  { apply not_true_is_false. intros (b & Hb & Hbr)%existsb_exists. apply not_true_iff_false in Hr. apply Hr.
    apply existsb_exists. exists b. split; [|done]. revert b Hb Hbr. clear. cbn. naive_solver. }
  rewrite !Ho by (apply (bool_decide_unpack _); vm_compute; exact I). cbn [orb andb]. by rewrite Hs.
Qed.

Lemma gl_lex_piece p t l : gate_piece p -> gl_lex l (show_piece p ++ t) = gl_lex (gl_writes (mean_piece p) l) t.
Proof.
  destruct p as [rs|rs|rs|r]; intros [Hok Hsp]; cbn [piece_ok show_piece mean_piece] in *.
  - destruct Hok as [Hne Hrs]. destruct rs as [|r rs]; [done|]. clear Hne. revert l r Hrs Hsp.
    induction rs as [|r' rs IH]; intros l r Hrs Hsp; apply Forall_cons in Hrs as [[_ Hr] Hrs]; apply Forall_cons in Hsp as [Hsr Hsp]; cbn [app].
    + rewrite gl_lex_step, gl_plain_step by done. rewrite <- gl_add_writes. by rewrite gl_writes_nil.
    + rewrite gl_lex_step, gl_plain_step by done. rewrite <- gl_add_writes. by apply (IH (gl_add r l) r').
  - cbn [app]. rewrite gl_lex_step, <- app_assoc. change (gl_step l (rune "'") ?rs) with (gl_single (gl_quote l) rs).
    cbn [app]. rewrite gl_single_spec; [done|done|]. by eapply Forall_impl; [exact Hok|]; intros x [_ ?].
  - cbn [app]. rewrite gl_lex_step, <- app_assoc. change (gl_step l (rune x22) ?rs) with (gl_double (length rs) (gl_quote l) rs).
    cbn [app]. by rewrite gl_double_spec by done.
  - destruct Hok as [_ Hr]. cbn [app]. rewrite gl_lex_step. change (gl_step l (rune "\") (r :: t)) with (if one nl r then l else gl_add r l, t).
    rewrite Hr. rewrite <- (gl_writes_nil (gl_add r l)) by done. by rewrite gl_add_writes.
Qed.

Lemma gl_lex_word w t : forall l, Forall gate_piece w -> w <> [] -> gl_lex l (show_word w ++ t) = gl_lex (gl_writes (w ≫= mean_piece) l) t.
Proof.
  induction w as [|p w IH]; intros l Hw Hne; [done|]. apply Forall_cons in Hw as [Hp Hw].
  unfold show_word. rewrite !bind_cons, <- app_assoc, gl_lex_piece by done. destruct w as [|q w].
  - cbn. by rewrite app_nil_r.
  - fold (show_word (q :: w)). rewrite IH by done. by rewrite gl_writes_writes.
Qed.

(** Between words: the words of the command read so far, and no word begun. *)
Definition gl_ready (cmds : list (list gostring)) (words : list gostring) : GateLexer := MkGateLexer cmds words [] false false.

Lemma gl_lex_cmd c t : forall cmds words, gate_cmd c ->
  exists l, gl_lex (gl_ready cmds words) (show_cmd c ++ t) = gl_lex l t /\ gl_endWord l = gl_ready cmds (words ++ words_of c).
Proof.
  induction c as [|w c IH]; intros cmds words [Hne Hc]; [done|]. apply Forall_cons in Hc as [[Hw Hp] Hc].
  destruct c as [|v c].
  - exists (gl_writes (w ≫= mean_piece) (gl_ready cmds words)). cbn [show_cmd]. by rewrite gl_lex_word.
  - change (show_cmd (w :: v :: c)) with (show_word w ++ rune " " :: show_cmd (v :: c)).
    rewrite <- app_assoc, gl_lex_word by done. cbn [app]. rewrite gl_lex_step.
    change (gl_step ?l (rune " ") ?rs) with (gl_endWord l, rs). cbv beta iota.
    change (gl_endWord (gl_writes (w ≫= mean_piece) (gl_ready cmds words))) with (gl_ready cmds (words ++ [encode (w ≫= mean_piece)])).
    destruct (IH cmds (words ++ [encode (w ≫= mean_piece)])) as (l & -> & Hl); [by split|].
    exists l. split; [done|]. by rewrite Hl, <- app_assoc.
Qed.

Lemma gl_endCmd_ready l cmds words : gl_endWord l = gl_ready cmds words -> words <> [] -> gl_endCmd l = gl_ready (cmds ++ [words]) [].
Proof. intros H Hw. unfold gl_endCmd. rewrite H. by destruct words. Qed.

(** A separator ends the command. *)
Lemma gl_lex_sep s t l cmds words : gl_endWord l = gl_ready cmds words -> words <> [] ->
  gl_lex l (show_sep s ++ t) = gl_lex (gl_ready (cmds ++ [words]) []) t.
Proof.
  intros H Hw. pose proof (gl_endCmd_ready _ _ _ H Hw) as He.
  assert (gl_endCmd (gl_endWord l) = gl_ready (cmds ++ [words]) []) as He' by (apply gl_endCmd_ready; [by rewrite H|done]).
  assert (forall l rs, gl_step l (bz " ") rs = (gl_endWord l, rs)) as Hsp by done.
  assert (forall l b rs, b ∈ [nl; ";"; "|"]%byte -> gl_step l (bz b) rs = (gl_endCmd l, rs)) as Hse.
  { intros l0 b rs Hb. rewrite !elem_of_cons, elem_of_nil in Hb. destruct Hb as [-> | [-> | [-> | []]]]; done. }
  assert (forall l c rs, one ">" c = false -> gl_step l (bz "&") (c :: rs) = (gl_endCmd l, c :: rs)) as Ham.
  { intros l0 c rs Hc. unfold GateScript.gl_step. rewrite Hc. done. }
  destruct s; change (show_sep ?s ++ t) with (map bz (match s with Semi => bs "; " | AndIf => bs " && " | OrIf => bs " || " | Pipe => bs " | " | Amp => bs " & " | NewLine => [nl] end) ++ t); cbv iota.
  - change (map bz (bs "; ") ++ t) with (bz ";" :: bz " " :: t). by rewrite gl_lex_step, Hse, gl_lex_step, Hsp, He by set_solver.
  - change (map bz (bs " && ") ++ t) with (bz " " :: bz "&" :: bz "&" :: bz " " :: t).
    by rewrite gl_lex_step, Hsp, gl_lex_step, Ham, gl_lex_step, Ham, gl_lex_step, Hsp, He' by done.
  - change (map bz (bs " || ") ++ t) with (bz " " :: bz "|" :: bz "|" :: bz " " :: t).
    by rewrite gl_lex_step, Hsp, gl_lex_step, Hse, gl_lex_step, Hse, gl_lex_step, Hsp, He' by set_solver.
  - change (map bz (bs " | ") ++ t) with (bz " " :: bz "|" :: bz " " :: t).
    by rewrite gl_lex_step, Hsp, gl_lex_step, Hse, gl_lex_step, Hsp, He' by set_solver.
  - change (map bz (bs " & ") ++ t) with (bz " " :: bz "&" :: bz " " :: t).
    by rewrite gl_lex_step, Hsp, gl_lex_step, Ham, gl_lex_step, Hsp, He' by done.
  - change (map bz [nl] ++ t) with (bz nl :: t). by rewrite gl_lex_step, Hse, He by set_solver.
Qed.

Lemma gl_lex_line l c : forall cmds, Forall (fun d => gate_cmd d.1) l -> gate_cmd c ->
  gl_cmds (gl_endCmd (gl_lex (gl_ready cmds []) (show_line l c))) = cmds ++ ((fun d => words_of d.1) <$> l) ++ [words_of c].
Proof.
  assert (forall d, gate_cmd d -> words_of d <> []) as Hw by (intros [|w d] [Hd _]; done).
  induction l as [|[d s] l IH]; intros cmds Hl Hc.
  - cbn [show_line]. destruct (gl_lex_cmd c [] cmds [] Hc) as (lx & Hlx & He). rewrite app_nil_r in Hlx. rewrite Hlx.
    cbn [app] in He. unfold gl_lex. cbn [length GateScript.gl_loop]. by rewrite (gl_endCmd_ready _ _ _ He (Hw c Hc)).
  - apply Forall_cons in Hl as [Hd Hl]. cbn [show_line].
    destruct (gl_lex_cmd d (show_sep s ++ show_line l c) cmds [] Hd) as (lx & -> & He). cbn [app] in He.
    rewrite (gl_lex_sep s _ lx _ _ He (Hw d Hd)), IH by done. rewrite fmap_cons. cbn [fst]. by rewrite <- app_assoc.
Qed.

Lemma gate_cmd_ok c : gate_cmd c -> cmd_ok c.
Proof.
  intros [Hne Hc]. split; [done|]. eapply Forall_impl; [exact Hc|]. intros w [Hw Hp]. split; [done|].
  eapply Forall_impl; [exact Hp|]. by intros p [? _].
Qed.

Lemma gateCommands_line l c : Forall (fun d => gate_cmd d.1) l -> gate_cmd c ->
  gateCommands (line_text l c) = ((fun d => words_of d.1) <$> l) ++ [words_of c].
Proof.
  intros Hl Hc. unfold GateScript.gateCommands, line_text. rewrite runes_encode.
  - apply (gl_lex_line l c []); done.
  - apply show_line_valid; [|by apply gate_cmd_ok]. eapply Forall_impl; [exact Hl|]. intros d. apply gate_cmd_ok.
Qed.

(** ** What a command runs as a script *)

(** The words before the executable one: assignments, keywords and commands that run
    another, and after env its options. *)
Inductive leading : bool -> list gostring -> bool -> Prop :=
  | leading_nil env : leading env [] env
  | leading_cons env w ws env' :
      isAssignment IsLetter IsDigit w = true \/ w ∈ commandPrefixes \/ (env = true /\ HasPrefix w "-" = true) ->
      leading (env || (w =s "env")) ws env' -> leading env (w :: ws) env'.

Definition flag_word (i : interpreter) (a : gostring) : Prop :=
  HasPrefix a "--" = false /\ a <> bs "-" /\ (HasPrefix a "-" = true \/ in_plus i = true /\ HasPrefix a "+" = true).
Definition plain_flag (i : interpreter) (r : Z) : Prop := in_set (in_noScript i) r = false /\ in_set (in_withArg i) r = false.

(** The file an interpreter is given: its first word that is neither an option nor an
    option's argument, with no option that gives it code. *)
Inductive given (i : interpreter) : list gostring -> gostring -> Prop :=
  | given_word a args : HasPrefix a "-" = false -> (in_plus i = true -> HasPrefix a "+" = false) -> given i (a :: args) a
  | given_rest a args : given i (bs "--" :: a :: args) a
  | given_flags a args w : flag_word i a -> Forall (plain_flag i) (runes (tail a)) -> given i args w -> given i (a :: args) w
  | given_glued a fs r v args w : flag_word i a -> runes (tail a) = fs ++ r :: v -> Forall (plain_flag i) fs -> v <> [] ->
      in_set (in_noScript i) r = false -> in_set (in_withArg i) r = true -> given i args w -> given i (a :: args) w
  | given_next a fs r b args w : flag_word i a -> runes (tail a) = fs ++ [r] -> Forall (plain_flag i) fs ->
      in_set (in_noScript i) r = false -> in_set (in_withArg i) r = true -> given i args w -> given i (a :: b :: args) w
  | given_long a args w : HasPrefix a "--" = true -> a <> bs "--" ->
      (forall name v, Cut a "=" = Some (name, v) -> name ∉ in_noScriptLong i) ->
      (Cut a "=" = None -> a ∉ in_noScriptLong i ++ in_withArgLong i) -> given i args w -> given i (a :: args) w
  | given_long_next a b args w : HasPrefix a "--" = true -> a <> bs "--" -> Cut a "=" = None -> a ∉ in_noScriptLong i ->
      a ∈ in_withArgLong i -> given i args w -> given i (a :: b :: args) w.

(** A command runs the script at [p]: its executable word is that path, or names an
    interpreter that is given it. *)
Definition runs_script (c : list gostring) (p : gostring) : Prop :=
  exists pre env exe args, c = pre ++ exe :: args /\ leading false pre env /\
    ~ (isAssignment IsLetter IsDigit exe = true \/ exe ∈ commandPrefixes \/ (env = true /\ HasPrefix exe "-" = true)) /\
    ((Contains exe "/" = true /\ repoPath exe = Some p) \/
     (exists i w, interpreters (TrimRight (filepath_Base exe) digits_dot) = Some i /\ given i args w /\ repoPath w = Some p)).

Lemma executable_spec c : forall env exe args, executable IsLetter IsDigit env c = exe :: args <->
  exists pre env', c = pre ++ exe :: args /\ leading env pre env' /\
    ~ (isAssignment IsLetter IsDigit exe = true \/ exe ∈ commandPrefixes \/ (env' = true /\ HasPrefix exe "-" = true)).
Proof.
  induction c as [|w c IH]; intros env exe args.
  - split; [done|]. intros (pre & e & Hc & _). by destruct pre.
  - cbn [executable]. unfold slices_Contains. destruct (_ || _ || _) eqn:E.
    + rewrite IH. rewrite !orb_true_iff, bool_decide_eq_true, andb_true_iff in E. split.
      * intros (pre & e & -> & Hl & Hn). exists (w :: pre), e. split_and!; [done| |done]. constructor; [tauto|done].
      * intros (pre & e & Hc & Hl & Hn). destruct Hl as [env|env v ws e Hv Hl]; simplify_eq/=; [tauto|]. by exists ws, e.
    + rewrite !orb_false_iff, bool_decide_eq_false, andb_false_iff in E. split.
      * intros [= -> ->]. exists [], env. split_and!; [done|constructor|]. destruct E as [[-> ?] [->| ->]]; naive_solver.
      * intros (pre & e & Hc & Hl & Hn). destruct Hl as [env|env v ws e Hv Hl]; simplify_eq/=; [done|].
        exfalso. destruct E as [[E1 ?] [E2|E2]]; rewrite ?E1, ?E2 in Hv; naive_solver.
Qed.

Lemma short_opts_flags i fs rs : Forall (plain_flag i) fs -> short_opts i (fs ++ rs) = short_opts i rs.
Proof. induction 1 as [|r fs [H1 H2] _ IH]; [done|]. cbn [app short_opts]. by rewrite H1, H2. Qed.

Lemma short_opts_spec i rs :
  match short_opts i rs with
  | GivesCode => True
  | TakesNext => exists fs r, rs = fs ++ [r] /\ Forall (plain_flag i) fs /\ in_set (in_noScript i) r = false /\ in_set (in_withArg i) r = true
  | NoMore => Forall (plain_flag i) rs \/ exists fs r v, rs = fs ++ r :: v /\ Forall (plain_flag i) fs /\ v <> [] /\
      in_set (in_noScript i) r = false /\ in_set (in_withArg i) r = true
  end.
Proof.
  induction rs as [|r rs IH]; cbn [short_opts]; [by left|]. destruct (in_set (in_noScript i) r) eqn:E1; [done|].
  destruct (in_set (in_withArg i) r) eqn:E2.
  - destruct rs as [|x rs]; [by exists [], r|]. right. by exists [], r, (x :: rs).
  - destruct (short_opts i rs).
    + done.
    + destruct IH as (fs & q & -> & Hf & ?). exists (r :: fs), q. split_and!; try done; [by constructor|naive_solver|naive_solver].
    + destruct IH as [Hf|(fs & q & v & -> & Hf & ?)]; [left; by constructor|]. right. exists (r :: fs), q, v.
      split; [done|]. split; [by constructor|done].
Qed.

Lemma given_in_script i args w : given i args w -> in_script i args = w.
Proof.
  assert (forall a, flag_word i a -> (a =s "--") = false /\ (a =s "-") = false /\ HasPrefix a "--" = false /\
    HasPrefix a "-" || (in_plus i && HasPrefix a "+") = true) as Hflag.
  { intros a (H1 & H2 & H3). rewrite !bool_decide_eq_false. split_and!; [by intros ->|done|done|]. destruct H3 as [->|[-> ->]]; by rewrite ?orb_true_r. }
  assert (forall a, HasPrefix a "--" = true -> a <> bs "--" -> (a =s "--") = false /\ (a =s "-") = false) as Hlong.
  { intros a H1 H2. rewrite !bool_decide_eq_false. split; [done|]. by intros ->. }
  induction 1 as [a args H1 H2|a args|a args w Hf Hr _ IH|a fs r v args w Hf Hr Hfs Hv H1 H2 _ IH|a fs r b args w Hf Hr Hfs H1 H2 _ IH
    |a args w Hp Hn Hc1 Hc2 _ IH|a b args w Hp Hn Hc Hno Hw _ IH]; cbn [in_script].
  - rewrite !bool_decide_false by (by intros ->). destruct (HasPrefix a "--") eqn:E.
    { apply HasPrefix_spec in E as [t ->]. done. }
    rewrite H1. cbn [orb]. destruct (in_plus i); [|done]. by rewrite H2.
  - done.
  - destruct (Hflag a Hf) as (-> & -> & -> & ->). rewrite <- (app_nil_r (runes _)), short_opts_flags by done. done.
  - destruct (Hflag a Hf) as (-> & -> & -> & ->). rewrite Hr, short_opts_flags by done. cbn [short_opts]. rewrite H1, H2. by destruct v.
  - destruct (Hflag a Hf) as (-> & -> & -> & ->). rewrite Hr, short_opts_flags by done. cbn [short_opts]. by rewrite H1, H2.
  - destruct (Hlong a Hp Hn) as [-> ->]. rewrite Hp. destruct (Cut a "=") as [[name v]|].
    + unfold slices_Contains. rewrite bool_decide_false by eauto. done.
    + unfold slices_Contains. specialize (Hc2 eq_refl). rewrite elem_of_app in Hc2. rewrite !bool_decide_false by tauto. done.
  - destruct (Hlong a Hp Hn) as [-> ->]. rewrite Hp, Hc. unfold slices_Contains. rewrite (bool_decide_false _ Hno), (bool_decide_true _ Hw). done.
Qed.

Lemma in_script_given i n : forall args, length args <= n -> in_script i args <> [] -> given i args (in_script i args).
Proof.
  induction n as [|n IH]; intros [|a args] Hn Hne; cbn [length] in *; try done; [lia|]. cbn [in_script] in *.
  destruct (decide (a = bs "--")) as [->|E1].
  { rewrite bool_decide_true in * by done. destruct args as [|b args]; [done|]. cbn. constructor. }
  rewrite (bool_decide_false _ E1) in *. destruct (decide (a = bs "-")) as [->|E2]; [by rewrite bool_decide_true in Hne|].
  rewrite (bool_decide_false _ E2) in *. destruct (HasPrefix a "--") eqn:E3.
  - unfold slices_Contains in *. destruct (Cut a "=") as [[name v]|] eqn:Ec; cbn [negb andb] in *.
    + destruct (bool_decide (name ∈ _)) eqn:Em; [done|]. apply bool_decide_eq_false in Em. apply given_long; try done; [naive_solver|by rewrite Ec|].
      apply IH; [lia|done].
    + destruct (bool_decide (a ∈ in_noScriptLong i)) eqn:Em; [done|]. apply bool_decide_eq_false in Em. destruct (bool_decide _) eqn:Ew.
      * apply bool_decide_eq_true in Ew. destruct args as [|b args]; [done|]. cbn [length] in *. apply given_long_next; try done. apply IH; [lia|done].
      * apply bool_decide_eq_false in Ew. apply given_long; try done; [by rewrite Ec|intros _; rewrite elem_of_app; tauto|]. apply IH; [lia|done].
  - destruct (HasPrefix a "-" || _) eqn:E4.
    + assert (flag_word i a) as Hf by (split_and!; [done|done|]; rewrite orb_true_iff, andb_true_iff in E4; tauto).
      pose proof (short_opts_spec i (runes (tail a))) as Hs. destruct (short_opts i _); [done| |].
      * destruct Hs as (fs & r & Hr & Hfs & H1 & H2). destruct args as [|b args]; [done|]. cbn [length] in *.
        eapply given_next; try done. apply IH; [lia|done].
      * assert (given i args (in_script i args)) as Hg by (apply IH; [lia|done]).
        destruct Hs as [Hfs|(fs & r & v & Hr & Hfs & Hv & H1 & H2)]; [by apply given_flags|by eapply given_glued].
    + apply orb_false_iff in E4 as [E4 E5]. apply given_word; [done|]. intros Hp. by rewrite Hp in E5.
Qed.

Lemma cmd_scripts_spec c p : p ∈ cmd_scripts c <-> runs_script c p.
Proof.
  assert (forall w, p ∈ option_list (repoPath w) <-> repoPath w = Some p) as Ho.
  { intros w. destruct (repoPath w) as [q|]; [split; [by intros ->%list_elem_of_singleton|intros [= ->]; by left]|split; [by intros ?%elem_of_nil|done]]. }
  assert (forall i args, repoPath (in_script i args) = Some p <-> exists w, given i args w /\ repoPath w = Some p) as Hi.
  { intros i args. split; [intros H; exists (in_script i args); split; [|done]|intros (w & <-%given_in_script & H); done].
    apply (in_script_given i _ args (le_n _)). intros E. by rewrite E in H. }
  unfold GateScript.cmd_scripts, runs_script. destruct (executable IsLetter IsDigit false c) as [|exe args] eqn:E.
  - rewrite elem_of_nil. split; [done|]. intros (pre & env & exe & args & H1 & H2 & H3 & _).
    assert (executable IsLetter IsDigit false c = exe :: args) as E' by (apply executable_spec; eauto). by rewrite E in E'.
  - rewrite elem_of_app. transitivity ((Contains exe "/" = true /\ repoPath exe = Some p) \/
      exists i w, interpreters (TrimRight (filepath_Base exe) digits_dot) = Some i /\ given i args w /\ repoPath w = Some p).
    + f_equiv; [destruct (Contains exe "/"); rewrite ?Ho, ?elem_of_nil; naive_solver|].
      destruct (interpreters _) as [i|]; [rewrite Ho, Hi; naive_solver|rewrite elem_of_nil; naive_solver].
    + split.
      * intros H. apply executable_spec in E as (pre & env & -> & Hl & Hn). by exists pre, env, exe, args.
      * intros (pre & env & exe' & args' & H1 & H2 & H3 & H).
        assert (executable IsLetter IsDigit false c = exe' :: args') as E' by (apply executable_spec; eauto). rewrite E in E'. by simplify_eq.
Qed.

(** The scripts of a gate line are the ones its commands run. For a line written from
    commands of words, in any quoting and joined by any separators, a path is among its
    scripts exactly when one of the commands, past its assignments, keywords and env,
    runs that path itself or hands it to an interpreter as its file; no other word, such
    as a data file or a script's argument, is one. *)
Theorem gateScripts_spec l c p :
  Forall (fun d => gate_cmd d.1) l -> gate_cmd c ->
  p ∈ gateScripts (line_text l c) <-> exists d, d ∈ (fst <$> l) ++ [c] /\ runs_script (words_of d) p.
Proof.
  intros Hl Hc. rewrite elem_of_gateScripts, gateCommands_line by done. setoid_rewrite cmd_scripts_spec. split.
  - intros (ws & [Hw|Hw]%elem_of_app & Hr).
    + apply list_elem_of_fmap in Hw as (d & -> & Hd). exists d.1. split; [|done]. apply elem_of_app. left. by apply list_elem_of_fmap_2.
    + apply list_elem_of_singleton in Hw as ->. exists c. split; [|done]. apply elem_of_app. right. by apply list_elem_of_singleton.
  - intros (d & [Hd|Hd]%elem_of_app & Hr).
    + apply list_elem_of_fmap in Hd as (e & -> & He). exists (words_of e.1). split; [|done]. apply elem_of_app. left.
      by apply (list_elem_of_fmap_2 (fun d => words_of d.1)).
    + apply list_elem_of_singleton in Hd as ->. exists (words_of c). split; [|done]. apply elem_of_app. right. by apply list_elem_of_singleton.
Qed.
End scripts.

(** CI=1 ./e2e.sh out.txt && bash -eo pipefail scripts/gate.sh *)
Definition gate_first : list (list piece) := [[Plain (bz <$> bs "CI=1")]; [Plain (bz <$> bs "./e2e.sh")]; [Plain (bz <$> bs "out.txt")]].
Definition gate_last : list (list piece) :=
  [[Plain (bz <$> bs "bash")]; [Plain (bz <$> bs "-eo")]; [Plain (bz <$> bs "pipefail")]; [Quoted (bz <$> bs "scripts/gate.sh")]].

Lemma gateScripts_spec_witness :
  let letter := fun r => between 65 90 r || between 97 122 r in
  gateScripts letter c_digit (line_text [(gate_first, AndIf)] gate_last) = [bs "e2e.sh"; bs "scripts/gate.sh"] /\
  exists d, d ∈ [gate_first; gate_last] /\ runs_script letter c_digit (words_of d) "scripts/gate.sh".
Proof.
  intros letter. split; [vm_compute; reflexivity|].
  apply (proj1 (gateScripts_spec letter c_digit [(gate_first, AndIf)] gate_last "scripts/gate.sh"
    ltac:(apply Forall_singleton; split; [done|]; repeat (constructor || split); done)
    ltac:(split; [done|]; repeat (constructor || split); done))).
  apply (bool_decide_unpack _). vm_compute. exact I.
Defined.
