(* ===== verification/Authz.v ===== *)
(** Who may speak on which subject: the grants of internal/aped/authz.go, on the subject
    tokens of internal/natsconn/identity.go and internal/sandbox/heartbeat.go. *)
From S2P Require Import Prelude Regex Markdown Spec Shell Paths GateScript.

(** ** Tokens *)

(** The rune SubjectToken writes for [r]. *)
Definition token_rune (r : Z) : Z :=
  if one "." r || one "*" r || one ">" r then bz "-" else if IsSpace r then bz "-" else r.

(** SubjectToken *)
Definition SubjectToken (ToLower : gostring -> gostring) (s : gostring) : gostring :=
  let s := TrimSpace s in
  if s =s "" then [] else encode (token_rune <$> runes (ToLower s)).

(** VMInboxPrefix *)
Definition vmInboxRoot : gostring := "_INBOX_vm".
Definition VMInboxPrefix (vmToken : gostring) : gostring := vmInboxRoot ++ "-" ++ vmToken.

(** HeartbeatSubject, WorkspaceFromHeartbeatSubject *)
Definition HeartbeatSubjectRoot : gostring := "ape.metrics".
Definition HeartbeatSubjectSuffix : gostring := "heartbeat".
Definition HeartbeatSubject (vmToken : gostring) : gostring := HeartbeatSubjectRoot ++ "." ++ vmToken ++ "." ++ HeartbeatSubjectSuffix.
Definition WorkspaceFromHeartbeatSubject (subject : gostring) : option gostring :=
  match split_byte "." subject with
  | [a; m; token; hb] =>
      if (a <>s "ape") || (m <>s "metrics") || (hb <>s HeartbeatSubjectSuffix) then None
      else if token =s "" then None else Some token
  | _ => None
  end.

(** ** Grants *)

Definition subjectVMM : gostring := "ape.vmm".
Definition subjectAudit : gostring := "ape.audit".
Definition subjectEvt : gostring := "ape.evt".
Definition subjectLog : gostring := "ape.log".
Definition subjectMetrics : gostring := "ape.metrics".
Definition subjectSvc : gostring := "ape.svc".
Definition subjectBlob : gostring := "ape.blob.uri-request".
Definition subjectSRV : gostring := "$SRV".

Record Grant := MkGrant { gr_PubAllow : list gostring; gr_PubDeny : list gostring; gr_SubAllow : list gostring; gr_SubDeny : list gostring; gr_AllowResponses : bool }.

(** subjectMatch, on the tokens of a pattern and of a subject. *)
Fixpoint match_tokens (pt st : list gostring) : bool :=
  match pt, st with
  | [], [] => true
  | [], _ :: _ => false
  | p :: pt', [] => false
  | p :: pt', t :: st' => if p =s ">" then true else if (p <>s "*") && (p <>s t) then false else match_tokens pt' st'
  end.

Definition subjectMatch (pattern subject : gostring) : bool := match_tokens (split_byte "." pattern) (split_byte "." subject).

(** permits *)
Definition permits (allow deny : list gostring) (subject : gostring) : bool :=
  if existsb (fun p => subjectMatch p subject) deny then false
  else match allow with
       | [] => true
       | _ => existsb (fun p => subjectMatch p subject) allow
       end.
Definition PermitsPublish (g : Grant) (subject : gostring) : bool := permits (gr_PubAllow g) (gr_PubDeny g) subject.
Definition PermitsSubscribe (g : Grant) (subject : gostring) : bool := permits (gr_SubAllow g) (gr_SubDeny g) subject.

Section grants.
Context (ToLower : gostring -> gostring).

(** VMToken, VMInbox *)
Definition VMToken (vmID : gostring) : gostring := "vm-" ++ SubjectToken ToLower vmID.
Definition VMInbox (vmID : gostring) : gostring := VMInboxPrefix (VMToken vmID).

(** VMGrant *)
Definition VMGrant (vmID : gostring) : Grant :=
  let tok := VMToken vmID in
  MkGrant
    [subjectEvt ++ "." ++ tok ++ ".>"; subjectLog ++ "." ++ tok ++ ".>"; subjectMetrics ++ "." ++ tok ++ ".>"; subjectBlob]
    [subjectVMM ++ ".>"; subjectAudit ++ ".>"]
    [subjectSvc ++ "." ++ tok ++ ".>"; VMInboxPrefix tok ++ ".>"]
    [subjectVMM ++ ".>"; bs "_INBOX.>"]
    true.

(** OperatorGrant *)
Definition OperatorGrant (node : gostring) : Grant :=
  let tok := SubjectToken ToLower node in
  MkGrant [subjectVMM ++ "." ++ tok ++ ".>"; subjectSRV ++ ".>"] []
    [bs "_INBOX.>"; subjectVMM ++ "." ++ tok ++ ".exec.>"; subjectSRV ++ ".>"] [] false.

(** auditSubject (audit.go) *)
Definition auditSubject (node op : gostring) : gostring :=
  let event := SubjectToken ToLower op in
  let event := if event =s "" then bs "op" else event in
  subjectAudit ++ "." ++ node ++ "." ++ event.
End grants.

(** serviceGrant, telemetryIngestGrant *)
Definition serviceGrant : Grant := MkGrant [] [] [] [] false.
Definition telemetryIngestGrant : Grant :=
  MkGrant [] [] [subjectEvt ++ ".*.>"; subjectLog ++ ".*.>"; subjectMetrics ++ ".*.>"; bs "_INBOX.>"] [] false.
