(* ===== verification/AuthzFacts.v ===== *)
(** What the grants permit: a workspace's credential speaks for that workspace only. *)
From S2P Require Import Prelude Regex Markdown Spec Shell Paths GateScript Domains Authz.

(** ** Matching *)

(** NATS's rules: [*] stands for one token, [>] for one and more. *)
Inductive subject_matches : list gostring -> list gostring -> Prop :=
| sm_nil : subject_matches [] []
| sm_rest pt t st : subject_matches (bs ">" :: pt) (t :: st)
| sm_star pt t st : subject_matches pt st -> subject_matches (bs "*" :: pt) (t :: st)
| sm_token pt t st : t <> bs ">" -> subject_matches pt st -> subject_matches (t :: pt) (t :: st).

Lemma match_tokens_spec pt : forall st, match_tokens pt st = true <-> subject_matches pt st.
Proof.
  induction pt as [|p pt IH]; intros st.
  - destruct st; cbn; split; try done; [constructor|by inversion 1].
  - destruct st as [|t st]; cbn [match_tokens]; [split; [done|by inversion 1]|].
    destruct (decide (p = bs ">")) as [->|E1]; [rewrite bool_decide_true by done; split; [constructor|done]|]. rewrite (bool_decide_false _ E1).
    destruct (decide (p = bs "*")) as [->|E2].
    { rewrite (bool_decide_true (bs "*" = bs "*")) by done. cbn [negb andb]. rewrite IH. split; [by constructor|]. by inversion 1. }
    rewrite (bool_decide_false _ E2). cbn [negb andb]. destruct (decide (p = t)) as [->|E3].
    + rewrite bool_decide_true by done. cbn [negb]. rewrite IH. split; [by constructor|]. by inversion 1.
    + rewrite (bool_decide_false _ E3). cbn [negb]. split; [done|]. by inversion 1.
Qed.

(** A literal token of a pattern. *)
Definition literal (t : gostring) : Prop := t <> bs ">" /\ t <> bs "*".

Lemma match_literal ts rest st : Forall literal ts ->
  match_tokens (ts ++ rest) st = true <-> exists st', st = ts ++ st' /\ match_tokens rest st' = true.
Proof.
  intros Hl. revert st. induction Hl as [|t ts [H1 H2] _ IH]; intros st; [split; [by exists st|by intros (? & -> & ?)]|].
  destruct st as [|s st]; cbn [app match_tokens]; [split; [done|by intros (? & ? & _)]|].
  rewrite (bool_decide_false _ H1), (bool_decide_false _ H2). cbn [negb andb]. destruct (decide (t = s)) as [->|E].
  - rewrite bool_decide_true by done. cbn [negb]. rewrite IH. split; intros (st' & Hst & Hm); exists st'; (split; [|done]); [by rewrite Hst|by injection Hst].
  - rewrite (bool_decide_false _ E). cbn [negb]. split; [done|]. intros (st' & [= -> _] & _). done.
Qed.

(** A pattern of literal tokens and a rest: its subjects go on after those tokens. *)
Lemma match_rest pattern ts subject : Forall literal ts -> split_byte "." pattern = ts ++ [bs ">"] ->
  subjectMatch pattern subject = true <-> exists t st, split_byte "." subject = ts ++ t :: st.
Proof.
  intros Hl Hp. unfold subjectMatch. rewrite Hp, match_literal by done. split.
  - intros (st & Hs & Hm). destruct st as [|t st]; [done|]. by exists t, st.
  - intros (t & st & ->). by exists (t :: st).
Qed.

Lemma match_exact_subject pattern subject : Forall literal (split_byte "." pattern) -> subjectMatch pattern subject = true <-> subject = pattern.
Proof.
  intros Hl. unfold subjectMatch. rewrite <- (app_nil_r (split_byte "." pattern)), match_literal by done. split.
  - intros (st & Hs & Hm). destruct st; [|done]. rewrite app_nil_r in Hs. by rewrite <- (Join_split_byte "." subject), Hs, Join_split_byte.
  - intros ->. exists []. by rewrite app_nil_r.
Qed.

(** ** Tokens *)

Lemma EncodeRune_bytes r b : b ∈ EncodeRune r -> bz b = r \/ (128 <= bz b)%Z.
Proof.
  unfold EncodeRune. destruct (valid_rune r) eqn:Ev.
  - unfold valid_rune in Ev. apply orb_true_iff in Ev. rewrite !between_spec in Ev.
    destruct (Z.ltb_spec r 128); [|destruct (Z.ltb_spec r 2048); [|destruct (Z.ltb_spec r 65536)]]; rewrite ?elem_of_cons, elem_of_nil; intros Hb.
    + left. destruct Hb as [->|[]]. rewrite bz_byte_of; Z.to_euclidean_division_equations; lia.
    + right. destruct Hb as [->|[->|[]]]; rewrite bz_byte_of; Z.to_euclidean_division_equations; lia.
    + right. destruct Hb as [->|[->|[->|[]]]]; rewrite bz_byte_of; Z.to_euclidean_division_equations; lia.
    + right. destruct Hb as [->|[->|[->|[->|[]]]]]; rewrite bz_byte_of; Z.to_euclidean_division_equations; lia.
  - change (if (RuneError <? 128)%Z then [byte_of RuneError] else _) with [byte_of 239; byte_of 191; byte_of 189].
    rewrite !elem_of_cons, elem_of_nil. intros Hb. right. destruct Hb as [->|[->|[->|[]]]]; rewrite bz_byte_of; Z.to_euclidean_division_equations; lia.
Qed.

Lemma token_rune_dot r : token_rune r <> bz ".".
Proof.
  unfold token_rune. destruct (one "." r) eqn:E; [done|]. cbn [orb]. destruct (one "*" r || one ">" r); [done|].
  destruct (IsSpace r); [done|]. intros ->. done.
Qed.

(** A token holds no dot, so it is one token of a subject. *)
Lemma SubjectToken_dot ToLower s : "."%byte ∉ SubjectToken ToLower s.
Proof.
  unfold SubjectToken. case_match; [apply not_elem_of_nil|]. unfold encode. rewrite list_elem_of_bind.
  intros (r & Hb & Hr). apply list_elem_of_fmap in Hr as (r' & -> & _). apply EncodeRune_bytes in Hb as [Hb|Hb]; [|by apply Hb].
  by apply (token_rune_dot r').
Qed.

Lemma VMToken_dot ToLower id : "."%byte ∉ VMToken ToLower id.
Proof. unfold VMToken. rewrite elem_of_app. intros [H|H]; [|by apply SubjectToken_dot in H]. revert H. by apply (bool_decide_unpack _). Qed.

Lemma VMToken_literal ToLower id : literal (VMToken ToLower id).
Proof. split; unfold VMToken; change (bs "vm-") with ["v"%byte; "m"%byte; "-"%byte]; discriminate. Qed.

(** ** Grants *)

Lemma split_pattern (a b tok : gostring) : "."%byte ∉ a -> "."%byte ∉ b -> "."%byte ∉ tok ->
  split_byte "." ((a ++ "." ++ b) ++ "." ++ tok ++ ".>") = [a; b; tok; bs ">"].
Proof.
  intros Ha Hb Ht. change (bs ".>") with ("."%byte :: bs ">"). change (bs ".") with ["."%byte]. cbn [app]. rewrite <- app_assoc. cbn [app].
  rewrite !split_byte_app by done. reflexivity.
Qed.

Lemma permits_iff allow deny s : allow <> [] ->
  permits allow deny s = true <-> (forall p, p ∈ deny -> subjectMatch p s = false) /\ exists p, p ∈ allow /\ subjectMatch p s = true.
Proof.
  intros Ha. unfold permits. destruct allow as [|x allow]; [done|]. destruct (existsb _ deny) eqn:E.
  - split; [done|]. intros [Hd _]. apply existsb_exists in E as (p & Hp & Hm). apply list_elem_of_In, Hd in Hp. congruence.
  - rewrite existsb_exists. setoid_rewrite <- list_elem_of_In. split; [|by intros [_ ?]]. intros H. split; [|done]. intros p Hp.
    destruct (subjectMatch p s) eqn:Em; [|done]. rewrite <- E. symmetry. apply existsb_exists. exists p. by rewrite <- list_elem_of_In.
Qed.

Section grants.
Context (ToLower : gostring -> gostring).
Abbreviation VMToken := (VMToken ToLower).
Abbreviation VMGrant := (VMGrant ToLower).

(** The subjects of [ape.k.<tok>.>]. *)
Lemma match_own root k id s : root = bs "ape" ++ "." ++ k -> "."%byte ∉ k -> literal k ->
  subjectMatch (root ++ "." ++ VMToken id ++ ".>") s = true <-> exists t st, split_byte "." s = bs "ape" :: k :: VMToken id :: t :: st.
Proof.
  intros -> Hk Hl. apply (match_rest _ [bs "ape"; k; VMToken id]).
  - apply Forall_cons. split; [split; discriminate|]. apply Forall_cons. split; [done|]. apply Forall_singleton, VMToken_literal.
  - apply split_pattern; [by apply (bool_decide_unpack _)|done|apply VMToken_dot].
Qed.

(** The subjects under a root of literal tokens. *)
Lemma match_under pattern ts s : split_byte "." pattern = ts ++ [bs ">"] -> forallb (fun t => (t <>s ">") && (t <>s "*")) ts = true ->
  subjectMatch pattern s = true <-> exists t st, split_byte "." s = ts ++ t :: st.
Proof.
  intros Hp Hl. apply match_rest; [|done]. apply Forall_forall. intros t Ht. rewrite forallb_forall in Hl.
  apply list_elem_of_In, Hl, andb_true_iff in Ht as [H1 H2]. rewrite negb_true_iff, bool_decide_eq_false in H1, H2. done.
Qed.

Lemma publish_iff id s : PermitsPublish (VMGrant id) s = true <->
  (exists k t st, k ∈ [bs "evt"; bs "log"; bs "metrics"] /\ split_byte "." s = bs "ape" :: k :: VMToken id :: t :: st) \/ s = subjectBlob.
Proof.
  unfold PermitsPublish. rewrite permits_iff by done. cbn [gr_PubAllow gr_PubDeny Authz.VMGrant].
  pose proof (match_own subjectEvt "evt" id s eq_refl ltac:(by apply (bool_decide_unpack _)) ltac:(split; discriminate)) as H1.
  pose proof (match_own subjectLog "log" id s eq_refl ltac:(by apply (bool_decide_unpack _)) ltac:(split; discriminate)) as H2.
  pose proof (match_own subjectMetrics "metrics" id s eq_refl ltac:(by apply (bool_decide_unpack _)) ltac:(split; discriminate)) as H3.
  assert (subjectMatch subjectBlob s = true <-> s = subjectBlob) as H4 by (apply match_exact_subject; repeat constructor; discriminate).
  pose proof (match_under (subjectVMM ++ ".>") [bs "ape"; bs "vmm"] s eq_refl eq_refl) as H5.
  pose proof (match_under (subjectAudit ++ ".>") [bs "ape"; bs "audit"] s eq_refl eq_refl) as H6.
  setoid_rewrite elem_of_cons. setoid_rewrite elem_of_cons. setoid_rewrite elem_of_cons. setoid_rewrite elem_of_cons. setoid_rewrite elem_of_nil.
  split.
  - intros [_ (p & [->|[->|[->|[->|[]]]]] & Hm)]; [left..|right; by apply H4]; [exists (bs "evt")|exists (bs "log")|exists (bs "metrics")];
      [apply H1 in Hm|apply H2 in Hm|apply H3 in Hm]; destruct Hm as (t & st & Hm); exists t, st; auto.
  - intros H. split.
    + intros p Hp. apply not_true_iff_false. intros Hm. assert (exists k rest, split_byte "." s = bs "ape" :: k :: rest /\ k <> bs "vmm" /\ k <> bs "audit") as (k & rest & Hs & Hk1 & Hk2).
      { destruct H as [(k & t & st & Hk & Hs)| ->]; [exists k, (VMToken id :: t :: st); split; [done|]|by exists (bs "blob"), [bs "uri-request"]].
        destruct Hk as [->|[->|[->|[]]]]; done. }
      destruct Hp as [->|[->|[]]]; [apply H5 in Hm|apply H6 in Hm]; destruct Hm as (t & st & Hm); rewrite Hs in Hm; cbn [app] in Hm; congruence.
    + destruct H as [(k & t & st & Hk & Hs)| ->]; [|exists subjectBlob; split; [auto|]; by apply H4].
      destruct Hk as [->|[->|[->|[]]]]; [exists (subjectEvt ++ "." ++ VMToken id ++ ".>")|exists (subjectLog ++ "." ++ VMToken id ++ ".>")|exists (subjectMetrics ++ "." ++ VMToken id ++ ".>")];
        (split; [auto|]); [apply H1|apply H2|apply H3]; eauto.
Qed.

Lemma VMInboxPrefix_dot id : "."%byte ∉ VMInboxPrefix (VMToken id).
Proof.
  unfold VMInboxPrefix. rewrite !elem_of_app. intros [H|[H|H]]; [| |by apply VMToken_dot in H]; revert H; by apply (bool_decide_unpack _).
Qed.

Lemma match_inbox id s : subjectMatch (VMInboxPrefix (VMToken id) ++ ".>") s = true <->
  exists t st, split_byte "." s = VMInboxPrefix (VMToken id) :: t :: st.
Proof.
  apply (match_rest _ [VMInboxPrefix (VMToken id)]).
  - apply Forall_singleton. split; unfold VMInboxPrefix, vmInboxRoot; change (bs "_INBOX_vm") with ("_"%byte :: bs "INBOX_vm"); discriminate.
  - change (bs ".>") with ("."%byte :: bs ">"). rewrite split_byte_app by apply VMInboxPrefix_dot. reflexivity.
Qed.

Lemma subscribe_iff id s : PermitsSubscribe (VMGrant id) s = true <->
  (exists t st, split_byte "." s = bs "ape" :: bs "svc" :: VMToken id :: t :: st) \/ exists t st, split_byte "." s = VMInboxPrefix (VMToken id) :: t :: st.
Proof.
  unfold PermitsSubscribe. rewrite permits_iff by done. cbn [gr_SubAllow gr_SubDeny Authz.VMGrant].
  pose proof (match_own subjectSvc "svc" id s eq_refl ltac:(by apply (bool_decide_unpack _)) ltac:(split; discriminate)) as H1.
  pose proof (match_inbox id s) as H2. pose proof (match_under (subjectVMM ++ ".>") [bs "ape"; bs "vmm"] s eq_refl eq_refl) as H3.
  pose proof (match_under "_INBOX.>" [bs "_INBOX"] s eq_refl eq_refl) as H4.
  rewrite <- H1, <- H2. setoid_rewrite elem_of_cons. setoid_rewrite elem_of_cons. setoid_rewrite elem_of_nil. split.
  - intros [_ (p & [->|[->|[]]] & Hm)]; auto.
  - intros H. split; [|destruct H as [H|H]; eauto]. intros p Hp. apply not_true_iff_false. intros Hm.
    destruct Hp as [->|[->|[]]]; [apply H3 in Hm|apply H4 in Hm]; destruct Hm as (t & st & Hm);
      (destruct H as [H|H]; [apply H1 in H|apply H2 in H]); destruct H as (t' & st' & H); rewrite H in Hm;
      unfold VMInboxPrefix, vmInboxRoot in Hm; injection Hm; discriminate.
Qed.
End grants.

Lemma heartbeat_tokens s tok : WorkspaceFromHeartbeatSubject s = Some tok ->
  split_byte "." s = [bs "ape"; bs "metrics"; tok; HeartbeatSubjectSuffix] /\ tok <> [].
Proof.
  unfold WorkspaceFromHeartbeatSubject. destruct (split_byte "." s) as [|a [|m [|x [|hb [|]]]]]; try done.
  destruct (decide (a = bs "ape")) as [->|E]; [rewrite bool_decide_true by done|by rewrite (bool_decide_false _ E)].
  destruct (decide (m = bs "metrics")) as [->|E]; [rewrite bool_decide_true by done|by rewrite (bool_decide_false _ E)].
  destruct (decide (hb = HeartbeatSubjectSuffix)) as [->|E]; [rewrite bool_decide_true by done|by rewrite (bool_decide_false _ E)]. cbn [negb orb].
  destruct (decide (x = bs "")) as [E|E]; [by rewrite (bool_decide_true _ E)|rewrite (bool_decide_false _ E)]. by intros [= ->].
Qed.

Lemma split_heartbeat tok : "."%byte ∉ tok -> split_byte "." (HeartbeatSubject tok) = [bs "ape"; bs "metrics"; tok; HeartbeatSubjectSuffix].
Proof.
  intros Ht. unfold HeartbeatSubject. change (HeartbeatSubjectRoot ++ "." ++ tok ++ "." ++ HeartbeatSubjectSuffix)
    with (bs "ape" ++ "."%byte :: bs "metrics" ++ "."%byte :: tok ++ "."%byte :: HeartbeatSubjectSuffix).
  rewrite !split_byte_app by (done || by apply (bool_decide_unpack _)). reflexivity.
Qed.

(** C28: A workspace's credential speaks for that workspace only. Whatever the names, it
    may publish neither to the management nor to the audit subjects, and what it may
    publish no workspace may subscribe to; two workspaces of different tokens share no
    subject but the blob request; the heartbeat it may publish is attested, naming its own
    token; and it may publish its heartbeats and subscribe to its own inbox. *)
Theorem vm_isolated (ToLower : gostring -> gostring) (a b s x : gostring) :
  (PermitsPublish (VMGrant ToLower a) s = true ->
     subjectMatch (subjectVMM ++ ".>") s = false /\ subjectMatch (subjectAudit ++ ".>") s = false /\
     PermitsSubscribe (VMGrant ToLower b) s = false /\
     (forall tok, WorkspaceFromHeartbeatSubject s = Some tok -> tok = VMToken ToLower a)) /\
  (VMToken ToLower a <> VMToken ToLower b ->
     (PermitsPublish (VMGrant ToLower a) s = true -> PermitsPublish (VMGrant ToLower b) s = true -> s = subjectBlob) /\
     (PermitsSubscribe (VMGrant ToLower a) s = true -> PermitsSubscribe (VMGrant ToLower b) s = false)) /\
  PermitsPublish (VMGrant ToLower a) (HeartbeatSubject (VMToken ToLower a)) = true /\
  WorkspaceFromHeartbeatSubject (HeartbeatSubject (VMToken ToLower a)) = Some (VMToken ToLower a) /\
  PermitsSubscribe (VMGrant ToLower a) (VMInbox ToLower a ++ "." ++ x) = true.
Proof.
  split; [|split; [|split; [|split]]].
  - intros Hp. assert (forall p, p ∈ [subjectVMM ++ ".>"; subjectAudit ++ ".>"] -> subjectMatch p s = false) as Hd.
    { unfold PermitsPublish in Hp. by apply permits_iff in Hp as [Hd _]. }
    split; [apply Hd; left|]. split; [apply Hd; right; left|]. apply publish_iff in Hp. split.
    + apply not_true_iff_false. rewrite subscribe_iff. unfold VMInboxPrefix, vmInboxRoot.
      destruct Hp as [(k & t & st & Hk & Hs)| ->]; [rewrite Hs|]; intros [(t' & st' & H)|(t' & st' & H)]; try done.
      injection H as -> _ _ _. revert Hk. rewrite !elem_of_cons, elem_of_nil. intros [?|[?|[?|[]]]]; done.
    + intros tok [Ht _]%heartbeat_tokens. destruct Hp as [(k & t & st & Hk & Hs)| ->]; [congruence|done].
  - intros Hn. split.
    + intros Ha%publish_iff Hb%publish_iff. destruct Ha as [(k & t & st & _ & Ha)|]; [|done]. destruct Hb as [(k' & t' & st' & _ & Hb)|]; [|done]. congruence.
    + intros Ha%subscribe_iff. apply not_true_iff_false. rewrite subscribe_iff.
      destruct Ha as [(t & st & Ha)|(t & st & Ha)]; rewrite Ha; intros [(t' & st' & H)|(t' & st' & H)]; try (by unfold VMInboxPrefix, vmInboxRoot in H); [congruence|].
      injection H as H _ _. apply Hn. unfold VMToken. by rewrite H.
  - apply publish_iff. left. exists (bs "metrics"), HeartbeatSubjectSuffix, []. split; [right; right; left|]. apply split_heartbeat, VMToken_dot.
  - unfold WorkspaceFromHeartbeatSubject. rewrite split_heartbeat by apply VMToken_dot. rewrite !(bool_decide_true (_ = _)) by done.
    cbn [negb orb]. rewrite bool_decide_false; [done|]. unfold VMToken. change (bs "vm-") with ("v"%byte :: bs "m-"). discriminate.
  - apply subscribe_iff. right. unfold VMInbox. change (bs ".") with ["."%byte]. cbn [app]. rewrite split_byte_app by apply VMInboxPrefix_dot.
    pose proof (split_byte_nonempty "." x). destruct (split_byte "." x) as [|t st]; [done|]. by exists t, st.
Qed.

Lemma vm_isolated_witness : PermitsSubscribe (VMGrant ascii_lower "dev-2") "ape.svc.vm-dev-1.pipeline.run" = false /\
  PermitsSubscribe (VMGrant ascii_lower "dev-1") "ape.svc.vm-dev-1.pipeline.run" = true.
Proof.
  split; [|vm_compute; reflexivity]. apply (proj1 (proj2 (vm_isolated ascii_lower "dev-1" "dev-2" "ape.svc.vm-dev-1.pipeline.run" ""))).
  - intros H. apply (f_equal length) in H as H'. apply (f_equal (fun l => last l)) in H. vm_compute in H. discriminate H.
  - vm_compute. reflexivity.
Defined.

(** Workspaces whose names differ only where a token does not - in case, in a dot, a
    star, an angle bracket or a space written for a dash - have the same grant, inbox and
    heartbeats, so neither is isolated from the other. *)
Theorem tokens_collide : VMGrant ascii_lower "team.app" = VMGrant ascii_lower "team-app" /\ VMGrant ascii_lower "Team App" = VMGrant ascii_lower "team-app" /\
  VMInbox ascii_lower "team.app" = VMInbox ascii_lower "team-app" /\ bs "team.app" <> bs "team-app".
Proof. split; [vm_compute; reflexivity|]. split; [vm_compute; reflexivity|]. split; [vm_compute; reflexivity|]. discriminate. Qed.
