(* ===== verification/Duration.v ===== *)
(** time.ParseDuration, with its floating-point fraction, and the idle-stop setting of
    internal/sandbox/idlestop.go. *)
From Stdlib Require Import SpecFloat.
From S2P Require Import Prelude Regex Markdown Spec Shell.

(** ** float64 *)

Definition prec : Z := 53.
Definition emax : Z := 1024.

(** float64(n), for n not negative. *)
Definition float_of (n : Z) : spec_float := binary_normalize prec emax n 0 false.

(** uint64(x), for x finite and not negative: the fraction is dropped. *)
Definition uint64_of (x : spec_float) : Z :=
  match x with
  | S754_finite _ m e => if (0 <=? e)%Z then (Zpos m * 2 ^ e)%Z else (Zpos m / 2 ^ (- e))%Z
  | _ => 0%Z
  end.

(** ** Durations, in nanoseconds *)

Definition second : Z := 1000000000.
Definition minute : Z := 60 * second.
Definition hour : Z := 60 * minute.

(** The micro sign and the Greek mu. *)
Definition unitMap : list (gostring * Z) :=
  [(bs "ns", 1%Z); (bs "us", 1000%Z); (EncodeRune 181 ++ "s", 1000%Z); (EncodeRune 956 ++ "s", 1000%Z); (bs "ms", 1000000%Z);
   (bs "s", second); (bs "m", minute); (bs "h", hour)].
Definition unit_of (u : gostring) : option Z := snd <$> List.find (fun e => fst e =s u) unitMap.

Definition is_digit (b : byte) : bool := c_digit (bz b).

(** leadingInt: [None] when the number is past 1<<63. *)
Fixpoint leadingInt (x : Z) (s : gostring) : option (Z * gostring) :=
  match s with
  | c :: s' =>
      if is_digit c then
        if (2 ^ 63 / 10 <? x)%Z then None
        else let x := (x * 10 + (bz c - 48))%Z in if (2 ^ 63 <? x)%Z then None else leadingInt x s'
      else Some (x, s)
  | [] => Some (x, [])
  end.

(** leadingFraction: the digits taken, as a number with its scale. *)
Fixpoint leadingFraction (x scale : Z) (overflow : bool) (s : gostring) : Z * Z * gostring :=
  match s with
  | c :: s' =>
      if is_digit c then
        let y := (x * 10 + (bz c - 48))%Z in
        if overflow || ((2 ^ 63 - 1) / 10 <? x)%Z || (2 ^ 63 <? y)%Z then leadingFraction x scale true s'
        else leadingFraction y (scale * 10) false s'
      else (x, scale, s)
  | [] => (x, scale, [])
  end.

(** The bytes of a unit, and the rest. *)
Fixpoint take_unit (s : gostring) : gostring * gostring :=
  match s with
  | c :: s' => if Byte.eqb c "." || is_digit c then ([], s) else let '(u, r) := take_unit s' in (c :: u, r)
  | [] => ([], [])
  end.

(** The rounds of ParseDuration; each takes a byte at least. [None] is an error. *)
Fixpoint duration_loop (fuel : nat) (d : Z) (s : gostring) : option Z :=
  match fuel, s with
  | _, [] => Some d
  | O, _ => None
  | S fuel, c :: _ =>
      if negb (Byte.eqb c "." || is_digit c) then None
      else match leadingInt 0 s with
           | None => None
           | Some (v, s1) =>
               let pre := negb (length s1 =? length s) in
               let '(f, scale, s2, post) :=
                 match s1 with
                 | c1 :: r => if Byte.eqb c1 "." then let '(f, scale, s2) := leadingFraction 0 1 false r in (f, scale, s2, negb (length s2 =? length r))
                              else (0%Z, 1%Z, s1, false)
                 | [] => (0%Z, 1%Z, s1, false)
                 end in
               if negb pre && negb post then None
               else
                 let '(u, s3) := take_unit s2 in
                 if u =s "" then None
                 else match unit_of u with
                      | None => None
                      | Some unit =>
                          if (2 ^ 63 / unit <? v)%Z then None
                          else
                            let v := (v * unit)%Z in
                            let v := if (0 <? f)%Z
                                     then (v + uint64_of (SFmul prec emax (float_of f) (SFdiv prec emax (float_of unit) (float_of scale))))%Z
                                     else v in
                            if (2 ^ 63 <? v)%Z then None
                            else let d := (d + v)%Z in if (2 ^ 63 <? d)%Z then None else duration_loop fuel d s3
                      end
           end
  end.

(** time.ParseDuration *)
Definition ParseDuration (s : gostring) : option Z :=
  let neg := HasPrefix s "-" in
  let s := if neg || HasPrefix s "+" then drop 1 s else s in
  if s =s "0" then Some 0%Z
  else if s =s "" then None
  else match duration_loop (length s) 0 s with
       | None => None
       | Some d => if neg then Some (- d)%Z else if (2 ^ 63 - 1 <? d)%Z then None else Some d
       end.

(** ** The setting *)

(** What an idle_stop says: nothing, an exemption, or a threshold; [None] is an error. *)
Definition IdleStopOff : gostring := "off".
Definition ParseIdleStop (ToLower : gostring -> gostring) (value : gostring) : option (Z * bool) :=
  let v := ToLower (TrimSpace value) in
  if v =s "" then Some (0%Z, false)
  else if (v =s IdleStopOff) || (v =s "false") || (v =s "never") then Some (0%Z, true)
  else match ParseDuration v with
       | None => None
       | Some d => if (d <=? 0)%Z then None else Some (d, false)
       end.

(** ResolveIdleStop: the threshold to apply, [None] for an exempt workspace. *)
Definition ResolveIdleStop (ToLower : gostring -> gostring) (workspaceValue : gostring) (nodeDefault : Z) : option Z :=
  if (nodeDefault <=? 0)%Z then None
  else match ParseIdleStop ToLower workspaceValue with
       | Some (_, true) => None
       | None => Some nodeDefault
       | Some (d, false) => if (d <=? 0)%Z then Some nodeDefault else Some d
       end.
