(* ===== verification/Reaper.v ===== *)
(** The idle reaper of internal/aped/reaper.go: what it hears from the workspaces' agents,
    and which workspaces it stops. *)
From S2P Require Import Prelude Regex Markdown Spec Shell Paths GateScript Domains Authz AuthzFacts Duration.

(** ** Times *)

(** An instant, in nanoseconds; time.Time's zero value is [None]. *)
Definition Instant : Type := option Z.

(** Time.Sub saturates at the bounds of a duration. *)
Definition clamp64 (z : Z) : Z := Z.max (- 2 ^ 63) (Z.min (2 ^ 63 - 1) z).
Definition Sub (t u : Z) : Z := clamp64 (t - u).

(** internal/sandbox/heartbeat.go's interval, and the grace after it. *)
Definition DefaultHeartbeatInterval : Z := 30 * second.
Definition reaperGrace : Z := 3 * DefaultHeartbeatInterval.

(** ** State *)

(** A heartbeat, of what the reaper reads of it. *)
Record Heartbeat := MkHeartbeat { hb_UptimeSeconds : Z; hb_Busy : bool }.

Record heartbeatState := MkHbState { hs_LastSeen : Instant; hs_LastBusy : Instant; hs_Last : Heartbeat }.

(** The zero value a map lookup gives. *)
Definition no_state : heartbeatState := MkHbState None None (MkHeartbeat 0 false).

(** A workspace, of what the reaper reads of it. *)
Record Workspace := MkWorkspace { wk_Name : gostring; wk_IdleStop : gostring }.

(** A message on the heartbeat subjects: its subject, its decoded payload, and when it is
    handled. *)
Definition Message : Type := gostring * option Heartbeat * Z.

(** What goes on while evaluate is at one workspace: the messages handled before its clock
    is read, the clock, the messages handled before its state is looked up, before its
    uptime is looked up again, and while the backend is asked; whether Inspect says that it
    runs, and whether Stop succeeds. *)
Record Slot := MkSlot { sl_before : list Message; sl_now : Z; sl_clocked : list Message; sl_read : list Message; sl_asked : list Message;
  sl_Running : bool; sl_Stop : bool }.

(** The reaper: what it knows by token; the workspaces it stopped, in order. *)
Record Reaper := MkReaper { rp_seen : gmap gostring heartbeatState; rp_stopped : list gostring }.

Section reaper.
Context (ToLower : gostring -> gostring) (IdleAfter : Z).

(** onHeartbeat; [h] is the decoded payload. *)
Definition onHeartbeat (r : Reaper) (subject : gostring) (h : option Heartbeat) (now : Z) : Reaper :=
  match WorkspaceFromHeartbeatSubject subject, h with
  | Some token, Some h =>
      let st := default no_state (rp_seen r !! token) in
      let st := MkHbState (Some now) (if hb_Busy h then Some now else hs_LastBusy st) h in
      MkReaper (<[token := st]> (rp_seen r)) (rp_stopped r)
  | _, _ => r
  end.

(** observedFor *)
Definition observedFor (st : heartbeatState) : Z :=
  if (hb_UptimeSeconds (hs_Last st) <=? 0)%Z then 0 else wrap64 (hb_UptimeSeconds (hs_Last st) * second).

(** The messages of a stretch, handled in order. *)
Definition hear_all (r : Reaper) (ms : list Message) : Reaper := foldl (fun r '(subject, h, now) => onHeartbeat r subject h now) r ms.

(** decide: whether a workspace is to be stopped; it takes the lock twice, and finds [r] and
    then [r']. *)
Definition reap_decide (r r' : Reaper) (ws : Workspace) (now : Z) : bool :=
  match ResolveIdleStop ToLower (wk_IdleStop ws) IdleAfter with
  | None => false
  | Some after =>
      match rp_seen r !! VMToken ToLower (wk_Name ws) with
      | None => false
      | Some st =>
          match hs_LastSeen st with
          | None => false
          | Some seen =>
              if (reaperGrace <? Sub now seen)%Z then false
              else
                let idleSince := match hs_LastBusy st with
                                 | Some t => t
                                 | None => (seen - observedFor (default no_state (rp_seen r' !! VMToken ToLower (wk_Name ws))))%Z
                                 end in
                negb (Sub now idleSince <? after)%Z
          end
      end
  end.

(** forget *)
Definition forget (r : Reaper) (token : gostring) : Reaper := MkReaper (delete token (rp_seen r)) (rp_stopped r).

(** evaluate's body, with the messages that are handled meanwhile. *)
Definition evaluate_one (r : Reaper) (visit : Workspace * Slot) : Reaper :=
  let '(ws, sl) := visit in
  let r1 := hear_all (hear_all r (sl_before sl)) (sl_clocked sl) in
  let r2 := hear_all r1 (sl_read sl) in
  let r3 := hear_all r2 (sl_asked sl) in
  if negb (reap_decide r1 r2 ws (sl_now sl)) then r3
  else if negb (sl_Running sl) then r3
  else if sl_Stop sl then
    let r := forget r3 (VMToken ToLower (wk_Name ws)) in MkReaper (rp_seen r) (rp_stopped r ++ [wk_Name ws])
  else r3.

(** evaluate, of what List says. *)
Definition evaluate (r : Reaper) (list : option (list (Workspace * Slot))) : Reaper :=
  match list with None => r | Some list => foldl evaluate_one r list end.

(** NewReaper *)
Definition NewReaper : Reaper := MkReaper ∅ [].
End reaper.

(** ** Theorems

    When the reaper stops a workspace: exactly when what it heard since it last stopped it
    shows it idle. *)

(** ** Fuel *)

Lemma leadingInt_shorter s : forall x v r, leadingInt x s = Some (v, r) -> length r <= length s.
Proof.
  induction s as [|c s IH]; intros x v r; cbn [leadingInt]; [by intros [= _ <-]|].
  repeat case_match; intros H'; simplify_eq; cbn [length]; [apply IH in H'; lia|lia].
Qed.

Lemma leadingFraction_shorter s : forall x k o f sc r, leadingFraction x k o s = (f, sc, r) -> length r <= length s.
Proof.
  induction s as [|c s IH]; intros x k o f sc r; cbn [leadingFraction]; [by intros [= _ _ <-]|].
  repeat case_match; intros H'; simplify_eq; cbn [length]; try (apply IH in H'; lia); lia.
Qed.

Lemma take_unit_split s : forall u r, take_unit s = (u, r) -> s = u ++ r.
Proof.
  induction s as [|c s IH]; intros u r; cbn [take_unit]; [by intros [= <- <-]|]. case_match; [by intros [= <- <-]|].
  destruct (take_unit s) as [u' r']. intros [= <- <-]. cbn [app]. f_equal. by apply IH.
Qed.

(** A round takes a unit at least, so the length of the text is fuel enough. *)
Lemma duration_fuel n : forall m s d, length s <= n -> length s <= m -> duration_loop n d s = duration_loop m d s.
Proof.
  induction n as [|n IH]; intros m s d Hn Hm; [by destruct s, m; cbn in Hn; try lia|].
  destruct s as [|c s]; [by destruct m|]. destruct m as [|m]; [cbn in Hm; lia|]. cbn [duration_loop]. case_match; [done|].
  destruct (leadingInt 0 (c :: s)) as [[v s1]|] eqn:E1; [|done]. apply leadingInt_shorter in E1.
  set (frac := match s1 with [] => _ | _ => _ end). destruct frac as [[[f scale] s2] post] eqn:Ef.
  assert (length s2 <= length s1) as E2.
  { subst frac. destruct s1 as [|c1 r]; [by simplify_eq|]. case_match; [|by simplify_eq]. destruct (leadingFraction 0 1 false r) as [[f' k'] r'] eqn:El.
    apply leadingFraction_shorter in El. simplify_eq. cbn [length]. lia. }
  case_match; [done|]. destruct (take_unit s2) as [u s3] eqn:Eu. apply take_unit_split in Eu. destruct (decide (u = bs "")) as [E|E]; [by rewrite (bool_decide_true _ E)|].
  rewrite (bool_decide_false _ E). assert (0 < length u) as Hu by (by destruct u; [|cbn; lia]).
  assert (length s3 < length (c :: s)) as H3 by (rewrite Eu, length_app in E2; lia). cbn [length] in *.
  repeat (case_match; try done); apply IH; lia.
Qed.

(** ** What was heard *)

(** What happened, the latest first: a heartbeat that was understood, or a stop by the
    reaper. *)
Inductive Entry := LBeat (t : Z) (token : gostring) (h : Heartbeat) | LStop (token : gostring).

(** The heartbeats of a token since the reaper last stopped it, the latest first. *)
Fixpoint heard (tok : gostring) (log : list Entry) : list (Z * Heartbeat) :=
  match log with
  | [] => []
  | LBeat t k h :: log' => if decide (k = tok) then (t, h) :: heard tok log' else heard tok log'
  | LStop k :: log' => if decide (k = tok) then [] else heard tok log'
  end.

(** What is known of a token's heartbeats. *)
Definition state_of (beats : list (Z * Heartbeat)) : option heartbeatState :=
  match beats with
  | [] => None
  | (t, h) :: _ => Some (MkHbState (Some t) (fst <$> List.find (fun b => hb_Busy (snd b)) beats) h)
  end.

(** The log after some messages: those that are heartbeats are in it. *)
Definition note (log : list Entry) (m : Message) : list Entry :=
  match m with
  | (subject, h, now) =>
      match WorkspaceFromHeartbeatSubject subject, h with
      | Some token, Some h => LBeat now token h :: log
      | _, _ => log
      end
  end.
Abbreviation notes log ms := (foldl note log ms).

(** Messages handled under a clock that does not go back, from [t] to [t']. *)
Fixpoint in_order (t : Z) (ms : list Message) (t' : Z) : Prop :=
  match ms with
  | [] => (t <= t')%Z
  | (_, _, now) :: ms => (t <= now)%Z /\ in_order now ms t'
  end.

Lemma in_order_app ms ms' : forall t t', in_order t (ms ++ ms') t' <-> exists u, in_order t ms u /\ in_order u ms' t'.
Proof.
  induction ms as [|[[s h] now] ms IH]; intros t t'; cbn [app in_order].
  - split; [intros H; exists t; split; [lia|done]|]. intros (u & Hu & H). destruct ms' as [|[[s h] now] ms']; cbn [in_order] in *; [lia|]. split; [lia|by destruct H].
  - setoid_rewrite IH. naive_solver.
Qed.

(** The first busy heartbeat found is the latest. *)
Lemma latest_busy beats u hu t h : StronglySorted (fun a b : Z * Heartbeat => (fst b <= fst a)%Z) beats ->
  List.find (fun b => hb_Busy (snd b)) beats = Some (u, hu) -> (t, h) ∈ beats -> hb_Busy h = true -> (t <= u)%Z.
Proof.
  intros HS Hf Hin Hb. induction HS as [|[t0 h0] beats HS IH HF]; [by apply elem_of_nil in Hin|]. cbn [List.find snd] in Hf.
  destruct (hb_Busy h0) eqn:E0.
  - injection Hf as <- <-. apply elem_of_cons in Hin as [[= -> ->]|Hin]; [lia|]. rewrite Forall_forall in HF. by apply (HF (t, h)).
  - apply elem_of_cons in Hin as [[= -> ->]|Hin]; [congruence|]. by apply IH.
Qed.

Section reaper.
Context (ToLower : gostring -> gostring) (IdleAfter : Z).

(** A workspace is idle, at a clock reading, by what was heard when its state was looked up
    ([log]) and when its uptime was ([log']): its agent reports still, and every time it
    reported work is a threshold ago, or, if it never did, the agent has run that long. *)
Definition idle (log log' : list Entry) (tok : gostring) (now after : Z) : Prop :=
  exists t h rest, heard tok log = (t, h) :: rest /\ (Sub now t <= reaperGrace)%Z /\
    (forall u hu, (u, hu) ∈ heard tok log -> hb_Busy hu = true -> (after <= Sub now u)%Z) /\
    ((forall u hu, (u, hu) ∈ heard tok log -> hb_Busy hu = false) ->
       exists u hu rest', heard tok log' = (u, hu) :: rest' /\ (after <= Sub now (t - observedFor (MkHbState (Some u) None hu)))%Z).

(** A log that tells the state, its times in order. *)
Record tells (log : list Entry) (r : Reaper) (now : Z) : Prop := {
  tl_seen : forall tok, rp_seen r !! tok = state_of (heard tok log);
  tl_times : forall tok, StronglySorted (fun a b => (fst b <= fst a)%Z) (heard tok log);
  tl_past : forall tok t h, (t, h) ∈ heard tok log -> (t <= now)%Z }.

Lemma Sub_mono now t u : (t <= u)%Z -> (Sub now u <= Sub now t)%Z.
Proof. unfold Sub, clamp64. lia. Qed.

(** The idle time of a token whose state is found. *)
Lemma idle_since log log' tok now after t h rest : heard tok log = (t, h) :: rest -> StronglySorted (fun a b => (fst b <= fst a)%Z) (heard tok log) ->
  heard tok log' <> [] -> (Sub now t <= reaperGrace)%Z ->
  (after <= Sub now (match fst <$> List.find (fun b => hb_Busy (snd b)) (heard tok log) with
                     | Some u => u
                     | None => t - observedFor (default no_state (state_of (heard tok log')))
                     end))%Z <-> idle log log' tok now after.
Proof.
  intros Eh Hs Hn Hg. unfold idle. destruct (List.find (fun b => hb_Busy (snd b)) (heard tok log)) as [[u hu]|] eqn:Ef; cbn [fmap option_fmap option_map fst].
  - pose proof Ef as [Hin Hb]%List.find_some. cbn [snd] in Hb. apply list_elem_of_In in Hin. split.
    + intros Ha. exists t, h, rest. split_and!; [done|done| |].
      * intros u' h' Hin' Hb'. transitivity (Sub now u); [done|]. apply Sub_mono. by eapply latest_busy.
      * intros Hno. apply Hno in Hin. congruence.
    + intros (t' & h' & rest' & _ & _ & Hall & _). by eapply Hall.
  - assert (forall u hu, (u, hu) ∈ heard tok log -> hb_Busy hu = false) as Hno.
    { intros u hu Hin. apply list_elem_of_In in Hin. by apply (List.find_none _ _ Ef (u, hu)). }
    destruct (heard tok log') as [|[u' h'] rest'] eqn:Eh'; [done|]. cbn [state_of default]. split.
    + intros Ha. exists t, h, rest. split_and!; [done|done| |].
      * intros u hu Hin Hb. apply Hno in Hin. congruence.
      * intros _. exists u', h', rest'. done.
    + intros (t2 & h2 & rest2 & E2 & _ & _ & Hidle). rewrite Eh in E2. injection E2 as <- <- <-.
      destruct (Hidle Hno) as (u2 & hu2 & rest2 & [= <- <- <-] & Ha). done.
Qed.

Lemma decide_idle log log' r r' u u' now ws : tells log r u -> tells log' r' u' ->
  (heard (VMToken ToLower (wk_Name ws)) log <> [] -> heard (VMToken ToLower (wk_Name ws)) log' <> []) ->
  reap_decide ToLower IdleAfter r r' ws now = true <->
  exists after, ResolveIdleStop ToLower (wk_IdleStop ws) IdleAfter = Some after /\ idle log log' (VMToken ToLower (wk_Name ws)) now after.
Proof.
  intros [Hs Ht _] [Hs' _ _] Hn. unfold reap_decide. destruct (ResolveIdleStop _ _ _) as [after|]; [|split; [done|by intros (? & ? & _)]].
  rewrite Hs, Hs'. specialize (Ht (VMToken ToLower (wk_Name ws))). set (tok := VMToken ToLower (wk_Name ws)) in *.
  transitivity (idle log log' tok now after); [|split; [by exists after|by intros (a & [= <-] & ?)]].
  destruct (heard tok log) as [|[t h] rest] eqn:Eh; cbn [state_of].
  { split; [done|]. intros (? & ? & ? & E & _). congruence. }
  cbn [hs_LastSeen hs_LastBusy]. destruct (Z.ltb_spec reaperGrace (Sub now t)) as [Hg|Hg].
  { split; [done|]. intros (t' & h' & rest' & E & Hg' & _). rewrite Eh in E. injection E as <- _ _. lia. }
  rewrite negb_true_iff, Z.ltb_ge, <- (idle_since log log' tok now after t h rest), Eh; [done|done|by rewrite Eh|by apply Hn|done].
Qed.

(** ** The log tells the state *)

Lemma tells_later log r t now : tells log r t -> (t <= now)%Z -> tells log r now.
Proof. intros [Hs Ht Hp] Hle. split; [done|done|]. intros tok u h Hin. apply Hp in Hin. lia. Qed.

Lemma tells_note log r t subject h now : tells log r t -> (t <= now)%Z -> tells (note log (subject, h, now)) (onHeartbeat r subject h now) now.
Proof.
  intros Htl Hle. unfold onHeartbeat, note. destruct (WorkspaceFromHeartbeatSubject subject) as [token|]; [|by eapply tells_later].
  destruct h as [h|]; [|by eapply tells_later]. destruct Htl as [Hs Ht Hp]. split; cbn [rp_seen heard].
  - intros tok. destruct (decide (token = tok)) as [->|Hne]; [|by rewrite lookup_insert_ne].
    rewrite lookup_insert_eq, ?decide_True by done. cbn [state_of]. f_equal. f_equal. cbn [List.find snd]. destruct (hb_Busy h); [done|].
    rewrite Hs. by destruct (heard tok log) as [|[u hu] rest].
  - intros tok. destruct (decide (token = tok)) as [->|]; [|done]. constructor; [done|]. apply Forall_forall. intros [u hu] Hin.
    apply Hp in Hin. cbn. lia.
  - intros tok u hu. destruct (decide (token = tok)) as [->|]; [rewrite elem_of_cons|]; intros H; [destruct H as [[= -> ->]|H]; [lia|]|]; apply Hp in H; lia.
Qed.

Lemma tells_notes ms : forall log r t t', tells log r t -> in_order t ms t' -> tells (notes log ms) (hear_all r ms) t' /\ rp_stopped (hear_all r ms) = rp_stopped r.
Proof.
  induction ms as [|[[s h] now] ms IH]; intros log r t t' Htl; cbn [in_order foldl]; [intros Hle; split; [by eapply tells_later|done]|].
  intros [Hle Ho]. destruct (IH _ _ _ _ (tells_note _ _ _ s h now Htl Hle) Ho) as [H1 H2]. split; [exact H1|]. unfold hear_all in *. cbn [foldl]. rewrite H2.
  unfold onHeartbeat. by repeat case_match.
Qed.

Lemma tells_stop log r now k name : tells log r now ->
  tells (LStop k :: log) (MkReaper (rp_seen (forget r k)) (rp_stopped (forget r k) ++ [name])) now.
Proof.
  intros [Hs Ht Hp]. split; intros tok; cbn [rp_seen forget heard]; destruct (decide (k = tok)) as [->|Hne].
  - by rewrite lookup_delete_eq.
  - by rewrite lookup_delete_ne.
  - constructor.
  - done.
  - intros t h Hin. by apply elem_of_nil in Hin.
  - apply Hp.
Qed.

(** Messages only add to what was heard of a token. *)
Lemma heard_notes tok ms : forall log, heard tok log <> [] -> heard tok (notes log ms) <> [].
Proof.
  induction ms as [|[[s h] now] ms IH]; intros log Hn; cbn [foldl]; [done|]. apply IH. unfold note.
  repeat case_match; try done. cbn [heard]. by case_decide.
Qed.

(** ** A tick *)

(** One workspace, by the log alone: it is stopped, and what was heard of it forgotten, when
    it is idle by what was heard, runs, and can be stopped; and in no other case. *)
Inductive visited (log : list Entry) (ws : Workspace) (sl : Slot) : list Entry -> list gostring -> Prop :=
| visit_stops after :
    let log1 := notes (notes log (sl_before sl)) (sl_clocked sl) in let log2 := notes log1 (sl_read sl) in
    ResolveIdleStop ToLower (wk_IdleStop ws) IdleAfter = Some after ->
    idle log1 log2 (VMToken ToLower (wk_Name ws)) (sl_now sl) after -> sl_Running sl = true -> sl_Stop sl = true ->
    visited log ws sl (LStop (VMToken ToLower (wk_Name ws)) :: notes log2 (sl_asked sl)) [wk_Name ws]
| visit_leaves :
    let log1 := notes (notes log (sl_before sl)) (sl_clocked sl) in let log2 := notes log1 (sl_read sl) in
    ~ (sl_Running sl = true /\ sl_Stop sl = true /\
       exists after, ResolveIdleStop ToLower (wk_IdleStop ws) IdleAfter = Some after /\ idle log1 log2 (VMToken ToLower (wk_Name ws)) (sl_now sl) after) ->
    visited log ws sl (notes log2 (sl_asked sl)) [].

(** The listed workspaces, one after the other: the log they leave, and those stopped. *)
Inductive walked : list Entry -> list (Workspace * Slot) -> list Entry -> list gostring -> Prop :=
| walked_nil log : walked log [] log []
| walked_cons log ws sl rest log' log'' new new' : visited log ws sl log' new -> walked log' rest log'' new' ->
    walked log ((ws, sl) :: rest) log'' (new ++ new').

Definition slot_messages (sl : Slot) : list Message := sl_before sl ++ sl_clocked sl ++ sl_read sl ++ sl_asked sl.
Definition messages (l : list (Workspace * Slot)) : list Message := l ≫= fun v => slot_messages (snd v).

Lemma evaluate_one_spec log r t t' ws sl : tells log r t -> in_order t (slot_messages sl) t' ->
  exists log' new, visited log ws sl log' new /\ tells log' (evaluate_one ToLower IdleAfter r (ws, sl)) t' /\
    rp_stopped (evaluate_one ToLower IdleAfter r (ws, sl)) = rp_stopped r ++ new.
Proof.
  intros Htl Ho. unfold slot_messages in Ho. apply in_order_app in Ho as (t0 & O0 & Ho). apply in_order_app in Ho as (t1 & O1 & Ho). apply in_order_app in Ho as (t2 & O2 & O3).
  destruct (tells_notes _ _ _ _ _ Htl O0) as [T0 S0]. destruct (tells_notes _ _ _ _ _ T0 O1) as [T1 S1].
  destruct (tells_notes _ _ _ _ _ T1 O2) as [T2 S2]. destruct (tells_notes _ _ _ _ _ T2 O3) as [T3 S3].
  pose proof (decide_idle _ _ _ _ _ _ (sl_now sl) ws T1 T2 (heard_notes _ _ _)) as Hd. unfold evaluate_one.
  set (r1 := hear_all (hear_all r (sl_before sl)) (sl_clocked sl)) in *. set (r2 := hear_all r1 (sl_read sl)) in *. set (r3 := hear_all r2 (sl_asked sl)) in *.
  assert (rp_stopped r3 = rp_stopped r) as E3 by congruence.
  destruct (reap_decide ToLower IdleAfter r1 r2 ws (sl_now sl)) eqn:Er, (sl_Running sl) eqn:Erun, (sl_Stop sl) eqn:Est; cbn [negb].
  1: { destruct (proj1 Hd eq_refl) as (after & Ha & Hi). do 2 eexists. split; [by eapply visit_stops|]. split; [by apply tells_stop|]. cbn. by rewrite E3. }
  all: do 2 eexists; (split; [eapply visit_leaves|split; [exact T3|by rewrite app_nil_r]]).
  all: intros (H1 & H2 & H3); try congruence. all: assert (false = true) by (by apply Hd); done.
Qed.

Lemma walk_spec l : forall log r t t', tells log r t -> in_order t (messages l) t' ->
  exists log' new, walked log l log' new /\ tells log' (foldl (evaluate_one ToLower IdleAfter) r l) t' /\
    rp_stopped (foldl (evaluate_one ToLower IdleAfter) r l) = rp_stopped r ++ new.
Proof.
  induction l as [|[ws sl] l IH]; intros log r t t' Htl; cbn [messages foldl].
  { intros Ho. exists log, []. split; [constructor|]. split; [by eapply tells_later|by rewrite app_nil_r]. }
  intros (u & O1 & O2)%in_order_app. destruct (evaluate_one_spec _ _ _ _ ws sl Htl O1) as (log1 & new1 & V & T & S).
  destruct (IH _ _ _ _ T O2) as (log2 & new2 & W & T2 & S2). exists log2, (new1 ++ new2). split; [by econstructor|]. split; [done|]. by rewrite S2, S, app_assoc.
Qed.

(** A history: messages, and ticks, each with what List says and what goes on meanwhile. *)
Inductive Event := EMessage (m : Message) | ETick (l : option (list (Workspace * Slot))).
Definition event_messages (e : Event) : list Message := match e with EMessage m => [m] | ETick l => messages (default [] l) end.

Definition reaper_step (r : Reaper) (e : Event) : Reaper :=
  match e with
  | EMessage (subject, h, now) => onHeartbeat r subject h now
  | ETick l => evaluate ToLower IdleAfter r l
  end.
Definition reaper_run (events : list Event) : Reaper := foldl reaper_step NewReaper events.

(** What a history comes to by the log alone: the log, and the workspaces stopped. *)
Inductive logged : list Event -> list Entry -> list gostring -> Prop :=
| logged_new : logged [] [] []
| logged_message events log stopped m : logged events log stopped -> logged (events ++ [EMessage m]) (note log m) stopped
| logged_tick events log stopped l log' new : logged events log stopped -> walked log (default [] l) log' new ->
    logged (events ++ [ETick l]) log' (stopped ++ new).

Lemma run_logged events : forall t t', in_order t (events ≫= event_messages) t' ->
  exists log, logged events log (rp_stopped (reaper_run events)) /\ tells log (reaper_run events) t'.
Proof.
  induction events as [|e events IH] using rev_ind; intros t t' Ho.
  { exists []. split; [constructor|]. split; [done|constructor|]. intros tok u h Hin. by apply elem_of_nil in Hin. }
  rewrite bind_app in Ho. apply in_order_app in Ho as (u & O1 & O2). destruct (IH _ _ O1) as (log & Hl & Ht). cbn [mbind list_bind] in O2. rewrite app_nil_r in O2.
  unfold reaper_run in *. rewrite foldl_app. cbn [foldl]. destruct e as [[[subject h] now]|l]; cbn [event_messages reaper_step] in *.
  - cbn [in_order] in O2. destruct O2 as [Hle Hle']. exists (note log (subject, h, now)). split.
    + unfold onHeartbeat. pose proof (logged_message _ _ _ (subject, h, now) Hl) as Hm. by repeat case_match.
    + eapply tells_later; [by eapply tells_note|done].
  - destruct (walk_spec _ _ _ _ _ Ht O2) as (log' & new & W & T & S). exists log'. destruct l as [l|]; cbn [default evaluate id] in *.
    + rewrite S. split; [|done]. by apply (logged_tick _ log _ (Some l)).
    + cbn [foldl] in S, T. split; [|done]. rewrite S. by apply (logged_tick _ log _ None).
Qed.
End reaper.


(** ** Samples *)

(** A node that reaps after four hours; a workspace web, and its agent's subject. *)
Definition four_hours : Z := 4 * hour.
Definition web_subject : gostring := HeartbeatSubject (VMToken ascii_lower "web").
Definition web_says (h : Heartbeat) (now : Z) : Message := (web_subject, Some h, now).

(** A tick at which web is alone on the node, runs and can be stopped; [meanwhile] is
    handled while the backend is asked. *)
Definition tick (idle_stop : gostring) (now : Z) (meanwhile : list Message) : Event :=
  ETick (Some [(MkWorkspace "web" idle_stop, MkSlot [] now [] [] meanwhile true true)]).
Definition stopped_of (events : list Event) : list gostring := rp_stopped (reaper_run ascii_lower four_hours events).

(** Web was at work at one o'clock, and has said it is idle since; it says so again while
    it is being stopped. *)
Definition idle_day : list Event :=
  [EMessage (web_says (MkHeartbeat 60 true) hour); EMessage (web_says (MkHeartbeat 18000 false) (6 * hour));
   tick "" (6 * hour) [web_says (MkHeartbeat 18001 false) (6 * hour + second)]; tick "" (6 * hour + 2 * second) []].


(** ** What the comments promise and the reaper does not do *)

(** A workspace that was at work at one o'clock, was stopped by a person and started again
    five hours later, is stopped at its first heartbeat: what was heard before the stop is
    kept, and the agent's uptime of a minute is not looked at; had the reaper heard nothing
    before, it would leave it. *)
Theorem restarted_reaped :
  let booted := EMessage (web_says (MkHeartbeat 60 false) (6 * hour)) in
  stopped_of [EMessage (web_says (MkHeartbeat 600 true) hour); booted; tick "" (6 * hour) []] = [bs "web"] /\
  stopped_of [booted; tick "" (6 * hour) []] = [].
Proof. vm_compute. split; reflexivity. Qed.

(** A workspace's own idle_stop is taken over the node's default in either direction. *)
Theorem idle_stop_sooner :
  let quiet := EMessage (web_says (MkHeartbeat 1200 false) hour) in
  stopped_of [quiet; tick "10m" hour []] = [bs "web"] /\ stopped_of [quiet; tick "" hour []] = [].
Proof. vm_compute. split; reflexivity. Qed.
