(* ===== verification/CredSync.v ===== *)
(** The credential synchroniser of internal/aped/credsync.go: one session shared by the
    operator's published file and every workspace's copy. *)
From S2P Require Import Prelude Regex Markdown Spec.
Local Open Scope Z_scope.

(** ** Data *)

(** A file: its identity, its content and its modification time. *)
Record CFile := MkCFile { cf_inode : Z; cf_data : gostring; cf_mod : Z }.

Record credPeer := MkCredPeer { pr_path : gostring; pr_published : bool; pr_mod : Z; pr_data : gostring; pr_expires : Z }.

(** What the synchroniser remembers of the publication: its identity, and what it held. *)
Record CredentialSync := MkCredentialSync { cs_lastPublished : option Z; cs_lastPublishedData : option gostring }.

(** The session of a credential file: its tokens and its expiry. *)
Record oauth := MkOauth { oa_AccessToken : gostring; oa_RefreshToken : gostring; oa_ExpiresAt : Z }.

(** The host: the JSON of a file ([None] when it does not decode; [Some None] without a
    session), whether it is JSON, the workspaces' files, whether the publication can be
    looked at again, the writes - those that fail, with what a failing write in place
    leaves -, the time, and the identity of a new file. *)
Record CredHost := MkCredHost { ch_decode : gostring -> option (option oauth); ch_Valid : gostring -> bool; ch_glob : option (list gostring);
  ch_stat : bool; ch_fails : gostring -> option gostring; ch_now : Z; ch_inode : gostring -> Z }.

Section sync.
Context (H : CredHost) (Published : gostring).

(** sessionExpiry *)
Definition sessionExpiry (data : gostring) : Z :=
  match ch_decode H data with
  | Some (Some o) => if (oa_AccessToken o =s "") || (oa_RefreshToken o =s "") || (oa_ExpiresAt o <=? 0) then 0 else oa_ExpiresAt o
  | _ => 0
  end.

(** readPeer *)
Definition readPeer (files : gmap gostring CFile) (path : gostring) (published : bool) : option credPeer :=
  if path =s "" then None
  else match files !! path with
       | None => None
       | Some f => if cf_data f =s "" then None else Some (MkCredPeer path published (cf_mod f) (cf_data f) (sessionExpiry (cf_data f)))
       end.

(** peers; [None] when the workspaces cannot be listed. *)
Definition peers (files : gmap gostring CFile) : option (list credPeer) :=
  match ch_glob H with
  | None => None
  | Some matches => Some (option_list (readPeer files Published true) ++ omap (fun m => readPeer files m false) (sort_Strings matches))
  end.

(** publishedPeer *)
Definition publishedPeer (ps : list credPeer) : option credPeer := List.find pr_published ps.

(** newestPeer *)
Definition newer (best : option credPeer) (p : credPeer) : option credPeer :=
  if pr_expires p =? 0 then best
  else match best with
       | None => Some p
       | Some b =>
           if pr_expires b <? pr_expires p then Some p
           else if pr_expires p <? pr_expires b then best
           else if pr_mod b <? pr_mod p then Some p
           else if (pr_mod p =? pr_mod b) && pr_published p then Some p
           else best
       end.
Definition newestPeer (ps : list credPeer) : option credPeer := foldl newer None ps.

(** republishedPeer: what is remembered then, and the publication when it was replaced. *)
Definition republishedPeer (c : CredentialSync) (files : gmap gostring CFile) (ps : list credPeer) : CredentialSync * option credPeer :=
  match publishedPeer ps with
  | None => (MkCredentialSync None None, None)
  | Some p =>
      match (if ch_stat H then cf_inode <$> files !! pr_path p else None) with
      | None => (c, None)
      | Some fi =>
          let c' := MkCredentialSync (Some fi) (cs_lastPublishedData c) in
          match cs_lastPublished c with
          | None => (c', None)
          | Some prev =>
              let replaced := negb (prev =? fi) in
              let rewritten := match cs_lastPublishedData c with Some d => negb (pr_data p =s d) | None => false end in
              if negb replaced && negb rewritten then (c', None)
              else if negb (ch_Valid H (pr_data p)) then (c', None)
              else (c', Some p)
          end
      end
  end.

(** writeCredential, writeInPlace: whether it succeeds. A write in place keeps the file's
    identity; a copy is replaced by a new file. *)
Definition writeCredential (files : gmap gostring CFile) (p : credPeer) (data : gostring) : gmap gostring CFile * bool :=
  match ch_fails H (pr_path p), files !! pr_path p with
  | None, Some f =>
      let inode := if pr_published p then cf_inode f else ch_inode H (pr_path p) in
      (<[pr_path p := MkCFile inode data (ch_now H)]> files, true)
  | Some rest, Some f => if pr_published p then (<[pr_path p := MkCFile (cf_inode f) rest (ch_now H)]> files, false) else (files, false)
  | _, None => (files, false)
  end.

(** The peers that differ, written in order; [None] after a failure. *)
Fixpoint spread (files : gmap gostring CFile) (newest : credPeer) (written : nat) (ps : list credPeer) : gmap gostring CFile * option nat :=
  match ps with
  | [] => (files, Some written)
  | p :: ps' =>
      if (pr_path p =s pr_path newest) || (pr_data p =s pr_data newest) then spread files newest written ps'
      else match writeCredential files p (pr_data newest) with
           | (files', true) => spread files' newest (S written) ps'
           | (files', false) => (files', None)
           end
  end.

(** SyncOnce: how many peers are written; [None] is an error. *)
Definition SyncOnce (c : CredentialSync) (files : gmap gostring CFile) : CredentialSync * gmap gostring CFile * option nat :=
  match peers files with
  | None => (c, files, None)
  | Some ps =>
      if (length ps <? 2)%nat then (c, files, Some 0%nat)
      else
        let loggedOut := match publishedPeer ps with Some pub => (pr_expires pub =? 0) && ch_Valid H (pr_data pub) | None => false end in
        let '(c', re) := republishedPeer c files ps in
        if loggedOut : bool then (c', files, Some 0%nat)
        else match newestPeer ps with
             | None => (c', files, None)
             | Some best =>
                 let newest := match re with Some p => if 0 <? pr_expires p then p else best | None => best end in
                 match spread files newest 0 ps with
                 | (files', None) => (c', files', None)
                 | (files', Some n) =>
                     let c'' := match publishedPeer ps with Some _ => MkCredentialSync (cs_lastPublished c') (Some (pr_data newest)) | None => c' end in
                     (c'', files', Some n)
                 end
             end
  end.
End sync.

(** ** Theorems

    What a pass of the synchroniser spreads and where; and two ways in which a session is
    lost all the same. *)

(** What is decoded is JSON. *)
Class JsonLaw (H : CredHost) : Prop := decoded_valid : forall d o, ch_decode H d = Some o -> ch_Valid H d = true.

(** The files of the workspaces are listed once each, and the publication is none of them. *)
Definition distinct (H : CredHost) (Published : gostring) : Prop := forall l, ch_glob H = Some l -> NoDup l /\ Published ∉ l.

Section facts.
Context (H : CredHost) (Published : gostring).

(** A peer as it was read. *)
Definition read_from (files : gmap gostring CFile) (p : credPeer) : Prop :=
  exists f, files !! pr_path p = Some f /\ pr_data p = cf_data f /\ pr_mod p = cf_mod f /\ pr_expires p = sessionExpiry H (cf_data f) /\ cf_data f <> [].

Lemma readPeer_spec files path b p : readPeer H files path b = Some p -> pr_path p = path /\ pr_published p = b /\ read_from files p.
Proof.
  unfold readPeer. case_match; [done|]. destruct (files !! path) as [f|] eqn:Ef; [|done]. destruct (decide (cf_data f = bs "")) as [E|E]; [by rewrite (bool_decide_true _ E)|].
  rewrite (bool_decide_false _ E). intros [= <-]. split_and!; try done. by exists f.
Qed.

Lemma sessionExpiry_nonneg d : 0 <= sessionExpiry H d.
Proof.
  unfold sessionExpiry. destruct (ch_decode H d) as [[o|]|]; [|lia|lia]. destruct (Z.leb_spec (oa_ExpiresAt o) 0); [by rewrite orb_true_r|]. case_match; lia.
Qed.

Lemma sessionExpiry_valid d : JsonLaw H -> sessionExpiry H d <> 0 -> ch_Valid H d = true.
Proof. unfold sessionExpiry. intros HJ. destruct (ch_decode H d) as [o|] eqn:E; [|done]. intros _. by eapply HJ. Qed.

(** The peers are read from files of their own. *)
Lemma peers_spec files ps : distinct H Published -> peers H Published files = Some ps ->
  Forall (read_from files) ps /\ NoDup (pr_path <$> ps) /\ (forall p, p ∈ ps -> pr_published p = true -> pr_path p = Published).
Proof.
  intros HD. unfold peers. destruct (ch_glob H) as [l|] eqn:Eg; [|done]. destruct (HD l Eg) as [HN HP]. intros [= <-].
  set (ws := omap (fun m => readPeer H files m false) (sort_Strings l)).
  assert (Forall (read_from files) ws /\ NoDup (pr_path <$> ws) /\ (forall p, p ∈ ws -> pr_path p ∈ l /\ pr_published p = false)) as (W1 & W2 & W3).
  { assert (forall p, p ∈ ws -> exists m, m ∈ l /\ readPeer H files m false = Some p) as Hw.
    { intros p (m & Hm & Hp)%list_elem_of_omap. rewrite sort_Strings_perm in Hm. by exists m. }
    split_and!.
    - apply Forall_forall. intros p (m & _ & Hp)%Hw. by apply readPeer_spec in Hp as (_ & _ & Hp).
    - unfold ws. assert (NoDup (sort_Strings l)) as HN' by (by rewrite sort_Strings_perm). clear -HN'. induction HN' as [|m k Hm HN IH]; [constructor|]. cbn [omap list_omap].
      destruct (readPeer H files m false) as [p|] eqn:Ep; [|done]. cbn [fmap list_fmap]. constructor; [|done].
      intros (q & E & Hq)%list_elem_of_fmap. apply list_elem_of_omap in Hq as (m' & Hm' & Hq). apply readPeer_spec in Ep as (E1 & _), Hq as (E2 & _). congruence.
    - intros p (m & Hm & Hp)%Hw. apply readPeer_spec in Hp as (-> & -> & _). done. }
  destruct (readPeer H files Published true) as [p0|] eqn:E0; cbn [option_list app]; [|split_and!; [done|done|]; intros p Hp; apply W3 in Hp as [_ E]; congruence].
  apply readPeer_spec in E0 as (E1 & E2 & E3). split_and!; [by constructor| |].
  - cbn [fmap list_fmap]. constructor; [|done]. intros (q & E & Hq)%list_elem_of_fmap. apply W3 in Hq as [Hq _]. congruence.
  - intros p [->|Hp]%elem_of_cons; [done|]. apply W3 in Hp as [_ E]. congruence.
Qed.

(** ** The source *)

Lemma newest_spec ps : (forall p, p ∈ ps -> 0 <= pr_expires p) ->
  match newestPeer ps with
  | Some b => b ∈ ps /\ 0 < pr_expires b /\ forall p, p ∈ ps -> pr_expires p <= pr_expires b
  | None => forall p, p ∈ ps -> pr_expires p = 0
  end.
Proof.
  intros Hnn. unfold newestPeer. induction ps as [|p ps IH] using rev_ind; [by intros p ?%elem_of_nil|]. rewrite foldl_app. cbn [foldl].
  assert (0 <= pr_expires p) as Hp by (apply Hnn; set_solver). specialize (IH ltac:(intros q Hq; apply Hnn; set_solver)).
  unfold newer at 1. destruct (Z.eqb_spec (pr_expires p) 0) as [E0|E0].
  { destruct (foldl newer None ps) as [b|].
    - destruct IH as (Hb & Hpos & Hmax). split_and!; [set_solver|done|]. intros q [Hq| ->%list_elem_of_singleton]%elem_of_app; [auto|lia].
    - intros q [Hq| ->%list_elem_of_singleton]%elem_of_app; auto. }
  destruct (foldl newer None ps) as [b|].
  - destruct IH as (Hb & Hpos & Hmax). assert (forall x, x = p \/ x = b -> pr_expires p <= pr_expires x -> pr_expires b <= pr_expires x ->
      x ∈ ps ++ [p] /\ 0 < pr_expires x /\ forall q, q ∈ ps ++ [p] -> pr_expires q <= pr_expires x) as Hx.
    { intros x Hx H1 H2. split_and!; [set_solver|lia|]. intros q [Hq| ->%list_elem_of_singleton]%elem_of_app; [apply Hmax in Hq|]; lia. }
    destruct (Z.ltb_spec (pr_expires b) (pr_expires p)); [apply Hx; auto; lia|]. destruct (Z.ltb_spec (pr_expires p) (pr_expires b)); [apply Hx; auto; lia|].
    destruct (pr_mod b <? pr_mod p); [apply Hx; auto; lia|]. destruct (_ && _); apply Hx; auto; lia.
  - split_and!; [set_solver|lia|]. intros q [Hq| ->%list_elem_of_singleton]%elem_of_app; [apply IH in Hq|]; lia.
Qed.

Lemma publishedPeer_spec ps p : publishedPeer ps = Some p -> p ∈ ps /\ pr_published p = true.
Proof. unfold publishedPeer. intros [Hp E]%List.find_some. split; [by apply list_elem_of_In|done]. Qed.

Lemma republished_is c files ps c' p : republishedPeer H c files ps = (c', Some p) -> publishedPeer ps = Some p.
Proof. unfold republishedPeer. repeat case_match; intros [= <- <-]; done. Qed.

(** ** The spread *)

Lemma write_spec files p data : read_from files p ->
  let '(files', ok) := writeCredential H files p data in
  (forall x, x <> pr_path p -> files' !! x = files !! x) /\ dom files' = dom files /\
  (ok = true -> exists f, files' !! pr_path p = Some f /\ cf_data f = data) /\
  (pr_published p = true -> cf_inode <$> files' !! pr_path p = cf_inode <$> files !! pr_path p).
Proof.
  intros (f & Ef & _). unfold writeCredential. rewrite Ef. assert (forall g, dom (<[pr_path p := g]> files) = dom files) as Hdom.
  { intros g. rewrite dom_insert_L. assert (pr_path p ∈ dom files) by (by apply elem_of_dom_2 in Ef). set_solver. }
  destruct (ch_fails H (pr_path p)); [destruct (pr_published p) eqn:Epub|]; split_and!; try done; try (intros x Hx; by rewrite lookup_insert_ne); rewrite ?lookup_insert_eq, ?Ef; try done.
  - by eexists.
  - intros ->. done.
Qed.

Lemma spread_spec newest ps : forall files n, Forall (read_from files) ps -> NoDup (pr_path <$> ps) -> (forall p, p ∈ ps -> pr_path p = pr_path newest -> pr_data p = pr_data newest) ->
  let '(files', r) := spread H files newest n ps in
  (forall x, x ∉ pr_path <$> ps -> files' !! x = files !! x) /\ dom files' = dom files /\
  (is_Some r -> forall p, p ∈ ps -> exists f, files' !! pr_path p = Some f /\ cf_data f = pr_data newest) /\
  (forall p, p ∈ ps -> pr_published p = true -> cf_inode <$> files' !! pr_path p = cf_inode <$> files !! pr_path p).
Proof.
  induction ps as [|p ps IH]; intros files n HF HN Hsame; cbn [spread]; [split_and!; try done; by intros _ p ?%elem_of_nil|].
  apply Forall_cons in HF as [Hp HF]. cbn [fmap list_fmap] in HN. apply NoDup_cons in HN as [Hnin HN].
  destruct ((pr_path p =s pr_path newest) || (pr_data p =s pr_data newest)) eqn:Eskip.
  - specialize (IH files n HF HN ltac:(intros q Hq; apply Hsame; by right)). destruct (spread H files newest n ps) as [files' r]. destruct IH as (I1 & I2 & I3 & I4).
    assert (pr_data p = pr_data newest) as Ed.
    { apply orb_true_iff in Eskip as [E|E]; apply bool_decide_eq_true in E; [apply Hsame; [by left|done]|done]. }
    cbn [fmap list_fmap]. split_and!; [intros x Hx; apply I1; set_solver|done| |].
    + intros Hr q [->|Hq]%elem_of_cons; [|by apply I3]. rewrite I1 by done. destruct Hp as (f & Ef & E & _). exists f. split; [done|]. by rewrite <- E.
    + intros q [->|Hq]%elem_of_cons; [by rewrite I1|by apply I4].
  - pose proof (write_spec files p (pr_data newest) Hp) as Hw. destruct (writeCredential H files p (pr_data newest)) as [f1 ok]. destruct Hw as (W1 & W2 & W3 & W4).
    destruct ok.
    + assert (Forall (read_from f1) ps) as HF1.
      { apply Forall_forall. intros q Hq. rewrite Forall_forall in HF. destruct (HF q Hq) as (f & Ef & Hf). exists f. split; [|done]. rewrite W1; [done|].
        intros E. apply Hnin. rewrite <- E. apply list_elem_of_fmap. by exists q. }
      specialize (IH f1 (S n) HF1 HN ltac:(intros q Hq; apply Hsame; by right)). destruct (spread H f1 newest (S n) ps) as [files' r]. destruct IH as (I1 & I2 & I3 & I4).
      cbn [fmap list_fmap]. split_and!; [|congruence| |].
      * intros x [Hx1 Hx2]%not_elem_of_cons. rewrite I1 by done. by apply W1.
      * intros Hr q [->|Hq]%elem_of_cons; [|by apply I3]. rewrite I1 by done. by apply W3.
      * intros q [->|Hq]%elem_of_cons; intros Hpub; [rewrite I1 by done; by apply W4|]. rewrite I4 by done. rewrite W1; [done|]. intros E. apply Hnin. rewrite <- E. apply list_elem_of_fmap. by exists q.
    + cbn [fmap list_fmap]. split_and!; [intros x [Hx1 Hx2]%not_elem_of_cons; by apply W1|done|by intros [? [=]]|].
      intros q [->|Hq]%elem_of_cons Hpub; [by apply W4|]. rewrite W1; [done|]. intros E. apply Hnin. rewrite <- E. apply list_elem_of_fmap. by exists q.
Qed.
End facts.

(** ** A pass *)

Lemma spread_same H newest ps : forall files n, Forall (fun p => pr_data p = pr_data newest) ps -> spread H files newest n ps = (files, Some n).
Proof. induction ps as [|p ps IH]; intros files n HF; [done|]. apply Forall_cons in HF as [Hp HF]. cbn [spread]. rewrite (bool_decide_true _ Hp), orb_true_r. by apply IH. Qed.

(** The same host at another time: other failures, another clock. *)
Definition same_reading (H H2 : CredHost) : Prop := ch_decode H2 = ch_decode H /\ ch_Valid H2 = ch_Valid H /\ ch_glob H2 = ch_glob H.

Lemma same_readPeer H H2 files path b : same_reading H H2 -> readPeer H2 files path b = readPeer H files path b.
Proof. intros (E & _). unfold readPeer, sessionExpiry. by rewrite E. Qed.

Lemma same_peers H H2 Published files : same_reading H H2 -> peers H2 Published files = peers H Published files.
Proof.
  intros HS. pose proof HS as (_ & _ & E). unfold peers. rewrite E. destruct (ch_glob H); [|done]. rewrite (same_readPeer H H2) by done. do 2 f_equal.
  induction (sort_Strings l) as [|m k IH]; [done|]. cbn [omap list_omap]. rewrite (same_readPeer H H2), IH by done. done.
Qed.

(** Peers that hold one session stay as they are. *)
Lemma settled_same H2 Published c files d ps : peers H2 Published files = Some ps -> Forall (fun p => pr_data p = d /\ 0 < pr_expires p) ps ->
  exists c2, SyncOnce H2 Published c files = (c2, files, Some 0%nat).
Proof.
  intros Hps HF. unfold SyncOnce. rewrite Hps. destruct (Nat.ltb_spec (length ps) 2) as [|Hlen]; [by eexists|].
  destruct (republishedPeer H2 c files ps) as [c1 re] eqn:Ere. case_match; [by eexists|].
  pose proof (newest_spec ps) as Hn. rewrite Forall_forall in HF. specialize (Hn ltac:(intros p Hp; apply HF in Hp; lia)).
  destruct (newestPeer ps) as [b|].
  2: { destruct ps as [|p ps]; [cbn in Hlen; lia|]. exfalso. specialize (Hn p ltac:(by left)). destruct (HF p ltac:(by left)). lia. }
  destruct Hn as (Hb & _ & _). set (newest := match re with Some p => _ | None => b end).
  assert (pr_data newest = d) as Ed.
  { unfold newest. destruct re as [p|]; [|by apply HF]. destruct (0 <? pr_expires p); [|by apply HF]. apply republished_is, publishedPeer_spec in Ere as [Ere _]. by apply HF. }
  rewrite spread_same; [by eexists|]. apply Forall_forall. intros p Hp. rewrite Ed. by apply HF.
Qed.

Lemma peers_after H Published files files' ps ps2 : distinct H Published -> peers H Published files = Some ps -> peers H Published files' = Some ps2 ->
  (forall x, x ∉ pr_path <$> ps -> files' !! x = files !! x) -> forall q, q ∈ ps2 -> read_from H files' q /\ pr_path q ∈ pr_path <$> ps.
Proof.
  intros HD Hps Hps2 Hout q Hq. split; [eapply peers_spec in Hps2 as (HF & _); [|done]; rewrite Forall_forall in HF; by apply HF|].
  destruct (decide (pr_path q ∈ pr_path <$> ps)) as [|Hn]; [done|]. exfalso. apply Hn. specialize (Hout _ Hn). clear Hn. unfold peers in *.
  destruct (ch_glob H) as [l|]; [|done]. injection Hps as <-. injection Hps2 as <-. rewrite fmap_app, elem_of_app.
  assert (forall path b, readPeer H files' path b = Some q -> readPeer H files path b = Some q) as Hr.
  { intros path b Hr. pose proof Hr as (<- & _ & _)%readPeer_spec. unfold readPeer in *. by rewrite Hout in Hr. }
  apply elem_of_app in Hq as [Hq|Hq].
  - left. destruct (readPeer H files' Published true) as [p0|] eqn:E0; [|by apply elem_of_nil in Hq]. apply list_elem_of_singleton in Hq as ->. rewrite (Hr _ _ E0). by left.
  - right. apply list_elem_of_omap in Hq as (m & Hm & Hq). apply list_elem_of_fmap. exists q. split; [done|]. apply list_elem_of_omap. exists m. split; [done|]. by apply Hr.
Qed.

(** The publication is another file than at the last pass, or holds other bytes. *)
Definition was_replaced (H : CredHost) (c : CredentialSync) (files : gmap gostring CFile) (pub : credPeer) : Prop :=
  ch_stat H = true /\ exists prev f, cs_lastPublished c = Some prev /\ files !! pr_path pub = Some f /\
    (cf_inode f <> prev \/ exists d, cs_lastPublishedData c = Some d /\ pr_data pub <> d).

Lemma republished_replaced H c files ps : match snd (republishedPeer H c files ps) with
  | Some p => publishedPeer ps = Some p /\ was_replaced H c files p
  | None => forall p, publishedPeer ps = Some p -> ch_Valid H (pr_data p) = true -> ~ was_replaced H c files p
  end.
Proof.
  unfold republishedPeer, was_replaced. destruct (publishedPeer ps) as [p|] eqn:Ep; [|done]. destruct (ch_stat H); [|by intros q [= <-] _ [? _]].
  destruct (files !! pr_path p) as [f|] eqn:Ef; cbn [fmap option_fmap option_map]; [|intros q [= <-] _ (_ & prev & f & _ & ? & _); congruence].
  destruct (cs_lastPublished c) as [prev|] eqn:Ec; [|intros q [= <-] _ (_ & prev & g & [=] & _)]. destruct (Z.eqb_spec prev (cf_inode f)) as [E|E]; cbn [negb andb].
  - destruct (cs_lastPublishedData c) as [d|] eqn:Ed; cbn [negb snd].
    2: { intros q [= <-] _ (_ & prev' & g & [= <-] & Hg & [Hn|(d & [=] & _)]). congruence. }
    destruct (decide (pr_data p = d)) as [E2|E2]; [rewrite (bool_decide_true _ E2); cbn [negb snd]|rewrite (bool_decide_false _ E2); cbn [negb]].
    { intros q [= <-] _ (_ & prev' & g & [= <-] & Hg & [Hn|(d' & [= <-] & Hn)]); congruence. }
    destruct (ch_Valid H (pr_data p)) eqn:Ev; cbn [negb snd]; [|intros q [= <-]; congruence]. split; [done|]. split; [done|]. exists prev, f. split_and!; [done..|]. right. by exists d.
  - destruct (ch_Valid H (pr_data p)) eqn:Ev; cbn [negb snd]; [|intros q [= <-]; congruence]. split; [done|]. split; [done|]. exists prev, f. split_and!; [done..|]. by left.
Qed.

(** A pass that has nothing to do: the workspaces cannot be listed, there are not two
    peers, the publication is logged out, or no peer has a session; with what it reports. *)
Definition nothing_to_do (H : CredHost) (Published : gostring) (files : gmap gostring CFile) (r : option nat) : Prop :=
  match peers H Published files with
  | None => r = None
  | Some ps =>
      ((length ps < 2)%nat /\ r = Some 0%nat) \/
      (exists pub, publishedPeer ps = Some pub /\ pr_expires pub = 0 /\ ch_Valid H (pr_data pub) = true /\ r = Some 0%nat) \/
      ((forall p, p ∈ ps -> pr_expires p = 0) /\ r = None)
  end.


(** ** Samples *)

(** Sample files: an s and as many bytes as its session's expiry, an o for one logged out;
    anything else is no JSON. *)
Definition session_of (d : gostring) : option (option oauth) :=
  match d with
  | "s"%byte :: rest => Some (Some (MkOauth "a" "r" (Z.of_nat (length rest))))
  | "o"%byte :: _ => Some None
  | _ => None
  end.
Definition cred_host (fails : gostring -> option gostring) (glob : list gostring) : CredHost :=
  MkCredHost session_of (fun d => bool_decide (is_Some (session_of d))) (Some glob) true fails 9 (fun _ => 7).
Definition never (_ : gostring) : option gostring := None.

#[export] Instance cred_law fails glob : JsonLaw (cred_host fails glob).
Proof. intros d o E. cbn in *. apply bool_decide_eq_true. by exists o. Qed.

Definition two : list gostring := [bs "w1"; bs "w2"].
Lemma two_distinct fails : distinct (cred_host fails two) "pub".
Proof. intros l [= <-]. split; [repeat constructor; by apply (bool_decide_unpack _)|by apply (bool_decide_unpack _)]. Qed.

Definition old_files : gmap gostring CFile := <[bs "pub" := MkCFile 1 "s1" 0]> (<[bs "w1" := MkCFile 2 "s12" 5]> (<[bs "w2" := MkCFile 3 "s1" 0]> ∅)).
Definition data_at (files : gmap gostring CFile) (x : gostring) : option gostring := cf_data <$> files !! x.
Definition pass (fails : gostring -> option gostring) (c : CredentialSync) (files : gmap gostring CFile) : CredentialSync * gmap gostring CFile * option nat :=
  SyncOnce (cred_host fails two) "pub" c files.
Definition known : CredentialSync := MkCredentialSync (Some 1) (Some (bs "s1")).


(** ** What the comments promise and a pass does not do *)

(** While one copy cannot be written, what the publication holds is never remembered: at the
    next pass the publication, which the last one wrote, passes for replaced, and the session
    a workspace refreshed meanwhile, which expires later, is overwritten with it. *)
Theorem refresh_undone :
  let stuck x := if x =s "w2" then Some [] else None in
  let '(c1, files1, r1) := pass stuck known old_files in
  let files2 := <[bs "w1" := MkCFile 8 "s1234" 9]> files1 in
  let '(_, files3, _) := pass stuck c1 files2 in
  r1 = None /\ data_at files1 "pub" = Some (bs "s12") /\ data_at files3 "w1" = Some (bs "s12").
Proof. vm_compute. split_and!; reflexivity. Qed.

(** A publication that is read while it is being rewritten is not skipped: it is overwritten,
    in place, with a workspace's session. *)
Theorem torn_overwritten :
  let torn := <[bs "pub" := MkCFile 4 "{" 8]> old_files in
  let '(_, files', r) := pass never known torn in
  r = Some 2%nat /\ data_at files' "pub" = Some (bs "s12") /\ (cf_inode <$> files' !! bs "pub") = Some 4.
Proof. vm_compute. split_and!; reflexivity. Qed.
