(* ===== verification/IPAddr.v ===== *)
(** Addresses and subnets as Go's net and net/netip have them: parsing, printing, masks. *)
From S2P Require Import Prelude Regex Markdown Spec Shell.
Local Open Scope Z_scope.

(** ** Addresses *)

(** A net.IP in its sixteen bytes, as a number; an IPv4 address is under ::ffff:0:0/96. *)
Definition of4 (v : Z) : Z := 65535 * 2 ^ 32 + v.
Definition To4 (ip : Z) : option Z := if ip / 2 ^ 32 =? 65535 then Some (ip mod 2 ^ 32) else None.

(** ** Parsing *)

Definition dec_digit (b : byte) : option Z := if between 48 57 (bz b) then Some (bz b - 48) else None.
Definition hex_digit (b : byte) : option Z :=
  let z := bz b in
  if between 48 57 z then Some (z - 48) else if between 97 102 z then Some (z - 87) else if between 65 70 z then Some (z - 55) else None.

(** parseIPv4Fields: the fields read, and the value and digits of the one at hand; [dot]
    says that a field begins. *)
Fixpoint parseIPv4Fields (dot : bool) (val : Z) (digLen : nat) (fields : list Z) (s : gostring) : option (list Z) :=
  match s with
  | [] => if (length fields <? 3)%nat then None else Some (fields ++ [val])
  | c :: s' =>
      match dec_digit c with
      | Some d =>
          if (digLen =? 1)%nat && (val =? 0) then None
          else let val := val * 10 + d in if 255 <? val then None else parseIPv4Fields false val (S digLen) fields s'
      | None =>
          if negb (Byte.eqb c ".") then None
          else if dot || bool_decide (s' = []) || (length fields =? 3)%nat then None
          else parseIPv4Fields true 0 0 (fields ++ [val]) s'
      end
  end.

Definition of_octets (l : list Z) : Z := foldl (fun v o => v * 256 + o) 0 l.
Definition parseIPv4 (s : gostring) : option Z := of_octets <$> parseIPv4Fields true 0 0 [] s.

(** The hexadecimal digits of a group, at most four. *)
Fixpoint hex_group (off : nat) (acc : Z) (s : gostring) : option (nat * Z * gostring) :=
  match s with
  | c :: s' =>
      match hex_digit c with
      | Some d => if (3 <? off)%nat then None else hex_group (S off) (acc * 16 + d) s'
      | None => Some (off, acc, s)
      end
  | [] => Some (off, acc, [])
  end.

(** parseIPv6's groups: those read, where the ellipsis is, and what is left. *)
Fixpoint parse_groups (fuel : nat) (groups : list Z) (ellipsis : option nat) (s : gostring) : option (list Z * option nat * gostring) :=
  match fuel with
  | O => Some (groups, ellipsis, s)
  | S fuel =>
      match hex_group 0 0 s with
      | None => None
      | Some (O, _, _) => None
      | Some (_, acc, rest) =>
          if HasPrefix rest "." then
            if (bool_decide (ellipsis = None) && negb (length groups =? 6)%nat) || (6 <? length groups)%nat then None
            else match parseIPv4Fields true 0 0 [] s with
                 | Some [a; b; c; d] => Some (groups ++ [a * 256 + b; c * 256 + d], ellipsis, [])
                 | _ => None
                 end
          else
            let groups := groups ++ [acc] in
            match rest with
            | [] => Some (groups, ellipsis, [])
            | c :: more =>
                if negb (Byte.eqb c ":") || bool_decide (more = []) then None
                else if HasPrefix more ":" then
                  match ellipsis with
                  | Some _ => None
                  | None =>
                      let more := drop 1 more in
                      if bool_decide (more = []) then Some (groups, Some (length groups), [])
                      else parse_groups fuel groups (Some (length groups)) more
                  end
                else parse_groups fuel groups ellipsis more
            end
      end
  end.

Definition of_groups (l : list Z) : Z := foldl (fun v g => v * 65536 + g) 0 l.

(** parseIPv6, of an address without a zone. *)
Definition parseIPv6 (s : gostring) : option Z :=
  let '(ellipsis, s) := if HasPrefix s "::" then (Some 0%nat, drop 2 s) else (None, s) in
  if bool_decide (ellipsis = Some 0%nat /\ s = []) then Some 0
  else match parse_groups 8 [] ellipsis s with
       | Some (groups, ellipsis, []) =>
           match ellipsis with
           | None => if (length groups =? 8)%nat then Some (of_groups groups) else None
           | Some e => if (length groups <? 8)%nat then Some (of_groups (take e groups ++ replicate (8 - length groups) 0 ++ drop e groups)) else None
           end
       | _ => None
       end.

(** netip.ParseAddr, with whether the address is IPv4; one with a zone is refused by both
    callers, and a zone begins with a percent sign. *)
Definition ParseAddr (s : gostring) : option (bool * Z) :=
  if Contains s "%" then None
  else match List.find (fun c => Byte.eqb c "." || Byte.eqb c ":") s with
       | None => None
       | Some c => if Byte.eqb c "." then (fun v => (true, of4 v)) <$> parseIPv4 s else pair false <$> parseIPv6 s
       end.

(** net.ParseIP *)
Definition ParseIP (s : gostring) : option Z := snd <$> ParseAddr s.

(** dtoi: the whole string as a number below 0xFFFFFF. *)
Fixpoint dtoi_loop (n : Z) (s : gostring) : option Z :=
  match s with
  | [] => Some n
  | c :: s' => match dec_digit c with Some d => let n := n * 10 + d in if 16777215 <=? n then None else dtoi_loop n s' | None => None end
  end.
Definition dtoi (s : gostring) : option Z := if bool_decide (s = []) then None else dtoi_loop 0 s.

(** ** Subnets *)

(** A net.IPNet: its address in sixteen bytes, and its mask's Size. *)
Record IPNet := MkIPNet { n_IP : Z; n_ones : Z; n_bits : Z }.

(** The low bits cleared. *)
Definition mask_low (v low : Z) : Z := v - v mod 2 ^ low.

(** net.ParseCIDR *)
Definition ParseCIDR (s : gostring) : option (Z * IPNet) :=
  match Index s "/" with
  | None => None
  | Some i =>
      match ParseAddr (take i s), dtoi (drop (S i) s) with
      | Some (is4, ip), Some n =>
          let bits := if is4 : bool then 32 else 128 in
          if bits <? n then None else Some (ip, MkIPNet (mask_low ip (bits - n)) n bits)
      | _, _ => None
      end
  end.

(** IPNet.Contains *)
Definition subnet_Contains (n : IPNet) (ip : Z) : bool :=
  match To4 (n_IP n), To4 ip with
  | Some nn, Some x =>
      let low := n_bits n - n_ones n in mask_low nn low =? mask_low x low
  | None, None => let low := n_bits n - n_ones n in mask_low (n_IP n) low =? mask_low ip low
  | _, _ => false
  end.

(** ** Printing *)

Definition dotted (v : Z) : gostring :=
  Itoa (v / 2 ^ 24 mod 256) ++ "." ++ Itoa (v / 2 ^ 16 mod 256) ++ "." ++ Itoa (v / 2 ^ 8 mod 256) ++ "." ++ Itoa (v mod 256).

Definition group_of (ip : Z) (i : nat) : Z := ip / 2 ^ (16 * (7 - Z.of_nat i)) mod 65536.

Definition hex_char (d : Z) : byte := byte_of (if d <? 10 then d + 48 else d + 87).
Definition appendHex (g : Z) : gostring :=
  let digits := [g / 4096 mod 16; g / 256 mod 16; g / 16 mod 16; g mod 16] in
  hex_char <$> (if 4096 <=? g then digits else if 256 <=? g then drop 1 digits else if 16 <=? g then drop 2 digits else drop 3 digits).

(** The groups of zero from the head. *)
Fixpoint zeros (gs : list Z) : nat := match gs with g :: gs' => if g =? 0 then S (zeros gs') else O | [] => O end.

(** The longest run of at least two zero groups, the first of those. *)
Fixpoint zero_run (i : nat) (gs : list Z) (best : option (nat * nat)) : option (nat * nat) :=
  match gs with
  | [] => best
  | _ :: gs' =>
      let l := zeros gs in
      zero_run (S i) gs' (if (2 <=? l)%nat && (match best with Some (_, b) => b <? l | None => true end)%nat then Some (i, l) else best)
  end.

(** netip's text of an IPv6 address. *)
Definition string6 (ip : Z) : gostring :=
  let gs := group_of ip <$> seq 0 8 in
  let hex l := Join (appendHex <$> l) ":" in
  match zero_run 0 gs None with
  | None => hex gs
  | Some (i, l) => hex (take i gs) ++ "::" ++ hex (drop (i + l) gs)
  end.

(** net.IP.String *)
Definition IP_String (ip : Z) : gostring := match To4 ip with Some v => dotted v | None => string6 ip end.
