(* ===== verification/EgressNet.v ===== *)
(** The plan of a workspace's egress link, internal/sandbox/egressnet.go: names, the guest's
    address, the proxy's port, and the commands that wire and remove it. *)
From S2P Require Import Prelude Regex Markdown Spec Shell Domains IPAddr.
Local Open Scope Z_scope.

Definition DefaultEgressBridge : gostring := "apebr0".
Definition DefaultEgressHostCIDR : gostring := "169.254.42.1/24".
Definition DefaultEgressPortLow : Z := 3128.
Definition DefaultEgressPortHigh : Z := 3999.
Definition NetnsRunDir : gostring := "/run/netns".
Definition netnsPrefix : gostring := "ape-".

(** Why a link is not planned. *)
Inductive NetErr := BadName | BadBridge | BadCIDR | BadGuestIP | OutsideSubnet | CollidesWithHost | BadPort | TooLarge | NotIPv4 | ErrNoEgressAddress.

(** ** Names *)

(** workspaceNameRe *)
Definition name_first (b : byte) : bool := between 97 122 (bz b) || between 48 57 (bz b).
Definition name_rest (b : byte) : bool := name_first b || Byte.eqb b "_" || Byte.eqb b "-".
Definition ValidateWorkspaceName (name : gostring) : bool :=
  match name with
  | c :: rest => name_first c && forallb name_rest rest && (length rest <=? 62)%nat
  | [] => false
  end.

Definition NetnsName (workspace : gostring) : gostring := netnsPrefix ++ workspace.
Definition NetnsPath (workspace : gostring) : gostring := NetnsRunDir ++ "/" ++ NetnsName workspace.

(** hex.EncodeToString *)
Definition hex_string (s : gostring) : gostring := s ≫= fun b => [hex_char (bz b / 16); hex_char (bz b mod 16)].

(** validateIfaceName *)
Definition iface_byte (b : byte) : bool :=
  let z := bz b in between 97 122 z || between 65 90 z || between 48 57 z || Byte.eqb b "-" || Byte.eqb b "_" || Byte.eqb b ".".
Definition validateIfaceName (name : gostring) : bool :=
  negb ((name =s "") || (15 <? length name)%nat) && forallb iface_byte name.

(** ** Addresses and ports *)

(** addInt, on the four bytes as a number. *)
Definition addInt (v n : Z) : Z := (v + n mod 2 ^ 32) mod 2 ^ 32.

(** The values of a map. *)
Definition map_values {V} (m : gmap gostring V) : list V := (map_to_list m).*2.

(** The addresses AllocateGuestIP tries, in order. *)
Definition candidates (network : Z) (total : Z) : list gostring :=
  (fun i => dotted (addInt network (Z.of_nat i))) <$> seq 1 (Z.to_nat (total - 2)).

(** AllocateGuestIP *)
Definition AllocateGuestIP (hostCIDR : gostring) (taken : gmap gostring gostring) (workspace : gostring) : gostring + NetErr :=
  match taken !! workspace with
  | Some ip => inl ip
  | None =>
      match ParseCIDR hostCIDR with
      | None => inr BadCIDR
      | Some (hostIP, subnet) =>
          let used := IP_String hostIP :: map_values taken in
          let low := n_bits subnet - n_ones subnet in
          if 16 <? low then inr TooLarge
          else match To4 (mask_low (n_IP subnet) low) with
               | None => inr NotIPv4
               | Some network =>
                   match List.find (fun s => bool_decide (s ∉ used)) (candidates network (2 ^ low)) with
                   | Some s => inl s
                   | None => inr ErrNoEgressAddress
                   end
               end
      end
  end.

(** AllocatePort *)
Definition AllocatePort (low high : Z) (taken : gmap gostring Z) : Z + NetErr :=
  let low := if low =? 0 then DefaultEgressPortLow else low in
  let high := if high =? 0 then DefaultEgressPortHigh else high in
  let used := map_values taken in
  match List.find (fun p => bool_decide (p ∉ used)) ((fun i => low + Z.of_nat i) <$> seq 0 (Z.to_nat (high - low + 1))) with
  | Some p => inl p
  | None => inr ErrNoEgressAddress
  end.

(** ** The link *)

Record EgressLink := MkEgressLink { el_Workspace : gostring; el_Netns : gostring; el_NetnsPath : gostring; el_Bridge : gostring;
  el_HostVeth : gostring; el_GuestVeth : gostring; el_GuestCIDR : gostring; el_ProxyIP : gostring; el_ProxyPort : Z }.

Record EgressLinkOptions := MkLinkOptions { lo_Workspace : gostring; lo_Bridge : gostring; lo_HostCIDR : gostring;
  lo_GuestIP : gostring; lo_ProxyPort : Z; lo_PortLow : Z; lo_PortHigh : Z }.

Section link.
Context (sha256 : gostring -> gostring).

(** vethNames *)
Definition vethNames (workspace : gostring) : gostring * gostring :=
  let tag := hex_string (take 4 (sha256 workspace)) in ("apeh" ++ tag, "apeg" ++ tag).

(** PlanEgressLink *)
Definition PlanEgressLink (o : EgressLinkOptions) : EgressLink + NetErr :=
  if negb (ValidateWorkspaceName (lo_Workspace o)) then inr BadName
  else
    let bridge := if lo_Bridge o =s "" then DefaultEgressBridge else lo_Bridge o in
    if negb (validateIfaceName bridge) then inr BadBridge
    else
      let hostCIDR := if lo_HostCIDR o =s "" then DefaultEgressHostCIDR else lo_HostCIDR o in
      match ParseCIDR hostCIDR with
      | None => inr BadCIDR
      | Some (hostIP, subnet) =>
          match ParseIP (TrimSpace (lo_GuestIP o)) with
          | None => inr BadGuestIP
          | Some guestIP =>
              if negb (subnet_Contains subnet guestIP) then inr OutsideSubnet
              else if guestIP =? hostIP then inr CollidesWithHost
              else
                let low := if lo_PortLow o =? 0 then DefaultEgressPortLow else lo_PortLow o in
                let high := if lo_PortHigh o =? 0 then DefaultEgressPortHigh else lo_PortHigh o in
                if (lo_ProxyPort o <? low) || (high <? lo_ProxyPort o) then inr BadPort
                else
                  let '(hostVeth, guestVeth) := vethNames (lo_Workspace o) in
                  inl (MkEgressLink (lo_Workspace o) (NetnsName (lo_Workspace o)) (NetnsPath (lo_Workspace o)) bridge hostVeth guestVeth
                    (IP_String guestIP ++ "/" ++ Itoa (n_ones subnet)) (IP_String hostIP) (lo_ProxyPort o))
          end
      end.
End link.

(** ProxyURL *)
Definition ProxyURL (l : EgressLink) : gostring := "http://" ++ net_JoinHostPort (el_ProxyIP l) (Itoa (el_ProxyPort l)).

(** ** Commands *)

Definition SetupCommands (l : EgressLink) : list (list gostring) :=
  [[bs "ip"; bs "netns"; bs "add"; el_Netns l];
   [bs "ip"; bs "link"; bs "add"; el_HostVeth l; bs "type"; bs "veth"; bs "peer"; bs "name"; el_GuestVeth l];
   [bs "ip"; bs "link"; bs "set"; el_GuestVeth l; bs "netns"; el_Netns l];
   [bs "ip"; bs "link"; bs "set"; el_HostVeth l; bs "master"; el_Bridge l];
   [bs "ip"; bs "link"; bs "set"; el_HostVeth l; bs "up"];
   [bs "bridge"; bs "link"; bs "set"; bs "dev"; el_HostVeth l; bs "isolated"; bs "on"];
   [bs "ip"; bs "-n"; el_Netns l; bs "link"; bs "set"; bs "lo"; bs "up"];
   [bs "ip"; bs "-n"; el_Netns l; bs "addr"; bs "add"; el_GuestCIDR l; bs "dev"; el_GuestVeth l];
   [bs "ip"; bs "-n"; el_Netns l; bs "link"; bs "set"; el_GuestVeth l; bs "up"]].

Definition TeardownCommands (l : EgressLink) : list (list gostring) :=
  [[bs "ip"; bs "link"; bs "del"; el_HostVeth l]; [bs "ip"; bs "netns"; bs "del"; el_Netns l]].

(** A line with its newline. *)
Definition ln (s : gostring) : gostring := s ++ [nl].
Definition quote_lo (s : gostring) : gostring := s ++ [x22; "l"; "o"; x22]%byte ++ bs " accept".

Definition NftRuleset (l : EgressLink) : gostring :=
  ln "table inet ape_ws" ++ ln "delete table inet ape_ws" ++ ln "table inet ape_ws {" ++
  ln "  chain output {" ++ ln "    type filter hook output priority 0; policy drop;" ++
  ln (quote_lo "    oifname ") ++ ln "    ct state established,related accept" ++
  ln ("    ip daddr " ++ el_ProxyIP l ++ " tcp dport " ++ Itoa (el_ProxyPort l) ++ " accept") ++ ln "  }" ++
  ln "  chain input {" ++ ln "    type filter hook input priority 0; policy drop;" ++
  ln (quote_lo "    iifname ") ++ ln "    ct state established,related accept" ++ ln "  }" ++
  ln "  chain forward {" ++ ln "    type filter hook forward priority 0; policy drop;" ++ ln "  }" ++ ln "}".

Definition NftCommand (l : EgressLink) : list gostring * gostring :=
  ([bs "ip"; bs "netns"; bs "exec"; el_Netns l; bs "nft"; bs "-f"; bs "-"], NftRuleset l).
