(* ===== verification/Netd.v ===== *)
(** The privileged network helper, internal/netd: its requests, its leases and what it runs
    for each connection (proto.go, server_linux.go). *)
From S2P Require Import Prelude Regex Markdown Spec Shell Domains IPAddr EgressNet.
Local Open Scope Z_scope.

(** ** Requests *)

Inductive NetOp := OpEnsure | OpDelete | OpPing | OpOther (s : gostring).

Record NetRequest := MkNetRequest { rq_Op : NetOp; rq_Workspace : gostring; rq_ProxyPort : Z; rq_Bridge : gostring;
  rq_HostCIDR : gostring; rq_Reuse : bool }.

(** What an error reply reports. *)
Inductive NetdErr := NotAuthorized | Malformed | UnknownOp | NoPort | Unplanned (e : NetErr) | RunFailed (argv : list gostring) | SaveFailed.

Record NetResponse := MkNetResponse { rs_Error : option NetdErr; rs_NetnsPath : gostring; rs_GuestIP : gostring; rs_ProxyURL : gostring }.
Definition refused (e : NetdErr) : NetResponse := MkNetResponse (Some e) [] [] [].
Definition done_empty : NetResponse := MkNetResponse None [] [] [].

(** Request.Validate; [None] when it is well formed. *)
Definition NetRequest_Validate (r : NetRequest) : option NetdErr :=
  match rq_Op r with
  | OpPing => None
  | OpOther _ => Some UnknownOp
  | OpEnsure =>
      if negb (ValidateWorkspaceName (rq_Workspace r)) then Some (Unplanned BadName)
      else if rq_ProxyPort r <=? 0 then Some NoPort else None
  | OpDelete => if negb (ValidateWorkspaceName (rq_Workspace r)) then Some (Unplanned BadName) else None
  end.

(** ** The helper *)

Record ServerConfig := MkServerConfig { sc_Bridge : gostring; sc_HostCIDR : gostring; sc_PortLow : Z; sc_PortHigh : Z;
  sc_AllowedUIDs : list Z; sc_IPBin : gostring; sc_BridgeBin : gostring; sc_NftBin : gostring }.

(** A process run, with its input. *)
Record Ran := MkRan { rn_argv : list gostring; rn_stdin : gostring }.

(** The helper's state: its leases, the lease file, and what it ran. *)
Record Netd := MkNetd { nd_m : gmap gostring gostring; nd_file : gmap gostring gostring; nd_ran : list Ran }.

(** The host's answers, after what was run: whether a path exists, whether a command
    succeeds, whether the lease file can be written; and json.Unmarshal of a request. *)
Record NetdHost := MkNetdHost { nh_stat : list Ran -> gostring -> bool; nh_run : list Ran -> Ran -> bool;
  nh_save : list Ran -> bool; nh_decode : gostring -> option NetRequest }.

Section server.
Context (sha256 : gostring -> gostring) (cfg : ServerConfig) (H : NetdHost).

Definition srv_bridge : gostring := if sc_Bridge cfg <>s "" then sc_Bridge cfg else DefaultEgressBridge.
Definition srv_hostCIDR : gostring := if sc_HostCIDR cfg <>s "" then sc_HostCIDR cfg else DefaultEgressHostCIDR.
Definition srv_portLow : Z := if 0 <? sc_PortLow cfg then sc_PortLow cfg else DefaultEgressPortLow.
Definition srv_portHigh : Z := if 0 <? sc_PortHigh cfg then sc_PortHigh cfg else DefaultEgressPortHigh.
Definition srv_bin (configured def : gostring) : gostring := if TrimSpace configured <>s "" then configured else def.

(** run: what is executed of an argv, and whether it succeeds. *)
Definition exec_of (argv : list gostring) : list gostring :=
  match argv with
  | [] => []
  | name :: args =>
      (if name =s "ip" then srv_bin (sc_IPBin cfg) "ip" else if name =s "bridge" then srv_bin (sc_BridgeBin cfg) "bridge"
       else if name =s "nft" then srv_bin (sc_NftBin cfg) "nft" else name)
      :: ((fun a => if a =s "nft" then srv_bin (sc_NftBin cfg) "nft" else a) <$> args)
  end.
Definition run (s : Netd) (argv : list gostring) (stdin : gostring) : Netd * bool :=
  match argv with
  | [] => (s, false)
  | _ => let x := MkRan (exec_of argv) stdin in (MkNetd (nd_m s) (nd_file s) (nd_ran s ++ [x]), nh_run H (nd_ran s) x)
  end.

(** teardown: the removals, whatever they answer. *)
Definition teardown (s : Netd) (link : EgressLink) : Netd := foldl (fun s argv => fst (run s argv "")) s (TeardownCommands link).

(** Put, Remove: the lease is changed in memory also where the file cannot be written. *)
Definition save (s : Netd) (m : gmap gostring gostring) : Netd * bool :=
  if nh_save H (nd_ran s) then (MkNetd m m (nd_ran s), true) else (MkNetd m (nd_file s) (nd_ran s), false).
Definition Put (s : Netd) (workspace ip : gostring) : Netd * bool := save s (<[workspace := ip]> (nd_m s)).
Definition Remove (s : Netd) (workspace : gostring) : Netd * bool :=
  match nd_m s !! workspace with None => (s, true) | Some _ => save s (delete workspace (nd_m s)) end.

(** The set-up commands up to the first that fails, which is given back. *)
Fixpoint setup (s : Netd) (cmds : list (list gostring)) : Netd * option (list gostring) :=
  match cmds with
  | [] => (s, None)
  | argv :: cmds' => let '(s', ok) := run s argv "" in if ok : bool then setup s' cmds' else (s', Some argv)
  end.

(** The lease recorded and answered. *)
Definition leased (s : Netd) (req : NetRequest) (link : EgressLink) (ip : gostring) : Netd * NetResponse :=
  let '(s', ok) := Put s (rq_Workspace req) ip in
  if ok : bool then (s', MkNetResponse None (el_NetnsPath link) ip (ProxyURL link)) else (s', refused SaveFailed).

(** ensure *)
Definition ensure (s : Netd) (req : NetRequest) : Netd * NetResponse :=
  let bridge := if rq_Bridge req <>s "" then rq_Bridge req else srv_bridge in
  let hostCIDR := if rq_HostCIDR req <>s "" then rq_HostCIDR req else srv_hostCIDR in
  match AllocateGuestIP hostCIDR (nd_m s) (rq_Workspace req) with
  | inr e => (s, refused (Unplanned e))
  | inl ip =>
      match PlanEgressLink sha256 (MkLinkOptions (rq_Workspace req) bridge hostCIDR ip (rq_ProxyPort req) srv_portLow srv_portHigh) with
      | inr e => (s, refused (Unplanned e))
      | inl link =>
          if rq_Reuse req && nh_stat H (nd_ran s) (el_NetnsPath link) then leased s req link ip
          else
            let s := teardown s link in
            match setup s (SetupCommands link) with
            | (s, Some argv) => (teardown s link, refused (RunFailed argv))
            | (s, None) =>
                let '(argv, ruleset) := NftCommand link in
                leased (fst (run s argv ruleset)) req link ip
            end
      end
  end.

(** firstUsableAddr *)
Definition firstUsableAddr (hostCIDR : gostring) : gostring :=
  match AllocateGuestIP hostCIDR ∅ "" with inl ip => ip | inr _ => [] end.

(** delete *)
Definition delete_link (s : Netd) (req : NetRequest) : Netd * NetResponse :=
  let ip := default [] (nd_m s !! rq_Workspace req) in
  let ip := if ip =s "" then firstUsableAddr srv_hostCIDR else ip in
  match PlanEgressLink sha256 (MkLinkOptions (rq_Workspace req) srv_bridge srv_hostCIDR ip srv_portLow srv_portLow srv_portHigh) with
  | inr e => (s, refused (Unplanned e))
  | inl link =>
      let s := teardown s link in
      let '(s, ok) := Remove s (rq_Workspace req) in
      if ok : bool then (s, done_empty) else (s, refused SaveFailed)
  end.

(** dispatch *)
Definition netd_dispatch (s : Netd) (req : NetRequest) : Netd * NetResponse :=
  match rq_Op req with
  | OpPing => (s, done_empty)
  | OpEnsure => ensure s req
  | OpDelete => delete_link s req
  | OpOther _ => (s, refused UnknownOp)
  end.

(** The uids that may command it. *)
Definition allowed_uids : list Z := match sc_AllowedUIDs cfg with [] => [0] | l => l end.

(** handle: [uid] is the peer's, where it can be attested; [line] the frame read, and [rerr]
    whether the reading failed. *)
Definition netd_handle (s : Netd) (uid : option Z) (line : gostring) (rerr : bool) : Netd * option NetResponse :=
  match uid with
  | None => (s, None)
  | Some uid =>
      if negb (bool_decide (uid ∈ allowed_uids)) then (s, Some (refused NotAuthorized))
      else if rerr && (line =s "") then (s, None)
      else match nh_decode H (TrimSpace line) with
           | None => (s, Some (refused Malformed))
           | Some req =>
               match NetRequest_Validate req with
               | Some e => (s, Some (refused e))
               | None => let '(s', r) := netd_dispatch s req in (s', Some r)
               end
           end
  end.

(** Serve's start: the leases are the file's. *)
Definition netd_start (s : Netd) : Netd := MkNetd (nd_file s) (nd_file s) (nd_ran s).
End server.
