(* ===== verification/AddressFacts.v ===== *)
(** The addresses the helper leases: what is parsed is what was printed, and the allocator
    gives the least free address of the subnet. *)
From S2P Require Import Prelude Regex Markdown Spec Shell Domains IPAddr EgressNet.
Local Open Scope Z_scope.

(** ** Octets *)

Lemma octet_in o : 0 <= o < 256 -> In o (Z.of_nat <$> seq 0 256).
Proof. intros H. apply list_elem_of_In, list_elem_of_fmap. exists (Z.to_nat o). split; [lia|]. apply elem_of_seq. lia. Qed.

Lemma octet_digits o : 0 <= o < 256 -> forallb (fun b => between 48 57 (bz b)) (Itoa o) = true /\ Itoa o <> [].
Proof.
  intros H%octet_in. assert (Forall (fun o => forallb (fun b => between 48 57 (bz b)) (Itoa o) && negb (bool_decide (Itoa o = [])) = true) (Z.of_nat <$> seq 0 256)) as HF
    by (apply List.Forall_forall, List.forallb_forall; vm_compute; reflexivity).
  rewrite List.Forall_forall in HF. apply HF, andb_true_iff in H as [H1 H2]. split; [done|]. apply negb_true_iff in H2. by apply bool_decide_eq_false in H2.
Qed.

Lemma octet_parsed o fields rest : 0 <= o < 256 ->
  parseIPv4Fields true 0 0 fields (Itoa o ++ rest) = parseIPv4Fields false o (length (Itoa o)) fields rest.
Proof.
  intros H%octet_in. revert o H. assert (Forall (fun o => parseIPv4Fields true 0 0 fields (Itoa o ++ rest) = parseIPv4Fields false o (length (Itoa o)) fields rest)
    (Z.of_nat <$> seq 0 256)) as HF by (repeat (constructor; [reflexivity|]); constructor).
  by apply List.Forall_forall.
Qed.

(** ** Dotted addresses *)

(** Bytes of a dotted address. *)
Definition dotted_byte (b : byte) : bool := between 48 57 (bz b) || Byte.eqb b ".".

Lemma octet_dotted o : 0 <= o < 256 -> Forall (fun b => dotted_byte b = true) (Itoa o).
Proof.
  intros [H _]%octet_digits. apply List.Forall_forall. rewrite List.forallb_forall in H. intros b Hb. unfold dotted_byte. by rewrite (H b Hb).
Qed.

Lemma octet_of v k : 0 <= v / k mod 256 < 256.
Proof. apply Z.mod_pos_bound. lia. Qed.

Lemma dotted_bytes v : Forall (fun b => dotted_byte b = true) (dotted v).
Proof.
  unfold dotted. pose proof (octet_of v) as Ho. rewrite !Forall_app.
  assert (Forall (fun b => dotted_byte b = true) (bs ".")) as Hd by repeat constructor.
  split_and!; try exact Hd; apply octet_dotted, Ho || (apply octet_dotted, Z.mod_pos_bound; lia).
Qed.

Lemma dotted_byte_no_space b s u : dotted_byte b = true -> u ∈ spaces \/ u ∈ map (@rev byte) spaces -> HasPrefix (b :: s) u = false.
Proof.
  intros Hb Hu. assert (forallb (fun u => match u with c :: _ => negb (Byte.eqb c b) | [] => false end) (spaces ++ map (@rev byte) spaces) = true) as HF
    by (destruct b; try discriminate Hb; vm_compute; reflexivity).
  rewrite List.forallb_forall in HF. specialize (HF u). destruct u as [|c u]; cbn [HasPrefix].
  - discriminate HF. apply in_app_iff. rewrite <- !list_elem_of_In. exact Hu.
  - rewrite (proj1 (negb_true_iff (Byte.eqb c b))); [done|]. apply HF, in_app_iff. rewrite <- !list_elem_of_In. exact Hu.
Qed.

Lemma dotted_no_unit s : Forall (fun b => dotted_byte b = true) s -> no_unit spaces s /\ no_unit (map (@rev byte) spaces) s.
Proof.
  destruct s as [|b s]; intros H; [split; repeat constructor|]. apply Forall_cons in H as [Hb _].
  split; apply Forall_forall; intros u Hu; apply dotted_byte_no_space; tauto.
Qed.

Lemma TrimSpace_dotted v : TrimSpace (dotted v) = dotted v.
Proof.
  pose proof (dotted_bytes v) as H. unfold TrimSpace, Trim. rewrite trim_left_no_unit_id by by apply dotted_no_unit.
  unfold TrimRight. pose proof (trim_left_no_unit_id (map (@rev byte) spaces) (rev (dotted v))) as E. unfold TrimLeft in E. rewrite E, rev_involutive; [done|].
  apply dotted_no_unit, List.Forall_rev, H.
Qed.

Lemma parseIPv4_dotted v : 0 <= v < 2 ^ 32 -> parseIPv4 (dotted v) = Some v.
Proof.
  intros Hv. unfold parseIPv4, dotted. pose proof (octet_of v) as Ho.
  assert (forall o fields val n rest, 0 <= o < 256 -> (length fields < 3)%nat ->
    parseIPv4Fields false val n fields ("." ++ Itoa o ++ rest) = parseIPv4Fields true 0 0 (fields ++ [val]) (Itoa o ++ rest)) as Hdot.
  { intros o fields val n rest Hr Hl. change (bs "." ++ Itoa o ++ rest) with ("."%byte :: (Itoa o ++ rest)). cbn [parseIPv4Fields].
    change (dec_digit ".") with (@None Z). change (Byte.eqb "." ".") with true. cbn [negb orb]. rewrite bool_decide_false.
    - replace (length fields =? 3)%nat with false by (symmetry; apply Nat.eqb_neq; lia). done.
    - apply octet_digits in Hr as [_ Hr]. by destruct (Itoa o). }
  rewrite octet_parsed, Hdot, octet_parsed, Hdot, octet_parsed by (apply Ho || (cbn; lia)).
  rewrite <- (app_nil_r (Itoa (v mod 256))).
  rewrite Hdot, octet_parsed by (try apply Ho; try (apply Z.mod_pos_bound; lia); cbn; lia).
  cbn [parseIPv4Fields app length Nat.ltb Nat.leb fmap option_fmap option_map of_octets foldl]. f_equal. Z.to_euclidean_division_equations; lia.
Qed.

Lemma dotted_inj v u : 0 <= v < 2 ^ 32 -> 0 <= u < 2 ^ 32 -> dotted v = dotted u -> v = u.
Proof. intros Hv Hu E. apply parseIPv4_dotted in Hv, Hu. congruence. Qed.

Lemma dotted_no_byte v c : dotted_byte c = false -> Forall (fun b => Byte.eqb b c = false) (dotted v).
Proof.
  intros Hc. eapply Forall_impl; [apply dotted_bytes|]. intros b Hb. cbn in Hb. destruct (Byte.eqb b c) eqn:E; [|done].
  apply byte_eqb_eq in E as ->. congruence.
Qed.

Lemma ParseIP_dotted v : 0 <= v < 2 ^ 32 -> ParseIP (dotted v) = Some (of4 v).
Proof.
  intros Hv. unfold ParseIP, ParseAddr. assert (Contains (dotted v) "%" = false) as ->.
  { pose proof (dotted_no_byte v "%" eq_refl) as HF. induction HF as [|b s Hb HF IH]; [done|]. unfold Contains in *. change (bs "%") with ["%"%byte] in *.
    cbn [Index HasPrefix]. destruct (Byte.eqb "%" b) eqn:E; [apply byte_eqb_eq in E as <-; discriminate Hb|]. cbn [andb]. by destruct (Index s _). }
  assert (List.find (fun c => Byte.eqb c "." || Byte.eqb c ":") (dotted v) = Some "."%byte) as ->.
  { assert (forall s t, Forall (fun b => dotted_byte b = true) s -> List.find (fun c => Byte.eqb c "." || Byte.eqb c ":") (s ++ "."%byte :: t) = Some "."%byte) as Hf.
    { intros s t HF. induction HF as [|b s Hb HF IH]; [done|]. cbn [app List.find]. destruct (Byte.eqb b ".") eqn:E; [by apply byte_eqb_eq in E as ->|].
      cbn [orb]. destruct (Byte.eqb b ":") eqn:E'; [apply byte_eqb_eq in E' as ->; discriminate Hb|]. done. }
    unfold dotted. apply Hf, octet_dotted, octet_of. }
  change (Byte.eqb "." ".") with true. cbv iota. by rewrite parseIPv4_dotted.
Qed.

(** ** The allocator *)

Lemma To4_Some ip v : To4 ip = Some v -> ip = of4 v /\ 0 <= v < 2 ^ 32.
Proof.
  unfold To4, of4. destruct (Z.eqb_spec (ip / 2 ^ 32) 65535) as [E|]; [|done]. intros [= <-].
  split; Z.to_euclidean_division_equations; lia.
Qed.

Lemma To4_of4 v : 0 <= v < 2 ^ 32 -> To4 (of4 v) = Some v.
Proof.
  intros Hv. unfold To4, of4. destruct (Z.eqb_spec ((65535 * 2 ^ 32 + v) / 2 ^ 32) 65535) as [E|E].
  - f_equal. Z.to_euclidean_division_equations; lia.
  - exfalso. apply E. Z.to_euclidean_division_equations; lia.
Qed.

Lemma low_div low : 0 <= low <= 16 -> exists k, 0 < k /\ 2 ^ 32 = k * 2 ^ low /\ 0 < 2 ^ low <= 65536.
Proof.
  intros H. exists (2 ^ (32 - low)). rewrite <- Z.pow_add_r by lia. split; [apply Z.pow_pos_nonneg; lia|]. split; [f_equal; lia|].
  split; [apply Z.pow_pos_nonneg; lia|]. change 65536 with (2 ^ 16). apply Z.pow_le_mono_r; lia.
Qed.

Lemma mask_low_range v low : 0 <= low <= 16 -> 0 <= v < 2 ^ 32 ->
  0 <= mask_low v low <= v /\ v < mask_low v low + 2 ^ low <= 2 ^ 32 /\ mask_low v low mod 2 ^ low = 0.
Proof.
  intros Hl Hv. destruct (low_div low Hl) as (k & Hk & E & Hp). unfold mask_low. pose proof (Z.div_mod v (2 ^ low)) as D.
  pose proof (Z.mod_pos_bound v (2 ^ low)) as B. set (q := v / 2 ^ low) in *. set (m := v mod 2 ^ low) in *. set (p := 2 ^ low) in *.
  assert (q < k) by nia. assert (0 <= q) by nia. split; [nia|]. split; [split; [lia|]; nia|].
  replace (v - m) with (q * p) by lia. apply Z.mod_mul. lia.
Qed.

Lemma mask_low_of4 v low : 0 <= low <= 16 -> 0 <= v < 2 ^ 32 -> mask_low (of4 v) low = of4 (mask_low v low).
Proof.
  intros Hl Hv. destruct (low_div low Hl) as (k & Hk & E & Hp). unfold mask_low, of4. rewrite E.
  replace (65535 * (k * 2 ^ low) + v) with (v + (65535 * k) * 2 ^ low) by lia. rewrite Z.mod_add by lia. lia.
Qed.

Lemma mask_low_idem v low : 0 <= low -> mask_low (mask_low v low) low = mask_low v low.
Proof.
  intros Hl. assert (0 < 2 ^ low) by (apply Z.pow_pos_nonneg; lia). unfold mask_low. rewrite Zminus_mod_idemp_r, Z.sub_diag, Zmod_0_l. lia.
Qed.

Lemma ParseCIDR_shape s ip n : ParseCIDR s = Some (ip, n) -> n_IP n = mask_low ip (n_bits n - n_ones n) /\ 0 <= n_bits n - n_ones n.
Proof.
  unfold ParseCIDR. destruct (Index s "/") as [i|]; [|done]. destruct (ParseAddr (take i s)) as [[is4 a]|]; [|done]. destruct (dtoi _) as [k|]; [|done].
  destruct (Z.ltb_spec (if is4 then 32 else 128) k); [done|]. intros [= <- <-]. cbn. split; [done|lia].
Qed.

(** A subnet the allocator takes addresses from: its host's address, and its low bits. *)
Definition subnet4 (cidr : gostring) (h low : Z) : Prop :=
  exists n, ParseCIDR cidr = Some (of4 h, n) /\ low = n_bits n - n_ones n /\ 0 <= low <= 16 /\ 0 <= h < 2 ^ 32.

(** A usable address of it: neither the network's, nor the broadcast's, nor the host's. *)
Definition usable4 (h low v : Z) : Prop := mask_low h low < v < mask_low h low + 2 ^ low - 1 /\ v <> h.

Lemma usable4_range h low v : 0 <= low <= 16 -> 0 <= h < 2 ^ 32 -> mask_low h low <= v < mask_low h low + 2 ^ low -> 0 <= v < 2 ^ 32.
Proof. intros Hl Hh Hv. pose proof (mask_low_range h low Hl Hh). lia. Qed.

Lemma addInt_small network low i : 0 <= network -> network + 2 ^ low <= 2 ^ 32 -> 0 <= low <= 16 -> 0 <= i < 2 ^ low -> addInt network i = network + i.
Proof.
  intros H1 H2 Hl Hi. destruct (low_div low Hl) as (k & Hk & E & Hp). unfold addInt. rewrite (Z.mod_small i) by lia. apply Z.mod_small. lia.
Qed.

(** The first that passes a test, in an enumeration of an interval. *)
Lemma find_least {A} (f : nat -> A) (test : A -> bool) n : forall a,
  match List.find test (f <$> seq a n) with
  | Some x => exists i, (a <= i < a + n)%nat /\ x = f i /\ test x = true /\ forall j, (a <= j < i)%nat -> test (f j) = false
  | None => forall j, (a <= j < a + n)%nat -> test (f j) = false
  end.
Proof.
  induction n as [|n IH]; intros a; cbn [seq fmap list_fmap List.find]; [lia|]. destruct (test (f a)) eqn:E.
  { exists a. split; [lia|]. split; [done|]. split; [done|]. lia. }
  specialize (IH (S a)). destruct (List.find test _) as [x|].
  - destruct IH as (i & Hi & -> & Ht & Hj). exists i. split; [lia|]. split; [done|]. split; [done|]. intros j Hlt.
    destruct (decide (j = a)) as [->|]; [done|]. apply Hj. lia.
  - intros j Hlt. destruct (decide (j = a)) as [->|]; [done|]. apply IH. lia.
Qed.

(** A new lease: the least usable address no lease has, or an error when each has one. *)
Lemma allocate_new cidr h low taken w : subnet4 cidr h low -> taken !! w = None ->
  (exists v, AllocateGuestIP cidr taken w = inl (dotted v) /\ usable4 h low v /\ (dotted v ∉ map_values taken) /\
     forall u, usable4 h low u -> u < v -> dotted u ∈ map_values taken) \/
  (AllocateGuestIP cidr taken w = inr ErrNoEgressAddress /\ forall u, usable4 h low u -> dotted u ∈ map_values taken).
Proof.
  intros (n & Hp & -> & Hl & Hh) Hw. unfold AllocateGuestIP. rewrite Hw, Hp. destruct (ParseCIDR_shape _ _ _ Hp) as [En _]. rewrite En.
  set (low := n_bits n - n_ones n) in *. rewrite mask_low_idem, mask_low_of4 by lia. pose proof (mask_low_range h low Hl Hh) as (Hm & Hb & Ha).
  replace (16 <? low) with false by (symmetry; apply Z.ltb_ge; lia). rewrite To4_of4 by lia. set (net := mask_low h low) in *.
  unfold IP_String. rewrite To4_of4 by lia. set (used := dotted h :: map_values taken).
  assert (forall i, (1 <= i < 1 + Z.to_nat (2 ^ low - 2))%nat -> addInt net (Z.of_nat i) = net + Z.of_nat i) as Hadd
    by (intros i Hi; apply (addInt_small net low); lia).
  assert (forall u, usable4 h low u -> exists i, (1 <= i < 1 + Z.to_nat (2 ^ low - 2))%nat /\ u = net + Z.of_nat i /\ (dotted u ∈ used -> dotted u ∈ map_values taken)) as Hus.
  { intros u [Hu Hne]. fold net in Hu. exists (Z.to_nat (u - net)). split; [lia|]. split; [lia|]. unfold used. intros [E|Hin]%elem_of_cons; [|done].
    destruct Hne. apply dotted_inj; [lia|done|done]. }
  unfold candidates. pose proof (find_least (fun i => dotted (addInt net (Z.of_nat i))) (fun s => bool_decide (s ∉ used)) (Z.to_nat (2 ^ low - 2)) 1) as Hf.
  destruct (List.find _ _) as [s|].
  - left. destruct Hf as (i & Hi & -> & Ht & Hj). apply bool_decide_eq_true in Ht. rewrite (Hadd i Hi) in Ht |- *. exists (net + Z.of_nat i). split; [done|].
    unfold used in Ht. rewrite not_elem_of_cons in Ht. destruct Ht as [Hne Hnin]. split; [split; [fold net; lia|]; intros E; apply Hne; by rewrite E|]. split; [done|].
    intros u Hu Hlt. destruct (Hus u Hu) as (k & Hk & -> & Hin). apply Hin. specialize (Hj k). apply bool_decide_eq_false in Hj; [|lia].
    rewrite (Hadd k Hk) in Hj. by apply dec_stable.
  - right. split; [done|]. intros u Hu. destruct (Hus u Hu) as (k & Hk & -> & Hin). apply Hin. specialize (Hf k Hk). apply bool_decide_eq_false in Hf.
    rewrite (Hadd k Hk) in Hf. by apply dec_stable.
Qed.

Lemma allocate_subnet cidr taken w s : taken !! w = None -> AllocateGuestIP cidr taken w = inl s -> exists h low, subnet4 cidr h low.
Proof.
  intros Hw. unfold AllocateGuestIP. rewrite Hw. destruct (ParseCIDR cidr) as [[hostIP n]|] eqn:Hp; [|done]. destruct (ParseCIDR_shape _ _ _ Hp) as [En Hl].
  rewrite En. set (low := n_bits n - n_ones n) in *. destruct (Z.ltb_spec 16 low) as [|Hlow]; [done|]. rewrite mask_low_idem by done.
  destruct (To4 (mask_low hostIP low)) as [net|] eqn:Ht; [|done]. intros _. apply To4_Some in Ht as [Ht Hn].
  exists (hostIP mod 2 ^ 32), low, n. split; [|split; [done|]; split; [lia|apply Z.mod_pos_bound; lia]]. rewrite Hp. do 2 f_equal.
  destruct (low_div low ltac:(lia)) as (k & Hk & E & Hpow). unfold mask_low, of4 in *.
  pose proof (Z.mod_pos_bound hostIP (2 ^ low)). pose proof (Z.div_mod hostIP (2 ^ 32)) as D. pose proof (Z.mod_pos_bound hostIP (2 ^ 32)).
  (* net is a multiple of 2^low, so that clearing the low bits leaves the upper ninety-six *)
  pose proof (Z.div_mod hostIP (2 ^ low)) as D'. set (q := hostIP / 2 ^ low) in *. set (m := hostIP mod 2 ^ low) in *.
  assert (net = 2 ^ low * (q - 65535 * k)) as En' by nia. enough (hostIP / 2 ^ 32 = 65535) as E65 by (rewrite E65 in D; lia).
  symmetry. apply (Z.div_unique_pos _ _ _ (net + m)); [|nia]. split; [nia|]. assert (q - 65535 * k < k) by nia. nia.
Qed.

(** ** Ports *)

Definition port_low (low : Z) : Z := if low =? 0 then DefaultEgressPortLow else low.
Definition port_high (high : Z) : Z := if high =? 0 then DefaultEgressPortHigh else high.

Lemma AllocatePort_spec low high taken :
  match AllocatePort low high taken with
  | inl p => port_low low <= p <= port_high high /\ (p ∉ map_values taken) /\ forall q, port_low low <= q < p -> q ∈ map_values taken
  | inr e => e = ErrNoEgressAddress /\ forall q, port_low low <= q <= port_high high -> q ∈ map_values taken
  end.
Proof.
  unfold AllocatePort. fold (port_low low) (port_high high). set (l := port_low low). set (h := port_high high).
  pose proof (find_least (fun i => l + Z.of_nat i) (fun p => bool_decide (p ∉ map_values taken)) (Z.to_nat (h - l + 1)) 0) as Hf.
  destruct (List.find _ _) as [p|].
  - destruct Hf as (i & Hi & -> & Ht & Hj). apply bool_decide_eq_true in Ht. split; [lia|]. split; [done|]. intros q Hq.
    specialize (Hj (Z.to_nat (q - l))). apply bool_decide_eq_false in Hj; [|lia]. replace (l + Z.of_nat (Z.to_nat (q - l))) with q in Hj by lia. by apply dec_stable.
  - split; [done|]. intros q Hq. specialize (Hf (Z.to_nat (q - l))). apply bool_decide_eq_false in Hf; [|lia].
    replace (l + Z.of_nat (Z.to_nat (q - l))) with q in Hf by lia. by apply dec_stable.
Qed.

Lemma elem_of_map_values {V} (m : gmap gostring V) v : v ∈ map_values m <-> exists k, m !! k = Some v.
Proof.
  unfold map_values. rewrite list_elem_of_fmap. split.
  - intros ([k x] & -> & H). apply elem_of_map_to_list in H. by exists k.
  - intros [k H]. exists (k, v). split; [done|]. by apply elem_of_map_to_list.
Qed.
