(* ===== verification/NetdFacts.v ===== *)
(** What the network helper does for a connection, and that its leases stay apart over any
    history of connections and restarts. *)
From S2P Require Import Prelude Regex Markdown Spec Shell Domains IPAddr EgressNet Netd AddressFacts.
Local Open Scope Z_scope.

(** ** What is run *)

Definition with_ran (s : Netd) (l : list Ran) : Netd := MkNetd (nd_m s) (nd_file s) (nd_ran s ++ l).

Section commands.
Context (sha256 : gostring -> gostring) (cfg : ServerConfig) (H : NetdHost).

Definition ran_of (argv : list gostring) : Ran := MkRan (exec_of cfg argv) "".
Definition torn (l : EgressLink) : list Ran := ran_of <$> TeardownCommands l.
Definition nft_ran (l : EgressLink) : Ran := MkRan (exec_of cfg (fst (NftCommand l))) (snd (NftCommand l)).

Lemma with_ran_app s a b : with_ran (with_ran s a) b = with_ran s (a ++ b).
Proof. unfold with_ran. cbn. by rewrite app_assoc. Qed.

Lemma run_ran s argv stdin : argv <> [] -> fst (run cfg H s argv stdin) = with_ran s [MkRan (exec_of cfg argv) stdin].
Proof. by destruct argv. Qed.

Lemma teardown_ran s l : teardown cfg H s l = with_ran s (torn l).
Proof. unfold teardown, torn, TeardownCommands. cbn [foldl fmap list_fmap]. rewrite !run_ran by done. by rewrite with_ran_app. Qed.

Lemma setup_ran s cmds : Forall (fun c => c <> []) cmds ->
  match setup cfg H s cmds with
  | (s', None) => s' = with_ran s (ran_of <$> cmds)
  | (s', Some argv) => exists k, cmds !! k = Some argv /\ s' = with_ran s (ran_of <$> take (S k) cmds)
  end.
Proof.
  intros HF. revert s. induction HF as [|argv cmds Ha HF IH]; intros s; cbn [setup]; [unfold with_ran; cbn; rewrite app_nil_r; by destruct s|].
  destruct (run cfg H s argv "") as [s1 ok] eqn:E. pose proof (run_ran s argv "" Ha) as E1. rewrite E in E1. cbn in E1. subst s1.
  destruct ok; [|by exists 0%nat]. specialize (IH (with_ran s [MkRan (exec_of cfg argv) ""])). destruct (setup _ _ _ cmds) as [s' [argv'|]].
  - destruct IH as (k & Hk & ->). exists (S k). split; [done|]. by rewrite with_ran_app.
  - by rewrite IH, with_ran_app.
Qed.

Lemma setup_nonempty l : Forall (fun c => c <> []) (SetupCommands l).
Proof. repeat constructor; done. Qed.

(** The link a request is about: every name in it is the workspace's own. *)
Definition link_of (w : gostring) (l : EgressLink) : Prop :=
  ValidateWorkspaceName w = true /\ el_Netns l = NetnsName w /\ el_NetnsPath l = NetnsPath w /\ (el_HostVeth l, el_GuestVeth l) = vethNames sha256 w.

Lemma plan_link o l : PlanEgressLink sha256 o = inl l -> link_of (lo_Workspace o) l.
Proof.
  unfold PlanEgressLink. destruct (ValidateWorkspaceName _) eqn:E; [|done]. repeat (case_match; try done); intros [= <-]; repeat split; cbn; congruence.
Qed.

(** What a connection is answered with, and what is run for it. *)
Inductive acted (s : Netd) (req : NetRequest) : list Ran -> NetResponse -> Prop :=
| act_none r : acted s req [] r
| act_removed l r : rq_Op req = OpDelete -> link_of (rq_Workspace req) l -> acted s req (torn l) r
| act_wired l r : rq_Op req = OpEnsure -> link_of (rq_Workspace req) l -> rs_Error r = None \/ rs_Error r = Some SaveFailed ->
    acted s req (torn l ++ (ran_of <$> SetupCommands l) ++ [nft_ran l]) r
| act_undone l k argv : rq_Op req = OpEnsure -> link_of (rq_Workspace req) l -> SetupCommands l !! k = Some argv ->
    acted s req (torn l ++ (ran_of <$> take (S k) (SetupCommands l)) ++ torn l) (refused (RunFailed argv)).

(** A lease answered is recorded, and its link was wired or was there. *)
Definition answered (s s' : Netd) (req : NetRequest) (new : list Ran) (r : NetResponse) : Prop :=
  rq_Op req = OpEnsure -> rs_Error r = None ->
  nd_m s' !! rq_Workspace req = Some (rs_GuestIP r) /\ nd_file s' !! rq_Workspace req = Some (rs_GuestIP r) /\
  rs_NetnsPath r = NetnsPath (rq_Workspace req) /\ (new <> [] \/ (rq_Reuse req = true /\ nh_stat H (nd_ran s) (rs_NetnsPath r) = true)).

Lemma leased_spec s req l ip : el_NetnsPath l = NetnsPath (rq_Workspace req) ->
  let '(s', r) := leased H s req l ip in
  nd_ran s' = nd_ran s /\ (rs_Error r = None \/ rs_Error r = Some SaveFailed) /\ nd_m s' = <[rq_Workspace req := ip]> (nd_m s) /\
  (nd_file s' = nd_m s' \/ nd_file s' = nd_file s) /\
  (rs_Error r = None -> rs_GuestIP r = ip /\ rs_NetnsPath r = el_NetnsPath l /\ nd_file s' = nd_m s').
Proof. intros _. unfold leased, Put, save. destruct (nh_save _ _); cbn; repeat split; auto; done. Qed.

Lemma ensure_acts s req : rq_Op req = OpEnsure ->
  let '(s', r) := ensure sha256 cfg H s req in
  exists new, nd_ran s' = nd_ran s ++ new /\ acted s req new r /\ answered s s' req new r.
Proof.
  intros Hop. unfold ensure. destruct (AllocateGuestIP _ _ _) as [ip|e].
  2: { exists []. rewrite app_nil_r. split; [done|]. split; [constructor|]. by intros _ [=]. }
  destruct (PlanEgressLink _ _) as [l|e] eqn:Hp.
  2: { exists []. rewrite app_nil_r. split; [done|]. split; [constructor|]. by intros _ [=]. }
  apply plan_link in Hp as Hl. cbn [lo_Workspace] in Hl. destruct Hl as (Hv & Hn & Hpath & Hveth).
  assert (link_of (rq_Workspace req) l) as Hl by done.
  destruct (rq_Reuse req && nh_stat H (nd_ran s) (el_NetnsPath l)) eqn:Hr.
  - apply andb_true_iff in Hr as [Hr Hs]. pose proof (leased_spec s req l ip Hpath) as HL. destruct (leased H s req l ip) as [s' r].
    destruct HL as (E1 & _ & E2 & _ & E3). exists []. rewrite app_nil_r. split; [done|]. split; [constructor|]. intros _ Hnone. destruct (E3 Hnone) as (-> & -> & ->).
    rewrite E2, lookup_insert_eq. split; [done|]. split; [done|]. split; [done|]. by right.
  - rewrite teardown_ran. pose proof (setup_ran (with_ran s (torn l)) (SetupCommands l) (setup_nonempty l)) as Hset.
    destruct (setup cfg H (with_ran s (torn l)) (SetupCommands l)) as [s1 [argv|]].
    + destruct Hset as (k & Hk & ->). rewrite teardown_ran, !with_ran_app. eexists. split; [reflexivity|]. split; [|by intros _ [=]].
      by apply act_undone.
    + subst s1. cbn [NftCommand]. rewrite run_ran by done. rewrite !with_ran_app.
      set (new := torn l ++ (ran_of <$> SetupCommands l) ++ [nft_ran l]). change (with_ran s _) with (with_ran s new).
      pose proof (leased_spec (with_ran s new) req l ip Hpath) as HL. destruct (leased H (with_ran s new) req l ip) as [s' r].
      destruct HL as (E1 & Herr & E2 & _ & E3). exists new. split; [done|]. split; [by apply act_wired|]. intros _ Hnone. destruct (E3 Hnone) as (-> & -> & ->).
      rewrite E2, lookup_insert_eq. split; [done|]. split; [done|]. split; [done|]. left. subst new. unfold torn, TeardownCommands. done.
Qed.

Lemma Remove_ran s w : let '(s', ok) := Remove H s w in nd_ran s' = nd_ran s.
Proof. unfold Remove, save. repeat case_match; simplify_eq; done. Qed.

Lemma delete_acts s req : rq_Op req = OpDelete ->
  let '(s', r) := delete_link sha256 cfg H s req in exists new, nd_ran s' = nd_ran s ++ new /\ acted s req new r.
Proof.
  intros Hop. unfold delete_link. destruct (PlanEgressLink _ _) as [l|e] eqn:Hp.
  2: { exists []. rewrite app_nil_r. split; [done|constructor]. }
  apply plan_link in Hp. cbn [lo_Workspace] in Hp. rewrite teardown_ran. pose proof (Remove_ran (with_ran s (torn l)) (rq_Workspace req)) as E.
  destruct (Remove H _ _) as [s' ok]. destruct ok; (exists (torn l); split; [exact E|by apply act_removed]).
Qed.
End commands.

(** ** Leases *)

(** An address of a subnet that a guest may have. *)
Definition usable (cidr ip : gostring) : Prop := exists h low v, subnet4 cidr h low /\ usable4 h low v /\ ip = dotted v.

(** Leases of usable addresses, no two the same. *)
Definition apart (cidrs : list gostring) (m : gmap gostring gostring) : Prop :=
  forall w ip, m !! w = Some ip -> (exists c, c ∈ cidrs /\ usable c ip) /\ forall w', m !! w' = Some ip -> w' = w.

(** The subnets a connection may take an address from. *)
Definition asked (cfg : ServerConfig) (H : NetdHost) (line : gostring) : list gostring :=
  match nh_decode H (TrimSpace line) with
  | Some r => [if rq_HostCIDR r <>s "" then rq_HostCIDR r else srv_hostCIDR cfg]
  | None => []
  end.

Lemma apart_more cidrs more m : apart cidrs m -> apart (more ++ cidrs) m.
Proof. intros HA w ip Hw. destruct (HA w ip Hw) as [(c & Hc & Hu) Hi]. split; [|done]. exists c. split; [set_solver|done]. Qed.

Lemma apart_delete cidrs m w : apart cidrs m -> apart cidrs (delete w m).
Proof.
  intros HA w1 ip [_ H1]%lookup_delete_Some. destruct (HA w1 ip H1) as [Hu Hi]. split; [done|]. intros w2 [_ H2]%lookup_delete_Some. by apply Hi.
Qed.

Lemma apart_insert cidrs m w ip c : apart cidrs m -> c ∈ cidrs -> AllocateGuestIP c m w = inl ip -> apart cidrs (<[w := ip]> m).
Proof.
  intros HA Hc Hal. destruct (m !! w) as [ip0|] eqn:Hw.
  { assert (ip0 = ip) as -> by (unfold AllocateGuestIP in Hal; rewrite Hw in Hal; by injection Hal). by rewrite insert_id. }
  destruct (allocate_subnet _ _ _ _ Hw Hal) as (h & low & Hs). destruct (allocate_new c h low m w Hs Hw) as [(v & E & Hu & Hnin & _)|[E _]]; [|congruence].
  rewrite Hal in E. injection E as ->. assert (forall x, m !! x <> Some (dotted v)) as Hno by (intros x Hx; apply Hnin, elem_of_map_values; by exists x).
  intros w1 ip1 [[<- <-]|[Hne H1]]%lookup_insert_Some.
  - split; [exists c; split; [done|]; by exists h, low, v|]. intros w' [[<- _]|[_ H2]]%lookup_insert_Some; [done|]. by apply Hno in H2.
  - destruct (HA w1 ip1 H1) as [Hu1 Hi]. split; [done|]. intros w' [[<- E]|[_ H2]]%lookup_insert_Some; [|by apply Hi]. subst. by apply Hno in H1.
Qed.

Section leases.
Context (sha256 : gostring -> gostring).

(** How a validated request changes the leases: not, by the allocator's address for its
    workspace, or by dropping it; the file is the leases or stays. *)
Definition lease_step (cfg : ServerConfig) (s s' : Netd) (req : NetRequest) : Prop :=
  (nd_file s' = nd_m s' \/ nd_file s' = nd_file s) /\
  (nd_m s' = nd_m s \/
   (rq_Op req = OpEnsure /\ exists ip, AllocateGuestIP (if rq_HostCIDR req <>s "" then rq_HostCIDR req else srv_hostCIDR cfg) (nd_m s) (rq_Workspace req) = inl ip /\
      nd_m s' = <[rq_Workspace req := ip]> (nd_m s)) \/
   (rq_Op req = OpDelete /\ nd_m s' = delete (rq_Workspace req) (nd_m s))).

Lemma dispatch_leases cfg H s req : lease_step cfg s (fst (netd_dispatch sha256 cfg H s req)) req.
Proof.
  unfold netd_dispatch. destruct (rq_Op req) eqn:Hop; [| |split; auto..].
  - unfold ensure. destruct (AllocateGuestIP _ _ _) as [ip|e] eqn:Ha; [|split; auto]. destruct (PlanEgressLink _ _) as [l|e] eqn:Hp; [|split; auto].
    assert (forall s1, nd_m s1 = nd_m s -> nd_file s1 = nd_file s -> lease_step cfg s (fst (leased H s1 req l ip)) req) as HL.
    { intros s1 E1 E2. apply plan_link in Hp as (_ & _ & Hpath & _). cbn in Hpath. pose proof (leased_spec H s1 req l ip Hpath) as HL. destruct (leased H s1 req l ip) as [s' r].
      destruct HL as (_ & _ & Em & Ef & _). rewrite E1 in Em. rewrite E2 in Ef. split; [done|]. right. left. split; [done|]. by exists ip. }
    destruct (rq_Reuse req && _); [by apply HL|]. rewrite teardown_ran. pose proof (setup_ran cfg H (with_ran s (torn cfg l)) (SetupCommands l) (setup_nonempty l)) as Hset.
    destruct (setup cfg H _ _) as [s1 [argv|]].
    + destruct Hset as (k & _ & ->). rewrite teardown_ran. split; cbn; auto.
    + subst s1. cbn [NftCommand]. rewrite run_ran by done. by apply HL.
  - unfold delete_link. destruct (PlanEgressLink _ _) as [l|e]; [|split; auto]. rewrite teardown_ran. unfold Remove. cbn [nd_m with_ran].
    destruct (nd_m s !! rq_Workspace req) eqn:Hw; [|split; cbn; auto]. unfold save. destruct (nh_save _ _); (split; cbn; [auto|]); right; right; done.
Qed.

(** A history of the helper: connections of any peers with any bytes under any answers of
    the host, and restarts under any configuration. *)
Inductive netd_reach : list gostring -> Netd -> Prop :=
| nr_new : netd_reach [] (MkNetd ∅ ∅ [])
| nr_conn cidrs s cfg H uid line rerr : netd_reach cidrs s ->
    netd_reach (asked cfg H line ++ cidrs) (fst (netd_handle sha256 cfg H s uid line rerr))
| nr_restart cidrs s : netd_reach cidrs s -> netd_reach cidrs (netd_start s).

(** A connection leaves the leases or is a valid request of an allowed peer. *)
Lemma handle_request cfg H s uid line rerr :
  fst (netd_handle sha256 cfg H s uid line rerr) = s \/
  exists u req, uid = Some u /\ u ∈ allowed_uids cfg /\ nh_decode H (TrimSpace line) = Some req /\ NetRequest_Validate req = None /\
    netd_handle sha256 cfg H s uid line rerr = (fst (netd_dispatch sha256 cfg H s req), Some (snd (netd_dispatch sha256 cfg H s req))).
Proof.
  unfold netd_handle. destruct uid as [u|]; [|by left]. destruct (decide (u ∈ allowed_uids cfg)) as [Hu|Hu]; [|rewrite (bool_decide_false _ Hu); by left].
  rewrite (bool_decide_true _ Hu). cbn [negb]. case_match; [by left|]. destruct (nh_decode H (TrimSpace line)) as [req|]; [|by left].
  destruct (NetRequest_Validate req) eqn:Hv; [by left|]. right. exists u, req. destruct (netd_dispatch sha256 cfg H s req). done.
Qed.

Lemma step_apart cfg s s' req cidrs : lease_step cfg s s' req -> (if rq_HostCIDR req <>s "" then rq_HostCIDR req else srv_hostCIDR cfg) ∈ cidrs ->
  apart cidrs (nd_m s) -> apart cidrs (nd_file s) -> apart cidrs (nd_m s') /\ apart cidrs (nd_file s').
Proof.
  intros [Hf Hm] Hc HA HF. assert (apart cidrs (nd_m s')) as HA'.
  { destruct Hm as [->|[(_ & ip & Ha & ->)|[_ ->]]]; [done| |by apply apart_delete]. by eapply apart_insert. }
  split; [done|]. by destruct Hf as [->| ->].
Qed.

Lemma reach_apart cidrs s : netd_reach cidrs s -> apart cidrs (nd_m s) /\ apart cidrs (nd_file s).
Proof.
  induction 1 as [|cidrs s cfg H uid line rerr _ [IH1 IH2]|cidrs s _ [IH1 IH2]].
  - split; intros w ip Hw; cbn in Hw; by rewrite lookup_empty in Hw.
  - destruct (handle_request cfg H s uid line rerr) as [->|(u & req & _ & _ & Hd & _ & ->)]; [split; by apply apart_more|].
    unfold asked. rewrite Hd. cbn [fst]. eapply step_apart; [apply dispatch_leases|set_solver|by apply apart_more..].
  - done.
Qed.

Lemma step_kept cfg s s' req w ip : lease_step cfg s s' req -> nd_m s !! w = Some ip -> nd_m s' !! w = Some ip \/ (rq_Op req = OpDelete /\ rq_Workspace req = w).
Proof.
  intros [_ Hm] Hw. destruct (decide (rq_Workspace req = w)) as [E|E]; destruct Hm as [->|[(_ & ip' & Ha & ->)|[Hop ->]]]; auto.
  - left. rewrite E in *. unfold AllocateGuestIP in Ha. rewrite Hw in Ha. injection Ha as <-. by rewrite lookup_insert_eq.
  - left. by rewrite lookup_insert_ne.
  - left. by rewrite lookup_delete_ne.
Qed.
(** The workspace an allowed peer's connection asks to delete. *)
Definition deletes (cfg : ServerConfig) (H : NetdHost) (uid : option Z) (line : gostring) : list gostring :=
  match uid, nh_decode H (TrimSpace line) with
  | Some u, Some req => if bool_decide (u ∈ allowed_uids cfg) then match rq_Op req with OpDelete => [rq_Workspace req] | _ => [] end else []
  | _, _ => []
  end.

(** What comes after [s]: connections and restarts as above, with the workspaces that were
    asked to be deleted. *)
Inductive since (s : Netd) : list gostring -> Netd -> Prop :=
| since_now : since s [] s
| since_conn gone s1 cfg H uid line rerr : since s gone s1 ->
    since s (deletes cfg H uid line ++ gone) (fst (netd_handle sha256 cfg H s1 uid line rerr))
| since_restart gone s1 : since s gone s1 -> since s gone (netd_start s1).

Lemma conn_kept cfg H s uid line rerr w ip : nd_m s !! w = Some ip -> w ∉ deletes cfg H uid line ->
  nd_m (fst (netd_handle sha256 cfg H s uid line rerr)) !! w = Some ip /\
  (nd_file s !! w = Some ip -> nd_file (fst (netd_handle sha256 cfg H s uid line rerr)) !! w = Some ip).
Proof.
  intros Hm Hd. destruct (handle_request cfg H s uid line rerr) as [->|(u & req & -> & Hin & Hdec & _ & ->)]; [done|]. cbn [fst].
  pose proof (dispatch_leases cfg H s req) as Hl. unfold deletes in Hd. rewrite Hdec, (bool_decide_true _ Hin) in Hd.
  destruct (step_kept cfg s _ req w ip Hl Hm) as [Hk|[Hop Hn]]; [|rewrite Hop in Hd; set_solver]. split; [done|]. intros Hf. by destruct Hl as [[->| ->] _].
Qed.

Lemma since_kept s w ip gone s' : nd_m s !! w = Some ip -> nd_file s !! w = Some ip -> since s gone s' -> w ∉ gone ->
  nd_m s' !! w = Some ip /\ nd_file s' !! w = Some ip.
Proof.
  intros Hm Hf. induction 1 as [|gone s1 cfg H uid line rerr _ IH|gone s1 _ IH]; intros Hg; [done| |].
  - apply not_elem_of_app in Hg as [Hd Hg]. destruct (IH Hg) as [Hm1 Hf1]. destruct (conn_kept cfg H s1 uid line rerr w ip Hm1 Hd) as [H1 H2]. auto.
  - destruct (IH Hg) as [_ Hf1]. done.
Qed.
End leases.

(** C34: Whatever connections are made, by whatever peers with whatever bytes, whichever
    commands and writes fail, and however often the helper is restarted under other
    configurations, no two workspaces lease one address, and every leased address is usable
    in a subnet that was asked for: inside it, and neither its network's, its broadcast nor
    the bridge's own address. A lease that is in the file is kept, in memory and in the
    file, over any such history in which no allowed peer asks for just that workspace to be
    deleted. (A lease whose write failed is held in memory only, and lost at a restart;
    its ensure was answered with an error.) *)
Theorem leases_apart (sha256 : gostring -> gostring) (cidrs : list gostring) (s : Netd) (w ip : gostring) :
  netd_reach sha256 cidrs s -> nd_m s !! w = Some ip ->
  (forall w', nd_m s !! w' = Some ip -> w' = w) /\ (exists c, c ∈ cidrs /\ usable c ip) /\
  (forall cfg H uid line rerr, w ∉ deletes cfg H uid line -> nd_m (fst (netd_handle sha256 cfg H s uid line rerr)) !! w = Some ip) /\
  (nd_file s !! w = Some ip -> forall gone s', since sha256 s gone s' -> w ∉ gone -> nd_m s' !! w = Some ip /\ nd_file s' !! w = Some ip).
Proof.
  intros Hr Hw. destruct (reach_apart _ _ _ Hr) as [HA _]. destruct (HA w ip Hw) as [Hu Hi]. split_and!; [done|done| |].
  - intros cfg H uid line rerr Hd. by apply conn_kept.
  - intros Hf gone s' Hs Hg. by eapply since_kept.
Qed.

(** For a connection the helper runs nothing, or its peer is an allowed uid, its request
    well formed, and what runs is the wiring or the removal of that very workspace's link:
    its removal, a set-up in order and the rules, or a set-up up to the command that failed
    followed by the removal, which the reply reports. A link that is answered is wired or
    was there and asked to be reused, at the workspace's own path, and its address is
    recorded in memory and in the file. *)
Theorem handle_acts (sha256 : gostring -> gostring) (cfg : ServerConfig) (H : NetdHost) (s : Netd) (uid : option Z) (line : gostring) (rerr : bool) :
  fst (netd_handle sha256 cfg H s uid line rerr) = s \/
  exists u req s' r new, netd_handle sha256 cfg H s uid line rerr = (s', Some r) /\
    uid = Some u /\ u ∈ allowed_uids cfg /\ nh_decode H (TrimSpace line) = Some req /\ NetRequest_Validate req = None /\
    nd_ran s' = nd_ran s ++ new /\ acted sha256 cfg s req new r /\ answered H s s' req new r.
Proof.
  destruct (handle_request sha256 cfg H s uid line rerr) as [E|(u & req & -> & Hin & Hd & Hv & E)]; [by left|].
  right. exists u, req. rewrite E. unfold netd_dispatch in *. destruct (rq_Op req) eqn:Hop.
  - pose proof (ensure_acts sha256 cfg H s req Hop) as Ha. destruct (ensure sha256 cfg H s req) as [s' r]. destruct Ha as (new & E1 & E2 & E3).
    by exists s', r, new.
  - pose proof (delete_acts sha256 cfg H s req Hop) as Ha. destruct (delete_link sha256 cfg H s req) as [s' r]. destruct Ha as (new & E1 & E2).
    exists s', r, new. split_and!; try done. intros E3 _. congruence.
  - eexists _, _, []. rewrite app_nil_r. split_and!; try done; try apply act_none; intros E3 _; congruence.
  - eexists _, _, []. rewrite app_nil_r. split_and!; try done; try apply act_none; intros E3 _; congruence.
Qed.

(** For a bridge's subnet of at most 65536 addresses, a workspace that has a lease gets
    just that address again; any other gets the least address that no lease has among those
    that are neither the network's, the broadcast's nor the bridge's own, and an error only
    when each of them is leased. *)
Theorem allocator_least (cidr : gostring) (h low : Z) (taken : gmap gostring gostring) (w : gostring) :
  subnet4 cidr h low ->
  match taken !! w with
  | Some ip => AllocateGuestIP cidr taken w = inl ip
  | None =>
      (exists v, AllocateGuestIP cidr taken w = inl (dotted v) /\ usable4 h low v /\ (forall x, taken !! x <> Some (dotted v)) /\
         forall u, usable4 h low u -> u < v -> exists x, taken !! x = Some (dotted u)) \/
      (AllocateGuestIP cidr taken w = inr ErrNoEgressAddress /\ forall u, usable4 h low u -> exists x, taken !! x = Some (dotted u))
  end.
Proof.
  intros Hs. destruct (taken !! w) as [ip|] eqn:Hw; [unfold AllocateGuestIP; by rewrite Hw|].
  destruct (allocate_new cidr h low taken w Hs Hw) as [(v & E & Hu & Hn & Hl)|[E Hn]]; setoid_rewrite elem_of_map_values in Hn; [left|by right].
  exists v. split; [done|]. split; [done|]. split; [intros x Hx; apply Hn; by exists x|]. intros u Hu' Hlt. by apply elem_of_map_values, Hl.
Qed.

(** ** Samples *)

Definition plain_cfg : ServerConfig := MkServerConfig "" "" 0 0 [] "" "" "".
Definition ask (op : NetOp) (w cidr : gostring) : NetRequest := MkNetRequest op w 3128 "" cidr false.

(** A host where every command succeeds; a request is written as its first byte and the
    workspace's name. *)
Definition easy_host : NetdHost := MkNetdHost (fun _ _ => false) (fun _ _ => true) (fun _ => true)
  (fun line => match line with
               | "+"%byte :: w => Some (ask OpEnsure w "")
               | "*"%byte :: w => Some (ask OpEnsure w "10.0.0.1/24")
               | "-"%byte :: w => Some (ask OpDelete w "")
               | _ => None
               end).

Definition served (lines : list gostring) : Netd :=
  foldl (fun s line => fst (netd_handle id plain_cfg easy_host s (Some 0) line false)) (MkNetd ∅ ∅ []) lines.

Lemma subnet4_default : subnet4 DefaultEgressHostCIDR 2852006401 8.
Proof. eexists. split; [vm_compute; reflexivity|]. split; [reflexivity|]. lia. Qed.

Lemma allocator_least_witness :
  AllocateGuestIP DefaultEgressHostCIDR (<[bs "db" := bs "169.254.42.2"]> ∅) "web" = inl (bs "169.254.42.3") /\
  ((exists v, AllocateGuestIP DefaultEgressHostCIDR (<[bs "db" := bs "169.254.42.2"]> ∅) "web" = inl (dotted v) /\ usable4 2852006401 8 v /\
      (forall x, (<[bs "db" := bs "169.254.42.2"]> ∅ : gmap gostring gostring) !! x <> Some (dotted v)) /\
      forall u, usable4 2852006401 8 u -> u < v -> exists x, (<[bs "db" := bs "169.254.42.2"]> ∅ : gmap gostring gostring) !! x = Some (dotted u)) \/
   (AllocateGuestIP DefaultEgressHostCIDR (<[bs "db" := bs "169.254.42.2"]> ∅) "web" = inr ErrNoEgressAddress /\
      forall u, usable4 2852006401 8 u -> exists x, (<[bs "db" := bs "169.254.42.2"]> ∅ : gmap gostring gostring) !! x = Some (dotted u))).
Proof.
  split; [vm_compute; reflexivity|].
  exact (allocator_least DefaultEgressHostCIDR 2852006401 8 (<[bs "db" := bs "169.254.42.2"]> ∅) (bs "web") subnet4_default).
Defined.

Lemma served_reach lines : exists cidrs, netd_reach id cidrs (served lines).
Proof.
  unfold served. induction lines as [|line lines IH] using rev_ind; [eexists; constructor|]. destruct IH as [cidrs IH]. rewrite foldl_app. cbn [foldl].
  eexists. by apply nr_conn.
Qed.

Lemma leases_apart_witness :
  exists cidrs, netd_reach id cidrs (served [bs "+web"; bs "+db"]) /\ nd_m (served [bs "+web"; bs "+db"]) !! bs "db" = Some (bs "169.254.42.3") /\
  (forall w', nd_m (served [bs "+web"; bs "+db"]) !! w' = Some (bs "169.254.42.3") -> w' = bs "db") /\
  nd_m (netd_start (served [bs "+web"; bs "+db"])) !! bs "db" = Some (bs "169.254.42.3").
Proof.
  destruct (served_reach [bs "+web"; bs "+db"]) as [cidrs Hr]. exists cidrs. split; [exact Hr|].
  assert (nd_m (served [bs "+web"; bs "+db"]) !! bs "db" = Some (bs "169.254.42.3")) as Hdb by (vm_compute; reflexivity).
  assert (nd_file (served [bs "+web"; bs "+db"]) !! bs "db" = Some (bs "169.254.42.3")) as Hf by (vm_compute; reflexivity).
  destruct (leases_apart id cidrs (served [bs "+web"; bs "+db"]) (bs "db") (bs "169.254.42.3") Hr Hdb) as (H1 & _ & _ & H2).
  split; [exact Hdb|]. split; [exact H1|]. apply (H2 Hf [] (netd_start (served [bs "+web"; bs "+db"]))); [apply since_restart, since_now|apply not_elem_of_nil].
Defined.

(** A workspace leased in a subnet its request named cannot be removed: delete plans with
    the helper's own subnet, in which the lease is not, and answers an error before it
    removes anything; the lease stays, for any number of deletes. *)
Theorem delete_stuck (n : nat) :
  let s := served [bs "*web"] in
  nd_m s !! bs "web" = Some (bs "10.0.0.2") /\
  foldl (fun s line => fst (netd_handle id plain_cfg easy_host s (Some 0) line false)) s (replicate n (bs "-web")) = s /\
  snd (netd_handle id plain_cfg easy_host s (Some 0) "-web" false) = Some (refused (Unplanned OutsideSubnet)).
Proof.
  intros s. split; [vm_compute; reflexivity|]. split; [|vm_compute; reflexivity].
  assert (fst (netd_handle id plain_cfg easy_host s (Some 0) (bs "-web") false) = s) as E by (vm_compute; reflexivity).
  induction n as [|n IH]; [done|]. cbn [replicate foldl]. by rewrite E.
Qed.
