(* ===== verification/Egress.v ===== *)
(** The egress supervisor of internal/aped/egress.go: the proxies the front runs for its
    workspaces, their ports and their records, over restarts; and the handler that changes
    an allowlist (internal/aped/vmm.go). *)
From S2P Require Import Prelude Regex Markdown Spec Shell GateScript Paths Domains Policy IPAddr EgressNet.
Local Open Scope Z_scope.

(** ** Data *)

Record EgressConfig := MkEgressConfig { ec_BindIP : gostring; ec_PortLow : Z; ec_PortHigh : Z; ec_StateDir : gostring;
  ec_Policy : option EgressPolicy; ec_SystemRoutes : list SystemRoute }.

Record egressProxy := MkEgressProxy { gp_proxy : Proxy; gp_addr : gostring; gp_port : Z; gp_domains : list gostring }.

(** The record of a live proxy. *)
Record egressState := MkEgressState { es_Domains : list gostring; es_Port : Z }.

(** The supervisor, and the records under its state directory, by path; a file that does not
    decode is as none. *)
Record EgressSupervisor := MkSupervisor { sv_running : gmap gostring egressProxy; sv_ports : gmap gostring Z;
  sv_disk : gmap gostring egressState }.

(** What a write of a record leaves: it, what was there, or nothing that decodes. *)
Inductive Written := WOk | WKept | WSpoiled.

(** The host's answers, by workspace: the folder, the trail, the record; and a listener's
    address, given those that are open. *)
Record EgressHost := MkEgressHost { eh_Mkdir : gostring -> bool; eh_Open : gostring -> bool; eh_Write : gostring -> Written;
  eh_Remove : gostring -> bool; eh_Listen : list gostring -> gostring -> option gostring }.

Record EgressPlan := MkEgressPlan { pn_Domains : list gostring; pn_ProxyURL : gostring }.

Definition egressStateName : gostring := "egress.json".

(** NewEgressSupervisor *)
Definition NewEgressSupervisor (disk : gmap gostring egressState) : EgressSupervisor := MkSupervisor ∅ ∅ disk.

(** equalDomains *)
Fixpoint equalDomains (a b : list gostring) : bool :=
  match a, b with
  | [], [] => true
  | x :: a', y :: b' => (x =s y) && equalDomains a' b'
  | _, _ => false
  end.

Section supervisor.
Context (ToLower : gostring -> gostring) (cfg : EgressConfig) (H : EgressHost).

(** bindIP *)
Definition bindIP : gostring :=
  if ec_BindIP cfg <>s "" then ec_BindIP cfg
  else match ParseCIDR DefaultEgressHostCIDR with Some (ip, _) => IP_String ip | None => bs "127.0.0.1" end.

(** ProxyDirFor, and the record's path. *)
Definition ProxyDirFor (name : gostring) : gostring := filepath_Join (filepath_Join (ec_StateDir cfg) "proxies") name.
Definition state_path (name : gostring) : gostring := filepath_Join (ProxyDirFor name) egressStateName.

Definition listen_addr (port : Z) : gostring := net_JoinHostPort bindIP (Itoa port).
Definition open_addrs (s : EgressSupervisor) : list gostring := (fun p => listen_addr (gp_port p)) <$> map_values (sv_running s).

(** writeStateLocked *)
Definition writeStateLocked (disk : gmap gostring egressState) (name : gostring) (domains : list gostring) (port : Z) : gmap gostring egressState :=
  match eh_Write H name with
  | WOk => <[state_path name := MkEgressState domains port]> disk
  | WKept => disk
  | WSpoiled => delete (state_path name) disk
  end.

(** startLocked *)
Definition startLocked (s : EgressSupervisor) (name : gostring) (domains : list gostring) : EgressSupervisor * (egressProxy + WErr) :=
  match (match sv_ports s !! name with Some port => inl port | None => AllocatePort (ec_PortLow cfg) (ec_PortHigh cfg) (sv_ports s) end) with
  | inr _ => (s, inr Plain)
  | inl port =>
      if negb (eh_Mkdir H name) then (s, inr Plain)
      else if negb (eh_Open H name) then (s, inr Plain)
      else
        let proxy := NewProxy ToLower (Some (NewMatcher ToLower domains)) ("ws:" ++ name) [] (ec_SystemRoutes cfg) in
        match eh_Listen H (open_addrs s) (listen_addr port) with
        | None => (s, inr Plain)
        | Some addr =>
            let p := MkEgressProxy proxy addr port domains in
            (MkSupervisor (<[name := p]> (sv_running s)) (<[name := port]> (sv_ports s)) (writeStateLocked (sv_disk s) name domains port), inl p)
        end
  end.

(** stopLocked; a proxy that is stopped to be forgotten loses its record. *)
Definition stopLocked (s : EgressSupervisor) (name : gostring) (forget : bool) : EgressSupervisor :=
  match sv_running s !! name with
  | None => s
  | Some _ => MkSupervisor (delete name (sv_running s)) (delete name (sv_ports s))
                (if forget && eh_Remove H name then delete (state_path name) (sv_disk s) else sv_disk s)
  end.

(** Stop, StopAll *)
Definition Stop (s : EgressSupervisor) (name : gostring) : EgressSupervisor := stopLocked s name true.
Definition StopAll (s : EgressSupervisor) : EgressSupervisor :=
  foldl (fun s name => stopLocked s name false) s (elements (dom (sv_running s))).

(** Plan *)
Definition Plan (s : EgressSupervisor) (name : gostring) (requested : list gostring) : EgressSupervisor * (EgressPlan + WErr) :=
  let req := SortedDomains ToLower requested in
  match req with
  | [] => (s, inl (MkEgressPlan [] []))
  | _ =>
      match ec_Policy cfg with
      | None => (s, inr ErrPolicyDenied)
      | Some pol =>
          if negb (ep_Enabled pol) then (s, inr ErrPolicyDenied)
          else
            let granted := fst (IntersectDomains ToLower req (ep_AllowedDomains pol)) in
            if bool_decide (granted = []) then (s, inr ErrPolicyDenied)
            else if (0 <? ep_MaxDomains pol) && (ep_MaxDomains pol <? Z.of_nat (length granted)) then (s, inr ErrPolicyDenied)
            else
              let start s :=
                match startLocked s name granted with
                | (s', inl p) => (s', inl (MkEgressPlan granted ("http://" ++ gp_addr p)))
                | (s', inr e) => (s', inr e)
                end in
              match sv_running s !! name with
              | Some p =>
                  if equalDomains (gp_domains p) granted then (s, inl (MkEgressPlan granted ("http://" ++ gp_addr p)))
                  else start (stopLocked s name true)
              | None => start s
              end
      end
  end.

(** restoreOne; [None] when it is restored or live. *)
Definition restoreOne (s : EgressSupervisor) (name : gostring) (st : egressState) : EgressSupervisor * option WErr :=
  match ec_Policy cfg with
  | None => (s, Some Plain)
  | Some pol =>
      if negb (ep_Enabled pol) then (s, Some Plain)
      else
        let granted := fst (IntersectDomains ToLower (es_Domains st) (ep_AllowedDomains pol)) in
        if bool_decide (granted = []) then (s, Some Plain)
        else match sv_running s !! name with
             | Some _ => (s, None)
             | None =>
                 match startLocked (MkSupervisor (sv_running s) (<[name := es_Port st]> (sv_ports s)) (sv_disk s)) name granted with
                 | (s', inr e) => (MkSupervisor (sv_running s') (delete name (sv_ports s')) (sv_disk s'), Some e)
                 | (s', inl p) => if bool_decide (gp_port p <> es_Port st) then (stopLocked s' name false, Some Plain) else (s', None)
                 end
             end
  end.

(** RestoreAll's body, for a folder. *)
Definition restore_entry (s : EgressSupervisor) (name : gostring) : EgressSupervisor :=
  match sv_disk s !! state_path name with
  | None => s
  | Some st => if bool_decide (es_Port st = 0) || bool_decide (es_Domains st = []) then s else fst (restoreOne s name st)
  end.

(** RestoreAll, of the folders found. *)
Definition RestoreAll (s : EgressSupervisor) (entries : list gostring) : EgressSupervisor := foldl restore_entry s entries.

(** A front that starts on what an earlier one left. *)
Definition restart (s : EgressSupervisor) (entries : list gostring) : EgressSupervisor :=
  RestoreAll (NewEgressSupervisor (sv_disk s)) entries.

(** handleEgressSet; [inspect] is the backend's answer for the workspace. *)
Definition handleEgressSet (s : EgressSupervisor) (inspect : option WErr) (id : gostring) (domains : list gostring) : EgressSupervisor * (EgressPlan + WErr) :=
  if TrimSpace id =s "" then (s, inr ErrValidation)
  else match inspect with
       | Some e => (s, inr e)
       | None => Plan s id domains
       end.
End supervisor.
