(* ===== verification/EgressFacts.v ===== *)
(** What the proxies of a front serve, over any history of plans, stops and restarts. *)
From S2P Require Import Prelude Regex Markdown Spec Shell GateScript Paths Domains DomainFacts Policy IPAddr EgressNet AddressFacts Egress.
Local Open Scope Z_scope.

Lemma equalDomains_eq a : forall b, equalDomains a b = true <-> a = b.
Proof.
  induction a as [|x a IH]; intros [|y b]; cbn [equalDomains]; try done. rewrite andb_true_iff, bool_decide_eq_true, IH. naive_solver.
Qed.

(** Two listeners never have one address. *)
Definition exclusive (H : EgressHost) : Prop := forall opened a b, eh_Listen H opened a = Some b -> a ∉ opened.

(** A state directory as an absolute clean path. *)
Definition state_dir (cfg : EgressConfig) : Prop := exists es, Forall good es /\ ec_StateDir cfg = abs es.

Lemma state_path_inj cfg cfg' a b : state_dir cfg -> ec_StateDir cfg' = ec_StateDir cfg -> good a -> good b ->
  state_path cfg a = state_path cfg' b -> a = b.
Proof.
  intros (es & Hes & E) E' Ha Hb. unfold state_path, ProxyDirFor. rewrite E', E.
  assert (good (bs "proxies")) as Hp by (split_and!; try done; by apply (bool_decide_unpack _)).
  assert (good egressStateName) as Hs by (split_and!; try done; by apply (bool_decide_unpack _)).
  assert (forall l x, Forall good l -> good x -> filepath_Join (abs l) x = abs (l ++ [x])) as HJ.
  { intros l x Hl Hx. by apply (Join_abs l [x]); [|constructor]. }
  assert (forall x, good x -> Forall good ((es ++ [bs "proxies"]) ++ [x])) as HF by (intros x Hx; rewrite !Forall_app; repeat constructor; done || apply Hp || apply Hx).
  rewrite (HJ es (bs "proxies") Hes Hp). assert (Forall good (es ++ [bs "proxies"])) as Hpre by (apply Forall_app; split; [done|]; by constructor).
  rewrite !(HJ _ _ Hpre) by done. rewrite !HJ by auto. intros Heq%abs_inj; [|by (apply Forall_app; split; [auto|by constructor])..].
  apply app_inj_tail in Heq as [Heq _]. by apply app_inj_tail in Heq as [_ Heq].
Qed.

Section facts.
Context (ToLower : gostring -> gostring) `{HL : Lowering ToLower}.
Abbreviation allows ds host := (Allowed ToLower (NewMatcher ToLower ds) host = true).

(** The hosts of [ds] are among those of [req]. *)
Definition within (ds req : list gostring) : Prop := forall host, allows ds host -> allows req host.

Lemma allows_sorted ds host : allows (SortedDomains ToLower ds) host <-> allows ds host.
Proof.
  rewrite !Allowed_iff. setoid_rewrite elem_of_SortedDomains. split.
  - intros (p & (Hp & d & Hd & ->) & _ & Hm). exists d. unfold norm in *. by rewrite (HL d) in Hm.
  - intros (d & Hd & Hn & Hm). exists (norm ToLower d). unfold norm in *. rewrite (HL d). split; [|done]. split; [done|]. by exists d.
Qed.

(** A grant of the policy in force. *)
Definition granted_by (cfg : EgressConfig) (ds : list gostring) : Prop :=
  exists pol req, ec_Policy cfg = Some pol /\ ep_Enabled pol = true /\ ds = fst (IntersectDomains ToLower req (ep_AllowedDomains pol)) /\ ds <> [].

Lemma granted_policy cfg ds : granted_by cfg ds -> exists pol, ec_Policy cfg = Some pol /\ ep_Enabled pol = true /\ within ds (ep_AllowedDomains pol).
Proof. intros (pol & req & E1 & E2 & -> & _). exists pol. split; [done|]. split; [done|]. intros host. by apply granted_narrows. Qed.

Lemma granted_within req pol : within (fst (IntersectDomains ToLower req pol)) req.
Proof. intros host Hh. by eapply granted_narrows. Qed.

(** ** Starting and stopping *)

Definition proxy_of (cfg : EgressConfig) (name : gostring) (ds : list gostring) : Proxy :=
  NewProxy ToLower (Some (NewMatcher ToLower ds)) ("ws:" ++ name) [] (ec_SystemRoutes cfg).

Lemma start_spec cfg H s name ds : match startLocked ToLower cfg H s name ds with
  | (s', inr _) => s' = s
  | (s', inl p) => exists addr, eh_Listen H (open_addrs cfg s) (listen_addr cfg (gp_port p)) = Some addr /\
      p = MkEgressProxy (proxy_of cfg name ds) addr (gp_port p) ds /\
      (forall port, sv_ports s !! name = Some port -> gp_port p = port) /\
      s' = MkSupervisor (<[name := p]> (sv_running s)) (<[name := gp_port p]> (sv_ports s)) (writeStateLocked cfg H (sv_disk s) name ds (gp_port p))
  end.
Proof.
  unfold startLocked. set (choice := match sv_ports s !! name with Some port => inl port | None => _ end).
  assert (forall port, sv_ports s !! name = Some port -> choice = inl port) as Hc by (intros port E; unfold choice; by rewrite E).
  clearbody choice. destruct choice as [port|e]; [|done]. destruct (eh_Mkdir H name); [|done]. destruct (eh_Open H name); [|done]. cbn [negb].
  destruct (eh_Listen H _ _) as [addr|] eqn:El; [|done]. exists addr. cbn [gp_port]. split; [done|]. split; [done|]. split; [|done].
  intros port' E. apply Hc in E. congruence.
Qed.

(** ** The invariant *)

(** The requests planned for a workspace since its record was last in step with its proxy. *)
Abbreviation Asked := (gmap gostring (list (list gostring))).
Definition of_name (asked : Asked) (name : gostring) : list (list gostring) := default [] (asked !! name).

(** What a plan adds to them. *)
Definition note (cfg : EgressConfig) (asked : Asked) (s' : EgressSupervisor) (name : gostring) (req : list gostring) (r : EgressPlan + WErr) : Asked :=
  match r, sv_running s' !! name with
  | inl plan, Some p =>
      if bool_decide (pn_Domains plan = []) then asked
      else match sv_disk s' !! state_path cfg name with
           | Some st => if decide (es_Domains st = gp_domains p) then <[name := [req]]> asked else <[name := req :: of_name asked name]> asked
           | None => <[name := [req]]> asked
           end
  | _, _ => asked
  end.

Record sound (cfg : EgressConfig) (asked : Asked) (s : EgressSupervisor) : Prop := {
  sd_dir : state_dir cfg;
  sd_live : forall name p, sv_running s !! name = Some p -> good name /\ gp_proxy p = proxy_of cfg name (gp_domains p) /\ granted_by cfg (gp_domains p) /\
    sv_ports s !! name = Some (gp_port p) /\ exists req, req ∈ of_name asked name /\ within (gp_domains p) req;
  sd_ports : forall name port, sv_ports s !! name = Some port -> is_Some (sv_running s !! name);
  sd_apart : forall a b p q, sv_running s !! a = Some p -> sv_running s !! b = Some q -> gp_port p = gp_port q -> a = b;
  sd_disk : forall name st, good name -> sv_disk s !! state_path cfg name = Some st -> exists req, req ∈ of_name asked name /\ within (es_Domains st) req }.

Lemma open_addr cfg s name p : sv_running s !! name = Some p -> listen_addr cfg (gp_port p) ∈ open_addrs cfg s.
Proof. intros Hp. apply list_elem_of_fmap. exists p. split; [done|]. apply elem_of_map_values. by exists name. Qed.

Lemma disk_written cfg H disk name ds port x st : writeStateLocked cfg H disk name ds port !! x = Some st ->
  disk !! x = Some st \/ (x = state_path cfg name /\ es_Domains st = ds).
Proof.
  unfold writeStateLocked. destruct (eh_Write H name); [|by left|].
  - intros [[<- <-]|[_ E]]%lookup_insert_Some; [by right|by left].
  - intros [_ E]%lookup_delete_Some. by left.
Qed.

Lemma sound_stop cfg asked H s name forget : sound cfg asked s -> sound cfg asked (stopLocked cfg H s name forget).
Proof.
  intros [Hd Hl Hp Ha Hk]. unfold stopLocked. destruct (sv_running s !! name) as [p0|] eqn:E0; [|by split].
  split; cbn [sv_running sv_ports sv_disk]; [done| | | |].
  - intros n p [Hne E]%lookup_delete_Some. rewrite lookup_delete_ne by done. by apply Hl.
  - intros n port [Hne E]%lookup_delete_Some. rewrite lookup_delete_ne by done. by eapply Hp.
  - intros a b p q [_ E1]%lookup_delete_Some [_ E2]%lookup_delete_Some. by eapply Ha.
  - intros n st Hg. case_match; [|by apply Hk]. intros [_ E]%lookup_delete_Some. by apply Hk.
Qed.

Lemma of_name_insert asked name l : of_name (<[name := l]> asked) name = l.
Proof. unfold of_name. by rewrite lookup_insert_eq. Qed.
Lemma of_name_insert_ne asked name n l : name <> n -> of_name (<[name := l]> asked) n = of_name asked n.
Proof. intros Hne. unfold of_name. by rewrite lookup_insert_ne. Qed.

(** A start keeps the invariant: [more] is what is asked for afterwards, which covers the
    started proxy and what is on record for it. *)
Lemma sound_start cfg asked more H s ports name ds : sound cfg asked s -> sv_running s !! name = None -> exclusive H -> good name -> granted_by cfg ds ->
  (forall n, n <> name -> ports !! n = sv_ports s !! n) -> (forall n, n <> name -> of_name more n = of_name asked n) ->
  forall s' p, startLocked ToLower cfg H (MkSupervisor (sv_running s) ports (sv_disk s)) name ds = (s', inl p) ->
  (exists req, req ∈ of_name more name /\ within ds req) ->
  (forall st, sv_disk s' !! state_path cfg name = Some st -> exists req, req ∈ of_name more name /\ within (es_Domains st) req) ->
  sound cfg more s' /\ gp_domains p = ds /\ sv_running s' !! name = Some p.
Proof.
  intros [Hd Hl Hp Ha Hk] Hnew Hex Hg Hgr Hports Hmore s' p Hst Hreq Hdisk.
  pose proof (start_spec cfg H (MkSupervisor (sv_running s) ports (sv_disk s)) name ds) as Hs. rewrite Hst in Hs.
  destruct Hs as (addr & Hlis & Ep & _ & ->). cbn [sv_running sv_ports sv_disk] in *. apply Hex in Hlis.
  assert (forall n q, sv_running s !! n = Some q -> n <> name) as Hne by (intros n q Hq ->; congruence).
  split; [|split; [by rewrite Ep|by rewrite lookup_insert_eq]]. split; cbn [sv_running sv_ports sv_disk]; [done| | | |].
  - intros n q [[<- <-]|[Hn Hq]]%lookup_insert_Some.
    + rewrite lookup_insert_eq. rewrite Ep at 1 2 3. cbn [gp_proxy gp_domains]. split_and!; try done. by rewrite Ep.
    + rewrite lookup_insert_ne, Hports, Hmore by done. by apply Hl.
  - intros n port [[<- _]|[Hn Hq]]%lookup_insert_Some; [by rewrite lookup_insert_eq|]. rewrite lookup_insert_ne by done. rewrite Hports in Hq by done. by eapply Hp.
  - assert (forall n q, sv_running s !! n = Some q -> gp_port q <> gp_port p) as Hno.
    { intros n q Hq E. apply Hlis. rewrite <- E. by apply (open_addr cfg (MkSupervisor (sv_running s) ports (sv_disk s)) n). }
    intros a b x y [[<- <-]|[_ H1]]%lookup_insert_Some [[<- <-]|[_ H2]]%lookup_insert_Some E; [done| | |by eapply Ha].
    + by apply Hno in H2.
    + by apply Hno in H1.
  - intros n st Hgn Hn. destruct (decide (n = name)) as [->|Hne']; [by apply Hdisk|]. rewrite Hmore by done.
    apply disk_written in Hn as [Hn|[Hn _]]; [by apply Hk|]. destruct Hne'. by apply (state_path_inj cfg cfg).
Qed.

Lemma start_ports_eta s : MkSupervisor (sv_running s) (sv_ports s) (sv_disk s) = s.
Proof. by destruct s. Qed.

(** What is noted for a plan of a granted request covers the proxy and its record. *)
Lemma note_covers cfg asked s' name req plan p : sv_running s' !! name = Some p -> pn_Domains plan <> [] -> within (gp_domains p) req ->
  (forall st, sv_disk s' !! state_path cfg name = Some st -> es_Domains st = gp_domains p \/ exists r, r ∈ of_name asked name /\ within (es_Domains st) r) ->
  let more := note cfg asked s' name req (inl plan) in
  (forall n, n <> name -> of_name more n = of_name asked n) /\ (exists r, r ∈ of_name more name /\ within (gp_domains p) r) /\
  (forall st, sv_disk s' !! state_path cfg name = Some st -> exists r, r ∈ of_name more name /\ within (es_Domains st) r).
Proof.
  intros Hp Hne Hw Hd. unfold note. rewrite Hp, (bool_decide_false _ Hne). cbn zeta.
  assert (forall l n, n <> name -> of_name (<[name := l]> asked) n = of_name asked n) as Ho by (intros; by apply of_name_insert_ne).
  destruct (sv_disk s' !! state_path cfg name) as [st|]; [destruct (decide (es_Domains st = gp_domains p)) as [E|E]|];
    (split; [by apply Ho|]); rewrite !of_name_insert; (split; [exists req; split; [by left|done]|]); intros st' [= <-].
  - exists req. split; [by left|]. by rewrite E.
  - destruct (Hd st eq_refl) as [|(r & Hr & Hwr)]; [done|]. exists r. split; [by right|done].
Qed.

Lemma sound_plan cfg asked H s name req s' r : sound cfg asked s -> exclusive H -> good name -> Plan ToLower cfg H s name req = (s', r) ->
  sound cfg (note cfg asked s' name req r) s'.
Proof.
  intros HS Hex Hg HP. assert (forall e, note cfg asked s' name req (inr e) = asked) as Hnote by done. unfold Plan in HP.
  destruct (SortedDomains ToLower req) as [|d ds] eqn:Ereq; [injection HP as <- <-; unfold note; by destruct (sv_running s !! name)|].
  rewrite <- Ereq in HP. destruct (ec_Policy cfg) as [pol|] eqn:Epol; [|injection HP as <- <-; by rewrite Hnote].
  destruct (ep_Enabled pol) eqn:Een; [|injection HP as <- <-; by rewrite Hnote]. cbn [negb] in HP.
  set (granted := fst (IntersectDomains ToLower (SortedDomains ToLower req) (ep_AllowedDomains pol))) in *.
  destruct (decide (granted = [])) as [E|Hne]; [rewrite (bool_decide_true _ E) in HP; injection HP as <- <-; by rewrite Hnote|].
  rewrite (bool_decide_false _ Hne) in HP. case_match; [injection HP as <- <-; by rewrite Hnote|].
  assert (granted_by cfg granted) as Hgr by (exists pol, (SortedDomains ToLower req); done).
  assert (within granted req) as Hw by (intros host Hh; apply allows_sorted; by eapply granted_within).
  assert (forall s0, sound cfg asked s0 -> sv_running s0 !! name = None ->
    match startLocked ToLower cfg H s0 name granted with
    | (s', inl p) => (s', inl (MkEgressPlan granted ("http://" ++ gp_addr p)))
    | (s', inr e) => (s', inr e)
    end = (s', r) -> sound cfg (note cfg asked s' name req r) s') as Hstart.
  { intros s0 HS0 Hn0 Hs0. destruct (startLocked ToLower cfg H s0 name granted) as [s1 [p|e]] eqn:Est.
    2: { injection Hs0 as <- <-. pose proof (start_spec cfg H s0 name granted) as Hs1. rewrite Est in Hs1. subst s1. by rewrite Hnote. }
    injection Hs0 as <- <-. pose proof (start_spec cfg H s0 name granted) as Hs1. rewrite Est in Hs1. destruct Hs1 as (addr & _ & Ep & _ & Es1).
    assert (gp_domains p = granted) as Edom by (by rewrite Ep). assert (sv_running s1 !! name = Some p) as Hr1 by (rewrite Es1; cbn; by rewrite lookup_insert_eq).
    destruct (note_covers cfg asked s1 name req (MkEgressPlan granted ("http://" ++ gp_addr p)) p) as (Hm1 & Hm2 & Hm3); [done|done|by rewrite Edom| |].
    { intros st Hst. rewrite Es1 in Hst. cbn in Hst. apply disk_written in Hst as [Hst|[_ Hst]]; [right; by apply (sd_disk _ _ _ HS0)|left; by rewrite Hst, Edom]. }
    rewrite <- (start_ports_eta s0) in Est. rewrite Edom in Hm2.
    by eapply (sound_start cfg asked _ H s0 (sv_ports s0) name granted). }
  destruct (sv_running s !! name) as [p|] eqn:Hrun; [|by apply (Hstart s)].
  destruct (equalDomains (gp_domains p) granted) eqn:Eeq.
  - injection HP as <- <-. apply equalDomains_eq in Eeq.
    destruct (note_covers cfg asked s name req (MkEgressPlan granted ("http://" ++ gp_addr p)) p) as (Hm1 & Hm2 & Hm3); [done|done|by rewrite Eeq| |].
    { intros st Hst. right. by apply (sd_disk _ _ _ HS). }
    destruct HS as [Hd Hl Hp Ha Hk]. split; [done| |done|done|].
    + intros n q Hq. destruct (Hl n q Hq) as (H1 & H2 & H3 & H4 & H5). split_and!; try done. destruct (decide (n = name)) as [->|Hn]; [|by rewrite Hm1].
      rewrite Hrun in Hq. by injection Hq as <-.
    + intros n st Hgn Hn. destruct (decide (n = name)) as [->|Hne']; [by apply Hm3|]. rewrite Hm1 by done. by apply Hk.
  - apply (Hstart (stopLocked cfg H s name true)); [by apply sound_stop| |done]. unfold stopLocked. rewrite Hrun. cbn. by rewrite lookup_delete_eq.
Qed.

Lemma sound_restore cfg asked H s name st : sound cfg asked s -> exclusive H -> good name -> sv_disk s !! state_path cfg name = Some st ->
  sound cfg asked (fst (restoreOne ToLower cfg H s name st)).
Proof.
  intros HS Hex Hg Hst. unfold restoreOne. destruct (ec_Policy cfg) as [pol|] eqn:Epol; [|done]. destruct (ep_Enabled pol) eqn:Een; [|done]. cbn [negb].
  set (granted := fst (IntersectDomains ToLower (es_Domains st) (ep_AllowedDomains pol))) in *.
  destruct (decide (granted = [])) as [E|Hne]; [by rewrite (bool_decide_true _ E)|]. rewrite (bool_decide_false _ Hne).
  destruct (sv_running s !! name) as [q|] eqn:Hrun; [done|].
  assert (granted_by cfg granted) as Hgr by (exists pol, (es_Domains st); done).
  destruct (startLocked ToLower cfg H _ name granted) as [s1 [p|e]] eqn:Es1; pose proof (start_spec cfg H (MkSupervisor (sv_running s) (<[name := es_Port st]> (sv_ports s)) (sv_disk s)) name granted) as Hs1; rewrite Es1 in Hs1.
  2: { subst s1. cbn [fst sv_running sv_ports sv_disk]. rewrite delete_insert_id; [by rewrite start_ports_eta|].
       destruct (sv_ports s !! name) eqn:Epn; [|done]. apply (sd_ports _ _ _ HS) in Epn as [? Epn]. congruence. }
  destruct (sd_disk _ _ _ HS name st Hg Hst) as (req & Hreq & Hw).
  assert (within granted req) as Hwg by (intros host Hh; by apply Hw, (granted_within _ (ep_AllowedDomains pol))).
  assert (sound cfg asked s1) as HS1.
  { destruct Hs1 as (addr & _ & Ep & _ & Eq). eapply (sound_start cfg asked asked H s (<[name := es_Port st]> (sv_ports s)) name granted); try done.
    - intros n Hn. by rewrite lookup_insert_ne.
    - by exists req.
    - intros st' Hst'. rewrite Eq in Hst'. cbn in Hst'. apply disk_written in Hst' as [Hst'|[_ ->]]; [by apply (sd_disk _ _ _ HS)|by exists req]. }
  case_bool_decide; cbn [fst]; [by apply sound_stop|done].
Qed.

Lemma sound_entries cfg asked H entries : exclusive H -> Forall good entries -> forall s, sound cfg asked s -> sound cfg asked (RestoreAll ToLower cfg H s entries).
Proof.
  intros Hex HF. unfold RestoreAll. induction HF as [|name entries Hg HF IH]; intros s HS; cbn [foldl]; [done|]. apply IH. unfold restore_entry.
  destruct (sv_disk s !! state_path cfg name) as [st|] eqn:Est; [|done]. case_match; [done|]. by apply sound_restore.
Qed.

Lemma sound_stop_all cfg asked H s : sound cfg asked s -> sound cfg asked (StopAll cfg H s).
Proof.
  unfold StopAll. generalize (elements (dom (sv_running s))) as l. intros l. revert s. induction l as [|n l IH]; intros s HS; cbn [foldl]; [done|].
  by apply IH, sound_stop.
Qed.

(** ** Histories *)

(** What a front and those before it did: plans, as at a create or a change of the allowlist,
    stops, and fronts started on the records under any policy, routes and range. *)
Inductive egress_reach : EgressConfig -> Asked -> EgressSupervisor -> Prop :=
| er_new cfg : state_dir cfg -> egress_reach cfg ∅ (NewEgressSupervisor ∅)
| er_plan cfg asked s H name req s' r : egress_reach cfg asked s -> exclusive H -> good name ->
    Plan ToLower cfg H s name req = (s', r) -> egress_reach cfg (note cfg asked s' name req r) s'
| er_stop cfg asked s H name : egress_reach cfg asked s -> egress_reach cfg asked (Stop cfg H s name)
| er_stop_all cfg asked s H : egress_reach cfg asked s -> egress_reach cfg asked (StopAll cfg H s)
| er_restart cfg asked s cfg' H entries : egress_reach cfg asked s -> exclusive H -> Forall good entries ->
    ec_StateDir cfg' = ec_StateDir cfg -> egress_reach cfg' asked (restart ToLower cfg' H s entries).

Lemma reach_sound cfg asked s : egress_reach cfg asked s -> sound cfg asked s.
Proof.
  induction 1 as [cfg Hd|cfg asked s H name req s' r _ IH Hex Hg HP|cfg asked s H name _ IH|cfg asked s H _ IH|cfg asked s cfg' H entries _ IH Hex HF Ed].
  - split; cbn; try done; intros *; by rewrite ?lookup_empty.
  - by eapply sound_plan.
  - by apply sound_stop.
  - by apply sound_stop_all.
  - apply sound_entries; [done|done|]. destruct IH as [Hd _ _ _ Hk]. split; cbn; try done; try (intros *; by rewrite ?lookup_empty).
    + unfold state_dir. by rewrite Ed.
    + unfold state_path, ProxyDirFor in *. by rewrite Ed.
Qed.

(** What a proxy with a grant dials. *)
Lemma proxy_dials cfg name ds t method authority a : granted_by cfg ds -> oc_dialled (handle ToLower (proxy_of cfg name ds) t method authority) = Some a ->
  (exists r, r ∈ ec_SystemRoutes cfg /\ complete r = true /\ a = sr_Target r) \/
  (let '(host, port) := splitHostPort authority in port = bs "443" /\ allows ds host /\ a = net_JoinHostPort host port).
Proof.
  intros Hg Hd. apply handle_dials in Hd. destruct (splitHostPort authority) as [host port]. destruct Hd as [(r & Hr & ->)|(Hp & Ha & ->)].
  - left. apply route_in in Hr as (Hin & Hc & _). by exists r.
  - right. split; [|done]. cbn in Hp. set_solver.
Qed.
End facts.

(** C29: Whatever is planned, stopped and restarted, under whatever policies, and whatever
    fails meanwhile, a workspace's live proxy dials only a target the node's own routes
    name, or port 443 of a host that the policy now in force allows and that a request made
    for that very workspace asked for; that policy enables egress. And no two workspaces'
    proxies listen on one port. *)
Theorem egress_bounded (ToLower : gostring -> gostring) (HL : Lowering ToLower) (cfg : EgressConfig) (asked : gmap gostring (list (list gostring)))
    (s : EgressSupervisor) (name : gostring) (p : egressProxy) :
  egress_reach ToLower cfg asked s -> sv_running s !! name = Some p ->
  (exists pol req, ec_Policy cfg = Some pol /\ ep_Enabled pol = true /\ req ∈ of_name asked name /\
     forall t method authority a, oc_dialled (handle ToLower (gp_proxy p) t method authority) = Some a ->
       (exists r, r ∈ ec_SystemRoutes cfg /\ complete r = true /\ a = sr_Target r) \/
       (let '(host, port) := splitHostPort authority in port = bs "443" /\ a = net_JoinHostPort host port /\
          Allowed ToLower (NewMatcher ToLower (ep_AllowedDomains pol)) host = true /\ Allowed ToLower (NewMatcher ToLower req) host = true)) /\
  (forall name' p', sv_running s !! name' = Some p' -> gp_port p' = gp_port p -> name' = name).
Proof.
  intros Hr Hp. apply reach_sound in Hr; [|done]. destruct (sd_live _ _ _ _ Hr name p Hp) as (Hg & Epx & Hgr & _ & req & Hreq & Hw). split.
  - destruct (granted_policy _ _ _ Hgr) as (pol & E1 & E2 & Hwp). exists pol, req. split_and!; try done. intros t method authority a. rewrite Epx. intros Hd.
    destruct (proxy_dials ToLower cfg name _ t method authority a Hgr Hd) as [Hd'|Hd']; [by left|]. right. clear Hd. rename Hd' into Hd. destruct (splitHostPort authority) as [host port]. destruct Hd as (E & Ha & ->).
    split_and!; auto.
  - intros name' p' Hp' E. by eapply (sd_apart _ _ _ _ Hr).
Qed.
