(* ===== verification/EgressRestart.v ===== *)
(** A front that restarts serves its workspaces as before; and three ways in which the
    supervisor does not do what its comments say. *)
From Stdlib Require Import DecimalString DecimalPos DecimalZ.
From S2P Require Import Prelude Regex Markdown Spec Shell GateScript Paths Domains DomainFacts Policy IPAddr EgressNet AddressFacts Egress EgressFacts.
Local Open Scope Z_scope.

(** ** Addresses of listeners *)

Lemma bs_inj a b : bs a = bs b -> a = b.
Proof. intros E. apply (f_equal String.string_of_list_byte) in E. unfold bs in E. by rewrite !String.string_of_list_byte_of_string in E. Qed.

Lemma Itoa_inj a b : Itoa a = Itoa b -> a = b.
Proof.
  unfold Itoa. intros E%bs_inj. assert (forall z, NilZero.int_of_string (NilZero.string_of_int (Z.to_int z)) = Some (Z.to_int z)) as Hr.
  { intros z. apply NilZero.isi; destruct z as [|p|p]; cbn; try done; intros [= Hn]; pose proof (Unsigned.of_to p) as Hp; by rewrite Hn in Hp. }
  apply (f_equal NilZero.int_of_string) in E. rewrite !Hr in E. injection E as E. apply (f_equal Z.of_int) in E. by rewrite !DecimalZ.of_to in E.
Qed.

Lemma listen_addr_inj cfg a b : listen_addr cfg a = listen_addr cfg b -> a = b.
Proof. unfold listen_addr, net_JoinHostPort. case_match; intros E; [do 3 apply app_inv_head in E|do 2 apply app_inv_head in E]; by apply Itoa_inj. Qed.

(** ** A restart *)

(** What a proxy serves, and where. *)
Definition core (p : egressProxy) : Proxy * Z * list gostring := (gp_proxy p, gp_port p, gp_domains p).

(** A host that has what a restart needs: folders and trails, records, and the ports that no
    proxy holds. *)
Record ready (H : EgressHost) : Prop := {
  rd_Mkdir : forall name, eh_Mkdir H name = true;
  rd_Open : forall name, eh_Open H name = true;
  rd_Write : forall name, eh_Write H name = WOk;
  rd_Listen : forall opened a, a ∉ opened -> is_Some (eh_Listen H opened a) }.

(** The records are those of the live proxies, each in its folder. *)
Record in_step (cfg : EgressConfig) (s : EgressSupervisor) (entries : list gostring) : Prop := {
  is_live : forall name p, sv_running s !! name = Some p -> name ∈ entries /\ gp_port p <> 0 /\
    sv_disk s !! state_path cfg name = Some (MkEgressState (gp_domains p) (gp_port p));
  is_only : forall name, name ∈ entries -> is_Some (sv_disk s !! state_path cfg name) -> is_Some (sv_running s !! name) }.

Section restart.
Context (ToLower : gostring -> gostring) `{HL : Lowering ToLower}.
Context (cfg : EgressConfig) (H : EgressHost) (asked : gmap gostring (list (list gostring))) (s : EgressSupervisor).
Context (HS : sound ToLower cfg asked s) (HR : ready H).

(** The folders of [l] restored. *)
Record restored (l : list gostring) (s' : EgressSupervisor) : Prop := {
  rt_disk : sv_disk s' = sv_disk s;
  rt_in : forall n, n ∈ l -> core <$> sv_running s' !! n = core <$> sv_running s !! n /\ sv_ports s' !! n = gp_port <$> sv_running s !! n;
  rt_out : forall n, n ∉ l -> sv_running s' !! n = None /\ sv_ports s' !! n = None }.

Lemma restored_core l s' n q : restored l s' -> sv_running s' !! n = Some q -> exists p, sv_running s !! n = Some p /\ core q = core p.
Proof.
  intros [_ Hi Ho] Hq. destruct (decide (n ∈ l)) as [Hn|Hn]; [|destruct (Ho n Hn) as [E _]; congruence]. destruct (Hi n Hn) as [E _]. rewrite Hq in E.
  destruct (sv_running s !! n) as [p|]; [|done]. exists p. split; [done|]. cbn in E. congruence.
Qed.

(** The port of a proxy that is not restored yet is free. *)
Lemma port_free l s' name p : restored l s' -> name ∉ l -> sv_running s !! name = Some p ->
  forall ports, listen_addr cfg (gp_port p) ∉ open_addrs cfg (MkSupervisor (sv_running s') ports (sv_disk s')).
Proof.
  intros Hres Hn Hp ports Hin. apply list_elem_of_fmap in Hin as (q & E & Hq). apply elem_of_map_values in Hq as [n Hq]. cbn in Hq. apply listen_addr_inj in E.
  destruct (restored_core _ _ _ _ Hres Hq) as (p' & Hp' & [= _ Eport _]). assert (n = name) as -> by (eapply (sd_apart _ _ _ _ HS); [done|done|congruence]).
  destruct (rt_out _ _ Hres name Hn) as [E' _]. congruence.
Qed.

(** The proxy of a record is started on its port. *)
Lemma start_recorded s' name p : sv_running s !! name = Some p -> sv_ports s' !! name = Some (gp_port p) ->
  listen_addr cfg (gp_port p) ∉ open_addrs cfg s' ->
  exists q, core q = core p /\ startLocked ToLower cfg H s' name (gp_domains p) =
    (MkSupervisor (<[name := q]> (sv_running s')) (<[name := gp_port p]> (sv_ports s')) (<[state_path cfg name := MkEgressState (gp_domains p) (gp_port p)]> (sv_disk s')), inl q).
Proof.
  intros Hp Hport Hfree. destruct (sd_live _ _ _ _ HS name p Hp) as (_ & Epx & _). unfold startLocked. rewrite Hport, (rd_Mkdir _ HR), (rd_Open _ HR). cbn [negb].
  destruct (rd_Listen _ HR _ _ Hfree) as [addr ->]. eexists. split; [|unfold writeStateLocked; rewrite (rd_Write _ HR); reflexivity].
  unfold core. cbn. by rewrite Epx.
Qed.

Lemma regranted ds : granted_by ToLower cfg ds -> exists pol, ec_Policy cfg = Some pol /\ ep_Enabled pol = true /\ ds <> [] /\
  fst (IntersectDomains ToLower ds (ep_AllowedDomains pol)) = ds.
Proof.
  intros (pol & req & E1 & E2 & -> & Hne). exists pol. split_and!; try done. by rewrite (granted_again ToLower req (ep_AllowedDomains pol) HL).
Qed.

Lemma restore_step entries l s' name : in_step cfg s entries -> restored l s' -> name ∈ entries -> restored (l ++ [name]) (restore_entry ToLower cfg H s' name).
Proof.
  intros [Hlive Honly] Hres Hin. pose proof Hres as [Ed Hi Ho]. unfold restore_entry. rewrite Ed.
  assert (restored l s' -> core <$> sv_running s' !! name = core <$> sv_running s !! name /\ sv_ports s' !! name = gp_port <$> sv_running s !! name -> restored (l ++ [name]) s') as Hsame.
  { intros _ Hnm. split; [done| |]; intros n; rewrite elem_of_app, list_elem_of_singleton; [intros [Hn| ->]; auto|]. intros Hn. apply Ho. tauto. }
  destruct (decide (name ∈ l)) as [Hl|Hl].
  { assert (restored (l ++ [name]) s') as Hkeep by (apply Hsame; auto). destruct (sv_disk s !! state_path cfg name) as [st|] eqn:Est; [|done]. case_match; [done|].
    destruct (Honly name Hin (mk_is_Some _ _ Est)) as [p Hp]. destruct (Hi name Hl) as [Er _]. rewrite Hp in Er. unfold restoreOne.
    destruct (sv_running s' !! name); [|done]. by repeat case_match. }
  destruct (Ho name Hl) as [Er Ep]. destruct (sv_disk s !! state_path cfg name) as [st|] eqn:Est.
  2: { apply Hsame; [done|]. destruct (sv_running s !! name) as [p|] eqn:Hp; [apply Hlive in Hp as (_ & _ & Hp); congruence|]. by rewrite Er, Ep. }
  destruct (Honly name Hin (mk_is_Some _ _ Est)) as [p Hp]. destruct (Hlive name p Hp) as (_ & Hport & Est'). rewrite Est in Est'. injection Est' as ->.
  cbn [es_Port es_Domains]. destruct (sd_live _ _ _ _ HS name p Hp) as (_ & _ & Hgr & _). destruct (regranted _ Hgr) as (pol & Epol & Een & Hne & Eg).
  rewrite (bool_decide_false _ Hport), (bool_decide_false _ Hne). cbn [orb]. unfold restoreOne. cbn [es_Port es_Domains]. rewrite Epol, Een, Eg, (bool_decide_false _ Hne), Er. cbn [negb].
  destruct (start_recorded (MkSupervisor (sv_running s') (<[name := gp_port p]> (sv_ports s')) (sv_disk s')) name p Hp) as (q & Hq & ->).
  { cbn. by rewrite lookup_insert_eq. }
  { by eapply port_free. }
  assert (gp_port q = gp_port p) as Eq by (by injection Hq). rewrite (bool_decide_false (gp_port q <> gp_port p)) by tauto. cbn [fst sv_running sv_ports sv_disk].
  split; cbn [sv_running sv_ports sv_disk].
  - rewrite Ed. by apply insert_id.
  - intros n Hn. destruct (decide (n = name)) as [->|Hne'].
    + rewrite !lookup_insert_eq, Hp. cbn. by rewrite Hq.
    + rewrite !lookup_insert_ne by done. apply Hi. set_solver.
  - intros n Hn. rewrite !lookup_insert_ne by set_solver. apply Ho. set_solver.
Qed.

Lemma restored_all entries : in_step cfg s entries -> restored entries (restart ToLower cfg H s entries).
Proof.
  intros Hstep. unfold restart, RestoreAll. assert (forall l, l ⊆ entries -> restored l (foldl (restore_entry ToLower cfg H) (NewEgressSupervisor (sv_disk s)) l)) as HA; [|by apply HA].
  induction l as [|name l IH] using rev_ind; intros Hl.
  - split; [done|set_solver|]. intros n _. by cbn.
  - rewrite foldl_app. cbn [foldl]. eapply restore_step; [done|apply IH; set_solver|set_solver].
Qed.
End restart.

(** C30: A front restarted under the same configuration and the same policy, on a host
    where every folder is made, every log opened, every record written and every port that
    no proxy holds listened on, serves every workspace as the one before it: the same
    workspaces, each on its own port, with its own allowlist and routes, and the records
    stay; provided the records were those of the live proxies. (Under a tightened policy a
    restored allowlist is narrowed or removed, and where a port or a folder fails its
    workspace is not restored.) *)
Theorem restart_restores (ToLower : gostring -> gostring) (HL : Lowering ToLower) (cfg : EgressConfig) (H : EgressHost)
    (asked : gmap gostring (list (list gostring))) (s : EgressSupervisor) (entries : list gostring) :
  egress_reach ToLower cfg asked s -> ready H -> in_step cfg s entries ->
  let s' := restart ToLower cfg H s entries in
  core <$> sv_running s' = core <$> sv_running s /\ sv_ports s' = gp_port <$> sv_running s /\ sv_disk s' = sv_disk s.
Proof.
  intros Hr HR Hstep s'. apply reach_sound in Hr; [|done]. pose proof (restored_all ToLower cfg H asked s Hr HR entries Hstep) as [Ed Hi Ho]. fold s' in Ed, Hi, Ho.
  assert (forall n, n ∉ entries -> sv_running s !! n = None) as Hout.
  { intros n Hn. destruct (sv_running s !! n) as [p|] eqn:Hp; [|done]. by apply (is_live _ _ _ Hstep) in Hp as [Hp _]. }
  split_and!; [..|done]; apply map_eq; intros n; rewrite !lookup_fmap; destruct (decide (n ∈ entries)) as [Hn|Hn].
  - apply Hi, Hn.
  - destruct (Ho n Hn) as [-> _]. by rewrite (Hout n Hn).
  - apply Hi, Hn.
  - destruct (Ho n Hn) as [_ ->]. by rewrite (Hout n Hn).
Qed.

(** ** Samples *)

Definition node (domains : list gostring) : EgressConfig := MkEgressConfig "" 0 0 "/var/lib/aped" (Some (MkEgressPolicy true domains 0)) [].
Definition wide : EgressConfig := node [bs "*.github.com"; bs "example.org"].
Definition narrow : EgressConfig := node [bs "example.org"].

Definition easy : EgressHost := MkEgressHost (fun _ => true) (fun _ => true) (fun _ => WOk) (fun _ => true)
  (fun opened a => if bool_decide (a ∈ opened) then None else Some a).

Lemma easy_exclusive : exclusive easy.
Proof. intros opened a b. cbn. by case_bool_decide. Qed.
Lemma easy_ready : ready easy.
Proof. split; try done. intros opened a Ha. cbn. by rewrite bool_decide_false. Qed.
Lemma wide_dir : state_dir wide.
Proof. exists [bs "var"; bs "lib"; bs "aped"]. split; [|reflexivity]. repeat constructor; (done || by apply (bool_decide_unpack _)). Qed.
Lemma good_web : good (bs "web").
Proof. split_and!; try done; by apply (bool_decide_unpack _). Qed.

Abbreviation plan s name req := (fst (Plan ascii_lower wide easy s name req)).
Definition web_up : EgressSupervisor := plan (NewEgressSupervisor ∅) "web" [bs "api.github.com"].
Definition web_asked : gmap gostring (list (list gostring)) :=
  note wide ∅ web_up "web" [bs "api.github.com"] (snd (Plan ascii_lower wide easy (NewEgressSupervisor ∅) "web" [bs "api.github.com"])).

Lemma web_reach : egress_reach ascii_lower wide web_asked web_up.
Proof.
  eapply er_plan; [apply er_new, wide_dir|apply easy_exclusive|apply good_web|]. apply surjective_pairing.
Qed.

Definition web_proxy : egressProxy := default (MkEgressProxy (NewProxy ascii_lower None [] [] []) [] 0 []) (sv_running web_up !! bs "web").

(** Whether a request to a proxy is tunnelled. *)
Definition opens (p : egressProxy) (authority : gostring) : bool :=
  oc_open (handle ascii_lower (gp_proxy p) (MkTunnel None true true 0 0) "CONNECT" authority).

Lemma egress_bounded_witness :
  opens web_proxy "api.github.com:443" = true /\ opens web_proxy "gist.github.com:443" = false /\
  exists pol req, ec_Policy wide = Some pol /\ ep_Enabled pol = true /\ req ∈ of_name web_asked (bs "web").
Proof.
  split; [vm_compute; reflexivity|]. split; [vm_compute; reflexivity|].
  destruct (egress_bounded ascii_lower _ wide web_asked web_up (bs "web") web_proxy web_reach ltac:(vm_compute; reflexivity)) as [(pol & req & E1 & E2 & E3 & _) _].
  exists pol, req. split_and!; assumption.
Defined.

Lemma web_in_step : in_step wide web_up [bs "web"].
Proof.
  split.
  - intros name p Hp. assert (name = bs "web") as ->.
    { apply elem_of_dom_2 in Hp. assert (dom (sv_running web_up) = {[bs "web"]}) as E by (apply (bool_decide_unpack _); vm_compute; exact I). set_solver. }
    split; [by left|]. assert (p = web_proxy) as -> by (unfold web_proxy; by rewrite Hp). split; [vm_compute; discriminate|vm_compute; reflexivity].
  - intros name ->%list_elem_of_singleton _. apply elem_of_dom, (bool_decide_unpack _). vm_compute. exact I.
Qed.

Lemma restart_restores_witness :
  gp_port <$> sv_running (restart ascii_lower wide easy web_up [bs "web"]) !! bs "web" = Some 3128 /\
  core <$> sv_running (restart ascii_lower wide easy web_up [bs "web"]) = core <$> sv_running web_up.
Proof.
  split; [vm_compute; reflexivity|].
  exact (proj1 (restart_restores ascii_lower _ wide easy web_asked web_up [bs "web"] web_reach easy_ready web_in_step)).
Defined.

(** ** What the comments promise and the supervisor does not do *)

(** A change of an allowlist to none is answered with no domains, which the command reports
    as no egress; the proxy stays, and opens the same tunnels. *)
Theorem revoke_keeps_egress :
  handleEgressSet ascii_lower wide easy web_up None "web" [] = (web_up, inl (MkEgressPlan [] [])) /\
  sv_running web_up !! bs "web" = Some web_proxy /\ opens web_proxy "api.github.com:443" = true.
Proof. split_and!; vm_compute; reflexivity. Qed.

Definition port_of (s : EgressSupervisor) (name : gostring) : option Z := gp_port <$> sv_running s !! name.

(** A change of an allowlist moves the proxy to the least free port, from the one its guest
    has in its environment; and the next workspace's proxy is then where that guest's
    requests go, with an allowlist that is not its own. *)
Theorem set_moves_port :
  let two := plan (plan (NewEgressSupervisor ∅) "db" [bs "example.org"]) "web" [bs "example.org"] in
  let set := fst (handleEgressSet ascii_lower wide easy (Stop wide easy two "db") None "web" [bs "raw.github.com"]) in
  let next := plan set "ci" [bs "api.github.com"] in
  port_of two "web" = Some 3129 /\ port_of set "web" = Some 3128 /\ port_of next "ci" = Some 3129.
Proof. vm_compute. split_and!; reflexivity. Qed.

(** A workspace whose proxy a tightened policy did not restore keeps its record when it is
    destroyed. A later front under the first policy starts its proxy again, on the port that
    another workspace has been given, which is left with none. *)
Theorem destroyed_revived :
  let first := plan (NewEgressSupervisor ∅) "a" [bs "api.github.com"] in
  let gone := Stop narrow easy (restart ascii_lower narrow easy first [bs "a"]) "a" in
  let b := fst (Plan ascii_lower narrow easy gone "b" [bs "example.org"]) in
  let later := restart ascii_lower wide easy b [bs "a"; bs "b"] in
  port_of gone "a" = None /\ port_of b "b" = Some 3128 /\ port_of later "a" = Some 3128 /\ port_of later "b" = None.
Proof. vm_compute. split_and!; reflexivity. Qed.
