(* ===== verification/Toolchain.v ===== *)
(** The durable tool caches and the set-up script of internal/sandbox/toolchain.go. *)
From S2P Require Import Prelude Regex Markdown Spec Shell.

(** ** Caches *)

Record ToolCache := MkToolCache { tc_Name : gostring; tc_SubDir : gostring; tc_Dest : gostring; tc_Env : list gostring }.

Definition CacheRoot : gostring := "/cache".
Definition cache_path (p : gostring) : gostring := filepath_Join CacheRoot p.

(** toolCaches, by the names' order. *)
Definition toolCaches : list ToolCache :=
  [MkToolCache "asdf" "asdf" (cache_path "asdf") ["ASDF_DATA_DIR=" ++ cache_path "asdf"];
   MkToolCache "cargo" "cargo" (cache_path "cargo") ["CARGO_HOME=" ++ cache_path "cargo"];
   MkToolCache "go" "go" (cache_path "go")
     ["GOPATH=" ++ cache_path "go"; "GOMODCACHE=" ++ cache_path "go/pkg/mod"; "GOCACHE=" ++ cache_path "go/build-cache"; "GOBIN=" ++ cache_path "go/bin"];
   MkToolCache "npm" "npm" (cache_path "npm") ["npm_config_cache=" ++ cache_path "npm"];
   MkToolCache "pub" "pub-cache" (cache_path "pub") ["PUB_CACHE=" ++ cache_path "pub"]].

Definition DefaultToolCaches : list gostring := [bs "asdf"; bs "go"].

Section caches.
Context (ToLower : gostring -> gostring).

(** LookupToolCache *)
Definition LookupToolCache (name : gostring) : option ToolCache :=
  let n := ToLower (TrimSpace name) in List.find (fun tc => tc_Name tc =s n) toolCaches.

(** ToolCacheNames *)
Definition ToolCacheNames : list gostring := sort_Strings (tc_Name <$> toolCaches).

Fixpoint normalize_loop (seen : gset gostring) (names : list gostring) : option (list gostring) :=
  match names with
  | [] => Some []
  | n :: names' =>
      match LookupToolCache n with
      | None => None
      | Some tc =>
          if bool_decide (tc_Name tc ∈ seen) then normalize_loop seen names'
          else cons (tc_Name tc) <$> normalize_loop ({[tc_Name tc]} ∪ seen) names'
      end
  end.

(** NormalizeToolCaches *)
Definition NormalizeToolCaches (names : list gostring) : option (list gostring) := sort_Strings <$> normalize_loop ∅ names.
End caches.

(** ** The set-up script *)

Record DescriptorToolchain := MkToolchain { dt_ToolVersions : gostring; dt_Bingo : bool; dt_Tools : list gostring; dt_Caches : list gostring }.

(** shellQuote, shellQuoteAll *)
Definition shellQuote (s : gostring) : gostring := "'" ++ ReplaceAll s "'" "'\''" ++ "'".
Definition shellQuoteAll (values : list gostring) : gostring := Join (shellQuote <$> values) " ".

Definition line (s : gostring) : gostring := s ++ [nl].

(** ToolchainSetupScript; [None] when there is no repo to set up in. *)
Definition ToolchainSetupScript (tc : option DescriptorToolchain) (repoDir : gostring) : option gostring :=
  match tc with
  | None => Some []
  | Some tc =>
      if TrimSpace repoDir =s "" then None
      else
        let toolVersions := match dt_Tools tc with [] => TrimSpace (dt_ToolVersions tc) | _ => bs ".tool-versions.ape" end in
        Some (line "set -e" ++ line ("cd " ++ shellQuote repoDir) ++
          match dt_Tools tc with [] => [] | ts => line ("printf '%s\n' " ++ shellQuoteAll ts ++ " > .tool-versions.ape") end ++
          (if toolVersions <>s "" then
             line "if command -v asdf >/dev/null 2>&1; then" ++ line ("  echo '==> asdf install (" ++ toolVersions ++ ")'") ++
             line ("  ASDF_DEFAULT_TOOL_VERSIONS_FILENAME=" ++ shellQuote toolVersions ++ " asdf install") ++
             line "else" ++ line "  echo '!! asdf is not in this image — skipping runtime install' >&2" ++ line "fi"
           else []) ++
          (if dt_Bingo tc then
             line "if command -v bingo >/dev/null 2>&1; then" ++ line "  echo '==> bingo get (pinned Go tools)'" ++ line "  bingo get" ++
             line "else" ++ line "  echo '!! bingo is not in this image — skipping Go tools' >&2" ++ line "fi"
           else []))
  end.

(** ** A quoted word is one word *)

(** The runes up to each quote. *)
Fixpoint at_quotes (rs : list Z) : list (list Z) :=
  match rs with
  | [] => [[]]
  | r :: rs' => if one "'" r then [] :: at_quotes rs' else match at_quotes rs' with s :: ss => (r :: s) :: ss | [] => [[r]] end
  end.

(** The pieces shellQuote writes. *)
Fixpoint quoted (segs : list (list Z)) : list piece :=
  match segs with
  | [] => []
  | [s] => [Quoted s]
  | s :: ss => Quoted s :: Escaped (rune "'") :: quoted ss
  end.
Definition quote_word (rs : list Z) : list piece := quoted (at_quotes rs).

Lemma at_quotes_cons rs : exists s ss, at_quotes rs = s :: ss.
Proof. destruct rs as [|r rs]; cbn; [eauto|]. destruct (one "'" r); [eauto|]. destruct (at_quotes rs); eauto. Qed.

Lemma quote_word_ok rs : Forall (fun r => valid_rune r = true) rs -> quote_word rs <> [] /\ Forall piece_ok (quote_word rs).
Proof.
  intros HF. assert (Forall (Forall (fun r => valid_rune r = true /\ one "'" r = false)) (at_quotes rs)) as Hs.
  { induction HF as [|r rs Hr HF IH]; cbn; [by repeat constructor|]. destruct (one "'" r) eqn:E; [by constructor|].
    destruct (at_quotes_cons rs) as (s & ss & Es). rewrite Es in *. apply Forall_cons in IH as [IH1 IH2]. constructor; [|done]. by constructor. }
  unfold quote_word. destruct (at_quotes_cons rs) as (s & ss & Es). rewrite Es in *. clear Es HF. split; [by destruct ss|].
  revert s Hs. induction ss as [|s' ss IH]; intros s [Hs1 Hs2]%Forall_cons; cbn [quoted]; repeat (constructor; try done). by apply IH.
Qed.

Lemma quote_word_mean rs : quote_word rs ≫= mean_piece = rs.
Proof.
  unfold quote_word. induction rs as [|r rs IH]; [done|]. cbn [at_quotes]. destruct (at_quotes_cons rs) as (s & ss & Es). rewrite Es in *.
  destruct (one "'" r) eqn:E.
  - change (quoted ([] :: s :: ss)) with (Quoted [] :: Escaped (rune "'") :: quoted (s :: ss)).
    change (rune "'" :: (quoted (s :: ss) ≫= mean_piece) = r :: rs). rewrite IH. unfold one in E. by apply Z.eqb_eq in E as ->.
  - assert (quoted ((r :: s) :: ss) ≫= mean_piece = r :: (quoted (s :: ss) ≫= mean_piece)) as -> by (by destruct ss). by rewrite IH.
Qed.

Lemma encode_concat a b : encode (a ++ b) = encode a ++ encode b.
Proof. unfold encode. by rewrite bind_app. Qed.

(** Runes that are no quote are encoded without its byte. *)
Lemma EncodeRune_quote r : valid_rune r = true -> one "'" r = false -> "'"%byte ∉ EncodeRune r.
Proof.
  intros Hv Hq Hin. unfold EncodeRune in Hin. rewrite Hv in Hin. unfold one in Hq. apply Z.eqb_neq in Hq. change (bz "'") with 39%Z in Hq.
  assert (forall z, (0 <= z < 256)%Z -> "'"%byte = byte_of z -> z = 39%Z) as Hb by (intros z Hz E; apply (f_equal bz) in E; rewrite bz_byte_of in E by done; by rewrite <- E).
  unfold valid_rune, between in Hv. assert (0 <= r < 1114112)%Z as Hr by lia.
  repeat (case_match; rewrite ?Z.ltb_lt, ?Z.ltb_ge in *); repeat (apply elem_of_cons in Hin as [Hin|Hin]; [apply Hb in Hin; Z.to_euclidean_division_equations; lia|]); by apply elem_of_nil in Hin.
Qed.

(** What shellQuote writes between its quotes. *)
Fixpoint body (rs : list Z) : list Z :=
  match rs with
  | [] => []
  | r :: rs' => if one "'" r then (rune <$> bs "'\''") ++ body rs' else r :: body rs'
  end.

Lemma show_quote_word rs : show_word (quote_word rs) = rune "'" :: body rs ++ [rune "'"].
Proof.
  unfold quote_word, show_word. induction rs as [|r rs IH]; [done|]. cbn [at_quotes body]. destruct (at_quotes_cons rs) as (s & ss & Es). rewrite Es in *.
  destruct (one "'" r).
  - change (quoted ([] :: s :: ss)) with (Quoted [] :: Escaped (rune "'") :: quoted (s :: ss)).
    change ([rune "'"; rune "'"; rune "\"; rune "'"] ++ (quoted (s :: ss) ≫= show_piece) = rune "'" :: ((rune <$> bs "'\''") ++ body rs) ++ [rune "'"]). by rewrite IH.
  - assert (exists t, (quoted (s :: ss) ≫= show_piece) = rune "'" :: t /\ (quoted ((r :: s) :: ss) ≫= show_piece) = rune "'" :: r :: t) as (t & E1 & ->)
      by (destruct ss; eexists; split; reflexivity).
    rewrite E1 in IH. by injection IH as ->.
Qed.

Lemma replace_pass a b new : "'"%byte ∉ a -> ReplaceAll (a ++ b) "'" new = a ++ ReplaceAll b "'" new.
Proof.
  unfold ReplaceAll. change (bs "'") with ["'"%byte]. induction a as [|c a IH]; intros Hn; [done|]. apply not_elem_of_cons in Hn as [Hc Hn].
  cbn [app replace_skip HasPrefix]. rewrite (proj2 (byte_eqb_neq "'" c) Hc). cbn [andb]. f_equal. by apply IH.
Qed.

Lemma encode_body rs : Forall (fun r => valid_rune r = true) rs -> encode (body rs) = ReplaceAll (encode rs) "'" "'\''".
Proof.
  intros HF. induction HF as [|r rs Hr HF IH]; [done|]. cbn [body]. change (encode (r :: rs)) with (EncodeRune r ++ encode rs). destruct (one "'" r) eqn:E.
  - rewrite encode_concat, IH. unfold one in E. apply Z.eqb_eq in E as ->. reflexivity.
  - rewrite replace_pass by by apply EncodeRune_quote. change (encode (r :: body rs)) with (EncodeRune r ++ encode (body rs)). by rewrite IH.
Qed.

Lemma shellQuote_shown rs : Forall (fun r => valid_rune r = true) rs -> shellQuote (encode rs) = encode (show_word (quote_word rs)).
Proof. intros HF. unfold shellQuote. rewrite show_quote_word, <- encode_body by done. change (encode (rune "'" :: ?x)) with (bs "'" ++ encode x). by rewrite encode_concat. Qed.

Lemma show_cmd_text ws : encode (show_cmd ws) = Join ((fun w => encode (show_word w)) <$> ws) " ".
Proof.
  induction ws as [|w ws IH]; [done|]. destruct ws as [|w' ws]; [done|]. cbn [show_cmd fmap list_fmap Join] in *. rewrite encode_concat, <- IH. done.
Qed.

(** The words the set-up script quotes are read back as they are: a command written as a
    plain word and values in shellQuote's quotes, whatever bytes of valid UTF-8 the values
    hold, quotes, newlines and operators included, is one simple command of that word and
    those values. *)
Theorem shellQuote_word (cmd : gostring) (values : list (list Z)) :
  piece_ok (Plain (bz <$> cmd)) -> Forall (fun b => (bz b < 128)%Z) cmd -> Forall (Forall (fun r => valid_rune r = true)) values ->
  values <> [] -> shellCommands (cmd ++ " " ++ shellQuoteAll (encode <$> values)) = [cmd :: (encode <$> values)].
Proof.
  intros Hc Ha HF Hne. set (c := [Plain (bz <$> cmd)] :: (quote_word <$> values)).
  assert (cmd_ok c) as Hok.
  { split; [done|]. constructor; [split; [done|]; by constructor|]. apply Forall_fmap. eapply Forall_impl; [exact HF|]. intros rs Hrs. by apply quote_word_ok. }
  assert (forall b, (bz b < 128)%Z -> EncodeRune (bz b) = [b]) as Hb by (intros []; vm_compute; by intros).
  assert (encode (bz <$> cmd) = cmd) as Ecmd.
  { clear Hc c Hok. induction Ha as [|b cmd Hb1 Ha IH]; [done|]. change (encode (bz <$> b :: cmd)) with (EncodeRune (bz b) ++ encode (bz <$> cmd)). by rewrite Hb, IH. }
  pose proof (shellCommands_lexes [] c ltac:(constructor) Hok) as Hl. unfold line_text, show_line in Hl. rewrite show_cmd_text in Hl.
  assert (forall vs, Forall (Forall (fun r => valid_rune r = true)) vs -> (fun w => encode (show_word w)) <$> (quote_word <$> vs) = shellQuote <$> (encode <$> vs)) as Hq.
  { intros vs Hvs. rewrite <- !list_fmap_compose. apply list_fmap_ext. intros i rs Hi. cbn. symmetry. apply shellQuote_shown. by eapply Forall_lookup_1 in Hvs. }
  unfold c in Hl. cbn [fmap list_fmap] in Hl. change (list_fmap _ _ ?f ?l) with (f <$> l) in Hl. rewrite Hq in Hl by done.
  assert (encode (show_word [Plain (bz <$> cmd)]) = cmd) as E1 by (unfold show_word; cbn; by rewrite app_nil_r). rewrite E1 in Hl.
  assert (Join (cmd :: (shellQuote <$> (encode <$> values))) " " = cmd ++ " " ++ shellQuoteAll (encode <$> values)) as E2 by (by destruct values).
  rewrite E2 in Hl. rewrite Hl. cbn [fmap list_fmap app]. unfold words_of. cbn [fmap list_fmap]. f_equal. f_equal.
  - unfold mean_word. cbn. by rewrite app_nil_r.
  - change (list_fmap _ _ ?f ?l) with (f <$> l). rewrite <- list_fmap_compose. apply list_fmap_ext. intros i rs _. cbn. unfold mean_word. by rewrite quote_word_mean.
Qed.

Lemma shellQuote_word_witness :
  shellCommands (bs "cd " ++ shellQuoteAll [bs "/work/it's; rm x"]) = [[bs "cd"; bs "/work/it's; rm x"]].
Proof.
  exact (shellQuote_word (bs "cd") [bz <$> bs "/work/it's; rm x"] ltac:(split; [done|]; repeat constructor)
    ltac:(repeat constructor; vm_compute; reflexivity) ltac:(repeat constructor) ltac:(discriminate)).
Defined.

(** The name of the versions file is also written inside another command's quotes, as it is:
    one that holds a quote ends them, and what follows it runs. *)
Theorem setup_injects :
  exists script, ToolchainSetupScript (Some (MkToolchain "v'; rm x; echo '" false [] [])) "/workspace/app" = Some script /\
    [bs "rm"; bs "x"] ∈ shellCommands script.
Proof. eexists. split; [vm_compute; reflexivity|]. apply (bool_decide_unpack _). vm_compute. exact I. Qed.
