(* ===== verification/Descriptor.v ===== *)
(** The project's sandbox descriptor, internal/sandbox/descriptor.go: what makes one valid,
    what it resolves to, and the mounts given on the command line. *)
From S2P Require Import Prelude Regex Markdown Spec Shell GateScript Paths Domains Policy Workspaces Toolchain Duration.

(** ** Data *)

Record DescriptorRepo := MkRepo { dr_Source : gostring; dr_Name : gostring; dr_Main : bool; dr_ReadOnly : bool }.
Record DescriptorMount := MkMount { dm_Source : gostring; dm_Dest : gostring; dm_ReadOnly : option bool }.
Record EgressRequest := MkEgressRequest { eq_AuthorizedDomains : list gostring; eq_DirectAllow : list gostring }.
Record Descriptor := MkDescriptor { ds_Version : Z; ds_Repos : list DescriptorRepo; ds_Mounts : list DescriptorMount;
  ds_Egress : option EgressRequest; ds_Toolchain : option DescriptorToolchain; ds_Lifecycle : option gostring }.

Record RepoMount := MkRepoMount { rm_Source : gostring; rm_Name : gostring; rm_Main : bool; rm_ReadOnly : bool }.
Record ResolvedDescriptor := MkResolved { rd_Repos : list RepoMount; rd_Mounts : list MountSpec; rd_Egress : option EgressRequest }.

Definition DescriptorVersion : Z := 1.

(** ** Validation *)

(** validateHostPort *)
Definition validateHostPort (hp : gostring) : bool :=
  match Index hp ":" with
  | None => false
  | Some i =>
      let host := take i hp in
      let port := drop (S i) hp in
      negb ((host =s "") || Contains host "*" || (port =s "")) && forallb (fun b => between 48 57 (bz b)) port
  end.

(** The repos in order: the explicit names seen, and how many are main; [None] is an error. *)
Fixpoint validate_repos (seen : gset gostring) (mains : nat) (repos : list DescriptorRepo) : option nat :=
  match repos with
  | [] => Some mains
  | r :: repos' =>
      if TrimSpace (dr_Source r) =s "" then None
      else
        let explicit := TrimSpace (dr_Name r) in
        let mains := if dr_Main r then S mains else mains in
        if explicit =s "" then validate_repos seen mains repos'
        else if negb (ValidateMountName explicit) || bool_decide (explicit ∈ seen) then None
        else validate_repos ({[explicit]} ∪ seen) mains repos'
  end.

Section validate.
Context (ToLower : gostring -> gostring).

(** Descriptor.Validate *)
Definition Descriptor_Validate (d : Descriptor) : bool :=
  (ds_Version d =? DescriptorVersion)%Z &&
  match validate_repos ∅ 0 (ds_Repos d) with
  | None => false
  | Some mains => negb (1 <? mains) && negb ((mains =? 0) && (1 <? length (ds_Repos d)))
  end &&
  forallb (fun m => (TrimSpace (dm_Source m) <>s "") && ((dm_Dest m =s "") || validateGuestDest (dm_Dest m))) (ds_Mounts d) &&
  match ds_Toolchain d with Some tc => bool_decide (is_Some (NormalizeToolCaches ToLower (dt_Caches tc))) | None => true end &&
  match ds_Lifecycle d with Some v => bool_decide (is_Some (ParseIdleStop ToLower v)) | None => true end &&
  match ds_Egress d with
  | Some e => forallb validateDomainPattern (eq_AuthorizedDomains e) && forallb validateHostPort (eq_DirectAllow e)
  | None => true
  end.
End validate.

(** MountName *)
Definition MountName (r : DescriptorRepo) : gostring :=
  let n := TrimSpace (dr_Name r) in if n <>s "" then n else filepath_Base (filepath_Clean (dr_Source r)).

(** IdleStop, EgressDomains, ToolchainCaches *)
Definition Descriptor_IdleStop (d : option Descriptor) : gostring := default [] (d ≫= ds_Lifecycle).
Definition EgressDomains (d : option Descriptor) : list gostring := default [] (eq_AuthorizedDomains <$> (d ≫= ds_Egress)).
Definition ToolchainCaches (d : option Descriptor) : list gostring :=
  match d ≫= ds_Toolchain with
  | None => []
  | Some tc => match dt_Caches tc with [] => DefaultToolCaches | cs => cs end
  end.

(** ** Resolution *)

(** What the client's machine answers: the home, and where symbolic links lead. *)
Record ClientHost := MkClientHost { ch_Home : option gostring; ch_EvalSymlinks : gostring -> option gostring }.

Section resolve.
Context (ToLower : gostring -> gostring) (H : ClientHost).

Definition strip (s pre : gostring) : gostring := if HasPrefix s pre then drop (length pre) s else s.

(** resolveSource *)
Definition resolveSource (baseDir src : gostring) : option gostring :=
  let s := TrimSpace src in
  if s =s "" then None
  else match (if HasPrefix s "~" then (fun home => filepath_Join home (strip (strip s "~") "/")) <$> ch_Home H else Some s) with
       | None => None
       | Some s =>
           match (if filepath_IsAbs s then Some s else if baseDir =s "" then None else Some (filepath_Join baseDir s)) with
           | None => None
           | Some s => filepath_Clean <$> ch_EvalSymlinks H s
           end
       end.

Fixpoint resolve_repos (baseDir : gostring) (seen : gset gostring) (repos : list DescriptorRepo) : option (list RepoMount) :=
  match repos with
  | [] => Some []
  | r :: repos' =>
      match resolveSource baseDir (dr_Source r) with
      | None => None
      | Some src =>
          let name := if TrimSpace (dr_Name r) =s "" then filepath_Base src else TrimSpace (dr_Name r) in
          if negb (ValidateMountName name) || bool_decide (name ∈ seen) then None
          else cons (MkRepoMount src name (dr_Main r) (dr_ReadOnly r)) <$> resolve_repos baseDir ({[name]} ∪ seen) repos'
      end
  end.

Definition resolve_mount (baseDir : gostring) (m : DescriptorMount) : option MountSpec :=
  (fun src => MkMountSpec src (defaultDest (dm_Dest m) src) (default true (dm_ReadOnly m))) <$> resolveSource baseDir (dm_Source m).

(** Descriptor.Resolve, with the directory it is resolved against. *)
Definition Descriptor_Resolve (d : Descriptor) (baseDir : gostring) : option ResolvedDescriptor :=
  match resolve_repos baseDir ∅ (ds_Repos d), mapM (resolve_mount baseDir) (ds_Mounts d) with
  | Some repos, Some mounts =>
      let repos := match repos with [r] => [MkRepoMount (rm_Source r) (rm_Name r) true (rm_ReadOnly r)] | _ => repos end in
      let egress := match ds_Egress d with
                    | Some e => match eq_AuthorizedDomains e, eq_DirectAllow e with
                                | [], [] => None
                                | ds, da => Some (MkEgressRequest (SortedDomains ToLower ds) da)
                                end
                    | None => None
                    end in
      Some (MkResolved repos mounts egress)
  | _, _ => None
  end.

(** ** Mounts of the command line *)

(** MergeUserMounts: the destinations seen in order, and the last mount of each. *)
Fixpoint merge_loop (byDest : gmap gostring MountSpec) (order : list gostring) (ms : list MountSpec) : option (gmap gostring MountSpec * list gostring) :=
  match ms with
  | [] => Some (byDest, order)
  | m :: ms' =>
      if negb (validateGuestDest (mt_Dest m)) then None
      else merge_loop (<[mt_Dest m := m]> byDest) (match byDest !! mt_Dest m with None => order ++ [mt_Dest m] | Some _ => order end) ms'
  end.
Definition MergeUserMounts (fileMounts cliMounts : list MountSpec) : option (list MountSpec) :=
  match merge_loop ∅ [] (fileMounts ++ cliMounts) with
  | None => None
  | Some (byDest, order) => Some (omap (fun d => byDest !! d) (sort_Strings order))
  end.

(** ParseMountFlag *)
Definition ParseMountFlag (baseDir value : gostring) : option MountSpec :=
  let raw := TrimSpace value in
  if raw =s "" then None
  else
    let parts := split_byte ":" raw in
    if 3 <? length parts then None
    else
      let '(ro, parts) :=
        if 1 <? length parts then
          if default [] (last parts) =s "ro" then (true, take (length parts - 1) parts)
          else if default [] (last parts) =s "rw" then (false, take (length parts - 1) parts) else (true, parts)
        else (true, parts) in
      match resolveSource baseDir (default [] (parts !! 0)) with
      | None => None
      | Some src =>
          let dest := defaultDest (default [] (parts !! 1)) src in
          if validateGuestDest dest then Some (MkMountSpec src dest ro) else None
      end.
End resolve.
