(* ===== verification/Resolver.v ===== *)
(** The front's resolver, internal/aped/resolver.go: a create request made into the spec the
    executor provisions. *)
From S2P Require Import Prelude Regex Markdown Spec Shell GateScript Paths Domains Policy Workspaces Toolchain Duration Descriptor Egress.

(** ** Data *)

(** A profile, of what the resolver reads. *)
Record Profile := MkProfile { pf_VMM : gostring; pf_Image : gostring; pf_Mount : gostring; pf_Credentials : gostring; pf_Domains : list gostring }.

(** A create request, of what the resolver reads. *)
Record CreateRequest := MkCreateRequest { cq_Name : gostring; cq_Image : gostring; cq_Runtime : gostring; cq_Mount : gostring; cq_MountSource : gostring;
  cq_Profile : gostring; cq_Egress : option EgressRequest; cq_Repos : list RepoMount; cq_Mounts : list MountSpec; cq_Caches : list gostring;
  cq_FrameworkRef : gostring; cq_GovernanceRef : gostring; cq_IdleStop : gostring }.

Record ApeBinary := MkApeBinary { ab_Dir : gostring; ab_Version : gostring }.

Record Resolver := MkResolver { rv_stateDir : gostring; rv_natsURL : gostring; rv_network : gostring; rv_frameworkRoot : gostring; rv_frameworkRef : gostring;
  rv_governanceRoot : gostring; rv_governanceRef : gostring; rv_cacheRoot : gostring; rv_apeBin : ApeBinary; rv_credentials : gostring }.

(** The host's answers: profiles by name where the node has a source of them, the composed
    home, a verified ape, folders, and whether the files can be written. *)
Record ResolverHost := MkResolverHost { rh_loadProfile : option (gostring -> option Profile); rh_compose : Profile -> gostring -> option Composition;
  rh_recheck : option (option ApeBinary); rh_IsDir : gostring -> bool; rh_MkdirAll : gostring -> bool; rh_creds : gostring -> bool; rh_profileEnv : bool }.

(** What plans egress: the supervisor, or another that keeps its promise. *)
Class EgressPlanner (S : Type) := planner_Plan : S -> gostring -> list gostring -> S * (EgressPlan + WErr).

Definition VMMCloudHypervisor : gostring := "clh".
Definition VMMQemu : gostring := "qemu".
Definition CredentialNone : gostring := "none".
Definition ContainerPrefix : gostring := "ape-ws-".
Definition guestCredsRel : gostring := ".config/ape/vm.creds".
Definition EnvURL : gostring := "APE_NATS_URL".
Definition EnvCreds : gostring := "APE_NATS_CREDS".
Definition DefaultImage : gostring := "ghcr.io/exoport/ape-sandbox:v1.1.1@sha256:b45a0674983d0d5de02dca4efa24193ba985b59f51e354de3421ac882677ec20".

(** vmmFromRuntime *)
Definition vmmFromRuntime (runtime : gostring) : gostring := if strip runtime "kata-" =s "qemu" then VMMQemu else VMMCloudHypervisor.

(** What resolveMounts fills in of a spec. *)
Record Bound := MkBound { bd_Mounts : list MountSpec; bd_Env : list gostring; bd_Cwd : gostring; bd_ProjectRoot : gostring; bd_ApeVersion : gostring }.
Definition add_mount (m : MountSpec) (b : Bound) : Bound := MkBound (bd_Mounts b ++ [m]) (bd_Env b) (bd_Cwd b) (bd_ProjectRoot b) (bd_ApeVersion b).
Definition add_env (e : list gostring) (b : Bound) : Bound := MkBound (bd_Mounts b) (bd_Env b ++ e) (bd_Cwd b) (bd_ProjectRoot b) (bd_ApeVersion b).

Section resolver.
Context (ToLower : gostring -> gostring) (r : Resolver) (H : ResolverHost).

(** profileFor *)
Definition profileFor (req : CreateRequest) : Profile + WErr :=
  match (match rh_loadProfile H with
         | Some load => if TrimSpace (cq_Profile req) <>s "" then match load (cq_Profile req) with Some p => inl p | None => inr Plain end
                        else inl (MkProfile [] [] [] [] [])
         | None => inl (MkProfile [] [] [] [] [])
         end) with
  | inr e => inr e
  | inl p =>
      let rt := TrimSpace (cq_Runtime req) in
      let m := TrimSpace (cq_Mount req) in
      let vmm := if rt <>s "" then vmmFromRuntime rt else pf_VMM p in
      let mount := if m <>s "" then m else pf_Mount p in
      inl (MkProfile (if vmm =s "" then VMMCloudHypervisor else vmm) (pf_Image p) (if mount =s "" then MountHostFS else mount)
        (if pf_Credentials p =s "" then if rv_credentials r =s "" then CredentialNone else rv_credentials r else pf_Credentials p) (pf_Domains p))
  end.

(** refMount; [inl None] when the node serves none. *)
Definition refMount (root defaultRef ref dest : gostring) : option MountSpec + WErr :=
  if TrimSpace root =s "" then inl None
  else
    let want := if TrimSpace ref =s "" then defaultRef else TrimSpace ref in
    if want =s "" then inl None
    else if negb (ValidateMountName want) then inr ErrValidation
    else
      let src := filepath_Join root want in
      if rh_IsDir H src then inl (Some (MkMountSpec src dest true)) else inr ErrValidation.

Definition frameworkMount (ref : gostring) : option MountSpec + WErr := refMount (rv_frameworkRoot r) (rv_frameworkRef r) ref FrameworkDest.
Definition governanceMount (ref : gostring) : option MountSpec + WErr := refMount (rv_governanceRoot r) (rv_governanceRef r) ref GovernanceDest.

(** The binary's mount. *)
Definition bin_mount (b : Bound) : Bound + WErr :=
  if ab_Dir (rv_apeBin r) =s "" then inl b
  else match (match rh_recheck H with None => Some (rv_apeBin r) | Some fresh => fresh end) with
       | None => inr Plain
       | Some bin => let b := add_mount (MkMountSpec (ab_Dir bin) ApeBinDest true) b in
                     inl (MkBound (bd_Mounts b) (bd_Env b) (bd_Cwd b) (bd_ProjectRoot b) (ab_Version bin))
       end.

(** The repos, [n] in all, in order. *)
Fixpoint repo_mounts (n : nat) (mainSeen : bool) (repos : list RepoMount) (b : Bound) : (bool * Bound) + WErr :=
  match repos with
  | [] => inl (mainSeen, b)
  | rp :: repos' =>
      if TrimSpace (rm_Source rp) =s "" then inr ErrValidation
      else
        let name := if TrimSpace (rm_Name rp) =s "" then filepath_Base (filepath_Clean (rm_Source rp)) else TrimSpace (rm_Name rp) in
        if negb (ValidateMountName name) then inr ErrValidation
        else
          let dest := RepoDest name in
          let b := add_mount (MkMountSpec (rm_Source rp) dest (rm_ReadOnly rp)) b in
          if rm_Main rp || (n =? 1) then
            if mainSeen then inr ErrValidation
            else repo_mounts n true repos' (MkBound (bd_Mounts b) (bd_Env b) dest (rm_Source rp) (bd_ApeVersion b))
          else repo_mounts n mainSeen repos' b
  end.

(** resolveCaches *)
Fixpoint cache_mounts (names : list gostring) (b : Bound) : Bound + WErr :=
  match names with
  | [] => inl b
  | name :: names' =>
      match LookupToolCache ToLower name with
      | None => inr ErrValidation
      | Some tc =>
          let src := filepath_Join (rv_cacheRoot r) (tc_SubDir tc) in
          if rh_MkdirAll H src then cache_mounts names' (add_env (tc_Env tc) (add_mount (MkMountSpec src (tc_Dest tc) false) b)) else inr Plain
      end
  end.
Definition resolveCaches (requested : list gostring) (b : Bound) : Bound + WErr :=
  match requested with
  | [] => inl b
  | _ => if TrimSpace (rv_cacheRoot r) =s "" then inl b
         else match NormalizeToolCaches ToLower requested with None => inr ErrValidation | Some names => cache_mounts names b end
  end.

(** The user's mounts. *)
Fixpoint user_mounts (ms : list MountSpec) (b : Bound) : Bound + WErr :=
  match ms with
  | [] => inl b
  | m :: ms' =>
      if negb (validateGuestDest (mt_Dest m)) then inr ErrPolicyDenied
      else if negb (filepath_IsAbs (mt_Source m)) then inr ErrValidation
      else user_mounts ms' (add_mount m b)
  end.

Definition sum_bind {A B E} (x : A + E) (f : A -> B + E) : B + E := match x with inl a => f a | inr e => inr e end.
Definition add_opt (m : option MountSpec) (b : Bound) : Bound := match m with Some m => add_mount m b | None => b end.

(** resolveMounts, on a spec of mode [mount] whose project root is [b]'s. *)
Definition resolveMounts (mount : gostring) (req : CreateRequest) (b : Bound) : Bound + WErr :=
  sum_bind (frameworkMount (cq_FrameworkRef req)) (fun fw =>
  let b := add_opt fw b in
  sum_bind (governanceMount (cq_GovernanceRef req)) (fun gov =>
  let b := match gov with Some m => add_env ["APEX_GOVERNANCE_REPO=" ++ GovernanceDest] (add_mount m b) | None => b end in
  sum_bind (bin_mount b) (fun b =>
  let repos := match cq_Repos req with
               | [] => if (mount =s MountHostFS) && (TrimSpace (bd_ProjectRoot b) <>s "")
                       then [MkRepoMount (bd_ProjectRoot b) (filepath_Base (filepath_Clean (bd_ProjectRoot b))) true false] else []
               | l => l
               end in
  sum_bind (repo_mounts (length repos) false repos b) (fun '(mainSeen, b) =>
  if (1 <? length repos) && negb mainSeen then inr ErrValidation
  else sum_bind (resolveCaches (cq_Caches req) b) (fun b => user_mounts (cq_Mounts req) b))))).

(** injectVMCreds *)
Definition injectVMCreds (name : gostring) (comp : Composition) : Composition + WErr :=
  if rv_natsURL r =s "" then inl comp
  else if negb (rh_creds H name) then inr Plain
  else
    let credsPath := filepath_Join (filepath_Join (rv_stateDir r) "creds") (name ++ ".creds") in
    let guestPath := filepath_Join (cp_GuestHome comp) guestCredsRel in
    inl (MkComposition (cp_StagingDir comp) (cp_GuestHome comp) (cp_Binds comp ++ [MkBindMount credsPath guestPath true])
      (cp_Env comp ++ [EnvURL ++ "=" ++ rv_natsURL r; EnvCreds ++ "=" ++ guestPath])).

Section with_planner.
Context {S : Type} `{EgressPlanner S}.

(** resolveEgress; [planner] is whether the node provides egress. *)
Definition resolveEgress (planner : bool) (s : S) (name : gostring) (prof : Profile) (req : CreateRequest) : S * (EgressPlan + WErr) :=
  let requested := SortedDomains ToLower (pf_Domains prof ++ default [] (eq_AuthorizedDomains <$> cq_Egress req)) in
  match requested with
  | [] => (s, inl (MkEgressPlan [] []))
  | _ => if planner then planner_Plan s name requested else (s, inr ErrPolicyDenied)
  end.

(** ResolveImage *)
Definition ResolveImage (p : Profile) : gostring := if TrimSpace (pf_Image p) <>s "" then pf_Image p else DefaultImage.

(** The mode's project root and volume. *)
Definition mode_of (prof : Profile) (name : gostring) (req : CreateRequest) : (gostring * gostring) + WErr :=
  if pf_Mount prof =s MountHostFS then
    if TrimSpace (cq_MountSource req) =s "" then inr ErrValidation else inl (cq_MountSource req, [])
  else if pf_Mount prof =s MountVolume then inl ([], ContainerPrefix ++ name ++ "-workspace")
  else if pf_Mount prof =s MountEphemeral then inl ([], [])
  else inr ErrValidation.

(** Resolve *)
Definition Resolve (planner : bool) (s : S) (req : CreateRequest) : S * (WorkspaceSpec + WErr) :=
  let name := TrimSpace (cq_Name req) in
  if name =s "" then (s, inr ErrValidation)
  else match profileFor req with
  | inr e => (s, inr e)
  | inl prof =>
      let staging := filepath_Join (filepath_Join (rv_stateDir r) "homes") name in
      if negb (rh_MkdirAll H staging) then (s, inr Plain)
      else match rh_compose H prof staging with
      | None => (s, inr Plain)
      | Some comp =>
          let image := if cq_Image req =s "" then ResolveImage prof else cq_Image req in
          let idle := TrimSpace (cq_IdleStop req) in
          if bool_decide (ParseIdleStop ToLower idle = None) then (s, inr ErrValidation)
          else match mode_of prof name req with
          | inr e => (s, inr e)
          | inl (root, volume) =>
              match resolveMounts (pf_Mount prof) req (MkBound [] [] [] root []) with
              | inr e => (s, inr e)
              | inl b =>
                  match resolveEgress planner s name prof req with
                  | (s, inr e) => (s, inr e)
                  | (s, inl plan) =>
                      match injectVMCreds name comp with
                      | inr e => (s, inr e)
                      | inl comp =>
                          if negb (rh_profileEnv H) then (s, inr Plain)
                          else (s, inl (MkWorkspaceSpec name image (pf_VMM prof) (pf_Mount prof) (bd_ProjectRoot b) [] volume (Some comp)
                                 (pn_ProxyURL plan) 0 (rv_network r) (bd_Env b) [] (bd_Mounts b) (bd_Cwd b) (bd_ApeVersion b) idle (pn_Domains plan) []))
                      end
                  end
              end
          end
      end
  end.
End with_planner.
End resolver.
