(* ===== verification/ResolverFacts.v ===== *)
(** What a resolved spec binds and where each bind comes from; that its egress passes the
    policy; and what the merge of mounts keeps. *)
From S2P Require Import Prelude Regex Markdown Spec Shell GateScript Paths Domains DomainFacts Policy PolicyFacts Workspaces Toolchain Duration Descriptor IPAddr EgressNet Egress EgressFacts EgressRestart Resolver.

(** ** What is planned *)

(** The supervisor as a planner. *)
Definition supervisor (ToLower : gostring -> gostring) (cfg : EgressConfig) (H : EgressHost) : EgressPlanner EgressSupervisor := Plan ToLower cfg H.

Lemma granted_passes ToLower p req : Lowering ToLower -> ep_Enabled (po_Egress p) = true ->
  let granted := fst (IntersectDomains ToLower req (ep_AllowedDomains (po_Egress p))) in
  (0 <? ep_MaxDomains (po_Egress p))%Z && (ep_MaxDomains (po_Egress p) <? Z.of_nat (length granted))%Z = false -> checkEgress ToLower p granted = None.
Proof.
  intros HL He granted Hm. unfold checkEgress. pose proof (granted_again ToLower req (ep_AllowedDomains (po_Egress p)) HL) as Hg. fold granted in Hg.
  destruct granted as [|d ds] eqn:Eg; [done|]. rewrite He. cbn [negb]. unfold over. rewrite Hm. by rewrite Hg.
Qed.

(** What the supervisor plans is asked for, and passes the policy's own check. *)
Lemma Plan_granted ToLower cfg H p s name req s' plan : Lowering ToLower -> ec_Policy cfg = Some (po_Egress p) ->
  Plan ToLower cfg H s name req = (s', inl plan) ->
  checkEgress ToLower p (pn_Domains plan) = None /\ (forall d, d ∈ pn_Domains plan -> d ∈ SortedDomains ToLower (SortedDomains ToLower req)).
Proof.
  intros HL Epol. unfold Plan. destruct (SortedDomains ToLower req) as [|d ds] eqn:Ereq.
  { intros [= <- <-]. split; [done|]. by intros d ?%elem_of_nil. }
  rewrite <- Ereq, Epol. destruct (ep_Enabled (po_Egress p)) eqn:Een; [|done]. cbn [negb]. set (granted := fst _).
  case_bool_decide; [done|]. destruct ((0 <? _)%Z && _) eqn:Em; [done|].
  assert (checkEgress ToLower p granted = None /\ (forall d, d ∈ granted -> d ∈ SortedDomains ToLower (SortedDomains ToLower req))) as Hc.
  { split; [by apply granted_passes|]. by intros x [Hx _]%elem_of_granted. }
  destruct (sv_running s !! name) as [q|]; [destruct (equalDomains _ _)|]; try (by intros [= <- <-]);
    destruct (startLocked _ _ _ _ _ _) as [s1 [p1|e1]]; by intros [= <- <-].
Qed.

(** ** Where binds come from *)

(** The subtrees that are not a user's, as elements from the root. *)
Definition reserved : list (list gostring) :=
  [[bs "workspace"]; [bs "opt"; bs "apex-framework"]; [bs "opt"; bs "apex-governance"]; [bs "opt"; bs "ape"]; [bs "sandbox"; bs "home"]].

(** A user's bind: of an absolute folder, at a clean absolute place that is in none of the
    reserved subtrees. *)
Definition user_mount (m : MountSpec) : Prop :=
  filepath_IsAbs (mt_Source m) = true /\
  exists es, Forall good es /\ TrimSpace (mt_Dest m) = abs es /\ forall res u, res ∈ reserved -> es <> res ++ u.

Lemma abs_below res u : res <> [] -> abs (res ++ u) = abs res \/ HasPrefix (abs (res ++ u)) (abs res ++ "/") = true.
Proof.
  intros Hr. destruct u as [|e u]; [left; by rewrite app_nil_r|]. right. unfold abs. rewrite Join_app by done.
  apply HasPrefix_spec. exists (Join (e :: u) "/"). by rewrite <- !app_assoc.
Qed.

Lemma user_dest d : validateGuestDest d = true -> exists es, Forall good es /\ TrimSpace d = abs es /\ forall res u, res ∈ reserved -> es <> res ++ u.
Proof.
  unfold validateGuestDest. rewrite !andb_true_iff, bool_decide_eq_true. intros [[[_ Ha] Hc] Hr].
  destruct (Clean_is_abs (TrimSpace d) Ha) as (es & Hes & E). exists es. rewrite E in Hc. split; [done|]. split; [done|]. intros res u Hres ->.
  rewrite List.forallb_forall in Hr. assert (List.In (abs res) reservedDests) as Hin.
  { apply list_elem_of_In. change reservedDests with (abs <$> reserved). by apply list_elem_of_fmap_2. }
  apply Hr in Hin. rewrite <- Hc in Hin. destruct (abs_below res u) as [Eq|Hp].
  - intros ->. clear -Hres. set_solver.
  - rewrite (bool_decide_true _ Eq) in Hin. done.
  - rewrite Hp, orb_true_r in Hin. done.
Qed.

Section resolver.
Context (ToLower : gostring -> gostring) (r : Resolver) (H : ResolverHost).

(** A bind of one version of a folder of the node, read-only: the version asked for, or
    the node's own; none when the node serves none. *)
Definition ref_wanted (defaultRef ref : gostring) : gostring := if TrimSpace ref =s "" then defaultRef else TrimSpace ref.
Definition ref_bind (root defaultRef ref dest : gostring) (ms : list MountSpec) : Prop :=
  let want := ref_wanted defaultRef ref in
  (ms = [] /\ (TrimSpace root = [] \/ want = [])) \/
  (TrimSpace root <> [] /\ ValidateMountName want = true /\ rh_IsDir H (filepath_Join root want) = true /\ ms = [MkMountSpec (filepath_Join root want) dest true]).

(** The bind of the node's ape, read-only. *)
Definition ape_bind (ms : list MountSpec) : Prop :=
  (ms = [] /\ ab_Dir (rv_apeBin r) = []) \/
  exists bin, (match rh_recheck H with None => bin = rv_apeBin r | Some fresh => fresh = Some bin end) /\ ms = [MkMountSpec (ab_Dir bin) ApeBinDest true].

(** The repos a request asks for: its own, or its project in a workspace on the host's
    files. *)
Definition repos_wanted (mount : gostring) (req : CreateRequest) : list RepoMount :=
  match cq_Repos req with
  | [] => if mount =s MountHostFS then [MkRepoMount (cq_MountSource req) (filepath_Base (filepath_Clean (cq_MountSource req))) true false] else []
  | l => l
  end.
Definition repo_name (rp : RepoMount) : gostring := if TrimSpace (rm_Name rp) =s "" then filepath_Base (filepath_Clean (rm_Source rp)) else TrimSpace (rm_Name rp).

(** A repo's bind: its source, read-only as it was asked, one element below /workspace. *)
Definition repo_bind (rp : RepoMount) (m : MountSpec) : Prop :=
  mt_Source m = rm_Source rp /\ mt_ReadOnly m = rm_ReadOnly rp /\ good (repo_name rp) /\ mt_Dest m = abs [bs "workspace"; repo_name rp].

(** A cache's bind: its entry of the table, in the node's cache root. *)
Definition cache_bind (name : gostring) (m : MountSpec) : Prop :=
  exists tc, LookupToolCache ToLower name = Some tc /\ m = MkMountSpec (filepath_Join (rv_cacheRoot r) (tc_SubDir tc)) (tc_Dest tc) false.
Definition caches_bound (req : CreateRequest) (ms : list MountSpec) : Prop :=
  ((cq_Caches req = [] \/ TrimSpace (rv_cacheRoot r) = []) /\ ms = []) \/
  exists names, NormalizeToolCaches ToLower (cq_Caches req) = Some names /\ Forall2 cache_bind names ms.

Lemma refMount_spec root defaultRef ref dest om : refMount H root defaultRef ref dest = inl om -> ref_bind root defaultRef ref dest (option_list om).
Proof.
  unfold refMount, ref_bind. destruct (decide (TrimSpace root = bs "")) as [E|E]; [rewrite (bool_decide_true _ E); intros [= <-]; left; split; [done|by left]|].
  rewrite (bool_decide_false _ E). fold (ref_wanted defaultRef ref). set (want := ref_wanted _ _).
  destruct (decide (want = bs "")) as [E1|E1]; [rewrite (bool_decide_true _ E1); intros [= <-]; left; split; [done|by right]|]. rewrite (bool_decide_false _ E1).
  destruct (ValidateMountName want) eqn:Ev; [|done]. cbn [negb]. destruct (rh_IsDir H _) eqn:Ed; [|done]. intros [= <-]. by right.
Qed.

Lemma mount_name_good name : ValidateMountName name = true -> good name.
Proof.
  unfold ValidateMountName. rewrite andb_true_iff, !negb_true_iff, !orb_false_iff, !bool_decide_eq_false. intros [[[H1 H2] H3] H4].
  split; [done|]. split; [|done]. intros Hin. apply list_elem_of_In in Hin.
  rewrite (proj2 (List.existsb_exists _ name)) in H4; [done|]. exists "/"%byte. by split.
Qed.

Lemma RepoDest_below name : good name -> RepoDest name = abs [bs "workspace"; name].
Proof.
  intros Hg. unfold RepoDest. change WorkspaceRoot with (abs [bs "workspace"]). change name with (Join [name] "/") at 1.
  rewrite Join_abs; [done| |by constructor]. constructor; [|constructor]. split_and!; try done. by apply (bool_decide_unpack _).
Qed.

Lemma repo_mounts_spec n repos : forall seen b seen' b', repo_mounts n seen repos b = inl (seen', b') ->
  exists ms, bd_Mounts b' = bd_Mounts b ++ ms /\ Forall2 repo_bind repos ms.
Proof.
  induction repos as [|rp repos IH]; intros seen b seen' b'; cbn [repo_mounts]; [intros [= <- <-]; exists []; by rewrite app_nil_r|].
  case_match; [done|]. fold (repo_name rp). destruct (ValidateMountName (repo_name rp)) eqn:Ev; [|done]. cbn [negb].
  set (m := MkMountSpec (rm_Source rp) (RepoDest (repo_name rp)) (rm_ReadOnly rp)).
  assert (repo_bind rp m) as Hm. { pose proof (mount_name_good _ Ev) as Hg. split; [done|]. split; [done|]. split; [done|]. by apply RepoDest_below. }
  assert (forall x, bd_Mounts x = bd_Mounts (add_mount m b) -> forall sn, repo_mounts n sn repos x = inl (seen', b') ->
    exists ms, bd_Mounts b' = bd_Mounts b ++ ms /\ Forall2 repo_bind (rp :: repos) ms) as Hgo.
  { intros x Ex sn Hx. apply IH in Hx as (ms & E1 & E2). exists (m :: ms). rewrite E1, Ex. cbn [add_mount bd_Mounts]. rewrite <- app_assoc. split; [done|by constructor]. }
  case_match; [case_match; [done|]|]; by apply Hgo.
Qed.

Lemma cache_mounts_spec names : forall b b', cache_mounts ToLower r H names b = inl b' -> exists ms, bd_Mounts b' = bd_Mounts b ++ ms /\ Forall2 cache_bind names ms.
Proof.
  induction names as [|name names IH]; intros b b'; cbn [cache_mounts]; [intros [= <-]; exists []; by rewrite app_nil_r|].
  destruct (LookupToolCache ToLower name) as [tc|] eqn:El; [|done]. case_match; [|done]. intros (ms & E1 & E2)%IH.
  exists (MkMountSpec (filepath_Join (rv_cacheRoot r) (tc_SubDir tc)) (tc_Dest tc) false :: ms). rewrite E1. cbn [add_env add_mount bd_Mounts]. rewrite <- app_assoc. split; [done|].
  constructor; [|done]. by exists tc.
Qed.

Lemma resolveCaches_spec req b b' : resolveCaches ToLower r H (cq_Caches req) b = inl b' -> exists ms, bd_Mounts b' = bd_Mounts b ++ ms /\ caches_bound req ms.
Proof.
  unfold resolveCaches, caches_bound. destruct (cq_Caches req) as [|c0 cs0]; [intros [= <-]; exists []; rewrite app_nil_r; auto|].
  destruct (decide (TrimSpace (rv_cacheRoot r) = bs "")) as [E|E]; [rewrite (bool_decide_true _ E); intros [= <-]; exists []; rewrite app_nil_r; auto|].
  rewrite (bool_decide_false _ E). destruct (NormalizeToolCaches _ _) as [names|]; [|done]. intros (ms & E1 & E2)%cache_mounts_spec. exists ms. split; [done|]. right. by exists names.
Qed.

Lemma user_mounts_spec ms : forall b b', user_mounts ms b = inl b' -> bd_Mounts b' = bd_Mounts b ++ ms /\ Forall user_mount ms.
Proof.
  induction ms as [|m ms IH]; intros b b'; cbn [user_mounts]; [intros [= <-]; by rewrite app_nil_r|].
  destruct (validateGuestDest _) eqn:Ev; [|done]. destruct (filepath_IsAbs _) eqn:Ea; [|done]. cbn [negb]. intros (E1 & E2)%IH. rewrite E1. cbn. rewrite <- app_assoc.
  split; [done|]. constructor; [|done]. split; [done|]. by apply user_dest.
Qed.

Lemma bind_inl {A B E} (x : A + E) (f : A -> B + E) y : sum_bind x f = inl y -> exists a, x = inl a /\ f a = inl y.
Proof. destruct x; [by eexists|done]. Qed.

Lemma bin_mount_spec b b' : bin_mount r H b = inl b' -> bd_ProjectRoot b' = bd_ProjectRoot b /\ exists ms, bd_Mounts b' = bd_Mounts b ++ ms /\ ape_bind ms.
Proof.
  unfold bin_mount, ape_bind. destruct (decide (ab_Dir (rv_apeBin r) = bs "")) as [Ed|Ed].
  { rewrite (bool_decide_true _ Ed). intros [= <-]. split; [done|]. exists []. rewrite app_nil_r. auto. }
  rewrite (bool_decide_false _ Ed). destruct (match rh_recheck H with None => _ | Some _ => _ end) as [bin|] eqn:Erec; [|done]. intros [= <-].
  split; [done|]. eexists. split; [done|]. right. exists bin. split; [|done]. destruct (rh_recheck H); congruence.
Qed.

Lemma add_opt_mounts m b : bd_Mounts (add_opt m b) = bd_Mounts b ++ option_list m /\ bd_ProjectRoot (add_opt m b) = bd_ProjectRoot b.
Proof. destruct m; cbn; by rewrite ?app_nil_r. Qed.

(** What a request's binds are, in order. *)
Record bound (mount : gostring) (req : CreateRequest) (mounts : list MountSpec) : Prop := {
  bn_mounts : exists fw gov ape repos caches, mounts = fw ++ gov ++ ape ++ repos ++ caches ++ cq_Mounts req /\
    ref_bind (rv_frameworkRoot r) (rv_frameworkRef r) (cq_FrameworkRef req) FrameworkDest fw /\
    ref_bind (rv_governanceRoot r) (rv_governanceRef r) (cq_GovernanceRef req) GovernanceDest gov /\
    ape_bind ape /\ Forall2 repo_bind (repos_wanted mount req) repos /\ caches_bound req caches;
  bn_user : Forall user_mount (cq_Mounts req) }.

Lemma resolveMounts_spec mount req root b' :
  (mount = MountHostFS -> root = cq_MountSource req /\ TrimSpace root <> []) ->
  resolveMounts ToLower r H mount req (MkBound [] [] [] root []) = inl b' -> bound mount req (bd_Mounts b').
Proof.
  intros Hroot. unfold resolveMounts. intros (fw & Ef & (gov & Eg & (b1 & Eb & H1)%bind_inl)%bind_inl)%bind_inl.
  apply refMount_spec in Ef, Eg. destruct (add_opt_mounts fw (MkBound [] [] [] root [])) as [E0 R0]. set (b0 := add_opt fw _) in *.
  set (b01 := match gov with Some m => _ | None => b0 end) in Eb.
  assert (bd_Mounts b01 = bd_Mounts b0 ++ option_list gov /\ bd_ProjectRoot b01 = root) as [E01 R01] by (unfold b01; destruct gov; cbn; by rewrite ?app_nil_r).
  apply bin_mount_spec in Eb as (R1 & ape & E1 & Hape). rewrite R01 in R1.
  match type of H1 with sum_bind (repo_mounts (length ?l) _ _ _) _ = _ => assert (l = repos_wanted mount req) as El end.
  { unfold repos_wanted. rewrite R1. destruct (cq_Repos req); [|done]. destruct (decide (mount = MountHostFS)) as [Em|Em].
    - destruct (Hroot Em) as [<- Hne]. rewrite (bool_decide_true _ Em). change (bs "") with (@nil byte). by rewrite (bool_decide_false _ Hne).
    - by rewrite (bool_decide_false _ Em). }
  rewrite El in H1. apply bind_inl in H1 as ([seen b2] & E2 & H2). apply repo_mounts_spec in E2 as (repos & E2 & Hr).
  destruct ((1 <? _) && negb seen); [done|]. apply bind_inl in H2 as (b3 & E3 & H3). apply user_mounts_spec in H3 as [E4 Hu]. apply resolveCaches_spec in E3 as (cs & Ec & Hc).
  split; [|done]. exists (option_list fw), (option_list gov), ape, repos, cs. split_and!; try done.
  rewrite E4, Ec, E2, E1, E01, E0. cbn [bd_Mounts app]. by rewrite <- !app_assoc.
Qed.
End resolver.

(** ** A resolved spec *)


(** ** The merge of mounts *)

Lemma merge_loop_spec ms : forall byDest order byDest' order', merge_loop byDest order ms = Some (byDest', order') ->
  NoDup order -> (forall d, d ∈ order <-> is_Some (byDest !! d)) ->
  NoDup order' /\ (forall d, d ∈ order' <-> is_Some (byDest' !! d)) /\
  (forall d, byDest' !! d = match List.find (fun m => mt_Dest m =s d) (rev ms) with Some m => Some m | None => byDest !! d end) /\
  Forall (fun m => validateGuestDest (mt_Dest m) = true) ms.
Proof.
  induction ms as [|m ms IH]; intros byDest order byDest' order'; cbn [merge_loop]; [intros [= <- <-] HN HE; by split_and!|].
  destruct (validateGuestDest (mt_Dest m)) eqn:Ev; [|done]. cbn [negb]. intros Hm HN HE. apply IH in Hm as (H1 & H2 & H3 & H4).
  - split_and!; [done|done| |by constructor]. intros d. rewrite H3. cbn [rev]. assert (forall l, List.find (fun x => mt_Dest x =s d) (l ++ [m]) =
      match List.find (fun x => mt_Dest x =s d) l with Some x => Some x | None => if mt_Dest m =s d then Some m else None end) as ->.
    { induction l as [|x l IHl]; [done|]. cbn [List.find app]. destruct (mt_Dest x =s d); [done|apply IHl]. }
    destruct (List.find _ (rev ms)); [done|]. destruct (decide (mt_Dest m = d)) as [->|Hne]; [by rewrite lookup_insert_eq, bool_decide_true|].
    by rewrite lookup_insert_ne, bool_decide_false.
  - destruct (byDest !! mt_Dest m) eqn:E; [done|]. apply NoDup_app. split_and!; [done| |by apply NoDup_singleton]. intros d Hd ->%list_elem_of_singleton. apply HE in Hd as [x Hx]. congruence.
  - intros d. destruct (decide (mt_Dest m = d)) as [<-|Hne].
    + rewrite lookup_insert_eq. split; [by intros _|]. intros _. destruct (byDest !! mt_Dest m) eqn:E; [by apply HE|]. set_solver.
    + rewrite lookup_insert_ne by done. rewrite <- HE. destruct (byDest !! mt_Dest m); [done|]. set_solver.
Qed.

(** The mounts of the descriptor and the command line are merged by destination: the
    result has, once, each destination that is given and only those, in order, and for each
    the mount given last; and it is refused exactly when a destination may not be a user's. *)
Theorem merge_last_wins (file cli : list MountSpec) :
  match MergeUserMounts file cli with
  | None => exists m, m ∈ file ++ cli /\ validateGuestDest (mt_Dest m) = false
  | Some out =>
      Forall (fun m => validateGuestDest (mt_Dest m) = true) (file ++ cli) /\ Sorted str_le (mt_Dest <$> out) /\ NoDup (mt_Dest <$> out) /\
      forall m, m ∈ out <-> List.find (fun x => mt_Dest x =s mt_Dest m) (rev (file ++ cli)) = Some m
  end.
Proof.
  unfold MergeUserMounts. generalize (file ++ cli) as ms. intros ms. destruct (merge_loop ∅ [] ms) as [[byDest order]|] eqn:E.
  - apply merge_loop_spec in E as (HN & HE & HB & HF); [|constructor|]. 2: { intros d. rewrite lookup_empty. split; [by intros ?%elem_of_nil|by intros [? ?]]. }
    assert (forall d m, byDest !! d = Some m -> mt_Dest m = d) as Hd.
    { intros d m. rewrite HB, lookup_empty. destruct (List.find _ (rev ms)) as [x|] eqn:Ef; [|done]. intros [= ->]. apply List.find_some in Ef as [_ Ef]. by apply bool_decide_eq_true in Ef. }
    assert (mt_Dest <$> omap (fun d => byDest !! d) (sort_Strings order) = sort_Strings order) as Eo.
    { assert (forall l : list gostring, (forall d, d ∈ l -> is_Some (byDest !! d)) -> mt_Dest <$> omap (fun d => byDest !! d) l = l) as Ho; [|apply Ho; intros d; rewrite sort_Strings_perm; apply HE].
      induction l as [|d l IH]; intros Hl; [done|]. destruct (Hl d) as [m Hm]; [by left|]. cbn [omap list_omap]. rewrite Hm. cbn [fmap list_fmap]. rewrite (Hd _ _ Hm). f_equal. apply IH. set_solver. }
    rewrite Eo. split_and!; [done|apply sort_Strings_sorted|by rewrite sort_Strings_perm|].
    intros m. rewrite list_elem_of_omap. setoid_rewrite sort_Strings_perm. split.
    + intros (d & _ & Hm). pose proof (Hd _ _ Hm) as <-. rewrite HB, lookup_empty in Hm. by destruct (List.find _ (rev ms)).
    + intros Hf. assert (byDest !! mt_Dest m = Some m) as Hm by (by rewrite HB, Hf). exists (mt_Dest m). split; [|done]. by apply HE.
  - assert (forall bd o, merge_loop bd o ms = None -> exists m, m ∈ ms /\ validateGuestDest (mt_Dest m) = false) as Hn; [|by eapply Hn].
    clear E. induction ms as [|m ms IH]; intros bd o; cbn [merge_loop]; [done|]. destruct (validateGuestDest (mt_Dest m)) eqn:Ev; cbn [negb].
    + intros (x & Hx & Hv)%IH. exists x. split; [by right|done].
    + intros _. exists m. split; [by left|done].
Qed.

(** ** Samples *)

Definition node_resolver : Resolver := MkResolver "/var/lib/aped" "" NetworkNone "/srv/framework" "v1" "" "" "/srv/ape-caches" (MkApeBinary "/usr/lib/ape" "1.2.0") "".
Definition node_host : ResolverHost := MkResolverHost None (fun _ dir => Some (MkComposition dir DefaultGuestHome [] [])) None (fun _ => true) (fun _ => true) (fun _ => true) true.
Definition app_request (mounts : list MountSpec) : CreateRequest :=
  MkCreateRequest "web" "" "" "" "/srv/projects/app" "" (Some (MkEgressRequest [bs "api.github.com"] [])) [] mounts [bs "go"] "" "" "".
Definition node_policy : Policy := MkPolicy [] [] [] (MkLimits 0 0 0 0) (MkDevicePolicy [] []) (MkEgressPolicy true [bs "*.github.com"; bs "example.org"] 0).

#[export] Instance node_planner : EgressPlanner EgressSupervisor := supervisor ascii_lower wide easy.

Definition resolved (mounts : list MountSpec) : EgressSupervisor * (WorkspaceSpec + WErr) :=
  Resolve ascii_lower node_resolver node_host true (NewEgressSupervisor ∅) (app_request mounts).

(** The destinations of a result. *)
Definition dests_of (res : WorkspaceSpec + WErr) : option (list gostring) := match res with inl spec => Some (mt_Dest <$> sp_Mounts spec) | inr _ => None end.

Lemma resolved_dests : dests_of (snd (resolved [MkMountSpec "/srv/data" "/mnt/data" true])) =
  Some [FrameworkDest; ApeBinDest; bs "/workspace/app"; bs "/cache/go"; bs "/mnt/data"].
Proof. vm_compute. reflexivity. Qed.


(** The binds a spec of the resolver gives the guest. *)
Definition guest_binds (mounts : list MountSpec) : list BindMount := match snd (resolved mounts) with inl spec => containerdMounts spec | inr _ => [] end.

(** A user's mount at a parent of the reserved destinations, or at a cache's own, is let
    through, and bound after them: the framework and the delivered ape are hidden under the
    user's /opt, and the Go caches are the user's folder. *)
Theorem user_mount_shadows :
  let binds := guest_binds [MkMountSpec "/srv/mine" "/opt" false; MkMountSpec "/srv/mine" "/cache/go" false] in
  (bm_Dest <$> binds) = [DefaultGuestHome; FrameworkDest; ApeBinDest; bs "/workspace/app"; bs "/cache/go"; bs "/opt"; bs "/cache/go"] /\
  (bm_Source <$> binds) !! 5 = Some (bs "/srv/mine") /\ (bm_Source <$> binds) !! 6 = Some (bs "/srv/mine") /\
  existsb (HasPrefix "GOPATH=/cache/go") (match snd (resolved []) with inl spec => sp_Env spec | inr _ => [] end) = true.
Proof. vm_compute. split_and!; reflexivity. Qed.
