(* ===== verification/EditGuard.v ===== *)
(** What a session's tools may touch: pre-tool's decision on an edit or a shell command,
    of internal/apexv1/hooks.go, with the gate guard of bashguard.go, the briefs of
    briefs.go, the running checks of checking.go and the project's root of layout.go. *)
From S2P Require Import Prelude Regex Markdown Spec Change Merge Effective Regression Roadmap State Command Lifecycle Shell Guards GuardFacts SubjectGuard Paths.

(** ** The project *)

Record Project := MkProject { p_Root : gostring; p_DevRel : gostring }.

Definition DefaultDevFolder : gostring := "development".
Definition OrdersDirRel : gostring := "_apex/standing-orders".
Definition BriefPattern : gostring := "YYYY-MM-DD-<slug>.md".
Definition EnvReview : gostring := "APE_REVIEW".
Definition EnvDelegate : gostring := "APE_DELEGATE".
Definition EnvAllowGate : gostring := "APE_ALLOW_GATE".

Definition Dev (p : Project) : gostring := filepath_Join (p_Root p) (p_DevRel p).
Definition Rel (p : Project) (path : gostring) : gostring := match filepath_Rel (p_Root p) path with Some r => r | None => path end.
Definition StateDir (p : Project) : gostring := filepath_Join (p_Root p) "_apex/state".
Definition StateRel (p : Project) : gostring := Rel p (StateDir p).
Definition BriefsDir (p : Project) : gostring := filepath_Join (Dev p) "briefs".

(** notCode *)
Definition notCode (p : Project) (rel : gostring) : bool :=
  let rel := TrimPrefix rel "./" in
  let state := StateRel p in
  (rel =s p_DevRel p) || HasPrefix rel (p_DevRel p ++ "/") || (rel =s state) || HasPrefix rel (state ++ "/").

(** A relative path that stays inside. *)
Definition inside (rel : gostring) : bool := (rel <>s "..") && negb (HasPrefix rel "../").

(** FindRoot's walk up from a clean absolute path; each step shortens the path. *)
Section find_root.
Context (fileExists dirExists : gostring -> bool).

Definition marked_root (cur : gostring) : bool :=
  let dev := filepath_Join cur DefaultDevFolder in
  fileExists (filepath_Join cur "_apex/config.yaml") || dirExists (filepath_Join cur "_apex/state") || dirExists (filepath_Join dev ".apex") ||
  fileExists (filepath_Join dev "project.md").
Definition git_root (cur : gostring) : bool := fileExists (filepath_Join cur ".git") || dirExists (filepath_Join cur ".git").

Fixpoint find_root (fuel : nat) (gitTop cur : gostring) : option (gostring + gostring) :=
  match fuel with
  | O => None
  | S fuel' =>
      if marked_root cur then Some (inl cur)
      else
        let gitTop := if (gitTop =s "") && git_root cur then cur else gitTop in
        let parent := filepath_Dir cur in
        if parent =s cur then Some (inr gitTop) else find_root fuel' gitTop parent
  end.

(** FindRoot of an absolute directory. *)
Definition FindRoot (dir : gostring) : option gostring :=
  let abs := filepath_Clean dir in
  match find_root (S (length abs)) [] abs with
  | Some (inl root) => Some root
  | Some (inr gitTop) => Some (if gitTop <>s "" then gitTop else abs)
  | None => None
  end.
End find_root.

(** ** Files only ape writes *)

Definition stateJSONRe : re := cats [ Bol; lit "changes/"; Plus (Cls (cnot (one "/"))); lit "/state.json"; Eol ].

Section edit.
(** The file system: a path without its symbolic links, and whether a path is a folder. *)
Context (EvalSymlinks : gostring -> option gostring) (Stat : gostring -> option bool).

Definition resolve (path : gostring) : gostring := default path (EvalSymlinks path).

(** The brief a target is, in a folder of briefs. *)
Definition brief_at (p : Project) (dir t : gostring) : gostring :=
  match filepath_Rel dir t with
  | Some rel =>
      if (rel =s ".") || negb (inside rel) then []
      else p_DevRel p ++ "/briefs/" ++ rel ++
           " is a brief: briefs are history, the planning input as it was given, and are never edited — " ++
           "a new or changed request is a new dated brief (" ++ p_DevRel p ++ "/briefs/" ++ BriefPattern ++
           "), linked from the roadmap's Delivery: line"
  | None => []
  end.

Definition briefReason (p : Project) (abs : gostring) : gostring :=
  match Stat abs with
  | Some false =>
      let dir := BriefsDir p in
      let dirs := dir :: (match EvalSymlinks dir with Some r => if r <>s dir then [r] else [] | None => [] end) in
      let targets := abs :: (match EvalSymlinks (filepath_Dir abs) with Some r => [filepath_Join r (filepath_Base abs)] | None => [] end) ++
                     option_list (EvalSymlinks abs) in
      first_verdict (fun dir => first_verdict (brief_at p dir) targets) dirs
  | _ => []
  end.

(** protectedReason's last cases: the development folder. *)
Definition dev_reason (p : Project) (dev abs : gostring) : gostring :=
  match filepath_Rel dev abs with
  | Some rel =>
      if negb (inside rel) then briefReason p abs
      else if (rel =s "specs") || HasPrefix rel "specs/" then
        p_DevRel p ++ "/" ++ rel ++ " is a living spec: specs change only through `ape change archive` — put the requirement in your change's ## Delta (ADDED/MODIFIED/REMOVED)"
      else if (rel =s "archive") || HasPrefix rel "archive/" then
        p_DevRel p ++ "/" ++ rel ++ " is an archived change: the archive is written only by `ape change archive` — specs change only through ape change archive"
      else if MatchString stateJSONRe rel then
        p_DevRel p ++ "/" ++ rel ++ " is written only by ape (`ape change start|verify|review|accept|block|archive`) — specs change only through ape change archive"
      else briefReason p abs
  | None => briefReason p abs
  end.

Definition orders_reason (abs r : gostring) : gostring :=
  match filepath_Rel (filepath_Join r OrdersDirRel) abs with
  | Some rel => if inside rel then OrdersDirRel ++ "/" ++ rel ++
      " holds a person's standing orders: the person edits them and accepts them from a terminal (`ape orders accept`); a delegated conductor never changes its own orders"
    else []
  | None => []
  end.

Definition settings_reason (p : Project) (root abs name : gostring) : gostring :=
  if (abs =s filepath_Join root (bs ".claude/" ++ name)) || (abs =s filepath_Join (p_Root p) (bs ".claude/" ++ name))
  then bs ".claude/" ++ name ++ " holds ape's hooks and the session's environment: a person edits it, and `ape project init` restores the hooks"
  else [].

Definition state_reason (p : Project) (state abs : gostring) : gostring :=
  match filepath_Rel state abs with
  | Some rel => if inside rel then StateRel p ++ "/" ++ TrimPrefix rel "." ++
      " is ape's own record (gate runs, logs, hook verdicts) — use the ape command that records it; specs change only through ape change archive"
    else []
  | None => []
  end.

(** protectedReason's cases, in order, on the target with its parents resolved. *)
Definition protected_at (p : Project) (root dev state abs : gostring) : gostring :=
  let what := first_verdict (orders_reason abs) [root; p_Root p] in
  if what <>s "" then what
  else
    let what := first_verdict (settings_reason p root abs) [bs "settings.json"; bs "settings.local.json"] in
    if what <>s "" then what
    else
      let what := state_reason p state abs in
      if what <>s "" then what else dev_reason p dev abs.

(** protectedReason *)
Definition protectedReason (p : Project) (abs : gostring) : gostring :=
  let root := resolve (p_Root p) in
  match EvalSymlinks (filepath_Dir abs) with
  | Some resolved =>
      let state := match EvalSymlinks (p_Root p) with Some r => filepath_Join r (StateRel p) | None => StateDir p end in
      protected_at p root (resolve (Dev p)) state (filepath_Join resolved (filepath_Base abs))
  | None => protected_at p root (Dev p) (StateDir p) abs
  end.

(** The target relative to the root, both without links where the target's folder has
    none; [None] outside the project. *)
Definition confined_rel (p : Project) (abs : gostring) : option gostring :=
  let '(root, abs) := match EvalSymlinks (filepath_Dir abs) with
                      | Some r => (resolve (p_Root p), filepath_Join r (filepath_Base abs))
                      | None => (p_Root p, abs)
                      end in
  match filepath_Rel root abs with Some rel => if inside rel then Some rel else None | None => None end.

(** reviewConfinement *)
Definition reviewConfinement (p : Project) (id abs : gostring) : gostring :=
  match confined_rel p abs with
  | None => []
  | Some rel =>
      if rel =s p_DevRel p ++ "/changes/" ++ id ++ "/review.md" then []
      else bs "this is a read-only review session for change " ++ id ++ ": the only file it may write in the project is " ++
           p_DevRel p ++ "/changes/" ++ id ++ "/review.md (break code in a throwaway copy outside the repository instead)"
  end.

(** delegateConfinement: [run_folder] is the folder its run recorded. *)
Definition delegateConfinement (run_folder : gostring -> gostring -> option gostring) (p : Project) (marker abs : gostring) : gostring :=
  let '(id, task) := match Cut marker "/" with Some (a, b) => (a, b) | None => (marker, []) end in
  let folder := match run_folder id task with Some f => if f <>s "" then f else p_DevRel p ++ "/changes/" ++ id | None => p_DevRel p ++ "/changes/" ++ id end in
  match confined_rel p abs with
  | None => []
  | Some rel =>
      let '(name, ok) := CutPrefix rel (folder ++ "/assets/accept-") in
      if ok && (name <>s "") && negb (Contains name "/") then []
      else bs "this is a read-only delegate session for " ++ task ++ " of change " ++ id ++ ": the only files it may write in the project are " ++
           folder ++ "/assets/accept-* (its evidence notes)"
  end.

(** ** Checks that run *)

Record CheckMarker := MkMarker { cm_PID : Z; cm_Cmd : gostring; cm_Started : gostring; cm_Verb : gostring; cm_Scope : gostring; cm_RunID : gostring }.

(** upperFirst, of the two texts it is given. *)
Definition checkRunningReason (rel : gostring) (m : CheckMarker) : gostring :=
  let run := if cm_Verb m <>s "" then bs ", for `ape " ++ cm_Verb m ++ " " ++ cm_Scope m ++ "` (run " ++ cm_RunID m ++ ")" else [] in
  let wait := if cm_Verb m <>s "" then bs "Wait for that run to end (`ape " ++ cm_Verb m ++ " " ++ cm_Scope m ++ " --wait 9m` attaches to it)"
              else bs "Wait for the check to end" in
  bs "ape is running a check in this checkout — `" ++ cm_Cmd m ++ "`" ++ run ++ ", pid " ++ Itoa (cm_PID m) ++ ", since " ++ cm_Started m ++
  ". When it ends, ape undoes what changed outside the development folder while it ran, so an edit to " ++ rel ++ " now would be lost (RK-4b). " ++
  wait ++ ", then make the edit.".
End edit.

(** ** The gate guard *)

Definition gateGuardReason (what folder : gostring) : gostring :=
  what ++ " runs a gate outside ape, so nothing ends what it starts (a server whose PID the gate lost outlives it) — " ++
  "run it through ape, which reaps it: `ape milestone gate-test " ++ folder ++ "` (stub and plain runs, before the milestone exists) or " ++
  "`ape milestone gate <M>` once it does; `gate.sh --stub <file>` alone may run directly. A session the person started with " ++ EnvAllowGate ++ "=1 may run it.".

Definition isDriveLetter (c : byte) : bool := c_lower (bz c) || c_upper (bz c).

(** drivePath on Windows; elsewhere the path itself. *)
Definition drivePath (ToUpper ToSlash : gostring -> gostring) (windows : bool) (p : gostring) : gostring :=
  if negb windows then p
  else
    let s := ToSlash p in
    let s := match CutPrefix s "/cygdrive/" with (rest, true) => bs "/" ++ rest | _ => s end in
    match s with
    | slash :: c :: rest =>
        if negb (Byte.eqb slash "/") || negb (isDriveLetter c) || match rest with r :: _ => negb (Byte.eqb r "/") | [] => false end then p
        else ToUpper [c] ++ ":/" ++ TrimPrefix rest "/"
    | _ => p
    end.

(** The script a shell is given, with its arguments; [None] when it only parses or runs
    none. *)
Fixpoint shell_file (args : list gostring) : option (gostring * list gostring) :=
  match args with
  | [] => None
  | a :: args' =>
      if HasPrefix a "-" then if negb (HasPrefix a "--") && Contains a "n" then None else shell_file args'
      else Some (a, args')
  end.

Definition is_stub (a : gostring) : bool := (a =s "--stub") || HasPrefix a "--stub=".

(** strings.Count of a one-byte text. *)
Definition count_byte (c : byte) (s : gostring) : nat := length (List.filter (Byte.eqb c) s).

Section gate.
(** The root of a directory's project and its development folder. *)
Context (root_of dev_of : gostring -> gostring) (getenv : gostring -> gostring).

(** The gate folder a command runs the plain gate.sh of, with the words. *)
Definition gate_folder (words : list gostring) (dir : gostring) : option gostring :=
  match words with
  | [] => None
  | w :: args =>
      match (if is_shell (filepath_Base w) then shell_file args else Some (w, args)) with
      | None => None
      | Some (script, args) =>
          if filepath_Base script <>s "gate.sh" then None
          else if existsb is_stub args then None
          else
            let abs := if filepath_IsAbs script then script else filepath_Join dir script in
            let root := root_of dir in
            let dev := dev_of root in
            match filepath_Rel (filepath_Join (filepath_Join root dev) "gates") (filepath_Clean abs) with
            | None => None
            | Some rel =>
                if HasPrefix rel ".." || negb (Nat.eqb (count_byte "/" rel) 1) || (filepath_Dir rel =s "lib") then None
                else Some (filepath_Join (filepath_Join dev "gates") (filepath_Dir rel))
            end
      end
  end.

Definition judgeGate : cmdJudge := fun words dir =>
  match gate_folder words dir with Some _ => bs "`" ++ Join words " " ++ "`" | None => [] end.

(** GateGuard, off Windows. *)
Definition GateGuard (command cwd : gostring) : PreToolDecision :=
  if overrideSet getenv EnvAllowGate || negb (Contains command "gate.sh") then allow
  else
    match List.find (fun words => judgeGate words cwd <>s "") (scan_words 4 command) with
    | Some words => deny (gateGuardReason (judgeGate words cwd) (default [] (gate_folder words cwd)) ++ inlineOverrideNote command)
    | None => allow
    end.
End gate.

(** ** pre-tool *)

Definition editTools : list gostring := [bs "Edit"; bs "Write"; bs "MultiEdit"; bs "NotebookEdit"].
Definition ShellTools : list gostring := [bs "Bash"; bs "Monitor"].

(** A tool call: its command, or the files it names. *)
Record ToolCall := MkToolCall { tl_Name : gostring; tl_Command : gostring; tl_FilePath : gostring; tl_NotebookPath : gostring; tl_Cwd : gostring }.

(** What pre-tool asks: the environment, git, the files, and the v1 project of a
    directory. *)
Record HookHost := MkHookHost {
  hh_getenv : gostring -> gostring; hh_isLocalTagOnly : gostring -> gostring -> bool; hh_CurrentBranch : gostring -> gostring;
  hh_ToLower : gostring -> gostring; hh_ReadFile : gostring -> option gostring; hh_gitLines : gostring -> list gostring -> list gostring;
  hh_root_of : gostring -> gostring; hh_dev_of : gostring -> gostring;
  hh_EvalSymlinks : gostring -> option gostring; hh_Stat : gostring -> option bool; hh_project : gostring -> option Project;
  hh_run_folder : gostring -> gostring -> option gostring; hh_LiveCheck : option CheckMarker }.

Section pre_tool.
Context (h : HookHost).

Definition guard_list : list (gostring -> gostring -> PreToolDecision) :=
  [ RecordGuard; TagGuard (hh_getenv h) (hh_isLocalTagOnly h); PushGuard (hh_getenv h); KillGuard (hh_getenv h);
    SubjectGuard (hh_ToLower h) (hh_ReadFile h) (hh_gitLines h); GateGuard (hh_root_of h) (hh_dev_of h) (hh_getenv h);
    RebaseGuard (hh_CurrentBranch h) ].

(** The first guard that denies. *)
Definition shell_decision (command cwd : gostring) : PreToolDecision :=
  default allow (List.find Deny ((fun g => g command cwd) <$> guard_list)).

Definition deny_path (p : Project) (target reason : gostring) : PreToolDecision := MkDecision true (Rel p target) reason.

Definition edit_decision (p : Project) (target : gostring) : PreToolDecision :=
  let reason := protectedReason (hh_EvalSymlinks h) (hh_Stat h) p target in
  if reason <>s "" then deny_path p target reason
  else
    let id := hh_getenv h EnvReview in
    let reason := if id <>s "" then reviewConfinement (hh_EvalSymlinks h) p id target else [] in
    if reason <>s "" then deny_path p target reason
    else
      let marker := hh_getenv h EnvDelegate in
      let reason := if marker <>s "" then delegateConfinement (hh_EvalSymlinks h) (hh_run_folder h) p marker target else [] in
      if reason <>s "" then deny_path p target reason
      else
        let rel := Rel p target in
        if inside rel && negb (filepath_IsAbs rel) && negb (notCode p rel) then
          match hh_LiveCheck h with
          | Some m => MkDecision true rel (checkRunningReason rel m)
          | None => allow
          end
        else allow.

(** PreTool; [tl_Cwd] is the call's directory, or the process's own. *)
Definition PreTool (c : ToolCall) : PreToolDecision :=
  if slices_Contains ShellTools (tl_Name c) then shell_decision (tl_Command c) (tl_Cwd c)
  else if negb (slices_Contains editTools (tl_Name c)) then allow
  else
    let target := if tl_FilePath c =s "" then tl_NotebookPath c else tl_FilePath c in
    if target =s "" then allow
    else
      let target := filepath_Clean (if filepath_IsAbs target then target else filepath_Join (tl_Cwd c) target) in
      match hh_project h (tl_Cwd c) with
      | None => allow
      | Some p => edit_decision p target
      end.
End pre_tool.
