(* ===== verification/EditFacts.v ===== *)
(** Theorems of pre-tool's decision on an edit, and of the search for the project's root. *)
From S2P Require Import Prelude Regex Markdown Spec Change Merge Effective Regression Roadmap State Command Lifecycle Shell Guards GuardFacts SubjectGuard Paths EditGuard.

(** ** Matching a fixed path *)

Lemma DecodeRune_slash s t r w : s <> [] -> "/"%byte ∉ s -> DecodeRune (s ++ "/"%byte :: t) = Some (r, w) -> r <> bz "/" /\ w <= length s.
Proof. by apply DecodeRune_sep. Qed.

(** A run of bytes without a slash, up to one. *)
Lemma mt_no_slash n : forall id t st, length id <= n -> "/"%byte ∉ id -> rest st = id ++ "/"%byte :: t ->
  exists st', mt (Star (Cls (cnot (one "/")))) st st' /\ rest st' = "/"%byte :: t.
Proof.
  induction n as [|n IH]; intros [|b id] t st Hn Hs Hr; cbn [length] in Hn; try lia; try (exists st; split; [constructor|done]).
  destruct (DecodeRune (rest st)) as [[r w]|] eqn:E; [|rewrite Hr in E; cbn [app DecodeRune] in E; by repeat case_match].
  assert (1 <= w) as Hw by (apply DecodeRune_width in E; lia).
  pose proof E as E'. rewrite Hr in E'. apply DecodeRune_slash in E' as [Hne Hl]; [|done|done].
  destruct (IH (drop w (b :: id)) t (advance w st)) as (st' & Hm & Hr').
  { rewrite length_drop. cbn [length]. lia. }
  { intros Hin. apply Hs. rewrite <- (take_drop w (b :: id)). apply elem_of_app. by right. }
  { unfold advance. cbn [rest]. rewrite Hr, drop_app_le by done. done. }
  exists st'. split; [|done]. apply (mt_star_cons _ _ (advance w st)); [|unfold advance; cbn [pos]; lia|exact Hm].
  apply (mt_cls _ _ r w); [done|]. unfold cnot, one. by apply negb_true_iff, Z.eqb_neq.
Qed.

Lemma stateJSON_matches id : id <> [] -> "/"%byte ∉ id -> MatchString stateJSONRe (bs "changes/" ++ id ++ "/state.json") = true.
Proof.
  intros Hne Hs. assert (forall s, forallb (fun b => (bz b <? 128)%Z) s = true -> Forall is_ascii s) as Ha
    by (intros s H; apply Forall_forall; intros b Hb; apply forallb_forall with (x := b) in H; [done|by apply list_elem_of_In]).
  destruct (mt_lit (bs "changes/")) with (st := start_of (bs "changes/" ++ id ++ "/state.json")) (t := id ++ "/state.json") as (s1 & H1 & R1); [by apply Ha|done|].
  destruct id as [|b id]; [done|].
  destruct (DecodeRune (rest s1)) as [[r w]|] eqn:E; [|rewrite R1 in E; cbn [app DecodeRune] in E; by repeat case_match].
  pose proof E as E'. rewrite R1 in E'. change (bs "/state.json") with ("/"%byte :: bs "state.json") in E'. apply DecodeRune_slash in E' as [Hn Hl]; [|done|done].
  assert (1 <= w) by (apply DecodeRune_width in E; lia).
  destruct (mt_no_slash (length (drop w (b :: id))) (drop w (b :: id)) (bs "state.json") (advance w s1)) as (s2 & H2 & R2); [done| | |].
  { intros Hin. apply Hs. rewrite <- (take_drop w (b :: id)). apply elem_of_app. by right. }
  { unfold advance. cbn [rest]. rewrite R1, drop_app_le by done. done. }
  destruct (mt_lit (bs "/state.json")) with (st := s2) (t := @nil byte) as (s3 & H3 & R3); [by apply Ha|by rewrite R2, app_nil_r|].
  apply (MatchString_mt _ _ s3). unfold stateJSONRe, cats. apply (mt_cat _ _ _ (start_of (bs "changes/" ++ (b :: id) ++ "/state.json"))); [by constructor|].
  apply (mt_cat _ _ _ s1); [done|]. apply (mt_cat _ _ _ s2).
  - apply (mt_cat _ _ _ (advance w s1)); [|done]. apply (mt_cls _ _ r w); [done|]. unfold cnot, one. by apply negb_true_iff, Z.eqb_neq.
  - apply (mt_cat _ _ _ s3); [done|]. constructor. unfold at_eol. by rewrite R3.
Qed.

(** ** What may be edited *)

Lemma inside_leaves rel : leaves rel <-> inside rel = false.
Proof.
  unfold leaves, inside. destruct (decide (rel = bs "..")) as [E|E]; [rewrite (bool_decide_true _ E); naive_solver|].
  rewrite (bool_decide_false _ E). cbn [negb andb]. rewrite negb_false_iff. naive_solver.
Qed.

Lemma inside_Join t : Forall good t -> inside (Join t "/") = true.
Proof. intros H. destruct (inside (Join t "/")) eqn:E; [done|]. apply inside_leaves in E. by apply Join_stays in E. Qed.

(** The relative path inside a folder: [.] for itself. *)
Definition rel_text (t : list gostring) : gostring := match t with [] => bs "." | _ => Join t "/" end.

Lemma inside_rel_text t : Forall good t -> inside (rel_text t) = true.
Proof. intros H. destruct t; [done|]. by apply inside_Join. Qed.

Definition under (d es : list gostring) : Prop := exists t, es = d ++ t.

(** The files only ape, or a person, writes: the standing orders, the session's settings,
    ape's own state, and in the development folder the specs, the archive and each
    change's state.json. [R] are the elements of the root, [D] of the development folder. *)
Definition zone (R D es : list gostring) : Prop :=
  under (R ++ [bs "_apex"; bs "standing-orders"]) es \/
  es = R ++ [bs ".claude"; bs "settings.json"] \/ es = R ++ [bs ".claude"; bs "settings.local.json"] \/
  under (R ++ [bs "_apex"; bs "state"]) es \/
  under (D ++ [bs "specs"]) es \/ under (D ++ [bs "archive"]) es \/ exists id, es = D ++ [bs "changes"; id; bs "state.json"].

Lemma good_lit e : bool_decide (e <> [] /\ ("/"%byte ∉ e) /\ e <> bs "." /\ e <> bs "..") = true -> good e.
Proof. intros H. by apply bool_decide_eq_true in H. Qed.

Ltac good_tac := repeat first [apply Forall_app; split | apply Forall_cons; split | apply Forall_nil; exact I | done | by apply good_lit; vm_compute].

Lemma app_ne {A} (a b : list A) : b <> [] -> a ++ b <> [].
Proof. by destruct a, b. Qed.

Lemma first_verdict_in {A} (f : A -> gostring) l x : x ∈ l -> f x <> [] -> first_verdict f l <> [].
Proof. intros Hin Hne H. rewrite first_verdict_None, Forall_forall in H. by apply Hne, H. Qed.

Lemma Rel_text b t : Forall good b -> Forall good t -> filepath_Rel (abs b) (abs (b ++ t)) = Some (rel_text t).
Proof. intros Hb Ht. by rewrite Rel_under. Qed.

Lemma good_under d es : Forall good es -> under d es -> exists t, es = d ++ t /\ Forall good d /\ Forall good t.
Proof. intros H [t ->]. apply Forall_app in H as [? ?]. eauto. Qed.

Section zones.
Context (EvalSymlinks : gostring -> option gostring) (Stat : gostring -> option bool).
Context (R D : list gostring) (HR : Forall good R) (HD : Forall good D).
Let p := MkProject (abs R) (Join D "/").

Lemma Dev_abs : Dev p = abs (R ++ D).
Proof. by apply Join_abs. Qed.

Lemma StateRel_text : StateRel p = bs "_apex/state".
Proof.
  unfold StateRel, Rel, StateDir. cbn [p_Root p]. change (bs "_apex/state") with (Join [bs "_apex"; bs "state"] "/").
  rewrite Join_abs by good_tac. by rewrite Rel_text by good_tac.
Qed.

Lemma orders_in R' es : Forall good R' -> Forall good es -> under (R' ++ [bs "_apex"; bs "standing-orders"]) es -> orders_reason (abs es) (abs R') <> [].
Proof.
  intros HR' Hes (t & -> & Hd & Ht)%good_under; [|done]. unfold orders_reason.
  change OrdersDirRel with (Join [bs "_apex"; bs "standing-orders"] "/"). rewrite Join_abs by good_tac.
  rewrite Rel_text, inside_rel_text by good_tac. discriminate.
Qed.

Lemma settings_in R' name : Forall good R' -> good name -> settings_reason p (abs R') (abs (R' ++ [bs ".claude"; name])) name <> [].
Proof.
  intros HR' Hn. unfold settings_reason. change (bs ".claude/" ++ name) with (Join [bs ".claude"; name] "/").
  rewrite Join_abs by good_tac. by rewrite bool_decide_true.
Qed.

Lemma state_in R' es : Forall good R' -> Forall good es -> under (R' ++ [bs "_apex"; bs "state"]) es ->
  state_reason p (filepath_Join (abs R') (StateRel p)) (abs es) <> [].
Proof.
  intros HR' Hes (t & -> & Hd & Ht)%good_under; [|done]. unfold state_reason. rewrite StateRel_text.
  change (bs "_apex/state") with (Join [bs "_apex"; bs "state"] "/") at 1. rewrite Join_abs by good_tac.
  rewrite Rel_text, inside_rel_text by good_tac. discriminate.
Qed.

Lemma dev_in D' es : Forall good D' -> Forall good es ->
  under (D' ++ [bs "specs"]) es \/ under (D' ++ [bs "archive"]) es \/ (exists id, es = D' ++ [bs "changes"; id; bs "state.json"]) ->
  dev_reason EvalSymlinks Stat p (abs D') (abs es) <> [].
Proof.
  intros HD' Hes Hz. assert (exists t, es = D' ++ t /\ t <> [] /\ Forall good t /\
    (Join t "/" = bs "specs" \/ HasPrefix (Join t "/") "specs/" = true \/ Join t "/" = bs "archive" \/ HasPrefix (Join t "/") "archive/" = true \/
     MatchString stateJSONRe (Join t "/") = true)) as (t & -> & Hne & Ht & Hj).
  { destruct Hz as [[t ->]|[[t ->]|[id ->]]].
    - exists (bs "specs" :: t). rewrite <- app_assoc in *. split; [done|]. split; [done|]. apply Forall_app in Hes as [_ Ht]. split; [done|].
      destruct t as [|e t]; [by left|]. right. left. rewrite Join_cons by done. reflexivity.
    - exists (bs "archive" :: t). rewrite <- app_assoc in *. split; [done|]. split; [done|]. apply Forall_app in Hes as [_ Ht]. split; [done|].
      right. right. destruct t as [|e t]; [by left|]. right. left. rewrite Join_cons by done. reflexivity.
    - exists [bs "changes"; id; bs "state.json"]. split; [done|]. split; [done|]. apply Forall_app in Hes as [_ Ht]. split; [done|].
      do 4 right. apply Forall_cons in Ht as [_ [Hid _]%Forall_cons]. apply (stateJSON_matches id); apply Hid. }
  unfold dev_reason. rewrite Rel_text by done. rewrite inside_rel_text by done. cbn [negb]. destruct t as [|e t]; [done|]. cbn [rel_text].
  set (j := Join (e :: t) "/") in *. destruct ((j =s "specs") || HasPrefix j "specs/") eqn:E1; [by apply app_ne|].
  destruct ((j =s "archive") || HasPrefix j "archive/") eqn:E2; [by apply app_ne|].
  rewrite orb_false_iff, bool_decide_eq_false in E1, E2. destruct (MatchString stateJSONRe j) eqn:E3; [by apply app_ne|].
  exfalso. destruct Hj as [?|[?|[?|[?|?]]]]; naive_solver congruence.
Qed.
End zones.

(** An edit: the call's target, however it is spelled, is the element [b] of the folder
    [ts], whose links lead to [T]; the root's links lead to [R'], the development
    folder's to [D']. *)
Record edits (h : HookHost) (c : ToolCall) (R D R' D' ts T : list gostring) (b : gostring) : Prop := MkEdits {
  ed_tool : tl_Name c ∈ editTools;
  ed_named : (if tl_FilePath c =s "" then tl_NotebookPath c else tl_FilePath c) <> [];
  ed_target : let f := if tl_FilePath c =s "" then tl_NotebookPath c else tl_FilePath c in
    filepath_Clean (if filepath_IsAbs f then f else filepath_Join (tl_Cwd c) f) = abs (ts ++ [b]);
  ed_project : hh_project h (tl_Cwd c) = Some (MkProject (abs R) (Join D "/"));
  ed_good : Forall good (R ++ D ++ R' ++ D' ++ ts ++ T ++ [b]);
  ed_root : hh_EvalSymlinks h (abs R) = Some (abs R');
  ed_dev : hh_EvalSymlinks h (abs (R ++ D)) = Some (abs D');
  ed_parent : hh_EvalSymlinks h (abs ts) = Some (abs T) }.

(** An edit in a folder that is not there yet: no link of the path is followed. *)
Record edits_new (h : HookHost) (c : ToolCall) (R D ts : list gostring) (b : gostring) : Prop := MkEditsNew {
  en_tool : tl_Name c ∈ editTools;
  en_named : (if tl_FilePath c =s "" then tl_NotebookPath c else tl_FilePath c) <> [];
  en_target : let f := if tl_FilePath c =s "" then tl_NotebookPath c else tl_FilePath c in
    filepath_Clean (if filepath_IsAbs f then f else filepath_Join (tl_Cwd c) f) = abs (ts ++ [b]);
  en_project : hh_project h (tl_Cwd c) = Some (MkProject (abs R) (Join D "/"));
  en_good : Forall good (R ++ D ++ ts ++ [b]);
  en_parent : hh_EvalSymlinks h (abs ts) = None }.

Lemma PreTool_named h c p t : tl_Name c ∈ editTools -> (if tl_FilePath c =s "" then tl_NotebookPath c else tl_FilePath c) <> [] ->
  (let f := if tl_FilePath c =s "" then tl_NotebookPath c else tl_FilePath c in filepath_Clean (if filepath_IsAbs f then f else filepath_Join (tl_Cwd c) f) = t) ->
  hh_project h (tl_Cwd c) = Some p -> PreTool h c = edit_decision h p t.
Proof.
  intros Ht Hn Hf Hp. unfold PreTool.
  assert (Forall (fun t => slices_Contains ShellTools t = false) editTools) as Hs by (repeat constructor).
  rewrite (proj1 (Forall_forall _ _) Hs _ Ht). unfold slices_Contains. rewrite bool_decide_true by done. cbn [negb].
  change (bs "") with (@nil byte) at 2. rewrite (bool_decide_false _ Hn). cbv zeta in Hf. rewrite Hf, Hp. done.
Qed.

Lemma PreTool_edit h c R D R' D' ts T b : edits h c R D R' D' ts T b ->
  PreTool h c = edit_decision h (MkProject (abs R) (Join D "/")) (abs (ts ++ [b])).
Proof. intros [Ht Hn Hf Hp _ _ _ _]. by apply PreTool_named. Qed.

(** protectedReason on an edit: the cases on the resolved target. *)
Lemma protectedReason_edit h c R D R' D' ts T b : edits h c R D R' D' ts T b ->
  let p := MkProject (abs R) (Join D "/") in
  protectedReason (hh_EvalSymlinks h) (hh_Stat h) p (abs (ts ++ [b])) =
  protected_at (hh_EvalSymlinks h) (hh_Stat h) p (abs R') (abs D') (filepath_Join (abs R') (StateRel p)) (abs (T ++ [b])).
Proof.
  intros [_ _ _ _ Hg Hr Hd Hp] p. rewrite !Forall_app in Hg. destruct Hg as (HR & HD & HR' & HD' & Hts & HT & Hb).
  unfold protectedReason, resolve. rewrite Dir_abs by (by apply Forall_app). rewrite Hp. subst p. rewrite Dev_abs by done. cbn [p_Root]. rewrite Hr, Hd.
  cbn [default from_option id]. rewrite Base_abs by (by rewrite Forall_singleton in Hb). change b with (Join [b] "/") at 1. by rewrite Join_abs.
Qed.

(** The cases find every file of the zones of [R'], the root without its links or as it is
    given. *)
Lemma protected_zone ES St R D R' D' root es : Forall good R -> Forall good D -> Forall good R' -> Forall good D' -> Forall good es ->
  root = abs R' \/ R' = R -> zone R' D' es ->
  protected_at ES St (MkProject (abs R) (Join D "/")) root (abs D') (filepath_Join (abs R') (StateRel (MkProject (abs R) (Join D "/")))) (abs es) <> [].
Proof.
  intros HR HD HR' HD' Hes Hroot Hz. unfold protected_at. set (w1 := first_verdict _ [root; _]).
  destruct (decide (w1 = [])) as [E1|E1]; [rewrite (bool_decide_true _ E1)|by rewrite (bool_decide_false _ E1)]. cbn [negb].
  set (w2 := first_verdict _ [bs "settings.json"; _]).
  destruct (decide (w2 = [])) as [E2|E2]; [rewrite (bool_decide_true _ E2)|by rewrite (bool_decide_false _ E2)]. cbn [negb].
  set (w3 := state_reason _ _ _). destruct (decide (w3 = [])) as [E3|E3]; [rewrite (bool_decide_true _ E3)|by rewrite (bool_decide_false _ E3)]. cbn [negb].
  assert (forall name, good name -> es = R' ++ [bs ".claude"; name] -> settings_reason (MkProject (abs R) (Join D "/")) root (abs es) name <> []) as Hset.
  { intros name Hn ->. destruct Hroot as [->| ->]; [by apply settings_in|]. unfold settings_reason. cbn [p_Root].
    change (bs ".claude/" ++ name) with (Join [bs ".claude"; name] "/"). rewrite (Join_abs R) by good_tac. rewrite (bool_decide_true (abs (R ++ [bs ".claude"; name]) = abs (R ++ [bs ".claude"; name]))) by done. by rewrite orb_true_r. }
  destruct Hz as [Hz|[Hz|[Hz|[Hz|Hz]]]].
  - exfalso. revert E1. apply (first_verdict_in _ _ (abs R')); [|by apply orders_in]. destruct Hroot as [->| ->]; [by left|by right; left].
  - exfalso. revert E2. apply (first_verdict_in _ _ (bs "settings.json")); [by left|]. apply Hset; [by apply good_lit; vm_compute|done].
  - exfalso. revert E2. apply (first_verdict_in _ _ (bs "settings.local.json")); [by right; left|]. apply Hset; [by apply good_lit; vm_compute|done].
  - exfalso. revert E3. by apply state_in.
  - by apply dev_in.
Qed.


(** ** What may *)

Lemma Rel_not_inside b t : Forall good b -> Forall good t -> ~ under b t ->
  exists rel, filepath_Rel (abs b) (abs t) = Some rel /\ inside rel = false.
Proof. intros Hb Ht Hn. destruct (Rel_outside b t Hb Ht Hn) as (rel & E & Hl%inside_leaves). eauto. Qed.

(** A file that is none of those, and no brief: the target's folder and the target itself
    are no further links. *)
Record free (h : HookHost) (R D R' D' T : list gostring) (b : gostring) : Prop := MkFree {
  fr_orders : ~ under (R' ++ [bs "_apex"; bs "standing-orders"]) (T ++ [b]) /\ ~ under (R ++ [bs "_apex"; bs "standing-orders"]) (T ++ [b]);
  fr_settings : forall name, name ∈ [bs "settings.json"; bs "settings.local.json"] -> T ++ [b] <> R' ++ [bs ".claude"; name] /\ T ++ [b] <> R ++ [bs ".claude"; name];
  fr_state : ~ under (R' ++ [bs "_apex"; bs "state"]) (T ++ [b]);
  fr_dev : ~ under D' (T ++ [b]) /\ ~ under (R ++ D ++ [bs "briefs"]) (T ++ [b]);
  fr_briefs : match hh_EvalSymlinks h (abs (R ++ D ++ [bs "briefs"])) with Some d => exists B, d = abs B /\ Forall good B /\ ~ under B (T ++ [b]) | None => True end;
  fr_folder : hh_EvalSymlinks h (abs T) = Some (abs T);
  fr_file : hh_EvalSymlinks h (abs (T ++ [b])) = None \/ hh_EvalSymlinks h (abs (T ++ [b])) = Some (abs (T ++ [b])) }.

Lemma briefReason_free h R D R' D' T b : Forall good (R ++ D ++ T ++ [b]) -> free h R D R' D' T b ->
  briefReason (hh_EvalSymlinks h) (hh_Stat h) (MkProject (abs R) (Join D "/")) (abs (T ++ [b])) = [].
Proof.
  intros Hg [_ _ _ [_ Hd] Hb Hf Hl]. rewrite !Forall_app in Hg. destruct Hg as (HR & HD & HT & Hbb). unfold briefReason.
  destruct (hh_Stat h _) as [[]|]; try done. unfold BriefsDir. rewrite Dev_abs by done.
  change (bs "briefs") with (Join [bs "briefs"] "/"). rewrite Join_abs by good_tac. rewrite <- app_assoc.
  assert (Forall good (T ++ [b])) as Hes by (by apply Forall_app). rewrite Dir_abs by done. rewrite Hf.
  assert (filepath_Join (abs T) (filepath_Base (abs (T ++ [b]))) = abs (T ++ [b])) as ->.
  { rewrite Base_abs by (by rewrite Forall_singleton in Hbb). change (filepath_Join (abs T) (Join [b] "/") = abs (T ++ [b])). by apply Join_abs. }
  set (es := T ++ [b]) in *. apply first_verdict_None.
  assert (forall p B, Forall good B -> ~ under B es ->
    first_verdict (brief_at p (abs B)) (abs es :: [abs es] ++ option_list (hh_EvalSymlinks h (abs es))) = []) as Hone.
  { intros p B HB HnB. apply first_verdict_None. destruct (Rel_not_inside B es HB Hes HnB) as (rel & E & Hi).
    assert (Forall (fun t => t = abs es) (abs es :: [abs es] ++ option_list (hh_EvalSymlinks h (abs es)))) as Ha
      by (destruct Hl as [->| ->]; repeat constructor).
    eapply Forall_impl; [exact Ha|]. intros t ->. unfold brief_at. rewrite E, Hi. by rewrite orb_true_r. }
  apply Forall_cons. split; [by apply Hone; [good_tac|]|]. destruct (hh_EvalSymlinks h (abs (R ++ D ++ _))) as [d|]; [|constructor].
  destruct (_ <>s _); [|constructor]. apply Forall_singleton. destruct Hb as (B & -> & HB & HnB). by apply Hone.
Qed.

(** An edit of any other file of the project, or outside it, is allowed to a session
    that is no review and no delegate, while no check runs: code, plans, notes and a new
    brief are not in ape's way. *)
Theorem edit_allowed h c R D R' D' ts T b :
  edits h c R D R' D' ts T b -> free h R D R' D' T b ->
  hh_getenv h EnvReview = [] -> hh_getenv h EnvDelegate = [] -> hh_LiveCheck h = None -> PreTool h c = allow.
Proof.
  intros He Hfr Hrev Hdel Hlive. rewrite (PreTool_edit _ _ _ _ _ _ _ _ _ He). unfold edit_decision. rewrite (protectedReason_edit _ _ _ _ _ _ _ _ _ He).
  destruct He as [_ _ _ _ Hg _ _ _]. rewrite !Forall_app in Hg. destruct Hg as (HR & HD & HR' & HD' & _ & HT & Hb).
  assert (Forall good (T ++ [b])) as Hes by (by apply Forall_app).
  assert (briefReason (hh_EvalSymlinks h) (hh_Stat h) (MkProject (abs R) (Join D "/")) (abs (T ++ [b])) = []) as Hbr
    by (apply (briefReason_free h R D R' D'); [by rewrite !Forall_app|done]).
  destruct Hfr as [[Ho1 Ho2] Hse Hst [Hdv _] _ _ _].
  assert (protected_at (hh_EvalSymlinks h) (hh_Stat h) (MkProject (abs R) (Join D "/")) (abs R') (abs D')
    (filepath_Join (abs R') (StateRel (MkProject (abs R) (Join D "/")))) (abs (T ++ [b])) = []) as ->.
  { unfold protected_at. rewrite (proj2 (first_verdict_None _ _)), (proj2 (first_verdict_None _ _)).
    - change (bs "") with (@nil byte). rewrite !(bool_decide_true (@nil byte = [])) by done. cbn [negb]. unfold state_reason. rewrite StateRel_text by done.
      change (bs "_apex/state") with (Join [bs "_apex"; bs "state"] "/"). rewrite Join_abs by good_tac.
      destruct (Rel_not_inside (R' ++ [bs "_apex"; bs "state"]) (T ++ [b])) as (rel & -> & ->); [good_tac|done|done|].
      rewrite bool_decide_true by done. cbn [negb]. unfold dev_reason. destruct (Rel_not_inside D' (T ++ [b])) as (rel' & -> & ->); [done..|]. exact Hbr.
    - apply Forall_forall. intros name Hn. destruct (Hse name Hn) as [H1 H2].
      assert (good name) as Hgn.
      { assert (Forall good [bs "settings.json"; bs "settings.local.json"]) as Ha by good_tac. by apply (proj1 (Forall_forall _ _) Ha). }
      unfold settings_reason. cbn [p_Root]. change (bs ".claude/" ++ name) with (Join [bs ".claude"; name] "/"). rewrite !Join_abs by good_tac.
      rewrite !bool_decide_false by (intros E%abs_inj; [done|done|good_tac]). done.
    - assert (forall X, Forall good X -> ~ under (X ++ [bs "_apex"; bs "standing-orders"]) (T ++ [b]) -> orders_reason (abs (T ++ [b])) (abs X) = []) as Hor.
      { intros X HX Hn. unfold orders_reason. change OrdersDirRel with (Join [bs "_apex"; bs "standing-orders"] "/"). rewrite Join_abs by good_tac.
        destruct (Rel_not_inside (X ++ [bs "_apex"; bs "standing-orders"]) (T ++ [b])) as (rel & -> & ->); [good_tac|done|done|done]. }
      cbn [p_Root]. repeat constructor; by apply Hor. }
  rewrite Hrev, Hdel, Hlive. change (bs "") with (@nil byte). rewrite !(bool_decide_true (@nil byte = [])) by done. cbn [negb].
  by destruct (_ && _).
Qed.

(** ** The root *)

Section root.
Context (fileExists dirExists : gostring -> bool).

(** [a] is the nearest folder from [es] up for which [P] holds, or there is none. *)
Definition nearest (P : gostring -> bool) (es a : list gostring) : Prop :=
  P (abs a) = true /\ exists z, es = a ++ z /\ forall z1 z2, z = z1 ++ z2 -> z1 <> [] -> P (abs (a ++ z1)) = false.
Definition nowhere (P : gostring -> bool) (es : list gostring) : Prop := forall a z, es = a ++ z -> P (abs a) = false.

Lemma nearest_up P es e a : P (abs (es ++ [e])) = false -> nearest P es a -> nearest P (es ++ [e]) a.
Proof.
  intros Hf (Ha & z & -> & Hz). split; [done|]. exists (z ++ [e]). split; [by rewrite app_assoc|]. intros z1 z2 Heq Hne.
  destruct z2 as [|x z2 _] using rev_ind; [rewrite app_nil_r in Heq; subst z1; by rewrite app_assoc|].
  rewrite app_assoc in Heq. apply app_inj_tail in Heq as [Heq _]. by apply (Hz z1 z2).
Qed.

Lemma nearest_here P es : P (abs es) = true -> nearest P es es.
Proof. intros H. split; [done|]. exists []. split; [by rewrite app_nil_r|]. by intros [] [] ? ?. Qed.

Lemma nowhere_up P es e : P (abs (es ++ [e])) = false -> nowhere P es -> nowhere P (es ++ [e]).
Proof.
  intros Hf Hn a z Heq. destruct z as [|x z _] using rev_ind; [rewrite app_nil_r in Heq; by subst a|].
  rewrite app_assoc in Heq. apply app_inj_tail in Heq as [Heq _]. by apply (Hn a z).
Qed.

Lemma nowhere_root P : P (abs []) = false -> nowhere P [].
Proof. intros H a z Heq. symmetry in Heq. apply app_eq_nil in Heq as [-> _]. done. Qed.

(** The walk: with fuel for each element, it ends at the nearest marked folder, or has
    passed the nearest git one. *)
Definition walked (es : list gostring) (gitTop : gostring) (r : gostring + gostring) : Prop :=
  match r with
  | inl root => exists a, root = abs a /\ nearest (marked_root fileExists dirExists) es a
  | inr g => nowhere (marked_root fileExists dirExists) es /\
      (gitTop <> [] -> g = gitTop) /\
      (gitTop = [] -> (exists a, g = abs a /\ nearest (git_root fileExists dirExists) es a) \/ (g = [] /\ nowhere (git_root fileExists dirExists) es))
  end.

Lemma find_root_walk es : Forall good es -> forall fuel gitTop, length es < fuel ->
  exists r, find_root fileExists dirExists fuel gitTop (abs es) = Some r /\ walked es gitTop r.
Proof.
  set (P := marked_root fileExists dirExists). set (G := git_root fileExists dirExists).
  induction es as [|e es IH] using rev_ind; intros Hg [|fuel] gitTop Hf; try lia; cbn [find_root]; fold P G.
  - destruct (P (abs [])) eqn:Em; [eexists; split; [done|]; exists []; split; [done|]; by apply nearest_here|].
    change (filepath_Dir (abs [])) with (abs []). rewrite bool_decide_true by done. eexists. split; [done|]. split; [by apply nowhere_root|].
    split; intros Hgt.
    + by rewrite (bool_decide_false _ Hgt).
    + subst gitTop. cbn [andb]. change (bool_decide (@nil byte = bs "")) with true. cbn [andb].
      destruct (G (abs [])) eqn:Eg; [left; exists []; split; [done|by apply nearest_here]|right; split; [done|by apply nowhere_root]].
  - rewrite length_app in Hf. cbn [length] in Hf. destruct (P (abs (es ++ [e]))) eqn:Em; [eexists; split; [done|]; exists (es ++ [e]); split; [done|]; by apply nearest_here|].
    rewrite Dir_abs by done. rewrite bool_decide_false.
    2: { intros E%abs_inj; [|by apply Forall_app in Hg as [? _]|done]. apply (f_equal length) in E. rewrite length_app in E. cbn in E. lia. }
    set (gt := if _ && _ then _ else _). apply Forall_app in Hg as [Hg _]. destruct (IH Hg fuel gt) as (r & Hr & Hw); [lia|].
    exists r. split; [done|]. destruct r as [root|g].
    + destruct Hw as (a & -> & Hn). exists a. split; [done|]. by apply nearest_up.
    + destruct Hw as (Hn & H1 & H2). split; [by apply nowhere_up|]. split; intros Hgt.
      * assert (gt = gitTop) as E by (unfold gt; by rewrite (bool_decide_false (gitTop = bs "") Hgt)). rewrite E in H1. by apply H1.
      * subst gitTop gt. change (bool_decide (@nil byte = bs "")) with true in *. cbn [andb] in *.
        destruct (G (abs (es ++ [e]))) eqn:Eg; [left; exists (es ++ [e]); split; [by apply H1|by apply nearest_here]|].
        destruct (H2 eq_refl) as [(a & -> & Ha)|[-> Ha]]; [left; exists a; split; [done|by apply nearest_up]|right; split; [done|by apply nowhere_up]].
Qed.

Lemma length_abs es : Forall good es -> length es < S (length (abs es)).
Proof.
  intros Hes. unfold abs. rewrite length_app. assert (length es <= length (Join es "/")) as Hj; [|lia]. induction Hes as [|x l (Hx & _) _ IH]; [done|].
  destruct l as [|y l]; [destruct x; [done|]; cbn; lia|]. rewrite Join_cons by done. rewrite !length_app. change (length (bs "/")) with 1. cbn [length] in *. lia.
Qed.

(** C39: The search for a project's root ends, for every directory, at the nearest folder
    on the way up that ape marked, else at the nearest that git did, else where it began. *)
Theorem FindRoot_ends dir : filepath_IsAbs dir = true ->
  exists es a, filepath_Clean dir = abs es /\ FindRoot fileExists dirExists dir = Some (abs a) /\
    (nearest (marked_root fileExists dirExists) es a \/
     nowhere (marked_root fileExists dirExists) es /\
       (nearest (git_root fileExists dirExists) es a \/ nowhere (git_root fileExists dirExists) es /\ a = es)).
Proof.
  intros Ha. apply Clean_is_abs in Ha as (es & Hes & E). exists es. unfold FindRoot. rewrite E.
  pose proof (length_abs es Hes) as Hl.
  destruct (find_root_walk es Hes (S (length (abs es))) [] Hl) as (r & -> & Hw). destruct r as [root|g].
  - destruct Hw as (a & -> & Hn). exists a. split; [done|]. split; [done|]. by left.
  - destruct Hw as (Hn & _ & Hg). destruct (Hg eq_refl) as [(a & -> & Hna)|[-> Hnn]].
    + exists a. split; [done|]. rewrite bool_decide_false by discriminate. split; [done|]. right. split; [done|]. by left.
    + exists es. split; [done|]. split; [done|]. right. split; [done|]. by right.
Qed.
End root.

(** ** Witnesses *)

Module Sample.
(** /home/me/proj is a link to /srv/proj; its specs folder is reached by a link too. *)
Definition links (path : gostring) : option gostring :=
  if path =s "/home/me/proj" then Some (bs "/srv/proj")
  else if path =s "/home/me/proj/development" then Some (bs "/srv/proj/development")
  else if path =s "/home/me/proj/docs" then Some (bs "/srv/proj/development/specs")
  else if path =s "/home/me/proj/src" then Some (bs "/srv/proj/src")
  else if path =s "/srv/proj/src" then Some path
  else None.
Definition host : HookHost :=
  MkHookHost (fun _ => []) (fun _ _ => false) (fun _ => []) (fun s => s) (fun _ => None) (fun _ _ => []) (fun _ => bs "/home/me/proj") (fun _ => bs "development")
    links (fun _ => Some false) (fun _ => Some (MkProject "/home/me/proj" "development")) (fun _ _ => None) None.
Definition call (path : gostring) : ToolCall := MkToolCall "Edit" [] path [] "/home/me/proj/src".
Definition root : list gostring := [bs "home"; bs "me"; bs "proj"].
Definition real : list gostring := [bs "srv"; bs "proj"].

Lemma edits_spec : edits host (call "../docs//./auth.md") root [bs "development"] real (real ++ [bs "development"]) (root ++ [bs "docs"])
  (real ++ [bs "development"; bs "specs"]) "auth.md".
Proof.
  constructor; try (vm_compute; reflexivity); try (vm_compute; discriminate).
  - by left.
  - repeat constructor; by apply good_lit.
Qed.

Lemma edits_code : edits host (call "main.go") root [bs "development"] real (real ++ [bs "development"]) (root ++ [bs "src"]) (real ++ [bs "src"]) "main.go".
Proof.
  constructor; try (vm_compute; reflexivity); try (vm_compute; discriminate).
  - by left.
  - repeat constructor; by apply good_lit.
Qed.
End Sample.


(** In a folder that is not there yet, an edit of the specs spelled as such is denied, and
    one through the link that leads to them is let through: the links of a path are
    followed only where its folder exists. *)
Theorem new_folder_let_through :
  Deny (PreTool Sample.host (Sample.call "../development/specs/new/x.md")) = true /\
  hh_EvalSymlinks Sample.host "/home/me/proj/docs" = Some (bs "/srv/proj/development/specs") /\
  PreTool Sample.host (Sample.call "../docs/new/x.md") = allow.
Proof. vm_compute. split_and!; reflexivity. Qed.

Lemma edit_allowed_witness : PreTool Sample.host (Sample.call "main.go") = allow.
Proof.
  apply (edit_allowed _ _ _ _ _ _ _ _ _ Sample.edits_code); try (vm_compute; reflexivity). constructor.
  - split; intros [t H]; vm_compute in H; discriminate H.
  - intros name Hn. split; intros H; vm_compute in H; discriminate H.
  - intros [t H]. vm_compute in H. discriminate H.
  - split; intros [t H]; vm_compute in H; discriminate H.
  - vm_compute. exact I.
  - vm_compute. reflexivity.
  - left. vm_compute. reflexivity.
Defined.

(** Only /srv/proj is marked. *)
Lemma FindRoot_ends_witness :
  FindRoot (fun f => f =s "/srv/proj/_apex/config.yaml") (fun _ => false) "/srv/proj/src/../cmd" = Some (bs "/srv/proj") /\
  exists a, FindRoot (fun f => f =s "/srv/proj/_apex/config.yaml") (fun _ => false) "/srv/proj/src/../cmd" = Some (abs a).
Proof.
  split; [vm_compute; reflexivity|].
  destruct (FindRoot_ends (fun f => f =s "/srv/proj/_apex/config.yaml") (fun _ => false) "/srv/proj/src/../cmd") as (es & a & _ & H & _); [reflexivity|].
  exists a. exact H.
Defined.
