(* ===== verification/StopHook.v ===== *)
(** The stop hook of internal/apexv1/hooks.go with the last verify's record of
    lastverify.go: when a session may end its turn, and what it is told to do first. *)
From S2P Require Import Prelude Regex Markdown TestCounts Spec Change Merge Effective Regression Roadmap Runner State Shell Command Lifecycle PersonMatch PersonGrants.

Local Open Scope Z_scope.

(** ** The last verify *)

(** Durations are nanoseconds. *)
Record LastCheck := MkLastCheck { lc_Exit : Z; lc_Reason : gostring; lc_Detail : gostring; lc_Tail : list gostring }.
Record LastVerify := MkLastVerify {
  lv_SHA : gostring; lv_At : gostring; lv_PlanDigest : gostring; lv_Green : bool; lv_Red : gmap gostring gostring;
  lv_Failing : list gostring; lv_Flaky : list gostring; lv_Secs : gmap gostring Z; lv_RedChecks : gmap gostring LastCheck }.

(** saveLastVerify: the record of a verify's results, each with how long it ran. *)
Definition lv_add (lv : LastVerify) (rt : CheckResult * Z) : LastVerify :=
  let '(r, t) := rt in
  let red := Red r in
  MkLastVerify (lv_SHA lv) (lv_At lv) (lv_PlanDigest lv) (lv_Green lv)
    (if red then <[cr_Task r := cr_Cmd r]> (lv_Red lv) else lv_Red lv)
    (if red then lv_Failing lv ++ [cr_Task r ++ " (" ++ Outcome r ++ ")"] else lv_Failing lv)
    (if cr_Flaky r then lv_Flaky lv ++ [cr_Task r] else lv_Flaky lv)
    (<[cr_Task r := t]> (lv_Secs lv))
    (if red then <[cr_Task r := MkLastCheck (cr_Exit r) (cr_Reason r) (cr_Detail r) (lastN (cr_Tail r) 15)]> (lv_RedChecks lv) else lv_RedChecks lv).
Definition saveLastVerify (sha at_ digest : gostring) (green : bool) (results : list (CheckResult * Z)) : LastVerify :=
  foldl lv_add (MkLastVerify sha at_ digest green ∅ [] [] ∅ ∅) results.

(** stopChecks, with the effective checks and the regression command of the project. *)
Definition stopChecks (lv : option LastVerify) (digest : gostring) (doc : Change) (planned : list PlannedCheck) (regression : gostring)
    : list PlannedCheck * bool :=
  match lv with
  | Some lv =>
      if lv_PlanDigest lv <>s digest then (task_check <$> CommandTasks doc, false)
      else if bool_decide (lv_Red lv = ∅) then ([], true)
      else
        let checks := List.filter (fun pc => bool_decide (is_Some (lv_Red lv !! pc_Ref pc))) planned ++
                      (if bool_decide (is_Some (lv_Red lv !! regressionRef)) && (regression <>s "") then [regression_check regression] else []) in
        (checks, bool_decide (checks = []))
  | None => (task_check <$> CommandTasks doc, false)
  end.

(** ** Running them within the hook's budget *)

Definition second : Z := 10 ^ 9.
Definition StopCheckBudget : Z := 60 * second.
Definition StopRunBudget : Z := 600 * second.

Section stop_run.
(** The ceiling of a kind of check, the commit at HEAD, and what a run of one check
    under a limit gives, with how long it took. *)
Context (ceiling : CheckKind -> Z) (head : gostring) (exec : nat -> Z -> PlannedCheck -> CheckResult) (interrupted : nat -> bool)
  (took : nat -> Z -> PlannedCheck -> Z).

(** RunChecks of one check. *)
Definition run_one (i : nat) (limit : Z) (pc : PlannedCheck) : CheckResult :=
  match fst (RunChecks (exec i limit) (fun _ => interrupted i) [pc]) with r :: _ => r | [] => interruptedResult (pc_Cmd pc) end.

(** What the hook found: the checks run, the red ones taken from the last verify, those
    it cannot judge; and the limits and times of its runs. *)
Record Found := MkFound { fo_ran : list CheckResult; fo_judged : list CheckResult; fo_unknown : list PlannedCheck; fo_runs : list (Z * Z) }.

Definition judged_result (lv : LastVerify) (pc : PlannedCheck) (c : LastCheck) : CheckResult :=
  MkResult (pc_Ref pc) (Some (pc_Kind pc)) [] [] [] false (pc_Cmd pc) (lc_Exit c) (lc_Tail c) (lc_Reason c) (lc_Detail c) false 0 false [] None [] [] [].

(** A check too long to run here. *)
Definition over (lv : option LastVerify) (pc : PlannedCheck) (f : Found) : Found :=
  match lv with
  | Some v =>
      if lv_SHA v =s head then
        match lv_RedChecks v !! pc_Ref pc with
        | Some c => MkFound (fo_ran f) (fo_judged f ++ [judged_result v pc c]) (fo_unknown f) (fo_runs f)
        | None => MkFound (fo_ran f) (fo_judged f) (fo_unknown f ++ [pc]) (fo_runs f)
        end
      else MkFound (fo_ran f) (fo_judged f) (fo_unknown f ++ [pc]) (fo_runs f)
  | None => MkFound (fo_ran f) (fo_judged f) (fo_unknown f ++ [pc]) (fo_runs f)
  end.

Definition restamp (pc : PlannedCheck) (r : CheckResult) : CheckResult :=
  MkResult (pc_Ref pc) (Some (pc_Kind pc)) (cr_Capability r) (cr_Requirement r) (cr_Scenario r) (cr_Delta r) (cr_Cmd r) (cr_Exit r) (cr_Tail r)
    (cr_Reason r) (cr_Detail r) (cr_PreExistingRed r) (cr_Tries r) (cr_Flaky r) (cr_StrayFiles r) (cr_Tests r) (cr_Skip r) (cr_ShellNote r) (cr_Leftovers r).

Definition add_ran (r : CheckResult) (f : Found) : Found := MkFound (fo_ran f ++ [r]) (fo_judged f) (fo_unknown f) (fo_runs f).

(** stopRun's loop: [remaining] of the hook's budget, [done] the results by command. *)
Fixpoint stop_loop (lv : option LastVerify) (i : nat) (remaining : Z) (done : gmap gostring CheckResult) (checks : list PlannedCheck) (f : Found) : Found :=
  match checks with
  | [] => f
  | pc :: checks' =>
      let limit := Z.min (Z.min StopCheckBudget (ceiling KindTask)) remaining in
      match done !! pc_Cmd pc with
      | Some r => stop_loop lv (S i) remaining done checks' (add_ran (restamp pc r) f)
      | None =>
          if match lv ≫= (fun lv => lv_Secs lv !! pc_Ref pc) with Some secs => limit <? secs | None => false end
          then stop_loop lv (S i) remaining done checks' (over lv pc f)
          else if limit <? second then stop_loop lv (S i) remaining done checks' (over lv pc f)
          else
            let r := run_one i limit pc in
            let f := MkFound (fo_ran f) (fo_judged f) (fo_unknown f) (fo_runs f ++ [(limit, took i limit pc)]) in
            let remaining := remaining - took i limit pc in
            if (cr_Reason r =s ReasonCeiling) && (limit <? ceiling (pc_Kind pc))
            then stop_loop lv (S i) remaining done checks' (over lv pc f)
            else stop_loop lv (S i) remaining (<[pc_Cmd pc := r]> done) checks' (add_ran r f)
      end
  end.

(** stopRun *)
Definition stopRun (lv : option LastVerify) (digest : gostring) (checks : list PlannedCheck) : Found :=
  let lv := match lv with Some v => if lv_PlanDigest v <>s digest then None else Some v | None => None end in
  stop_loop lv 0 StopRunBudget ∅ checks (MkFound [] [] [] []).
End stop_run.

(** ** The hook *)

Definition MaxConsecutiveStopBlocks : Z := 3.

Inductive StopVerdict := StopPending | StopAllow | StopBlock.

(** Why the hook decided as it did. *)
Inductive StopWhy :=
| Undecided | AfterBlocks (n : Z) | AfterBlocksBackground (n : Z) | BackgroundRunning (labels : list gostring) (n : Z)
| NotOnChange | ChangeNotOpen (status : option Status) | NotApeSession | NothingWasRed | AllGreen
| RedChecks (red judged : list CheckResult) (unknown : list PlannedCheck) (n : Z).

Record StopRecord := MkStop {
  sr_SessionID : gostring; sr_AgentID : gostring; sr_Event : gostring; sr_StartedAt : gostring; sr_FinishedAt : gostring;
  sr_Verdict : StopVerdict; sr_Change : gostring; sr_ConsecutiveBlocks : Z; sr_Why : StopWhy; sr_Background : list gostring }.

(** What the person is told, when the stop is allowed. *)
Inductive StopNotice := NoticeBackground (labels : list gostring) | NoticeLastVerify (lv : LastVerify).

Record StopDecision := MkStopDecision { sd_Block : bool; sd_Notice : list StopNotice; sd_Record : option StopRecord }.

(** What the hook is told. *)
Record BackgroundTask := MkTaskInfo { bt_ID : gostring; bt_Type : gostring; bt_Status : gostring; bt_Description : gostring; bt_AgentType : gostring }.
Record StopPayload := MkStopPayload {
  sp_SessionID : gostring; sp_HookEventName : gostring; sp_AgentID : gostring; sp_StopHookActive : bool; sp_BackgroundTasks : option (list BackgroundTask) }.

(** The files of _apex/state/hooks: the records, and the main sessions' logs. *)
Record StopWorld := MkStopWorld { sw_records : gmap gostring StopRecord; sw_logs : gmap gostring (list StopRecord) }.

(** truncate: on one line, of at most [n] runes. *)
Definition truncate (s : gostring) (n : nat) : gostring :=
  let s := ReplaceAll s [nl] " " in
  if Nat.leb (length (runes s)) n then s else encode (take (n - 1) (runes s)) ++ "…".

Definition stopRecordPath (sessionID agentID : gostring) : gostring :=
  let key := sanitizeKey sessionID in
  let key := if key =s "" then bs "no-session" else key in
  (if agentID <>s "" then key ++ "-" ++ sanitizeKey agentID else key) ++ ".json".
Definition stopLogPath (sessionID : gostring) : gostring := TrimSuffix (stopRecordPath sessionID []) ".json" ++ ".jsonl".

(** The hook's own files: whether the last record is read, and whether each write - of the
    record and of the log, when it starts and when it decides - succeeds. *)
Record StopFiles := MkStopFiles { sf_read : bool; sf_saved0 : bool; sf_logged0 : bool; sf_saved : bool; sf_logged : bool }.

(** What the hook finds in the project when it runs. *)
Record StopEnv := MkStopEnv {
  se_v1 : bool; se_apeSession : bool; se_started : gostring; se_finished : gostring;
  se_HeadChange : gostring; se_State : option State; se_Doc : option Change; se_lastVerify : option LastVerify;
  se_planned : list PlannedCheck; se_regression : gostring; se_head : gostring;
  se_ceiling : CheckKind -> Z; se_exec : nat -> Z -> PlannedCheck -> CheckResult; se_interrupted : nat -> bool;
  se_took : nat -> Z -> PlannedCheck -> Z; se_output : CheckResult -> gostring;
  se_files : StopFiles }.

Section hook.
(** fmt's %q *)
Context (Quote : gostring -> gostring).

Definition Label (t : BackgroundTask) : gostring :=
  bt_Type t ++ (if bt_ID t <>s "" then bs " " ++ bt_ID t else []) ++ (if bt_AgentType t <>s "" then bs " (" ++ bt_AgentType t ++ ")" else []) ++
  (if bt_Description t <>s "" then bs " — " ++ Quote (bt_Description t) else []) ++ (if bt_Status t <>s "" then bs " [" ++ bt_Status t ++ "]" else []).

Definition backgroundLabels (tasks : list BackgroundTask) : list gostring := limit ((fun t => truncate (Label t) 200) <$> tasks) 10.

(** stopNotice *)
Definition stopNotice (lv : option LastVerify) (st : State) : list StopNotice :=
  match lv with
  | Some lv => if (lv_PlanDigest lv <>s st_PlanDigest st) || bool_decide (lv_Red lv = ∅) then [] else [NoticeLastVerify lv]
  | None => []
  end.

Definition stop_event (p : StopPayload) : gostring := if sp_HookEventName p =s "" then bs "Stop" else sp_HookEventName p.
Definition stop_agent (p : StopPayload) : gostring :=
  if stop_event p =s "SubagentStop" then (if sp_AgentID p =s "" then bs "subagent" else sp_AgentID p) else [].
Definition stop_key (p : StopPayload) : gostring := stopRecordPath (sp_SessionID p) (stop_agent p).

(** A decided record. *)
Definition decided (rec : StopRecord) (v : StopVerdict) (change : gostring) (blocks : Z) (why : StopWhy) : StopRecord :=
  MkStop (sr_SessionID rec) (sr_AgentID rec) (sr_Event rec) (sr_StartedAt rec) (sr_FinishedAt rec) v change blocks why (sr_Background rec).

(** The red checks of a run, the regression command judged against its baseline. *)
Definition red_of (e : StopEnv) (st : State) (ran : list CheckResult) : list CheckResult :=
  List.filter Red ((fun r => if bool_decide (cr_Kind r = Some KindRegression) then snd (judgeRegression r (st_Regression st) (se_output e r)) else r) <$> ran).

(** The verdict on the change checked out. *)
Definition stop_change (e : StopEnv) (rec : StopRecord) : bool * list StopNotice * StopRecord :=
  let n := sr_ConsecutiveBlocks rec in
  let id := se_HeadChange e in
  if id =s "" then (false, [], decided rec StopAllow [] 0 NotOnChange)
  else
    match se_State e, se_Doc e with
    | Some st, Some doc =>
        if negb (bool_decide (st_Status st = StatusInProgress)) then (false, [], decided rec StopAllow id 0 (ChangeNotOpen (Some (st_Status st))))
        else if negb (se_apeSession e) then (false, stopNotice (se_lastVerify e) st, decided rec StopAllow id 0 NotApeSession)
        else if MaxConsecutiveStopBlocks <=? n then (false, [], decided rec StopAllow id 0 (AfterBlocks n))
        else
          let '(checks, nothingRed) := stopChecks (se_lastVerify e) (st_PlanDigest st) doc (se_planned e) (se_regression e) in
          if nothingRed then (false, [], decided rec StopAllow id 0 NothingWasRed)
          else
            let f := stopRun (se_ceiling e) (se_head e) (se_exec e) (se_interrupted e) (se_took e) (se_lastVerify e) (st_PlanDigest st) checks in
            let red := red_of e st (fo_ran f) in
            if bool_decide (red = []) && bool_decide (fo_judged f = []) && bool_decide (fo_unknown f = [])
            then (false, [], decided rec StopAllow id 0 AllGreen)
            else (true, [], decided rec StopBlock id (n + 1) (RedChecks red (fo_judged f) (fo_unknown f) (n + 1)))
    | st, _ => (false, [], decided rec StopAllow id 0 (ChangeNotOpen (st_Status <$> st)))
    end.

(** The verdict, background work first. *)
Definition stop_verdict (e : StopEnv) (p : StopPayload) (rec : StopRecord) : bool * list StopNotice * StopRecord :=
  let n := sr_ConsecutiveBlocks rec in
  match sp_BackgroundTasks p with
  | Some ((_ :: _) as tasks) =>
      if stop_agent p =s "" then
        let rec := MkStop (sr_SessionID rec) (sr_AgentID rec) (sr_Event rec) (sr_StartedAt rec) (sr_FinishedAt rec) (sr_Verdict rec) (sr_Change rec) n
                     (sr_Why rec) (backgroundLabels tasks) in
        if negb (se_apeSession e) then
          let '(block, notice, rec) := stop_change e rec in (block, NoticeBackground (sr_Background rec) :: notice, rec)
        else if MaxConsecutiveStopBlocks <=? n then (false, [], decided rec StopAllow [] 0 (AfterBlocksBackground n))
        else (true, [], decided rec StopBlock [] (n + 1) (BackgroundRunning (sr_Background rec) (n + 1)))
      else stop_change e rec
  | _ => stop_change e rec
  end.

(** saveStopRecord, appendStopLog: a write that fails is passed over. *)
Definition save_stop (saved logged : bool) (p : StopPayload) (rec : StopRecord) (w : StopWorld) : StopWorld :=
  let log := stopLogPath (sp_SessionID p) in
  MkStopWorld (if saved then <[stop_key p := rec]> (sw_records w) else sw_records w)
    (if (stop_agent p =s "") && logged then <[log := default [] (sw_logs w !! log) ++ [rec]]> (sw_logs w) else sw_logs w).

(** loadStopRecord's count. *)
Definition prev_blocks (e : StopEnv) (p : StopPayload) (w : StopWorld) : Z :=
  if sf_read (se_files e) then match sw_records w !! stop_key p with Some r => sr_ConsecutiveBlocks r | None => 0 end else 0.

(** StopHook *)
Definition StopHook (e : StopEnv) (p : StopPayload) (w : StopWorld) : StopWorld * StopDecision :=
  if negb (se_v1 e) then (w, MkStopDecision false [] None)
  else
    let f := se_files e in
    let rec := MkStop (sp_SessionID p) (sp_AgentID p) (stop_event p) (se_started e) [] StopPending []
                 (if sp_StopHookActive p then prev_blocks e p w else 0) Undecided [] in
    let w := save_stop (sf_saved0 f) (sf_logged0 f) p rec w in
    let '(block, notice, rec) := stop_verdict e p rec in
    let rec := MkStop (sr_SessionID rec) (sr_AgentID rec) (sr_Event rec) (sr_StartedAt rec) (se_finished e) (sr_Verdict rec) (sr_Change rec)
                 (sr_ConsecutiveBlocks rec) (sr_Why rec) (sr_Background rec) in
    (save_stop (sf_saved f) (sf_logged f) p rec w, MkStopDecision block notice (Some rec)).
End hook.

(** ** Reading the log back *)

(** readStopLog: one record per hook run, a later line of the run in place of its first. *)
Fixpoint replace_run (r : StopRecord) (out : list StopRecord) : option (list StopRecord) :=
  match out with
  | [] => None
  | x :: out' => if sr_StartedAt x =s sr_StartedAt r then Some (r :: out') else cons x <$> replace_run r out'
  end.
Definition log_step (out : list StopRecord) (r : StopRecord) : list StopRecord :=
  if sr_StartedAt r =s "" then out else match replace_run r out with Some out' => out' | None => out ++ [r] end.
Definition readStopLog (lines : list StopRecord) : list StopRecord := foldl log_step [] lines.

(** WaitStopVerdict's look at the log: [started] parses a stamp, in nanoseconds. The
    verdict, or whether the Stop's hook is running. *)
Definition slack : Z := 5 * second.
Fixpoint stop_look (started : gostring -> option Z) (stopAt : Z) (consumed : list gostring) (runs : list StopRecord) : option (option StopRecord) :=
  match runs with
  | [] => None
  | r :: runs' =>
      if match started (sr_StartedAt r) with Some t => slices_Contains consumed (sr_StartedAt r) || (t <? stopAt - slack) | None => true end
      then stop_look started stopAt consumed runs'
      else Some (match sr_Verdict r with StopPending => None | _ => Some r end)
  end.
