(* ===== verification/StopFacts.v ===== *)
(** Theorems of the stop hook: it never holds a session for good, it blocks only for a
    cause it names, its runs keep to their budget, and its log reads back. *)
From S2P Require Import Prelude Regex Markdown TestCounts Spec Change Merge Effective Regression Roadmap Runner State Shell Command Lifecycle PersonMatch PersonGrants StopHook.

Local Open Scope Z_scope.

(** ** The verdict *)

(** The count a verdict leaves: an allowed stop resets it, a blocked one adds one, below
    the cap. *)
Definition counted (n : Z) (v : bool * list StopNotice * StopRecord) : Prop :=
  sr_ConsecutiveBlocks v.2 = (if v.1.1 then n + 1 else 0) /\ (v.1.1 = true -> n < MaxConsecutiveStopBlocks).

Lemma stop_change_counted e rec : counted (sr_ConsecutiveBlocks rec) (stop_change e rec).
Proof.
  unfold stop_change. destruct (se_HeadChange e =s ""); [done|].
  destruct (se_State e) as [st|], (se_Doc e) as [doc|]; try done.
  destruct (negb (bool_decide _)); [done|]. destruct (negb (se_apeSession e)); [done|].
  destruct (MaxConsecutiveStopBlocks <=? _) eqn:En; [done|]. destruct (stopChecks _ _ _ _ _) as [checks []]; [done|].
  destruct (_ && _); [done|]. split; [done|]. intros _. by apply Z.leb_gt.
Qed.

Section facts.
Context (Quote : gostring -> gostring).
Let stop_verdict := stop_verdict Quote.
Let StopHook := StopHook Quote.

Lemma stop_verdict_counted e p rec : counted (sr_ConsecutiveBlocks rec) (stop_verdict e p rec).
Proof.
  unfold stop_verdict, StopHook.stop_verdict. destruct (sp_BackgroundTasks p) as [[|t ts]|]; try apply stop_change_counted.
  destruct (stop_agent p =s ""); [|apply stop_change_counted]. destruct (negb (se_apeSession e)).
  - match goal with |- context [stop_change e ?r] => pose proof (stop_change_counted e r) as H; destruct (stop_change e r) as [[block notice] rec'] end.
    exact H.
  - destruct (MaxConsecutiveStopBlocks <=? _) eqn:En; [done|]. split; [done|]. intros _. by apply Z.leb_gt.
Qed.

(** ** No session is held for good *)

(** A stop of a record: whether it continued from a block whose record is read, whether it
    was blocked, and whether that was written. *)
Record Stop := { st_active : bool; st_block : bool; st_saved : bool }.

(** The stops of one record key, the last first. *)
Definition hist (k : gostring) (trace : list (StopEnv * StopPayload * StopDecision)) : list Stop :=
  omap (fun '(e, p, d) => if se_v1 e && bool_decide (stop_key p = k)
    then Some {| st_active := sp_StopHookActive p && sf_read (se_files e); st_block := sd_Block d; st_saved := sf_saved (se_files e) |} else None) trace.

(** How many blocks in a row the last stop ends, of those that were written. *)
Fixpoint streak (h : list Stop) : Z :=
  match h with
  | s :: h' => if st_block s then (if st_saved s then 1 else 0) + (if st_active s then streak h' else 0) else 0
  | [] => 0
  end.

Lemma streak_nonneg h : 0 <= streak h.
Proof. induction h as [|s h IH]; cbn [streak]; [lia|]. destruct (st_block s), (st_saved s), (st_active s); lia. Qed.

(** How many blocks in a row it ends, written or not. *)
Fixpoint held (h : list Stop) : Z :=
  match h with
  | s :: h' => if st_block s then 1 + (if st_active s then held h' else 0) else 0
  | [] => 0
  end.

Lemma held_streak h : Forall (fun s => st_saved s = true) h -> held h = streak h.
Proof. induction 1 as [|s h Hs _ IH]; cbn [held streak]; [done|]. by rewrite Hs, IH. Qed.

(** The runs of the hook, in any order of sessions, from no records. *)
Inductive stopped : StopWorld -> list (StopEnv * StopPayload * StopDecision) -> Prop :=
| stopped_start w : sw_records w = ∅ -> sw_logs w = ∅ -> stopped w []
| stopped_step w trace e p w' d : stopped w trace -> StopHook e p w = (w', d) -> stopped w' ((e, p, d) :: trace).

Definition blocks_at (w : StopWorld) (k : gostring) : Z := match sw_records w !! k with Some r => sr_ConsecutiveBlocks r | None => 0 end.

(** What a run of the hook leaves in the records. *)
Lemma StopHook_records e p w w' d : StopHook e p w = (w', d) ->
  (se_v1 e = false /\ w' = w) \/
  (se_v1 e = true /\ let n := if sp_StopHookActive p && sf_read (se_files e) then blocks_at w (stop_key p) else 0 in
   blocks_at w' (stop_key p) = (if sf_saved (se_files e) then if sd_Block d then n + 1 else 0
                                else if sf_saved0 (se_files e) then n else blocks_at w (stop_key p)) /\
   (sd_Block d = true -> n < MaxConsecutiveStopBlocks) /\
   forall k, k <> stop_key p -> blocks_at w' k = blocks_at w k).
Proof.
  unfold StopHook, StopHook.StopHook. intros H. destruct (se_v1 e); cbn [negb] in H; [|naive_solver]. right. split; [done|].
  match type of H with context [StopHook.stop_verdict Quote e p ?r] => pose proof (stop_verdict_counted e p r) as [Hc Hn];
    change (StopHook.stop_verdict Quote e p r) with (stop_verdict e p r) in H; destruct (stop_verdict e p r) as [[block notice] rec] end.
  cbn [fst snd sr_ConsecutiveBlocks] in *.
  assert ((if sp_StopHookActive p then prev_blocks e p w else 0) = (if sp_StopHookActive p && sf_read (se_files e) then blocks_at w (stop_key p) else 0)) as En
    by (unfold prev_blocks, blocks_at; by destruct (sp_StopHookActive p), (sf_read (se_files e))).
  rewrite En in *. simplify_eq/=. unfold blocks_at, save_stop. cbn [sw_records sr_ConsecutiveBlocks].
  split; [|split; [done|]].
  - destruct (sf_saved (se_files e)); [by rewrite lookup_insert_eq|]. destruct (sf_saved0 (se_files e)); [|done]. rewrite lookup_insert_eq. done.
  - intros k Hk. destruct (sf_saved (se_files e)), (sf_saved0 (se_files e)); by rewrite ?lookup_insert_ne.
Qed.

Lemma stopped_counts w trace : stopped w trace -> forall k, streak (hist k trace) <= blocks_at w k <= MaxConsecutiveStopBlocks.
Proof.
  induction 1 as [w Hw _|w trace e p w' d _ IH Hs]; intros k.
  - unfold blocks_at. rewrite Hw, lookup_empty. cbn. unfold MaxConsecutiveStopBlocks. lia.
  - unfold hist in *. cbn [omap list_omap]. destruct (StopHook_records e p w w' d Hs) as [[-> ->]|(-> & Hk & Hn & Hne)]; [apply IH|].
    destruct (decide (stop_key p = k)) as [<-|Hd]; [rewrite bool_decide_true by done|rewrite bool_decide_false by done; cbn [andb]; rewrite Hne by done; apply IH].
    cbn [andb streak st_block st_saved st_active]. rewrite Hk. specialize (IH (stop_key p)).
    match goal with |- context [streak (omap ?f trace)] => pose proof (streak_nonneg (omap f trace)) as Hnn end.
    unfold MaxConsecutiveStopBlocks in *. destruct (sd_Block d); [specialize (Hn eq_refl)|clear Hn];
      destruct (sf_saved (se_files e)), (sf_saved0 (se_files e)), (sp_StopHookActive p && sf_read (se_files e)); lia.
Qed.


(** ** Causes *)

Lemma stop_change_block e rec notice rec' : stop_change e rec = (true, notice, rec') ->
  se_apeSession e = true /\ sr_Verdict rec' = StopBlock /\ sr_Change rec' = se_HeadChange e /\ se_HeadChange e <> [] /\
  exists st doc red judged unknown n, se_State e = Some st /\ st_Status st = StatusInProgress /\ se_Doc e = Some doc /\
    sr_Why rec' = RedChecks red judged unknown n /\ (red ++ judged <> [] \/ unknown <> []) /\ Forall (fun r => Red r = true) red.
Proof.
  unfold stop_change. intros H. destruct (decide (se_HeadChange e = bs "")) as [E|E]; [by rewrite (bool_decide_true _ E) in H|].
  rewrite (bool_decide_false _ E) in H. destruct (se_State e) as [st|], (se_Doc e) as [doc|]; try done.
  destruct (bool_decide (st_Status st = StatusInProgress)) eqn:Es; [|done]. apply bool_decide_eq_true in Es. cbn [negb] in H.
  destruct (se_apeSession e); [|done]. cbn [negb] in H. destruct (_ <=? _); [done|].
  destruct (stopChecks _ _ _ _ _) as [checks []]; [done|]. destruct (bool_decide (_ = []) && _ && _) eqn:Ef; [done|].
  simplify_eq. cbn [decided sr_Verdict sr_Change sr_Why]. split_and!; [done..|]. eexists st, doc, _, _, _, _. split_and!; [done..| |].
  - apply andb_false_iff in Ef as [[Ef%bool_decide_eq_false|Ef%bool_decide_eq_false]%andb_false_iff|Ef%bool_decide_eq_false]; [| |by right].
    + left. intros [? _]%app_eq_nil. done.
    + left. intros [_ ?]%app_eq_nil. done.
  - apply Forall_forall. intros r Hr. apply list_elem_of_In, filter_In in Hr. by apply Hr.
Qed.

(** The stop hook blocks for a cause it names, and only a session ape launched: the
    main session still has background work, which it lists, or the change checked out is
    in progress and a check of it is red, was red at its last verify at HEAD, or cannot
    be judged here. *)
Theorem stop_cause e p w w' d : StopHook e p w = (w', d) -> sd_Block d = true ->
  se_v1 e = true /\ se_apeSession e = true /\ exists rec, sd_Record d = Some rec /\ sr_Verdict rec = StopBlock /\
  ((exists t ts n, sp_BackgroundTasks p = Some (t :: ts) /\ stop_agent p = [] /\ sr_Why rec = BackgroundRunning (backgroundLabels Quote (t :: ts)) n) \/
   (sr_Change rec = se_HeadChange e /\ se_HeadChange e <> [] /\
    exists st doc red judged unknown n, se_State e = Some st /\ st_Status st = StatusInProgress /\ se_Doc e = Some doc /\
      sr_Why rec = RedChecks red judged unknown n /\ (red ++ judged <> [] \/ unknown <> []) /\ Forall (fun r => Red r = true) red)).
Proof.
  unfold StopHook, StopHook.StopHook. intros H Hb. destruct (se_v1 e); cbn [negb] in H; [|by simplify_eq]. split; [done|].
  match type of H with context [StopHook.stop_verdict Quote e p ?r] => set (rec0 := r) in H end.
  destruct (StopHook.stop_verdict Quote e p rec0) as [[block notice] rec] eqn:Ev. simplify_eq. cbn [sd_Block sd_Record] in *. subst block.
  assert (forall rec0 notice, stop_change e rec0 = (true, notice, rec) -> se_apeSession e = true /\ sr_Verdict rec = StopBlock /\ _) as Hc
    by (intros r n Hr; exact (stop_change_block e r n rec Hr)).
  unfold StopHook.stop_verdict in Ev. destruct (sp_BackgroundTasks p) as [[|t ts]|].
  1,3: destruct (Hc _ _ Ev) as (? & ? & ?); naive_solver.
  destruct (decide (stop_agent p = bs "")) as [Ea|Ea].
  2: { rewrite (bool_decide_false _ Ea) in Ev. destruct (Hc _ _ Ev) as (? & ? & ?); naive_solver. }
  rewrite (bool_decide_true _ Ea) in Ev. destruct (se_apeSession e) eqn:Es; cbn [negb] in Ev.
  - destruct (_ <=? _); [done|]. simplify_eq. split; [done|]. eexists. split; [done|]. split; [done|]. left. eexists t, ts, _. done.
  - destruct (stop_change e _) as [[b n] r] eqn:Ec. simplify_eq. destruct (stop_change_block _ _ _ _ Ec) as [? _]. congruence.
Qed.

(** ** The log *)

Lemma stop_verdict_started e p rec : sr_StartedAt (stop_verdict e p rec).2 = sr_StartedAt rec.
Proof.
  assert (forall rec, sr_StartedAt (stop_change e rec).2 = sr_StartedAt rec) as Hc by (intros r; unfold stop_change; by repeat case_match).
  unfold stop_verdict, StopHook.stop_verdict. destruct (sp_BackgroundTasks p) as [[|t ts]|]; try apply Hc.
  destruct (stop_agent p =s ""); [|apply Hc]. destruct (negb (se_apeSession e)); [|by destruct (_ <=? _)].
  match goal with |- context [stop_change e ?r] => specialize (Hc r); destruct (stop_change e r) as [[b n] r'] end. exact Hc.
Qed.

(** The decided records of a log's stops, the first first. *)
Definition verdicts (log : gostring) (trace : list (StopEnv * StopPayload * StopDecision)) : list StopRecord :=
  rev (omap (fun '(e, p, d) => if (stop_agent p =s "") && bool_decide (stopLogPath (sp_SessionID p) = log) then sd_Record d else None) trace).

Lemma replace_run_None r out : sr_StartedAt r ∉ (sr_StartedAt <$> out) -> replace_run r out = None.
Proof.
  induction out as [|x out IH]; [done|]. rewrite fmap_cons, not_elem_of_cons. intros [Hn Ho]. cbn [replace_run].
  rewrite bool_decide_false by congruence. by rewrite IH.
Qed.

Lemma replace_run_last r x out : sr_StartedAt r ∉ (sr_StartedAt <$> out) -> sr_StartedAt x = sr_StartedAt r -> replace_run r (out ++ [x]) = Some (out ++ [r]).
Proof.
  intros Ho Hx. induction out as [|y out IH]; cbn [app replace_run]; [by rewrite bool_decide_true|].
  rewrite fmap_cons, not_elem_of_cons in Ho. destruct Ho as [Hn Ho]. rewrite bool_decide_false by congruence. by rewrite IH.
Qed.

Lemma readStopLog_pair lines a b : sr_StartedAt a <> [] -> sr_StartedAt b = sr_StartedAt a -> sr_StartedAt a ∉ (sr_StartedAt <$> readStopLog lines) ->
  readStopLog ((lines ++ [a]) ++ [b]) = readStopLog lines ++ [b].
Proof.
  intros Ha Hb Hn. unfold readStopLog. rewrite !foldl_app. cbn [foldl]. unfold log_step at 2.
  rewrite (bool_decide_false _ Ha), replace_run_None by done. unfold log_step. rewrite Hb, (bool_decide_false _ Ha).
  rewrite replace_run_last; [done|by rewrite Hb|done].
Qed.

(** The log's writes succeed. *)
Definition logs_written (e : StopEnv) : Prop := sf_logged0 (se_files e) = true /\ sf_logged (se_files e) = true.

(** What a run of the hook writes to its log. *)
Lemma StopHook_log e p w w' d : StopHook e p w = (w', d) ->
  (w' = w /\ sd_Record d = None) \/
  (exists pend rec, sd_Record d = Some rec /\ sr_StartedAt pend = se_started e /\ sr_StartedAt rec = se_started e /\
    (logs_written e -> let log := stopLogPath (sp_SessionID p) in
     sw_logs w' = if stop_agent p =s "" then <[log := (default [] (sw_logs w !! log) ++ [pend]) ++ [rec]]> (sw_logs w) else sw_logs w)).
Proof.
  unfold StopHook, StopHook.StopHook. intros Hs. destruct (negb (se_v1 e)); [left; by simplify_eq|]. right.
  match type of Hs with context [StopHook.stop_verdict Quote e p ?r] => pose proof (stop_verdict_started e p r) as Hst; exists r;
    change (StopHook.stop_verdict Quote e p r) with (stop_verdict e p r) in Hs; destruct (stop_verdict e p r) as [[block notice] rec] end.
  cbn [snd sr_StartedAt] in Hst. simplify_eq. eexists. split; [done|]. split; [done|]. split; [done|]. intros [-> ->]. unfold save_stop. cbn [sw_logs].
  rewrite !andb_true_r. destruct (stop_agent p =s ""); [|done]. rewrite lookup_insert_eq, insert_insert_eq. done.
Qed.

Lemma verdicts_cons log e p d trace :
  verdicts log ((e, p, d) :: trace) =
  verdicts log trace ++ (if (stop_agent p =s "") && bool_decide (stopLogPath (sp_SessionID p) = log) then option_list (sd_Record d) else []).
Proof. unfold verdicts. cbn [omap list_omap]. destruct (_ && _); [destruct (sd_Record d)|]; cbn [rev option_list]; by rewrite ?app_nil_r. Qed.

Lemma verdicts_started w trace log : stopped w trace -> forall r, r ∈ verdicts log trace -> sr_StartedAt r ∈ ((fun t => se_started t.1.1) <$> trace).
Proof.
  induction 1 as [w _ _|w trace e p w' d _ IH Hs]; intros r; [by intros ?%elem_of_nil|]. rewrite verdicts_cons, fmap_cons.
  intros [Hr|Hr]%elem_of_app; [by right; apply IH|]. destruct (_ && _); [|by apply elem_of_nil in Hr].
  apply StopHook_log in Hs as [[_ E]|(pend & rec & E & _ & Hst & _)]; rewrite E in Hr; [by apply elem_of_nil in Hr|].
  cbn [option_list] in Hr. apply list_elem_of_singleton in Hr as ->. rewrite Hst. by left.
Qed.

(** The verdict log reads back: however the stops of the sessions interleave, the runs
    read from a session's log are its stops' decided records, one for each, in order, when
    the hook's start stamps differ and the log's writes succeed. *)
Theorem stop_log_reads w trace log : stopped w trace ->
  NoDup ((fun t => se_started t.1.1) <$> trace) -> Forall (fun t => se_started t.1.1 <> [] /\ logs_written t.1.1) trace ->
  readStopLog (default [] (sw_logs w !! log)) = verdicts log trace.
Proof.
  induction 1 as [w _ Hl|w trace e p w' d Htr IH Hs]; intros Hd Hne; [by rewrite Hl, lookup_empty|].
  rewrite fmap_cons in Hd. apply NoDup_cons in Hd as [Hfresh Hd]. apply Forall_cons in Hne as [[He Hlw] Hne]. specialize (IH Hd Hne). cbn [fst] in *.
  rewrite verdicts_cons. apply StopHook_log in Hs as [[-> ->]|(pend & rec & -> & Hp & Hr & Hlog)]; [rewrite IH; by destruct (_ && _); rewrite app_nil_r|].
  rewrite (Hlog Hlw). clear Hlog. destruct (stop_agent p =s ""); [|by rewrite app_nil_r]. cbn [andb option_list]. case_bool_decide as Eg.
  - subst log. rewrite lookup_insert_eq. cbn [default from_option id].
    rewrite readStopLog_pair; [by rewrite IH|by rewrite Hp|by rewrite Hp|]. rewrite IH, Hp. intros (r & Hst & Hin)%list_elem_of_fmap.
    apply Hfresh. rewrite Hst. by eapply verdicts_started.
  - by rewrite lookup_insert_ne, app_nil_r.
Qed.
End facts.

(** ** The runs *)

Section runs.
Context (ceiling : CheckKind -> Z) (head : gostring) (exec : nat -> Z -> PlannedCheck -> CheckResult) (interrupted : nat -> bool)
  (took : nat -> Z -> PlannedCheck -> Z).
Local Abbreviation stop_loop := (StopHook.stop_loop ceiling head exec interrupted took).
Local Abbreviation stopRun := (StopHook.stopRun ceiling head exec interrupted took).
Local Abbreviation over := (StopHook.over head).

Lemma run_one_ref i limit pc : cr_Task (run_one exec interrupted i limit pc) = pc_Ref pc.
Proof. unfold run_one, RunChecks. cbn [run_checks fst]. rewrite lookup_empty. by destruct (interrupted i). Qed.

(** The checks told of, by ref. *)
Definition told (f : Found) : list gostring := (cr_Task <$> fo_ran f) ++ (cr_Task <$> fo_judged f) ++ (pc_Ref <$> fo_unknown f).

Lemma told_ran r f : told (add_ran r f) ≡ₚ told f ++ [cr_Task r].
Proof. unfold told, add_ran. cbn [fo_ran fo_judged fo_unknown]. rewrite fmap_app. cbn. solve_Permutation. Qed.

Lemma told_over lv pc f : told (over lv pc f) ≡ₚ told f ++ [pc_Ref pc].
Proof.
  unfold told, StopHook.over. repeat case_match; cbn [fo_ran fo_judged fo_unknown]; rewrite fmap_app; cbn [fmap list_fmap judged_result cr_Task pc_Ref]; solve_Permutation.
Qed.

Lemma stop_loop_told lv checks : forall i remaining dn f, told (stop_loop lv i remaining dn checks f) ≡ₚ told f ++ (pc_Ref <$> checks).
Proof.
  induction checks as [|pc checks IH]; intros i remaining dn f; cbn [StopHook.stop_loop].
  { by rewrite app_nil_r. }
  rewrite fmap_cons. change (?x :: ?l) with ([x] ++ l). rewrite (app_assoc (told f)).
  destruct (dn !! pc_Cmd pc) as [r|]; [rewrite IH, told_ran; done|].
  destruct (match _ with Some _ => _ | None => _ end); [rewrite IH, told_over; done|].
  destruct (_ <? second); [rewrite IH, told_over; done|].
  destruct (_ && _); [rewrite IH, told_over; done|]. rewrite IH, told_ran. by rewrite run_one_ref.
Qed.

(** A red taken from the last verify was red there, at this commit. *)
Definition judged_ok (lv : option LastVerify) (f : Found) : Prop :=
  Forall (fun r => exists v c, lv = Some v /\ lv_SHA v = head /\ lv_RedChecks v !! cr_Task r = Some c /\ cr_Exit r = lc_Exit c) (fo_judged f).
(** The runs of the hook: each within a second and its budget, and all within the rest. *)
Definition spent (f : Found) : Z := foldr (fun r acc => r.2 + acc) 0 (fo_runs f).
Definition runs_ok (f : Found) : Prop := Forall (fun r => second <= r.1 <= StopCheckBudget /\ r.1 <= ceiling KindTask) (fo_runs f).

Lemma over_keeps lv pc f : judged_ok lv f -> judged_ok lv (over lv pc f).
Proof.
  unfold judged_ok, StopHook.over. intros H. destruct lv as [v|]; [|done]. destruct (decide (lv_SHA v = head)) as [E|E].
  - rewrite (bool_decide_true _ E). destruct (lv_RedChecks v !! pc_Ref pc) as [c|] eqn:Ec; [|done]. cbn [fo_judged].
    apply Forall_app. split; [done|]. apply Forall_singleton. exists v, c. done.
  - by rewrite (bool_decide_false _ E).
Qed.

Lemma over_runs lv pc f : fo_runs (over lv pc f) = fo_runs f.
Proof. unfold StopHook.over. by repeat case_match. Qed.

Lemma spent_app f r : foldr (fun (r : Z * Z) acc => r.2 + acc) 0 (fo_runs f ++ [r]) = spent f + r.2.
Proof. unfold spent. induction (fo_runs f) as [|x l IH]; cbn; [lia|]. rewrite IH. lia. Qed.

Lemma stop_loop_keeps lv checks : forall i remaining dn f,
  judged_ok lv f -> runs_ok f -> (forall i l pc, second <= l -> 0 <= took i l pc <= l) -> spent f + remaining <= StopRunBudget -> spent f <= StopRunBudget ->
  let g := stop_loop lv i remaining dn checks f in judged_ok lv g /\ runs_ok g /\ spent g <= StopRunBudget.
Proof.
  induction checks as [|pc checks IH]; intros i remaining dn f Hj Hl Ht Hr Hs; cbn [StopHook.stop_loop]; [done|].
  set (lim := Z.min _ remaining).
  destruct (dn !! pc_Cmd pc) as [r|]; [by apply IH|].
  assert (forall rem f, judged_ok lv f -> runs_ok f -> spent f + rem <= StopRunBudget -> spent f <= StopRunBudget ->
    let g := stop_loop lv (S i) rem dn checks (over lv pc f) in judged_ok lv g /\ runs_ok g /\ spent g <= StopRunBudget) as Ho.
  { intros rem f' Hj' Hl' Hr' Hs'. apply IH; [by apply over_keeps|unfold runs_ok; by rewrite over_runs|done|unfold spent in *; by rewrite over_runs..]. }
  destruct (match _ with Some _ => _ | None => _ end); [by apply Ho|]. destruct (lim <? second) eqn:El; [by apply Ho|].
  apply Z.ltb_ge in El. pose proof (Ht i lim pc El) as Htk.
  assert (runs_ok (MkFound (fo_ran f) (fo_judged f) (fo_unknown f) (fo_runs f ++ [(lim, took i lim pc)]))) as Hl'.
  { apply Forall_app. split; [done|]. apply Forall_singleton. cbn [fst]. subst lim. lia. }
  assert (spent (MkFound (fo_ran f) (fo_judged f) (fo_unknown f) (fo_runs f ++ [(lim, took i lim pc)])) = spent f + took i lim pc) as Hsp
    by (unfold spent; cbn [fo_runs]; by rewrite spent_app).
  assert (lim <= remaining) by (subst lim; lia).
  destruct (_ && _); [apply Ho|apply IH]; try done; unfold add_ran, spent in *; cbn [fo_runs] in *; lia.
Qed.

(** The stop hook tells of every check once: run, red by the last verify, or not
    judged; a check taken for red without a run was red at a verify of this plan at this
    very commit; and its runs have each at least a second, at most a minute and the
    project's own ceiling, and all together at most ten minutes. *)
Theorem stopRun_budget lv digest checks : (forall i l pc, second <= l -> 0 <= took i l pc <= l) ->
  let f := stopRun lv digest checks in
  told f ≡ₚ pc_Ref <$> checks /\
  Forall (fun r => exists v c, lv = Some v /\ lv_PlanDigest v = digest /\ lv_SHA v = head /\ lv_RedChecks v !! cr_Task r = Some c /\ cr_Exit r = lc_Exit c) (fo_judged f) /\
  Forall (fun r => second <= r.1 <= StopCheckBudget /\ r.1 <= ceiling KindTask) (fo_runs f) /\ spent f <= StopRunBudget.
Proof.
  intros Ht. unfold StopHook.stopRun. set (lv' := match lv with Some _ => _ | None => _ end).
  destruct (stop_loop_keeps lv' checks 0 StopRunBudget ∅ (MkFound [] [] [] [])) as (Hj & Hl & Hs); [constructor|constructor|done|done|done|].
  split; [exact (stop_loop_told lv' checks 0 StopRunBudget ∅ (MkFound [] [] [] []))|]. split; [|done].
  eapply Forall_impl; [exact Hj|]. intros r (v & c & Hv & Hr). subst lv'. destruct lv as [v'|]; [|done].
  destruct (decide (lv_PlanDigest v' = digest)) as [E|E]; [rewrite (bool_decide_true _ E) in Hv|by rewrite (bool_decide_false _ E) in Hv].
  cbn [negb] in Hv. simplify_eq. exists v, c. done.
Qed.
End runs.

(** ** Witnesses *)

Module Sample.
(** A session ape launched whose background work never ends, stopping again and again. *)
Definition writable : StopFiles := MkStopFiles true true true true true.
Definition unwritable : StopFiles := MkStopFiles true false false false false.
Definition env_on (f : StopFiles) (stamp : gostring) : StopEnv :=
  MkStopEnv true true stamp stamp [] None None None [] [] [] (fun _ => 10 * second) (fun _ _ pc => interruptedResult (pc_Cmd pc)) (fun _ => false)
    (fun _ _ _ => second) (fun _ => []) f.
Definition env (stamp : gostring) : StopEnv := env_on writable stamp.
Definition payload (active : bool) : StopPayload := MkStopPayload "s1" "Stop" [] active (Some [MkTaskInfo "b1" "shell" [] [] []]).
Definition q (s : gostring) : gostring := dq ++ s ++ dq.
Definition start0 : StopWorld := MkStopWorld ∅ ∅.
Definition stop (stamp : gostring) (active : bool) (w : StopWorld) := StopHook q (env stamp) (payload active) w.
Definition w1 : StopWorld := (stop "1" false start0).1.
Definition w2 : StopWorld := (stop "2" true w1).1.
Definition w3 : StopWorld := (stop "3" true w2).1.
Definition trace : list (StopEnv * StopPayload * StopDecision) :=
  [ (env "3", payload true, (stop "3" true w2).2); (env "2", payload true, (stop "2" true w1).2); (env "1", payload false, (stop "1" false start0).2) ].

Lemma trace_stopped : stopped q w3 trace.
Proof.
  unfold trace. apply (stopped_step q w2 _ (env "3") (payload true)); [|apply surjective_pairing].
  apply (stopped_step q w1 _ (env "2") (payload true)); [|apply surjective_pairing].
  apply (stopped_step q start0 _ (env "1") (payload false)); [|apply surjective_pairing]. by apply stopped_start.
Qed.

(** One task check of a plan with no verify yet. *)
Definition check : PlannedCheck := MkPlanned "T1" KindTask [] [] [] false "make test" 0 false.
End Sample.


(** Where the folder of ape's state cannot be written, the count stays at nothing, and a
    session is blocked at every stop, however often it stops. *)
Theorem stop_held (n : nat) :
  let run w := fst (StopHook Sample.q (Sample.env_on Sample.unwritable "1") (Sample.payload true) w) in
  sd_Block (snd (StopHook Sample.q (Sample.env_on Sample.unwritable "1") (Sample.payload true) (Nat.iter n run Sample.start0))) = true.
Proof.
  intros run. assert (Nat.iter n run Sample.start0 = Sample.start0) as ->; [|vm_compute; reflexivity].
  induction n as [|n IH]; [done|]. cbn [Nat.iter nat_rect]. unfold Nat.iter in IH. rewrite IH. vm_compute. reflexivity.
Qed.

Lemma stop_cause_witness : exists rec, sd_Record (Sample.stop "1" false Sample.start0).2 = Some rec /\ sr_Verdict rec = StopBlock.
Proof.
  destruct (stop_cause Sample.q (Sample.env "1") (Sample.payload false) Sample.start0 Sample.w1 (Sample.stop "1" false Sample.start0).2) as (_ & _ & rec & Hr & Hv & _).
  - apply surjective_pairing.
  - vm_compute. reflexivity.
  - exists rec. split; [exact Hr|exact Hv].
Defined.

Lemma stop_log_reads_witness :
  length (verdicts "s1.jsonl" Sample.trace) = 3%nat /\ readStopLog (default [] (sw_logs Sample.w3 !! bs "s1.jsonl")) = verdicts "s1.jsonl" Sample.trace.
Proof.
  split; [vm_compute; reflexivity|]. apply (stop_log_reads Sample.q _ _ _ Sample.trace_stopped).
  - apply (bool_decide_unpack _). vm_compute. exact I.
  - repeat constructor; try discriminate; reflexivity.
Defined.

Lemma stopRun_budget_witness :
  let f := stopRun (fun _ => 10 * second) "abc" (fun _ _ pc => interruptedResult (pc_Cmd pc)) (fun _ => false) (fun _ _ _ => second) None "d" [Sample.check] in
  told f ≡ₚ [bs "T1"] /\ spent f <= StopRunBudget.
Proof.
  destruct (stopRun_budget (fun _ => 10 * second) "abc" (fun _ _ pc => interruptedResult (pc_Cmd pc)) (fun _ => false) (fun _ _ _ => second) None "d" [Sample.check]) as (H1 & _ & _ & H2).
  - intros i l pc Hl. unfold second in *. lia.
  - split; [exact H1|exact H2].
Defined.
