(* ===== verification/Milestone.v ===== *)
(** Milestones: internal/apexv1/milestone.go (a milestone added, approved, its gate run, the
    milestone closed), approval.go (what an approval freezes and whether the gate drifted
    from it), gateselfcheck.go, fullrun.go, gatefolder.go's archive of the gate folders, and
    the drift of gateown.go. Commands run in a world (roadmap.md, milestones.json, the logs
    of the last runs) and in a host. *)
From S2P Require Import Prelude Regex Markdown Spec Change Merge Effective Regression Runner Roadmap State Command Lifecycle Shell PersonMatch Paths GateScript EditGuard.

(** ** Records *)

(** The times, sizes and log paths of a run are left out, and LiveSkipped, which is
    FullSkipped under its older name. *)
Record GateRun := MkGateRun {
  gr_Exit : Z; gr_At : gostring; gr_SHA : gostring; gr_Cmd : gostring; gr_Tail : list gostring; gr_SpecChecks : nat;
  gr_SpecFailed : list CheckResult; gr_StrayFiles : list gostring; gr_Regression : option RegressionVerdict;
  gr_Reason : gostring; gr_Detail : gostring; gr_ShellNote : gostring; gr_Leftovers : list gostring; gr_Flaky : list gostring;
  gr_FullSkipped : nat; gr_FullRunReused : gostring }.

(** GateRun.Green *)
Definition Green (r : GateRun) : bool :=
  Z.eqb (gr_Exit r) 0 && bool_decide (length (gr_SpecFailed r) = 0) && match gr_Regression r with Some v => negb (rv_Failed v) | None => true end.

Definition GateGreen : gostring := "green".
Definition GateRed : gostring := "red".
Definition gateResult (run : GateRun) : gostring := if Green run then GateGreen else GateRed.

Record AcceptGreen := MkAcceptGreen { ag_Reason : gostring; ag_By : gostring; ag_At : gostring }.
Record AcceptRed := MkAcceptRed { acr_Reason : gostring; acr_By : gostring; acr_At : gostring; acr_Gate : option GateRun }.
Record GateArchive := MkGateArchive { ga_From : gostring; ga_To : gostring }.
Record GateSelfCheck := MkSelfCheck { sc_At : gostring; sc_SHA : gostring; sc_Exit : Z; sc_Wrote : list gostring }.

Record MilestoneApproval := MkMApproval {
  ma_By : gostring; ma_At : gostring; ma_GateCmd : gostring; ma_GateFiles : gmap gostring gostring; ma_GateFilesSHA256 : gostring;
  ma_GateOwnFiles : gmap gostring gostring; ma_GateGlobs : list gostring; ma_ScratchExcluded : bool; ma_GateScratch : list gostring;
  ma_SelfCheck : option GateSelfCheck; ma_BaseSHA : gostring; ma_AcceptGreen : option AcceptGreen }.

Record MilestoneRecord := MkMRecord {
  mr_Result : gostring; mr_Since : option GateRun; mr_Approval : option MilestoneApproval; mr_DoneAt : gostring;
  mr_AcceptRed : option AcceptRed; mr_ConsecutiveBlocks : Z; mr_GateArchived : list GateArchive }.
Definition no_record : MilestoneRecord := MkMRecord [] None None [] None 0 [].

(** MilestoneApproval.Base *)
Definition Base (a : option MilestoneApproval) : gostring :=
  match a with
  | None => []
  | Some a => if ma_BaseSHA a <>s "" then ma_BaseSHA a else match ma_SelfCheck a with Some sc => sc_SHA sc | None => [] end
  end.

(** MilestoneRecord.ArchivedPath *)
Definition ArchivedPath (r : option MilestoneRecord) (rel : gostring) : gostring :=
  match r with
  | None => rel
  | Some r =>
      (fix go (l : list GateArchive) : gostring :=
         match l with
         | [] => rel
         | a :: l' =>
             if rel =s ga_From a then ga_To a
             else match CutPrefix rel (ga_From a ++ "/") with
                  | (rest, true) => ga_To a ++ "/" ++ rest
                  | _ => go l'
                  end
         end) (mr_GateArchived r)
  end.

Record FullRun := MkFullRun {
  fr_Milestone : gostring; fr_At : gostring; fr_SHA : gostring; fr_Tree : gostring; fr_Approval : gostring; fr_Checks : gostring;
  fr_Results : list CheckResult; fr_Regression : option CheckResult; fr_Verdict : option RegressionVerdict;
  fr_Tails : gmap gostring (list gostring); fr_By : gostring }.

(** FullRun.Green *)
Definition FullGreen (f : FullRun) : bool :=
  forallb (fun r => negb (Red r)) (fr_Results f) && match fr_Verdict f with Some v => negb (rv_Failed v) | None => true end.

(** A result with another tail; a tail is not part of a result's JSON. *)
Definition set_tail (t : list gostring) (r : CheckResult) : CheckResult :=
  MkResult (cr_Task r) (cr_Kind r) (cr_Capability r) (cr_Requirement r) (cr_Scenario r) (cr_Delta r) (cr_Cmd r) (cr_Exit r) t
    (cr_Reason r) (cr_Detail r) (cr_PreExistingRed r) (cr_Tries r) (cr_Flaky r) (cr_StrayFiles r) (cr_Tests r) (cr_Skip r) (cr_ShellNote r) (cr_Leftovers r).

(** A gate run and a full run as they are written. *)
Definition saved_run (r : GateRun) : GateRun :=
  MkGateRun (gr_Exit r) (gr_At r) (gr_SHA r) (gr_Cmd r) (gr_Tail r) (gr_SpecChecks r) (set_tail [] <$> gr_SpecFailed r) (gr_StrayFiles r)
    (gr_Regression r) (gr_Reason r) (gr_Detail r) (gr_ShellNote r) (gr_Leftovers r) (gr_Flaky r) (gr_FullSkipped r) (gr_FullRunReused r).
Definition saved_full (f : FullRun) : FullRun :=
  MkFullRun (fr_Milestone f) (fr_At f) (fr_SHA f) (fr_Tree f) (fr_Approval f) (fr_Checks f) (set_tail [] <$> fr_Results f)
    (set_tail [] <$> fr_Regression f) (fr_Verdict f) (fr_Tails f) (fr_By f).

(** gateEnv *)
Definition gateEnv (id base : gostring) : list gostring := [bs "APE_MILESTONE=" ++ id; bs "APE_MILESTONE_BASE=" ++ base].

(** withoutFull and splitFull *)
Definition withoutFull (checks : list PlannedCheck) : list PlannedCheck * nat :=
  (List.filter (fun pc => negb (pc_Full pc)) checks, length (List.filter pc_Full checks)).
Definition splitFull (checks : list PlannedCheck) : list PlannedCheck * list PlannedCheck :=
  (List.filter (fun pc => negb (pc_Full pc)) checks, List.filter pc_Full checks).

Definition RegressionSkippedGateRed : gostring := "gate-red".

(** ** The world and the host *)

Record MWorld := MkMWorld {
  mw_Roadmap : option gostring; mw_Records : gmap gostring MilestoneRecord; mw_Full : gmap gostring FullRun;
  mw_LastGate : gmap gostring GateRun; mw_Moved : list GateArchive }.

Definition set_mw_Roadmap (r : option gostring) (w : MWorld) : MWorld := MkMWorld r (mw_Records w) (mw_Full w) (mw_LastGate w) (mw_Moved w).
Definition set_mw_Records (r : gmap gostring MilestoneRecord) (w : MWorld) : MWorld := MkMWorld (mw_Roadmap w) r (mw_Full w) (mw_LastGate w) (mw_Moved w).
Definition set_mw_Full (f : gmap gostring FullRun) (w : MWorld) : MWorld := MkMWorld (mw_Roadmap w) (mw_Records w) f (mw_LastGate w) (mw_Moved w).
Definition set_mw_LastGate (g : gmap gostring GateRun) (w : MWorld) : MWorld := MkMWorld (mw_Roadmap w) (mw_Records w) (mw_Full w) g (mw_Moved w).
Definition set_mw_Moved (l : list GateArchive) (w : MWorld) : MWorld := MkMWorld (mw_Roadmap w) (mw_Records w) (mw_Full w) (mw_LastGate w) l.

(** Runs of checks, and the places where a command reads or writes. *)
Inductive mrun := RunGateCmd | RunSpec | RunFullChecks | RunSelfCheck | RunSpecAlone.
Inductive msite := AtNew | AtPreflight | AtBase | AtKey | AtFull | AtSelfCheck | AtGate | AtMApprove | AtClose | AtRedClose | AtDone.
(** A file is asked for before a command's run, and after it. *)
Inductive moment := Before | After.

(** A commit of ape's records: it is made, it fails, or it is refused for a secret and the
    named files are restored. *)
Inductive CommitOutcome := Committed (sha : gostring) | CommitFails (e : Err) | CommitRefused (roadmap records : bool).

(** What gateOwnScan finds of a gate's own files. *)
Record gateOwn := MkGateOwn { go_files : gmap gostring gostring; go_globs : gset gostring; go_keep : gset gostring }.

Record MHost := MkMHost {
  mh_project : Project; mh_inGit : bool; mh_branch : gostring;
  mh_ToLower : gostring -> gostring; mh_ParseFloat : gostring -> option gostring; mh_ParseDuration : gostring -> option gostring;
  mh_ParseTokens : gostring -> option Z; mh_IsLetter : Z -> bool; mh_IsDigit : Z -> bool; mh_sha256 : gostring -> gostring;
  mh_recover : option Err; mh_person : gostring -> option Err;
  mh_now : msite -> gostring; mh_headSHA : msite -> gostring;
  (* files *)
  mh_fileSHA : moment -> gostring -> option gostring; mh_ownScan : moment -> Milestone gostring -> gateOwn;
  mh_gitIgnored : list gostring -> list gostring; mh_isScript : gostring -> bool; mh_globFiles : gostring -> list gostring;
  mh_stamps : moment -> gmap gostring gostring; mh_regular : gostring -> bool; mh_badSyntax : gostring -> bool; mh_unmet : gostring -> bool;
  mh_contentDigest : moment -> option gostring; mh_gateFolders : list gostring; mh_archiveExists : bool; mh_move : GateArchive -> option Err;
  (* reads and writes *)
  mh_loadRecords : msite -> option Err; mh_saveRecords : msite -> option Err; mh_writeRoadmap : msite -> option Err;
  mh_writeLog : msite -> bool; mh_commit : msite -> CommitOutcome; mh_evidence : option (option Err);
  (* the specs, the changes and the commands *)
  mh_capabilities : list gostring; mh_specs : gmap gostring gostring; mh_regressionCmd : gostring; mh_baselines : list change_baselines;
  mh_changes : list (gostring * option Change * option State);
  mh_run : mrun -> list gostring -> PlannedCheck -> CheckResult; mh_stopAt : mrun -> nat -> bool; mh_interrupted : mrun -> bool;
  mh_output : mrun -> gostring;
  (* what a person writes to roadmap.md while a run lasts *)
  mh_edited : mrun -> option gostring -> option gostring }.

(** LastGateRun *)
Definition LastGateRun (w : MWorld) (id : gostring) : option GateRun :=
  match mw_LastGate w !! id with Some run => Some run | None => mw_Records w !! id ≫= mr_Since end.

Definition MCmd : Type -> Type := CmdOf MWorld.

Definition CodeChangeBranch : gostring := "branch.change-branch".
Definition CodeMilestoneNotFound : gostring := "milestone.not-found".
Definition CodeMilestoneNotApproved : gostring := "milestone.not-approved".
Definition CodeStatusUnrecorded : gostring := "milestone.status-unrecorded".
Definition CodeGateChanged : gostring := "milestone.gate-changed".
Definition CodeGateGreen : gostring := "milestone.gate-green".
Definition CodeGateBroken : gostring := "milestone.gate-broken".
Definition CodeFullRed : gostring := "milestone.full-red".
Definition CodeGateSpecRed : gostring := "gate.spec-red".
Definition CodeGateArchiveExists : gostring := "milestone.gate-archive-exists".
Definition exitNotExecutable : Z := 126.

(** ** Drift of an approved gate (approval.go, gateown.go) *)

Section milestones.
Context (H : MHost).
Local Abbreviation scripts := (gateScripts (mh_IsLetter H) (mh_IsDigit H)).

(** gateFiles *)
Definition gateFiles (t : moment) (gate : gostring) : gmap gostring gostring :=
  list_to_map (omap (fun rel => (fun sum => (rel, sum)) <$> mh_fileSHA H t rel) (scripts gate)).

(** gateFilesDigest *)
Definition gateFilesDigest (files : gmap gostring gostring) : gostring :=
  mh_sha256 H (mjoin ((fun n => n ++ " " ++ default [] (files !! n) ++ [nl]) <$> sort_Strings (elements (dom files)))).

(** newApproval's loop on what the self-check wrote: the own files left, and the scratch. *)
Definition scratch_step (keep : gset gostring) (acc : gmap gostring gostring * list gostring) (f : gostring) : gmap gostring gostring * list gostring :=
  if bool_decide (f ∈ keep) then acc else (delete f acc.1, acc.2 ++ [f]).

(** newApproval; the self-check, the base and an accepted green are approve's to set. *)
Definition newApproval (m : Milestone gostring) (by_ : gostring) (sc : GateSelfCheck) (base : gostring) (green : option AcceptGreen) : MilestoneApproval :=
  let files := gateFiles After (ms_Gate m) in
  let own := mh_ownScan H After m in
  let '(ownFiles, scratch) := foldl (scratch_step (go_keep own)) (go_files own, []) (sc_Wrote sc) in
  MkMApproval by_ (mh_now H AtMApprove) (ms_Gate m) files (gateFilesDigest files) ownFiles (sort_Strings (elements (go_globs own))) true scratch
    (Some sc) base green.

(** gateScratch *)
Definition gateScratch (names : list gostring) (keep : gset gostring) : gset gostring :=
  list_to_set (List.filter (fun f => negb (bool_decide (f ∈ keep)) && negb (mh_isScript H f)) (match names with [] => [] | _ => mh_gitIgnored H names end)).

(** How a recorded file differs now. *)
Definition file_drift (t : moment) (n was : gostring) : list gostring :=
  match mh_fileSHA H t n with
  | None => [n ++ " is gone"]
  | Some is_ => if was <>s is_ then [n ++ " changed"] else []
  end.

(** The files a recorded glob matches that the record does not hold, each once. *)
Definition glob_step (a : MilestoneApproval) (acc : list gostring * gset gostring) (gf : gostring * gostring) : list gostring * gset gostring :=
  let '(g, f) := gf in
  if isSome (ma_GateOwnFiles a !! f) || isSome (ma_GateFiles a !! f) || bool_decide (f ∈ acc.2) || slices_Contains (ma_GateScratch a) f then acc
  else (acc.1 ++ [f ++ " is new (it matches " ++ g ++ ")"], {[f]} ∪ acc.2).

(** gateOwnDrift *)
Definition gateOwnDrift (t : moment) (m : Milestone gostring) (a : MilestoneApproval) : list gostring :=
  let names := sort_Strings (elements (dom (ma_GateOwnFiles a))) in
  let scratch := (if negb (ma_ScratchExcluded a) && negb (bool_decide (names = [])) then gateScratch names (go_keep (mh_ownScan H t m)) else ∅)
    ∪ list_to_set (ma_GateScratch a) in
  (names ≫= (fun n => if bool_decide (n ∈ scratch) then [] else file_drift t n (default [] (ma_GateOwnFiles a !! n)))) ++
  fst (foldl (glob_step a) ([], ∅) (ma_GateGlobs a ≫= (fun g => (fun f => (g, f)) <$> mh_globFiles H g))).

(** gateDrift *)
Definition gateDrift (t : moment) (m : Milestone gostring) (a : MilestoneApproval) : list gostring :=
  (if TrimSpace (ms_Gate m) <>s TrimSpace (ma_GateCmd a)
   then [bs "the command was `" ++ ma_GateCmd a ++ "`, is `" ++ ms_Gate m ++ "`"] else []) ++
  (scripts (ms_Gate m) ≫= (fun n => match ma_GateFiles a !! n with Some was => file_drift t n was | None => [] end)) ++
  gateOwnDrift t m a.

(** gateOwnUnrecorded *)
Definition gateOwnUnrecorded (m : Milestone gostring) (a : MilestoneApproval) : bool :=
  let own := mh_ownScan H Before m in
  existsb (fun n => negb (isSome (ma_GateOwnFiles a !! n)) && negb (slices_Contains (ma_GateScratch a) n)) (elements (dom (go_files own))) ||
  existsb (fun g => negb (slices_Contains (ma_GateGlobs a) g)) (elements (go_globs own)).

(** gateScriptUnrecorded *)
Definition gateScriptUnrecorded (m : Milestone gostring) (a : MilestoneApproval) : bool :=
  existsb (fun n => negb (isSome (ma_GateFiles a !! n))) (elements (dom (gateFiles Before (ms_Gate m)))) || gateOwnUnrecorded m a.

(** ** Reading and writing *)

Definition loadRecords (s : msite) : MCmd (gmap gostring MilestoneRecord) := check (mh_loadRecords H s);; let* w := get in cret (mw_Records w).
Definition saveRecords (s : msite) (r : gmap gostring MilestoneRecord) : MCmd unit := check (mh_saveRecords H s);; modify (set_mw_Records r).
Definition writeRoadmap (s : msite) (doc : gostring) : MCmd unit := check (mh_writeRoadmap H s);; modify (set_mw_Roadmap (Some doc)).

Definition RoadmapRel : gostring := Rel (mh_project H) (filepath_Join (Dev (mh_project H)) "roadmap.md").
Definition parseRoadmap (file doc : gostring) : Roadmap gostring :=
  ParseRoadmap (mh_ToLower H) (mh_ParseFloat H) (mh_ParseDuration H) (mh_ParseTokens H) file doc.

(** loadRoadmapDoc *)
Definition loadRoadmapDoc : MCmd (gostring * Roadmap gostring) :=
  let* w := get in
  match mw_Roadmap w with
  | None => fail (FailError "roadmap.missing")
  | Some doc => cret (doc, parseRoadmap RoadmapRel doc)
  end.

(** The milestone of a roadmap, or the refusal of one it does not have. *)
Definition find_or_fail (rm : Roadmap gostring) (id : gostring) : MCmd (Milestone gostring) :=
  match find_milestone rm id with Some m => cret m | None => fail (FailError CodeMilestoneNotFound) end.

Definition refuseOnChangeBranch : MCmd unit := refuse (ChangeOfBranch (mh_branch H) <>s "") (FailError CodeChangeBranch).

(** milestoneOwn and beforeOwnEdit: what is undone when the commit is refused. [None]: nothing. *)
Record ownEdits := MkOwn { own_Roadmap : option (option gostring); own_Records : option (gmap gostring MilestoneRecord) }.
Definition milestoneOwn : MCmd ownEdits := let* w := get in cret (MkOwn (Some (mw_Roadmap w)) (Some (mw_Records w))).
Definition recordsOwn : MCmd ownEdits := let* w := get in cret (MkOwn None (Some (mw_Records w))).

Definition undo (own : ownEdits) (roadmap records : bool) (w : MWorld) : MWorld :=
  let w := match own_Roadmap own with Some r => if roadmap then set_mw_Roadmap r w else w | None => w end in
  match own_Records own with Some r => if records then set_mw_Records r w else w | None => w end.

(** commitMilestone *)
Definition commitMilestone (s : msite) (own : ownEdits) : MCmd gostring :=
  if negb (mh_inGit H) then cret []
  else match mh_commit H s with
       | Committed sha => cret sha
       | CommitFails e => fail e
       | CommitRefused roadmap records => modify (undo own roadmap records);; fail (FailError "commit.secret")
       end.

(** requireApprovalRecord with its gate check. *)
Definition requireApprovalRecord (s : msite) (m : Milestone gostring) : MCmd unit :=
  let* recs := loadRecords s in
  match recs !! ms_ID m with
  | Some rec =>
      match mr_Approval rec with
      | None => fail (FailError CodeStatusUnrecorded)
      | Some a => refuse (negb (bool_decide (gateDrift Before m a = []))) (FailError CodeGateChanged)
      end
  | None => fail (FailError CodeStatusUnrecorded)
  end.

(** ** Runs *)

(** A run of checks, while which roadmap.md may be edited. *)
Definition run_at (s : mrun) (env : list gostring) (checks : list PlannedCheck) : MCmd (list CheckResult) :=
  modify (fun w => set_mw_Roadmap (mh_edited H s (mw_Roadmap w)) w);;
  refuse (mh_interrupted H s) (FailError CodeRunInterrupted);;
  cret (fst (RunChecks (mh_run H s env) (mh_stopAt H s) checks)).

(** *** The gate's self-check (gateselfcheck.go) *)

(** gateUnrunnable, as whether it is. *)
Definition gateUnrunnable (gate : gostring) : bool :=
  existsb (fun rel => let path := filepath_Join (p_Root (mh_project H)) rel in negb (mh_regular H path) || mh_badSyntax H path) (scripts gate) ||
  mh_unmet H gate.

(** gateWrote *)
Definition gateWrote (before after : gmap gostring gostring) : list gostring :=
  sort_Strings (omap (fun '(f, stamp) => if default [] (before !! f) <>s stamp then Some f else None) (map_to_list after)).

Definition gate_check (ref gate : gostring) : PlannedCheck := MkPlanned ref KindGate [] [] [] false gate 0 false.

(** gateSelfCheck: the gate is run once, not retried. *)
Definition gateSelfCheck (m : Milestone gostring) (base : gostring) (reapproval acceptGreen : bool) : MCmd GateSelfCheck :=
  refuse (gateUnrunnable (ms_Gate m)) (FailError CodeGateBroken);;
  let r := mh_run H RunSelfCheck (gateEnv (ms_ID m) base) (gate_check (bs "gate-" ++ ms_ID m ++ "-approve") (ms_Gate m)) in
  modify (fun w => set_mw_Roadmap (mh_edited H RunSelfCheck (mw_Roadmap w)) w);;
  refuse (mh_interrupted H RunSelfCheck) (FailError CodeRunInterrupted);;
  let sc := MkSelfCheck (mh_now H AtSelfCheck) (mh_headSHA H AtSelfCheck) (cr_Exit r) (gateWrote (mh_stamps H Before) (mh_stamps H After)) in
  if Z.eqb (cr_Exit r) 0 then (if reapproval && acceptGreen then cret sc else fail (FailError CodeGateGreen))
  else if Z.eqb (cr_Exit r) ExitTimeout || Z.eqb (cr_Exit r) exitNotExecutable || Z.eqb (cr_Exit r) exitNotFound then fail (FailError CodeGateBroken)
  else cret sc.

(** *** The full run (fullrun.go) *)

(** approvalKey *)
Definition approvalKey (w : MWorld) (id : gostring) : gostring :=
  match mh_loadRecords H AtKey with
  | Some _ => []
  | None => match mw_Records w !! id ≫= mr_Approval with Some a => ma_At a ++ " " ++ ma_GateFilesSHA256 a | None => [] end
  end.

(** fullChecksKey *)
Definition fullChecksKey (checks : list PlannedCheck) (regressionCmd : gostring) : gostring :=
  mh_sha256 H (Join (sort_Strings ((fun pc => pc_Ref pc ++ [x09] ++ pc_Cmd pc) <$> checks) ++ [bs "regression" ++ [x09] ++ regressionCmd]) [nl]).

Definition with_results (rs : list CheckResult) (f : FullRun) : FullRun :=
  MkFullRun (fr_Milestone f) (fr_At f) (fr_SHA f) (fr_Tree f) (fr_Approval f) (fr_Checks f) rs (fr_Regression f) (fr_Verdict f) (fr_Tails f) (fr_By f).

(** currentFullRun *)
Definition currentFullRun (w : MWorld) (id : gostring) (checks : list PlannedCheck) (regressionCmd : gostring) : option FullRun :=
  match mw_Full w !! id with
  | None => None
  | Some f =>
      if negb (FullGreen f) then None
      else if fr_Checks f <>s fullChecksKey checks regressionCmd then None
      else if (approvalKey w id =s "") || (approvalKey w id <>s fr_Approval f) then None
      else match mh_contentDigest H Before with
           | Some tree =>
               if tree <>s fr_Tree f then None
               else Some (with_results ((fun r => set_tail (default [] (fr_Tails f !! cr_Task r)) r) <$> fr_Results f) f)
           | None => None
           end
  end.

(** runFull *)
Definition runFull (id : gostring) (checks : list PlannedCheck) (regressionCmd by_ : gostring) : MCmd FullRun :=
  let regressed := regressionCmd <>s "" in
  let* results := run_at RunFullChecks [] (if regressed then checks ++ [regression_check regressionCmd] else checks) in
  let* w := get in
  let base := snd <$> milestoneRegressionBaseline (mh_baselines H) id regressionCmd in
  let judged := if regressed then (fun r => judgeRegression r base (mh_output H RunFullChecks)) <$> last results else None in
  let scenarios := if regressed then removelast results else results in
  let tails := foldl (fun acc r => if negb (Z.eqb (cr_Exit r) 0) && negb (bool_decide (cr_Tail r = [])) then <[cr_Task r := lastN (cr_Tail r) 15]> acc else acc)
    ∅ scenarios in
  let f := MkFullRun id (mh_now H AtFull) (mh_headSHA H AtFull) (default [] (mh_contentDigest H After)) (approvalKey w id)
    (fullChecksKey checks regressionCmd) scenarios (snd <$> judged) (fst <$> judged) tails by_ in
  (if mh_writeLog H AtFull then modify (fun w => set_mw_Full (<[id := saved_full f]> (mw_Full w)) w) else cret tt);;
  cret f.

(** *** The gate (milestone.go) *)

Record GateResult := MkGateResult {
  g_Milestone : gostring; g_Run : option GateRun; g_Status : gostring; g_ResultChanged : bool; g_Commit : gostring;
  g_checks : list CheckResult; g_AcceptRed : option AcceptRed; g_GateArchived : list GateArchive }.

(** StrayFiles of effective.go. *)
Definition StrayFiles (results : list CheckResult) : list gostring := sort_Strings (remove_dups (results ≫= cr_StrayFiles)).

Definition spec_checks : list PlannedCheck := EffectiveSpecChecks (mh_capabilities H) (mh_specs H) [].

(** The red results, with the end of their output. *)
Definition failed_of (results : list CheckResult) : list CheckResult :=
  (fun r => set_tail (lastN (cr_Tail r) 15) r) <$> List.filter (fun r => negb (Z.eqb (cr_Exit r) 0)) results.

Definition set_result (result : gostring) (run : GateRun) (r : MilestoneRecord) : MilestoneRecord :=
  MkMRecord result (Some (saved_run run)) (mr_Approval r) (mr_DoneAt r) (mr_AcceptRed r) (mr_ConsecutiveBlocks r) (mr_GateArchived r).

(** The end of runGate: the run recorded, when its result is not the recorded one. *)
Definition record_run (id status : gostring) (run : GateRun) (ran : list CheckResult) : MCmd GateResult :=
  (if mh_writeLog H AtGate then modify (fun w => set_mw_LastGate (<[id := saved_run run]> (mw_LastGate w)) w) else cret tt);;
  let* recs := loadRecords AtGate in
  let result := gateResult run in
  let same := match recs !! id with Some rec => mr_Result rec =s result | None => false end in
  (if same then cret tt else saveRecords AtGate (<[id := set_result result run (default no_record (recs !! id))]> recs));;
  cret (MkGateResult id (Some run) status (negb same) [] ran None []).

(** runGate *)
Definition runGate (id : gostring) (rerun full : bool) : MCmd GateResult :=
  let* (_, rm) := loadRoadmapDoc in
  let* m := find_or_fail rm id in
  refuse (ms_Gate m =s "") (FailError "milestone.no-gate");;
  let* w := get in
  let base := match mh_loadRecords H AtBase with Some _ => [] | None => match mw_Records w !! id with Some rec => Base (mr_Approval rec) | None => [] end end in
  let* gates := run_at RunGateCmd (gateEnv id base) [gate_check (bs "gate-" ++ id) (ms_Gate m)] in
  let gate := default (interruptedResult (ms_Gate m)) (head gates) in
  let skip := negb (Z.eqb (cr_Exit gate) 0) && negb full in
  let spec := if skip then fst (withoutFull spec_checks) else spec_checks in
  let fullSkipped := if skip then snd (withoutFull spec_checks) else 0 in
  let cmd := mh_regressionCmd H in
  let skipped := if (cmd <>s "") && skip then Some (MkVerdict cmd 0 None [] false false [] 0 [] [] RegressionSkippedGateRed [] 0) else None in
  let '(plain, fullChecks) := splitFull spec in
  let* w := get in
  let current := if negb skip && negb rerun then currentFullRun w id fullChecks cmd else None in
  let* results := run_at RunSpec [] plain in
  let* fr := if skip then cret None
             else match current with
                  | Some f => cret (Some f)
                  | None => let* f := runFull id fullChecks cmd (if full then "close" else "gate") in cret (Some f)
                  end in
  let results := results ++ match fr with Some f => fr_Results f | None => [] end in
  let regression := fr ≫= fr_Regression in
  let ran := gate :: results ++ option_list regression in
  let run := MkGateRun (cr_Exit gate) (mh_now H AtGate) (mh_headSHA H AtGate) (ms_Gate m) (lastN (cr_Tail gate) 15) (length spec) (failed_of results)
    (StrayFiles ran) (match regression with Some _ => fr ≫= fr_Verdict | None => skipped end) (cr_Reason gate) (cr_Detail gate) (cr_ShellNote gate)
    (cr_Leftovers gate) (cr_Task <$> List.filter cr_Flaky ran) fullSkipped (match current with Some f => fr_At f | None => [] end) in
  record_run id (ms_Status m) run ran.

(** ** The commands *)

(** NewMilestoneWith; [usd] is the budget as it is written. *)
Definition NewMilestone (title gate goal tokens wall : gostring) (usd : option gostring) : MCmd gostring :=
  check (mh_recover H);;
  let title := TrimSpace title in
  refuse (title =s "") (UsageError "usage.title");;
  refuse (TrimSpace gate =s "") (UsageError "usage.gate");;
  refuse (Contains gate [nl] || Contains title [nl]) (UsageError "usage.one-line");;
  let tokens := TrimSpace tokens in
  refuse ((tokens <>s "") && negb (isSome (mh_ParseTokens H tokens))) (UsageError "usage.budget");;
  let wall := TrimSpace wall in
  refuse ((wall <>s "") && negb (isSome (mh_ParseDuration H wall))) (UsageError "usage.budget");;
  refuseOnChangeBranch;;
  let* (doc, rm) := loadRoadmapDoc in
  let id := NextID rm in
  let* own := milestoneOwn in
  writeRoadmap AtNew (appendMilestoneBudgets (AppendMilestone doc id title gate usd goal []) tokens wall);;
  commitMilestone AtNew own;;
  cret id.

(** filterMilestone *)
Definition filterMilestone (fs : list Finding) (m : Milestone gostring) : list Finding :=
  List.filter (fun f => HasPrefix (fd_Message f) (ms_ID m ++ " ") && negb (Contains (fd_Message f) "status") && negb (Contains (fd_Message f) "Status")) fs.

(** Whether approve has nothing to record. *)
Definition approval_stands (m : Milestone gostring) (rec : option MilestoneRecord) : bool :=
  (ms_Status m =s MilestoneApproved) &&
  match rec with
  | Some r => match mr_Approval r with
              | Some a => bool_decide (gateDrift Before m a = []) && negb (gateScriptUnrecorded m a) && Z.eqb (mr_ConsecutiveBlocks r) 0
              | None => false
              end
  | None => false
  end.

Definition set_approval (a : MilestoneApproval) (r : MilestoneRecord) : MilestoneRecord :=
  MkMRecord (mr_Result r) (mr_Since r) (Some a) (mr_DoneAt r) (mr_AcceptRed r) 0 (mr_GateArchived r).

(** The milestone's start: HEAD at its first approval. *)
Definition start_of_milestone (rec : option MilestoneRecord) : gostring :=
  let base := Base (rec ≫= mr_Approval) in if base <>s "" then base else mh_headSHA H AtMApprove.

(** approveMilestone; [acceptGreen] is the reason given with --accept-green, "" for none.
    The value says whether an approval was recorded. *)
Definition approveMilestone (id by_ acceptGreen : gostring) : MCmd (Milestone gostring * bool) :=
  check (mh_person H ActMilestoneApprove);;
  check (mh_recover H);;
  refuse (TrimSpace by_ =s "") (UsageError "usage.by");;
  refuseOnChangeBranch;;
  let* (doc, rm) := loadRoadmapDoc in
  let* m := find_or_fail rm id in
  let* recs := loadRecords AtMApprove in
  let rec := recs !! id in
  refuse (ms_Status m =s MilestoneDone) (FailError "milestone.done");;
  if approval_stands m rec then cret (m, false)
  else
    refuse (negb (bool_decide (filterMilestone (ValidateRoadmap (mh_ToLower H) (mh_ParseFloat H) (mh_ParseDuration H) (mh_ParseTokens H) RoadmapRel doc) m = [])))
      (FailError "milestone.malformed");;
    let base := start_of_milestone rec in
    let reapproval := ms_Status m =s MilestoneApproved in
    refuse ((acceptGreen <>s "") && negb reapproval) (UsageError "usage.accept-green");;
    let* sc := gateSelfCheck m base reapproval (acceptGreen <>s "") in
    let* own := milestoneOwn in
    let* m := if reapproval then cret m
              else match WithStatus rm id (bs "approved (by " ++ TrimSpace by_ ++ " " ++ mh_now H AtMApprove ++ ")") with
                   | None => fail OtherError
                   | Some updated => writeRoadmap AtMApprove updated;; find_or_fail (parseRoadmap [] updated) id
                   end in
    let green := if Z.eqb (sc_Exit sc) 0 then Some (MkAcceptGreen acceptGreen (TrimSpace by_) (mh_now H AtMApprove)) else None in
    saveRecords AtMApprove (<[id := set_approval (newApproval m (TrimSpace by_) sc base green) (default no_record rec)]> recs);;
    commitMilestone AtMApprove own;;
    cret (m, true).

(** ApproveMilestoneOutcome *)
Definition ApproveMilestone (id by_ : gostring) (acceptGreen : option gostring) : MCmd (Milestone gostring * bool) :=
  match acceptGreen with
  | None => approveMilestone id by_ []
  | Some reason =>
      let reason := TrimSpace reason in
      refuse ((reason =s "") || Contains reason [nl]) (UsageError "usage.reason");;
      approveMilestone id by_ reason
  end.

(** GatePreflight *)
Definition GatePreflight (id : gostring) : MCmd unit :=
  refuseOnChangeBranch;;
  let* w := get in
  match mw_Roadmap w ≫= (fun doc => find_milestone (parseRoadmap RoadmapRel doc) id) with
  | None => cret tt
  | Some m =>
      if ms_Status m =s MilestoneDone then fail (FailError "milestone.done")
      else if ms_Status m =s MilestoneApproved then requireApprovalRecord AtPreflight m
      else cret tt
  end.

Definition set_commit (sha : gostring) (g : GateResult) : GateResult :=
  MkGateResult (g_Milestone g) (g_Run g) (g_Status g) (g_ResultChanged g) sha (g_checks g) (g_AcceptRed g) (g_GateArchived g).

(** RunGate *)
Definition RunGate (id : gostring) (rerun : bool) : MCmd GateResult :=
  check (mh_recover H);;
  GatePreflight id;;
  let* own := recordsOwn in
  let* g := runGate id rerun false in
  if negb (g_ResultChanged g) then cret g
  else let* sha := commitMilestone AtGate own in cret (set_commit sha g).

(** RunFull *)
Definition RunFull (id : gostring) : MCmd FullRun :=
  GatePreflight id;;
  let* (_, rm) := loadRoadmapDoc in
  let* _ := find_or_fail rm id in
  let* f := runFull id (snd (splitFull spec_checks)) (mh_regressionCmd H) "full" in
  refuse (negb (FullGreen f)) (FailError CodeFullRed);;
  cret f.

(** RunSpecOnly: the red results; it records nothing a command reads. *)
Definition RunSpecOnly (id : gostring) : MCmd (list CheckResult) :=
  check (mh_recover H);;
  refuseOnChangeBranch;;
  let* (_, rm) := loadRoadmapDoc in
  let* m := find_or_fail rm id in
  (if ms_Status m =s MilestoneDone then fail (FailError "milestone.done")
   else if ms_Status m =s MilestoneApproved then requireApprovalRecord AtPreflight m else cret tt);;
  let* results := run_at RunSpecAlone [] (fst (withoutFull spec_checks)) in
  cret (failed_of results).

(** SpecOnlyResult.Err *)
Definition SpecOnlyErr (failed : list CheckResult) : option Err :=
  if bool_decide (length failed = 0) then None else Some (FailError CodeGateSpecRed).

(** *** Close *)

(** The changes of a milestone still in flight. *)
Definition inFlight (id : gostring) : list gostring :=
  omap (fun '(cid, doc, st) =>
    match doc, st with
    | Some doc, Some st =>
        if (m_Milestone (c_Meta doc) =s id) && match st_Status st with StatusInProgress | StatusVerified | StatusReviewed => true | _ => false end
        then Some cid else None
    | _, _ => None
    end) (mh_changes H).

Definition MilestoneGateArchiveDir (id : gostring) : gostring :=
  filepath_Join (filepath_Join (Dev (mh_project H)) "archive") (bs "milestones/" ++ id ++ "/gate").

(** gateArchivePlan *)
Definition gateArchivePlan (id : gostring) : MCmd (list GateArchive) :=
  match mh_gateFolders H with
  | [] => cret []
  | folders =>
      let dst := MilestoneGateArchiveDir id in
      refuse (mh_archiveExists H) (FailError CodeGateArchiveExists);;
      cret ((fun f => MkGateArchive (Rel (mh_project H) f)
               (Rel (mh_project H) (if Nat.ltb 1 (length folders) then filepath_Join dst (filepath_Base f) else dst))) <$> folders)
  end.

(** archiveGateFolders *)
Fixpoint archiveGateFolders (plan : list GateArchive) : MCmd unit :=
  match plan with
  | [] => cret tt
  | a :: plan' => check (mh_move H a);; modify (fun w => set_mw_Moved (mw_Moved w ++ [a]) w);; archiveGateFolders plan'
  end.

Definition set_done (at_ : gostring) (red : option AcceptRed) (archived : list GateArchive) (r : MilestoneRecord) : MilestoneRecord :=
  MkMRecord (mr_Result r) (mr_Since r) (mr_Approval r) at_ (match red with Some _ => red | None => mr_AcceptRed r end) (mr_ConsecutiveBlocks r)
    (match archived with [] => mr_GateArchived r | _ => archived end).

(** markDone *)
Definition markDone (id at_ : gostring) (red : option AcceptRed) (archived : list GateArchive) : MCmd unit :=
  let* recs := loadRecords AtDone in
  saveRecords AtDone (<[id := set_done at_ red archived (default no_record (recs !! id))]> recs).

(** The close, once its gate has run and may be closed on. *)
Definition write_done (id : gostring) (g : GateResult) (run : GateRun) (red : option (gostring * gostring)) (plan : list GateArchive) : MCmd GateResult :=
  let red := if Green run then None else red in
  let* (_, rm) := loadRoadmapDoc in
  archiveGateFolders plan;;
  let sha := if gr_SHA run =s "" then bs "0000000" else gr_SHA run in
  let accepted := (fun '(reason, by_) => MkAcceptRed reason by_ (mh_now H AtDone) (Some (saved_run run))) <$> red in
  let status := match red with
                | Some (_, by_) => bs "done (accepted red by " ++ by_ ++ " " ++ mh_now H AtDone ++ " " ++ sha ++ ")"
                | None => bs "done (" ++ gr_At run ++ " " ++ sha ++ ")"
                end in
  match WithStatus rm id status with
  | None => fail OtherError
  | Some updated =>
      writeRoadmap AtDone updated;;
      markDone id (gr_At run) accepted plan;;
      match mh_evidence H with Some (Some e) => fail e | _ => cret tt end;;
      let* sha := commitMilestone AtDone (MkOwn None None) in
      cret (MkGateResult id (Some run) MilestoneDone (g_ResultChanged g) sha (g_checks g) accepted plan)
  end.

(** closeMilestone; [red] is a person's reason and name for accepting a red gate. *)
Definition closeMilestone (id : gostring) (rerun : bool) (red : option (gostring * gostring)) : MCmd GateResult :=
  check (mh_recover H);;
  refuseOnChangeBranch;;
  let* (_, rm) := loadRoadmapDoc in
  let* m := find_or_fail rm id in
  if ms_Status m =s MilestoneDone then cret (MkGateResult id None MilestoneDone false [] [] None [])
  else
    refuse (ms_Status m <>s MilestoneApproved) (FailError CodeMilestoneNotApproved);;
    requireApprovalRecord AtClose m;;
    refuse (negb (bool_decide (inFlight id = []))) (FailError "milestone.changes-in-flight");;
    let* plan := gateArchivePlan id in
    let* own := recordsOwn in
    let* g := runGate id rerun true in
    match g_Run g with
    | None => fail OtherError
    | Some run =>
        if negb (Green run) && bool_decide (red = None) then
          (if g_ResultChanged g then let* _ := commitMilestone AtRedClose own in cret tt else cret tt);;
          fail (FailError "gate.red")
        else write_done id g run red plan
    end.

Definition CloseMilestone (id : gostring) (rerun : bool) : MCmd GateResult := closeMilestone id rerun None.

(** CloseMilestoneAcceptRed *)
Definition CloseMilestoneAcceptRed (id reason by_ : gostring) (rerun : bool) : MCmd GateResult :=
  check (mh_person H ActAcceptRed);;
  let reason := TrimSpace reason in
  let by_ := TrimSpace by_ in
  refuse ((reason =s "") || Contains reason [nl]) (UsageError "usage.reason");;
  refuse (by_ =s "") (UsageError "usage.by");;
  closeMilestone id rerun (Some (reason, by_)).

(** *** The counts of blocked changes (blocks.go) *)

Definition set_blocks (n : Z) (r : MilestoneRecord) : MilestoneRecord :=
  MkMRecord (mr_Result r) (mr_Since r) (mr_Approval r) (mr_DoneAt r) (mr_AcceptRed r) n (mr_GateArchived r).

(** noteBlocked's edit of milestones.json, and resetBlocks. *)
Definition countBlock (id : gostring) (recs : gmap gostring MilestoneRecord) : gmap gostring MilestoneRecord :=
  let r := default no_record (recs !! id) in <[id := set_blocks (mr_ConsecutiveBlocks r + 1) r]> recs.
Definition resetBlocks (id : gostring) (recs : gmap gostring MilestoneRecord) : gmap gostring MilestoneRecord :=
  match recs !! id with Some r => <[id := set_blocks 0 r]> recs | None => recs end.

(** milestoneRecordFindings of one milestone, as whether it has one. *)
Definition unrecorded (w : MWorld) (m : Milestone gostring) : bool :=
  let rec := mw_Records w !! ms_ID m in
  if ms_Status m =s MilestoneApproved then
    match rec ≫= mr_Approval with None => true | Some a => negb (bool_decide (gateDrift Before m a = [])) end
  else if ms_Status m =s MilestoneDone then
    match rec with
    | None => true
    | Some r => (mr_DoneAt r =s "") && (mr_Result r <>s GateGreen) && negb (isSome (mr_AcceptRed r))
    end
  else false.
End milestones.
