(* ===== verification/MilestoneFacts.v ===== *)
(** Theorems of the milestones: what a close stands on, what an approval freezes, and what
    the records always hold. *)
From S2P Require Import Prelude Regex Markdown Spec Change Merge Effective Regression Runner Roadmap State Command Lifecycle Shell PersonMatch Paths GateScript EditGuard Milestone.

(** ** What a gate run shows *)

(** Each check has a result that passed. *)
Definition passes (checks : list PlannedCheck) (results : list CheckResult) : Prop :=
  forall pc, pc ∈ checks -> exists r, r ∈ results /\ cr_Task r = pc_Ref pc /\ cr_Exit r = 0%Z.

Lemma failed_of_nil results : failed_of results = [] <-> Forall (fun r => cr_Exit r = 0%Z) results.
Proof.
  unfold failed_of. induction results as [|r rs IH]; [done|]. cbn [List.filter]. rewrite Forall_cons. destruct (Z.eqb_spec (cr_Exit r) 0) as [E|E]; cbn [negb].
  - rewrite IH. tauto.
  - rewrite fmap_cons. split; [done|]. by intros [? _].
Qed.

Lemma passes_of checks results all : cr_Task <$> results = pc_Ref <$> checks -> Forall (fun r => cr_Exit r = 0%Z) results ->
  (forall r, r ∈ results -> r ∈ all) -> passes checks all.
Proof.
  intros Ht Hg Hin pc Hpc. assert (pc_Ref pc ∈ cr_Task <$> results) as H by (rewrite Ht; by apply list_elem_of_fmap_2).
  apply list_elem_of_fmap in H as (r & -> & Hr). exists r. split_and!; [by apply Hin|done|]. by eapply (proj1 (Forall_forall _ _)) in Hg.
Qed.

Section gate.
Context (H : MHost).
Local Abbreviation plain := (fst (splitFull (spec_checks H))).
Local Abbreviation fulls := (snd (splitFull (spec_checks H))).

(** A full run made now: a result for each full check, and the regression command judged. *)
Definition full_now (id : gostring) (f : FullRun) : Prop :=
  cr_Task <$> fr_Results f = pc_Ref <$> fulls /\ fr_Checks f = fullChecksKey H fulls (mh_regressionCmd H) /\
  (mh_regressionCmd H <> [] -> exists r base out, fr_Verdict f = Some (fst (judgeRegression r base out)) /\ fr_Regression f = Some (snd (judgeRegression r base out)) /\
    cr_Task r = regressionRef) /\
  (mh_regressionCmd H = [] -> fr_Regression f = None).

(** What a gate run is: the gate command, the plain scenarios, and the full run unless the
    gate is red already and it is no close. *)
Definition gate_ran (id : gostring) (full : bool) (w : MWorld) (g : GateResult) (run : GateRun) : Prop :=
  exists gate results fr,
    gr_Exit run = cr_Exit gate /\ cr_Task <$> results = pc_Ref <$> plain /\
    g_checks g = gate :: (results ++ match fr with Some f => fr_Results f | None => [] end) ++ option_list (fr ≫= fr_Regression) /\
    gr_SpecFailed run = failed_of (results ++ match fr with Some f => fr_Results f | None => [] end) /\
    match fr with
    | None => full = false /\ cr_Exit gate <> 0%Z
    | Some f => (full = true \/ cr_Exit gate = 0%Z) /\
        gr_Regression run = match fr_Regression f with Some _ => fr_Verdict f | None => None end /\
        (full_now id f \/ currentFullRun H w id fulls (mh_regressionCmd H) = Some f)
    end.

(** What a gate run writes of milestones.json. *)
Definition recorded (id : gostring) (run : GateRun) (g : GateResult) (recs recs' : gmap gostring MilestoneRecord) : Prop :=
  if g_ResultChanged g then recs' = <[id := set_result (gateResult run) run (default no_record (recs !! id))]> recs
  else recs' = recs /\ exists rec, recs !! id = Some rec /\ mr_Result rec = gateResult run.

(** Invariants that do not depend on the logs or on roadmap.md. *)
Class Keeps (I : MWorld -> Prop) : Prop := {
  keeps_roadmap r w : I w -> I (set_mw_Roadmap r w); keeps_full f w : I w -> I (set_mw_Full f w);
  keeps_last g w : I w -> I (set_mw_LastGate g w); keeps_moved l w : I w -> I (set_mw_Moved l w) }.

Lemma wp_run_at I s env checks (Q : list CheckResult -> MWorld -> Prop) w : Keeps I -> I w ->
  (forall rs, cr_Task <$> rs = pc_Ref <$> checks -> let w' := set_mw_Roadmap (mh_edited H s (mw_Roadmap w)) w in I w' -> Q rs w') ->
  wp I (run_at H s env checks) Q w.
Proof.
  intros K Hi HQ. unfold run_at. wps.
  - by apply keeps_roadmap.
  - apply HQ; [apply RunChecks_tasks|by apply keeps_roadmap].
Qed.

Lemma fmap_last_split {A B} (f : A -> B) (l : list A) (l' : list B) (b : B) : f <$> l = l' ++ [b] ->
  exists x, last l = Some x /\ f x = b /\ f <$> removelast l = l'.
Proof.
  intros Hl. assert (l <> []) as Hn by (intros ->; by destruct l'). destruct (exists_last Hn) as (k & x & ->).
  rewrite fmap_app in Hl. apply app_inj_2 in Hl as [Hk Hx]; [|done]. exists x. rewrite last_snoc, removelast_last. by simplify_eq/=.
Qed.

Lemma wp_runFull I id by_ (Q : FullRun -> MWorld -> Prop) w : Keeps I -> I w ->
  (forall f w', full_now id f -> mw_Records w' = mw_Records w -> I w' -> Q f w') ->
  wp I (runFull H id fulls (mh_regressionCmd H) by_) Q w.
Proof.
  intros K Hi HQ. unfold runFull. apply wp_bind, wp_run_at; [done|done|]. intros rs Hrs w1 Hi1. apply wp_bind, wp_get, wp_bind.
  assert (forall f, full_now id f -> wp I (if mh_writeLog H AtFull then modify (fun w => set_mw_Full (<[id := saved_full f]> (mw_Full w)) w) else cret tt)
    (fun _ => wp I (cret f) Q) w1) as Hw.
  { intros f Hf. destruct (mh_writeLog H AtFull); wps; apply HQ; auto. by apply keeps_full. }
  apply Hw. clear Hw HQ. unfold full_now. cbn [fr_Results fr_Checks fr_Regression fr_Verdict].
  destruct (decide (mh_regressionCmd H = bs "")) as [E|E]; [rewrite (bool_decide_true _ E) in *|rewrite (bool_decide_false _ E) in *]; cbn [negb] in *.
  - split_and!; try done.
  - rewrite fmap_app in Hrs. apply fmap_last_split in Hrs as (r & Hl & Hr & Hrm). rewrite Hl. cbn [fmap option_fmap option_map fst snd].
    split_and!; [done|done| |done]. intros _. eexists r, _, _. done.
Qed.

(** Closed under the records of runs too. *)
Definition keeps_runs (I : MWorld -> Prop) (id : gostring) : Prop := forall run w,
  I w -> I (set_mw_Records (<[id := set_result (gateResult run) run (default no_record (mw_Records w !! id))]> (mw_Records w)) w).

Lemma wp_record_run I id status run ran (Q : GateResult -> MWorld -> Prop) w : Keeps I -> keeps_runs I id -> I w ->
  (forall g w', g_Run g = Some run -> g_checks g = ran -> recorded id run g (mw_Records w) (mw_Records w') -> I w' -> Q g w') ->
  wp I (record_run H id status run ran) Q w.
Proof.
  intros K Kr Hi HQ. unfold record_run, loadRecords, saveRecords. apply wp_bind.
  assert (forall w1, I w1 -> mw_Records w1 = mw_Records w -> wp I (check (mh_loadRecords H AtGate);; let* w2 := get in cret (mw_Records w2))
    (fun recs => wp I ((if match recs !! id with Some rec => mr_Result rec =s gateResult run | None => false end then cret tt
      else check (mh_saveRecords H AtGate);; modify (set_mw_Records (<[id := set_result (gateResult run) run (default no_record (recs !! id))]> recs)));;
      cret (MkGateResult id (Some run) status (negb match recs !! id with Some rec => mr_Result rec =s gateResult run | None => false end) [] ran None [])) Q) w1) as Hrest.
  { intros w1 Hi1 Hr. wps; match goal with E : _ = _ |- Q _ _ => rewrite E; apply HQ; try done; unfold recorded; cbn [g_ResultChanged negb]; rewrite Hr in E end.
    - rewrite Hr. split; [done|]. destruct (mw_Records w !! id) as [rec|]; [|done]. exists rec. split; [done|]. by apply (bool_decide_eq_true _).
    - unfold set_mw_Records. cbn [mw_Records]. by rewrite Hr.
    - by apply Kr. }
  destruct (mh_writeLog H AtGate); [apply wp_modify|apply wp_ret]; apply wp_bind, Hrest; auto. by apply keeps_last.
Qed.

Lemma wp_find_or_fail I rm id (Q : Milestone gostring -> MWorld -> Prop) w : I w ->
  (forall m, find_milestone rm id = Some m -> Q m w) -> wp I (find_or_fail rm id) Q w.
Proof. intros Hi HQ. unfold find_or_fail. destruct (find_milestone rm id); wps; auto. Qed.

Lemma wp_loadRoadmapDoc I (Q : gostring * Roadmap gostring -> MWorld -> Prop) w : I w ->
  (forall doc, mw_Roadmap w = Some doc -> Q (doc, parseRoadmap H (RoadmapRel H) doc) w) -> wp I (loadRoadmapDoc H) Q w.
Proof. intros Hi HQ. unfold loadRoadmapDoc. wps. destruct (mw_Roadmap w); wps; auto. Qed.

Lemma filter_twice l : List.filter (fun pc => negb (pc_Full pc)) (fst (withoutFull l)) = fst (splitFull l).
Proof. cbn [withoutFull splitFull fst]. induction l as [|pc l IH]; [done|]. cbn [List.filter]. destruct (pc_Full pc) eqn:E; cbn [negb List.filter]; rewrite ?E; cbn [negb]; by rewrite ?IH. Qed.

Lemma filter_full_none l : List.filter pc_Full (fst (withoutFull l)) = [].
Proof. cbn [withoutFull fst]. induction l as [|pc l IH]; [done|]. cbn [List.filter]. destruct (pc_Full pc) eqn:E; cbn [negb List.filter]; by rewrite ?E. Qed.

Lemma wp_runGate I id rerun full (Q : GateResult -> MWorld -> Prop) w : Keeps I -> keeps_runs I id -> I w ->
  (forall g run w', g_Run g = Some run -> gate_ran id full w g run -> recorded id run g (mw_Records w) (mw_Records w') -> I w' -> Q g w') ->
  wp I (runGate H id rerun full) Q w.
Proof.
  intros K Kr Hi HQ. unfold runGate. apply wp_bind, wp_loadRoadmapDoc; [done|]. intros doc _. apply wp_bind, wp_find_or_fail; [done|]. intros m _.
  wps. apply wp_run_at; [done|done|]. intros gates _ w1 Hi1. set (gate := default _ (head gates)). cbv zeta.
  apply wp_bind, wp_get. set (skip := negb (Z.eqb (cr_Exit gate) 0) && negb full).
  assert (List.filter (fun pc => negb (pc_Full pc)) (if skip then fst (withoutFull (spec_checks H)) else spec_checks H) = plain) as ->.
  { destruct skip; [apply filter_twice|done]. }
  assert (List.filter pc_Full (if skip then fst (withoutFull (spec_checks H)) else spec_checks H) = if skip then [] else fulls) as ->.
  { destruct skip; [apply filter_full_none|done]. }
  apply wp_bind, wp_run_at; [done|done|]. intros results Hres w2 Hi2. apply wp_bind.
  set (current := if negb skip && negb rerun then _ else None).
  assert (forall fr w', match fr with
      | None => skip = true
      | Some f => skip = false /\ (full_now id f \/ currentFullRun H w id fulls (mh_regressionCmd H) = Some f) end ->
      mw_Records w' = mw_Records w -> I w' ->
    forall spec fullSkipped, wp I (record_run H id (ms_Status m)
      (MkGateRun (cr_Exit gate) (mh_now H AtGate) (mh_headSHA H AtGate) (ms_Gate m) (lastN (cr_Tail gate) 15) spec
         (failed_of (results ++ match fr with Some f => fr_Results f | None => [] end))
         (StrayFiles (gate :: (results ++ match fr with Some f => fr_Results f | None => [] end) ++ option_list (fr ≫= fr_Regression)))
         (match fr ≫= fr_Regression with Some _ => fr ≫= fr_Verdict | None => if (mh_regressionCmd H <>s "") && skip then
            Some (MkVerdict (mh_regressionCmd H) 0 None [] false false [] 0 [] [] RegressionSkippedGateRed [] 0) else None end)
         (cr_Reason gate) (cr_Detail gate) (cr_ShellNote gate) (cr_Leftovers gate)
         (cr_Task <$> List.filter cr_Flaky (gate :: (results ++ match fr with Some f => fr_Results f | None => [] end) ++ option_list (fr ≫= fr_Regression)))
         fullSkipped match current with Some f => fr_At f | None => [] end)
      (gate :: (results ++ match fr with Some f => fr_Results f | None => [] end) ++ option_list (fr ≫= fr_Regression))) Q w') as Hend.
  { intros fr w' Hfr Hrec Hi' spec fullSkipped. apply wp_record_run; [done|done|done|]. intros g w'' Hg Hch Hr Hi''. rewrite Hrec in Hr.
    eapply HQ; [exact Hg| |exact Hr|done]. exists gate, results, fr. cbn [gr_Exit gr_SpecFailed gr_Regression]. split_and!; try done.
    unfold skip in Hfr. destruct fr as [f|].
    - destruct Hfr as [Hs Hf]. rewrite andb_false_iff, !negb_false_iff, Z.eqb_eq in Hs. split_and!; [tauto| |done]. cbn [mbind option_bind].
      destruct (fr_Regression f); [done|]. unfold skip. destruct Hs as [Hs|Hs]; rewrite ?Hs; cbn [negb andb]; by rewrite ?andb_false_r.
    - rewrite andb_true_iff, !negb_true_iff, Z.eqb_neq in Hfr. tauto. }
  destruct skip eqn:Es; [wps; by apply (Hend None)|]. destruct current as [f|] eqn:Ec.
  - wps. apply (Hend (Some f)); [|done|done]. split; [done|]. right. unfold current in Ec. destruct (negb rerun); [|done]. exact Ec.
  - apply wp_bind, wp_runFull; [done|done|]. intros f w3 Hf Hr3 Hi3. wps. apply (Hend (Some f)); [|by rewrite Hr3|done]. auto.
Qed.

(** ** Close *)

Lemma find_milestone_id (rm : Roadmap gostring) id m : find_milestone rm id = Some m -> ms_ID m = id.
Proof. intros E. apply find_some in E as [_ E]. by apply bool_decide_eq_true in E. Qed.

Lemma wp_requireApprovalRecord I s m (Q : unit -> MWorld -> Prop) w : I w ->
  (forall rec a, mw_Records w !! ms_ID m = Some rec -> mr_Approval rec = Some a -> gateDrift H Before m a = [] -> Q tt w) ->
  wp I (requireApprovalRecord H s m) Q w.
Proof.
  intros Hi HQ. unfold requireApprovalRecord, loadRecords. wps. destruct (mw_Records w !! ms_ID m) as [rec|] eqn:E; [|by wps].
  destruct (mr_Approval rec) as [a|] eqn:Ea; wps; [|done]. eapply HQ; [done|exact Ea|]. by apply (bool_decide_eq_true _), negb_false_iff.
Qed.

Lemma wp_archiveGateFolders I plan (Q : unit -> MWorld -> Prop) : Keeps I -> forall w, I w ->
  (forall w', mw_Records w' = mw_Records w -> I w' -> Q tt w') -> wp I (archiveGateFolders H plan) Q w.
Proof.
  intros K. induction plan as [|a plan IH]; intros w Hi HQ; cbn [archiveGateFolders]; wps; [by apply HQ|].
  apply IH; [by apply keeps_moved|]. intros w' Hr. by apply HQ.
Qed.

Lemma wp_gateArchivePlan I id (Q : list GateArchive -> MWorld -> Prop) w : I w -> (forall plan, Q plan w) -> wp I (gateArchivePlan H id) Q w.
Proof. intros Hi HQ. unfold gateArchivePlan. destruct (mh_gateFolders H); wps; auto. Qed.

(** A commit leaves the world, or refuses it, or undoes what [own] holds. *)
Lemma wp_commitMilestone I s own (Q : gostring -> MWorld -> Prop) w : I w -> (forall b c, I (undo own b c w)) -> (forall sha, Q sha w) ->
  wp I (commitMilestone H s own) Q w.
Proof. intros Hi Hu HQ. unfold commitMilestone. wps; [auto|]. destruct (mh_commit H s); wps; auto. Qed.

(** What a gate run recorded of a milestone it holds an approval of. *)
Lemma recorded_keeps id run g recs recs' rec a : recorded id run g recs recs' -> recs !! id = Some rec -> mr_Approval rec = Some a ->
  exists rec', recs' !! id = Some rec' /\ mr_Approval rec' = Some a /\ mr_Result rec' = gateResult run.
Proof.
  unfold recorded. destruct (g_ResultChanged g).
  - intros -> Hr Ha. rewrite Hr. cbn [default]. eexists. rewrite lookup_insert_eq. by split_and!.
  - intros [-> (rec' & Hr' & Hres)] Hr Ha. exists rec'. rewrite Hr in Hr'. by simplify_eq.
Qed.

(** A close that wrote done: what it wrote. *)
Definition closed (id : gostring) (run : GateRun) (red : option (gostring * gostring)) (recs : gmap gostring MilestoneRecord) (g : GateResult) (w' : MWorld) : Prop :=
  g_Run g = Some run /\ g_Status g = MilestoneDone /\
  (exists doc status, mw_Roadmap w' = WithStatus (parseRoadmap H (RoadmapRel H) doc) id status /\ HasPrefix status "done (" = true) /\
  exists plan, mw_Records w' = <[id := set_done (gr_At run) (g_AcceptRed g) plan (default no_record (recs !! id))]> recs /\
  match g_AcceptRed g with
  | None => Green run = true \/ red = None
  | Some ar => Green run = false /\ red = Some (acr_Reason ar, acr_By ar) /\ acr_Gate ar = Some (saved_run run)
  end.

Definition keeps_done (I : MWorld -> Prop) (id : gostring) (run : GateRun) (red : option (gostring * gostring)) : Prop :=
  forall ar plan w, I w -> is_Some (mw_Records w !! id ≫= mr_Approval) -> match ar with
      | None => True
      | Some ar => Green run = false /\ red = Some (acr_Reason ar, acr_By ar) /\ acr_Gate ar = Some (saved_run run)
      end ->
    I (set_mw_Records (<[id := set_done (gr_At run) ar plan (default no_record (mw_Records w !! id))]> (mw_Records w)) w).

Lemma wp_write_done I id g run red plan (Q : GateResult -> MWorld -> Prop) w : Keeps I -> keeps_done I id run red -> I w -> is_Some (mw_Records w !! id ≫= mr_Approval) ->
  (forall g' w', g_checks g' = g_checks g -> closed id run red (mw_Records w) g' w' -> I w' -> Q g' w') ->
  wp I (write_done H id g run red plan) Q w.
Proof.
  intros K Kd Hi Hap HQ. unfold write_done. apply wp_bind, wp_loadRoadmapDoc; [done|]. intros doc Hdoc. cbv beta iota.
  apply wp_bind, wp_archiveGateFolders; [done|done|]. intros w1 Hr1 Hi1. set (red' := if Green run then None else red).
  set (status := match red' with Some _ => _ | None => _ end). set (accepted := _ <$> red').
  destruct (WithStatus _ id status) as [updated|] eqn:Es; wps; [|done].
  assert (match accepted with None => True | Some ar => Green run = false /\ red = Some (acr_Reason ar, acr_By ar) /\ acr_Gate ar = Some (saved_run run) end) as Ha.
  { unfold accepted, red'. destruct (Green run); [done|]. by destruct red as [[reason by_]|]. }
  unfold writeRoadmap, markDone, loadRecords, saveRecords. wps; try (by apply keeps_roadmap).
  - set (w2 := set_mw_Records _ _). assert (I w2) as Hi2 by (apply Kd; [by apply keeps_roadmap|cbn; by rewrite Hr1|done]).
    assert (wp I (commitMilestone H AtDone (MkOwn None None)) (fun sha => wp I (cret (MkGateResult id (Some run) MilestoneDone (g_ResultChanged g) sha (g_checks g) accepted plan)) Q) w2) as Hc.
    { apply wp_commitMilestone; [done|by intros [] []|]. intros sha. wps. apply HQ; [done| |done]. split_and!; [done|done| |].
      - exists doc, status. split; [by rewrite Es|]. unfold status. by destruct red' as [[? ?]|].
      - exists plan. cbn [g_AcceptRed]. split; [unfold w2; cbn; by rewrite Hr1|]. unfold accepted, red'. destruct (Green run); [by left|].
        by destruct red as [[reason by_]|]; [|right]. }
    destruct (mh_evidence H) as [[e|]|]; wps; done.
Qed.

Definition keeps_undo (I : MWorld -> Prop) : Prop := forall w0 w, I w0 -> I w -> I (set_mw_Records (mw_Records w0) w).

Lemma undo_records I w0 w b c : keeps_undo I -> I w0 -> I w -> I (undo (MkOwn None (Some (mw_Records w0))) b c w).
Proof. intros Ku H0 Hw. unfold undo. cbn. destruct c; [|done]. by apply Ku. Qed.

(** What closing needs, and what it then ran and wrote. *)
Definition close_post (id : gostring) (red : option (gostring * gostring)) (w : MWorld) (m : Milestone gostring) (g : GateResult) (w' : MWorld) : Prop :=
  ms_Status m = MilestoneApproved /\ inFlight H id = [] /\
  exists rec a g0 run recs, mw_Records w !! id = Some rec /\ mr_Approval rec = Some a /\ gateDrift H Before m a = [] /\
    gate_ran id true w g0 run /\ recorded id run g0 (mw_Records w) recs /\ (Green run = true \/ red <> None) /\
    g_checks g = g_checks g0 /\ closed id run red recs g w'.

Lemma wp_closeMilestone I id rerun red (Q : GateResult -> MWorld -> Prop) w :
  Keeps I -> keeps_runs I id -> (forall run, keeps_done I id run red) -> keeps_undo I -> I w ->
  (forall doc m, mw_Roadmap w = Some doc -> find_milestone (parseRoadmap H (RoadmapRel H) doc) id = Some m ->
    (ms_Status m = MilestoneDone -> forall g, Q g w) /\ (forall g w', close_post id red w m g w' -> I w' -> Q g w')) ->
  wp I (closeMilestone H id rerun red) Q w.
Proof.
  intros K Kr Kd Ku Hi HQ. unfold closeMilestone, refuseOnChangeBranch. wps; try done. apply wp_loadRoadmapDoc; [done|]. intros doc Hdoc. cbv beta iota.
  apply wp_bind, wp_find_or_fail; [done|]. intros m Hm. destruct (HQ doc m Hdoc Hm) as [HQd HQc]. clear HQ. apply wp_if; intros Ed.
  { wps. apply HQd. by apply bool_decide_eq_true in Ed. }
  wp1. apply wp_refuse; [done|]. intros Ea. apply negb_false_iff, bool_decide_eq_true in Ea.
  apply wp_bind, wp_requireApprovalRecord; [done|]. intros rec a Hrec Hap Hd. rewrite (find_milestone_id _ _ _ Hm) in Hrec. wp1.
  apply wp_refuse; [done|]. intros Hf. apply negb_false_iff, bool_decide_eq_true in Hf. apply wp_bind, wp_gateArchivePlan; [done|]. intros plan.
  unfold recordsOwn. wps. apply wp_runGate; [done|done|done|]. intros g run w1 Hg Hran Hr1 Hi1. rewrite Hg. apply wp_if; intros Hred.
  - apply wp_bind. apply wp_if; intros _; [|by wps]. wp1. apply wp_commitMilestone; [done|by intros b c; apply undo_records|]. intros sha. by wps.
  - destruct (recorded_keeps _ _ _ _ _ _ _ Hr1 Hrec Hap) as (rec1 & Hrec1 & Hap1 & _).
    apply wp_write_done; [done|done|done|by rewrite Hrec1; exists a|]. intros g' w' Hch Hcl Hi'. apply HQc; [|done]. split_and!; [done|done|].
    exists rec, a, g, run, (mw_Records w1). split_and!; try done. destruct (Green run); [by left|]. right. cbn [negb andb] in Hred.
    by apply bool_decide_eq_false in Hred.
Qed.

(** A gate run judged green: every plain scenario passed, and so did every full one, now or
    in the recorded full run it took. *)
Lemma green_passes id full w g run : gate_ran id full w g run -> Green run = true ->
  passes plain (g_checks g) /\
  (passes fulls (g_checks g) /\ (mh_regressionCmd H <> [] -> exists v, gr_Regression run = Some v /\ rv_Failed v = false) \/
   exists f, currentFullRun H w id fulls (mh_regressionCmd H) = Some f /\ Forall (fun r => r ∈ g_checks g) (fr_Results f)) /\
  (forall v, gr_Regression run = Some v -> rv_Failed v = false).
Proof.
  intros (gate & results & fr & Hexit & Ht & Hch & Hf & Hfr) Hg. unfold Green in Hg. rewrite !andb_true_iff, bool_decide_eq_true in Hg.
  destruct Hg as [[Hz%Z.eqb_eq Hl%nil_length_inv] Hv]. rewrite Hf in Hl. apply failed_of_nil, Forall_app in Hl as [Hl1 Hl2].
  destruct fr as [f|]; [|destruct Hfr as [_ Hn]; congruence]. destruct Hfr as (_ & Hgr & Hsrc).
  assert (forall v, gr_Regression run = Some v -> rv_Failed v = false) as Hvf.
  { intros v Ev. rewrite Ev in Hv. by apply negb_true_iff in Hv. }
  split_and!; [| |exact Hvf].
  - eapply passes_of; [exact Ht|done|]. intros r Hr. rewrite Hch. right. apply elem_of_app. left. apply elem_of_app. by left.
  - assert (forall r, r ∈ fr_Results f -> r ∈ g_checks g) as Hin.
    { intros r Hr. rewrite Hch. right. apply elem_of_app. left. apply elem_of_app. by right. }
    destruct Hsrc as [(Htf & _ & Hreg & _)|Hc]; [left; split; [by eapply passes_of|]|right; exists f; split; [done|]; by apply Forall_forall].
    intros Hcmd. destruct (Hreg Hcmd) as (r & base & out & Ev & Er & _). rewrite Er, Ev in Hgr. eexists. split; [exact Hgr|]. by apply Hvf.
Qed.
End gate.

(** A full run taken instead of a new one is green, of these very checks and this regression
    command, at this tree and under this approval. *)
Lemma currentFullRun_spec H w id checks cmd f : currentFullRun H w id checks cmd = Some f ->
  exists f0, mw_Full w !! id = Some f0 /\ FullGreen f0 = true /\ fr_Checks f0 = fullChecksKey H checks cmd /\
    approvalKey H w id = fr_Approval f0 /\ approvalKey H w id <> [] /\ mh_contentDigest H Before = Some (fr_Tree f0) /\
    cr_Exit <$> fr_Results f = cr_Exit <$> fr_Results f0.
Proof.
  unfold currentFullRun. destruct (mw_Full w !! id) as [f0|]; [|done]. destruct (FullGreen f0) eqn:E1; cbn [negb]; [|done].
  destruct (decide (fr_Checks f0 = fullChecksKey H checks cmd)) as [E2|E2]; [rewrite (bool_decide_true _ E2)|by rewrite (bool_decide_false _ E2)]. cbn [negb].
  destruct (decide (approvalKey H w id = bs "")) as [E3|E3]; [by rewrite (bool_decide_true _ E3)|rewrite (bool_decide_false _ E3)]. cbn [orb].
  destruct (decide (approvalKey H w id = fr_Approval f0)) as [E4|E4]; [rewrite (bool_decide_true _ E4)|by rewrite (bool_decide_false _ E4)]. cbn [negb].
  destruct (mh_contentDigest H Before) as [tree|] eqn:E5; [|done].
  destruct (decide (tree = fr_Tree f0)) as [->|E6]; [rewrite bool_decide_true by done|by rewrite (bool_decide_false _ E6)]. cbn [negb]. intros [= <-].
  exists f0. split_and!; try done. cbn [with_results fr_Results]. rewrite <- list_fmap_compose. by apply list_fmap_ext.
Qed.

Lemma keeps_true : Keeps (fun _ => True).
Proof. by constructor. Qed.

(** The world of a run that ended without an error, from its rule. *)
Lemma wp_run {A} (m : MCmd A) (Q : A -> MWorld -> Prop) w w' x : wp (fun _ => True) m Q w -> m w = (w', inr x) -> Q x w'.
Proof. unfold wp. intros Hw E. by rewrite E in Hw. Qed.

(** A close that ended well on a milestone that was not done. *)
Lemma close_ends H id rerun red w w' g doc m :
  mw_Roadmap w = Some doc -> find_milestone (parseRoadmap H (RoadmapRel H) doc) id = Some m -> ms_Status m <> MilestoneDone ->
  closeMilestone H id rerun red w = (w', inr g) -> close_post H id red w m g w'.
Proof.
  intros Hdoc Hm Hnd Hc. eapply (wp_run _ (fun g w' => close_post H id red w m g w')); [|exact Hc].
  apply wp_closeMilestone; [apply keeps_true|by red|by intros run; red|by red|done|]. intros doc' m' Hd' Hm'. by simplify_eq.
Qed.

(** A close leaves nothing for project check to report: the done it wrote is on record. *)
Lemma close_leaves_recorded H H' id rerun red w w' g doc m m' :
  mw_Roadmap w = Some doc -> find_milestone (parseRoadmap H (RoadmapRel H) doc) id = Some m -> ms_Status m <> MilestoneDone ->
  closeMilestone H id rerun red w = (w', inr g) -> ms_ID m' = id -> ms_Status m' = MilestoneDone -> unrecorded H' w' m' = false.
Proof.
  intros Hdoc Hm Hnd Hc Hid Hst.
  destruct (close_ends _ _ _ _ _ _ _ _ _ Hdoc Hm Hnd Hc)
    as (_ & _ & rec & a & g0 & run & recs & Hrec & Ha & _ & _ & Hr & Hgr & _ & _ & _ & _ & plan & Hrecs & Hacc).
  destruct (recorded_keeps _ _ _ _ _ _ _ Hr Hrec Ha) as (rec1 & Hrec1 & _ & Hres1). rewrite Hrec1 in Hrecs.
  unfold unrecorded. rewrite Hst, Hid, Hrecs, lookup_insert_eq. cbn [set_done mr_DoneAt mr_Result mr_AcceptRed].
  rewrite bool_decide_false by done. rewrite bool_decide_true by done. change (default no_record (Some rec1)) with rec1. rewrite Hres1. unfold gateResult.
  destruct (Green run) eqn:Eg; [change (GateGreen <>s GateGreen) with false; by rewrite andb_false_r|]. destruct (g_AcceptRed g) as [ar|]; [by rewrite !andb_false_r|].
  exfalso. destruct Hgr as [?|Hn], Hacc; done.
Qed.

(** The two closes: the plain one, and a person's acceptance of a red gate with a reason
    and a name. *)
Definition close_command (H : MHost) (id : gostring) (rerun : bool) (red : option (gostring * gostring)) : MCmd GateResult :=
  match red with None => CloseMilestone H id rerun | Some (reason, by_) => CloseMilestoneAcceptRed H id reason by_ rerun end.

(** What it hands on: the reason and the name trimmed, neither empty, from a person. *)
Lemma close_command_ends H id rerun red w w' g : close_command H id rerun red w = (w', inr g) ->
  closeMilestone H id rerun ((fun '(reason, by_) => (TrimSpace reason, TrimSpace by_)) <$> red) w = (w', inr g) /\
  (forall reason by_, red = Some (reason, by_) -> mh_person H ActAcceptRed = None /\ TrimSpace reason <> [] /\ TrimSpace by_ <> []).
Proof.
  destruct red as [[reason by_]|]; [|done]. cbn [close_command fmap option_fmap option_map]. unfold CloseMilestoneAcceptRed, cbind, check, refuse, fail, cret.
  destruct (mh_person H ActAcceptRed) as [e|]; [done|]. destruct (bool_decide_reflect (TrimSpace reason = bs "")) as [E|E]; [done|].
  destruct (Contains _ _); [done|]. cbn [orb]. destruct (bool_decide_reflect (TrimSpace by_ = bs "")) as [E'|E']; [done|].
  intros Hc. split; [exact Hc|]. intros reason' by_' [= <- <-]. done.
Qed.


(** ** Approve *)

(** The exits of a gate that ran and is red. *)
Definition red_exit (n : Z) : Prop := n <> 0%Z /\ n <> ExitTimeout /\ n <> exitNotExecutable /\ n <> exitNotFound.

(** The self-check an approval may rest on: red, or green and accepted with a reason on a
    milestone already approved. *)
Definition checked (reapproval : bool) (reason : gostring) (sc : GateSelfCheck) (green : option AcceptGreen) : Prop :=
  match green with
  | None => red_exit (sc_Exit sc)
  | Some ag => sc_Exit sc = 0%Z /\ reapproval = true /\ ag_Reason ag = reason /\ reason <> []
  end.

Section approve.
Context (H : MHost).

Lemma wp_gateSelfCheck I m base reapproval acceptGreen (Q : GateSelfCheck -> MWorld -> Prop) w : Keeps I -> I w ->
  (forall sc, gateUnrunnable H (ms_Gate m) = false -> sc_Wrote sc = gateWrote (mh_stamps H Before) (mh_stamps H After) ->
     red_exit (sc_Exit sc) \/ (sc_Exit sc = 0%Z /\ reapproval && acceptGreen = true) ->
     let w' := set_mw_Roadmap (mh_edited H RunSelfCheck (mw_Roadmap w)) w in I w' -> Q sc w') ->
  wp I (gateSelfCheck H m base reapproval acceptGreen) Q w.
Proof.
  intros K Hi HQ. assert (I (set_mw_Roadmap (mh_edited H RunSelfCheck (mw_Roadmap w)) w)) as Hi' by by apply keeps_roadmap.
  unfold gateSelfCheck. set (r := mh_run H _ _ _). wp1. apply wp_refuse; [done|]. intros Hu. wps; try done.
  - apply HQ; [done|done| |done]. right. cbn [sc_Exit]. by rewrite <- Z.eqb_eq.
  - apply HQ; [done|done| |done]. left. cbn [sc_Exit]. rewrite !orb_false_iff, !Z.eqb_neq in *. unfold red_exit. tauto.
Qed.

(** What an approval that was recorded wrote. *)
Definition approve_post (id by_ reason : gostring) (w : MWorld) (doc : gostring) (m m' : Milestone gostring) (w' : MWorld) : Prop :=
  let reapproval := ms_Status m =s MilestoneApproved in
  exists sc base green, checked reapproval reason sc green /\ sc_Wrote sc = gateWrote (mh_stamps H Before) (mh_stamps H After) /\ TrimSpace by_ <> [] /\ gateUnrunnable H (ms_Gate m) = false /\
    mw_Records w' = <[id := set_approval (newApproval H m' (TrimSpace by_) sc base green) (default no_record (mw_Records w !! id))]> (mw_Records w) /\
    (if reapproval then m' = m /\ mw_Roadmap w' = mh_edited H RunSelfCheck (mw_Roadmap w)
     else mw_Roadmap w' = WithStatus (parseRoadmap H (RoadmapRel H) doc) id (bs "approved (by " ++ TrimSpace by_ ++ " " ++ mh_now H AtMApprove ++ ")")).

Definition keeps_approval (I : MWorld -> Prop) (id : gostring) : Prop := forall m by_ sc base green reapproval reason w,
  I w -> by_ <> [] -> checked reapproval reason sc green ->
  I (set_mw_Records (<[id := set_approval (newApproval H m by_ sc base green) (default no_record (mw_Records w !! id))]> (mw_Records w)) w).

Lemma wp_approveMilestone I id by_ reason (Q : Milestone gostring * bool -> MWorld -> Prop) w : Keeps I -> keeps_undo I -> keeps_approval I id -> I w ->
  (forall doc m, mw_Roadmap w = Some doc -> find_milestone (parseRoadmap H (RoadmapRel H) doc) id = Some m ->
    ms_Status m <> MilestoneDone -> mh_person H ActMilestoneApprove = None ->
    Q (m, false) w /\ (forall m' w', approve_post id by_ reason w doc m m' w' -> I w' -> Q (m', true) w')) ->
  wp I (approveMilestone H id by_ reason) Q w.
Proof.
  intros K Ku Ka Hi HQ. unfold approveMilestone, refuseOnChangeBranch. wp1. destruct (mh_person H ActMilestoneApprove) eqn:Ep; [done|]. wps; try done.
  apply wp_loadRoadmapDoc; [done|]. intros doc Hdoc. cbv beta iota. apply wp_bind, wp_find_or_fail; [done|]. intros m Hm.
  match goal with E : bool_decide (TrimSpace by_ = _) = false |- _ => apply bool_decide_eq_false in E as Hby end.
  unfold loadRecords. wps; try done; match goal with E : bool_decide (ms_Status m = MilestoneDone) = false |- _ => apply bool_decide_eq_false in E as Hnd end;
    destruct (HQ doc m Hdoc Hm Hnd eq_refl) as [HQf HQt]; [done|]. clear HQ.
  apply wp_gateSelfCheck; [done|done|]. intros sc Hun Hwr Hex w1 Hi1. unfold milestoneOwn. apply wp_bind, wp_bind, wp_get, wp_ret, wp_bind.
  set (reapproval := bool_decide (ms_Status m = MilestoneApproved)) in *. set (own := MkOwn _ _).
  set (green := if Z.eqb (sc_Exit sc) 0 then _ else None).
  assert (checked reapproval reason sc green) as Hck.
  { unfold checked, green. destruct Hex as [Hr|[He Hra]].
    - destruct (Z.eqb_spec (sc_Exit sc) 0) as [E|E]; [|done]. by destruct Hr as [? _].
    - rewrite He. cbn [Z.eqb]. apply andb_true_iff in Hra as [-> Hra%negb_true_iff%bool_decide_eq_false]. done. }
  assert (forall m' w2, I w2 -> mw_Records w2 = mw_Records w ->
    (if reapproval then m' = m /\ mw_Roadmap w2 = mh_edited H RunSelfCheck (mw_Roadmap w)
     else mw_Roadmap w2 = WithStatus (parseRoadmap H (RoadmapRel H) doc) id (bs "approved (by " ++ TrimSpace by_ ++ " " ++ mh_now H AtMApprove ++ ")")) ->
    wp I (saveRecords H AtMApprove (<[id := set_approval (newApproval H m' (TrimSpace by_) sc (start_of_milestone H (mw_Records w !! id)) green)
        (default no_record (mw_Records w !! id))]> (mw_Records w));; commitMilestone H AtMApprove own;; cret (m', true)) Q w2) as Hsave.
  { intros m' w2 Hi2 Hr2 Hrd. unfold saveRecords. wps.
    assert (I (set_mw_Records (<[id := set_approval (newApproval H m' (TrimSpace by_) sc (start_of_milestone H (mw_Records w !! id)) green)
        (default no_record (mw_Records w !! id))]> (mw_Records w)) w2)) as Hi3.
    { rewrite <- Hr2. by eapply Ka. }
    apply wp_commitMilestone; [done| |].
    - intros b c. unfold undo, own. cbn [own_Roadmap own_Records]. destruct b, c; try done; repeat (apply keeps_roadmap || apply (Ku w)); try done;
        by apply keeps_roadmap.
    - intros sha. wps. apply HQt; [|done]. exists sc, (start_of_milestone H (mw_Records w !! id)), green. split_and!; done. }
  destruct reapproval.
  - apply wp_ret. by apply Hsave.
  - destruct (WithStatus _ id _) as [updated|] eqn:Es; [|by wps]. unfold writeRoadmap. wps. apply wp_find_or_fail; [by apply keeps_roadmap|].
    intros m' _. apply Hsave; [by apply keeps_roadmap|done|]. cbn. done.
Qed.
End approve.

(** ** Drift *)

Lemma bind_nil {A B} (f : A -> list B) l x : l ≫= f = [] -> x ∈ l -> f x = [].
Proof. induction l as [|y l IH]; [by intros _ ?%elem_of_nil|]. rewrite bind_cons. intros [H1 H2]%app_nil [->|Hx]%elem_of_cons; auto. Qed.

Lemma file_drift_nil H t n was : file_drift H t n was = [] -> mh_fileSHA H t n = Some was.
Proof.
  unfold file_drift. destruct (mh_fileSHA H t n) as [is_|]; [|done]. destruct (decide (was = is_)) as [->|E]; [done|]. by rewrite (bool_decide_false _ E).
Qed.

Lemma glob_fold_extends a l : forall acc, exists more, fst (foldl (glob_step a) acc l) = acc.1 ++ more.
Proof.
  induction l as [|[g f] l IH]; intros [out seen]; cbn [foldl]; [exists []; by rewrite app_nil_r|]. destruct (IH (glob_step a (out, seen) (g, f))) as [more ->].
  unfold glob_step. destruct (_ || _); cbn [fst]; [by exists more|]. rewrite <- app_assoc. by eexists.
Qed.

Lemma glob_fold_nil a l : fst (foldl (glob_step a) ([], ∅) l) = [] -> forall g f, (g, f) ∈ l ->
  is_Some (ma_GateOwnFiles a !! f) \/ is_Some (ma_GateFiles a !! f) \/ f ∈ ma_GateScratch a.
Proof.
  induction l as [|[g f] l IH]; [by intros _ g f ?%elem_of_nil|]. cbn [foldl]. intros Hn g' f' Hin.
  set (held := isSome (ma_GateOwnFiles a !! f) || isSome (ma_GateFiles a !! f) || bool_decide (f ∈ (∅ : gset gostring)) || slices_Contains (ma_GateScratch a) f).
  assert (glob_step a ([], ∅) (g, f) = if held then ([], ∅) else ([f ++ bs " is new (it matches " ++ g ++ bs ")"], {[f]} ∪ ∅)) as Hs by reflexivity.
  rewrite Hs in Hn. clear Hs. destruct held eqn:E; unfold held in E.
  - apply elem_of_cons in Hin as [Hin|Hin]; [|by eapply IH]. simplify_eq. rewrite !orb_true_iff in E. unfold slices_Contains in E.
    rewrite !bool_decide_eq_true in E. destruct E as [[[E|E]|E]|E]; [left|right; left|set_solver|right; by right].
    + by destruct (ma_GateOwnFiles a !! f).
    + by destruct (ma_GateFiles a !! f).
  - destruct (glob_fold_extends a l ([f ++ bs " is new (it matches " ++ g ++ bs ")"], {[f]} ∪ ∅)) as [more Hm]. by rewrite Hm in Hn.
Qed.

(** No drift: the command is the approved one, each recorded file the gate still runs or
    owns has its recorded content, and no new file matches a recorded glob. *)
Lemma gateDrift_nil H t m a : gateDrift H t m a = [] ->
  TrimSpace (ms_Gate m) = TrimSpace (ma_GateCmd a) /\
  (forall n h, n ∈ gateScripts (mh_IsLetter H) (mh_IsDigit H) (ms_Gate m) -> ma_GateFiles a !! n = Some h -> mh_fileSHA H t n = Some h) /\
  (ma_ScratchExcluded a = true -> forall n h, ma_GateOwnFiles a !! n = Some h -> n ∉ ma_GateScratch a -> mh_fileSHA H t n = Some h) /\
  (forall g f, g ∈ ma_GateGlobs a -> f ∈ mh_globFiles H g ->
     is_Some (ma_GateOwnFiles a !! f) \/ is_Some (ma_GateFiles a !! f) \/ f ∈ ma_GateScratch a).
Proof.
  unfold gateDrift, gateOwnDrift. intros [H1 [H2 [H3 H4]%app_nil]%app_nil]%app_nil. split_and!.
  - destruct (decide (TrimSpace (ms_Gate m) = TrimSpace (ma_GateCmd a))) as [E|E]; [done|]. by rewrite (bool_decide_false _ E) in H1.
  - intros n h Hn Ha. apply (bind_nil _ _ n) in H2; [|done]. cbv beta in H2. rewrite Ha in H2. by apply file_drift_nil.
  - intros Hex n h Ha Hsc. rewrite Hex in H3. cbn [negb andb] in H3. apply (bind_nil _ _ n) in H3.
    + cbv beta in H3. rewrite bool_decide_false, Ha in H3; [by apply file_drift_nil|]. rewrite elem_of_union, elem_of_list_to_set. set_solver.
    + rewrite sort_Strings_perm, elem_of_elements. by apply elem_of_dom_2 in Ha.
  - intros g f Hg Hf. eapply glob_fold_nil; [exact H4|]. apply list_elem_of_bind. exists g. split; [|done]. by apply list_elem_of_fmap_2.
Qed.

(** What newApproval holds of the own files. *)
Lemma scratch_fold keep wrote : forall files scratch n h, files !! n = Some h -> n ∉ wrote \/ n ∈ keep -> n ∉ scratch ->
  let '(files', scratch') := foldl (scratch_step keep) (files, scratch) wrote in files' !! n = Some h /\ n ∉ scratch'.
Proof.
  induction wrote as [|f wrote IH]; intros files scratch n h Hf Hn Hs; [done|]. cbn [foldl]. unfold scratch_step at 2. cbn [fst snd].
  rewrite not_elem_of_cons in Hn. case_bool_decide as Hk; [apply IH; tauto|]. apply IH; [|tauto|].
  - rewrite lookup_delete_ne; [done|]. intros ->. tauto.
  - rewrite not_elem_of_app. split; [done|]. rewrite list_elem_of_singleton. intros ->. tauto.
Qed.

Lemma gateFiles_lookup H t gate n h : gateFiles H t gate !! n = Some h <->
  n ∈ gateScripts (mh_IsLetter H) (mh_IsDigit H) gate /\ mh_fileSHA H t n = Some h.
Proof.
  unfold gateFiles. rewrite <- elem_of_list_to_map.
  - rewrite list_elem_of_omap. split.
    + intros (rel & Hr & E). apply fmap_Some in E as (sum & E & ?). by simplify_eq.
    + intros [Hn Hs]. exists n. by rewrite Hs.
  - assert (NoDup (gateScripts (mh_IsLetter H) (mh_IsDigit H) gate)) as Hnd by (unfold gateScripts; rewrite sort_Strings_perm; apply NoDup_elements).
    induction Hnd as [|rel l Hrel _ IH]; [constructor|]. cbn [omap list_omap]. destruct (mh_fileSHA H t rel) as [sum|]; [|done]. cbn [fmap option_fmap option_map].
    rewrite fmap_cons. constructor; [|done]. cbn [fst]. intros ([q sum'] & -> & Hq)%list_elem_of_fmap. apply list_elem_of_omap in Hq as (rel' & Hr' & E).
    apply fmap_Some in E as (s' & _ & ?). by simplify_eq/=.
Qed.

Lemma wp_GatePreflight I H id (Q : unit -> MWorld -> Prop) w : I w ->
  (forall doc m, mw_Roadmap w = Some doc -> find_milestone (parseRoadmap H (RoadmapRel H) doc) id = Some m ->
     ms_Status m = MilestoneApproved -> forall rec a, mw_Records w !! id = Some rec -> mr_Approval rec = Some a -> gateDrift H Before m a = [] -> Q tt w) ->
  (forall doc m, mw_Roadmap w = Some doc -> find_milestone (parseRoadmap H (RoadmapRel H) doc) id = Some m ->
     ms_Status m <> MilestoneApproved -> ms_Status m <> MilestoneDone -> Q tt w) ->
  ((mw_Roadmap w ≫= fun doc => find_milestone (parseRoadmap H (RoadmapRel H) doc) id) = None -> Q tt w) ->
  wp I (GatePreflight H id) Q w.
Proof.
  intros Hi HQ1 HQ2 HQ3. unfold GatePreflight, refuseOnChangeBranch. wps. destruct (_ ≫= _) as [m|] eqn:E; [|wps; auto].
  apply bind_Some in E as (doc & Hdoc & Hm). apply wp_if; intros Ed; [by wps|]. apply bool_decide_eq_false in Ed. apply wp_if; intros Ea.
  - apply bool_decide_eq_true in Ea. apply wp_requireApprovalRecord; [done|]. intros rec a Hrec Ha Hd. rewrite (find_milestone_id _ _ _ Hm) in Hrec. by eapply HQ1.
  - apply bool_decide_eq_false in Ea. wps. by eapply HQ2.
Qed.

Lemma scratch_fold_scratch keep l : forall acc f, f ∈ (foldl (scratch_step keep) acc l).2 -> f ∈ acc.2 \/ f ∈ l.
Proof. induction l as [|x l IH]; intros acc f Hf; [by left|]. cbn [foldl] in Hf. apply IH in Hf. unfold scratch_step in Hf. case_bool_decide; set_solver. Qed.

Lemma scratch_fold_dom keep l : forall acc f, is_Some ((foldl (scratch_step keep) acc l).1 !! f) -> is_Some (acc.1 !! f).
Proof.
  induction l as [|x l IH]; intros acc f Hf; [done|]. cbn [foldl] in Hf. apply IH in Hf. unfold scratch_step in Hf. case_bool_decide; [done|].
  cbn [fst] in Hf. by apply lookup_delete_is_Some in Hf as [_ ?].
Qed.

Lemma approve_recorded H id by_ reason w w' m : approveMilestone H id by_ reason w = (w', inr (m, true)) ->
  exists sc base green, sc_Wrote sc = gateWrote (mh_stamps H Before) (mh_stamps H After) /\
    mw_Records w' = <[id := set_approval (newApproval H m (TrimSpace by_) sc base green) (default no_record (mw_Records w !! id))]> (mw_Records w).
Proof.
  intros E. refine (wp_run _ (fun x w' => x.2 = true -> exists sc base green, sc_Wrote sc = gateWrote (mh_stamps H Before) (mh_stamps H After) /\
    mw_Records w' = <[id := set_approval (newApproval H x.1 (TrimSpace by_) sc base green) (default no_record (mw_Records w !! id))]> (mw_Records w))
    w w' (m, true) _ E eq_refl).
  apply wp_approveMilestone; [apply keeps_true|by red|by red|done|]. intros doc m0 _ _ _ _. split; [done|].
  intros m' w1 (sc & base & green & _ & Hwr & _ & _ & Hr & _) _ _. by exists sc, base, green.
Qed.

Lemma RunGate_approved H id rerun w w' g doc m a : mw_Roadmap w = Some doc -> find_milestone (parseRoadmap H (RoadmapRel H) doc) id = Some m ->
  ms_Status m = MilestoneApproved -> (mw_Records w !! id ≫= mr_Approval) = Some a -> RunGate H id rerun w = (w', inr g) -> gateDrift H Before m a = [].
Proof.
  intros Hdoc Hm Hst Hrec E. refine (wp_run _ (fun _ _ => gateDrift H Before m a = []) w w' g _ E). unfold RunGate. wps; [done|]. apply wp_GatePreflight; [done|..].
  - intros doc' m' Hd' Hm' _ rec a' Hr' Ha' Hd. rewrite Hr' in Hrec. cbn [mbind option_bind] in Hrec. rewrite Ha' in Hrec. simplify_eq.
    unfold wp. by destruct (cbind _ _ w) as [? []].
  - intros doc' m' Hd' Hm' Hns _. by simplify_eq.
  - intros Hn. rewrite Hdoc in Hn. cbn [mbind option_bind] in Hn. congruence.
Qed.


(** ** The records *)

Lemma Green_saved run : Green (saved_run run) = Green run.
Proof. unfold Green, saved_run. cbn [gr_Exit gr_SpecFailed gr_Regression]. by rewrite length_fmap. Qed.

(** What the record of a milestone holds: the result of the run beside it; an approval by a
    named person on a red self-check, or on a green one accepted with a reason; done only
    where approved; a red gate accepted by a named person with a reason; a count. *)
Definition rec_ok (r : MilestoneRecord) : Prop :=
  match mr_Since r with Some run => mr_Result r = gateResult run | None => mr_Result r = [] end /\
  (forall a, mr_Approval r = Some a -> ma_By a <> [] /\ exists sc, ma_SelfCheck a = Some sc /\
    match ma_AcceptGreen a with None => red_exit (sc_Exit sc) | Some ag => sc_Exit sc = 0%Z /\ ag_Reason ag <> [] end) /\
  (mr_DoneAt r <> [] -> mr_Approval r <> None) /\
  (forall ar, mr_AcceptRed r = Some ar -> acr_Reason ar <> [] /\ acr_By ar <> [] /\ exists run, acr_Gate ar = Some run /\ Green run = false) /\
  (0 <= mr_ConsecutiveBlocks r)%Z.

Definition recs_ok (w : MWorld) : Prop := map_Forall (fun _ r => rec_ok r) (mw_Records w).

Lemma no_record_ok : rec_ok no_record.
Proof. by split_and!. Qed.

Lemma default_ok w id : recs_ok w -> rec_ok (default no_record (mw_Records w !! id)).
Proof. intros Hw. destruct (mw_Records w !! id) as [r|] eqn:E; [by apply Hw in E|apply no_record_ok]. Qed.

Lemma insert_ok w id r : recs_ok w -> rec_ok r -> recs_ok (set_mw_Records (<[id := r]> (mw_Records w)) w).
Proof. intros Hw Hr. by apply map_Forall_insert_2. Qed.

#[export] Instance recs_ok_keeps : Keeps recs_ok.
Proof. by constructor. Qed.

Lemma recs_ok_undo : keeps_undo recs_ok.
Proof. by intros w0 w H0 _. Qed.

Lemma recs_ok_runs id : keeps_runs recs_ok id.
Proof.
  intros run w Hw. apply insert_ok; [done|]. destruct (default_ok w id Hw) as (_ & H2 & H3 & H4 & H5). split_and!; try done.
  cbn. unfold gateResult. by rewrite Green_saved.
Qed.

Lemma recs_ok_done id run red : match red with Some (reason, by_) => reason <> [] /\ by_ <> [] | None => True end -> keeps_done recs_ok id run red.
Proof.
  intros Hred ar plan w Hw [a Ha] Har. apply insert_ok; [done|]. destruct (default_ok w id Hw) as (H1 & H2 & H3 & H4 & H5). split_and!; try done.
  - intros _. cbn [set_done mr_Approval]. destruct (mw_Records w !! id); [|done]. cbn in Ha |- *. by rewrite Ha.
  - intros x. cbn [set_done mr_AcceptRed]. destruct ar as [ar|]; [|apply H4]. intros [= <-]. destruct Har as (Hg & -> & Hgate). destruct Hred.
    split_and!; try done. exists (saved_run run). by rewrite Green_saved.
Qed.

Lemma recs_ok_approval H id : keeps_approval H recs_ok id.
Proof.
  intros m by_ sc base green reapproval reason w Hw Hby Hck. apply insert_ok; [done|]. destruct (default_ok w id Hw) as (H1 & H2 & H3 & H4 & H5). split_and!; try done.
  intros a. cbn [set_approval mr_Approval]. intros [= <-]. unfold newApproval. destruct (foldl _ _ _). cbn. split; [done|]. exists sc. split; [done|].
  unfold checked in Hck. destruct green as [ag|]; [|done]. destruct Hck as (? & _ & <- & ?). done.
Qed.

(** *** The commands keep them *)

Inductive MCommand :=
  | NewM (title gate goal tokens wall : gostring) (usd : option gostring) | ApproveM (id by_ : gostring) (acceptGreen : option gostring)
  | GateM (id : gostring) (rerun : bool) | FullM (id : gostring) | SpecOnlyM (id : gostring) | CloseM (id : gostring) (rerun : bool)
  | CloseRedM (id reason by_ : gostring) (rerun : bool).

Definition mexec (H : MHost) (c : MCommand) (w : MWorld) : MWorld :=
  match c with
  | NewM title gate goal tokens wall usd => fst (NewMilestone H title gate goal tokens wall usd w)
  | ApproveM id by_ ag => fst (ApproveMilestone H id by_ ag w)
  | GateM id rerun => fst (RunGate H id rerun w)
  | FullM id => fst (RunFull H id w)
  | SpecOnlyM id => fst (RunSpecOnly H id w)
  | CloseM id rerun => fst (CloseMilestone H id rerun w)
  | CloseRedM id reason by_ rerun => fst (CloseMilestoneAcceptRed H id reason by_ rerun w)
  end.

(** The worlds commands, a person's edits of roadmap.md and the changes' blocks and archives
    lead to. *)
Inductive mreach : MWorld -> Prop :=
  | mreach_start roadmap : mreach (MkMWorld roadmap ∅ ∅ ∅ [])
  | mreach_cmd H c w : mreach w -> mreach (mexec H c w)
  | mreach_edit r w : mreach w -> mreach (set_mw_Roadmap r w)
  | mreach_block id w : mreach w -> mreach (set_mw_Records (countBlock id (mw_Records w)) w)
  | mreach_reset id w : mreach w -> mreach (set_mw_Records (resetBlocks id (mw_Records w)) w).

Lemma close_ok H id rerun red w : recs_ok w -> match red with Some (reason, by_) => reason <> [] /\ by_ <> [] | None => True end ->
  wp recs_ok (closeMilestone H id rerun red) (fun _ w' => recs_ok w') w.
Proof.
  intros Hw Hred. apply wp_closeMilestone; [apply _|apply recs_ok_runs|intros run; by apply recs_ok_done|apply recs_ok_undo|done|]. by intros.
Qed.

Lemma approve_ok H id by_ reason w : recs_ok w -> wp recs_ok (approveMilestone H id by_ reason) (fun _ w' => recs_ok w') w.
Proof. intros Hw. apply wp_approveMilestone; [apply _|apply recs_ok_undo|apply recs_ok_approval|done|]. by intros. Qed.

Lemma gate_ok H id rerun w : recs_ok w -> wp recs_ok (RunGate H id rerun) (fun _ w' => recs_ok w') w.
Proof.
  intros Hw. unfold RunGate, recordsOwn. wps. assert (wp recs_ok (runGate H id rerun false) (fun g => wp recs_ok
    (if negb (g_ResultChanged g) then cret g else let* sha := commitMilestone H AtGate (MkOwn None (Some (mw_Records w))) in cret (set_commit sha g)) (fun _ => recs_ok)) w) as Hg.
  { apply wp_runGate; [apply _|apply recs_ok_runs|done|]. intros g run w' _ _ _ Hw'. wps; [done|].
    apply wp_commitMilestone; [done|intros b c; by apply undo_records; [apply recs_ok_undo| |]|]. intros sha. by wps. }
  apply wp_GatePreflight; [done|..]; intros; wps; exact Hg.
Qed.

Lemma exec_ok H c w : recs_ok w -> recs_ok (mexec H c w).
Proof.
  intros Hw. destruct c as [title gate goal tokens wall usd|id by_ ag|id rerun|id|id|id rerun|id reason by_ rerun]; cbn [mexec]; apply wp_fst.
  - unfold NewMilestone, refuseOnChangeBranch. wps; try done. apply wp_loadRoadmapDoc; [done|]. intros doc _. unfold milestoneOwn, writeRoadmap. wps; try done.
    apply wp_commitMilestone; [done|by intros [] []|]. intros sha. by wps.
  - destruct ag as [reason|]; cbn [ApproveMilestone]; wps; by apply approve_ok.
  - by apply gate_ok.
  - assert (forall w', recs_ok w' -> wp recs_ok (loadRoadmapDoc H) (fun x => wp recs_ok (let (_, rm) := x in let* _ := find_or_fail rm id in
      let* f := runFull H id (snd (splitFull (spec_checks H))) (mh_regressionCmd H) "full" in refuse (negb (FullGreen f)) (FailError CodeFullRed);; cret f)
      (fun _ => recs_ok)) w') as Hrest.
    { intros w' Hw'. apply wp_loadRoadmapDoc; [done|]. intros doc _. cbv beta iota. apply wp_bind, wp_find_or_fail; [done|]. intros m _.
      apply wp_bind, wp_runFull; [apply _|done|]. intros f w2 _ _ Hw2. by wps. }
    unfold RunFull. wp1. apply wp_GatePreflight; [done|..]; intros; wp1; by apply Hrest.
  - unfold RunSpecOnly, refuseOnChangeBranch. wps; try done. apply wp_loadRoadmapDoc; [done|]. intros doc _. cbv beta iota. apply wp_bind, wp_find_or_fail; [done|].
    intros m _. assert (wp recs_ok (let* results := run_at H RunSpecAlone [] (fst (withoutFull (spec_checks H))) in cret (failed_of results)) (fun _ => recs_ok) w) as Hr.
    { apply wp_bind, wp_run_at; [apply _|done|]. intros rs _ w' Hw'. by wps. }
    wp1. apply wp_if; intros _; [by wps|]. apply wp_if; intros _; [|by apply wp_ret]. apply wp_requireApprovalRecord; [done|]. intros. exact Hr.
  - by apply close_ok.
  - unfold CloseMilestoneAcceptRed. wps; try done. apply close_ok; [done|]. repeat match goal with E : _ = false |- _ => apply orb_false_iff in E as [E _] || apply bool_decide_eq_false in E end.
    done.
Qed.

(** C13: Whatever milestone commands run, with whatever answers and failures, between any edits
    of roadmap.md, blocks and archives, every record of milestones.json is sound: its result
    is that of the run recorded with it; an approval names who gave it and rests on a
    self-check whose gate ran and was red, or was green and accepted with a reason; it is
    marked done only where an approval is on record; and a red gate was accepted only for a
    run that was red, by a named person with a reason. *)
Theorem records_sound w : mreach w -> map_Forall (fun _ r => rec_ok r) (mw_Records w).
Proof.
  induction 1 as [roadmap|H c w _ IH|r w _ IH|id w _ IH|id w _ IH].
  - apply map_Forall_empty.
  - by apply exec_ok.
  - done.
  - apply (insert_ok w); [done|]. destruct (default_ok w id IH) as (H1 & H2 & H3 & H4 & H5). split_and!; try done. cbn. lia.
  - cbn [set_mw_Records mw_Records]. unfold resetBlocks. destruct (mw_Records w !! id) as [r|] eqn:E; [|done]. apply (insert_ok w); [done|].
    apply IH in E as (H1 & H2 & H3 & H4 & H5). by split_and!.
Qed.

(** ** Where the code departs from what it says *)

Lemma FullGreen_saved f : FullGreen (saved_full f) = FullGreen f.
Proof.
  unfold FullGreen, saved_full. cbn [fr_Results fr_Verdict]. f_equal. induction (fr_Results f) as [|r rs IH]; [done|].
  rewrite fmap_cons. cbn [forallb]. by rewrite IH.
Qed.

(** A red full run is never taken. The refusal of a red full run, and the documentation of
    its code, say that a gate at the same tree takes the run that was recorded; but no gate
    or close, with whatever checks and at whatever tree, takes a full run that is red: it
    runs the full checks again. *)
Theorem full_red_not_taken H H' id checks cmd by_ w w' f checks' cmd' :
  runFull H id checks cmd by_ w = (w', inr f) -> mh_writeLog H AtFull = true -> FullGreen f = false ->
  mw_Full w' !! id = Some (saved_full f) /\ currentFullRun H' w' id checks' cmd' = None.
Proof.
  intros Hrun Hlog Hred. assert (mw_Full w' !! id = Some (saved_full f)) as Hf.
  { refine (wp_run _ (fun f w' => mw_Full w' !! id = Some (saved_full f)) w w' f _ Hrun). unfold runFull. rewrite Hlog.
    apply wp_bind, wp_run_at; [apply keeps_true|done|]. intros rs _ w1 _. wps. cbn [set_mw_Full mw_Full]. by rewrite lookup_insert_eq. }
  split; [done|]. unfold currentFullRun. by rewrite Hf, FullGreen_saved, Hred.
Qed.

(** Approve loses an edit of roadmap.md. The gate's own comments leave roadmap.md to a
    person to edit while a gate runs; but an approval of a proposed milestone, which runs the
    gate first, writes the roadmap as it was before the run, with the new status, whatever
    was written to it meanwhile. *)
Theorem approve_loses_edit H id by_ reason w w' m m' doc :
  mw_Roadmap w = Some doc -> find_milestone (parseRoadmap H (RoadmapRel H) doc) id = Some m -> ms_Status m = MilestoneProposed ->
  approveMilestone H id by_ reason w = (w', inr (m', true)) ->
  mw_Roadmap w' = WithStatus (parseRoadmap H (RoadmapRel H) doc) id (bs "approved (by " ++ TrimSpace by_ ++ " " ++ mh_now H AtMApprove ++ ")").
Proof.
  intros Hdoc Hm Hst E. refine (wp_run _ (fun x w' => x.2 = true -> mw_Roadmap w' = WithStatus (parseRoadmap H (RoadmapRel H) doc) id
    (bs "approved (by " ++ TrimSpace by_ ++ " " ++ mh_now H AtMApprove ++ ")")) w w' (m', true) _ E eq_refl).
  apply wp_approveMilestone; [apply keeps_true|by red|by red|done|]. intros doc0 m0 Hd0 Hm0 _ _. split; [done|]. simplify_eq.
  intros m1 w1 (sc & base & green & _ & _ & _ & _ & _ & Hrd) _ _. by rewrite Hst in Hrd.
Qed.
