(* ===== verification/MilestoneSamples.v ===== *)
(** A milestone approved, gated and closed on concrete documents: the inputs the witnesses
    of the milestone theorems run on. *)
From S2P Require Import Prelude Regex Markdown Spec Change Merge Effective Regression Runner Roadmap State Command Lifecycle Shell PersonMatch Paths GateScript EditGuard Milestone MilestoneFacts.

Definition spec_doc : gostring := "# Greeting
Purpose: greets

### Requirement: Greet by name
It says hello.

#### Scenario: a name
- check: go test ./...
".

Definition proposed_doc : gostring := "# Roadmap

## M1 — Greet
Status: proposed
Gate: bash scripts/gate.sh
Goal: it greets
".

Definition approved_doc : gostring := "# Roadmap

## M1 — Greet
Status: approved (by ann now)
Gate: bash scripts/gate.sh
Goal: it greets
".

(** ASCII lower case of the keys a roadmap has. *)
Definition lower (s : gostring) : gostring :=
  if s =s "Status" then bs "status" else if s =s "Gate" then bs "gate" else if s =s "Goal" then bs "goal" else s.

Definition result (n : Z) (pc : PlannedCheck) : CheckResult :=
  MkResult (pc_Ref pc) (Some (pc_Kind pc)) [] [] [] false (pc_Cmd pc) n [] [] [] false 1 false [] None [] [] [].

(** A host whose checks all exit [n], with a note added to roadmap.md while a run lasts. *)
Definition host (n : Z) (edit : option gostring -> option gostring) : MHost :=
  MkMHost (MkProject "/p" "development") true "main" lower (fun _ => None) (fun _ => None) (fun _ => None)
    (fun r => between 65 90 r || between 97 122 r) c_digit (fun s => s) None (fun _ => None) (fun _ => bs "now") (fun _ => bs "abcdef1")
    (fun _ f => if f =s "scripts/gate.sh" then Some (bs "aa") else None) (fun _ _ => MkGateOwn ∅ ∅ ∅) (fun _ => []) (fun _ => false) (fun _ => [])
    (fun _ => ∅) (fun _ => true) (fun _ => false) (fun _ => false) (fun _ => Some (bs "tree")) [] false (fun _ => None)
    (fun _ => None) (fun _ => None) (fun _ => None) (fun _ => true) (fun _ => Committed "abcdef2") None
    [bs "greeting"] {[ bs "greeting" := spec_doc ]} "make test" [] [] (fun _ _ pc => result n pc) (fun _ _ => false) (fun _ => false) (fun _ => [])
    (fun _ => edit).

Definition add_note (doc : option gostring) : option gostring := (fun d => d ++ bs "A note.") <$> doc.

Definition start_world : MWorld := MkMWorld (Some proposed_doc) ∅ ∅ ∅ [].
Definition approving : MWorld * (Err + Milestone gostring * bool) := approveMilestone (host 1 add_note) "M1" "ann" [] start_world.
Definition approved_world : MWorld := fst approving.

Lemma approved_reached : mreach approved_world.
Proof. exact (mreach_cmd (host 1 add_note) (ApproveM "M1" "ann" None) _ (mreach_start (Some proposed_doc))). Qed.

(** A computed command that ended well, and a function of its value. *)
Definition value_of {A B} (f : A -> B) (x : MWorld * (Err + A)) : option B := match x.2 with inr y => Some (f y) | inl _ => None end.

Lemma value_of_Some {A B} (f : A -> B) x b : value_of f x = Some b -> exists y, x = (x.1, inr y) /\ f y = b.
Proof. destruct x as [w' [e|y]]; unfold value_of; cbn; [done|]. intros [= <-]. by exists y. Qed.

Lemma found_at {B} (f : Milestone gostring -> B) h doc b : f <$> find_milestone (parseRoadmap h (RoadmapRel h) doc) "M1" = Some b ->
  exists m, find_milestone (parseRoadmap h (RoadmapRel h) doc) "M1" = Some m /\ f m = b.
Proof. intros (m & Hm & ->)%fmap_Some. by exists m. Qed.

Lemma approved_doc_left : mw_Roadmap approved_world = Some approved_doc.
Proof. vm_compute. reflexivity. Qed.

Lemma approved_found : exists m, find_milestone (parseRoadmap (host 0 id) (RoadmapRel (host 0 id)) approved_doc) "M1" = Some m /\
  (ms_Status m, ms_Gate m) = (MilestoneApproved, bs "bash scripts/gate.sh").
Proof. apply found_at. vm_compute. reflexivity. Qed.

Lemma approving_ends : exists x, approving = (approved_world, inr x) /\ (x.2, ms_Gate x.1) = (true, bs "bash scripts/gate.sh").
Proof. apply (value_of_Some (fun x => (x.2, ms_Gate x.1)) approving). vm_compute. reflexivity. Qed.

Lemma gate_script_in : bs "scripts/gate.sh" ∈ gateScripts (fun r => between 65 90 r || between 97 122 r) c_digit "bash scripts/gate.sh".
Proof. apply (bool_decide_unpack _). vm_compute. exact I. Qed.

Definition closing : MWorld * (Err + GateResult) := close_command (host 0 id) "M1" false None approved_world.


Definition gating : MWorld * (Err + GateResult) := RunGate (host 0 id) "M1" false approved_world.


Lemma records_sound_witness : exists r, mw_Records approved_world !! bs "M1" = Some r /\ rec_ok r.
Proof.
  assert (bool_decide (is_Some (mw_Records approved_world !! bs "M1")) = true) as Hr by (vm_compute; reflexivity).
  apply bool_decide_eq_true in Hr as [r E]. exists r. exact (conj E (records_sound approved_world approved_reached _ r E)).
Defined.

(** A full run that is red: its scenario exits 1 and the regression command has no baseline. *)
Definition full_checks : list PlannedCheck := [MkPlanned "greeting/x/y" KindScenario "greeting" "x" "y" false "make e2e" 1 true].
Definition full_running : MWorld * (Err + FullRun) := runFull (host 1 id) "M1" full_checks "make test" "full" approved_world.

Lemma full_red_not_taken_witness :
  exists f, full_running = (full_running.1, inr f) /\ FullGreen f = false /\ currentFullRun (host 1 id) full_running.1 "M1" full_checks "make test" = None.
Proof.
  destruct (value_of_Some FullGreen full_running false) as (f & E & Hred); [vm_compute; reflexivity|]. exists f.
  destruct (full_red_not_taken (host 1 id) (host 1 id) "M1" full_checks "make test" "full" approved_world full_running.1 f full_checks "make test" E eq_refl Hred) as [_ Hn].
  exact (conj E (conj Hred Hn)).
Defined.

(** The note written while the gate ran is not in the roadmap approve leaves. *)
Lemma approve_loses_edit_witness :
  add_note (Some proposed_doc) <> Some proposed_doc /\ mw_Roadmap approved_world = Some approved_doc.
Proof.
  split; [vm_compute; discriminate|].
  destruct (found_at ms_Status (host 1 add_note) proposed_doc MilestoneProposed) as (m & Hm & Hst); [vm_compute; reflexivity|].
  destruct approving_ends as ([m' b] & Ea & Hx). cbn [fst snd] in Hx. injection Hx as -> _.
  rewrite (approve_loses_edit (host 1 add_note) "M1" "ann" [] start_world approved_world m m' proposed_doc eq_refl Hm Hst Ea). vm_compute. reflexivity.
Defined.
