(* ===== verification/LifecycleFacts.v ===== *)
(** Theorems about the lifecycle of a change: the invariant every command keeps
    whatever the host answers, what an archived change is, and the loop limits. *)
From S2P Require Import Prelude Regex Markdown Spec SpecValid Change Merge Effective Regression Roadmap State Command Lifecycle.

(** ** The rule of a save *)

(** Whether its commit succeeds, fails, or is refused for a secret and taken back. *)
Lemma wp_save (I : World -> Prop) H s st (Q : unit -> World -> Prop) w :
  I w -> I (set_w_State st w) -> Q tt (set_w_State st w) -> wp I (saveAndCommit H s st) Q w.
Proof.
  intros Hi Hst HQ. unfold saveAndCommit. wps; [done|]. destruct (h_commit H s); wps; try done. by destruct w.
Qed.

(** ** The catch-up's rule *)

Section catching.
Context (H : Host) (inArchive : bool) (st : State).

(** The states a catch-up of [st] saves: those it may stop in, and those it ends with. *)
Inductive catching : bool -> State -> Prop :=
| caught_clean cu head : cu_Conflicts cu = [] -> catching true (caught_up H cu head inArchive st)
| caught_conflict cu : cu_Conflicts cu <> [] -> catching false (caught_up H cu (cu_To cu) inArchive st)
| caught_laid_out cu f : cu_Conflicts cu <> [] -> catching false (set_last_rebase f (caught_up H cu (cu_To cu) inArchive st))
| caught_reapplied cu f : cu_Conflicts cu <> [] -> catching true (set_BlockedReason (st_BlockedReason st)
    (set_Status (caught_status inArchive (st_Status st)) (set_last_rebase f (caught_up H cu (cu_To cu) inArchive st)))).

(** What a catch-up leaves of the world beside the state: the tree's specs may be the
    rebased ones. *)
Definition caught_frame (w w' : World) : Prop :=
  (w_Specs w' = w_Specs w \/ w_Specs w' = h_rebasedSpecs H) /\ w_BaseAccepted w' = w_BaseAccepted w /\ w_Head w' = w_Head w /\
  w_Attempts w' = w_Attempts w /\ w_HasBranch w' = w_HasBranch w.

Lemma wp_catchUp (I : World -> Prop) isStart (Q : State * option CatchUp -> World -> Prop) w :
  (forall m w, I w -> I (set_w_Specs m w)) -> (forall h w, I w -> I (set_w_Head h w)) ->
  (forall b st' w, catching b st' -> I w -> I (set_w_State st' w)) -> I w -> Q (st, None) w ->
  (forall st' cu w', catching true st' -> I w' -> w_State w' = st' -> caught_frame w w' -> Q (st', cu) w') ->
  wp I (catchUp H isStart inArchive st) Q w.
Proof.
  intros Hspecs Hhead Hsave Hi HQ0 HQ. unfold catchUp. wps; [done|].
  destruct (baseMoved H st) as [[tip needRebase]|]; [|by wps]. apply wp_if; intros _; [by wps|].
  wp1. apply wp_when; [done|]. wp1. apply wp_check; [done|]. wp1.
  assert (forall Q' : list gostring -> World -> Prop, (forall l w', I w' -> caught_frame w w' -> Q' l w') ->
    wp I (if needRebase then rebaseOrConflict H else cret []) Q' w) as Hreb.
  { intros Q' HQ'. assert (caught_frame w w) by (split_and!; auto). destruct needRebase; [|wps; by apply HQ'].
    unfold rebaseOrConflict. destruct (h_rebase H) as [e|[|c cs]]; wps; try done; apply HQ'; auto. split_and!; auto. }
  apply Hreb. clear Hreb. intros conflicts w1 Hi1 (F1 & F2 & F3 & F4 & F5). wp1. apply wp_check; [done|]. wp1.
  unfold baselineAt. wps. destruct (h_reattach H) as [e|]; wps; [by apply Hhead|]. unfold interrupted. wps.
  set (cu := MkCatchUp _ _ _ _ _ _ _). unfold layOutConflict, recordCatchUp. destruct conflicts as [|c cs]; wps.
  - apply wp_save; [done|by eapply Hsave; [apply caught_clean|]|]. wps. apply HQ; [by apply caught_clean| |done|done]. eapply Hsave; [by apply caught_clean|done].
  - set (cu' := MkCatchUp _ _ _ _ _ (h_oldTipRef H) _). assert (catching false (caught_up H cu' (cu_To cu') inArchive st)) as Hc by by apply caught_conflict.
    apply wp_save; [by apply Hspecs|by eapply Hsave; [exact Hc|apply Hspecs]|]. wps.
    assert (forall m, I (set_w_Specs m (set_w_State (caught_up H cu' (cu_To cu') inArchive st) (set_w_Specs (h_baseSpecs H) w1)))) as Hi2
      by (intros m; apply Hspecs; eapply Hsave; [exact Hc|by apply Hspecs]).
    destruct (h_unmerged H) as [e|[|u us]]; wps; try done.
    + eapply Hsave; [exact Hc|by apply Hspecs].
    + apply wp_save; [done|by eapply Hsave; [apply caught_reapplied|]|]. wps. apply HQ; [by apply caught_reapplied| |done|split_and!; auto]. eapply Hsave; [by apply caught_reapplied|done].
    + eapply Hsave; [by apply caught_laid_out|done].
    + eapply Hsave; [by apply caught_laid_out|done].
Qed.
End catching.

(** ** The invariant of a change's state *)

Definition green_verify (st : State) : Prop := exists v, st_Verify st = Some v /\ v_Green v = true.
Definition passed_review (st : State) : Prop := exists r, st_Review st = Some r /\ rw_Verdict r = "pass".

(** What each status promises. *)
Definition status_inv (st : State) : Prop :=
  match st_Status st with
  | StatusVerified => green_verify st
  | StatusReviewed | StatusArchived => green_verify st /\ passed_review st
  | StatusBlocked => st_BlockedReason st <> None
  | _ => True
  end.

(** A verify recorded green has no red result. *)
Definition verify_inv (st : State) : Prop :=
  forall v, st_Verify st = Some v -> v_Green v = true -> Forall (fun r => Red r = false) (v_Results v).

Definition state_inv (st : State) : Prop := status_inv st /\ verify_inv st.
Definition Inv (w : World) : Prop := state_inv (w_State w).

Lemma inv_any st : verify_inv st ->
  match st_Status st with
  | StatusVerified | StatusReviewed | StatusArchived | StatusBlocked => False | _ => True end -> state_inv st.
Proof. intros Hv Hs. split; [|done]. unfold status_inv. by destruct (st_Status st). Qed.

Section inv.
Context (H : Host).
Abbreviation wp := (wp Inv).

Lemma wp_saveAndCommit s st Q w : Inv w -> state_inv st -> Q tt (set_w_State st w) -> wp (saveAndCommit H s st) Q w.
Proof. intros Hi Hst HQ. by apply wp_save. Qed.

Lemma wp_saveChangeState s st Q w : Inv w -> state_inv st -> Q tt (set_w_State st w) -> wp (saveChangeState H s st) Q w.
Proof. intros Hi Hst HQ. unfold saveChangeState. wps; [by apply wp_saveAndCommit|done]. Qed.

(** A command that ends by saving. *)
Lemma wp_saved {A} (m : Cmd unit) st (x : A) (Q : A -> World -> Prop) w :
  (forall Q', Q' tt (set_w_State st w) -> wp m Q' w) -> Q x (set_w_State st w) -> wp (cbind m (fun _ => cret x)) Q w.
Proof. intros Hm HQ. apply wp_bind, Hm. by wps. Qed.

Lemma wp_updateAttempts f Q w : Inv w -> Q (f (w_Attempts w)) (set_w_Attempts (f (w_Attempts w)) w) ->
  wp (updateAttempts H f) Q w.
Proof. intros Hi HQ. unfold updateAttempts. by wps. Qed.

(** What requireChange lets through. *)
Lemma wp_requireChange Q w : Inv w ->
  (st_Status (w_State w) <> StatusArchived -> st_Status (w_State w) <> StatusAbandoned -> Q (w_State w) w) ->
  wp (requireChange H) Q w.
Proof.
  intros Hi HQ. unfold requireChange. wps. destruct (st_Status (w_State w)); wps; try done; by apply HQ.
Qed.

Lemma wp_requireOnBranch (Q : unit -> World -> Prop) w : Inv w -> Q tt w -> wp (requireOnBranch H) Q w.
Proof. intros Hi HQ. unfold requireOnBranch. by wps. Qed.

Lemma wp_noteBlocked Q w : Inv w -> (forall b, Q tt (set_w_Blocks b w)) -> Q tt w -> wp (noteBlocked H) Q w.
Proof. intros Hi HQ HQ'. unfold noteBlocked. by wps. Qed.

Lemma wp_blockAndCount reason st Q w : Inv w -> verify_inv st ->
  (forall w', state_inv (w_State w') -> Q (set_BlockedReason (Some reason) (set_Status StatusBlocked st)) w') ->
  wp (blockAndCount H reason st) Q w.
Proof.
  intros Hi Hv HQ. unfold blockAndCount. assert (state_inv (set_BlockedReason (Some reason) (set_Status StatusBlocked st))) as Hs by done.
  wps. apply wp_saveChangeState; [done..|]. wps. apply wp_noteBlocked; [done|intros b|]; wps; by apply HQ.
Qed.

Lemma wp_blocksExceeded m (Q : unit -> World -> Prop) w : Inv w -> Q tt w -> wp (blocksExceeded H m) Q w.
Proof. intros Hi HQ. unfold blocksExceeded. by wps. Qed.

Lemma Block_inv reason w : Inv w -> wp (Block H reason) (fun _ => Inv) w.
Proof.
  intros Hi. destruct (Hi) as [Hs Hv]. unfold Block. wps. apply wp_requireChange; [done|]. intros _ _. wps.
  - apply bool_decide_eq_true in H1. assert (state_inv (set_BlockedReason (Some (TrimSpace reason)) (w_State w))).
    { split; [|done]. unfold status_inv. cbn. by rewrite H1. }
    apply wp_saveChangeState; [done..|]. by wps.
  - by apply wp_blockAndCount.
Qed.

Lemma ApproveTweak_inv by_ w : Inv w -> wp (ApproveTweak H by_) (fun _ => Inv) w.
Proof.
  intros Hi. unfold ApproveTweak. wps. apply wp_requireChange; [done|]. intros _ _. wps; [done|].
  by apply wp_saveChangeState.
Qed.

Lemma AnswerChange_inv text by_ w : Inv w -> wp (AnswerChange H text by_) (fun _ => Inv) w.
Proof.
  intros Hi. destruct (Hi) as [Hs Hv]. unfold AnswerChange. wps. apply wp_requireChange; [done|]. intros _ _.
  wps; [by apply inv_any|apply wp_updateAttempts; [by apply inv_any|wps; by apply inv_any]].
Qed.

(** *** Start *)

Lemma rebaseline_verify run pl head st :
  st_Verify (fst (rebaseline run pl head st)) = st_Verify st.
Proof. done. Qed.

Lemma rebaselineRegression_verify st : st_Verify (rebaselineRegression H st) = st_Verify st.
Proof. unfold rebaselineRegression. destruct (_ || _); [done|]. by destruct (runRegression _ _ _). Qed.

Lemma rebaselineMilestoneRegression_verify st : st_Verify (rebaselineMilestoneRegression H st) = st_Verify st.
Proof.
  unfold rebaselineMilestoneRegression. destruct (_ || _); [done|].
  destruct (match milestoneRegressionBaseline _ _ _ with Some _ => _ | None => _ end); [done|]. by destruct (runRegression _ _ _).
Qed.

(** What [enter] must do for a start: keep the invariant, and the state's verify. *)
Definition enter_ok (enter : State -> Cmd State) : Prop := forall st w (Q : State -> World -> Prop),
  Inv w -> verify_inv st -> (forall st' w', Inv w' -> verify_inv st' -> w_State w' = w_State w -> Q st' w') -> wp (enter st) Q w.

Lemma requireApproved_wp st (Q : unit -> World -> Prop) w : Inv w -> Q tt w -> wp (requireApproved H st) Q w.
Proof.
  intros Hi HQ. unfold requireApproved, requireTweakApproved. wps; try done. destruct (st_Approved st); by wps.
Qed.

Lemma begun_verify replan rebase st : verify_inv st -> verify_inv (begun H replan rebase st).
Proof.
  intros Hv. unfold begun. destruct (replan || rebase); [done|]. destruct replan; destruct (_ || _); done.
Qed.

Lemma start_wp enter w (Q : StartResult -> World -> Prop) : Inv w -> enter_ok enter ->
  (forall r w', Inv w' -> Q r w') -> wp (start H enter) Q w.
Proof.
  intros Hi He HQ. destruct (Hi) as [Hs Hv]. unfold start. wps. apply wp_requireChange; [done|]. intros _ _. wps.
  destruct (start_kind H w (w_State w)) as [e|[replan rebase]]; [by wps|]. wps. apply requireApproved_wp; [done|]. wps.
  { apply wp_blockAndCount; [done|done|]. intros w' Hw'. by wps. }
  apply He; [done|done|]. intros st w1 Hi1 Hv1 _.
  pose proof (begun_verify replan rebase st Hv1) as Hb. set (st1 := begun H replan rebase st) in *. clearbody st1.
  unfold rebaseline. cbv zeta. set (st2 := set_Baseline _ st1).
  set (st3 := started H (w_Specs w) (rebaselineMilestoneRegression H (rebaselineRegression H st2))).
  assert (state_inv st3) as H3.
  { apply inv_any; [|done]. unfold verify_inv, st3. cbn. rewrite rebaselineMilestoneRegression_verify, rebaselineRegression_verify. exact Hb. }
  unfold interrupted, refuseVacuousChecks. wps. apply wp_updateAttempts; [done|]. wps. apply wp_saveAndCommit; [done..|]. wps.
  by apply HQ.
Qed.

(** *** The catch-up *)

(** What a catch-up and a green verify leave of a state. *)
Definition same_story (st st' : State) : Prop :=
  st_Review st' = st_Review st /\ st_Accepted st' = st_Accepted st /\ st_BaseBranch st' = st_BaseBranch st /\
  st_PlanDigest st' = st_PlanDigest st /\ st_BaseFingerprints st' = st_BaseFingerprints st.

Lemma same_story_trans st st' st'' : same_story st st' -> same_story st' st'' -> same_story st st''.
Proof. unfold same_story. intuition congruence. Qed.

Lemma caught_up_story cu head inArchive st : same_story st (caught_up H cu head inArchive st).
Proof. unfold caught_up. destruct (cu_Regression cu), (cu_Conflicts cu); done. Qed.

(** A catch-up changes neither the review, nor what the verify found. *)
Lemma caught_up_inv cu head inArchive st : state_inv st -> state_inv (caught_up H cu head inArchive st) /\
  st_Review (caught_up H cu head inArchive st) = st_Review st /\ (green_verify st -> green_verify (caught_up H cu head inArchive st)).
Proof.
  intros [Hs Hv]. unfold caught_up. set (st3 := match cu_Regression cu with Some _ => _ | None => _ end).
  assert (st_Verify st3 = st_Verify st /\ st_Review st3 = st_Review st /\ st_Status st3 = st_Status st /\
          st_BlockedReason st3 = st_BlockedReason st) as (E1 & E2 & E3 & E4) by (unfold st3; by destruct (cu_Regression cu)).
  set (st4 := set_Verify _ st3).
  assert (verify_inv st4) as Hv4.
  { unfold verify_inv, st4. cbn. rewrite E1. intros v Hv' Hg. destruct (st_Verify st) as [v0|] eqn:E; [|done].
    simpl in Hv'. simplify_eq. by apply (Hv v0). }
  assert (st_Review st4 = st_Review st) as Er by exact E2.
  assert (green_verify st -> green_verify st4) as Hg.
  { intros (v & Hv' & Hg). unfold green_verify, st4. cbn. rewrite E1, Hv'. eexists. split; [done|]. exact Hg. }
  destruct (cu_Conflicts cu); [|split_and!; [by apply inv_any|done|done]]. split_and!; [|done|done].
  split; [|exact Hv4]. unfold status_inv in Hs |- *. cbn. rewrite E3. unfold caught_status.
  destruct (st_Status st) eqn:Est; try done; [destruct inArchive; [by apply Hg|done] |destruct inArchive; [|done] | |].
  - destruct Hs as [H1 (r & Hr & Hp)]. split; [by apply Hg|]. exists r. by rewrite <- Er in Hr.
  - rewrite E4. done.
  - destruct Hs as [H1 (r & Hr & Hp)]. split; [by apply Hg|]. exists r. by rewrite <- Er in Hr.
Qed.

(** What layOutConflict saves when the net diff applies, or leaves in the tree. *)
Lemma layOut_inv cu inArchive st f : state_inv st -> cu_Conflicts cu <> [] ->
  let st1 := caught_up H cu (cu_To cu) inArchive st in
  state_inv (set_last_rebase f st1) /\
  state_inv (set_BlockedReason (st_BlockedReason st) (set_Status (caught_status inArchive (st_Status st)) (set_last_rebase f st1))).
Proof.
  intros Hst Hc st1. destruct (caught_up_inv cu (cu_To cu) inArchive st Hst) as (H1 & Hr & Hg). fold st1 in H1, Hr, Hg.
  split; [exact H1|]. destruct H1 as [_ Hv]. destruct Hst as [Hs _]. split; [|exact Hv]. unfold status_inv in *. cbn.
  assert (green_verify st -> green_verify (set_BlockedReason (st_BlockedReason st)
    (set_Status (caught_status inArchive (st_Status st)) (set_last_rebase f st1)))) as Hg' by exact Hg.
  assert (passed_review st -> passed_review (set_BlockedReason (st_BlockedReason st)
    (set_Status (caught_status inArchive (st_Status st)) (set_last_rebase f st1)))) as Hr'.
  { intros (r & Hr' & Hp). exists r. split; [|done]. cbn. by rewrite Hr. }
  unfold caught_status in *. destruct (st_Status st); try done; destruct inArchive; tauto.
Qed.

Lemma catching_inv inArchive st b st' : state_inv st -> catching H inArchive st b st' -> state_inv st'.
Proof.
  intros Hst [cu head Hc|cu Hc|cu f Hc|cu f Hc]; try (by apply caught_up_inv); by apply layOut_inv.
Qed.

Lemma caught_story inArchive st st' : catching H inArchive st true st' -> same_story st st' /\
  (inArchive = true -> st_Status st = StatusReviewed -> st_Status st' = StatusReviewed).
Proof.
  inversion 1 as [cu head Hc|cu Hc|cu f Hc|cu f Hc]; subst; split.
  - apply caught_up_story.
  - intros -> Hr. unfold caught_up. rewrite Hc. destruct (cu_Regression cu); cbn; rewrite Hr; done.
  - exact (caught_up_story cu (cu_To cu) inArchive st).
  - intros -> Hr. cbn [st_Status set_BlockedReason set_Status]. rewrite Hr. done.
Qed.

Lemma catchUp_wp isStart inArchive st w (Q : State * option CatchUp -> World -> Prop) : Inv w -> state_inv st ->
  (forall st' cu w', Inv w' -> state_inv st' -> (w_State w = st -> w_State w' = st') -> same_story st st' ->
     (inArchive = true -> st_Status st = StatusReviewed -> st_Status st' = StatusReviewed) ->
     caught_frame H w w' -> Q (st', cu) w') ->
  wp (catchUp H isStart inArchive st) Q w.
Proof.
  intros Hi Hst HQ. apply wp_catchUp; [done..| |done| |].
  - intros b st' w' Hc _. by apply (catching_inv inArchive st b).
  - apply HQ; try done. split_and!; auto.
  - intros st' cu w' Hc Hi' Ew Hf. destruct (caught_story _ _ _ Hc). apply HQ; try done. by apply (catching_inv inArchive st true).
Qed.

Lemma no_enter_ok : enter_ok no_enter.
Proof. intros st w Q Hi Hv HQ. unfold no_enter. wps. by apply HQ. Qed.

Lemma reenter_wp switched w (Q : StartResult -> World -> Prop) : Inv w -> (forall r w', Inv w' -> Q r w') -> wp (reenter H switched) Q w.
Proof.
  intros Hi HQ. unfold reenter. wps. apply wp_requireChange; [done|]. intros _ _. wps. apply catchUp_wp; [done|exact Hi|].
  intros st' cu w' Hi' _ _ _ _ _. pose proof (start_wp no_enter w' (fun _ => Inv) Hi' no_enter_ok (fun _ _ x => x)) as Hs.
  unfold Command.wp in *. destruct (start H no_enter w') as [w1 [e|r]]; [|by apply HQ].
  destruct e as [code|code|code|]; try done. destruct (_ && _); [by apply HQ|done].
Qed.

Lemma start_new_wp cur w (Q : StartResult -> World -> Prop) : Inv w -> (forall r w', Inv w' -> Q r w') -> wp (start_new H cur) Q w.
Proof.
  intros Hi HQ. unfold start_new.
  assert (enter_ok (enter_branch H cur)) as He.
  { intros st w0 Q' Hi0 Hv0 HQ'. unfold enter_branch. wps. by apply HQ'. }
  pose proof (start_wp (enter_branch H cur) w (fun _ => Inv) Hi He (fun _ _ x => x)) as Hs. unfold Command.wp in *.
  destruct (start H (enter_branch H cur) w) as [w1 [e|r]]; [|by apply HQ]. destruct (w_HasBranch w1); [|exact Hs].
  unfold undo_start. destruct (h_undoReset H), (h_undoSwitch H), (h_undoDelete H && _); done.
Qed.

Lemma Start_inv w : Inv w -> wp (Start H) (fun _ => Inv) w.
Proof.
  intros Hi. unfold Start. wps.
  assert (forall Q' : unit -> World -> Prop, Q' tt w -> wp (fun w => match requireChange H w with
            | (_, inr _) => if IsTweak (h_doc H) then (w, inr tt) else blocksExceeded H (m_Milestone (c_Meta (h_doc H))) w
            | (_, inl _) => (w, inr tt) end) Q' w) as Hb.
  { intros Q' HQ'. unfold Command.wp. destruct (requireChange H w) as [_ [_|_]]; [done|].
    destruct (IsTweak _); [done|]. exact (wp_blocksExceeded _ Q' w Hi HQ'). }
  apply Hb. wps; try done.
  - apply start_wp; [done|apply no_enter_ok|done].
  - by apply reenter_wp.
  - by apply reenter_wp.
  - by apply start_new_wp.
Qed.

(** *** Verify *)

Lemma redBlock_wp st res what e w (Q : VerifyResult -> World -> Prop) : Inv w -> verify_inv st -> vr_Green res = false ->
  wp (redBlock H st res what e) Q w.
Proof.
  intros Hi Hv Hg. unfold redBlock. wps. apply wp_blockAndCount; [done| |].
  - destruct (bool_decide _); [done|]. intros v [= <-] Hg'. cbn in Hg'. congruence.
  - intros w' Hw'. by wps.
Qed.

Lemma redAttempt_wp st res w (Q : VerifyResult -> World -> Prop) : Inv w -> verify_inv st -> vr_Green res = false ->
  (forall s w', Inv w' -> Q (set_vr_Status s res) w') -> wp (redAttempt H st res) Q w.
Proof.
  intros Hi Hv Hg HQ. unfold redAttempt. wps. apply wp_updateAttempts; [done|]. wps.
  - by apply redBlock_wp.
  - by apply HQ.
  - set (st' := set_Status _ _). assert (state_inv st').
    { apply inv_any; [|done]. intros v [= <-] Hg'. cbn in Hg'. congruence. }
    apply wp_saveAndCommit; [done..|]. wps. by apply HQ.
  - by apply redBlock_wp.
Qed.

(** A verify keeps the invariant, and a green one ends with a green verify that
    is not stale, the review untouched. *)
Lemma verify_wp keepReview st w (Q : VerifyResult -> World -> Prop) : Inv w -> state_inv st ->
  (forall res w', Inv w' -> 
     (vr_Green res = true -> same_story st (w_State w') /\ green_verify (w_State w') /\
        (forall v, st_Verify (w_State w') = Some v -> v_Stale v = false /\ v_SHA v = h_headSHA H AtVerify) /\
        (keepReview = true -> st_Status st = StatusReviewed -> st_Status (w_State w') = StatusReviewed) /\
        w_Specs w' = w_Specs w /\ w_BaseAccepted w' = w_BaseAccepted w /\ w_Head w' = w_Head w) -> Q res w') ->
  wp (verify H keepReview st) Q w.
Proof.
  intros Hi Hst HQ. destruct (Hst) as [Hs Hv]. unfold verify. wps. destruct (h_dirty H) as [e|dirty]; wps; [done|].
  destruct (verify_plan H w st) as [[checks skipped] fullSkipped]. unfold interrupted. wps.
  destruct (judged H st skipped _) as [regression results]. apply wp_if; intros Hgr.
  - apply negb_true_iff in Hgr. apply redAttempt_wp; [done|done|exact Hgr|intros s w1 Hi1; apply HQ; [done|cbn; congruence]].
  - apply negb_false_iff in Hgr. set (res := MkVerifyResult _ _ _ _ _ _ _ _). set (status := if bool_decide _ && _ then _ else _).
    set (st2 := set_Status status _).
    assert (green_verify st2) as Hg by (eexists; split; [done|exact Hgr]).
    assert (state_inv st2) as Hst2.
    { split.
      - unfold status_inv. change (st_Status st2) with status. unfold status. destruct (bool_decide_reflect (st_Status st = StatusReviewed)) as [Hr|Hr]; [|exact Hg].
        destruct (st_Review st) as [r|] eqn:Er; [|exact Hg]. cbn [andb]. destruct (bool_decide_reflect (rw_Verdict r = "pass")) as [Hp|Hp]; [|exact Hg].
        destruct (h_codeMoved H AtVerify (rw_SHA r) && _); [exact Hg|]. rewrite Hr. split; [exact Hg|]. exists r. split; [exact Er|done].
      - intros v [= <-] _. cbn. rewrite forallb_forall in Hgr. apply Forall_forall. intros r Hr%list_elem_of_In.
        apply negb_true_iff, Hgr, Hr. }
    wps. apply wp_saveAndCommit; [done..|]. wps. apply HQ; [exact Hst2|]. intros _. split_and!; try done.
    + by intros v [= <-].
    + intros -> Hr. cbn. unfold status. destruct Hst as [Hst _]. unfold status_inv in Hst. rewrite Hr in Hst.
      destruct Hst as [_ (r & Er & Hp)]. rewrite bool_decide_true, Er, bool_decide_true by done. cbn [andb]. by rewrite andb_false_r.
Qed.

Lemma VerifyChange_wp w (Q : VerifyResult -> World -> Prop) : Inv w -> (forall r w', Inv w' -> Q r w') -> wp (VerifyChange H) Q w.
Proof.
  intros Hi HQ. unfold VerifyChange, checkPlanFrozen. wps. apply wp_requireChange; [done|]. intros _ _. wps.
  apply wp_requireOnBranch; [done|]. wps. apply catchUp_wp; [done|exact Hi|]. intros st' cu w' Hi' Hst' _ _ _ _.
  by apply verify_wp; [..|intros; apply HQ].
Qed.

(** *** Review *)

Lemma ReviewChange_inv verdict findings w : Inv w -> wp (ReviewChange H verdict findings) (fun _ => Inv) w.
Proof.
  intros Hi. destruct (Hi) as [Hs Hv]. unfold ReviewChange. wps. apply wp_requireChange; [done|]. intros _ _. wps.
  apply wp_requireOnBranch; [done|]. wps.
  - destruct (st_Verify (w_State w)) as [v|] eqn:Ev; wps; [|done]. set (st' := set_Status _ _). 
    assert (state_inv st') as Hst'.
    { split; [|exact Hv]. unfold status_inv, st'. cbn. destruct (bool_decide_reflect (verdict = "pass")) as [->|]; [|done]. split.
      - exists v. split; [exact Ev|]. by apply negb_false_iff.
      - eexists. split; [done|]. done. }
    apply wp_saveAndCommit; [done..|]. by wps.
  - set (st' := set_Status _ _). assert (state_inv st') as Hst'.
    { split; [|exact Hv]. unfold status_inv, st'. cbn. destruct (verdict =s "pass"); done. }
    apply wp_saveAndCommit; [done..|]. by wps.
Qed.

Lemma ReverifyStaleReview_inv w : Inv w -> wp (ReverifyStaleReview H) (fun _ => Inv) w.
Proof.
  intros Hi. unfold ReverifyStaleReview. wps. apply wp_requireChange; [done|]. intros _ _. wps; [done|].
  apply VerifyChange_wp; [done|]. intros r w' Hi'. by wps.
Qed.

Lemma head_back_wp b (Q : list gostring -> World -> Prop) w : Inv w ->
  (forall l w', w_State w' = w_State w -> Q l w') -> wp (head_back H b) Q w.
Proof. intros Hi HQ. unfold head_back. wps; by apply HQ. Qed.

Lemma voided_state_inv run recorded violations st : state_inv st -> state_inv (voided_state H run recorded violations st).
Proof.
  intros [_ Hv]. split; [|exact Hv]. unfold status_inv. cbn.
  destruct (st_Verify st) as [v|] eqn:Ev; [|done]. destruct (v_Green v) eqn:Eg; [|done]. cbn [andb].
  destruct (h_codeMoved H AtSettle (v_SHA v)); [done|]. exists v. done.
Qed.

Lemma SettleReviewRun_inv run files recorded w : Inv w -> wp (SettleReviewRun H run files recorded) (fun _ => Inv) w.
Proof.
  intros Hi. unfold SettleReviewRun. wp1.
  assert (forall Q : list gostring -> World -> Prop, (forall l w', w_State w' = w_State w -> Q l w') ->
    wp (if h_inGit H then head_back H (ChangeBranch (h_id H)) else cret []) Q w) as Hback.
  { intros Q HQ. destruct (h_inGit H); [by apply head_back_wp|]. wps. by apply HQ. }
  apply Hback. intros moved w' Ew. assert (Inv w') as Hi' by (unfold Inv; by rewrite Ew).
  wps. apply wp_requireChange; [done|]. intros _ _. wps; [done|].
  pose proof (voided_state_inv run recorded (moved ++ files) _ Hi'). apply wp_saveAndCommit; [done..|]. by wps.
Qed.

(** *** Acceptances *)

Lemma refreshPending_inv c st : state_inv st -> state_inv (refreshPending c st) /\ st_Review (refreshPending c st) = st_Review st /\
  st_Status (refreshPending c st) = st_Status st /\ (green_verify st -> green_verify (refreshPending c st)).
Proof.
  intros [Hs Hv]. assert (green_verify st -> green_verify (refreshPending c st)) as Hg.
  { intros (v & Hv' & Hg). eexists. unfold refreshPending. cbn. rewrite Hv'. split; [done|exact Hg]. }
  split_and!; [|done|done|exact Hg]. split.
  - unfold status_inv in *. cbn. destruct (st_Status st); try done; try (by apply Hg); destruct Hs as [H1 H2]; split; auto.
  - unfold verify_inv, refreshPending. cbn. intros v Hv' Hgr. destruct (st_Verify st) as [v0|] eqn:E; [|done].
    simpl in Hv'. simplify_eq. by apply (Hv v0).
Qed.

Lemma accepted_inv l st : state_inv st -> state_inv (set_Accepted l st).
Proof. done. Qed.

Lemma withAcceptance_inv c rec st : state_inv st -> state_inv (withAcceptance c rec st).
Proof. intros Hst. unfold withAcceptance. apply refreshPending_inv. by apply accepted_inv. Qed.

Lemma humanTask_wp task (Q : unit -> World -> Prop) w : Inv w -> Q tt w -> wp (humanTask H task) Q w.
Proof. intros Hi HQ. unfold humanTask. destruct (find_task _ _); wps; done. Qed.

Lemma accept_inv task by_ run w : Inv w -> wp (accept H task by_ run) (fun _ => Inv) w.
Proof.
  intros Hi. unfold accept. wps.
  destruct (st_Status (w_State w)) eqn:Est; wps; try done.
  all: try (apply humanTask_wp; [done|]; wps).
  all: try (destruct (h_evidence H) as [e|ev]; wps; try done).
  all: try (apply humanTask_wp; [done|]; wps).
  all: try (apply wp_requireOnBranch; [done|]; wps).
  all: try (destruct (h_evidence H) as [e|ev]; wps; try done).
  all: try (apply wp_saveChangeState; [done| |wps]); try (apply withAcceptance_inv; exact Hi); done.
Qed.

Lemma Accept_inv task by_ w : Inv w -> wp (Accept H task by_) (fun _ => Inv) w.
Proof. intros Hi. unfold Accept. wps. by apply accept_inv. Qed.

Lemma returned_state_inv run reason defects st : state_inv st -> state_inv (returned_state H run reason defects st).
Proof. intros [_ Hv]. by apply inv_any. Qed.

Lemma SettleDelegateRun_inv run files verdict w : Inv w -> wp (SettleDelegateRun H run files verdict) (fun _ => Inv) w.
Proof.
  intros Hi. unfold SettleDelegateRun. wp1.
  assert (forall Q : list gostring -> World -> Prop, (forall l w', w_State w' = w_State w -> Q l w') ->
    wp (if d_Branch run <>s "" then head_back H (d_Branch run) else cret []) Q w) as Hback.
  { intros Q HQ. destruct (d_Branch run <>s ""); [by apply head_back_wp|]. wps. by apply HQ. }
  apply Hback. intros moved w' Ew. assert (Inv w') as Hi' by (unfold Inv; by rewrite Ew). wps; [done|].
  assert (forall v, wp (if dv_Verdict v <>s "pass" then settleDelegateFail H run v
                        else AcceptDelegated H run;; cret DelegateAccepted) (fun _ => Inv) w') as Hv.
  { intros v. unfold settleDelegateFail, AcceptDelegated. wps; try done.
    - apply wp_requireChange; [done|]. intros _ _. unfold own_defects. wps.
      assert (forall defects, wp (if negb (bool_decide (returnsSinceReset (withBaseAccepted (h_inGit H) (w_BaseAccepted w') (w_State w')) (d_Task run) = [])) ||
         bool_decide (defects = []) || negb (bool_decide (st_Status (w_State w') = StatusReviewed)) then cret DelegateToPerson
        else saveChangeState H AtReturn (returned_state H run (dv_Reason v) defects (w_State w'));; cret DelegateReturned) (fun _ => Inv) w') as Hd.
      { intros defects. wps; [done|]. pose proof (returned_state_inv run (dv_Reason v) defects _ Hi').
        apply wp_saveChangeState; [done..|]. by wps. }
      destruct (dv_Defects v); [apply wp_ret, Hd|]. wp1. apply wp_refuse; [done|]. intros _. destruct (h_touched H); [by wps|apply wp_ret, Hd].
    - eapply wp_mono; [by apply accept_inv|]. intros x w1 Hi1. by wps. }
  destruct verdict as [v|]; [apply wp_ret, Hv|]. wp1. apply wp_check; [done|]. apply wp_ret, Hv.
Qed.

(** *** Abandon *)

Lemma leaveChangeBranch_wp st w (Q : gostring -> World -> Prop) : Inv w ->
  (forall t w', w_State w' = w_State w -> Q t w') -> wp (leaveChangeBranch H st) Q w.
Proof. intros Hi HQ. unfold leaveChangeBranch. wps; try done; by apply HQ. Qed.

Lemma Abandon_inv reason w : Inv w -> wp (Abandon H reason) (fun _ => Inv) w.
Proof.
  intros Hi. destruct (Hi) as [_ Hv]. unfold Abandon. wps. apply wp_requireChange; [done|]. intros _ _.
  assert (forall t, state_inv (abandoned_state H reason t (w_State w))) as Ha.
  { intros t. unfold abandoned_state. destruct (t <>s ""); by apply inv_any. }
  unfold abandonElsewhere. wps; try done; try apply Ha. apply leaveChangeBranch_wp; [done|]. intros t w' Hw'.
  assert (Inv w') as Hi' by (unfold Inv; by rewrite Hw'). wps; try done; apply Ha.
Qed.

(** *** Archive *)

(** What an archive leaves: the verify green at the archived code, the review
    passed, the plan the one that was started, every human-review task accepted
    unless a person let it through, and the specs merged (the tree's, or those the
    archive's catch-up rebased onto) and valid. *)
Definition archived_well (allow : bool) (w0 w : World) : Prop :=
  let st := w_State w in
  st_Status st = StatusArchived /\ green_verify st /\ passed_review st /\
  (forall v, st_Verify st = Some v -> v_Stale v = false /\ (v_SHA v = h_headSHA H AtVerify \/ h_codeMoved H AtArchive (v_SHA v) = false)) /\
  (st_PlanDigest st = [] \/ st_PlanDigest st = PlanDigest (h_sha256 H) (h_doc H)) /\
  (PendingHuman st (HumanTasks (h_doc H)) = [] \/ allow = true /\ st_AllowPendingHuman st = true) /\
  exists specs updates, (specs = w_Specs w0 \/ specs = h_rebasedSpecs H) /\
    MergeDelta (h_ToLower H) (h_Quote H) (h_RawQuote H) (h_spec_path H) specs (h_doc H) = (updates, []) /\
    w_Specs w = foldl write_update specs updates /\
    Forall (fun u => u_Retired u = false -> ValidateSpec (u_Path u) (u_content u) (h_specCap H) = []) updates.

Lemma archivable_wp allow st w (Q : list gostring -> World -> Prop) : Inv w ->
  (forall pending, st_Status st = StatusReviewed -> passed_review st ->
     (st_PlanDigest st = [] \/ st_PlanDigest st = PlanDigest (h_sha256 H) (h_doc H)) -> h_inGit H = true -> st_BaseBranch st <> [] ->
     pending = PendingHuman (withBaseAccepted true (w_BaseAccepted w) st) (HumanTasks (h_doc H)) ->
     (pending = [] \/ allow = true) -> Q pending w) -> wp (archivable H allow st) Q w.
Proof.
  intros Hi HQ. unfold archivable, checkPlanFrozen. wp1. apply wp_get. wp1. apply wp_refuse; [done|]. intros Hrev.
  apply negb_false_iff, andb_prop in Hrev as [Hst Hpass]. apply bool_decide_eq_true in Hst.
  wp1. apply wp_refuse; [done|]. intros Hgit%negb_false_iff. wp1. apply wp_refuse; [done|]. intros Hplan. wps.
  rewrite Hgit in *. apply HQ; [done| | |done| |done|].
  - destruct (st_Review st) as [r|] eqn:E; [|done]. apply bool_decide_eq_true in Hpass. by exists r.
  - apply andb_false_iff in Hplan as [Hp|Hp]; apply negb_false_iff, bool_decide_eq_true in Hp; auto.
  - intros Hb. rewrite Hb, orb_true_r in *. done.
  - destruct allow; [by right|left]. rewrite andb_true_r in *.
    match goal with Hx : negb (bool_decide (PendingHuman _ _ = [])) = false |- _ =>
      by apply negb_false_iff, bool_decide_eq_true in Hx end.
Qed.

(** The state an archive writes. *)
Lemma archived_state_spec w st pending by_ : h_inGit H = true -> st_BaseBranch st <> [] -> state_inv st -> green_verify st -> passed_review st ->
  pending = PendingHuman (withBaseAccepted true (w_BaseAccepted w) st) (HumanTasks (h_doc H)) ->
  let st' := archived_state H w st pending by_ in
  state_inv st' /\ st_Status st' = StatusArchived /\ green_verify st' /\ passed_review st' /\ st_PlanDigest st' = st_PlanDigest st /\
  (forall v', st_Verify st' = Some v' -> exists v, st_Verify st = Some v /\ v_Stale v' = v_Stale v /\ v_SHA v' = v_SHA v) /\
  PendingHuman st' (HumanTasks (h_doc H)) = pending /\ (pending <> [] -> st_AllowPendingHuman st' = true).
Proof.
  intros Hgit Hb Hst Hg Hp Hpend st'. unfold st', archived_state. rewrite Hgit.
  set (base := match w_BaseAccepted w with [] => st | _ => _ end).
  assert (state_inv base /\ green_verify base /\ passed_review base /\ st_PlanDigest base = st_PlanDigest st /\
    (forall v', st_Verify base = Some v' -> exists v, st_Verify st = Some v /\ v_Stale v' = v_Stale v /\ v_SHA v' = v_SHA v) /\
    PendingHuman base (HumanTasks (h_doc H)) = pending) as (H1 & H2 & H3 & H4 & H5 & H6).
  { subst pending. unfold base, withBaseAccepted. rewrite bool_decide_false by done. cbn [orb negb].
    destruct (w_BaseAccepted w) as [|a l].
    - split_and!; try done. intros v' Hv'. eauto.
    - set (m := set_Accepted _ st). destruct (refreshPending_inv (h_doc H) m Hst) as (R1 & R2 & R3 & R4).
      split_and!; [done|by apply R4| |done| |done].
      + destruct Hp as (r & Hr & Hp). exists r. by rewrite R2.
      + intros v' Hv'. unfold refreshPending in Hv'. cbn in Hv'. destruct (st_Verify st) as [v|]; [|done].
        simpl in Hv'. simplify_eq. by exists v. }
  clearbody base. destruct H1 as [_ Hv].
  set (st1 := set_TipRef _ _). set (st2 := match pending with [] => st1 | _ => _ end).
  assert (st_Status st1 = StatusArchived /\ st_Verify st1 = st_Verify base /\ st_Review st1 = st_Review base /\
    st_PlanDigest st1 = st_PlanDigest base /\ st_Accepted st1 = st_Accepted base) as HE by (split_and!; reflexivity).
  clearbody st1.
  assert ((st_Status st2 = st_Status st1 /\ st_Verify st2 = st_Verify st1 /\ st_Review st2 = st_Review st1 /\
    st_PlanDigest st2 = st_PlanDigest st1 /\ st_Accepted st2 = st_Accepted st1) /\ (pending <> [] -> st_AllowPendingHuman st2 = true)) as [HE2 Hal].
  { unfold st2. destruct pending; split; [split_and!; reflexivity|done|split_and!; reflexivity|reflexivity]. }
  clearbody st2. destruct HE as (E1 & E2 & E3 & E4 & E5). destruct HE2 as (F1 & F2 & F3 & F4 & F5).
  unfold green_verify, passed_review, PendingHuman in *.
  split_and!.
  - split; [|intros v; rewrite F2, E2; apply Hv]. unfold status_inv, green_verify, passed_review. rewrite F1, E1, F2, E2, F3, E3. done.
  - congruence.
  - by rewrite F2, E2.
  - by rewrite F3, E3.
  - congruence.
  - by rewrite F2, E2.
  - by rewrite F5, E5.
  - exact Hal.
Qed.

Lemma archiveFresh_wp st w (Q : unit -> World -> Prop) : Inv w -> w_State w = st -> st_Status st = StatusReviewed ->
  (forall w', Inv w' -> same_story st (w_State w') -> st_Status (w_State w') = StatusReviewed ->
     (forall v, st_Verify (w_State w') = Some v -> v_Stale v = false /\ (v_SHA v = h_headSHA H AtVerify \/ h_codeMoved H AtArchive (v_SHA v) = false)) ->
     w_Specs w' = w_Specs w -> w_BaseAccepted w' = w_BaseAccepted w -> Q tt w') ->
  wp (archiveFresh H st) Q w.
Proof.
  intros Hi Hw Hrev HQ. unfold archiveFresh. apply wp_if; intros Hm.
  - apply negb_true_iff in Hm. wps. apply HQ; [done|by rewrite Hw|by rewrite Hw| |done|done].
    rewrite Hw. intros v Hv. rewrite Hv in Hm. apply orb_false_iff in Hm as [H1 H2]. auto.
  - wps. apply verify_wp; [done|by rewrite <- Hw|]. intros res w' Hi' Hres. wps; [|done].
    destruct (Hres H0) as (Hstory & _ & Hst & Hk & Hsp & Hba & _). apply HQ; [done|done|by apply Hk| |done|done].
    intros v Hv. destruct (Hst v Hv). auto.
Qed.

Lemma planArchive_wp st w (Q : list SpecUpdate -> World -> Prop) : Inv w ->
  (forall updates, MergeDelta (h_ToLower H) (h_Quote H) (h_RawQuote H) (h_spec_path H) (w_Specs w) (h_doc H) = (updates, []) ->
     Forall (fun u => u_Retired u = false -> ValidateSpec (u_Path u) (u_content u) (h_specCap H) = []) updates -> Q updates w) ->
  wp (planArchive H st) Q w.
Proof.
  intros Hi HQ. unfold planArchive. wps. destruct (MergeDelta _ _ _ _ _ _) as [updates conflicts] eqn:E.
  wp1. apply wp_refuse; [done|]. intros Hc%negb_false_iff%bool_decide_eq_true. subst conflicts.
  wp1. apply wp_refuse; [done|]. intros _. wp1. apply wp_refuse; [done|]. intros Hval. wps. apply HQ; [done|].
  apply Forall_forall. intros u Hu Hr. destruct (decide (ValidateSpec (u_Path u) (u_content u) (h_specCap H) = [])) as [|Hne]; [done|].
  exfalso. apply not_true_iff_false in Hval. apply Hval, existsb_exists. exists u. split; [by apply list_elem_of_In|].
  rewrite Hr, bool_decide_false by done. done.
Qed.

Lemma Archive_wp allow by_ w : Inv w -> wp (Archive H allow by_) (fun _ w' => Inv w' /\ archived_well allow w w') w.
Proof.
  intros Hi. unfold Archive. wps. apply wp_requireChange; [done|]. intros _ _. wps.
  apply archivable_wp; [done|]. intros pending Hrev Hpass Hplan Hgit Hbase Hpend Hallow. wps.
  assert (forall Q, (forall w', w_State w' = w_State w -> w_Specs w' = w_Specs w -> w_BaseAccepted w' = w_BaseAccepted w -> Q (w_State w) w') ->
    wp (enterChangeBranch H (w_State w)) Q w) as Henter.
  { intros Q HQ. unfold enterChangeBranch. wps; try done; [by apply HQ|].
    apply wp_requireChange; [done|]. intros _ _. cbn. by apply HQ. }
  apply Henter. intros w1 Es1 Esp1 Eba1. assert (Inv w1) as Hi1 by (unfold Inv; by rewrite Es1). wps.
  apply catchUp_wp; [done|exact Hi|]. intros st2 cu w2 Hi2 Hst2 Ew2 Hstory2 Hrev2 (Esp2 & Eba2 & _).
  specialize (Ew2 Es1). specialize (Hrev2 eq_refl Hrev). wps.
  apply archiveFresh_wp; [done|done|done|]. intros w3 Hi3 Hstory3 Hrev3 Hfresh Esp3 Eba3. wps.
  apply planArchive_wp; [done|]. intros updates Hm Hval.
  pose proof (same_story_trans _ _ _ Hstory2 Hstory3) as (Er & Ea & Eb & Ep & _). destruct (Hi3) as [Hs3 Hv3].
  unfold status_inv in Hs3. rewrite Hrev3 in Hs3. destruct Hs3 as [Hg3 Hp3].
  assert (pending = PendingHuman (withBaseAccepted true (w_BaseAccepted w3) (w_State w3)) (HumanTasks (h_doc H))) as Hpend3.
  { rewrite Hpend, Eba3, Eba2, Eba1. unfold withBaseAccepted, PendingHuman. rewrite Eb.
    destruct (_ || _); [by rewrite Ea|]. destruct (w_BaseAccepted w); [by rewrite Ea|]. cbn. by rewrite Ea. }
  unfold squashOntoBase. wp1. apply wp_get. wp1. apply wp_check; [done|]. wp1. apply wp_modify.
  destruct (h_squash H) as [e|]; [by wps|]. wp1.
  destruct (archived_state_spec w3 (w_State w3) pending by_ Hgit) as (A1 & A2 & A3 & A4 & A5 & A6 & A7 & A8);
    [by rewrite Eb|done..|]. set (st4 := archived_state H w3 (w_State w3) pending by_) in *. clearbody st4.
  wps. split; [done|]. unfold archived_well.
  assert (w_Specs w3 = w_Specs w \/ w_Specs w3 = h_rebasedSpecs H) as Esp by (rewrite Esp3, <- Esp1; exact Esp2).
  assert (w_Specs (if IsTweak (h_doc H) then w3 else set_w_Blocks 0 w3) = w_Specs w3) as Esp' by by destruct (IsTweak _).
  cbn [w_State set_w_HasBranch set_w_Head set_w_State set_w_Specs w_Specs]. split_and!; [done..| | | |].
  - intros v Hv. destruct (A6 v Hv) as (v0 & Hv0 & -> & ->). by apply Hfresh.
  - rewrite A5, Ep. exact Hplan.
  - rewrite A7. destruct Hallow as [->|Hal]; [by left|]. destruct (decide (pending = [])) as [|Hne]; [by left|]. right. auto.
  - exists (w_Specs w3), updates. done.
Qed.

End inv.

(** ** Every command keeps the invariant *)

Inductive command :=
| CStart | CVerify | CReview (verdict findings : gostring) | CReverify
| CSettle (run : gostring) (files : list gostring) (recorded : bool)
| CDelegate (run : DelegateRun) (files : list gostring) (verdict : option DelegateVerdict)
| CBlock (reason : gostring) | CAnswer (text by_ : gostring) | CAccept (task by_ : gostring) | CApprove (by_ : gostring)
| CArchive (allow : bool) (by_ : gostring) | CAbandon (reason : gostring).

(** The world a command leaves, whether it succeeds or refuses. *)
Definition exec (H : Host) (c : command) (w : World) : World :=
  match c with
  | CStart => fst (Start H w) | CVerify => fst (VerifyChange H w) | CReview v f => fst (ReviewChange H v f w)
  | CReverify => fst (ReverifyStaleReview H w) | CSettle r v b => fst (SettleReviewRun H r v b w)
  | CDelegate r l v => fst (SettleDelegateRun H r l v w)
  | CBlock r => fst (Block H r w) | CAnswer t b => fst (AnswerChange H t b w) | CAccept t b => fst (Accept H t b w)
  | CApprove b => fst (ApproveTweak H b w) | CArchive a b => fst (Archive H a b w) | CAbandon r => fst (Abandon H r w)
  end.

(** One step of a change's life under limits [L]: a command in any host with those
    limits, or what happens around it — a branch checked out, other changes archived
    into the specs, other changes of the milestone blocked or archived, or a
    milestone approved again. *)
Inductive step (L : Limits) : World -> World -> Prop :=
| step_command H c w : h_limits H = L -> step L w (exec H c w)
| step_switch b w : step L w (set_w_Head b w)
| step_specs m w : step L w (set_w_Specs m w)
| step_blocks n w : step L w (set_w_Blocks n w).

(** A change just made by `ape change new`. *)
Definition initial (id at_ head : gostring) (specs : gmap gostring gostring) (blocks : Z) : World :=
  MkWorld (new_state id at_) (MkAttempts 0 0 0) blocks [] head false specs.

Inductive reachable (L : Limits) (w0 : World) : World -> Prop :=
| reach_refl : reachable L w0 w0
| reach_step w w' : reachable L w0 w -> step L w w' -> reachable L w0 w'.

Lemma exec_inv H c w : Inv w -> Inv (exec H c w).
Proof.
  intros Hi. destruct c; cbn [exec]; apply wp_fst; auto using Start_inv, ReviewChange_inv, ReverifyStaleReview_inv,
    SettleReviewRun_inv, SettleDelegateRun_inv, Block_inv, AnswerChange_inv, Accept_inv, ApproveTweak_inv, Abandon_inv.
  - by apply VerifyChange_wp.
  - eapply wp_mono; [by apply Archive_wp|]. by intros _ w' [? _].
Qed.

(** C1: no command, in any order, with whatever git, the file system, the clock and
    the checks answer, refusals and failed commits included, ever leaves a change
    whose status its records do not bear out: verified only with a green verify,
    reviewed or archived only with a green verify and a passed review, blocked only
    with a reason, and a verify recorded green only when none of its results is
    red. *)
Theorem lifecycle_invariant (L : Limits) (id at_ head : gostring) (specs : gmap gostring gostring) (blocks : Z) (w : World) :
  reachable L (initial id at_ head specs blocks) w -> state_inv (w_State w).
Proof.
  induction 1 as [|w w' _ IH Hstep]; [by apply inv_any|]. destruct Hstep as [H c w _| | |]; [by apply exec_inv|done..].
Qed.

(** C2: what archives is what was proved. An archive of a change whose records are
    borne out (as the invariant gives) ends, when it succeeds, with the change archived on
    a green verify that is not stale and covers the archived code, a passed review,
    the very plan that was started, and every human-review task accepted unless a
    person let it through (recorded); and the specs are the delta merged without
    conflict, each written spec passing the spec check. *)
Theorem Archive_spec (H : Host) (allow : bool) (by_ : gostring) (w w' : World) (st : State) :
  state_inv (w_State w) -> Archive H allow by_ w = (w', inr st) -> archived_well H allow w w'.
Proof. intros Hi Ha. pose proof (Archive_wp H allow by_ w Hi) as Hw. unfold wp in Hw. rewrite Ha in Hw. tauto. Qed.
