(* ===== verification/LifecycleSpecs.v ===== *)
(** What single commands of the lifecycle do: a start and its limits, its undoing, the
    baseline it keeps, a red verify, the archive's end. *)
From S2P Require Import Prelude Regex Markdown Spec Change Merge Effective Regression Roadmap State Command Lifecycle LifecycleFacts.

(** ** The baseline *)

Lemma run_stage_tasks H s checks : cr_Task <$> run_stage H s checks = pc_Ref <$> checks.
Proof. apply RunChecks_tasks. Qed.

Lemma base_of_elem base ref b : base_of base ref = Some b -> b ∈ base /\ b_Task b = ref.
Proof.
  unfold base_of. intros Hf. apply List.find_some in Hf as [Hin Hb]. apply bool_decide_eq_true in Hb.
  split; [|done]. by apply list_elem_of_In, in_rev.
Qed.

Lemma kept_baseline_spec base pc b : kept_baseline base pc = Some b -> b ∈ base /\ b_Task b = pc_Ref pc /\ b_Cmd b = pc_Cmd pc.
Proof.
  unfold kept_baseline. destruct (base_of base (pc_Ref pc)) as [b0|] eqn:E; [|done]. case_bool_decide; [|done].
  intros [= <-]. apply base_of_elem in E as [? ?]. done.
Qed.

(** Distinct refs: the one baseline of a ref in the list is the one found. *)
Lemma base_of_unique base b : NoDup (b_Task <$> base) -> b ∈ base -> base_of base (b_Task b) = Some b.
Proof.
  intros Hnd Hb. unfold base_of. destruct (List.find _ (rev base)) as [b'|] eqn:E.
  - apply List.find_some in E as [Hin Ht]. apply bool_decide_eq_true in Ht. apply in_rev, list_elem_of_In in Hin. f_equal.
    apply list_elem_of_lookup in Hb as [i Hi], Hin as [j Hj].
    assert (i = j) as ->; [|congruence].
    eapply (NoDup_lookup (b_Task <$> base)); [done|by rewrite list_lookup_fmap, Hi|rewrite list_lookup_fmap, Hj; simpl; congruence].
  - exfalso. assert (In b (rev base)) as Hin by by apply in_rev; rewrite rev_involutive; apply list_elem_of_In.
    apply (List.find_none _ _ E) in Hin. by rewrite bool_decide_true in Hin.
Qed.

(** A re-start cannot launder a baseline. Of a plan whose checks have distinct
    refs, rebaseline keeps for every check that had a baseline of its very command
    that baseline, exit and commit as they were, runs just the others, and leaves
    each check exactly one baseline, of its own ref. *)
Theorem rebaseline_keeps (H : Host) (planned : list PlannedCheck) (sha : gostring) (st : State) :
  NoDup (pc_Ref <$> planned) ->
  let '(st', out) := rebaseline (run_stage H RunStart) planned sha st in
  (forall pc b, pc ∈ planned -> kept_baseline (st_Baseline st) pc = Some b -> base_of (st_Baseline st') (pc_Ref pc) = Some b) /\
  (forall pc, pc ∈ planned -> kept_baseline (st_Baseline st) pc = None ->
     exists r, r ∈ out /\ cr_Task r = pc_Ref pc /\ base_of (st_Baseline st') (pc_Ref pc) = Some (baseline_of sha r)) /\
  (b_Task <$> st_Baseline st') ≡ₚ (pc_Ref <$> planned) /\
  cr_Task <$> out = pc_Ref <$> List.filter (fun pc => negb (isSome (kept_baseline (st_Baseline st) pc))) planned.
Proof.
  intros Hnd. unfold rebaseline. set (keep := kept_baseline (st_Baseline st)).
  set (todo := List.filter (fun pc => negb (isSome (keep pc))) planned). set (out := run_stage H RunStart todo).
  cbn [set_Baseline st_Baseline].
  assert (cr_Task <$> out = pc_Ref <$> todo) as Hout by apply run_stage_tasks.
  assert (b_Task <$> (baseline_of sha <$> out) = pc_Ref <$> todo) as Hnew by (rewrite <- Hout, <- list_fmap_compose; done).
  assert ((b_Task <$> (omap keep planned ++ (baseline_of sha <$> out))) ≡ₚ pc_Ref <$> planned) as Hperm.
  { rewrite fmap_app, Hnew. clear Hnd Hout Hnew out. unfold todo. clear todo. induction planned as [|pc l IH]; [done|].
    cbn [omap list_omap List.filter]. destruct (keep pc) as [b|] eqn:E; cbn [isSome negb].
    - rewrite (fmap_cons b_Task), (fmap_cons pc_Ref pc l). apply kept_baseline_spec in E as (_ & -> & _).
      change ((pc_Ref pc :: ?x) ++ ?y) with (pc_Ref pc :: (x ++ y)). by rewrite IH.
    - rewrite !(fmap_cons pc_Ref), <- Permutation_middle. by rewrite IH. }
  assert (NoDup (b_Task <$> (omap keep planned ++ (baseline_of sha <$> out)))) as Hnd' by by rewrite Hperm.
  split_and!; [| |done|done].
  - intros pc b Hpc Hb. pose proof (kept_baseline_spec _ _ _ Hb) as (_ & <- & _). apply base_of_unique; [done|].
    apply elem_of_app. left. apply list_elem_of_omap. eauto.
  - intros pc Hpc Hb. assert (pc_Ref pc ∈ cr_Task <$> out) as Hin.
    { rewrite Hout. apply list_elem_of_fmap. exists pc. split; [done|]. apply list_elem_of_In, List.filter_In.
      rewrite <- list_elem_of_In. split; [done|]. fold keep in Hb. by rewrite Hb. }
    apply list_elem_of_fmap in Hin as (r & Hr & Hin). exists r. split_and!; [done|done|]. rewrite Hr.
    apply (base_of_unique _ (baseline_of sha r)); [done|]. apply elem_of_app. right. apply list_elem_of_fmap. eauto.
Qed.

(** ** A red verify *)

(** The loop limits bound red verifies. A red verify whose attempts and state can
    be written and committed counts one more attempt, since the start and in total; it leaves the
    change in progress only while it stays below both limits.attempts and
    limits.attempts_total (counted since a person's last answer), and the red
    verify that reaches either blocks the change, with a reason, and refuses. *)
Theorem redAttempt_bounded (H : Host) (st : State) (res : VerifyResult) (w : World) :
  h_writeAttempts H = None -> (forall s, h_save H s = None) -> (forall s, h_commit H s = None) -> (forall s, h_edit H s = None) ->
  let '(w', r) := redAttempt H st res w in
  let a := w_Attempts w' in
  at_Since a = (at_Since (w_Attempts w) + 1)%Z /\ at_Total a = (at_Total (w_Attempts w) + 1)%Z /\
  at_AtAnswer a = at_AtAnswer (w_Attempts w) /\
  if ((at_Since a <? AttemptsCap (h_limits H)) && (at_Total a - at_AtAnswer a <? AttemptsTotalCap (h_limits H)))%Z
  then (st_Status st = StatusInProgress -> w_State w' = w_State w) /\
       (st_Status st <> StatusInProgress -> st_Status (w_State w') = StatusInProgress)
  else st_Status (w_State w') = StatusBlocked /\ st_BlockedReason (w_State w') <> None /\ exists e, r = inl e.
Proof.
  intros Hw Hs Hcm He. unfold redAttempt, updateAttempts, cbind, get, check, modify, cret. rewrite Hw. cbn [w_Attempts set_w_Attempts].
  set (a := MkAttempts _ _ _). set (w1 := set_w_Attempts a w).
  assert (forall what e, let '(w', r) := redBlock H st res what e w1 in
    w_Attempts w' = a /\ st_Status (w_State w') = StatusBlocked /\ st_BlockedReason (w_State w') <> None /\ exists e, r = inl e) as Hblock.
  { intros what e. unfold redBlock, blockAndCount, saveChangeState, saveAndCommit, noteBlocked, cbind, check, modify, cret, fail, get.
    rewrite Hs, Hcm, He. destruct (h_readFrom H =s ""); [destruct (h_inGit H)|]; cbn [negb];
      repeat (match goal with |- context [if ?b then _ else _] => destruct b end);
      try destruct (h_noteBlocked H); cbn; split_and!; try done; eauto. }
  destruct (Z.leb_spec (AttemptsTotalCap (h_limits H)) (at_Total a - at_AtAnswer a)) as [Ht|Ht].
  { destruct (redBlock _ _ _ _ _ _) as [w' r] eqn:E. specialize (Hblock ("attempts_total exceeded: " ++ Itoa (at_Total a - at_AtAnswer a) ++ " red verifies across its starts") (FailError CodeAttemptsTotalExceeded)).
    rewrite E in Hblock. destruct Hblock as (-> & H1 & H2 & H3). split_and!; [done..|].
    rewrite (proj2 (Z.ltb_ge _ _) Ht), andb_false_r. done. }
  destruct (Z.ltb_spec (at_Since a) (AttemptsCap (h_limits H))) as [Hc|Hc].
  - destruct (bool_decide_reflect (st_Status st = StatusInProgress)) as [Hp|Hp].
    + unfold a in *. cbn in Ht, Hc |- *. split_and!; [done..|]. by rewrite (proj2 (Z.ltb_lt _ _) Ht), (proj2 (Z.ltb_lt _ _) Hc).
    + unfold saveAndCommit, cbind, check, modify, cret, fail, get. rewrite Hs, Hcm.
      unfold a in *. cbn in Ht, Hc. destruct (h_inGit H); cbn; (split_and!; [done..|]);
        by rewrite (proj2 (Z.ltb_lt _ _) Ht), (proj2 (Z.ltb_lt _ _) Hc).
  - destruct (redBlock _ _ _ _ _ _) as [w' r] eqn:E. specialize (Hblock ("attempts exceeded: " ++ Itoa (at_Since a) ++ " red verifies") (FailError CodeAttemptsExceeded)).
    rewrite E in Hblock. destruct Hblock as (-> & H1 & H2 & H3). split_and!; [done..|].
    rewrite (proj2 (Z.ltb_ge _ _) Hc). done.
Qed.

(** ** A green verify *)

Lemma judgeRegression_task r base out : cr_Task (snd (judgeRegression r base out)) = cr_Task r.
Proof. unfold judgeRegression, judge_red, mark_red. repeat case_match; done. Qed.

(** Judging the regression's result changes neither which checks have a result, nor
    any other result. *)
Lemma judged_tasks H st skipped results : cr_Task <$> snd (judged H st skipped results) = cr_Task <$> results.
Proof.
  unfold judged. destruct (_ || _); [done|]. destruct (last results) as [r|] eqn:E; [|done].
  apply last_Some in E as [l ->]. pose proof (judgeRegression_task r (st_Regression st) (h_output H RunVerify)) as Ht.
  destruct (judgeRegression _ _ _) as [v r']. cbn [snd] in *. by rewrite removelast_last, !fmap_app, !fmap_cons, Ht.
Qed.

(** The results before the last are as they were. *)
Lemma judged_keeps H st skipped out r0 r : r ∈ out -> r ∈ snd (judged H st skipped (out ++ [r0])).
Proof.
  intros Hr. unfold judged. destruct (_ || _); [set_solver|]. rewrite last_snoc. destruct (judgeRegression _ _ _) as [v r'].
  rewrite removelast_last. set_solver.
Qed.

(** A result of its check: red, or that of a run of the check's own command. *)
Definition result_of (H : Host) (s : stage) (pc : PlannedCheck) (r : CheckResult) : Prop :=
  cr_Task r = pc_Ref pc /\ (Red r = true \/ exists pc0, pc_Cmd pc0 = pc_Cmd pc /\ cr_Exit r = cr_Exit (h_run H s pc0)).

Lemma run_stage_from H s checks : Forall2 (result_of H s) checks (run_stage H s checks).
Proof.
  eapply Forall2_impl; [by apply run_checks_from|]. intros pc r [->|(pc0 & Hc & ->)]; (split; [done|]); [by left|right; eauto].
Qed.

Lemma result_found H s checks out pc : Forall2 (result_of H s) checks out -> pc ∈ checks -> exists r, r ∈ out /\ result_of H s pc r.
Proof.
  intros Hout [i Hi]%list_elem_of_lookup. destruct (Forall2_lookup_l _ _ _ _ _ Hout Hi) as (r & Hr & Hx).
  exists r. split; [by eapply list_elem_of_lookup_2|done].
Qed.

(** A planned check of a verify keeps its result through the regression's judging. *)
Lemma plan_results H w st checks skipped n pc : verify_plan H w st = (checks, skipped, n) ->
  pc ∈ ChangeChecks (h_capabilities H) (w_Specs w) (h_redAtGate H) (h_doc H) ->
  exists r, r ∈ snd (judged H st skipped (run_stage H RunVerify checks)) /\ result_of H RunVerify pc r.
Proof.
  unfold verify_plan, ChangeChecks. destruct (changeChecks _ _ _ _) as [cs k]. cbn [fst]. intros Ep Hpc.
  pose proof (run_stage_from H RunVerify checks) as Hrun. destruct (h_regressionCmd H =s "") eqn:E.
  - simplify_eq. unfold judged. rewrite E. cbn [orb snd]. eapply result_found; [exact Hrun|done].
  - destruct (h_docsOnly H) as [[] paths]; simplify_eq; [unfold judged; cbn [isSome]; rewrite orb_true_r; cbn [snd]; eapply result_found; [exact Hrun|done]|].
    apply Forall2_app_inv_l in Hrun as (out & out' & Hcs & Hreg & ->). apply Forall2_cons_inv_l in Hreg as (r0 & [|? ?] & _ & Hnil & ->); [|by inversion Hnil].
    destruct (result_found _ _ _ _ _ Hcs Hpc) as (r & Hr & Hx). exists r. split; [by apply judged_keeps|done].
Qed.

(** What a green verify of [st] promises of its result and of the state it leaves. *)
Definition covered (H : Host) (specs : gmap gostring gostring) (res : VerifyResult) (w' : World) : Prop :=
  (forall ref cmd, owed (h_capabilities H) specs (h_redAtGate H) (h_doc H) ref cmd ->
     exists r pc, r ∈ vr_Results res /\ cr_Task r = ref /\ Red r = false /\ pc_Cmd pc = cmd /\ cr_Exit r = cr_Exit (h_run H RunVerify pc)) /\
  (h_regressionCmd H <> [] -> fst (h_docsOnly H) = false -> exists r, r ∈ vr_Results res /\ cr_Task r = regressionRef /\ Red r = false) /\
  exists v, st_Verify (w_State w') = Some v /\ v_Green v = true /\ v_Results v = vr_Results res /\
    v_SHA v = h_headSHA H AtVerify /\ v_Stale v = false.

Lemma verify_covers H keepReview st w :
  wp (fun _ => True) (verify H keepReview st) (fun res w' => vr_Green res = true -> covered H (w_Specs w) res w') w.
Proof.
  unfold verify. wps. destruct (h_dirty H) as [e|dirty]; wps; try done.
  destruct (verify_plan H w st) as [[checks skipped] fullSkipped] eqn:Ep. unfold interrupted. wps; try done.
  pose proof (fun pc => plan_results H w st checks skipped fullSkipped pc Ep) as Hplan.
  pose proof (judged_tasks H st skipped (run_stage H RunVerify checks)) as Ht. rewrite run_stage_tasks in Ht.
  destruct (judged H st skipped _) as [regression results]. cbn [snd] in Ht, Hplan. apply wp_if; intros Hg.
  - apply negb_true_iff in Hg. unfold redAttempt, redBlock, blockAndCount, saveChangeState, noteBlocked, updateAttempts.
    wps; try done; try (apply wp_save; [done..|]; wps; try done); cbn; congruence.
  - apply negb_false_iff in Hg. wps. apply wp_save; [done..|]. wps. intros _.
    assert (forall r, r ∈ results -> Red r = false) as Hred.
    { intros r Hr. rewrite forallb_forall in Hg. by apply negb_true_iff, Hg, list_elem_of_In. }
    split_and!.
    + intros ref cmd (pc & Hpc & <- & <-)%owed_planned. destruct (Hplan pc Hpc) as (r & Hr & Et & [Hx|(pc0 & Ec & Ex)]).
      * by rewrite (Hred r Hr) in Hx.
      * exists r, pc0. split_and!; auto.
    + intros Hcmd Hdocs. assert (regressionRef ∈ pc_Ref <$> checks) as Hin.
      { unfold verify_plan in Ep. destruct (changeChecks _ _ _ _) as [cs n]. rewrite bool_decide_false in Ep by done.
        destruct (h_docsOnly H) as [[] paths]; [done|]. simplify_eq. rewrite fmap_app, elem_of_app. right. by apply list_elem_of_singleton. }
      rewrite <- Ht in Hin. apply list_elem_of_fmap in Hin as (r & E & Hr). exists r. split_and!; [done|done|by apply Hred].
    + eexists. split; [done|]. cbn. done.
Qed.


(** ** A start that fails *)

(** The re-plan a start of [st] would make is past limits.replans. *)
Definition past_replans (H : Host) (st : State) : Prop := (ReplansCap (h_limits H) < replansSinceAnswer st + 1)%Z.

Section undo.
Context (H : Host) (cur : gostring) (w0 : World).

(** Before the branch is made nothing changed but a block past the re-plans; after,
    the change's state and its attempts may have. *)
Definition undoable (w : World) : Prop :=
  w_Specs w = w_Specs w0 /\ w_BaseAccepted w = w_BaseAccepted w0 /\
  (w_HasBranch w = true \/
   w_HasBranch w = false /\ w_Head w = cur /\
   (w_State w = w_State w0 \/ st_Status (w_State w) = StatusBlocked /\ past_replans H (w_State w0))).

Lemma requireApproved_undo st (Q : unit -> World -> Prop) w : undoable w -> Q tt w -> wp undoable (requireApproved H st) Q w.
Proof. intros Hi HQ. unfold requireApproved, requireTweakApproved. wps; try done. destruct (st_Approved st); by wps. Qed.

Lemma blockAndCount_undo reason st Q w : undoable w -> past_replans H (w_State w0) -> (forall x w', undoable w' -> Q x w') ->
  wp undoable (blockAndCount H reason st) Q w.
Proof.
  intros Hu Hp HQ. unfold blockAndCount, saveChangeState, noteBlocked.
  assert (forall st', st_Status st' = StatusBlocked -> undoable (set_w_State st' w)) as Hb.
  { intros st' Hst'. destruct Hu as (H1 & H2 & H3). split_and!; [done..|]. cbn. destruct H3 as [?|(? & ? & _)]; [by left|right; auto]. }
  wps; try done; try (apply wp_save; [done|by apply Hb|]; wps); try (by apply Hb); apply HQ; by apply Hb.
Qed.

Lemma start_undo : undoable w0 -> wp undoable (start H (enter_branch H cur)) (fun _ _ => True) w0.
Proof.
  intros Hu. unfold start. wps. unfold requireChange at 1. wps.
  assert (forall Q, (undoable w0 -> Q (w_State w0) w0) -> wp undoable (match st_Status (w_State w0) with
    StatusArchived | StatusAbandoned => fail (FailError "change.archived") | _ => check (h_load H);; cret (w_State w0) end) Q w0) as Hreq.
  { intros Q HQ. destruct (st_Status (w_State w0)); wps; auto. }
  apply Hreq. intros _. wps. destruct (start_kind H w0 (w_State w0)) as [e|[replan rebase]]; [by wps|]. wps.
  apply requireApproved_undo; [done|]. wps.
  { apply blockAndCount_undo; [done| |intros x w' Hu'; by wps].
    match goal with Hc : replan && _ = true |- _ => apply andb_prop in Hc as [_ Hc%Z.ltb_lt]; exact Hc end. }
  unfold enter_branch. wps.
  set (w1 := set_w_HasBranch true _). assert (forall w', w_HasBranch w' = true -> w_Specs w' = w_Specs w0 ->
    w_BaseAccepted w' = w_BaseAccepted w0 -> undoable w') as Hafter.
  { intros w' Hh E1 E2. split_and!; [congruence..|by left]. }
  assert (undoable w1) as Hu1 by by apply Hafter.
  unfold rebaseline, interrupted, refuseVacuousChecks, updateAttempts. wps; try done; try (by apply Hafter).
  apply wp_save; try (by apply Hafter). by wps.
Qed.
End undo.

(** C10: what a start from a branch that is no change's leaves when it is refused,
    interrupted or fails, at whatever point. The specs and the base's acceptances are
    as they were. Where the git commands that undo it succeed, so are HEAD, the
    branches and the change's state - unless it was past limits.replans, which blocks
    the change before anything is made; and each of those commands does its own part
    where another fails: the reset the state, the switch HEAD, and the two together
    with the deletion the branch. *)
Theorem start_new_undone (H : Host) (cur : gostring) (w w' : World) (e : Err) :
  w_HasBranch w = false -> w_Head w = cur -> cur <> ChangeBranch (h_id H) -> start_new H cur w = (w', inl e) ->
  w_Specs w' = w_Specs w /\ w_BaseAccepted w' = w_BaseAccepted w /\
  (h_undoReset H = true -> w_State w' = w_State w \/ st_Status (w_State w') = StatusBlocked /\ past_replans H (w_State w)) /\
  (h_undoSwitch H = true -> w_Head w' = cur /\ (h_undoDelete H = true -> w_HasBranch w' = false)).
Proof.
  intros Hb Hh Hne Hs. assert (undoable H cur w w) as Hu by (split_and!; [done..|]; right; auto).
  pose proof (start_undo H cur w Hu) as Hw. unfold start_new in Hs. unfold wp in Hw.
  destruct (start H (enter_branch H cur) w) as [w1 [e1|r]]; [|done]. destruct Hw as (H1 & H2 & H3).
  destruct (w_HasBranch w1) eqn:E; simplify_eq.
  - unfold undo_start. destruct (h_undoReset H), (h_undoSwitch H), (h_undoDelete H);
      rewrite ?(bool_decide_false (w_Head (set_w_Head _ _) = _)) by done; cbn [andb negb]; repeat case_match;
      split_and!; cbn; auto; try done.
  - destruct H3 as [H3|(H3 & H4 & H5)]; [congruence|]. auto.
Qed.

(** A start whose undoing fails leaves the change's branch behind, though a refused
    start is said to write nothing: the switch back fails, and git then refuses to
    delete the branch HEAD is on. *)
Lemma start_left_behind (H : Host) (cur : gostring) (w w' : World) (e : Err) :
  h_undoSwitch H = false -> w_HasBranch w = false -> start_new H cur w = (w', inl e) ->
  w_HasBranch (fst (start H (enter_branch H cur) w)) = true -> w_Head (fst (start H (enter_branch H cur) w)) = ChangeBranch (h_id H) ->
  w_HasBranch w' = true /\ w_Head w' = ChangeBranch (h_id H).
Proof.
  intros Hu Hb Hs Hb1 Hh1. unfold start_new in Hs. destruct (start H (enter_branch H cur) w) as [w1 [e1|r]]; [|done]. cbn [fst] in *.
  rewrite Hb1 in Hs. simplify_eq. unfold undo_start. rewrite Hu. destruct (h_undoReset H); cbn; rewrite Hh1, bool_decide_true by done;
    rewrite andb_false_r; cbn; auto.
Qed.

(** ** The ends of a change's life *)

(** The world may change around an ended change; its state does not. *)
Definition over (w w' : World) : Prop := w_State w' = w_State w.

Lemma requireChange_over H w w' (Q : State -> World -> Prop) :
  st_Status (w_State w) = StatusAbandoned \/ st_Status (w_State w) = StatusArchived -> over w w' ->
  wp (over w) (requireChange H) Q w'.
Proof. unfold requireChange, over. intros Hend Hw. wps. rewrite Hw. by destruct Hend as [->| ->]; wps. Qed.

(** What an acceptance may change. *)
Definition same_but_accepted (st st' : State) : Prop :=
  exists accepted verify, st' = set_Verify verify (set_Accepted accepted st).

Lemma same_but_accepted_refl st : same_but_accepted st st.
Proof. exists (st_Accepted st), (st_Verify st). by destruct st. Qed.

Ltac over := unfold over in *; wps; try done; try (apply requireChange_over; [assumption|done]).

Lemma start_over H enter w w' (Q : StartResult -> World -> Prop) :
  st_Status (w_State w) = StatusAbandoned \/ st_Status (w_State w) = StatusArchived -> over w w' -> wp (over w) (start H enter) Q w'.
Proof. intros Hend Hw. unfold start. over. Qed.

Lemma Start_over H w : st_Status (w_State w) = StatusAbandoned \/ st_Status (w_State w) = StatusArchived ->
  wp (over w) (Start H) (fun _ => over w) w.
Proof.
  intros Hend. unfold Start. wps; [done|].
  assert (requireChange H w = (w, inl (FailError "change.archived"))) as E.
  { unfold requireChange, cbind, get. by destruct Hend as [->| ->]. }
  unfold wp at 1. rewrite E. wps; try done; try (unfold reenter; over).
  - by apply start_over.
  - unfold start_new. pose proof (start_over H (enter_branch H (w_Head w)) w w (fun _ => over w) Hend eq_refl) as Hs. unfold wp in *.
    destruct (start _ _ w) as [w1 [e|r]]; [|exact Hs]. destruct (w_HasBranch w1); [|exact Hs].
    unfold undo_start, over in *. destruct (h_undoReset H), (h_undoSwitch H), (h_undoDelete H && _); done.
Qed.

Lemma head_back_over H b w w' (Q : list gostring -> World -> Prop) : over w w' ->
  (forall l w1, over w w1 -> Q l w1) -> wp (over w) (head_back H b) Q w'.
Proof. intros Hw HQ. unfold head_back. over; by apply HQ. Qed.

(** The commands that refuse an ended change first. *)
Lemma exec_over H c w : st_Status (w_State w) = StatusAbandoned \/ st_Status (w_State w) = StatusArchived ->
  match c with CAccept _ _ | CDelegate _ _ _ => True | _ => over w (exec H c w) end.
Proof.
  intros Hend. destruct c; cbn [exec]; try done; apply wp_fst; [by apply Start_over|..];
    unfold VerifyChange, ReviewChange, ReverifyStaleReview, SettleReviewRun, Block, AnswerChange, ApproveTweak, Archive, Abandon; over.
  apply head_back_over; [done|]. intros l w1 Hw1. over.
Qed.

(** An acceptance of an ended change: refused of an abandoned one, and of an archived
    one recorded. *)
Lemma accept_ended H task by_ run w w' : over w w' ->
  (st_Status (w_State w) = StatusAbandoned -> wp (over w) (accept H task by_ run) (fun _ => over w) w') /\
  (st_Status (w_State w) = StatusArchived ->
     wp (fun w1 => same_but_accepted (w_State w) (w_State w1)) (accept H task by_ run) (fun _ w1 => same_but_accepted (w_State w) (w_State w1)) w').
Proof.
  unfold over. intros Hw. pose proof (same_but_accepted_refl (w_State w)) as Hr.
  split; intros Hend; unfold accept, humanTask; wps; rewrite ?Hw; try done; rewrite Hend; wps; rewrite ?Hw; try done.
  - by destruct (h_evidence H); wps; rewrite ?Hw.
  - destruct (h_evidence H); wps; rewrite ?Hw; try done. destruct (find_task _ _); wps; rewrite ?Hw; try done. eexists _, _. reflexivity.
Qed.

Lemma SettleDelegateRun_ended H run files verdict w :
  (st_Status (w_State w) = StatusAbandoned -> wp (over w) (SettleDelegateRun H run files verdict) (fun _ => over w) w) /\
  (st_Status (w_State w) = StatusArchived -> wp (fun w1 => same_but_accepted (w_State w) (w_State w1))
     (SettleDelegateRun H run files verdict) (fun _ w1 => same_but_accepted (w_State w) (w_State w1)) w).
Proof.
  pose proof (same_but_accepted_refl (w_State w)) as Hr.
  assert (forall (I : World -> Prop), (forall w', over w w' -> I w') -> st_Status (w_State w) = StatusAbandoned \/ st_Status (w_State w) = StatusArchived ->
    (forall w', over w w' -> wp I (accept H (d_Task run) (DelegateByPrefix ++ d_Skill run) (d_ID run)) (fun _ => I) w') ->
    wp I (SettleDelegateRun H run files verdict) (fun _ => I) w) as Hrun.
  { intros I HI Hend Hacc. unfold SettleDelegateRun. wp1.
    assert (forall Q : list gostring -> World -> Prop, (forall l w', over w w' -> Q l w') ->
      wp I (if d_Branch run <>s "" then head_back H (d_Branch run) else cret []) Q w) as Hback.
    { intros Q HQ. unfold head_back. wps; try (by apply HI); by apply HQ. }
    apply Hback. intros moved w' Hw'. pose proof (HI w' Hw') as HIw. wps; try done.
    assert (forall v, wp I (if dv_Verdict v <>s "pass" then settleDelegateFail H run v else AcceptDelegated H run;; cret DelegateAccepted) (fun _ => I) w') as Hv.
    { intros v. unfold settleDelegateFail, AcceptDelegated. wps; try done.
      - exfalso. unfold over in Hw'. rewrite Hw' in *. destruct Hend as [Hend|Hend]; rewrite Hend in *; done.
      - eapply wp_mono; [by apply Hacc|]. intros x w1 HI1. by wps. }
    destruct verdict as [v|]; [apply wp_ret, Hv|]. wp1. apply wp_check; [done|]. apply wp_ret, Hv. }
  split; intros Hend; apply Hrun; auto; intros w' Hw'; try (unfold over in Hw'; by rewrite Hw'); by apply accept_ended.
Qed.

