(* ===== verification/Replans.v ===== *)
(** The limit on re-plans: a change records at most limits.replans of them between two
    answers, over its whole life. *)
From S2P Require Import Prelude Regex Markdown Spec Change Merge Effective Regression Roadmap State Command Lifecycle LifecycleFacts LifecycleSpecs.

(** ** The limit on re-plans *)

(** What replansSinceAnswer reads. *)
Definition same_plans (st st' : State) : Prop := st_Replans st' = st_Replans st /\ st_Answer st' = st_Answer st.

Lemma same_plans_trans st st' st'' : same_plans st st' -> same_plans st' st'' -> same_plans st st''.
Proof. unfold same_plans. intuition congruence. Qed.

Section replans.
Context (H : Host) (w0 : World).
Abbreviation keeps := (fun w => same_plans (w_State w0) (w_State w)).

Lemma requireChange_keeps (Q : State -> World -> Prop) w : keeps w -> Q (w_State w) w -> wp keeps (requireChange H) Q w.
Proof. intros Hk HQ. unfold requireChange. wps. destruct (st_Status _); wps; done. Qed.

Lemma caught_up_plans cu head inArchive st : same_plans st (caught_up H cu head inArchive st).
Proof. unfold caught_up. by destruct (cu_Regression cu), (cu_Conflicts cu). Qed.

Lemma saveAndCommit_keeps s st (Q : unit -> World -> Prop) w :
  keeps w -> same_plans (w_State w0) st -> Q tt (set_w_State st w) -> wp keeps (saveAndCommit H s st) Q w.
Proof. intros Hk Hst HQ. by apply wp_save. Qed.

Lemma catchUp_keeps isStart inArchive st w (Q : State * option CatchUp -> World -> Prop) :
  keeps w -> same_plans (w_State w0) st ->
  (forall st' cu w', keeps w' -> same_plans (w_State w0) st' -> Q (st', cu) w') -> wp keeps (catchUp H isStart inArchive st) Q w.
Proof.
  intros Hk Hst HQ. assert (forall b st', catching H inArchive st b st' -> same_plans (w_State w0) st') as Hc.
  { intros b st' Hc. eapply same_plans_trans; [exact Hst|]. by destruct Hc; apply caught_up_plans. }
  apply wp_catchUp; [done|done| |done|by apply HQ|].
  - intros b st' w' Hb _. exact (Hc b st' Hb).
  - intros st' cu w' Hb Hk' _ _. by apply HQ; [|apply (Hc true)].
Qed.

Lemma blockAndCount_keeps reason st (Q : State -> World -> Prop) w : keeps w -> same_plans (w_State w0) st ->
  (forall st' w', keeps w' -> Q st' w') -> wp keeps (blockAndCount H reason st) Q w.
Proof.
  intros Hk Hst HQ. unfold blockAndCount, saveChangeState, noteBlocked. wps; try done;
    try (apply saveAndCommit_keeps; [done..|]; wps); try done; by apply HQ.
Qed.

Lemma verify_keeps keepReview st w (Q : VerifyResult -> World -> Prop) : keeps w -> same_plans (w_State w0) st ->
  (forall r w', keeps w' -> Q r w') -> wp keeps (verify H keepReview st) Q w.
Proof.
  intros Hk Hst HQ. unfold verify. wps. destruct (h_dirty H) as [e|dirty]; wps; [done|].
  destruct (verify_plan H w st) as [[checks skipped] fullSkipped]. unfold interrupted. wps.
  destruct (judged H st skipped _) as [regression results]. apply wp_if; intros _.
  - unfold redAttempt, updateAttempts, redBlock. wps; try (by apply HQ).
    + apply blockAndCount_keeps; [done| |intros; by wps]. destruct (bool_decide (st_Status st = StatusInProgress)); exact Hst.
    + apply saveAndCommit_keeps; [done..|]. wps. by apply HQ.
    + apply blockAndCount_keeps; [done| |intros; by wps]. destruct (bool_decide (st_Status st = StatusInProgress)); exact Hst.
  - wps. apply saveAndCommit_keeps; [done..|]. wps. by apply HQ.
Qed.

Lemma VerifyChange_keeps w (Q : VerifyResult -> World -> Prop) : keeps w -> (forall r w', keeps w' -> Q r w') -> wp keeps (VerifyChange H) Q w.
Proof.
  intros Hk HQ. unfold VerifyChange, checkPlanFrozen, requireOnBranch. wps. apply requireChange_keeps; [done|]. wps.
  apply catchUp_keeps; [done..|]. intros. by apply verify_keeps.
Qed.

Lemma Archive_keeps allow by_ w : keeps w -> wp keeps (Archive H allow by_) (fun _ => keeps) w.
Proof.
  intros Hk. unfold Archive, archivable, enterChangeBranch, checkPlanFrozen. wps. apply requireChange_keeps; [done|]. wps; try done.
  all: try (apply requireChange_keeps; [done|]; wps).
  all: (apply catchUp_keeps; [done..|]; intros st' cu w' Hk' Hst'; unfold archiveFresh; wps).
  all: try (apply verify_keeps; [done..|]; intros; wps; try done).
  all: unfold planArchive, squashOntoBase; wps; destruct (MergeDelta _ _ _ _ _ _) as [updates conflicts]; wps; try done.
  all: destruct (h_squash H); wps; try done.
  all: unfold archived_state, withBaseAccepted, refreshPending; repeat case_match; done.
Qed.

Lemma accept_keeps task by_ run w : keeps w -> wp keeps (accept H task by_ run) (fun _ => keeps) w.
Proof.
  intros Hk. unfold accept, humanTask, saveChangeState, requireOnBranch. wps; try done.
  destruct (st_Status (w_State w)); wps; try done; repeat (case_match; wps; try done);
    try (apply saveAndCommit_keeps; [done..|]; wps); done.
Qed.

Lemma settleDelegateFail_keeps run v w : keeps w -> wp keeps (settleDelegateFail H run v) (fun _ => keeps) w.
Proof.
  intros Hk. unfold settleDelegateFail, own_defects, saveChangeState. wps; try done. apply requireChange_keeps; [done|].
  wps. destruct (dv_Defects v); wps; try done; try (apply saveAndCommit_keeps; [done..|]; wps); try done.
  destruct (h_touched H); wps; try done. apply saveAndCommit_keeps; [done..|]. by wps.
Qed.

Lemma SettleDelegateRun_keeps run files verdict w : keeps w -> wp keeps (SettleDelegateRun H run files verdict) (fun _ => keeps) w.
Proof.
  intros Hk. unfold SettleDelegateRun, head_back. wps; try done.
  all: destruct verdict; wps; try done; try (by apply settleDelegateFail_keeps).
  all: eapply wp_mono; [by apply accept_keeps|]; intros x w1 Hk1; by wps.
Qed.

(** Every command but a start and an answer. *)
Lemma exec_keeps c : match c with CStart | CAnswer _ _ => True | _ => same_plans (w_State w0) (w_State (exec H c w0)) end.
Proof.
  destruct c; cbn [exec]; try done; apply (wp_fst (fun w => same_plans (w_State w0) (w_State w))).
  - by apply VerifyChange_keeps.
  - unfold ReviewChange, requireOnBranch. wps; try done. apply requireChange_keeps; [done|]. wps; try done.
    all: try (destruct (st_Verify (w_State w0)); wps; try done); by apply saveAndCommit_keeps.
  - unfold ReverifyStaleReview. wps. apply requireChange_keeps; [done|]. wps; [done|]. apply VerifyChange_keeps; [done|].
    intros. by wps.
  - unfold SettleReviewRun, head_back. wps; try done; (apply requireChange_keeps; [done|]); wps; try done;
      by apply saveAndCommit_keeps.
  - by apply SettleDelegateRun_keeps.
  - unfold Block. wps; try done. apply requireChange_keeps; [done|]. wps; try done.
    + unfold saveChangeState. wps; try done. by apply saveAndCommit_keeps.
    + by apply blockAndCount_keeps.
  - unfold Accept. wps; [done|]. by apply accept_keeps.
  - unfold ApproveTweak, saveChangeState. wps; try done. apply requireChange_keeps; [done|]. wps; try done.
    by apply saveAndCommit_keeps.
  - by apply Archive_keeps.
  - unfold Abandon, leaveChangeBranch, abandonElsewhere. wps; try done. apply requireChange_keeps; [done|]. 
    assert (forall t, same_plans (w_State w0) (abandoned_state H reason t (w_State w0))) as Ha.
    { intros t. unfold abandoned_state. by destruct (t <>s ""). }
    wps; try done; apply Ha.
Qed.
End replans.

Section start_replans.
Context (H : Host).
Abbreviation within := (fun w => (replansSinceAnswer (w_State w) <= Z.max 0 (ReplansCap (h_limits H)))%Z).

Lemma same_plans_count st st' : same_plans st st' -> replansSinceAnswer st' = replansSinceAnswer st.
Proof. intros [E1 E2]. unfold replansSinceAnswer. by rewrite E1, E2. Qed.

Lemma begun_count replan rebase st :
  (replansSinceAnswer (begun H replan rebase st) <= replansSinceAnswer st + (if replan then 1 else 0))%Z.
Proof.
  set (rp := MkReplan (h_now H) (h_headSHA H AtStart) (st_PlanDigest st) (PlanDigest (h_sha256 H) (h_doc H))).
  assert (st_Answer (begun H replan rebase st) = st_Answer st /\
    st_Replans (begun H replan rebase st) = if replan then st_Replans st ++ [rp] else st_Replans st) as [Ea Er].
  { unfold begun. destruct ((st_BaseSHA st =s "") || _), replan, rebase; split; reflexivity. }
  unfold replansSinceAnswer. rewrite Ea, Er. destruct replan; [|lia]. rewrite length_app. cbn [length].
  destruct (st_Answer st) as [a|]; [|lia]. destruct (Z.ltb_spec (Z.of_nat (length (st_Replans st) + 1)) (Z.of_nat (an_ReplansBefore a))),
    (Z.ltb_spec (Z.of_nat (length (st_Replans st))) (Z.of_nat (an_ReplansBefore a))); lia.
Qed.

Lemma rebaselined_plans st : same_plans st (rebaselineMilestoneRegression H (rebaselineRegression H st)).
Proof. unfold rebaselineMilestoneRegression, rebaselineRegression. repeat case_match; done. Qed.

(** A start stays within the cap: it is refused, and the change blocked, before the
    re-plan that would exceed it. *)
Lemma start_within enter w : within w ->
  (forall st w' (Q : State -> World -> Prop), within w' ->
     (forall st' w1, same_plans st st' -> within w1 -> Q st' w1) -> wp within (enter st) Q w') ->
  wp within (start H enter) (fun _ => within) w.
Proof.
  intros Hw He. unfold start. wps. unfold requireChange at 1. wps.
  assert (forall Q : State -> World -> Prop, Q (w_State w) w -> wp within (match st_Status (w_State w) with
    StatusArchived | StatusAbandoned => fail (FailError "change.archived") | _ => check (h_load H);; cret (w_State w) end) Q w) as Hreq.
  { intros Q HQ. destruct (st_Status (w_State w)); wps; auto. }
  apply Hreq. wps. destruct (start_kind H w (w_State w)) as [e|[replan rebase]]; [by wps|].
  unfold requireApproved, requireTweakApproved. wps; try (destruct (st_Approved (w_State w)); wps); try done.
  all: try (unfold blockAndCount, saveChangeState, noteBlocked; wps; try done; apply wp_save; wps; done).
  all: apply He; [done|]; intros st w1 Hst Hw1; pose proof (begun_count replan rebase st) as Hb;
    rewrite (same_plans_count _ _ Hst) in Hb; set (st1 := begun H replan rebase st) in *; clearbody st1;
    unfold rebaseline, interrupted, refuseVacuousChecks, updateAttempts; cbv zeta;
    set (st2 := set_Baseline _ st1); set (st3 := started H _ _);
    assert (within (set_w_State st3 w1)) as Hst3 by
      (cbn [w_State set_w_State]; assert (same_plans st1 st3) as Hs3 by exact (rebaselined_plans st2);
       rewrite (same_plans_count _ _ Hs3); destruct replan; cbn [andb] in *; [|lia];
       match goal with Hc : (ReplansCap _ <? _)%Z = false |- _ => apply Z.ltb_ge in Hc; lia end);
    wps; try done; apply wp_save; try done; by wps.
Qed.

Lemma reenter_within switched w : within w -> wp within (reenter H switched) (fun _ => within) w.
Proof.
  intros Hw. unfold reenter.
  assert (wp (fun w' => same_plans (w_State w) (w_State w')) (requireChange H) (fun st w' => st = w_State w /\ w' = w) w) as Hr
    by by apply requireChange_keeps.
  unfold wp, cbind in *. destruct (requireChange H w) as [w1 [e|st]]; [by rewrite (same_plans_count _ _ Hr)|]. destruct Hr as [-> ->].
  pose proof (catchUp_keeps H w true false (w_State w) w (fun _ w' => same_plans (w_State w) (w_State w'))) as Hc.
  unfold wp in Hc. destruct (catchUp H true false (w_State w) w) as [w2 [e|[st2 cu]]].
  { rewrite (same_plans_count (w_State w)); [done|]. by apply Hc. }
  assert (within w2) as Hw2 by (rewrite (same_plans_count (w_State w)); [done|]; by apply Hc).
  assert (wp within (start H no_enter) (fun _ => within) w2) as Hs.
  { apply start_within; [done|]. intros st w' Q Hw' HQ. unfold no_enter. wps. by apply HQ. }
  unfold wp in Hs. destruct (start H no_enter w2) as [w3 [[]|r]]; try done. by destruct (_ && _).
Qed.

Lemma Start_within w : within w -> within (fst (Start H w)).
Proof.
  intros Hw. apply (wp_fst within). unfold Start. wps.
  assert (forall Q' : unit -> World -> Prop, Q' tt w -> wp within (fun w => match requireChange H w with
            | (_, inr _) => if IsTweak (h_doc H) then (w, inr tt) else blocksExceeded H (m_Milestone (c_Meta (h_doc H))) w
            | (_, inl _) => (w, inr tt) end) Q' w) as Hb.
  { intros Q' HQ'. unfold wp, blocksExceeded, cbind, get, refuse, fail, cret. repeat case_match; simplify_eq; done. }
  apply Hb. wps; try done; try (by apply reenter_within).
  - apply start_within; [done|]. intros st w' Q Hw' HQ. unfold no_enter. wps. by apply HQ.
  - assert (wp within (start H (enter_branch H (w_Head w))) (fun _ => within) w) as Hs.
    { apply start_within; [done|]. intros st w' Q Hw' HQ. unfold enter_branch. wps; try done. by apply HQ. }
    unfold start_new, wp in *. destruct (start H _ w) as [w1 [e|r]]; [|done]. destruct (w_HasBranch w1); [|done].
    unfold undo_start. destruct (h_undoReset H), (h_undoSwitch H), (h_undoDelete H && _); done.
Qed.
End start_replans.

(** C8: the re-plan limit holds over a change's whole life. In every reachable
    state, failed writes and refused commands included, the re-plans recorded since
    a person's last answer (or since ever) number at most limits.replans. *)
Theorem replans_bounded (L : Limits) (id at_ head : gostring) (specs : gmap gostring gostring) (blocks : Z) (w : World) :
  limits_ok L = true -> reachable L (initial id at_ head specs blocks) w ->
  (replansSinceAnswer (w_State w) <= ReplansCap L)%Z.
Proof.
  intros HL. assert (0 <= ReplansCap L)%Z as H0.
  { unfold limits_ok, ReplansCap, intOr in *. apply andb_prop in HL as [_ HL]. destruct (l_Replans L); [by apply Z.leb_le in HL|done]. }
  induction 1 as [|w w' _ IH Hstep]; [done|]. destruct Hstep as [H c w HeqL| | |]; [|done..]. subst L.
  pose proof (exec_keeps H w c) as Hk. destruct c; try (rewrite (same_plans_count _ _ Hk); exact IH).
  - cbn [exec]. pose proof (Start_within H w) as Hs. rewrite !Z.max_r in Hs by done. by apply Hs.
  - cbn [exec]. apply (wp_fst (fun w => replansSinceAnswer (w_State w) <= ReplansCap (h_limits H))%Z).
    assert (forall st by_ at_ text, (replansSinceAnswer (set_Answer (Some (MkAnswer by_ at_ text (length (st_Replans st)))) (set_Status StatusAnswered st)) <= ReplansCap (h_limits H))%Z) as Ha.
    { intros st b0 a0 t0. unfold replansSinceAnswer. cbn. destruct (Z.ltb_spec (Z.of_nat (length (st_Replans st))) (Z.of_nat (length (st_Replans st)))); lia. }
    unfold AnswerChange, updateAttempts. wps; try done. unfold requireChange. wps.
    destruct (st_Status (w_State w)); wps; try done; apply Ha.
Qed.
