(* ===== verification/LifecycleSamples.v ===== *)
(** A change's life run on concrete inputs: the sample change started, verified,
    reviewed and archived, and the inputs of the lifecycle theorems. *)
From S2P Require Import Prelude Regex Markdown Spec Change Merge Samples Effective Regression Roadmap State Command Lifecycle LifecycleFacts LifecycleSpecs Replans.

Definition plain (s : gostring) : gostring := s.

Definition sample_milestone : Milestone gostring :=
  MkMilestone "M1" "Greet" 3 MilestoneApproved "approved by Ana" 4 [] None [] None [] None [] [] [] [].

(** A host with the sample change, in a git work tree when [git], whose runs exit with [exit], whose
    saves answer [save] and whose limits are [lim]. With [unmerged] paths, its base
    branch moved, and a rebase conflicts in them. *)
Definition host_of (git : bool) (unmerged : list gostring) (lim : Limits) (exit : stage -> Z) (save : site -> option Err) : Host := {|
  h_id := "greet-twice"; h_doc := ParseChange sample_yaml "change.md" sample_change; h_inGit := git; h_readFrom := [];
  h_limits := lim; h_now := "2025-01-01T00:00:00Z"; h_headSHA := fun _ => bs "abc1234";
  h_sha256 := plain; h_ToLower := plain; h_Quote := plain; h_RawQuote := plain; h_spec_path := plain; h_specCap := 500;
  h_capabilities := [bs "greeting"]; h_redAtGate := []; h_roadmap := Some (MkRoadmap "Roadmap" [sample_milestone] [] []);
  h_others := []; h_regressionCmd := []; h_milestoneRegressionCmd := []; h_baselines := [];
  h_recover := None; h_load := None; h_person := None; h_cleanTree := None; h_behindUpstream := None; h_baseExists := true;
  h_switch := None; h_createBranch := None; h_checkFindings := []; h_approvalRecord := None; h_approvalChecks := [];
  h_codeMoved := fun _ _ => false; h_diffFails := fun _ => false; h_unresolved := []; h_dirty := inr []; h_gateTouch := None;
  h_fits := None; h_branchFree := None; h_journal := None; h_docsOnly := (false, []); h_findingsFile := true;
  h_branchForWrite := None; h_evidence := inr []; h_typeFindings := []; h_reservedFindings := []; h_destExists := false;
  h_baseTip := Some (match unmerged with [] => bs "abc1234" | _ => bs "fff0000" end);
  h_isAncestor := fun _ _ => bool_decide (unmerged = []); h_recordsOnly := false; h_commitFolder := None;
  h_rebase := inr unmerged; h_reload := None; h_detach := None; h_reattach := None; h_rebasedSpecs := sample_specs; h_baseSpecs := sample_specs;
  h_baseCapabilities := [bs "greeting"]; h_layOut := None; h_unmerged := inr unmerged; h_reapplied := None;
  h_stageState := None; h_oldTipRef := []; h_squash := None; h_keepTip := None; h_deleteBranch := None;
  h_branchTip := "abc1234"; h_takeFolder := None; h_dest := "archive/greet-twice"; h_save := save; h_commit := fun _ => None;
  h_squashSwitch := None; h_squashBack := true; h_baseBranch := None; h_destOnBase := false; h_readFolder := None;
  h_undoReset := true; h_undoSwitch := true; h_undoDelete := true; h_settleGit := None; h_touched := inr []; h_verdictFile := None;
  h_secretUndone := fun _ => false;
  h_edit := fun _ => None; h_writeAttempts := None; h_noteBlocked := None;
  h_run := fun s pc => MkResult (pc_Ref pc) (Some (pc_Kind pc)) (pc_Capability pc) (pc_Requirement pc) (pc_Scenario pc)
                         (pc_Delta pc) (pc_Cmd pc) (exit s) [] [] [] false 1 false [] None [] [] [];
  h_stopAt := fun _ _ => false; h_interrupted := fun _ => false; h_output := fun _ => [] |}.

Definition sample_host : Limits -> (stage -> Z) -> (site -> option Err) -> Host := host_of true [].
Definition default_limits : Limits := MkLimits None None None None.
Definition saves : site -> option Err := fun _ => None.
Definition red_then_green (s : stage) : Z := match s with RunVerify => 0 | _ => 1 end.
Definition sample : Host := sample_host default_limits red_then_green saves.

Definition world0 : World := initial "greet-twice" "2025-01-01T00:00:00Z" "main" sample_specs 0.
Definition started_world : World := exec sample CStart world0.
Definition verified_world : World := exec sample CVerify started_world.
Definition reviewed_world : World := exec sample (CReview "pass" "findings.md") verified_world.
Definition archived_world : World := exec sample (CArchive false []) reviewed_world.

(** The life of the sample change. *)
Lemma sample_life :
  st_Status (w_State started_world) = StatusInProgress /\ st_Status (w_State verified_world) = StatusVerified /\
  st_Status (w_State reviewed_world) = StatusReviewed /\ st_Status (w_State archived_world) = StatusArchived /\
  w_Head archived_world = "main" /\ w_HasBranch archived_world = false.
Proof. by vm_compute. Qed.

Lemma sample_reachable : reachable default_limits world0 archived_world.
Proof. repeat (eapply reach_step; [|by apply step_command]). apply reach_refl. Qed.

Lemma lifecycle_invariant_witness : st_Status (w_State archived_world) = StatusArchived /\ state_inv (w_State archived_world).
Proof.
  split; [vm_compute; reflexivity|].
  exact (lifecycle_invariant default_limits _ _ _ _ _ archived_world sample_reachable).
Defined.

Lemma Archive_spec_witness : archived_well sample false reviewed_world archived_world.
Proof.
  assert (exists st, Archive sample false [] reviewed_world = (archived_world, inr st)) as [st Hst].
  { eexists. vm_compute. reflexivity. }
  refine (Archive_spec sample false [] reviewed_world archived_world st _ Hst).
  split; [|intros v Hv Hg]; vm_compute in *.
  - split; [eexists; split; reflexivity|]. eexists. split; reflexivity.
  - injection Hv as <-. repeat constructor.
Defined.


Lemma sample_owes : exists t, t ∈ c_Tasks (h_doc sample) /\ owed (h_capabilities sample) sample_specs [] (h_doc sample) (t_ID t) (t_Check t).
Proof.
  assert (exists t l, c_Tasks (h_doc sample) = t :: l /\ t_Check t <> [] /\ t_Check t <> HumanReview) as (t & l & Ht & He & Hh)
    by (eexists _, _; split; [vm_compute; reflexivity|split; vm_compute; discriminate]).
  exists t. assert (t ∈ c_Tasks (h_doc sample)) by (rewrite Ht; apply elem_of_cons; by left). split; [done|]. by apply owed_task.
Qed.

(** A change with a baseline of its first check only. *)
Definition sample_planned : list PlannedCheck := planned sample world0.
Definition half_baselined : State := set_Baseline (take 1 (st_Baseline (w_State started_world))) (w_State started_world).

Lemma rebaseline_keeps_witness :
  let '(st', out) := rebaseline (run_stage sample RunStart) sample_planned "def5678" half_baselined in
  (b_Task <$> st_Baseline st') ≡ₚ (pc_Ref <$> sample_planned) /\ (length out = 3 /\ length sample_planned = 4) /\
  forall pc b, pc ∈ sample_planned -> kept_baseline (st_Baseline half_baselined) pc = Some b ->
    base_of (st_Baseline st') (pc_Ref pc) = Some b.
Proof.
  assert (NoDup (pc_Ref <$> sample_planned)) as Hnd by (apply (bool_decide_unpack _); vm_compute; exact I).
  pose proof (rebaseline_keeps sample sample_planned "def5678" half_baselined Hnd) as Hk.
  assert (length (snd (rebaseline (run_stage sample RunStart) sample_planned "def5678" half_baselined)) = 3 /\ length sample_planned = 4) as Hl.
  { vm_compute. split; reflexivity. }
  destruct (rebaseline _ _ _ _) as [st' out]. destruct Hk as (H1 & _ & H3 & _). exact (conj H3 (conj Hl H1)).
Defined.

(** Three red verifies allowed, and the third made. *)
Definition strict_limits : Limits := MkLimits (Some 3%Z) None None None.
Definition strict : Host := sample_host strict_limits (fun _ => 1%Z) saves.
Definition twice_red : World := exec strict CVerify (exec strict CVerify started_world).
Definition red_result : VerifyResult := MkVerifyResult StatusInProgress "abc1234" false [] [] [] None 0.

Lemma redAttempt_bounded_witness :
  at_Since (w_Attempts twice_red) = 2%Z /\ st_Status (w_State twice_red) = StatusInProgress /\
  let w' := fst (redAttempt strict (w_State twice_red) red_result twice_red) in
  at_Since (w_Attempts w') = (at_Since (w_Attempts twice_red) + 1)%Z /\ st_Status (w_State w') = StatusBlocked.
Proof.
  split; [vm_compute; reflexivity|]. split; [vm_compute; reflexivity|].
  pose proof (redAttempt_bounded strict (w_State twice_red) red_result twice_red eq_refl (fun _ => eq_refl) (fun _ => eq_refl) (fun _ => eq_refl)) as Hr.
  assert ((at_Since (w_Attempts (fst (redAttempt strict (w_State twice_red) red_result twice_red))) <? AttemptsCap (h_limits strict))%Z = false) as Hc
    by (vm_compute; reflexivity).
  destruct (redAttempt strict (w_State twice_red) red_result twice_red) as [w' r]. cbn [fst] in *. cbv zeta in Hr.
  destruct Hr as (H1 & _ & _ & H4). rewrite Hc in H4. exact (conj H1 (proj1 H4)).
Defined.

(** A start whose state cannot be saved. *)
Definition unsaved : Host := sample_host default_limits red_then_green (fun s => match s with AtStart => Some OtherError | _ => None end).

Lemma start_new_undone_witness :
  let w' := fst (start_new unsaved "main" world0) in
  w_Head w' = "main" /\ w_HasBranch w' = false /\ w_State w' = w_State world0 /\
  w_Head (fst (start unsaved (enter_branch unsaved "main") world0)) = "change/greet-twice".
Proof.
  assert (exists w', start_new unsaved "main" world0 = (w', inl OtherError) /\ st_Status (w_State w') = StatusDraft) as (w' & Hw' & Hd)
    by (eexists; split; vm_compute; reflexivity).
  assert (bs "main" <> ChangeBranch (h_id unsaved)) as Hne by (vm_compute; discriminate).
  pose proof (start_new_undone unsaved "main" world0 w' OtherError eq_refl eq_refl Hne Hw') as (_ & _ & Hst & Hhd).
  destruct (Hhd eq_refl) as [H1 H2]. specialize (H2 eq_refl). cbv zeta. rewrite Hw'. cbn [fst].
  split; [exact H1|]. split; [exact H2|]. split; [|vm_compute; reflexivity].
  destruct (Hst eq_refl) as [H3|[H3 _]]; [exact H3|]. rewrite Hd in H3. discriminate H3.
Defined.


(** Limits that allow no re-plan: the sample is reachable under them too. *)
Definition no_replans : Limits := MkLimits None None (Some 0%Z) None.

Lemma replans_bounded_witness :
  (replansSinceAnswer (w_State (exec (sample_host no_replans red_then_green saves) CStart world0)) <= 0)%Z.
Proof.
  apply (replans_bounded no_replans "greet-twice" "2025-01-01T00:00:00Z" "main" sample_specs 0); [reflexivity|].
  eapply reach_step; [apply reach_refl|]. apply step_command. reflexivity.
Defined.

(** ** Where the code departs from what it says *)

(** An answer outside a git work tree leaves the count limits.attempts_total judges
    as it was, though the answer is said to restart it. *)
Lemma answer_outside_git_keeps_count (H : Host) (text by_ : gostring) (w w' : World) (st : State) :
  h_inGit H = false -> AnswerChange H text by_ w = (w', inr st) -> w_Attempts w' = w_Attempts w.
Proof.
  intros Hg Ha. assert (wp (fun _ => True) (AnswerChange H text by_) (fun _ w' => w_Attempts w' = w_Attempts w) w) as Hw.
  { unfold AnswerChange, requireChange. rewrite Hg. wps; try done. destruct (st_Status (w_State w)); wps; done. }
  unfold wp in Hw. by rewrite Ha in Hw.
Qed.

Definition no_git : Host := host_of false [] strict_limits (fun _ => 1%Z) saves.

Lemma answer_outside_git_keeps_count_witness :
  let w := exec no_git (CBlock "stuck") world0 in
  st_Status (w_State (exec no_git (CAnswer "go on" "Ana") w)) = StatusAnswered /\
  w_Attempts (exec no_git (CAnswer "go on" "Ana") w) = w_Attempts w.
Proof.
  intros w. split; [vm_compute; reflexivity|].
  assert (exists w' st, AnswerChange no_git "go on" "Ana" w = (w', inr st)) as (w' & st & Hst) by (eexists _, _; vm_compute; reflexivity).
  unfold exec at 1. rewrite Hst. exact (answer_outside_git_keeps_count no_git "go on" "Ana" w w' st eq_refl Hst).
Defined.

Definition thrice_red : World := exec strict CVerify twice_red.
Definition conflicted : Host := host_of true [bs "greet.go"] strict_limits (fun _ => 1%Z) saves.

(** A change blocked at limits.attempts, whose start meets a conflict with the moved
    base, is put in progress with its attempts as they were: the next red verify
    blocks it again, though a start is said to begin its attempts over. *)
Lemma conflicted_start_keeps_attempts :
  st_Status (w_State thrice_red) = StatusBlocked /\
  let w := exec conflicted CStart thrice_red in
  st_Status (w_State w) = StatusInProgress /\ at_Since (w_Attempts w) = 3%Z /\
  st_Status (w_State (exec strict CVerify w)) = StatusBlocked.
Proof. vm_compute. repeat split. Qed.
