(* ===== verification/Prices.v ===== *)
(** Models and their prices (internal/cost): the spellings of a model (modelarg.go), the
    price table with its overrides and the resolution of a price and of a context window
    (prices.go, overrides.go), and what a turn costs (formula.go). *)
From Stdlib Require Import SpecFloat.
From S2P Require Import Prelude Regex Markdown Spec Shell Domains Duration.
Local Open Scope Z_scope.

(** ** Data *)

(** float64; no operation is fused with the next. *)
Definition fmul : spec_float -> spec_float -> spec_float := SFmul prec emax.
Definition fadd : spec_float -> spec_float -> spec_float := SFadd prec emax.
Definition fdiv : spec_float -> spec_float -> spec_float := SFdiv prec emax.
Definition fzero : spec_float := S754_zero false.
(** n / d, for a positive n and d, rounded once. *)
Definition fratio (n d : Z) : spec_float := fdiv (float_of n) (float_of d).

Record PromptTier := MkPromptTier { pt_Over : Z; pt_BaseInput : spec_float; pt_Output : spec_float }.
Record ModelPrice := MkModelPrice { mp_BaseInput : spec_float; mp_Output : spec_float; mp_CacheReadMul : spec_float; mp_LongPrompt : PromptTier }.
Definition no_tier : PromptTier := MkPromptTier 0 fzero fzero.
(** ModelPrice{} *)
Definition no_price : ModelPrice := MkModelPrice fzero fzero fzero no_tier.

Definition DefaultCacheReadMul : spec_float := fratio 1 10.

(** ModelPrice.ForPrompt *)
Definition ForPrompt (p : ModelPrice) (promptTokens : Z) : ModelPrice :=
  if (pt_Over (mp_LongPrompt p) <=? 0) || (promptTokens <=? pt_Over (mp_LongPrompt p)) then p
  else MkModelPrice (pt_BaseInput (mp_LongPrompt p)) (pt_Output (mp_LongPrompt p)) (mp_CacheReadMul p) (mp_LongPrompt p).

(** ModelPrice.CacheReadMultiplier *)
Definition CacheReadMultiplier (p : ModelPrice) : spec_float :=
  if SFltb fzero (mp_CacheReadMul p) then mp_CacheReadMul p else DefaultCacheReadMul.

Inductive PriceSource := PriceOverride | PriceDated | PriceExact | PriceFamily | PriceNone.
Definition Priced (s : PriceSource) : bool := match s with PriceNone => false | _ => true end.
Definition Exact (s : PriceSource) : bool := match s with PriceOverride | PriceDated | PriceExact => true | _ => false end.

Record familyTier := MkFamilyTier { ft_Family : gostring; ft_Price : ModelPrice; ft_Window : Z }.

(** A row of a price file, its optional tier, and an override with the time it holds from
    ([None] is the zero time). *)
Record priceRow := MkPriceRow { row_BaseInput : spec_float; row_Output : spec_float; row_EffectiveFrom : gostring; row_ContextWindow : Z;
  row_CacheReadMul : spec_float; row_LongPrompt : option PromptTier }.
Record OverrideEntry := MkOverride { ov_Price : ModelPrice; ov_From : option Z; ov_Window : Z }.

(** The package's tables. *)
Record PriceTable := MkPriceTable { tb_Prices : gmap gostring ModelPrice; tb_dated : gmap gostring (list (Z * ModelPrice));
  tb_aliases : gmap gostring gostring; tb_families : list familyTier; tb_windows : gmap gostring Z; tb_suffixes : gmap gostring Z }.

(** ** The spellings of a model *)

(** stripDateSuffix *)
Definition stripDateSuffix (s : gostring) : gostring :=
  match LastIndex s "-" with
  | None => s
  | Some i =>
      let tail := drop (i + 1) s in
      if negb (length tail =? 8)%nat then s
      else if forallb (fun c => c_digit (bz c)) tail then take i s else s
  end.

(** strings.NewReplacer of foldModelPunctuation: one byte for one byte. *)
Definition dash (b : byte) : byte := if slices_Contains [[x5f]; [x20]; [x2e]] [b] then x2d else b.

(** The loop that collapses runs of dashes: each round shortens the text. *)
Fixpoint collapse (fuel : nat) (s : gostring) : gostring :=
  match fuel with
  | O => s
  | S fuel => if Contains s "--" then collapse fuel (ReplaceAll s "--" "-") else s
  end.

(** splitContextSuffix *)
Definition splitContextSuffix (s : gostring) : gostring * gostring :=
  match Index s "[" with
  | Some (S i) => (TrimSpace (take (S i) s), drop (S i) s)
  | _ => (TrimSpace s, [])
  end.

(** familyTier.matches *)
Definition matches (f : familyTier) (model : gostring) : bool :=
  if (model =s ft_Family f) || HasPrefix model ("claude-" ++ ft_Family f ++ "-") then true
  else if negb (HasPrefix model "claude-") then false
  else HasSuffix model ("-" ++ ft_Family f) || Contains model ("-" ++ ft_Family f ++ "-").

Section models.
Context (ToLower : gostring -> gostring) (T : PriceTable).

(** foldModelPunctuation *)
Definition foldModelPunctuation (s : gostring) : gostring :=
  let s := dash <$> ToLower (TrimSpace s) in
  Trim (collapse (length s) s) [bs "-"].

(** NormalizeModel *)
Definition NormalizeModel (model : gostring) : gostring :=
  let base := foldModelPunctuation (fst (splitContextSuffix model)) in
  match tb_aliases T !! base with
  | Some full => full
  | None =>
      let stripped := stripDateSuffix base in
      if stripped =s base then base
      else match tb_Prices T !! stripped with
           | Some _ => stripped
           | None => match tb_aliases T !! stripped with Some full => full | None => base end
           end
  end.

(** CanonicalModelArg: its loop over the families. *)
Fixpoint canonical_family (fs : list familyTier) (norm stem suffix : gostring) : gostring * bool :=
  match fs with
  | [] => (norm ++ suffix, false)
  | f :: fs' =>
      if stem =s ft_Family f then
        match tb_aliases T !! ft_Family f with
        | Some full => (full ++ suffix, true)
        | None => (ft_Family f ++ suffix, true)
        end
      else if HasPrefix stem (ft_Family f ++ "-") then ("claude-" ++ stem ++ suffix, true)
      else canonical_family fs' norm stem suffix
  end.

(** CanonicalModelArg *)
Definition CanonicalModelArg (raw : gostring) : gostring * bool :=
  let '(base, suffix) := splitContextSuffix raw in
  let norm := foldModelPunctuation base in
  if norm =s "" then ([], true)
  else match tb_aliases T !! norm with
       | Some full => (full ++ suffix, true)
       | None =>
           match tb_Prices T !! norm with
           | Some _ => (norm ++ suffix, true)
           | None => canonical_family (tb_families T) norm (TrimPrefix norm "claude-") suffix
           end
       end.

(** ModelFamily *)
Definition ModelFamily (model : gostring) : gostring :=
  default [] (ft_Family <$> List.find (fun f => matches f (NormalizeModel model)) (tb_families T)).

(** ** Prices *)

Context (overrides : gmap gostring OverrideEntry).

(** LookupSourceAt: the override, the window of dates, the exact row, the family. *)
Definition override_at (model : gostring) (ts : option Z) : option ModelPrice :=
  match overrides !! model with
  | Some ov =>
      match ov_From ov, ts with
      | None, _ => Some (ov_Price ov)
      | Some from, Some t => if t <? from then None else Some (ov_Price ov)
      | Some _, None => None
      end
  | None => None
  end.
Definition dated_at (model : gostring) (ts : option Z) : option ModelPrice :=
  match ts with
  | Some t => snd <$> List.find (fun dp => t <=? fst dp) (default [] (tb_dated T !! model))
  | None => None
  end.
Definition LookupSourceAt (model : gostring) (ts : option Z) : ModelPrice * PriceSource :=
  let model := NormalizeModel model in
  match override_at model ts with
  | Some p => (p, PriceOverride)
  | None =>
      match dated_at model ts with
      | Some p => (p, PriceDated)
      | None =>
          match tb_Prices T !! model with
          | Some p => (p, PriceExact)
          | None =>
              match List.find (fun f => matches f model) (tb_families T) with
              | Some f => (ft_Price f, PriceFamily)
              | None => (no_price, PriceNone)
              end
          end
      end
  end.

(** LookupAt *)
Definition LookupAt (model : gostring) (ts : option Z) : ModelPrice * bool :=
  let '(p, src) := LookupSourceAt model ts in if Exact src then (p, true) else (no_price, false).

Inductive WindowSource := WindowSuffix | WindowOverride | WindowExact | WindowFamily | WindowNone.

(** ContextWindow *)
Definition builtin_window (normalized : gostring) : Z * WindowSource :=
  match tb_windows T !! normalized with
  | Some w => (w, WindowExact)
  | None => match List.find (fun f => matches f normalized && (0 <? ft_Window f)) (tb_families T) with
            | Some f => (ft_Window f, WindowFamily)
            | None => (0, WindowNone)
            end
  end.
Definition ContextWindow (model : gostring) : Z * WindowSource :=
  let '(base, suffix) := splitContextSuffix model in
  if suffix <>s "" then
    match tb_suffixes T !! ToLower suffix with Some w => (w, WindowSuffix) | None => (0, WindowNone) end
  else
    let normalized := NormalizeModel base in
    match overrides !! normalized with
    | Some ov => if 0 <? ov_Window ov then (ov_Window ov, WindowOverride) else builtin_window normalized
    | None => builtin_window normalized
    end.

(** IsSyntheticModel *)
Definition IsSyntheticModel (model : gostring) : bool := HasPrefix (NormalizeModel model) "<".
End models.

(** ** Rows of a price file *)

(** validatePriceRow: whether the row is refused. *)
Definition validatePriceRow (model : gostring) (baseInput output : spec_float) : bool :=
  if SFltb baseInput fzero || SFltb output fzero then true
  else if HasPrefix model "<" then false
  else SFeqb baseInput fzero || SFeqb output fzero.

(** priceRow.price, priceRow.validate *)
Definition price (r : priceRow) : ModelPrice :=
  MkModelPrice (row_BaseInput r) (row_Output r) (row_CacheReadMul r) (default no_tier (row_LongPrompt r)).
Definition validate (r : priceRow) (model : gostring) : bool :=
  if validatePriceRow model (row_BaseInput r) (row_Output r) then true
  else match row_LongPrompt r with
       | None => false
       | Some lp => if pt_Over lp <=? 0 then true else validatePriceRow model (pt_BaseInput lp) (pt_Output lp)
       end.

(** prices.yaml: rows, windows of dates, aliases, families and context suffixes. *)
Record datedPriceRow := MkDatedRow { dr_Until : Z; dr_BaseInput : spec_float; dr_Output : spec_float }.
Record familyRow := MkFamilyRow { fr_Family : gostring; fr_BaseInput : spec_float; fr_Output : spec_float; fr_ContextWindow : Z }.
Record priceTableFile := MkPriceTableFile { pf_Prices : gmap gostring priceRow; pf_Dated : gmap gostring (list datedPriceRow);
  pf_Aliases : gmap gostring gostring; pf_Families : list familyRow; pf_Suffixes : list (gostring * Z) }.

(** parsePriceTable, after YAML; whether the table is taken. (The check of a row's
    min_claude, which no price reads, is left out.) *)
Definition parsePriceTable (tbl : priceTableFile) : bool :=
  negb (bool_decide (pf_Prices tbl = ∅)) &&
  forallb (fun kv => negb (validate (snd kv) (fst kv))) (map_to_list (pf_Prices tbl)) &&
  forallb (fun f => fr_Family f <>s "") (pf_Families tbl).

(** applyPriceTable; [Suffixes] is in the order the map is walked. *)
Definition plain_price (base output : spec_float) : ModelPrice := MkModelPrice base output fzero no_tier.
Definition dated_price (r : datedPriceRow) : Z * ModelPrice := (dr_Until r, plain_price (dr_BaseInput r) (dr_Output r)).
Definition family_tier (f : familyRow) : familyTier := MkFamilyTier (fr_Family f) (plain_price (fr_BaseInput f) (fr_Output f)) (fr_ContextWindow f).
Definition applyPriceTable (ToLower : gostring -> gostring) (tbl : priceTableFile) : PriceTable :=
  MkPriceTable (fmap (M := gmap gostring) price (pf_Prices tbl))
    (fmap (M := gmap gostring) (map dated_price) (pf_Dated tbl))
    (pf_Aliases tbl)
    (family_tier <$> pf_Families tbl)
    (omap (M := gmap gostring) (fun r => if 0 <? row_ContextWindow r then Some (row_ContextWindow r) else None) (pf_Prices tbl))
    (foldl (fun m sw => if 0 <? snd sw then <[ToLower (fst sw) := snd sw]> m else m) ∅ (pf_Suffixes tbl)).

Section overrides.
(** time.Parse in the two layouts, in UTC: [None] does not parse, [Some None] is the zero
    time; and its rendering. *)
Context (parse_time : gostring -> option (option Z)) (format_time : Z -> gostring).

(** parseEffectiveFrom *)
Definition parseEffectiveFrom (s : gostring) : option (option Z) := if s =s "" then Some None else parse_time s.

(** loadOverridesOnce: a row that is refused is dropped. *)
Definition load_row (r : priceRow) : OverrideEntry :=
  MkOverride (price r) (default None (parseEffectiveFrom (row_EffectiveFrom r))) (Z.max (row_ContextWindow r) 0).
Definition loadOverridesOnce (raw : gmap gostring priceRow) : gmap gostring OverrideEntry :=
  map_imap (fun k v => if validate v k then None else Some (load_row v)) raw.

(** LoadOverridesFrom: [None] is a refusal of the whole file. *)
Definition row_bad (k : gostring) (v : priceRow) : bool :=
  validate v k || negb (bool_decide (is_Some (parseEffectiveFrom (row_EffectiveFrom v)))) || (row_ContextWindow v <? 0).
Definition LoadOverridesFrom (raw : gmap gostring priceRow) : option (gmap gostring OverrideEntry) :=
  if bool_decide (raw = ∅) then None
  else if existsb (fun kv => row_bad (fst kv) (snd kv)) (map_to_list raw) then None
  else Some ((fun v => MkOverride (price v) (default None (parseEffectiveFrom (row_EffectiveFrom v))) (row_ContextWindow v)) <$> raw).

(** SaveOverrides: the rows written. *)
Definition save_row (v : OverrideEntry) : priceRow :=
  let p := ov_Price v in
  MkPriceRow (mp_BaseInput p) (mp_Output p) (match ov_From v with Some t => format_time t | None => [] end) (ov_Window v) (mp_CacheReadMul p)
    (if 0 <? pt_Over (mp_LongPrompt p) then Some (mp_LongPrompt p) else None).
Definition SaveOverrides (prices : gmap gostring OverrideEntry) : gmap gostring priceRow := save_row <$> prices.
End overrides.

(** ** What a turn costs *)

Record CacheCreation := MkCacheCreation { ca_5m : Z; ca_1h : Z }.
Record UsageBlock := MkUsageBlock { ub_InputTokens : Z; ub_OutputTokens : Z; ub_CacheRead : Z; ub_CacheCreation : CacheCreation }.

(** UsageBlock.PromptTokens *)
Definition PromptTokens (u : UsageBlock) : Z :=
  wrap64 (ub_InputTokens u + ub_CacheRead u + ca_5m (ub_CacheCreation u) + ca_1h (ub_CacheCreation u)).

Definition perMillion : spec_float := float_of 1000000.
Definition CacheCreationEphemeral5mMul : spec_float := fratio 5 4.
Definition CacheCreationEphemeral1hMul : spec_float := float_of 2.

(** TurnCost, for token counts that are not negative. *)
Definition TurnCost (u : UsageBlock) (p : ModelPrice) : spec_float :=
  let p := ForPrompt p (PromptTokens u) in
  let per tokens rate := fdiv (fmul rate (float_of tokens)) perMillion in
  fadd (fadd (fadd (fadd (per (ub_InputTokens u) (mp_BaseInput p))
    (per (ca_5m (ub_CacheCreation u)) (fmul (mp_BaseInput p) CacheCreationEphemeral5mMul)))
    (per (ca_1h (ub_CacheCreation u)) (fmul (mp_BaseInput p) CacheCreationEphemeral1hMul)))
    (per (ub_CacheRead u) (fmul (mp_BaseInput p) (CacheReadMultiplier p))))
    (per (ub_OutputTokens u) (mp_Output p)).

Record Totals := MkTotals { to_CostUSD : spec_float; to_Input : Z; to_Output : Z; to_CacheRead : Z; to_CacheCreation : Z; to_5m : Z; to_1h : Z; to_NumTurns : Z }.

(** Totals.Add, Totals.TokensTotal *)
Definition Add (t : Totals) (u : UsageBlock) (p : ModelPrice) : Totals :=
  let c := ub_CacheCreation u in
  MkTotals (fadd (to_CostUSD t) (TurnCost u p)) (wrap64 (to_Input t + ub_InputTokens u)) (wrap64 (to_Output t + ub_OutputTokens u))
    (wrap64 (to_CacheRead t + ub_CacheRead u)) (wrap64 (to_CacheCreation t + (ca_5m c + ca_1h c))) (wrap64 (to_5m t + ca_5m c)) (wrap64 (to_1h t + ca_1h c))
    (wrap64 (to_NumTurns t + 1)).
Definition TokensTotal (t : Totals) : Z := wrap64 (to_Input t + to_Output t + to_CacheRead t + to_CacheCreation t).
