(* ===== verification/PriceFacts.v ===== *)
(** Theorems on prices: no rate of zero passes for a price, and the overrides that are saved
    are read back. *)
From Stdlib Require Import SpecFloat.
From S2P Require Import Prelude Regex Markdown Spec Shell Domains Duration Prices.
Local Open Scope Z_scope.

(** ** Rates *)

(** A rate that can be one: neither zero nor negative. *)
Definition rate_ok (r : spec_float) : Prop := SFltb r fzero = false /\ SFeqb r fzero = false.
Definition price_ok (p : ModelPrice) : Prop :=
  rate_ok (mp_BaseInput p) /\ rate_ok (mp_Output p) /\
  (0 < pt_Over (mp_LongPrompt p) -> rate_ok (pt_BaseInput (mp_LongPrompt p)) /\ rate_ok (pt_Output (mp_LongPrompt p))).

Lemma rates_of_row model base output :
  HasPrefix model "<" = false -> validatePriceRow model base output = false -> rate_ok base /\ rate_ok output.
Proof.
  intros Hm. unfold validatePriceRow, rate_ok. rewrite Hm.
  destruct (SFltb base fzero), (SFltb output fzero); try done. cbn. by destruct (SFeqb base fzero), (SFeqb output fzero).
Qed.

Lemma price_of_row model r : HasPrefix model "<" = false -> validate r model = false -> price_ok (price r).
Proof.
  intros Hm. unfold validate. destruct (validatePriceRow _ _ _) eqn:E1; [done|].
  destruct (rates_of_row _ _ _ Hm E1) as [Hb Ho].
  destruct (row_LongPrompt r) as [lp|] eqn:El; intros Hv; (split_and!; [done|done|]); unfold price; cbn; rewrite El; cbn; [|lia].
  intros _. destruct (Z.leb_spec (pt_Over lp) 0); [done|]. exact (rates_of_row _ _ _ Hm Hv).
Qed.

Lemma plain_price_ok base output : rate_ok base -> rate_ok output -> price_ok (plain_price base output).
Proof. intros ? ?. by split_and!. Qed.

(** Whatever the prompt's length, the turn bills at rates that can be ones. *)
Lemma ForPrompt_ok p n : price_ok p -> rate_ok (mp_BaseInput (ForPrompt p n)) /\ rate_ok (mp_Output (ForPrompt p n)).
Proof.
  intros (Hb & Ho & Ht). unfold ForPrompt.
  destruct (Z.leb_spec (pt_Over (mp_LongPrompt p)) 0); [done|]. destruct (n <=? _); [done|]. by apply Ht.
Qed.

Section lookup.
Context (ToLower : gostring -> gostring) (tbl : priceTableFile) (Htbl : parsePriceTable tbl = true).
Context (parse_time : gostring -> option (option Z)) (raw : gmap gostring priceRow).

Lemma override_ok model ts p :
  HasPrefix model "<" = false -> override_at (loadOverridesOnce parse_time raw) model ts = Some p -> price_ok p.
Proof.
  intros Hm. unfold override_at, loadOverridesOnce. rewrite map_lookup_imap.
  destruct (raw !! model) as [r|]; cbn; [|done]. destruct (validate r model) eqn:Ev; [done|].
  cbn. pose proof (price_of_row _ _ Hm Ev). intros Hp. repeat case_match; congruence.
Qed.

Lemma exact_ok model p : HasPrefix model "<" = false -> tb_Prices (applyPriceTable ToLower tbl) !! model = Some p -> price_ok p.
Proof.
  intros Hm. cbn. rewrite lookup_fmap. destruct (pf_Prices tbl !! model) as [r|] eqn:Er; cbn; [|done]. intros [= <-].
  apply (price_of_row model); [done|]. unfold parsePriceTable in Htbl. rewrite !andb_true_iff in Htbl. destruct Htbl as [[_ Hall] _].
  rewrite forallb_forall in Hall. specialize (Hall (model, r)). cbn in Hall. apply negb_true_iff, Hall.
  apply list_elem_of_In. by apply elem_of_map_to_list.
Qed.
End lookup.

(** The rows parsePriceTable does not look at: the windows of dates and the families. *)
Definition unvalidated_ok (tbl : priceTableFile) : Prop :=
  (forall m rows r, pf_Dated tbl !! m = Some rows -> r ∈ rows -> rate_ok (dr_BaseInput r) /\ rate_ok (dr_Output r)) /\
  (forall f, f ∈ pf_Families tbl -> rate_ok (fr_BaseInput f) /\ rate_ok (fr_Output f)).

Lemma lookup_ok ToLower tbl parse_time raw model ts p src :
  parsePriceTable tbl = true -> unvalidated_ok tbl ->
  LookupSourceAt ToLower (applyPriceTable ToLower tbl) (loadOverridesOnce parse_time raw) model ts = (p, src) ->
  Priced src = true -> IsSyntheticModel ToLower (applyPriceTable ToLower tbl) model = false -> price_ok p.
Proof.
  intros Htbl [Hd Hf]. unfold LookupSourceAt, IsSyntheticModel. set (T := applyPriceTable ToLower tbl). set (m := NormalizeModel ToLower T model).
  destruct (override_at _ m ts) as [q|] eqn:Eo.
  { intros [= <- <-] _ Hm. by apply (override_ok parse_time raw m ts). }
  destruct (dated_at T m ts) as [q|] eqn:Ed.
  { intros [= <- <-] _ _. unfold dated_at in Ed. destruct ts as [t|]; [|done].
    apply fmap_Some in Ed as ([u q'] & E & ->). apply List.find_some in E as [E _]. apply list_elem_of_In in E.
    cbn in E. rewrite lookup_fmap in E. destruct (pf_Dated tbl !! m) as [rows|] eqn:Er; cbn in E; [|by apply elem_of_nil in E].
    apply list_elem_of_fmap in E as (r & [= -> ->] & Hr). destruct (Hd _ _ _ Er Hr). by apply plain_price_ok. }
  destruct (tb_Prices T !! m) as [q|] eqn:Ep.
  { intros [= <- <-] _ Hm. by apply (exact_ok ToLower tbl Htbl m). }
  destruct (List.find _ _) as [f|] eqn:Ef; intros [= <- <-]; [|done]. intros _ _.
  apply List.find_some in Ef as [Ef _]. apply list_elem_of_In in Ef. cbn in Ef.
  apply list_elem_of_fmap in Ef as (r & -> & Hr). destruct (Hf _ Hr). by apply plain_price_ok.
Qed.

(** C40: A turn that is billed is never billed at nothing by mistake. Whatever the operator's
    price file holds, a model that some price is found for, and that is no sentinel, has an
    input and an output rate that are neither zero nor negative, at every length of its
    prompt; and where no price is found the source says so. This holds of every built-in
    table the program takes, provided the rows it does not look at - the windows of dates
    and the families - are sound. *)
Theorem no_silent_zero (ToLower : gostring -> gostring) (tbl : priceTableFile) (parse_time : gostring -> option (option Z))
    (raw : gmap gostring priceRow) (model : gostring) (ts : option Z) (n : Z) :
  parsePriceTable tbl = true -> unvalidated_ok tbl ->
  let T := applyPriceTable ToLower tbl in
  let '(p, src) := LookupSourceAt ToLower T (loadOverridesOnce parse_time raw) model ts in
  IsSyntheticModel ToLower T model = false ->
  if Priced src then rate_ok (mp_BaseInput (ForPrompt p n)) /\ rate_ok (mp_Output (ForPrompt p n)) else p = no_price.
Proof.
  intros Htbl Hun T. destruct (LookupSourceAt _ _ _ _ _) as [p src] eqn:E. intros Hs. destruct (Priced src) eqn:Ep.
  - apply ForPrompt_ok. by eapply lookup_ok.
  - unfold LookupSourceAt in E. repeat case_match; simplify_eq; done.
Qed.

(** ** The table that is built in *)

Definition built (base output : Z * Z) (window : Z) (mul : spec_float) (lp : option PromptTier) : priceRow :=
  MkPriceRow (fratio (fst base) (snd base)) (fratio (fst output) (snd output)) [] window mul lp.
Definition dollars (n : Z) : Z * Z := (n, 1).
Definition flat (base output window : Z) : priceRow := built (dollars base) (dollars output) window fzero None.
Definition cached (base output window : Z) (mul : spec_float) : priceRow := built (dollars base) (dollars output) window mul None.

(** internal/cost/prices.yaml *)
Definition pricesYAML : priceTableFile := MkPriceTableFile
  (list_to_map [
    (bs "claude-fable-5-1", cached 10 50 1000000 (fratio 25 1000)); (bs "claude-fable-5", flat 10 50 1000000);
    (bs "claude-mythos-5-1", cached 10 50 1000000 (fratio 25 1000)); (bs "claude-mythos-5", flat 10 50 1000000);
    (bs "claude-opus-5-5", cached 4 20 1000000 (fratio 5 100)); (bs "claude-opus-5", flat 5 25 1000000);
    (bs "claude-sonnet-5-5", cached 2 10 1000000 (fratio 5 100)); (bs "claude-sonnet-5", flat 2 10 1000000);
    (bs "claude-opus-4-8", flat 5 25 1000000); (bs "claude-opus-4-7", flat 5 25 1000000); (bs "claude-opus-4-6", flat 5 25 1000000);
    (bs "claude-opus-4-5", flat 5 25 200000); (bs "claude-opus-4-1", flat 15 75 200000); (bs "claude-opus-4", flat 15 75 200000);
    (bs "claude-sonnet-4-6", flat 3 15 1000000); (bs "claude-sonnet-4-5", flat 3 15 200000); (bs "claude-sonnet-4", flat 3 15 200000);
    (bs "claude-haiku-5-5", built (1, 10) (5, 10) 1000000 fzero (Some (MkPromptTier 100000 (fratio 5 10) (fratio 25 10))));
    (bs "claude-haiku-4-5", flat 1 5 200000); (bs "claude-haiku-3-5", built (8, 10) (4, 1) 200000 fzero None);
    (bs "<synthetic>", MkPriceRow fzero fzero [] 0 fzero None)])
  ∅
  (list_to_map [(bs "opus", bs "claude-opus-5-5"); (bs "sonnet", bs "claude-sonnet-5-5"); (bs "haiku", bs "claude-haiku-5-5");
    (bs "fable", bs "claude-fable-5-1"); (bs "mythos", bs "claude-mythos-5-1")])
  [MkFamilyRow "fable" (float_of 10) (float_of 50) 0; MkFamilyRow "mythos" (float_of 10) (float_of 50) 0;
   MkFamilyRow "opus" (float_of 5) (float_of 25) 0; MkFamilyRow "sonnet" (float_of 3) (float_of 15) 0; MkFamilyRow "haiku" (float_of 1) (float_of 5) 0]
  [(bs "[1m]", 1000000)].

Lemma pricesYAML_taken : parsePriceTable pricesYAML = true.
Proof. vm_compute. reflexivity. Qed.

Lemma pricesYAML_sound : unvalidated_ok pricesYAML.
Proof.
  split; [intros m rows r; cbn; by rewrite lookup_empty|].
  intros f Hf. cbn in Hf. repeat (apply elem_of_cons in Hf as [->|Hf]; [by vm_compute|]). by apply elem_of_nil in Hf.
Qed.

Definition shipped : PriceTable := applyPriceTable ascii_lower pricesYAML.

(** A file whose only row has a misspelled rate. *)
Definition typo_file : gmap gostring priceRow := {[ bs "claude-opus-5-5" := MkPriceRow fzero (float_of 20) [] 0 fzero None ]}.

Lemma no_silent_zero_witness :
  snd (LookupSourceAt ascii_lower shipped (loadOverridesOnce (fun _ => None) typo_file) "Opus[1m]" None) = PriceExact /\
  (let '(p, src) := LookupSourceAt ascii_lower shipped (loadOverridesOnce (fun _ => None) typo_file) "Opus[1m]" None in
   if Priced src then rate_ok (mp_BaseInput (ForPrompt p 7)) /\ rate_ok (mp_Output (ForPrompt p 7)) else p = no_price).
Proof.
  split; [by vm_compute|].
  pose proof (no_silent_zero ascii_lower pricesYAML (fun _ => None) typo_file "Opus[1m]" None 7 pricesYAML_taken pricesYAML_sound) as H.
  cbv zeta in H. fold shipped in H. destruct (LookupSourceAt _ _ _ _ _) as [p src]. apply H. by vm_compute.
Defined.

(** A family's row with a misspelled rate is taken, and bills at nothing as an estimate. *)
Theorem family_zero :
  let tbl := MkPriceTableFile (pf_Prices pricesYAML) ∅ ∅ [MkFamilyRow "nova" fzero (float_of 15) 0] [] in
  let '(p, src) := LookupSourceAt ascii_lower (applyPriceTable ascii_lower tbl) ∅ "claude-nova-1" None in
  parsePriceTable tbl = true /\ src = PriceFamily /\ mp_BaseInput p = fzero.
Proof. vm_compute. by split_and!. Qed.

(** The spellings the comment of CanonicalModelArg lists. *)
Example spellings :
  fst ∘ CanonicalModelArg ascii_lower shipped <$> [bs "sonnet"; bs "Sonnet"; bs "claude-sonnet"; bs "sonnet-5"; bs "claude-sonnet-4.6";
    bs "claude_sonnet_4_6"; bs "Opus[1m]"] =
  [bs "claude-sonnet-5-5"; bs "claude-sonnet-5-5"; bs "claude-sonnet-5-5"; bs "claude-sonnet-5"; bs "claude-sonnet-4-6"; bs "claude-sonnet-4-6";
    bs "claude-opus-5-5[1m]"].
Proof. vm_compute. reflexivity. Qed.

(** ** Saving overrides *)

(** The times of the entries are those the rendering keeps: whole seconds. *)
Definition times_kept (parse_time : gostring -> option (option Z)) (format_time : Z -> gostring) (m : gmap gostring OverrideEntry) : Prop :=
  forall k e t, m !! k = Some e -> ov_From e = Some t -> format_time t <> [] /\ parse_time (format_time t) = Some (Some t).

Lemma saved_row parse_time format_time k r :
  row_bad parse_time k r = false ->
  let e := MkOverride (price r) (default None (parseEffectiveFrom parse_time (row_EffectiveFrom r))) (row_ContextWindow r) in
  (forall t, ov_From e = Some t -> format_time t <> [] /\ parse_time (format_time t) = Some (Some t)) ->
  validate (save_row format_time e) k = false /\ load_row parse_time (save_row format_time e) = e.
Proof.
  intros Hr e Ht. unfold row_bad in Hr. rewrite !orb_false_iff in Hr. destruct Hr as [[Hv Hp] Hw]. apply Z.ltb_ge in Hw.
  assert (row_LongPrompt (save_row format_time e) = row_LongPrompt r) as Hlp.
  { unfold save_row, e, price. cbn. unfold validate in Hv. destruct (row_LongPrompt r) as [lp|]; [|done]. cbn.
    destruct (validatePriceRow k (row_BaseInput r) _); [done|]. by destruct (Z.leb_spec (pt_Over lp) 0), (Z.ltb_spec 0 (pt_Over lp)); try done; lia. }
  split; [unfold validate in *; by rewrite Hlp|].
  unfold load_row. replace (row_ContextWindow (save_row format_time e)) with (row_ContextWindow r) by done. rewrite Z.max_l by done.
  assert (price (save_row format_time e) = price r) as ->.
  { unfold price. by rewrite Hlp. }
  replace (default None (parseEffectiveFrom parse_time (row_EffectiveFrom (save_row format_time e)))) with (ov_From e); [done|].
  unfold save_row. cbn [row_EffectiveFrom]. destruct (ov_From e) as [t|]; [|done]. destruct (Ht t eq_refl) as [Hne Hparse].
  unfold parseEffectiveFrom. rewrite bool_decide_false by done. by rewrite Hparse.
Qed.

(** What `ape costs update` persists is what it read: the overrides of a file that is
    taken, saved and loaded again, are the same - the date a rate holds from, the long-prompt
    rate, the cache's multiple and the context window included. *)
Theorem overrides_read_back (parse_time : gostring -> option (option Z)) (format_time : Z -> gostring)
    (raw : gmap gostring priceRow) (m : gmap gostring OverrideEntry) :
  LoadOverridesFrom parse_time raw = Some m -> times_kept parse_time format_time m ->
  loadOverridesOnce parse_time (SaveOverrides format_time m) = m.
Proof.
  unfold LoadOverridesFrom. case_bool_decide; [done|]. destruct (existsb _ _) eqn:Ex; [done|]. intros [= <-] Ht.
  apply map_eq. intros k. unfold loadOverridesOnce, SaveOverrides. rewrite map_lookup_imap, !lookup_fmap.
  destruct (raw !! k) as [r|] eqn:Er; cbn; [|done].
  assert (row_bad parse_time k r = false) as Hr.
  { apply not_true_is_false. intros Hb. apply not_true_iff_false in Ex. apply Ex, existsb_exists. exists (k, r). split; [|done].
    apply list_elem_of_In. by apply elem_of_map_to_list. }
  destruct (saved_row parse_time format_time k r Hr) as [-> E].
  - intros t. apply (Ht k). by rewrite lookup_fmap, Er.
  - by rewrite E.
Qed.

Definition sample_file : gmap gostring priceRow := {[ bs "claude-haiku-6" := MkPriceRow (fratio 1 10) (float_of 1) "2026" 200000 fzero (Some (MkPromptTier 5 (float_of 1) (float_of 2))) ]}.
Definition sample_parse (s : gostring) : option (option Z) := if s =s "2026" then Some (Some 7) else None.

Lemma overrides_read_back_witness :
  exists m, LoadOverridesFrom sample_parse sample_file = Some m /\ loadOverridesOnce sample_parse (SaveOverrides (fun _ => bs "2026") m) = m.
Proof.
  destruct (LoadOverridesFrom sample_parse sample_file) as [m|] eqn:E; unfold LoadOverridesFrom in E;
    rewrite bool_decide_false in E by apply map_non_empty_singleton; unfold sample_file in E at 1; rewrite map_to_list_singleton in E;
    destruct (existsb _ _) eqn:Ex; try done.
  exists m. split; [done|]. apply (overrides_read_back sample_parse (fun _ => bs "2026") sample_file m).
  - unfold LoadOverridesFrom. rewrite bool_decide_false by apply map_non_empty_singleton. unfold sample_file at 1. by rewrite map_to_list_singleton, Ex.
  - injection E as <-. intros k e t Hk He. split; [done|]. unfold sample_file in Hk. rewrite lookup_fmap in Hk.
    destruct (decide (k = bs "claude-haiku-6")) as [->|Hn]; [|by rewrite lookup_singleton_ne in Hk].
    rewrite lookup_singleton_eq in Hk. injection Hk as <-. vm_compute in He. injection He as <-. by vm_compute.
Defined.
