(* ===== verification/Pipeline.v ===== *)
(** Pipelines (internal/pipeline): the spec and what its levels resolve to (spec.go,
    commit.go), the extension gates (extensions.go), the effort a session launches with
    (effort.go, internal/effort/effort.go), and the checks before a run (preflight.go).
    YAML decoding is a parameter. *)
From S2P Require Import Prelude Regex Markdown Spec Shell Domains Duration Prices.

(** ** Data *)

Inductive CommitMode := CommitModeDefault | CommitModeSkip | CommitModeExplicit.
#[export] Instance CommitMode_eq : EqDecision CommitMode.
Proof. solve_decision. Defined.
Record CommitDirective := MkCommitDirective { cd_Mode : CommitMode; cd_Message : gostring }.

Record PStep := MkPStep { sp_Skill : gostring; sp_Agent : gostring; sp_Model : gostring; sp_Effort : gostring; sp_Args : gostring; sp_PromptFlag : gostring;
  sp_ExplicitNoCommit : bool; sp_Commit : CommitDirective; sp_CommitSet : bool; sp_NoClear : bool; sp_RequiresExtensions : list gostring }.
Record Stage := MkStage { sg_Name : gostring; sg_Model : gostring; sg_Effort : gostring; sg_Agent : gostring; sg_Commit : option CommitDirective;
  sg_OutputStyle : gostring; sg_RequiresExtensions : list gostring; sg_Chain : list PStep }.
Record ConditionalFile := MkConditionalFile { cf_Path : gostring; cf_ExtensionsAny : list gostring }.
Record PSpec := MkPSpec { pl_Name : gostring; pl_Model : gostring; pl_Effort : gostring; pl_Agent : gostring; pl_Commit : option CommitDirective;
  pl_OutputStyle : gostring; pl_Files : list gostring; pl_ConditionalFiles : list ConditionalFile; pl_stages : list Stage }.

(** ** Reading a spec *)

(** yaml.Node *)
Inductive NodeKind := DocumentNode | MappingNode | SequenceNode | ScalarNode | AliasNode.
#[export] Instance NodeKind_eq : EqDecision NodeKind.
Proof. solve_decision. Defined.
Inductive Node := MkNode (kind : NodeKind) (tag value : gostring) (line : Z) (content : list Node).
Definition nd_Kind (n : Node) : NodeKind := match n with MkNode k _ _ _ _ => k end.
Definition nd_Tag (n : Node) : gostring := match n with MkNode _ t _ _ _ => t end.
Definition nd_Value (n : Node) : gostring := match n with MkNode _ _ v _ _ => v end.
Definition nd_Line (n : Node) : Z := match n with MkNode _ _ _ l _ => l end.
Definition nd_Content (n : Node) : list Node := match n with MkNode _ _ _ _ c => c end.

(** A mapping's content, two by two; a last one alone is left out. *)
Fixpoint pairs (l : list Node) : list (Node * Node) :=
  match l with k :: v :: l' => (k, v) :: pairs l' | _ => [] end.

(** stepYAML and Step.UnmarshalYAML *)
Record stepYAML := MkStepYAML { sy_Skill : gostring; sy_Agent : gostring; sy_Model : gostring; sy_Effort : gostring; sy_Args : gostring; sy_PromptFlag : gostring;
  sy_Commit : option CommitDirective; sy_NoClear : bool; sy_RequiresExtensions : list gostring }.
Definition Step_UnmarshalYAML (raw : stepYAML) : PStep :=
  MkPStep (sy_Skill raw) (sy_Agent raw) (sy_Model raw) (sy_Effort raw) (sy_Args raw) (sy_PromptFlag raw) false
    (default (MkCommitDirective CommitModeDefault []) (sy_Commit raw)) (bool_decide (is_Some (sy_Commit raw))) (sy_NoClear raw) (sy_RequiresExtensions raw).

(** The body of a stage, decoded. *)
Record StageBody := MkStageBody { sb_Model : gostring; sb_Effort : gostring; sb_Agent : gostring; sb_Commit : option CommitDirective;
  sb_OutputStyle : gostring; sb_Requires : list gostring; sb_Chain : list stepYAML }.

Section decode.
Context (decode_bool : Node -> option bool) (decode_body : Node -> option StageBody).

(** CommitDirective.UnmarshalYAML; [None] is an error, and a missing node is the default. *)
Definition Commit_UnmarshalYAML (node : option Node) : option CommitDirective :=
  match node with
  | None => Some (MkCommitDirective CommitModeDefault [])
  | Some n =>
      if negb (bool_decide (nd_Kind n = ScalarNode)) then None
      else if nd_Tag n =s "!!null" then Some (MkCommitDirective CommitModeDefault [])
      else if nd_Tag n =s "!!bool" then
        match decode_bool n with
        | None => None
        | Some b => Some (MkCommitDirective (if b then CommitModeDefault else CommitModeSkip) [])
        end
      else if nd_Tag n =s "!!str" then
        if existsb (fun c => Byte.eqb c x0a || Byte.eqb c x0d) (nd_Value n) then None
        else if nd_Value n =s "" then None
        else Some (MkCommitDirective CommitModeExplicit (nd_Value n))
      else None
  end.

(** decodeStages; [None] is an error. *)
Definition decode_stage (kv : Node * Node) : option Stage :=
  let '(key, val) := kv in
  if negb (bool_decide (nd_Kind key = ScalarNode)) then None
  else match decode_body val with
       | None => None
       | Some b =>
           if bool_decide (sb_Chain b = []) then None
           else if existsb (fun st => sy_Skill st =s "") (sb_Chain b) then None
           else Some (MkStage (nd_Value key) (sb_Model b) (sb_Effort b) (sb_Agent b) (sb_Commit b) (sb_OutputStyle b) (sb_Requires b) (map Step_UnmarshalYAML (sb_Chain b)))
       end.
Definition decodeStages (node : option Node) : option (list Stage) :=
  match node with
  | None => None
  | Some n =>
      if negb (bool_decide (nd_Kind n = MappingNode)) then None
      else if negb (Nat.even (length (nd_Content n))) then None
      else mapM decode_stage (pairs (nd_Content n))
  end.
End decode.

(** firstNonEmpty *)
Fixpoint firstNonEmpty (vals : list gostring) : gostring :=
  match vals with [] => [] | v :: vals' => if v <>s "" then v else firstNonEmpty vals' end.

(** The spec's map from names: a later stage of the same name replaces an earlier one. *)
Definition stageMap (s : PSpec) (name : gostring) : option Stage := List.find (fun st => sg_Name st =s name) (rev (pl_stages s)).

(** NewSingleStepSpec *)
Definition NewSingleStepSpec (name : gostring) (step : PStep) (commit : option CommitDirective) : PSpec :=
  MkPSpec name [] [] [] None [] [] [] [MkStage name [] [] [] commit [] [] [step]].

(** ** What a step runs with *)

Inductive CommitBoundary := CommitBoundaryNone | CommitBoundaryStep | CommitBoundaryStage.
Record EffectiveCommit := MkEffectiveCommit { ec_Boundary : CommitBoundary; ec_Directive : CommitDirective }.
Definition no_commit : EffectiveCommit := MkEffectiveCommit CommitBoundaryNone (MkCommitDirective CommitModeDefault []).

(** resolveCommit *)
Definition resolveCommit (step : PStep) (stage : Stage) (spec : PSpec) : EffectiveCommit :=
  if sp_CommitSet step then
    if bool_decide (cd_Mode (sp_Commit step) = CommitModeSkip) then no_commit else MkEffectiveCommit CommitBoundaryStep (sp_Commit step)
  else match sg_Commit stage with
       | Some c => if bool_decide (cd_Mode c = CommitModeSkip) then no_commit else MkEffectiveCommit CommitBoundaryStage c
       | None =>
           match pl_Commit spec with
           | Some c => if bool_decide (cd_Mode c = CommitModeSkip) then no_commit else MkEffectiveCommit CommitBoundaryStage c
           | None => no_commit
           end
       end.

Section spec.
Context (canonical : gostring -> gostring * bool).

Record Effective_ := MkEffective { ef_model : gostring; ef_effort : gostring; ef_agent : gostring; ef_commit : EffectiveCommit }.

(** Effective; [None] is an error. *)
Definition Effective (s : PSpec) (stageName : gostring) (stepIdx : nat) : option Effective_ :=
  match stageMap s stageName with
  | None => None
  | Some stage =>
      match sg_Chain stage !! stepIdx with
      | None => None
      | Some step =>
          Some (MkEffective (fst (canonical (firstNonEmpty [sp_Model step; sg_Model stage; pl_Model s])))
            (firstNonEmpty [sp_Effort step; sg_Effort stage; pl_Effort s]) (firstNonEmpty [sp_Agent step; sg_Agent stage; pl_Agent s])
            (resolveCommit step stage s))
      end
  end.

(** Models *)
Definition model_step (s : PSpec) (name : gostring) (out : list gostring) (i : nat) : list gostring :=
  match Effective s name i with
  | Some e => if (ef_model e =s "") || slices_Contains out (ef_model e) then out else out ++ [ef_model e]
  | None => out
  end.
Definition Models (s : PSpec) : list gostring :=
  sort_Strings (foldl (fun out st => foldl (model_step s (sg_Name st)) out (seq 0 (length (sg_Chain st)))) [] (pl_stages s)).

(** ModelWarnings, with the place of each: the stage and the step. *)
Inductive Location := LPipeline | LStage (name : gostring) | LStep (stage : gostring) (idx : nat) (skill : gostring).
Definition model_warning (location : Location) (model : gostring) : list (Location * gostring) :=
  if model =s "" then [] else if snd (canonical model) then [] else [(location, model)].
Definition ModelWarnings (s : PSpec) : list (Location * gostring) :=
  model_warning LPipeline (pl_Model s) ++
  (pl_stages s ≫= fun st => model_warning (LStage (sg_Name st)) (sg_Model st) ++
     mjoin (imap (fun i step => model_warning (LStep (sg_Name st) i (sp_Skill step)) (sp_Model step)) (sg_Chain st))).

(** StageModelConflicts *)
Record ConflictStep := MkConflictStep { cs_Index : nat; cs_Skill : gostring; cs_Declared : gostring }.
Record StageConflict := MkStageConflict { sc_Stage : gostring; sc_Launch : gostring; sc_Steps : list ConflictStep }.
Definition declared_model (s : PSpec) (st : Stage) (i : nat) : option gostring :=
  match Effective s (sg_Name st) i, sg_Chain st !! i with
  | Some e, Some step => Some (firstNonEmpty [ef_model e; sp_Model step])
  | _, _ => None
  end.
Definition conflicts (declared : nat -> option gostring) (st : Stage) : list StageConflict :=
  if (length (sg_Chain st) <? 2)%nat then []
  else match declared 0%nat with
       | None => []
       | Some launch =>
           let steps := omap (fun i => match declared i, sg_Chain st !! i with
                                      | Some d, Some step => if (d =s "") || (d =s launch) then None else Some (MkConflictStep i (sp_Skill step) d)
                                      | _, _ => None
                                      end) (seq 1 (length (sg_Chain st) - 1)) in
           if bool_decide (steps = []) then [] else [MkStageConflict (sg_Name st) launch steps]
       end.
Definition StageModelConflicts (s : PSpec) : list StageConflict := pl_stages s ≫= fun st => conflicts (declared_model s st) st.

(** ** Commits *)

(** sanitizeFsName *)
Definition fs_byte (c : byte) : byte :=
  let z := bz c in
  if between 65 90 z || between 97 122 z || c_digit z || slices_Contains [[x2e]; [x5f]; [x2d]] [c] then c else x5f.
Definition sanitizeFsName (s : gostring) : gostring := if s =s "" then "unnamed" else fs_byte <$> s.

(** DerivedCommitMessage, DerivedStageCommitMessage, DerivedTaskCommitMessage *)
Definition DerivedCommitMessage (pipelineName stageName skill : gostring) : gostring :=
  "ape:" ++ sanitizeFsName pipelineName ++ "/" ++ sanitizeFsName stageName ++ "/" ++ sanitizeFsName skill.
Definition DerivedStageCommitMessage (pipelineName stageName : gostring) : gostring :=
  "ape:" ++ sanitizeFsName pipelineName ++ "/" ++ sanitizeFsName stageName.
Definition DerivedTaskCommitMessage (skill : gostring) : gostring := "ape:task/" ++ sanitizeFsName skill.

Record StageCommitPlan := MkCommitPlan { cp_StageDirective : option CommitDirective; cp_StepDirectives : gmap nat CommitDirective; cp_Suppressed : bool }.
Definition derived (d : CommitDirective) (message : gostring) : CommitDirective :=
  if bool_decide (cd_Mode d = CommitModeDefault) then MkCommitDirective CommitModeDefault message else d.

Record Skip := MkSkip { sk_Reason : gostring; sk_Missing : list gostring }.

(** planStageCommits: one step of the chain, and the whole. *)
Definition plan_step (s : PSpec) (stageName : gostring) (skipped : list (option Skip)) (acc : option StageCommitPlan) (istep : nat * PStep) : option StageCommitPlan :=
  match acc with
  | None => None
  | Some plan =>
      let '(i, step) := istep in
      if bool_decide (is_Some (mjoin (skipped !! i))) then Some plan
      else if sp_CommitSet step && bool_decide (cd_Mode (sp_Commit step) = CommitModeSkip) then
        Some (MkCommitPlan (cp_StageDirective plan) (cp_StepDirectives plan) true)
      else match Effective s stageName i with
           | None => None
           | Some e =>
               let d := ec_Directive (ef_commit e) in
               match ec_Boundary (ef_commit e) with
               | CommitBoundaryStep =>
                   Some (MkCommitPlan (cp_StageDirective plan)
                     (<[i := derived d (DerivedCommitMessage (pl_Name s) stageName (sp_Skill step))]> (cp_StepDirectives plan)) (cp_Suppressed plan))
               | CommitBoundaryStage =>
                   Some (MkCommitPlan (Some (derived d (DerivedStageCommitMessage (pl_Name s) stageName))) (cp_StepDirectives plan) (cp_Suppressed plan))
               | CommitBoundaryNone => Some plan
               end
           end
  end.
Definition planStageCommits (s : PSpec) (stageName : gostring) (skipped : list (option Skip)) : option StageCommitPlan :=
  match stageMap s stageName with
  | None => None
  | Some stage =>
      match foldl (plan_step s stageName skipped) (Some (MkCommitPlan None ∅ false)) (imap pair (sg_Chain stage)) with
      | None => None
      | Some plan => Some (if cp_Suppressed plan then MkCommitPlan None (cp_StepDirectives plan) true else plan)
      end
  end.
Definition PlanStageCommits (s : PSpec) (stageName : gostring) : option StageCommitPlan := planStageCommits s stageName [].

(** PipelineWantsCommits *)
Definition PipelineWantsCommits (s : PSpec) : bool :=
  existsb (fun st => match PlanStageCommits s (sg_Name st) with
                     | Some plan => bool_decide (is_Some (cp_StageDirective plan)) || negb (bool_decide (cp_StepDirectives plan = ∅))
                     | None => false
                     end) (pl_stages s).
End spec.

(** CommitDirective.Resolve: [None] skips. *)
Definition Commit_Resolve (c : CommitDirective) (pipelineName stageName skill : gostring) : option gostring :=
  match cd_Mode c with
  | CommitModeSkip => None
  | CommitModeExplicit => Some (cd_Message c)
  | CommitModeDefault => Some (DerivedCommitMessage pipelineName stageName skill)
  end.

(** EffectiveOutputStyle, OutputStyleDeclarations *)
Definition EffectiveOutputStyle (s : PSpec) (stageName : gostring) : option gostring :=
  (fun st => firstNonEmpty [sg_OutputStyle st; pl_OutputStyle s]) <$> stageMap s stageName.
Definition OutputStyleDeclarations (s : PSpec) : list (Location * gostring) :=
  (if pl_OutputStyle s <>s "" then [(LPipeline, pl_OutputStyle s)] else []) ++
  (pl_stages s ≫= fun st => if sg_OutputStyle st <>s "" then [(LStage (sg_Name st), sg_OutputStyle st)] else []).

(** StepLabel *)
Definition StepLabel (stage : gostring) (stepIdx : nat) (skill : gostring) : gostring := stage ++ "/" ++ ItoaN stepIdx ++ "-" ++ skill.

(** ** Keys that are not known *)

Definition specTopLevelKeys : list gostring := [bs "name"; bs "model"; bs "effort"; bs "agent"; bs "commit"; bs "output-style"; bs "requires"; bs "stages"].
Definition specStageKeys : list gostring := [bs "model"; bs "effort"; bs "agent"; bs "commit"; bs "output-style"; bs "requires-extensions"; bs "chain"].
Definition specStepKeys : list gostring :=
  [bs "skill"; bs "agent"; bs "model"; bs "effort"; bs "args"; bs "prompt_flag"; bs "commit"; bs "no-clear"; bs "requires-extensions"].

Record UnknownKey := MkUnknownKey { uk_Location : Location; uk_Key : gostring; uk_Line : Z }.

(** unknownIn *)
Definition unknownIn (mapping : Node) (known : list gostring) (location : Location) : list UnknownKey :=
  omap (fun kv => let key := fst kv in
          if negb (bool_decide (nd_Kind key = ScalarNode)) then None
          else if slices_Contains known (nd_Value key) then None
          else Some (MkUnknownKey location (nd_Value key) (nd_Line key))) (pairs (nd_Content mapping)).

(** scanUnknownKeys, on the parsed document. *)
Definition is_kind (k : NodeKind) (n : Node) : bool := bool_decide (nd_Kind n = k).
Definition unknown_steps (name : gostring) (chain : Node) : list UnknownKey :=
  if negb (is_kind SequenceNode chain) then []
  else mjoin (imap (fun idx n => if is_kind MappingNode n then unknownIn n specStepKeys (LStep name idx []) else []) (nd_Content chain)).
Definition unknown_stage (kv : Node * Node) : list UnknownKey :=
  let '(key, body) := kv in
  if negb (is_kind MappingNode body) then []
  else unknownIn body specStageKeys (LStage (nd_Value key)) ++
       (pairs (nd_Content body) ≫= fun kc => if nd_Value (fst kc) =s "chain" then unknown_steps (nd_Value key) (snd kc) else []).
Definition scanUnknownKeys (doc : Node) : list UnknownKey :=
  match (if is_kind DocumentNode doc then head (nd_Content doc) else Some doc) with
  | None => []
  | Some root =>
      if negb (is_kind MappingNode root) then []
      else unknownIn root specTopLevelKeys LPipeline ++
           (pairs (nd_Content root) ≫= fun kv =>
              if (nd_Value (fst kv) =s "stages") && is_kind MappingNode (snd kv) then pairs (nd_Content (snd kv)) ≫= unknown_stage else [])
  end.

(** ** Extension gates *)

Definition SkipReasonExtension : gostring := "extension".
Record Extensions := MkExtensions { ex_Enabled : list gostring; ex_Ignored : bool }.

(** Extensions.missing, Extensions.anyEnabled *)
Definition missing (e : option Extensions) (required : list gostring) : list gostring :=
  match e with
  | None => []
  | Some e =>
      if ex_Ignored e then []
      else foldl (fun out id => if negb (slices_Contains (ex_Enabled e) id) && negb (slices_Contains out id) then out ++ [id] else out) [] required
  end.
Definition anyEnabled (e : option Extensions) (ids : list gostring) : bool :=
  match e with
  | None => true
  | Some e => ex_Ignored e || existsb (slices_Contains (ex_Enabled e)) ids
  end.

(** KnownExtensions (internal/apexcfg/apexcfg.go) *)
Definition KnownExtensions : list gostring := [bs "ext-adrs"; bs "ext-patterns"; bs "ext-capabilities"; bs "ext-features"].
Definition IsKnownExtension (id : gostring) : bool := slices_Contains KnownExtensions id.

(** HasExtensionGates *)
Definition HasExtensionGates (s : PSpec) : bool :=
  negb (bool_decide (pl_ConditionalFiles s = [])) ||
  existsb (fun st => negb (bool_decide (sg_RequiresExtensions st = [])) || existsb (fun step => negb (bool_decide (sp_RequiresExtensions step = []))) (sg_Chain st)) (pl_stages s).

(** ExtensionsFor, on what the project's configuration resolves to ([None] when it cannot be
    read); [None] is a refusal. *)
Definition ExtensionsFor (resolved : option (list gostring)) (s : PSpec) (ignored : bool) : option (option Extensions) :=
  match resolved with
  | Some enabled => Some (Some (MkExtensions enabled ignored))
  | None =>
      if ignored then Some (Some (MkExtensions [] true))
      else if negb (HasExtensionGates s) then Some None
      else None
  end.

(** StageSkips, firstRun, lastRun *)
Record StageSkips := MkStageSkips { ss_Stage : option Skip; ss_Steps : list (option Skip) }.
Fixpoint first_none (i : nat) (l : list (option Skip)) : option nat :=
  match l with [] => None | None :: _ => Some i | Some _ :: l' => first_none (S i) l' end.
Definition firstRun (p : StageSkips) : option nat := first_none 0 (ss_Steps p).
Definition lastRun (p : StageSkips) : option nat :=
  (fun j => length (ss_Steps p) - 1 - j)%nat <$> first_none 0 (rev (ss_Steps p)).

(** PlanSkips: the plan of a stage, and of all. *)
Definition step_skip (ext : option Extensions) (step : PStep) : option Skip :=
  let m := missing ext (sp_RequiresExtensions step) in if bool_decide (m = []) then None else Some (MkSkip SkipReasonExtension m).
Definition union_missing (union : list gostring) (sk : option Skip) : list gostring :=
  match sk with
  | Some k => foldl (fun u id => if slices_Contains u id then u else u ++ [id]) union (sk_Missing k)
  | None => union
  end.
Definition plan_stage (ext : option Extensions) (st : Stage) : StageSkips :=
  let m := missing ext (sg_RequiresExtensions st) in
  if negb (bool_decide (m = [])) then
    let skip := MkSkip SkipReasonExtension m in MkStageSkips (Some skip) ((fun _ => Some skip) <$> sg_Chain st)
  else
    let steps := step_skip ext <$> sg_Chain st in
    let whole := negb (bool_decide (sg_Chain st = [])) && bool_decide (first_none 0 steps = None) in
    MkStageSkips (if whole then Some (MkSkip SkipReasonExtension (foldl union_missing [] steps)) else None) steps.
Definition PlanSkips (s : PSpec) (ext : option Extensions) : gmap gostring StageSkips :=
  foldl (fun m st => <[sg_Name st := plan_stage ext st]> m) ∅ (pl_stages s).
Definition skips_of (plan : gmap gostring StageSkips) (name : gostring) : StageSkips := default (MkStageSkips None []) (plan !! name).

(** ResolveFromStage *)
Fixpoint resolve_from (from : gostring) (plan : gmap gostring StageSkips) (seen skipped : bool) (stages : list Stage) : gostring * bool :=
  match stages with
  | [] => ([], skipped)
  | st :: rest =>
      let whole := bool_decide (is_Some (ss_Stage (skips_of plan (sg_Name st)))) in
      let '(seen, skipped) := if sg_Name st =s from then (true, whole) else (seen, skipped) in
      if seen && negb whole then (sg_Name st, skipped) else resolve_from from plan seen skipped rest
  end.
Definition ResolveFromStage (s : PSpec) (from : gostring) (plan : gmap gostring StageSkips) : gostring * bool := resolve_from from plan false false (pl_stages s).

(** validateExtensionIDs: what is wrong, and whether the spec is refused. *)
Inductive GateFault := FaultPath (i : nat) | FaultRequired (i : nat) | FaultUnknown (location : option nat + Location) (id : gostring).
Definition gate_faults (where_ : option nat + Location) (ids : list gostring) : list GateFault :=
  FaultUnknown where_ <$> filter (fun id => IsKnownExtension id = false) ids.
Definition validateExtensionIDs (s : PSpec) : list GateFault :=
  mjoin (imap (fun i cf => (if cf_Path cf =s "" then [FaultPath i] else []) ++ (if bool_decide (cf_ExtensionsAny cf = []) then [FaultRequired i] else []) ++
                           gate_faults (inl (Some i)) (cf_ExtensionsAny cf)) (pl_ConditionalFiles s)) ++
  (pl_stages s ≫= fun st => gate_faults (inr (LStage (sg_Name st))) (sg_RequiresExtensions st) ++
     mjoin (imap (fun i step => gate_faults (inr (LStep (sg_Name st) i (sp_Skill step))) (sp_RequiresExtensions step)) (sg_Chain st))).

(** LoadSpec, on the spec and the node of its stages that the YAML decodes to ([None] when
    the file is missing or does not decode). *)
Definition LoadSpec (decode_body : Node -> option StageBody) (name : gostring) (file : option (PSpec * option Node)) : option PSpec :=
  match file with
  | None => None
  | Some (raw, node) =>
      if pl_Name raw <>s name then None
      else match decodeStages decode_body node with
           | None => None
           | Some stages =>
               let s := MkPSpec (pl_Name raw) (pl_Model raw) (pl_Effort raw) (pl_Agent raw) (pl_Commit raw) (pl_OutputStyle raw) (pl_Files raw) (pl_ConditionalFiles raw) stages in
               if bool_decide (validateExtensionIDs s = []) then Some s else None
           end
  end.

(** AvailablePipelines, on the directory's entries: a name, and whether it is a directory. *)
Definition AvailablePipelines (entries : option (list (gostring * bool))) : list gostring :=
  sort_Strings (omap (fun e => let n := TrimSuffix (fst e) ".yaml" in if snd e || (n =s fst e) then None else Some n) (default [] entries)).

(** ** Effort *)

Definition Levels : list gostring := [bs "low"; bs "medium"; bs "high"; bs "xhigh"; bs "max"].
Definition TableLevels : list gostring := [bs "low"; bs "medium"; bs "high"; bs "xhigh"].
Definition LegacyDefault : gostring := "xhigh".
Record EffortDefaults := MkEffortDefaults { ed_Version : Z; ed_Defaults : gmap gostring gostring; ed_Fallback : gostring }.

(** CheckLevel, CheckTableLevel, Validate: whether it is taken. *)
Definition CheckLevel (level : gostring) : bool := (level =s "") || slices_Contains Levels level.
Definition CheckTableLevel (level : gostring) : bool :=
  if level =s "" then false else if level =s "max" then false else slices_Contains TableLevels level.
Definition familyWord : re := cats [ Bol; Cls c_lower; Star (Cls (cor c_lower (cor c_digit (one "-")))); Eol ].
Definition Defaults_Validate (d : EffortDefaults) : bool :=
  (ed_Version d =? 1)%Z && CheckTableLevel (ed_Fallback d) &&
  forallb (fun fl => MatchString familyWord (fst fl) && CheckTableLevel (snd fl)) (map_to_list (ed_Defaults d)).

Definition SourceStep : gostring := "step".
Definition SourceStage : gostring := "stage".
Definition SourcePipeline : gostring := "pipeline".
Definition SourceFlag : gostring := "flag".
Definition SourceTable : gostring := "table".
Definition SourceLegacy : gostring := "legacy-default".
Definition SourceClaudeDefault : gostring := "claude-default".

Record EffortPlan := MkEffortPlan { ep_Env : gostring; ep_Table : option EffortDefaults; ep_Source : gostring; ep_Resolved : gostring; ep_FromFamily : bool; ep_Arg : gostring }.

Section effort.
Context (canonical : gostring -> gostring * bool) (family : gostring -> gostring).

(** Defaults.For *)
Definition Effort_For (d : EffortDefaults) (model : gostring) : gostring * bool :=
  let c := fst (canonical model) in
  let f := family c in
  if (c <>s "") && (f <>s "") then
    match ed_Defaults d !! f with Some l => (l, true) | None => (ed_Fallback d, false) end
  else (ed_Fallback d, false).

(** ArgPlan, Decide *)
Definition ArgPlan (level source : gostring) : EffortPlan :=
  if level =s "" then MkEffortPlan [] None SourceClaudeDefault [] false [] else MkEffortPlan [] None source level false level.
Definition Decide (explicit source : gostring) (table : option EffortDefaults) (model : gostring) : EffortPlan :=
  if explicit <>s "" then MkEffortPlan explicit table source explicit false []
  else match table with
       | Some t => let '(level, fromFamily) := Effort_For t model in MkEffortPlan [] table SourceTable level fromFamily []
       | None => MkEffortPlan LegacyDefault None SourceLegacy LegacyDefault false []
       end.

(** Unattributed, Observed *)
Definition Unattributed (p : EffortPlan) (launchModel : gostring) : bool :=
  (ep_Source p =s SourceTable) && bool_decide (is_Some (ep_Table p)) && (launchModel =s "").
Definition Observed (p : EffortPlan) (launchModel ran : gostring) : EffortPlan :=
  match ep_Table p with
  | Some t =>
      if Unattributed p launchModel && (ran <>s "") then
        let '(level, fromFamily) := Effort_For t ran in MkEffortPlan (ep_Env p) (ep_Table p) (ep_Source p) level fromFamily (ep_Arg p)
      else p
  | None => p
  end.
End effort.

(** ArgEntries, EnvEntries *)
Definition ArgEntries (p : EffortPlan) : list gostring := if ep_Arg p =s "" then [] else [bs "--effort"; ep_Arg p].
Definition EnvEntries (p : EffortPlan) : list gostring := if ep_Env p =s "" then [] else ["CLAUDE_CODE_EFFORT_LEVEL=" ++ ep_Env p].

(** EffectiveEffort: the level and its source; [None] is an error. *)
Definition EffectiveEffort (s : PSpec) (stageName : gostring) (stepIdx : nat) (flag : gostring) : option (gostring * gostring) :=
  match stageMap s stageName with
  | None => None
  | Some stage =>
      match sg_Chain stage !! stepIdx with
      | None => None
      | Some step =>
          Some (if sp_Effort step <>s "" then (sp_Effort step, SourceStep)
                else if sg_Effort stage <>s "" then (sg_Effort stage, SourceStage)
                else if pl_Effort s <>s "" then (pl_Effort s, SourcePipeline)
                else if flag <>s "" then (flag, SourceFlag)
                else ([], []))
      end
  end.

(** EffortErrors: where a level is refused. *)
Definition EffortErrors (s : PSpec) : list (Location * gostring) :=
  let check location level := if CheckLevel level then [] else [(location, level)] in
  check LPipeline (pl_Effort s) ++
  (pl_stages s ≫= fun st => check (LStage (sg_Name st)) (sg_Effort st) ++
     mjoin (imap (fun i step => check (LStep (sg_Name st) i (sp_Skill step)) (sp_Effort step)) (sg_Chain st))).

(** StageEffortConflicts *)
Definition StageEffortConflicts (s : PSpec) : list StageConflict :=
  pl_stages s ≫= fun st => conflicts (fun i => fst <$> EffectiveEffort s (sg_Name st) i []) st.

(** ** Before a run *)

Inductive Stat := StatOK | StatAbsent | StatFailed.

(** Preflight: [None] passes; the paths that are missing, or a failure to look. *)
Fixpoint preflight_paths (stat : gostring -> Stat) (missing : list gostring) (paths : list gostring) : option (option (list gostring)) :=
  match paths with
  | [] => if bool_decide (missing = []) then None else Some (Some missing)
  | rel :: rest =>
      match stat rel with
      | StatOK => preflight_paths stat missing rest
      | StatAbsent => preflight_paths stat (missing ++ [rel]) rest
      | StatFailed => Some None
      end
  end.
Definition Preflight (stat : gostring -> Stat) (s : PSpec) (ext : option Extensions) : option (option (list gostring)) :=
  preflight_paths stat [] (pl_Files s ++ (cf_Path <$> filter (fun cf => anyEnabled ext (cf_ExtensionsAny cf) = true) (pl_ConditionalFiles s))).

(** PreflightSkills: the names that resolve to nothing; [plugins] is a resolver of plugin
    skills, when there is one, and [resolves] looks for a SKILL.md. *)
Definition skill_step (plugins : option (gostring -> bool)) (resolves : gostring -> bool) (acc : list gostring * list gostring) (name : gostring) : list gostring * list gostring :=
  let '(seen, missing) := acc in
  if (name =s "") || slices_Contains seen name then acc
  else
    let found := match plugins with
                 | Some p => if Contains name ":" then p name else resolves name
                 | None => resolves name
                 end in
    (name :: seen, if found then missing else missing ++ [name]).
Definition PreflightSkills (plugins : option (gostring -> bool)) (resolves : gostring -> bool) (s : PSpec) : list gostring :=
  snd (foldl (skill_step plugins resolves) ([], []) (pl_stages s ≫= fun st => sg_Chain st ≫= fun step => [sp_Skill step; sp_Agent step])).

(** validateFromStage *)
Definition validateFromStage (s : PSpec) (name : gostring) : bool := existsb (fun st => sg_Name st =s name) (pl_stages s).
