(* ===== verification/PipelineRun.v ===== *)
(** A run of a pipeline (internal/pipeline): the line that is typed for a step
    (interactive.go, repl/deliver.go), the run's manifest (manifest.go,
    manifest_writer.go), commits at their boundaries, the stages with a session each, and
    the whole run with its gates and its end (runner.go, interactive.go). What a run does is
    recorded act by act; the sessions, git and the file system are the host's. *)
From Stdlib Require Import SpecFloat.
From S2P Require Import Prelude Regex Markdown Spec Shell Domains Duration Prices Pipeline.

(** ** Errors *)

(** An error is the chain errors.Is and errors.As walk. *)
Inductive Layer := LText | LLimit (kind : gostring) | LIdle | LMaxDuration | LTerminalAPI | LAuthLost | LNotSubmitted | LNotReady | LCanceled | LDeadline.
#[export] Instance Layer_eq : EqDecision Layer.
Proof. solve_decision. Defined.
Definition EChain : Type := list Layer.
Definition errors_Is (e : EChain) (x : Layer) : bool := bool_decide (x ∈ e).
Definition wrap (e : EChain) : EChain := LText :: e.
Definition is_err (e : option EChain) (x : Layer) : bool := match e with Some e => errors_Is e x | None => false end.

(** notReady *)
Definition notReady (runErr : option EChain) : bool := is_err runErr LNotReady && negb (is_err runErr LCanceled).

(** newTerminationRecord: the kind it records. *)
Definition limit_kind (e : EChain) : option gostring := head (omap (fun l => match l with LLimit k => Some k | _ => None end) e).
Definition newTerminationRecord (runErr : option EChain) : option gostring :=
  match runErr with
  | None => None
  | Some e =>
      Some (match limit_kind e with
            | Some k => k
            | None =>
                if errors_Is e LIdle then bs "idle_timeout"
                else if errors_Is e LMaxDuration then bs "max_duration"
                else if errors_Is e LAuthLost then bs "auth_lost"
                else if errors_Is e LTerminalAPI then bs "api_error"
                else if errors_Is e LNotSubmitted then bs "prompt_not_submitted"
                else if notReady runErr then bs "repl_not_ready"
                else if errors_Is e LCanceled || errors_Is e LDeadline then bs "cancelled"
                else bs "error"
            end)
  end.
(** TerminationKind *)
Definition TerminationKind (runErr : option EChain) : gostring := default [] (newTerminationRecord runErr).

(** ResumeLine *)
Definition ResumeLine (kind what command : gostring) : gostring :=
  let then_ : gostring := if (kind =s "usage_limit") || (kind =s "usage_guard") then "then, after the reset," else "then" in
  "resume: `ape status` shows where " ++ what ++ " stopped; " ++ then_ ++ " `" ++ command ++ "`".

(** ** The line that is typed *)

Definition TypedLineBudget : nat := 700.

(** FitsTypedLine *)
Definition FitsTypedLine (line : gostring) : bool := (length (runes line) <=? TypedLineBudget)%nat.

(** unicode.IsControl *)
Definition IsControl (r : Z) : bool := between 0 31 r || between 127 159 r.

(** TypesVerbatim *)
Fixpoint types_verbatim (prevSpace : bool) (rs : list Z) : bool :=
  match rs with
  | [] => true
  | r :: rs' =>
      if (r =? 32)%Z then if prevSpace then false else types_verbatim true rs'
      else if IsControl r then false else types_verbatim false rs'
  end.
Definition TypesVerbatim (text : gostring) : bool := types_verbatim false (runes text).

(** ArgsPointer *)
Definition ArgsPointer (path : gostring) : gostring :=
  "The arguments for this run are in " ++ path ++ ": read that file and treat its contents as if they were written here.".

Definition flagAutonomous : gostring := "--autonomous".

(** assembleInteractivePromptLine *)
Definition assembleInteractivePromptLine (effAgent : gostring) (step : PStep) (prompt : gostring) : gostring :=
  let promptParts :=
    if effAgent <>s "" then ["/" ++ effAgent; flagAutonomous; bs "--"; sp_Skill step; flagAutonomous]
    else ["/" ++ sp_Skill step; flagAutonomous] ++ (if sp_ExplicitNoCommit step then [] else [bs "--no-commit"]) in
  Join (promptParts ++ Fields (sp_Args step) ++ (if (sp_PromptFlag step <>s "") && (prompt <>s "") then [sp_PromptFlag step; prompt] else [])) " ".

(** splitLeadingNoCommit, startsWithSpace *)
Definition startsWithSpace (s : gostring) : bool := existsb (HasPrefix s) spaces.
Definition splitLeadingNoCommit (args : gostring) : gostring * gostring :=
  let '(after, ok) := CutPrefix (TrimLeft args spaces) "--no-commit" in
  if ok && ((after =s "") || startsWithSpace after) then (bs "--no-commit", TrimSpace after) else ([], TrimSpace args).

(** stepLine: the line, and the text its arguments go to a file with. *)
Definition stepLine (effAgent : gostring) (step : PStep) (prompt argsPath : gostring) : gostring * option gostring :=
  let line := assembleInteractivePromptLine effAgent step prompt in
  if argsPath =s "" then (line, None)
  else
    let '(keep, rest) := splitLeadingNoCommit (sp_Args step) in
    let withPrompt := (sp_PromptFlag step <>s "") && (prompt <>s "") in
    let verbatim := TypesVerbatim rest && (negb withPrompt || TypesVerbatim prompt) in
    if FitsTypedLine line && verbatim then (line, None)
    else
      let parts := (if rest <>s "" then [rest] else []) ++ (if withPrompt then [sp_PromptFlag step ++ " " ++ prompt] else []) in
      if bool_decide (parts = []) then (line, None)
      else
        let short := MkPStep (sp_Skill step) (sp_Agent step) (sp_Model step) (sp_Effort step) keep [] (sp_ExplicitNoCommit step)
                       (sp_Commit step) (sp_CommitSet step) (sp_NoClear step) (sp_RequiresExtensions step) in
        (assembleInteractivePromptLine effAgent short [] ++ " " ++ ArgsPointer argsPath, Some (Join parts " " ++ [nl])).

(** buildInteractiveArgv; [None] without a binary. *)
Definition buildInteractiveArgv (claudeBin model : gostring) (prependFlags : list gostring) : option (list gostring) :=
  if claudeBin =s "" then None
  else Some (claudeBin :: prependFlags ++ [bs "--dangerously-skip-permissions"] ++ (if model <>s "" then [bs "--model"; model] else [])).

(** SessionMarkerEnv, LaunchEnv (internal/repl/repl.go) *)
Definition SessionMarkerEnv (kind runID : gostring) : list gostring := ["APE_SESSION=" ++ kind ++ "/" ++ runID].
Definition LaunchEnv (model explicitEffort : gostring) : list gostring :=
  (if model <>s "" then ["APE_SESSION_MODEL=" ++ model] else []) ++ (if explicitEffort <>s "" then ["APE_SESSION_EFFORT=" ++ explicitEffort] else []).

(** sanitizeSessionName *)
Definition session_byte (c : byte) : byte := if slices_Contains [[x20]; [x3a]; [x2e]; [x27]; [x22]; [x2f]] [c] then x2d else c.
Definition sanitizeSessionName (s : gostring) : gostring := session_byte <$> s.

(** %02d *)
Definition two_digits (n : nat) : gostring := if (n <? 10)%nat then "0" ++ ItoaN n else ItoaN n.
(** stepFileStem *)
Definition stepFileStem (stageIdx stepIdx : nat) (stageName skill : gostring) : gostring :=
  filepath_Join (filepath_Join "stages" (two_digits stageIdx ++ "-" ++ sanitizeFsName stageName)) ("step-" ++ two_digits stepIdx ++ "-" ++ sanitizeFsName skill).

(** ** The manifest *)

Inductive RunStatus := StatusRunning | StatusCompleted | StatusFailed | StatusCancelled | StatusSkipped.
#[export] Instance RunStatus_eq : EqDecision RunStatus.
Proof. solve_decision. Defined.
Inductive CommitStatus := CommitStatusEmpty | CommitStatusCommitted | CommitStatusNoOp | CommitStatusSkippedByFlag | CommitStatusSkippedBySpec
  | CommitStatusSkippedStepFailed | CommitStatusSkippedCancelled | CommitStatusFailed | CommitStatusDeferredToStage.
#[export] Instance CommitStatus_eq : EqDecision CommitStatus.
Proof. solve_decision. Defined.

(** ModelUsage *)
Record ModelUsage := MkModelUsage { mu_CostUSD : spec_float; mu_Input : Z; mu_Output : Z; mu_CacheRead : Z; mu_CacheCreation : Z; mu_5m : Z; mu_1h : Z; mu_NumTurns : Z }.
Definition no_usage : ModelUsage := MkModelUsage fzero 0 0 0 0 0 0 0.
(** The field-by-field += of RecordStep. *)
Definition usage_add (t u : ModelUsage) : ModelUsage :=
  MkModelUsage (fadd (mu_CostUSD t) (mu_CostUSD u)) (wrap64 (mu_Input t + mu_Input u)) (wrap64 (mu_Output t + mu_Output u)) (wrap64 (mu_CacheRead t + mu_CacheRead u))
    (wrap64 (mu_CacheCreation t + mu_CacheCreation u)) (wrap64 (mu_5m t + mu_5m u)) (wrap64 (mu_1h t + mu_1h u)) (wrap64 (mu_NumTurns t + mu_NumTurns u)).

Record SessionUsage := MkSessionUsage { su_SessionID : gostring; su_ParentSessionID : gostring; su_Usage : ModelUsage; su_ModelUsage : gmap gostring ModelUsage }.
Record StepTelemetry := MkStepTelemetry { te_Usage : ModelUsage; te_ModelUsage : gmap gostring ModelUsage; te_Sessions : list SessionUsage }.

(** A step's record; its times are the clock's. *)
Record StepRecord := MkStepRecord { sr_Index : nat; sr_Skill : gostring; sr_Agent : gostring; sr_Args : gostring; sr_Prompt : gostring; sr_Model : gostring; sr_ModelDeclared : gostring;
  sr_Effort : gostring; sr_EffortDeclared : gostring; sr_EffortSource : gostring; sr_Status : RunStatus; sr_Skip : option Skip; sr_ExitCode : Z;
  sr_Usage : ModelUsage; sr_ModelUsage : gmap gostring ModelUsage; sr_CommitSHA : gostring; sr_CommitMessage : gostring; sr_CommitStatus : CommitStatus }.
Record StageRecord := MkStageRecord { gr_Index : nat; gr_Name : gostring; gr_Status : RunStatus; gr_Skip : option Skip; gr_Steps : list StepRecord }.
Record ManifestTotals := MkManifestTotals { mt_Usage : ModelUsage; mt_TokensTotal : Z; mt_StepsRun : nat; mt_StepsFailed : nat; mt_StepsSkipped : nat; mt_StagesSkipped : nat;
  mt_CommitsMade : nat; mt_ModelUsage : gmap gostring ModelUsage }.
Record Manifest := MkManifest { mf_Status : RunStatus; mf_Totals : ManifestTotals; mf_Stages : list StageRecord; mf_Termination : option gostring }.

(** newManifestWriter *)
Definition new_manifest : Manifest := MkManifest StatusRunning (MkManifestTotals no_usage 0 0 0 0 0 0 ∅) [] None.

Definition with_index (i : nat) (r : StepRecord) : StepRecord :=
  MkStepRecord i (sr_Skill r) (sr_Agent r) (sr_Args r) (sr_Prompt r) (sr_Model r) (sr_ModelDeclared r) (sr_Effort r) (sr_EffortDeclared r) (sr_EffortSource r) (sr_Status r)
    (sr_Skip r) (sr_ExitCode r) (sr_Usage r) (sr_ModelUsage r) (sr_CommitSHA r) (sr_CommitMessage r) (sr_CommitStatus r).
Definition with_commit (sha message : gostring) (status : CommitStatus) (r : StepRecord) : StepRecord :=
  MkStepRecord (sr_Index r) (sr_Skill r) (sr_Agent r) (sr_Args r) (sr_Prompt r) (sr_Model r) (sr_ModelDeclared r) (sr_Effort r) (sr_EffortDeclared r) (sr_EffortSource r) (sr_Status r)
    (sr_Skip r) (sr_ExitCode r) (sr_Usage r) (sr_ModelUsage r) sha message status.
Definition with_steps (f : list StepRecord -> list StepRecord) (g : StageRecord) : StageRecord :=
  MkStageRecord (gr_Index g) (gr_Name g) (gr_Status g) (gr_Skip g) (f (gr_Steps g)).
Definition with_stages (f : list StageRecord -> list StageRecord) (m : Manifest) : Manifest := MkManifest (mf_Status m) (mf_Totals m) (f (mf_Stages m)) (mf_Termination m).
Definition with_totals (f : ManifestTotals -> ManifestTotals) (m : Manifest) : Manifest := MkManifest (mf_Status m) (f (mf_Totals m)) (mf_Stages m) (mf_Termination m).

(** BeginStage: its index, from one. *)
Definition BeginStage (name : gostring) (m : Manifest) : Manifest * nat :=
  let idx := (length (mf_Stages m) + 1)%nat in
  (with_stages (fun l => l ++ [MkStageRecord idx name StatusRunning None []]) m, idx).

(** skippedStepRecord *)
Definition skippedStepRecord (step : PStep) (agent : gostring) (skip : Skip) : StepRecord :=
  MkStepRecord 0 (sp_Skill step) agent (sp_Args step) [] [] [] [] [] [] StatusSkipped (Some skip) 0 no_usage ∅ [] [] CommitStatusEmpty.

(** RecordSkippedStage *)
Definition RecordSkippedStage (name : gostring) (skip : Skip) (steps : list StepRecord) (m : Manifest) : Manifest :=
  let idx := (length (mf_Stages m) + 1)%nat in
  with_totals (fun t => MkManifestTotals (mt_Usage t) (mt_TokensTotal t) (mt_StepsRun t) (mt_StepsFailed t) (mt_StepsSkipped t + length steps) (mt_StagesSkipped t + 1)
                          (mt_CommitsMade t) (mt_ModelUsage t))
    (with_stages (fun l => l ++ [MkStageRecord idx name StatusSkipped (Some skip) (imap (fun i r => with_index (i + 1) r) steps)]) m).

(** A record appended to a stage that is running; nothing where the index is not valid. *)
Definition append_step (stageIdx : nat) (rec : StepRecord) (m : Manifest) : Manifest :=
  with_stages (alter (with_steps (fun steps => steps ++ [with_index (length steps + 1) rec])) (stageIdx - 1)) m.
Definition valid_stage (stageIdx : nat) (m : Manifest) : bool := (1 <=? stageIdx)%nat && (stageIdx <=? length (mf_Stages m))%nat.

(** RecordSkippedStep *)
Definition RecordSkippedStep (stageIdx : nat) (rec : StepRecord) (m : Manifest) : Manifest :=
  if negb (valid_stage stageIdx m) then m
  else with_totals (fun t => MkManifestTotals (mt_Usage t) (mt_TokensTotal t) (mt_StepsRun t) (mt_StepsFailed t) (mt_StepsSkipped t + 1) (mt_StagesSkipped t) (mt_CommitsMade t) (mt_ModelUsage t))
         (append_step stageIdx rec m).

(** RecordStep *)
Definition add_model (totals : gmap gostring ModelUsage) (mu : gmap gostring ModelUsage) : gmap gostring ModelUsage :=
  merge (fun t u => match u with Some u => Some (usage_add (default no_usage t) u) | None => t end) totals mu.
Definition RecordStep (stageIdx : nat) (rec : StepRecord) (m : Manifest) : Manifest :=
  if negb (valid_stage stageIdx m) then m
  else with_totals (fun t => MkManifestTotals (usage_add (mt_Usage t) (sr_Usage rec))
           (wrap64 (mt_TokensTotal t + (mu_Input (sr_Usage rec) + mu_Output (sr_Usage rec) + mu_CacheRead (sr_Usage rec) + mu_CacheCreation (sr_Usage rec))))
           (mt_StepsRun t + 1) (if bool_decide (sr_Status rec = StatusFailed) then mt_StepsFailed t + 1 else mt_StepsFailed t)%nat (mt_StepsSkipped t) (mt_StagesSkipped t)
           (mt_CommitsMade t) (add_model (mt_ModelUsage t) (sr_ModelUsage rec)))
         (append_step stageIdx rec m).

(** RecordStepCommit *)
Definition RecordStepCommit (stageIdx stepIdx : nat) (sha message : gostring) (status : CommitStatus) (m : Manifest) : Manifest :=
  if negb (valid_stage stageIdx m) then m
  else match mf_Stages m !! (stageIdx - 1)%nat with
       | None => m
       | Some stage =>
           if negb ((1 <=? stepIdx)%nat && (stepIdx <=? length (gr_Steps stage))%nat) then m
           else with_totals (fun t => MkManifestTotals (mt_Usage t) (mt_TokensTotal t) (mt_StepsRun t) (mt_StepsFailed t) (mt_StepsSkipped t) (mt_StagesSkipped t)
                  (if bool_decide (status = CommitStatusCommitted) then mt_CommitsMade t + 1 else mt_CommitsMade t)%nat (mt_ModelUsage t))
                (with_stages (alter (with_steps (alter (with_commit sha message status) (stepIdx - 1))) (stageIdx - 1)) m)
       end.

(** EndStage *)
Definition EndStage (stageIdx : nat) (status : RunStatus) (m : Manifest) : Manifest :=
  if negb (valid_stage stageIdx m) then m
  else with_stages (alter (fun g => MkStageRecord (gr_Index g) (gr_Name g) status (gr_Skip g) (gr_Steps g)) (stageIdx - 1)) m.

(** RecordTermination, Finalize *)
Definition RecordTermination (rec : option gostring) (m : Manifest) : Manifest :=
  match rec with Some k => MkManifest (mf_Status m) (mf_Totals m) (mf_Stages m) (Some k) | None => m end.
Definition Finalize (status : RunStatus) (m : Manifest) : Manifest := MkManifest status (mf_Totals m) (mf_Stages m) (mf_Termination m).

(** mainSessionModel: the model with the most turns of the first main session. *)
Definition best_model (acc : gostring * Z) (kv : gostring * ModelUsage) : gostring * Z :=
  let '(best, turns) := acc in
  let '(model, u) := kv in
  if ((turns <? mu_NumTurns u)%Z || ((mu_NumTurns u =? turns)%Z && str_leb model best && (model <>s best))) then (model, mu_NumTurns u) else acc.
Definition mainSessionModel (ev : option StepTelemetry) : gostring :=
  match ev with
  | None => []
  | Some t =>
      match List.find (fun s => su_ParentSessionID s =s "") (te_Sessions t) with
      | Some s => fst (foldl best_model ([], (-1)%Z) (map_to_list (su_ModelUsage s)))
      | None => []
      end
  end.

(** ** The run *)

Record RunOptions := MkRunOptions { ro_ProjectRoot : gostring; ro_Prompt : gostring; ro_ClaudeBin : gostring; ro_Effort : gostring; ro_EffortTable : option EffortDefaults;
  ro_EffortAsArg : bool; ro_EffortSource : gostring; ro_SpawnEnv : list gostring; ro_SessionKind : gostring; ro_PrependFlags : list gostring;
  ro_StagePrependFlags : gmap gostring (list gostring); ro_NoCommit : bool; ro_AllowDirty : bool; ro_FromStage : gostring; ro_IgnoreExtensions : bool;
  ro_Extensions : option Extensions; ro_DisableManifest : bool }.

(** PrependForStage *)
Definition PrependForStage (opts : RunOptions) (stageName : gostring) : list gostring := default (ro_PrependFlags opts) (ro_StagePrependFlags opts !! stageName).

(** What a run does to the world: sessions spawned and killed, lines delivered to them, files
    of arguments, commits that landed. *)
Inductive RunAct :=
| ASpawn (session : gostring) (argv env : list gostring)
| AKill (session : gostring)
| AClear (session : gostring)
| ADeliver (session line : gostring)
| AArgs (path text : gostring)
| ACommit (message : gostring).

(** The host: each is asked at a stage and a step. [rh_Cause] is why the session's context
    ended, when it has. *)
Record RunHost := MkRunHost {
  rh_PID : Z; rh_RunDir : gostring; rh_RunID : gostring;
  rh_New : gostring -> option EChain; rh_Ready : gostring -> option EChain;
  rh_Clear : gostring -> nat -> option EChain; rh_Settle : gostring -> nat -> option EChain;
  rh_WriteArgs : gostring -> option EChain; rh_Deliver : gostring -> nat -> option EChain; rh_Wait : gostring -> nat -> option EChain;
  rh_Cause : gostring -> nat -> option EChain; rh_Telemetry : gostring -> nat -> option StepTelemetry;
  rh_GitStatus : gostring -> nat -> EChain + gostring; rh_Add : gostring -> nat -> option EChain; rh_Scan : gostring -> nat -> option EChain;
  rh_GitCommit : gostring -> nat -> option EChain; rh_Head : gostring -> nat -> EChain + gostring;
  rh_Resolved : option (list gostring); rh_Stat : gostring -> Stat; rh_Plugins : option (gostring -> bool); rh_Skill : gostring -> bool;
  rh_GitAvailable : option EChain; rh_Porcelain : EChain + gostring; rh_Manifest : option EChain; rh_BeforeSpawn : option EChain }.

Record RunWorld := MkRunWorld { rw_acts : list RunAct; rw_mw : option Manifest }.
Definition R (A : Type) : Type := RunWorld -> RunWorld * A.
#[export] Instance R_ret : MRet R := fun A x w => (w, x).
#[export] Instance R_bind : MBind R := fun A B f m w => let '(w', x) := m w in f x w'.
Definition ract (a : RunAct) : R unit := fun w => (MkRunWorld (rw_acts w ++ [a]) (rw_mw w), tt).
(** A call of the manifest's writer, when there is one. *)
Definition mw (f : Manifest -> Manifest) : R unit := fun w => (MkRunWorld (rw_acts w) (f <$> rw_mw w), tt).

Section run.
Context (canonical : gostring -> gostring * bool) (family : gostring -> gostring) (H : RunHost) (spec : PSpec) (opts : RunOptions).

(** gitCommit: the message and the SHA; a commit that landed may still be an error. *)
Definition gitCommit (stage : gostring) (i : nat) (message : gostring) : R (EChain + gostring) :=
  match rh_Scan H stage i with
  | Some e => mret (inl (wrap e))
  | None =>
      match rh_GitCommit H stage i with
      | Some e => mret (inl (wrap e))
      | None => _ ← ract (ACommit message); mret (match rh_Head H stage i with inl e => inl (wrap e) | inr sha => inr sha end)
      end
  end.

Record CommitOutcome := MkOutcome { oc_Status : CommitStatus; oc_Message : gostring; oc_SHA : gostring; oc_Err : option EChain }.

(** attemptCommit *)
Definition attemptCommit (stage : gostring) (i : nat) (message : gostring) : R CommitOutcome :=
  match rh_GitStatus H stage i with
  | inl e => mret (MkOutcome CommitStatusFailed message [] (Some (wrap e)))
  | inr porcelain =>
      if porcelain =s "" then mret (MkOutcome CommitStatusNoOp message [] None)
      else match rh_Add H stage i with
           | Some e => mret (MkOutcome CommitStatusFailed message [] (Some (wrap e)))
           | None =>
               r ← gitCommit stage i message;
               mret (match r with
                     | inl e => MkOutcome CommitStatusFailed message [] (Some e)
                     | inr sha => MkOutcome CommitStatusCommitted message sha None
                     end)
           end
  end.

(** resolveCommitOutcome; [stepIdx] is from zero. *)
Definition resolveCommitOutcome (stage : gostring) (plan : StageCommitPlan) (stepIdx : nat) (isLastStep : bool) (stepRunErr : option EChain) : R CommitOutcome :=
  if is_err stepRunErr LCanceled || is_err stepRunErr LDeadline then mret (MkOutcome CommitStatusSkippedCancelled [] [] None)
  else if bool_decide (is_Some stepRunErr) then mret (MkOutcome CommitStatusSkippedStepFailed [] [] None)
  else if ro_NoCommit opts then mret (MkOutcome CommitStatusSkippedByFlag [] [] None)
  else if cp_Suppressed plan then mret (MkOutcome CommitStatusSkippedBySpec [] [] None)
  else match cp_StepDirectives plan !! stepIdx with
       | Some dir => attemptCommit stage stepIdx (cd_Message dir)
       | None =>
           match cp_StageDirective plan with
           | Some dir => if negb isLastStep then mret (MkOutcome CommitStatusDeferredToStage [] [] None) else attemptCommit stage stepIdx (cd_Message dir)
           | None => mret (MkOutcome CommitStatusEmpty [] [] None)
           end
       end.

(** performStepCommit *)
Definition performStepCommit (stage : gostring) (plan : StageCommitPlan) (stageIdx stepIdx : nat) (isLastStep : bool) (stepRunErr : option EChain) : R (option EChain) :=
  o ← resolveCommitOutcome stage plan stepIdx isLastStep stepRunErr;
  _ ← mw (RecordStepCommit stageIdx (stepIdx + 1) (oc_SHA o) (oc_Message o) (oc_Status o));
  mret (oc_Err o).

(** recordStep *)
Definition recordStep (stageIdx : nat) (step : PStep) (run declared : gostring) (plan : EffortPlan) (effortDeclared : gostring) (status : RunStatus) (exitCode : Z) (ev : option StepTelemetry) : R unit :=
  let observed := Observed canonical family plan run (mainSessionModel ev) in
  mw (RecordStep stageIdx (MkStepRecord 0 (sp_Skill step) (sp_Agent step) (sp_Args step) (ro_Prompt opts) run declared (ep_Resolved observed) effortDeclared (ep_Source observed)
       status None exitCode (default no_usage (te_Usage <$> ev)) (default ∅ (te_ModelUsage <$> ev)) [] [] CommitStatusEmpty)).

(** recordStoppedStep *)
Definition recordStoppedStep (stage : gostring) (stageIdx i : nat) (step : PStep) (run declared : gostring) (plan : EffortPlan) (waitErr : EChain) : R unit :=
  recordStep stageIdx step run declared plan [] (if errors_Is waitErr LCanceled then StatusCancelled else StatusFailed) 1 (rh_Telemetry H stage i).

(** The error a session's wait is reported with: its cause, when it was cancelled. *)
Definition caused (stage : gostring) (i : nat) (e : EChain) : EChain := if errors_Is e LCanceled then default e (rh_Cause H stage i) else e.

(** What a stage is run with. *)
Record StageRun := MkStageRun { ru_Stage : Stage; ru_Session : gostring; ru_First : nat; ru_Last : nat; ru_Model : gostring; ru_Effort : EffortPlan; ru_Plan : StageCommitPlan; ru_Index : nat }.

(** StepArgsPath, where there is a run's directory. *)
Definition step_args_path (u : StageRun) (i : nat) (step : PStep) (w : RunWorld) : gostring :=
  match rw_mw w with
  | Some _ => filepath_Join (rh_RunDir H) (stepFileStem (ru_Index u) (i + 1) (sg_Name (ru_Stage u)) (sp_Skill step) ++ ".args.md")
  | None => []
  end.
Definition effectiveAgent (stage : gostring) (i : nat) : gostring := match Effective canonical spec stage i with Some e => ef_agent e | None => [] end.

(** One step of the chain: [None] goes on to the next one, an error ends the stage. *)
Definition run_step (u : StageRun) (i : nat) (step : PStep) : R (option EChain) :=
  let name := sg_Name (ru_Stage u) in
  match Effective canonical spec name i with
  | None => mret (Some [LText])
  | Some e =>
      let declared0 := if ef_model e =s "" then sp_Model step else ef_model e in
      let effAgent := if ef_agent e =s "" then sp_Agent step else ef_agent e in
      let declared := if declared0 =s ru_Model u then [] else declared0 in
      cleared ← (if (ru_First u <? i)%nat && negb (sp_NoClear step) then
                   match rh_Clear H name i with
                   | Some err => mret (Some (wrap err))
                   | None => _ ← ract (AClear (ru_Session u)); mret (rh_Settle H name i)
                   end
                 else mret None);
      match cleared with
      | Some err => mret (Some err)
      | None =>
          path ← (fun w => (w, step_args_path u i step w));
          let '(line, spilled) := stepLine effAgent step (ro_Prompt opts) path in
          written ← (match spilled with
                     | None => mret None
                     | Some text => match rh_WriteArgs H path with Some err => mret (Some (wrap err)) | None => _ ← ract (AArgs path text); mret None end
                     end);
          match written with
          | Some err => mret (Some (wrap err))
          | None =>
              match rh_Deliver H name i with
              | Some err => mret (Some (wrap (caused name i err)))
              | None =>
                  _ ← ract (ADeliver (ru_Session u) line);
                  match rh_Wait H name i with
                  | Some err =>
                      let waitErr := caused name i err in
                      _ ← recordStoppedStep name (ru_Index u) i step (ru_Model u) declared (ru_Effort u) waitErr;
                      mret (Some (wrap waitErr))
                  | None =>
                      let effortDeclared := match EffectiveEffort spec name i (ro_Effort opts) with
                                            | Some (d, _) => if (d <>s "") && (d <>s ep_Resolved (ru_Effort u)) then d else []
                                            | None => []
                                            end in
                      _ ← recordStep (ru_Index u) step (ru_Model u) declared (ru_Effort u) effortDeclared StatusCompleted 0 (rh_Telemetry H name i);
                      commitErr ← performStepCommit name (ru_Plan u) (ru_Index u) i (bool_decide (i = ru_Last u)) None;
                      mret (wrap <$> commitErr)
                  end
              end
          end
      end
  end.

(** The loop over the chain: [inr] an error or none, [inl] an index out of range, which
    panics. *)
Fixpoint run_chain (u : StageRun) (skips : list (option Skip)) (i : nat) (chain : list PStep) : R (unit + option EChain) :=
  match chain with
  | [] => mret (inr None)
  | step :: rest =>
      match skips !! i with
      | None => mret (inl tt)
      | Some (Some skip) =>
          _ ← mw (RecordSkippedStep (ru_Index u) (skippedStepRecord step (effectiveAgent (sg_Name (ru_Stage u)) i) skip));
          run_chain u skips (S i) rest
      | Some None =>
          err ← run_step u i step;
          match err with
          | Some e => mret (inr (Some e))
          | None => run_chain u skips (S i) rest
          end
      end
  end.

(** sessionKind, runIDOf *)
Definition sessionKind : gostring := if ro_SessionKind opts =s "" then "pipeline" else ro_SessionKind opts.
Definition runIDOf (w : RunWorld) : gostring := match rw_mw w with Some _ => if rh_RunID H <>s "" then rh_RunID H else pl_Name spec | None => pl_Name spec end.

Definition failed (e : option EChain) : RunStatus * option EChain := (match e with Some _ => StatusFailed | None => StatusCompleted end, e).

(** runStageInteractive: the status and the error; [inl] is a panic. The session that was
    spawned is killed however the stage ends. *)
Definition runStageInteractive (stage : Stage) (skips : StageSkips) (stageIdx : nat) : R (unit + (RunStatus * option EChain)) :=
  let name := sg_Name stage in
  if bool_decide (sg_Chain stage = []) then mret (inr (StatusCompleted, None))
  else match firstRun skips, lastRun skips with
       | Some first, Some last =>
           match sg_Chain stage !! first with
           | None => mret (inl tt)
           | Some firstStep =>
               match Effective canonical spec name first, EffectiveEffort spec name first (ro_Effort opts) with
               | Some e, Some (explicitEffort, effortSource) =>
                   let firstModel := if ef_model e =s "" then sp_Model firstStep else ef_model e in
                   let effortPlan :=
                     if ro_EffortAsArg opts then
                       let p := ArgPlan explicitEffort effortSource in
                       if ro_EffortSource opts <>s "" then MkEffortPlan (ep_Env p) (ep_Table p) (ro_EffortSource opts) (ep_Resolved p) (ep_FromFamily p) (ep_Arg p) else p
                     else Decide canonical family explicitEffort effortSource (ro_EffortTable opts) firstModel in
                   match planStageCommits canonical spec name (ss_Steps skips) with
                   | None => mret (inr (failed (Some [LText])))
                   | Some plan =>
                       match buildInteractiveArgv (ro_ClaudeBin opts) firstModel (PrependForStage opts name) with
                       | None => mret (inr (failed (Some [LText])))
                       | Some argv =>
                           id ← (fun w => (w, runIDOf w));
                           let env := EnvEntries effortPlan ++ SessionMarkerEnv sessionKind id ++ LaunchEnv firstModel explicitEffort ++ ro_SpawnEnv opts in
                           let session := "ape-" ++ sanitizeSessionName name ++ "-" ++ Itoa (rh_PID H) in
                           _ ← ract (AKill session);
                           match rh_New H session with
                           | Some err => mret (inr (failed (Some (wrap err))))
                           | None =>
                               _ ← ract (ASpawn session (argv ++ ArgEntries effortPlan) env);
                               r ← (match rh_Ready H name with
                                    | Some err => mret (inr (Some (wrap err)))
                                    | None => run_chain (MkStageRun stage session first last firstModel effortPlan plan stageIdx) (ss_Steps skips) 0 (sg_Chain stage)
                                    end);
                               _ ← ract (AKill session);
                               mret (match r with inl _ => inl tt | inr e => inr (failed e) end)
                           end
                       end
                   end
               | _, _ => mret (inr (failed (Some [LText])))
               end
           end
       | _, _ => mret (inr (StatusCompleted, None))
       end.

(** recordSkippedStage; [inl] is a panic, when the plan is shorter than the chain. *)
Definition recordSkippedStage (stage : Stage) (skips : StageSkips) (skip : Skip) : R (unit + unit) := fun w =>
  if bool_decide (is_Some (rw_mw w)) && (length (ss_Steps skips) <? length (sg_Chain stage))%nat then (w, inl tt)
  else (fst (mw (RecordSkippedStage (sg_Name stage) skip
    (imap (fun i step => skippedStepRecord step (effectiveAgent (sg_Name stage) i) (default (MkSkip [] []) (mjoin (ss_Steps skips !! i)))) (sg_Chain stage))) w), inr tt).

(** runStagesInteractive *)
Fixpoint run_stages (skips : gmap gostring StageSkips) (skipping : bool) (stages : list Stage) : R (unit + option EChain) :=
  match stages with
  | [] => mret (inr None)
  | stage :: rest =>
      if skipping && (sg_Name stage <>s ro_FromStage opts) then run_stages skips true rest
      else
        let stageSkips := skips_of skips (sg_Name stage) in
        match ss_Stage stageSkips with
        | Some skip =>
            p ← recordSkippedStage stage stageSkips skip;
            match p with inl _ => mret (inl tt) | inr _ => run_stages skips false rest end
        | None =>
            stageIdx ← (fun w => (MkRunWorld (rw_acts w) (fst ∘ BeginStage (sg_Name stage) <$> rw_mw w),
                                  match rw_mw w with Some m => snd (BeginStage (sg_Name stage) m) | None => 0%nat end));
            r ← runStageInteractive stage stageSkips stageIdx;
            match r with
            | inl _ => mret (inl tt)
            | inr (status, err) =>
                _ ← mw (EndStage stageIdx status);
                match err with
                | Some e => mret (inr (Some e))
                | None => run_stages skips false rest
                end
            end
        end
  end.
Definition runStagesInteractive : R (unit + option EChain) :=
  run_stages (PlanSkips spec (ro_Extensions opts)) (ro_FromStage opts <>s "") (pl_stages spec).

(** finalizeManifest *)
Definition final_status (runErr : option EChain) : RunStatus :=
  if notReady runErr then StatusFailed
  else if is_err runErr LCanceled || is_err runErr LDeadline then StatusCancelled
  else match runErr with Some _ => StatusFailed | None => StatusCompleted end.
Definition finalizeManifest (runErr : option EChain) : R unit :=
  mw (fun m => Finalize (final_status runErr) (RecordTermination (newTerminationRecord runErr) m)).

(** pipelineWantsCommits, dirtyTreeGate *)
Definition pipelineWantsCommits : bool := if ro_NoCommit opts then false else PipelineWantsCommits canonical spec.
Definition dirtyTreeGate : option EChain :=
  if negb pipelineWantsCommits || ro_AllowDirty opts then None
  else match rh_GitAvailable H with
       | Some e => Some e
       | None =>
           match rh_Porcelain H with
           | inl e => Some e
           | inr porcelain => if porcelain =s "" then None else Some [LText]
           end
       end.
End run.

(** Run: its defaults, its gates, and the run; [inl] is a panic. *)
Definition with_extensions (opts : RunOptions) (ext : option Extensions) : RunOptions :=
  MkRunOptions (ro_ProjectRoot opts) (ro_Prompt opts) (ro_ClaudeBin opts) (ro_Effort opts) (ro_EffortTable opts) (ro_EffortAsArg opts) (ro_EffortSource opts) (ro_SpawnEnv opts)
    (ro_SessionKind opts) (ro_PrependFlags opts) (ro_StagePrependFlags opts) (ro_NoCommit opts) (ro_AllowDirty opts) (ro_FromStage opts) (ro_IgnoreExtensions opts) ext (ro_DisableManifest opts).
Definition with_defaults (opts : RunOptions) : RunOptions :=
  MkRunOptions (if ro_ProjectRoot opts =s "" then "." else ro_ProjectRoot opts) (ro_Prompt opts) (if ro_ClaudeBin opts =s "" then "claude" else ro_ClaudeBin opts) (ro_Effort opts) (ro_EffortTable opts)
    (ro_EffortAsArg opts) (ro_EffortSource opts) (ro_SpawnEnv opts) (ro_SessionKind opts) (ro_PrependFlags opts) (ro_StagePrependFlags opts) (ro_NoCommit opts) (ro_AllowDirty opts)
    (ro_FromStage opts) (ro_IgnoreExtensions opts) (ro_Extensions opts) (ro_DisableManifest opts).

(** extensionsForRun *)
Definition extensionsForRun (H : RunHost) (spec : PSpec) (opts : RunOptions) : option (option Extensions) :=
  match ro_Extensions opts with
  | Some e => Some (Some e)
  | None => ExtensionsFor (rh_Resolved H) spec (ro_IgnoreExtensions opts)
  end.

(** The gates before anything is spawned; [inr] the options the run goes on with. *)
Definition run_gates (canonical : gostring -> gostring * bool) (H : RunHost) (spec : PSpec) (opts0 : RunOptions) : EChain + RunOptions :=
  let opts := with_defaults opts0 in
  if (ro_FromStage opts <>s "") && negb (validateFromStage spec (ro_FromStage opts)) then inl [LText]
  else match extensionsForRun H spec opts with
       | None => inl [LText]
       | Some ext =>
           let opts := with_extensions opts ext in
           match Preflight (rh_Stat H) spec ext with
           | Some _ => inl [LText]
           | None =>
               if negb (bool_decide (PreflightSkills (rh_Plugins H) (rh_Skill H) spec = [])) then inl [LText]
               else match dirtyTreeGate canonical H spec opts with
                    | Some e => inl e
                    | None =>
                        match (if ro_DisableManifest opts then None else rh_Manifest H) with
                        | Some e => inl e
                        | None => inr opts
                        end
                    end
           end
       end.
Definition Run (canonical : gostring -> gostring * bool) (family : gostring -> gostring) (H : RunHost) (spec : PSpec) (opts0 : RunOptions) : RunWorld * (unit + option EChain) :=
  match run_gates canonical H spec opts0 with
  | inl e => (MkRunWorld [] None, inr (Some e))
  | inr opts =>
      let w := MkRunWorld [] (if ro_DisableManifest opts then None else Some new_manifest) in
      let '(w', r) := match rh_BeforeSpawn H with
                      | Some e => (w, inr (Some e))
                      | None => runStagesInteractive canonical family H spec opts w
                      end in
      match r with
      | inl _ => (w', inl tt)
      | inr runErr => (fst (finalizeManifest runErr w'), inr runErr)
      end
  end.
