(* ===== verification/PipelineFacts.v ===== *)
(** Theorems on pipelines: a run follows the plan its spec and its extensions give, in
    sessions that are always closed, and its manifest tells what was run and committed. *)
From Stdlib Require Import SpecFloat.
From S2P Require Import Prelude Regex Markdown Spec Shell Domains Duration Prices Pipeline PipelineRun.

(** ** Specs with stages of distinct names *)

Definition distinct_stages (s : PSpec) : Prop := NoDup (sg_Name <$> pl_stages s).

Lemma stageMap_distinct s st : distinct_stages s -> st ∈ pl_stages s -> stageMap s (sg_Name st) = Some st.
Proof.
  unfold distinct_stages, stageMap. intros HN Hin.
  destruct (List.find _ _) as [st'|] eqn:E.
  - apply List.find_some in E as [E1 E2]. rewrite <-in_rev in E1. apply list_elem_of_In in E1. apply bool_decide_eq_true in E2.
    apply list_elem_of_lookup in Hin as [i Hi]. apply list_elem_of_lookup in E1 as [j Hj].
    assert (i = j) as ->; [|congruence]. eapply NoDup_lookup; [exact HN|..]; rewrite list_lookup_fmap; [by rewrite Hi|rewrite Hj; cbn; by f_equal].
  - exfalso. eapply List.find_none in E; [|rewrite <-in_rev; apply list_elem_of_In, Hin]. cbn in E. by apply bool_decide_eq_false in E.
Qed.

Lemma PlanSkips_notin (ext : option Extensions) (stages : list Stage) (m : gmap gostring StageSkips) (name : gostring) :
  name ∉ sg_Name <$> stages -> foldl (fun m st => <[sg_Name st := plan_stage ext st]> m) m stages !! name = m !! name.
Proof.
  revert m. induction stages as [|st l IH]; intros m Hn; [done|]. cbn in *. apply not_elem_of_cons in Hn as [H1 H2].
  rewrite IH by done. by rewrite lookup_insert_ne.
Qed.

Lemma skips_distinct s ext st : distinct_stages s -> st ∈ pl_stages s -> skips_of (PlanSkips s ext) (sg_Name st) = plan_stage ext st.
Proof.
  unfold distinct_stages, PlanSkips, skips_of. generalize (∅ : gmap gostring StageSkips). induction (pl_stages s) as [|x l IH]; intros m HN Hin; [by apply elem_of_nil in Hin|].
  cbn in *. apply NoDup_cons in HN as [Hx HN]. apply elem_of_cons in Hin as [->|Hin]; [|by apply IH].
  rewrite PlanSkips_notin by done. by rewrite lookup_insert_eq.
Qed.

Lemma Effective_distinct canonical s st i step :
  distinct_stages s -> st ∈ pl_stages s -> sg_Chain st !! i = Some step -> is_Some (Effective canonical s (sg_Name st) i).
Proof. intros HN Hin Hi. unfold Effective. rewrite (stageMap_distinct s st), Hi by done. by eexists. Qed.

Lemma length_plan_stage ext st : length (ss_Steps (plan_stage ext st)) = length (sg_Chain st).
Proof. unfold plan_stage. by destruct (negb _); cbn; rewrite length_fmap. Qed.

(** ** Which steps a plan skips *)

Definition enabled (ext : option Extensions) (ids : list gostring) : Prop :=
  match ext with None => True | Some e => ex_Ignored e = true \/ forall id, id ∈ ids -> id ∈ ex_Enabled e end.

Lemma missing_spec (e ids out : list gostring) :
  foldl (fun out id => if negb (slices_Contains e id) && negb (slices_Contains out id) then out ++ [id] else out) out ids = [] <->
  out = [] /\ forall id, id ∈ ids -> id ∈ e.
Proof.
  revert out. induction ids as [|x ids IH]; intros out; cbn.
  { split; [intros ->; split; [done|intros ? []%elem_of_nil]|by intros [? _]]. }
  rewrite IH. unfold slices_Contains. setoid_rewrite elem_of_cons.
  destruct (decide (x ∈ e)) as [He|He]; [rewrite (bool_decide_true _ He); cbn; naive_solver|].
  rewrite (bool_decide_false _ He). destruct (decide (x ∈ out)) as [Ho|Ho].
  - rewrite (bool_decide_true _ Ho). cbn. split; [|naive_solver]. intros [-> _]. by apply elem_of_nil in Ho.
  - rewrite (bool_decide_false _ Ho). cbn. split; [intros [E _]; by destruct out|naive_solver].
Qed.

Lemma missing_nil ext ids : missing ext ids = [] <-> enabled ext ids.
Proof.
  unfold missing, enabled. destruct ext as [e|]; [|done]. destruct (ex_Ignored e); [by split; [left|]|].
  rewrite missing_spec. split; [intros [_ ?]; by right|]. by intros [|].
Qed.

Definition step_runs (ext : option Extensions) (st : Stage) (step : PStep) : Prop := enabled ext (sg_RequiresExtensions st) /\ enabled ext (sp_RequiresExtensions step).

Lemma plan_step_runs ext st i step :
  sg_Chain st !! i = Some step -> ss_Steps (plan_stage ext st) !! i = Some None <-> step_runs ext st step.
Proof.
  intros Hi. unfold plan_stage, step_runs. rewrite <-!missing_nil. case_bool_decide as Hm; cbn; rewrite list_lookup_fmap, Hi; cbn.
  - unfold step_skip. rewrite Hm. case_bool_decide; split; try done; try (by intros [= ]). by intros [_ ?].
  - split; [done|]. by intros [? _].
Qed.

Lemma first_none_iff k l : is_Some (first_none k l) <-> None ∈ l.
Proof.
  revert k. induction l as [|[x|] l IH]; intros k; cbn.
  - split; [by intros [? ?]|intros []%elem_of_nil].
  - rewrite IH, elem_of_cons. split; [by right|]. by intros [|].
  - split; [intros _; by left|by eexists].
Qed.

Lemma first_none_spec k l i : first_none k l = Some i -> (k <= i)%nat /\ l !! (i - k)%nat = Some None /\ forall j, (j < i - k)%nat -> exists sk, l !! j = Some (Some sk).
Proof.
  revert k. induction l as [|[x|] l IH]; intros k; cbn; [done|..].
  - intros E. apply IH in E as (Hk & Hi & Hj). split; [lia|]. replace (i - k)%nat with (S (i - S k)) by lia. split; [done|].
    intros [|j] Hlt; [by eexists|]. cbn. apply Hj. lia.
  - intros [= ->]. rewrite Nat.sub_diag. split; [lia|]. split; [done|lia].
Qed.

Lemma rev_reverse {A} (l : list A) : rev l = reverse l.
Proof. unfold reverse. by rewrite rev_append_rev, app_nil_r. Qed.

Lemma runs_first_last p : None ∈ ss_Steps p -> exists i j, firstRun p = Some i /\ lastRun p = Some j /\ ss_Steps p !! i = Some None /\ ss_Steps p !! j = Some None /\
  (forall k, ss_Steps p !! k = Some None -> (i <= k <= j)%nat).
Proof.
  intros Hn. destruct (proj2 (first_none_iff 0 (ss_Steps p)) Hn) as [i Hi].
  assert (None ∈ rev (ss_Steps p)) as Hr by (apply list_elem_of_In; rewrite <-in_rev; by apply list_elem_of_In).
  destruct (proj2 (first_none_iff 0 (rev (ss_Steps p))) Hr) as [j Hj].
  apply first_none_spec in Hi as Hi'. destruct Hi' as (_ & Hi1 & Hi2). apply first_none_spec in Hj as Hj'. destruct Hj' as (_ & Hj1 & Hj2).
  rewrite Nat.sub_0_r in *. rewrite rev_reverse in *. pose proof (lookup_lt_Some _ _ _ Hj1) as Hlt. rewrite length_reverse in Hlt.
  rewrite reverse_lookup in Hj1 by done. exists i, (length (ss_Steps p) - 1 - j)%nat. unfold firstRun, lastRun. rewrite rev_reverse, Hj. split_and!; [done|done|done|by replace (length (ss_Steps p) - 1 - j)%nat with (length (ss_Steps p) - S j)%nat by lia|].
  intros k Hk. apply lookup_lt_Some in Hk as Hkl. split.
  - destruct (decide (i <= k)%nat); [done|]. destruct (Hi2 k ltac:(lia)). congruence.
  - destruct (decide (k <= length (ss_Steps p) - 1 - j)%nat); [done|]. destruct (Hj2 (length (ss_Steps p) - S k)%nat ltac:(lia)) as [sk Hsk].
    rewrite reverse_lookup in Hsk by lia. replace (length (ss_Steps p) - S (length (ss_Steps p) - S k))%nat with k in Hsk by lia. congruence.
Qed.

(** ** A step *)

(** What is done about a commit after a step that completed. *)
Inductive CommitPolicy := PFlag | PSuppressed | PAttempt (message : gostring) | PDeferred | PNothing.
Definition policy (opts : RunOptions) (plan : StageCommitPlan) (i last : nat) : CommitPolicy :=
  if ro_NoCommit opts then PFlag
  else if cp_Suppressed plan then PSuppressed
  else match cp_StepDirectives plan !! i with
       | Some d => PAttempt (cd_Message d)
       | None => match cp_StageDirective plan with
                 | Some d => if bool_decide (i = last) then PAttempt (cd_Message d) else PDeferred
                 | None => PNothing
                 end
       end.

(** What is recorded of it, with its error, and what was committed. *)
Definition outcome_ok (p : CommitPolicy) (o : CommitOutcome) (commits : list RunAct) : Prop :=
  match p with
  | PFlag => o = MkOutcome CommitStatusSkippedByFlag [] [] None /\ commits = []
  | PSuppressed => o = MkOutcome CommitStatusSkippedBySpec [] [] None /\ commits = []
  | PDeferred => o = MkOutcome CommitStatusDeferredToStage [] [] None /\ commits = []
  | PNothing => o = MkOutcome CommitStatusEmpty [] [] None /\ commits = []
  | PAttempt m => oc_Message o = m /\
      (oc_Status o = CommitStatusCommitted /\ oc_Err o = None /\ commits = [ACommit m] \/
       oc_Status o = CommitStatusNoOp /\ oc_Err o = None /\ commits = [] \/
       oc_Status o = CommitStatusFailed /\ is_Some (oc_Err o) /\ (commits = [] \/ commits = [ACommit m]))
  end.

(** What may come before the line of a step. *)
Definition quiet (session : gostring) (a : RunAct) : Prop := match a with AClear s => s = session | AArgs _ _ => True | _ => False end.

Section facts.
Context (canonical : gostring -> gostring * bool) (family : gostring -> gostring) (H : RunHost) (spec : PSpec) (opts : RunOptions).

(** The line of a step, in a run with a manifest or without. *)
Definition args_path (hm : bool) (stageIdx i : nat) (stage skill : gostring) : gostring :=
  if hm then filepath_Join (rh_RunDir H) (stepFileStem stageIdx (i + 1) stage skill ++ ".args.md") else [].
Definition step_line (hm : bool) (stageIdx : nat) (st : Stage) (i : nat) (step : PStep) : gostring :=
  let agent := effectiveAgent canonical spec (sg_Name st) i in
  fst (stepLine (if agent =s "" then sp_Agent step else agent) step (ro_Prompt opts) (args_path hm stageIdx i (sg_Name st) (sp_Skill step))).

Definition rec_of (step : PStep) (r : StepRecord) : Prop :=
  sr_Skill r = sp_Skill step /\ sr_Args r = sp_Args step /\ sr_Skip r = None /\ sr_CommitStatus r = CommitStatusEmpty.

(** What a step may do and return: it ends before its line is typed, or its wait fails, or
    it completes and its commit is seen to. *)
Inductive step_res (u : StageRun) (i : nat) (step : PStep) (w : RunWorld) : RunWorld -> option EChain -> Prop :=
| SR_before acts e :
    Forall (quiet (ru_Session u)) acts -> step_res u i step w (MkRunWorld (rw_acts w ++ acts) (rw_mw w)) (Some e)
| SR_stopped acts rec e :
    Forall (quiet (ru_Session u)) acts -> rec_of step rec -> sr_Status rec = StatusFailed \/ sr_Status rec = StatusCancelled ->
    step_res u i step w
      (MkRunWorld (rw_acts w ++ acts ++ [ADeliver (ru_Session u) (step_line (bool_decide (is_Some (rw_mw w))) (ru_Index u) (ru_Stage u) i step)]) (RecordStep (ru_Index u) rec <$> rw_mw w)) (Some e)
| SR_done acts rec o commits :
    Forall (quiet (ru_Session u)) acts -> rec_of step rec -> sr_Status rec = StatusCompleted -> sr_Model rec = ru_Model u ->
    outcome_ok (policy opts (ru_Plan u) i (ru_Last u)) o commits ->
    step_res u i step w
      (MkRunWorld (rw_acts w ++ acts ++ ADeliver (ru_Session u) (step_line (bool_decide (is_Some (rw_mw w))) (ru_Index u) (ru_Stage u) i step) :: commits)
        (RecordStepCommit (ru_Index u) (i + 1) (oc_SHA o) (oc_Message o) (oc_Status o) ∘ RecordStep (ru_Index u) rec <$> rw_mw w)) (wrap <$> oc_Err o).

Lemma attempt_spec stage i m w : exists o commits,
  attemptCommit H stage i m w = (MkRunWorld (rw_acts w ++ commits) (rw_mw w), o) /\ outcome_ok (PAttempt m) o commits.
Proof.
  unfold attemptCommit, gitCommit, mbind, R_bind, mret, R_ret, ract. destruct w as [acts mf]. cbn.
  destruct (rh_GitStatus H stage i) as [e|p]; [eexists _, []; rewrite app_nil_r; split; [done|]; cbn; naive_solver|].
  case_bool_decide; [eexists _, []; rewrite app_nil_r; split; [done|]; cbn; naive_solver|].
  destruct (rh_Add H stage i); [eexists _, []; rewrite app_nil_r; split; [done|]; cbn; naive_solver|].
  destruct (rh_Scan H stage i); [eexists _, []; rewrite app_nil_r; split; [done|]; cbn; naive_solver|].
  destruct (rh_GitCommit H stage i); [eexists _, []; rewrite app_nil_r; split; [done|]; cbn; naive_solver|].
  eexists _, [ACommit m]. split; [done|]. cbn. destruct (rh_Head H stage i); cbn; naive_solver.
Qed.

Lemma outcome_spec stage plan i last w : exists o commits,
  resolveCommitOutcome H opts stage plan i (bool_decide (i = last)) None w = (MkRunWorld (rw_acts w ++ commits) (rw_mw w), o) /\
  outcome_ok (policy opts plan i last) o commits.
Proof.
  assert (MkRunWorld (rw_acts w ++ []) (rw_mw w) = w) as Hw by (rewrite app_nil_r; by destruct w).
  unfold resolveCommitOutcome, policy. cbn [is_err orb]. rewrite (bool_decide_false (is_Some None)) by (by intros [? [=]]).
  destruct (ro_NoCommit opts); [eexists _, []; rewrite Hw; done|]. destruct (cp_Suppressed plan); [eexists _, []; rewrite Hw; done|].
  destruct (cp_StepDirectives plan !! i) as [d|]; [apply attempt_spec|].
  destruct (cp_StageDirective plan) as [d|]; [|eexists _, []; rewrite Hw; done].
  case_bool_decide; cbn [negb]; [apply attempt_spec|eexists _, []; rewrite Hw; done].
Qed.

Lemma run_step_spec u i step w w' r :
  run_step canonical family H spec opts u i step w = (w', r) -> step_res u i step w w' r.
Proof.
  destruct w as [acts mf]. unfold run_step, mbind, R_bind, mret, R_ret. destruct (Effective _ _ _ _) as [ef|] eqn:Eef.
  2:{ intros [= <- <-]. rewrite <-(app_nil_r acts) at 2. apply (SR_before u i step (MkRunWorld acts mf) []). constructor. }
  set (agent := if ef_agent ef =s "" then sp_Agent step else ef_agent ef).
  match goal with |- (let '(_, _) := ?c in _) = _ -> _ => destruct c as [w1 cleared] eqn:Ec end.
  assert (exists acts1, Forall (quiet (ru_Session u)) acts1 /\ w1 = MkRunWorld (acts ++ acts1) mf) as (acts1 & Hq1 & ->).
  { destruct (_ && _); [destruct (rh_Clear _ _ _)|]; injection Ec as <- <-; [exists []|eexists [_]|exists []]; rewrite ?app_nil_r; split; try done; repeat constructor. }
  destruct cleared as [e|]; [intros [= <- <-]; by apply (SR_before u i step (MkRunWorld acts mf))|].
  set (path := step_args_path H u i step _).
  assert (path = args_path (bool_decide (is_Some mf)) (ru_Index u) i (sg_Name (ru_Stage u)) (sp_Skill step)) as Hp by (unfold path, step_args_path, args_path; by destruct mf).
  assert (fst (stepLine agent step (ro_Prompt opts) path) = step_line (bool_decide (is_Some mf)) (ru_Index u) (ru_Stage u) i step) as Hl.
  { unfold step_line, effectiveAgent. by rewrite Eef, Hp. }
  destruct (stepLine agent step (ro_Prompt opts) path) as [line spilled]. cbn in Hl. subst line.
  match goal with |- (let '(_, _) := ?c in _) = _ -> _ => destruct c as [w2 written] eqn:Ew end.
  assert (exists acts2, Forall (quiet (ru_Session u)) acts2 /\ w2 = MkRunWorld (acts ++ acts2) mf) as (acts2 & Hq2 & ->).
  { destruct spilled as [t|]; [destruct (rh_WriteArgs H path)|]; injection Ew as <- <-; [by eexists|exists (acts1 ++ [AArgs path t])|by eexists].
    cbn. rewrite <-app_assoc. split; [|done]. apply Forall_app. by repeat constructor. }
  destruct written as [e|]; [intros [= <- <-]; by apply (SR_before u i step (MkRunWorld acts mf))|].
  destruct (rh_Deliver _ _ _) as [e|]; [intros [= <- <-]; by apply (SR_before u i step (MkRunWorld acts mf))|].
  unfold ract, recordStoppedStep, recordStep, mw. cbn -[performStepCommit]. destruct (rh_Wait _ _ _) as [e|].
  { intros [= <- <-]. rewrite <-app_assoc. eapply (SR_stopped u i step (MkRunWorld acts mf)); [done|by split_and!|]. cbn. destruct (errors_Is _ _); auto. }
  unfold performStepCommit, mbind, R_bind, mret, R_ret, mw.
  match goal with |- context [resolveCommitOutcome _ _ ?n ?p ?k _ None ?x] => destruct (outcome_spec n p k (ru_Last u) x) as (o & commits & -> & Ho) end.
  cbn. intros [= <- <-]. rewrite <-!app_assoc. cbn. rewrite <-option_fmap_compose.
  eapply (SR_done u i step (MkRunWorld acts mf)); [done|by split_and!|done|done|done].
Qed.

(** ** A stage *)

Definition skipped_world (u : StageRun) (i : nat) (step : PStep) (skip : Skip) (w : RunWorld) : RunWorld :=
  MkRunWorld (rw_acts w) (RecordSkippedStep (ru_Index u) (skippedStepRecord step (effectiveAgent canonical spec (sg_Name (ru_Stage u)) i) skip) <$> rw_mw w).

(** The rule of the loop over a chain: [P] holds before each step, [Q] when one ends it. *)
Lemma run_chain_rule (u : StageRun) (skips : list (option Skip)) (chain : list PStep) (P : nat -> RunWorld -> Prop) (Q : RunWorld -> Prop) :
  length skips = length chain ->
  (forall i step skip w, chain !! i = Some step -> skips !! i = Some (Some skip) -> P i w -> P (S i) (skipped_world u i step skip w)) ->
  (forall i step w w', chain !! i = Some step -> skips !! i = Some None -> P i w -> step_res u i step w w' None -> P (S i) w') ->
  (forall i step w w' e, chain !! i = Some step -> skips !! i = Some None -> P i w -> step_res u i step w w' (Some e) -> Q w') ->
  forall w w' r, P 0%nat w -> run_chain canonical family H spec opts u skips 0 chain w = (w', r) ->
  (r = inr None /\ P (length chain) w') \/ (exists e, r = inr (Some e) /\ Q w').
Proof.
  intros Hlen Hskip Hgo Hend.
  assert (forall rest i, (i + length rest)%nat = length chain -> drop i chain = rest -> forall w w' r, P i w ->
    run_chain canonical family H spec opts u skips i rest w = (w', r) -> (r = inr None /\ P (length chain) w') \/ (exists e, r = inr (Some e) /\ Q w')) as Hall.
  { induction rest as [|step rest IH]; intros i Hi Hd w w' r HP; cbn in Hi |- *.
    { intros [= <- <-]. left. split; [done|]. by replace (length chain) with i by lia. }
    assert (chain !! i = Some step) as Hs by (rewrite <-(Nat.add_0_r i), <-lookup_drop, Hd; done).
    assert (drop (S i) chain = rest) as Hd' by (replace (S i) with (i + 1)%nat by lia; by rewrite <-drop_drop, Hd).
    destruct (lookup_lt_is_Some_2 skips i ltac:(lia)) as [[skip|] Hk]; rewrite Hk.
    - unfold mbind, R_bind, mw. apply (IH (S i)); [lia|done|]. by apply (Hskip i step skip w).
    - unfold mbind, R_bind. destruct (run_step _ _ _ _ _ u i step w) as [w1 err] eqn:E. apply run_step_spec in E. destruct err as [e|].
      + intros [= <- <-]. right. eexists. split; [done|]. by eapply Hend.
      + apply (IH (S i)); [lia|done|]. by eapply Hgo. }
  intros w w' r. by apply Hall.
Qed.

Definition session_of (st : Stage) : gostring := "ape-" ++ sanitizeSessionName (sg_Name st) ++ "-" ++ Itoa (rh_PID H).

(** What a stage may do and return: nothing, when it has no steps; an end before its session
    is spawned; or a session, in which its chain is run as far as it goes. *)
Inductive stage_res (st : Stage) (skips : StageSkips) (idx : nat) (w : RunWorld) : RunWorld -> option EChain -> Prop :=
| ST_empty : sg_Chain st = [] -> stage_res st skips idx w w None
| ST_refused acts e : acts = [] \/ acts = [AKill (session_of st)] -> stage_res st skips idx w (MkRunWorld (rw_acts w ++ acts) (rw_mw w)) (Some e)
| ST_ran u argv env w1 r :
    ru_Stage u = st -> ru_Session u = session_of st -> ru_Index u = idx -> firstRun skips = Some (ru_First u) -> lastRun skips = Some (ru_Last u) ->
    planStageCommits canonical spec (sg_Name st) (ss_Steps skips) = Some (ru_Plan u) ->
    (let w0 := MkRunWorld (rw_acts w ++ [AKill (session_of st); ASpawn (session_of st) argv env]) (rw_mw w) in
     w1 = w0 /\ is_Some r \/ run_chain canonical family H spec opts u (ss_Steps skips) 0 (sg_Chain st) w0 = (w1, inr r)) ->
    stage_res st skips idx w (MkRunWorld (rw_acts w1 ++ [AKill (session_of st)]) (rw_mw w1)) r.

Lemma run_stage_spec ext st idx w w' r :
  ss_Stage (plan_stage ext st) = None ->
  runStageInteractive canonical family H spec opts st (plan_stage ext st) idx w = (w', r) ->
  exists e, r = inr (failed e) /\ stage_res st (plan_stage ext st) idx w w' e.
Proof.
  intros Hss. unfold runStageInteractive. case_bool_decide as Hc.
  { intros [= <- <-]. exists None. split; [done|]. by constructor. }
  set (skips := plan_stage ext st) in *. pose proof (length_plan_stage ext st) as Hlen. fold skips in Hlen.
  assert (None ∈ ss_Steps skips) as Hn.
  { unfold skips, plan_stage in Hss |- *. destruct (negb (bool_decide (missing ext (sg_RequiresExtensions st) = []))); [done|]. cbn in *.
    rewrite (bool_decide_false (sg_Chain st = [])) in Hss by done. case_bool_decide as Hf; [done|].
    destruct (first_none 0 _) eqn:Ef; [|done]. by apply (first_none_iff 0); rewrite Ef. }
  destruct (runs_first_last skips Hn) as (i & j & Hi & Hj & Hi1 & _). rewrite Hi, Hj.
  destruct (lookup_lt_is_Some_2 (sg_Chain st) i) as [fs Hfs]; [rewrite <-Hlen; by eapply lookup_lt_Some|]. rewrite Hfs.
  assert (w = MkRunWorld (rw_acts w ++ []) (rw_mw w)) as Hw by (rewrite app_nil_r; by destruct w).
  assert (forall e (x : unit + (RunStatus * option EChain)), (w, inr (failed (Some e))) = (w', x) -> exists e, x = inr (failed e) /\ stage_res st skips idx w w' e) as Href.
  { intros e x [= <- <-]. eexists. split; [done|]. rewrite Hw at 2. apply ST_refused. by left. }
  destruct (Effective _ _ _ _) as [ef|]; [|apply Href]. destruct (EffectiveEffort _ _ _ _) as [[ex es]|]; [|apply Href].
  destruct (planStageCommits _ _ _ _) as [plan|] eqn:Ep; [|apply Href]. destruct (buildInteractiveArgv _ _ _) as [argv|]; [|apply Href].
  unfold mbind, R_bind, mret, R_ret, ract. fold (session_of st). destruct (rh_New _ _) as [e|].
  { intros [= <- <-]. eexists. split; [done|]. apply ST_refused. by right. }
  cbn [rw_acts rw_mw]. rewrite <-app_assoc. cbn [app]. destruct (rh_Ready _ _) as [e|].
  { intros [= <- <-]. eexists. split; [done|]. eapply (ST_ran st skips idx w (MkStageRun st (session_of st) i j [] (ArgPlan [] []) plan idx) _ _ (MkRunWorld _ (rw_mw w))); try done. left. by eauto. }
  match goal with |- (let '(_, _) := run_chain _ _ _ _ _ ?u _ _ _ _ in _) = _ -> _ => destruct (run_chain _ _ _ _ _ u _ _ _ _) as [w1 rc] eqn:Er end.
  apply run_chain_rule with (P := fun _ _ => True) (Q := fun _ => True) in Er as Er2; [|done..].
  assert (exists r0, rc = inr r0) as [r0 ->] by (destruct Er2 as [[-> _]|(e & -> & _)]; by eexists).
  intros [= <- <-]. eexists. split; [done|]. eapply ST_ran; [..|right; exact Er]; done.
Qed.

(** ** All the stages *)

(** The stages a run covers: all, or those from the one that is named. *)
Fixpoint from_stages (from : gostring) (skipping : bool) (stages : list Stage) : list Stage :=
  match stages with
  | [] => []
  | st :: rest => if skipping && (sg_Name st <>s from) then from_stages from true rest else stages
  end.

Lemma run_stages_from skips b stages :
  run_stages canonical family H spec opts skips b stages = run_stages canonical family H spec opts skips false (from_stages (ro_FromStage opts) b stages).
Proof.
  revert b. induction stages as [|st rest IH]; intros b; [done|]. destruct b; [|done]. cbn [from_stages].
  destruct (true && (sg_Name st <>s ro_FromStage opts)) eqn:E; [cbn [run_stages]; by rewrite E|].
  cbn [run_stages]. rewrite E. reflexivity.
Qed.

Lemma from_stages_suffix from b stages : from_stages from b stages `suffix_of` stages.
Proof. revert b. induction stages as [|st rest IH]; intros b; cbn; [done|]. destruct (b && _); [|done]. by apply suffix_cons_r. Qed.

Definition stage_begun (st : Stage) (w : RunWorld) : RunWorld := MkRunWorld (rw_acts w) (fst ∘ BeginStage (sg_Name st) <$> rw_mw w).
Definition stage_index (w : RunWorld) : nat := match rw_mw w with Some m => (length (mf_Stages m) + 1)%nat | None => 0%nat end.
Definition ended (idx : nat) (status : RunStatus) (w : RunWorld) : RunWorld := MkRunWorld (rw_acts w) (EndStage idx status <$> rw_mw w).
Definition passed_over (st : Stage) (skips : StageSkips) (skip : Skip) (w : RunWorld) : RunWorld :=
  MkRunWorld (rw_acts w) (RecordSkippedStage (sg_Name st) skip
    (imap (fun i step => skippedStepRecord step (effectiveAgent canonical spec (sg_Name st) i) (default (MkSkip [] []) (mjoin (ss_Steps skips !! i)))) (sg_Chain st)) <$> rw_mw w).

(** The rule of the loop over the stages. *)
Lemma run_stages_rule (ext : option Extensions) (skips : gmap gostring StageSkips) (L : list Stage) (P : nat -> RunWorld -> Prop) (Q : RunWorld -> Prop) :
  (forall st, st ∈ L -> skips_of skips (sg_Name st) = plan_stage ext st) ->
  (forall k st skip w, L !! k = Some st -> ss_Stage (plan_stage ext st) = Some skip -> P k w -> P (S k) (passed_over st (plan_stage ext st) skip w)) ->
  (forall k st w w1, L !! k = Some st -> ss_Stage (plan_stage ext st) = None -> P k w ->
    stage_res st (plan_stage ext st) (stage_index w) (stage_begun st w) w1 None -> P (S k) (ended (stage_index w) StatusCompleted w1)) ->
  (forall k st w w1 e, L !! k = Some st -> ss_Stage (plan_stage ext st) = None -> P k w ->
    stage_res st (plan_stage ext st) (stage_index w) (stage_begun st w) w1 (Some e) -> Q (ended (stage_index w) StatusFailed w1)) ->
  forall w w' r, P 0%nat w -> run_stages canonical family H spec opts skips false L w = (w', r) ->
  (r = inr None /\ P (length L) w') \/ (exists e, r = inr (Some e) /\ Q w').
Proof.
  intros Hskips Hover Hgo Hend.
  assert (forall rest k, (k + length rest)%nat = length L -> drop k L = rest -> forall w w' r, P k w ->
    run_stages canonical family H spec opts skips false rest w = (w', r) -> (r = inr None /\ P (length L) w') \/ (exists e, r = inr (Some e) /\ Q w')) as Hall.
  { induction rest as [|st rest IH]; intros k Hk Hd w w' r HP; cbn in Hk |- *.
    { intros [= <- <-]. left. split; [done|]. by replace (length L) with k by lia. }
    assert (L !! k = Some st) as Hs by (rewrite <-(Nat.add_0_r k), <-lookup_drop, Hd; done).
    assert (drop (S k) L = rest) as Hd' by (replace (S k) with (k + 1)%nat by lia; by rewrite <-drop_drop, Hd).
    rewrite Hskips by (by eapply list_elem_of_lookup_2). destruct (ss_Stage (plan_stage ext st)) as [skip|] eqn:Ess.
    - unfold mbind, R_bind, recordSkippedStage. rewrite length_plan_stage, Nat.ltb_irrefl, andb_false_r.
      apply (IH (S k)); [lia|done|]. by apply (Hover k st skip w).
    - unfold mbind, R_bind. replace (match rw_mw w with Some m => snd (BeginStage (sg_Name st) m) | None => 0%nat end) with (stage_index w) by (by destruct w as [? []]).
      fold (stage_begun st w). destruct (runStageInteractive _ _ _ _ _ _ _ _ _) as [w1 rs] eqn:E. apply run_stage_spec in E as (e & -> & Hres); [|done].
      destruct e as [e|]; cbn -[run_stages].
      + intros [= <- <-]. right. eexists. split; [done|]. by eapply (Hend k st w w1).
      + apply (IH (S k)); [lia|done|]. by apply (Hgo k st w w1). }
  intros w w' r. by apply Hall.
Qed.

(** ** The lines that are typed, and the sessions *)

Definition deliveries (acts : list RunAct) : list (gostring * gostring) := omap (fun a => match a with ADeliver s l => Some (s, l) | _ => None end) acts.

(** The sessions of a list of acts: one at a time, and nothing is sent or committed without
    one. The state is the session that is open. *)
Definition session_step (o : option (option gostring)) (a : RunAct) : option (option gostring) :=
  match o with
  | None => None
  | Some open =>
      match a, open with
      | ASpawn s _ _, None => Some (Some s)
      | AKill s, Some s' => if s =s s' then Some None else None
      | AKill _, None => Some None
      | AClear s, Some s' | ADeliver s _, Some s' => if s =s s' then Some open else None
      | AArgs _ _, _ => Some open
      | ACommit _, Some _ => Some open
      | _, _ => None
      end
  end.
Definition sessions (acts : list RunAct) : option (option gostring) := foldl session_step (Some None) acts.

(** The steps of a stage that run, with their lines. *)
Definition line_of (hm : bool) (ext : option Extensions) (idx : nat) (st : Stage) (istep : nat * PStep) : option (gostring * gostring) :=
  match ss_Steps (plan_stage ext st) !! istep.1 with Some None => Some (session_of st, step_line hm idx st istep.1 istep.2) | _ => None end.
Definition stage_lines (hm : bool) (ext : option Extensions) (idx : nat) (st : Stage) : list (gostring * gostring) := omap (line_of hm ext idx st) (imap pair (sg_Chain st)).
Definition planned_lines (hm : bool) (ext : option Extensions) (stages : list Stage) : list (gostring * gostring) :=
  mjoin (imap (fun k st => stage_lines hm ext (if hm then k + 1 else 0)%nat st) stages).

Lemma deliveries_app a b : deliveries (a ++ b) = deliveries a ++ deliveries b.
Proof. apply omap_app. Qed.
Lemma deliveries_quiet s acts : Forall (quiet s) acts -> deliveries acts = [].
Proof. induction 1 as [|a l Ha _ IH]; [done|]. unfold deliveries in *. cbn. by destruct a. Qed.
Lemma sessions_app a b : sessions (a ++ b) = foldl session_step (sessions a) b.
Proof. apply foldl_app. Qed.
Lemma sessions_quiet s acts : Forall (quiet s) acts -> foldl session_step (Some (Some s)) acts = Some (Some s).
Proof. induction 1 as [|a l Ha _ IH]; [done|]. cbn. destruct a; try done. cbn in Ha. subst. by rewrite bool_decide_true. Qed.

Lemma outcome_acts p o commits : outcome_ok p o commits -> deliveries commits = [] /\ forall s, foldl session_step (Some (Some s)) commits = Some (Some s).
Proof. destruct p; cbn; naive_solver. Qed.

(** The manifest's stages, when there is one. *)
Definition stages_len (w : RunWorld) : option nat := (fun m => length (mf_Stages m)) <$> rw_mw w.

Lemma length_RecordSkippedStep i r m : length (mf_Stages (RecordSkippedStep i r m)) = length (mf_Stages m).
Proof. unfold RecordSkippedStep. destruct (negb _); [done|]. cbn. apply length_alter. Qed.
Lemma length_RecordStep i r m : length (mf_Stages (RecordStep i r m)) = length (mf_Stages m).
Proof. unfold RecordStep. destruct (negb _); [done|]. cbn. apply length_alter. Qed.
Lemma length_RecordStepCommit i j a b c m : length (mf_Stages (RecordStepCommit i j a b c m)) = length (mf_Stages m).
Proof. unfold RecordStepCommit. repeat case_match; try done; cbn; apply length_alter. Qed.
Lemma length_EndStage i s m : length (mf_Stages (EndStage i s m)) = length (mf_Stages m).
Proof. unfold EndStage. destruct (negb _); [done|]. cbn. apply length_alter. Qed.

Lemma step_res_len u i step w w' r : step_res u i step w w' r -> stages_len w' = stages_len w.
Proof.
  unfold stages_len. destruct 1; cbn; destruct (rw_mw w) as [m|]; cbn; try done; f_equal; rewrite ?length_RecordStepCommit; by rewrite length_RecordStep.
Qed.
Lemma skipped_world_len u i step skip w : stages_len (skipped_world u i step skip w) = stages_len w.
Proof. unfold stages_len. cbn. destruct (rw_mw w); cbn; [|done]. by rewrite length_RecordSkippedStep. Qed.

Definition has_manifest (w : RunWorld) : bool := bool_decide (is_Some (rw_mw w)).
Lemma has_manifest_len w w' : stages_len w = stages_len w' -> has_manifest w = has_manifest w'.
Proof. unfold stages_len, has_manifest. destruct (rw_mw w), (rw_mw w'); cbn; intros E; try done; by apply bool_decide_ext. Qed.

(** What a step types. *)
Lemma step_res_lines u i step w w' r :
  step_res u i step w w' r -> sessions (rw_acts w) = Some (Some (ru_Session u)) ->
  sessions (rw_acts w') = Some (Some (ru_Session u)) /\
  exists l, deliveries (rw_acts w') = deliveries (rw_acts w) ++ l /\
    (l = [(ru_Session u, step_line (has_manifest w) (ru_Index u) (ru_Stage u) i step)] \/ (l = [] /\ is_Some r)).
Proof.
  intros Hres Hs. destruct Hres; cbn [rw_acts]; rewrite sessions_app, deliveries_app, Hs.
  - rewrite (sessions_quiet _ _ H0), (deliveries_quiet _ _ H0). split; [done|]. exists []. split; [done|]. right. by eauto.
  - rewrite foldl_app, (sessions_quiet _ _ H0), deliveries_app, (deliveries_quiet _ _ H0). cbn. rewrite bool_decide_true by done. by eauto.
  - apply outcome_acts in H4 as [Hd Hf]. rewrite foldl_app, (sessions_quiet _ _ H0), deliveries_app, (deliveries_quiet _ _ H0). cbn. rewrite bool_decide_true by done. rewrite Hf.
    split; [done|]. eexists. split; [done|]. left. unfold deliveries in Hd. by rewrite Hd.
Qed.

Lemma omap_take_S {A B} (f : A -> option B) (l : list A) i x : l !! i = Some x -> omap f (take (S i) l) = omap f (take i l) ++ option_list (f x).
Proof. intros Hx. rewrite (take_S_r l i x), omap_app by done. cbn. by destruct (f x). Qed.

Lemma lookup_imap_pair {A} (l : list A) i x : l !! i = Some x -> imap pair l !! i = Some (i, x).
Proof. intros Hx. by rewrite list_lookup_imap, Hx. Qed.

(** A state of the sessions and the lines. *)
Definition typed (s : option gostring) (len : option nat) (lines : list (gostring * gostring)) (w : RunWorld) : Prop :=
  sessions (rw_acts w) = Some s /\ stages_len w = len /\ deliveries (rw_acts w) = lines.

Lemma chain_lines ext u w w' r D :
  let st := ru_Stage u in let all := stage_lines (has_manifest w) ext (ru_Index u) st in
  ru_Session u = session_of st -> typed (Some (session_of st)) (stages_len w) D w ->
  run_chain canonical family H spec opts u (ss_Steps (plan_stage ext st)) 0 (sg_Chain st) w = (w', inr r) ->
  exists l, typed (Some (session_of st)) (stages_len w) (D ++ l) w' /\ l `prefix_of` all /\ (r = None -> l = all).
Proof.
  intros st all Hu H0 Hrun. set (f := line_of (has_manifest w) ext (ru_Index u) st).
  set (upto i := D ++ omap f (take i (imap pair (sg_Chain st)))).
  assert (forall i step, sg_Chain st !! i = Some step -> upto (S i) = upto i ++ option_list (f (i, step))) as Hup.
  { intros i step Hi. unfold upto. by rewrite (omap_take_S f _ i (i, step)), app_assoc by (by apply lookup_imap_pair). }
  assert (forall i, exists l, upto i = D ++ l /\ l `prefix_of` all) as Hpre.
  { intros i. eexists. split; [done|]. exists (omap f (drop i (imap pair (sg_Chain st)))). by rewrite <-omap_app, take_drop. }
  apply run_chain_rule with (P := fun i x => typed (Some (session_of st)) (stages_len w) (upto i) x)
    (Q := fun x => exists l, typed (Some (session_of st)) (stages_len w) (D ++ l) x /\ l `prefix_of` all) in Hrun.
  - destruct Hrun as [[[= ->] HP]|(e & [= ->] & l & HQ & Hl)]; [|by exists l]. exists all. split_and!; [|done|done].
    unfold upto in HP. by rewrite take_ge in HP by (rewrite length_imap; lia).
  - apply length_plan_stage.
  - intros i step skip x Hi Hk (HS & HL & HD). split_and!; [done|by rewrite skipped_world_len|]. cbn [skipped_world rw_acts].
    rewrite HD, (Hup i step Hi). unfold f, line_of. cbn. rewrite Hk. by rewrite app_nil_r.
  - intros i step x x' Hi Hk (HS & HL & HD) Hres. pose proof (step_res_len _ _ _ _ _ _ Hres) as Hlen.
    apply step_res_lines in Hres as (HS' & l & HD' & Hl); [|by rewrite Hu]. destruct Hl as [->|[_ [? [=]]]].
    rewrite Hu in *. split_and!; [done|by rewrite Hlen|]. rewrite HD', HD, (Hup i step Hi), (has_manifest_len x w HL). unfold f, line_of. cbn. by rewrite Hk.
  - intros i step x x' e Hi Hk (HS & HL & HD) Hres. pose proof (step_res_len _ _ _ _ _ _ Hres) as Hlen.
    apply step_res_lines in Hres as (HS' & l & HD' & Hl); [|by rewrite Hu]. rewrite Hu in *.
    destruct Hl as [->|[-> _]].
    + destruct (Hpre (S i)) as (l & E & Hpl). exists l. split; [|done]. split_and!; [done|by rewrite Hlen|]. rewrite <-E, HD', HD, (Hup i step Hi), (has_manifest_len x w HL).
      unfold f, line_of. cbn. by rewrite Hk.
    + destruct (Hpre i) as (l & E & Hpl). exists l. split; [|done]. split_and!; [done|by rewrite Hlen|]. by rewrite <-E, HD', app_nil_r.
  - unfold upto. cbn. by rewrite app_nil_r.
Qed.

Lemma stage_res_lines ext st idx w w' r :
  let all := stage_lines (has_manifest w) ext idx st in
  sessions (rw_acts w) = Some None -> stage_res st (plan_stage ext st) idx w w' r ->
  exists l, typed None (stages_len w) (deliveries (rw_acts w) ++ l) w' /\ l `prefix_of` all /\ (r = None -> l = all).
Proof.
  intros all Hs Hres. destruct Hres as [Hc|acts e Ha|u argv env w1 r Hst Hse Hix _ _ _ Hrun].
  - exists []. rewrite app_nil_r. split; [by split_and!|]. split; [apply prefix_nil|]. intros _. unfold all, stage_lines. by rewrite Hc.
  - exists []. rewrite app_nil_r. split; [|split; [apply prefix_nil|done]]. split_and!; cbn; [rewrite sessions_app, Hs|done|rewrite deliveries_app].
    + by destruct Ha as [->| ->].
    + destruct Ha as [->| ->]; by rewrite app_nil_r.
  - cbv zeta in Hrun. set (w0 := MkRunWorld _ _) in Hrun.
    assert (typed (Some (session_of st)) (stages_len w0) (deliveries (rw_acts w)) w0) as H0.
    { split_and!; [unfold w0; cbn; by rewrite sessions_app, Hs|done|unfold w0; cbn; rewrite deliveries_app; by rewrite app_nil_r]. }
    assert (exists l, typed (Some (session_of st)) (stages_len w0) (deliveries (rw_acts w) ++ l) w1 /\ l `prefix_of` all /\ (r = None -> l = all)) as (l & (HS & HL & HD) & Hl & Hr).
    { destruct Hrun as [[-> [? ->]]|Hrun]; [exists []; rewrite app_nil_r; split; [exact H0|]; split; [apply prefix_nil|done]|].
      subst st idx. exact (chain_lines ext u w0 w1 r _ Hse H0 Hrun). }
    exists l. split; [|done]. split_and!; cbn; [rewrite sessions_app, HS; cbn; by rewrite bool_decide_true|exact HL|rewrite deliveries_app, HD; by rewrite app_nil_r].
Qed.

Lemma run_stages_lines ext skips L w w' r :
  (forall st, st ∈ L -> skips_of skips (sg_Name st) = plan_stage ext st) ->
  let all := planned_lines (has_manifest w) ext L in
  typed None (if has_manifest w then Some 0%nat else None) [] w ->
  run_stages canonical family H spec opts skips false L w = (w', r) ->
  exists e l, r = inr e /\ sessions (rw_acts w') = Some None /\ deliveries (rw_acts w') = l /\ l `prefix_of` all /\ (e = None -> l = all).
Proof.
  intros Hskips all H0 Hrun. set (hm := has_manifest w) in *. set (lines (k : nat) st := stage_lines hm ext (if hm then k + 1 else 0)%nat st).
  set (upto k := mjoin (take k (imap lines L))).
  assert (forall k st, L !! k = Some st -> upto (S k) = upto k ++ lines k st) as Hup.
  { intros k st Hk. unfold upto. rewrite (take_S_r _ k (lines k st)) by (by rewrite list_lookup_imap, Hk). rewrite join_app. cbn. by rewrite app_nil_r. }
  assert (forall k, upto k `prefix_of` all) as Hpre.
  { intros k. exists (mjoin (drop k (imap lines L))). unfold upto, all, planned_lines. fold hm. by rewrite <-join_app, take_drop. }
  set (len (k : nat) := if hm then Some k else None).
  apply run_stages_rule with (ext := ext) (P := fun k x => typed None (len k) (upto k) x)
    (Q := fun x => sessions (rw_acts x) = Some None /\ deliveries (rw_acts x) `prefix_of` all) in Hrun; [|done|..].
  - destruct Hrun as [[-> (HS & _ & HD)]|(e & -> & HS & HD)]; [|by eexists _, _].
    exists None, all. split_and!; try done. rewrite HD. unfold upto. by rewrite take_ge by (by rewrite length_imap).
  - intros k st skip x Hk Hss (HS & HL & HD). split_and!; [done|..].
    + unfold len in *. unfold stages_len in *. cbn. destruct (rw_mw x), hm; cbn in *; try done. injection HL as HL. f_equal. rewrite length_app. cbn. lia.
    + change (deliveries (rw_acts x) = upto (S k)). rewrite HD, (Hup k st Hk). replace (lines k st) with (@nil (gostring * gostring)); [by rewrite app_nil_r|]. symmetry. unfold lines, stage_lines.
      assert (forall i, ss_Steps (plan_stage ext st) !! i <> Some None) as Hno.
      { intros i Hi. apply list_elem_of_lookup_2 in Hi. unfold plan_stage in Hss, Hi. destruct (negb _); cbn in *; [by apply list_elem_of_fmap in Hi as (? & [=] & _)|].
        apply (first_none_iff 0) in Hi as [? Hi]. rewrite Hi in Hss. by rewrite andb_false_r in Hss. }
      generalize (imap pair (sg_Chain st)) as xs. induction xs as [|[i step] xs IH]; [done|]. cbn. unfold line_of at 1. cbn.
      destruct (ss_Steps (plan_stage ext st) !! i) as [[sk|]|] eqn:E; [done|by destruct (Hno i)|done].
  - intros k st x x1 Hk Hss (HS & HL & HD) Hres. apply stage_res_lines in Hres as (l & (HS1 & HL1 & HD1) & _ & Hl); [|done]. rewrite (Hl eq_refl) in HD1.
    assert (has_manifest (stage_begun st x) = hm /\ stages_len (stage_begun st x) = len (S k) /\ stage_index x = (if hm then k + 1 else 0)%nat) as (Eh & El & Ei).
    { unfold has_manifest, stages_len, stage_index, len in *. cbn. destruct (rw_mw x) as [m|], hm; cbn in *; try done. injection HL as HL. rewrite length_app. cbn. by rewrite HL, Nat.add_1_r. }
    split_and!; [done| |change (deliveries (rw_acts x1) = upto (S k)); rewrite HD1, Eh, Ei; change (rw_acts (stage_begun st x)) with (rw_acts x); by rewrite HD, (Hup k st Hk)].
    rewrite <-El, <-HL1. unfold stages_len. cbn. destruct (rw_mw x1); cbn; [|done]. by rewrite length_EndStage.
  - intros k st x x1 e Hk Hss (HS & HL & HD) Hres. apply stage_res_lines in Hres as (l & (HS1 & HL1 & HD1) & Hl & _); [|done].
    assert (has_manifest (stage_begun st x) = hm /\ stage_index x = (if hm then k + 1 else 0)%nat) as (Eh & Ei).
    { unfold has_manifest, stages_len, stage_index, len in *. cbn. destruct (rw_mw x) as [m|], hm; cbn in *; try done. injection HL as HL. by rewrite HL. }
    split; [done|]. change (deliveries (rw_acts x1) `prefix_of` all). rewrite HD1. change (rw_acts (stage_begun st x)) with (rw_acts x). rewrite HD. etrans; [|apply (Hpre (S k))]. rewrite (Hup k st Hk). apply prefix_app. by rewrite Eh, Ei in Hl.
  - done.
Qed.
End facts.

(** C23: A run does what its spec says, in order. When a gate refuses, nothing is spawned. When
    the gates let it through, a run of a spec whose stages have distinct names never reads
    past a plan, and what it types is the lines of the planned steps - those from the stage
    it starts at whose extension gates are met -, each in the session of its stage, in
    order, up to where the run ends; all of them when it ends without an error. Sessions are
    open one at a time, nothing is typed or committed outside one, and however the run ends
    the last one is closed. *)
Theorem run_follows_plan (canonical : gostring -> gostring * bool) (family : gostring -> gostring) (H : RunHost) (spec : PSpec) (opts0 : RunOptions) (w : RunWorld) (r : unit + option EChain) :
  distinct_stages spec -> Run canonical family H spec opts0 = (w, r) ->
  match run_gates canonical H spec opts0 with
  | inl e => r = inr (Some e) /\ rw_acts w = []
  | inr opts =>
      let all := planned_lines canonical H spec opts (negb (ro_DisableManifest opts)) (ro_Extensions opts)
                   (from_stages (ro_FromStage opts) (ro_FromStage opts <>s "") (pl_stages spec)) in
      exists e, r = inr e /\ sessions (rw_acts w) = Some None /\ deliveries (rw_acts w) `prefix_of` all /\ (e = None -> deliveries (rw_acts w) = all)
  end.
Proof.
  intros HN. unfold Run. destruct (run_gates canonical H spec opts0) as [e|opts]; [by intros [= <- <-]|]. cbv zeta.
  set (w0 := MkRunWorld [] _). destruct (rh_BeforeSpawn H) as [e|].
  { intros [= <- <-]. exists (Some e). split_and!; [done|done|apply prefix_nil|done]. }
  destruct (runStagesInteractive _ _ _ _ _ w0) as [w1 r1] eqn:E. unfold runStagesInteractive in E. rewrite run_stages_from in E.
  apply run_stages_lines with (ext := ro_Extensions opts) in E as (e & l & -> & Hs & Hd & Hl & He).
  - intros [= <- <-]. exists e. subst l. replace (negb (ro_DisableManifest opts)) with (has_manifest w0) by (unfold has_manifest, w0; by destruct (ro_DisableManifest opts)).
    by split_and!.
  - intros st Hst. apply skips_distinct; [done|]. destruct (from_stages_suffix (ro_FromStage opts) (ro_FromStage opts <>s "") (pl_stages spec)) as [k Hk]. rewrite Hk. apply elem_of_app. by right.
  - unfold typed, has_manifest, w0, stages_len. cbn. by destruct (ro_DisableManifest opts).
Qed.

(** ** The plan of a stage's commits *)

Definition opts_out (step : PStep) : Prop := sp_CommitSet step = true /\ cd_Mode (sp_Commit step) = CommitModeSkip.
Definition opts_in (step : PStep) : Prop := sp_CommitSet step = true /\ cd_Mode (sp_Commit step) <> CommitModeSkip.
(** The commit of the level above a step: the stage's, else the pipeline's. *)
Definition level_commit (st : Stage) (s : PSpec) : option CommitDirective := match sg_Commit st with Some c => Some c | None => pl_Commit s end.

Section plan.
Context (canonical : gostring -> gostring * bool) (s : PSpec) (name : gostring) (st : Stage) (skipped : list (option Skip)) (Hst : stageMap s name = Some st).

(** A step of the chain that is not skipped. *)
Definition runs_at (n i : nat) (step : PStep) : Prop := (i < n)%nat /\ sg_Chain st !! i = Some step /\ mjoin (skipped !! i) = None.
Definition stage_message (c : CommitDirective) : CommitDirective := derived c (DerivedStageCommitMessage (pl_Name s) name).

(** The plan of the first [n] steps, before it is seen whether one opts out. *)
Definition own_commit (i : nat) (d : CommitDirective) (j : nat) (step : PStep) : Prop :=
  j = i /\ opts_in step /\ d = derived (sp_Commit step) (DerivedCommitMessage (pl_Name s) name (sp_Skill step)).
Definition left_to_stage (d : CommitDirective) (step : PStep) : Prop :=
  exists c, sp_CommitSet step = false /\ level_commit st s = Some c /\ cd_Mode c <> CommitModeSkip /\ d = stage_message c.
Definition some_step (n : nat) (Q : nat -> PStep -> Prop) : Prop := exists i step, runs_at n i step /\ Q i step.
Definition plan_upto (n : nat) (plan : StageCommitPlan) : Prop :=
  (cp_Suppressed plan = true <-> some_step n (fun _ => opts_out)) /\
  (forall i d, cp_StepDirectives plan !! i = Some d <-> some_step n (own_commit i d)) /\
  (forall d, cp_StageDirective plan = Some d <-> some_step n (fun _ => left_to_stage d)).

Lemma some_step_S n step (Q : nat -> PStep -> Prop) : sg_Chain st !! n = Some step ->
  some_step (S n) Q <-> some_step n Q \/ (mjoin (skipped !! n) = None /\ Q n step).
Proof.
  intros Hn. unfold some_step, runs_at. split.
  - intros (i & x & (Hi & Hc & Hs) & HQ). destruct (decide (i = n)) as [->|Hne]; [right; split; congruence|left]. exists i, x. split_and!; try done. lia.
  - intros [(i & x & (Hi & Hc & Hs) & HQ)|[Hs HQ]]; [exists i, x|exists n, step]; split_and!; try done; lia.
Qed.
Lemma own_below n i d : some_step n (own_commit i d) -> i <> n.
Proof. intros (j & x & (Hj & _) & (-> & _)). lia. Qed.

Lemma resolve_none step : resolveCommit step st s = no_commit \/ (exists d, opts_in step /\ d = sp_Commit step /\ resolveCommit step st s = MkEffectiveCommit CommitBoundaryStep d) \/
  (exists c, sp_CommitSet step = false /\ level_commit st s = Some c /\ cd_Mode c <> CommitModeSkip /\ resolveCommit step st s = MkEffectiveCommit CommitBoundaryStage c).
Proof.
  unfold resolveCommit, opts_in, level_commit. destruct (sp_CommitSet step) eqn:Ec.
  - case_bool_decide; [by left|]. right; left. by eauto.
  - destruct (sg_Commit st) as [c|] eqn:Es; [|destruct (pl_Commit s) as [c|] eqn:Ep; [|by left]]; (case_bool_decide; [by left|]; right; right; by eauto).
Qed.

Lemma resolve_excl step : (opts_in step -> resolveCommit step st s = MkEffectiveCommit CommitBoundaryStep (sp_Commit step)) /\
  (forall c, sp_CommitSet step = false -> level_commit st s = Some c -> cd_Mode c <> CommitModeSkip -> resolveCommit step st s = MkEffectiveCommit CommitBoundaryStage c).
Proof.
  unfold resolveCommit, opts_in, level_commit. split.
  - intros [-> Hm]. by rewrite bool_decide_false.
  - intros c -> Hl Hm. destruct (sg_Commit st) as [c'|]; [injection Hl as ->|rewrite Hl]; by rewrite bool_decide_false.
Qed.

Lemma plan_step_upto n step plan : sg_Chain st !! n = Some step -> plan_upto n plan ->
  exists plan', plan_step canonical s name skipped (Some plan) (n, step) = Some plan' /\ plan_upto (S n) plan'.
Proof.
  intros Hn (H1 & H2 & H3). unfold plan_upto. cbn. pose proof (fun Q => some_step_S n step Q Hn) as HS.
  destruct (mjoin (skipped !! n)) as [sk|] eqn:Esk.
  { rewrite bool_decide_true by (by eexists). exists plan. split; [done|].
    split_and!; [rewrite HS, H1|intros i d; rewrite HS, H2|intros d; rewrite HS, H3]; (split; [by left|]; by intros [|[[=] _]]). }
  rewrite bool_decide_false by (by intros [? [=]]).
  assert (opts_out step \/ opts_in step \/ sp_CommitSet step = false) as Hcase.
  { unfold opts_out, opts_in. destruct (sp_CommitSet step), (decide (cd_Mode (sp_Commit step) = CommitModeSkip)); auto. }
  assert (forall d, left_to_stage d step -> sp_CommitSet step = false) as Hleft by (by intros d (c & ? & _)).
  destruct Hcase as [[E1 E2]|Hcase].
  { rewrite E1, bool_decide_true by done. eexists. split; [done|]. cbn.
    split_and!; [rewrite HS; split; [intros _; right; by split|done]|intros i d; rewrite HS, H2|intros d; rewrite HS, H3]; (split; [by left|]; intros [?|[_ F]]; [done|exfalso]).
    - destruct F as (_ & (_ & F) & _). done.
    - apply Hleft in F. congruence. }
  assert (~ opts_out step) as Hno by (unfold opts_out, opts_in in *; intros [F1 F2]; destruct Hcase as [[_ ?]|?]; congruence).
  assert (sp_CommitSet step && bool_decide (cd_Mode (sp_Commit step) = CommitModeSkip) = false) as ->.
  { destruct (sp_CommitSet step) eqn:F; [|done]. apply bool_decide_eq_false. intros F2. by apply Hno. }
  unfold Effective. rewrite Hst, Hn. cbn. destruct (resolve_excl step) as [Hin Hlev].
  assert (forall P : Prop, (P <-> P \/ (@None Skip = None /\ opts_out step))) as Hout by (intros P; split; [by left|]; by intros [|[_ ?]]).
  destruct (resolve_none step) as [E|[(d0 & Hd & -> & E)|(c & Hc1 & Hc2 & Hc3 & E)]]; rewrite E; cbn.
  - eexists. split; [done|]. split_and!; [by rewrite HS, <-H1|intros i d; rewrite HS, H2|intros d; rewrite HS, H3]; (split; [by left|]; intros [?|[_ F]]; [done|exfalso]).
    + destruct F as (_ & F & _). by rewrite (Hin F) in E.
    + destruct F as (c & F1 & F2 & F3 & _). by rewrite (Hlev c F1 F2 F3) in E.
  - eexists. split; [done|]. cbn. split_and!; [by rewrite HS, <-H1| |intros d; rewrite HS, H3; split; [by left|]; intros [?|[_ F]]; [done|exfalso]; apply Hleft in F; by destruct Hd as [? _]; congruence].
    intros i d. rewrite HS. destruct (decide (i = n)) as [->|Hne].
    + rewrite lookup_insert_eq. split; [intros [= <-]; right; by split_and!|]. intros [F%own_below|[_ (_ & _ & ->)]]; done.
    + rewrite lookup_insert_ne, H2 by done. split; [by left|]. intros [?|[_ (? & _)]]; [done|congruence].
  - eexists. split; [done|]. cbn. fold (stage_message c). split_and!; [by rewrite HS, <-H1| |].
    + intros i d. rewrite HS, H2. split; [by left|]. intros [?|[_ (_ & [F _] & _)]]; [done|congruence].
    + intros d. rewrite HS. split; [intros [= <-]; right; split; [done|by exists c]|].
      intros [(i & x & _ & c' & _ & F2 & _ & ->)|[_ (c' & _ & F2 & _ & ->)]]; congruence.
Qed.

Lemma commit_fold n : (n <= length (sg_Chain st))%nat ->
  exists plan, foldl (plan_step canonical s name skipped) (Some (MkCommitPlan None ∅ false)) (take n (imap pair (sg_Chain st))) = Some plan /\ plan_upto n plan.
Proof.
  induction n as [|n IH]; intros Hn.
  { eexists. split; [done|]. assert (forall Q, ~ some_step 0 Q) as Hno by (intros Q (i & x & (Hi & _) & _); lia).
    split_and!; [|intros i d; cbn; rewrite lookup_empty|intros d]; (split; [done|]; by intros ?%Hno). }
  destruct (lookup_lt_is_Some_2 (sg_Chain st) n) as [step Hs]; [lia|]. destruct IH as (plan & E & HP); [lia|].
  rewrite (take_S_r _ n (n, step)), foldl_app, E by (by apply lookup_imap_pair). cbn -[plan_step]. by apply plan_step_upto.
Qed.
End plan.

(** The plan of a stage's commits says what the three levels of a spec say. It is
    suppressed exactly when a step that runs opts out with `commit: false`; a step has a
    commit of its own exactly when it runs and asks for one, with its message or the derived
    one; and the stage has one exactly when it is not suppressed and some step that runs
    leaves it to the stage or, where the stage says nothing, the pipeline, which asks for
    one. Steps that are skipped count for nothing. *)
Theorem commit_plan_spec (canonical : gostring -> gostring * bool) (s : PSpec) (name : gostring) (st : Stage) (skipped : list (option Skip)) :
  stageMap s name = Some st ->
  let runs i step := sg_Chain st !! i = Some step /\ mjoin (skipped !! i) = None in
  exists plan, planStageCommits canonical s name skipped = Some plan /\
    (cp_Suppressed plan = true <-> exists i step, runs i step /\ opts_out step) /\
    (forall i d, cp_StepDirectives plan !! i = Some d <-> exists step, runs i step /\ opts_in step /\ d = derived (sp_Commit step) (DerivedCommitMessage (pl_Name s) name (sp_Skill step))) /\
    (forall d, cp_StageDirective plan = Some d <-> cp_Suppressed plan = false /\
       exists i step c, runs i step /\ sp_CommitSet step = false /\ level_commit st s = Some c /\ cd_Mode c <> CommitModeSkip /\ d = derived c (DerivedStageCommitMessage (pl_Name s) name)).
Proof.
  intros Hst runs. unfold planStageCommits. rewrite Hst.
  destruct (commit_fold canonical s name st skipped Hst (length (sg_Chain st)) ltac:(done)) as (plan & E & H1 & H2 & H3).
  rewrite take_ge in E by (by rewrite length_imap). rewrite E.
  assert (forall i step, runs_at st skipped (length (sg_Chain st)) i step <-> runs i step) as Hr.
  { intros i step. unfold runs_at, runs. split; [by intros (_ & ? & ?)|]. intros [Hc ?]. split_and!; try done. by eapply lookup_lt_Some. }
  unfold some_step in H1, H2, H3. setoid_rewrite Hr in H1. setoid_rewrite Hr in H2. setoid_rewrite Hr in H3.
  assert (forall i d, cp_StepDirectives plan !! i = Some d <-> exists step, runs i step /\ opts_in step /\ d = derived (sp_Commit step) (DerivedCommitMessage (pl_Name s) name (sp_Skill step))) as H2'.
  { intros i d. rewrite H2. split; [intros (j & x & ? & (-> & ? & ?)); by exists x|]. intros (x & ? & ? & ?). exists i, x. by split_and!. }
  assert (forall d, cp_StageDirective plan = Some d <-> exists i step c, runs i step /\ sp_CommitSet step = false /\ level_commit st s = Some c /\ cd_Mode c <> CommitModeSkip /\
    d = derived c (DerivedStageCommitMessage (pl_Name s) name)) as H3'.
  { intros d. rewrite H3. split; [intros (i & x & ? & (c & ? & ? & ? & ?)); by exists i, x, c|]. intros (i & x & c & ? & ? & ? & ? & ?). exists i, x. split; [done|]. by exists c. }
  eexists. split; [done|]. destruct (cp_Suppressed plan) eqn:Es; cbn; rewrite ?Es; (split; [done|]; split; [done|]); intros d.
  - split; [done|]. by intros [? _].
  - rewrite H3'. split; [by split|by intros [_ ?]].
Qed.
