(* ===== verification/PipelineManifest.v ===== *)
(** Theorems on the manifest of a pipeline's run: its totals are those of its records, its
    records are those of the plan, and the commits it records are the commits that landed. A
    sample pipeline and its run follow, and behaviours of a run that the comments deny. *)
From Stdlib Require Import SpecFloat.
From S2P Require Import Prelude Regex Markdown Spec Shell Domains Duration Prices PriceFacts Pipeline PipelineRun PipelineFacts.

(** ** Totals *)

Definition was_skipped (r : StepRecord) : bool := bool_decide (sr_Status r = StatusSkipped).
Definition ran (steps : list StepRecord) : list StepRecord := List.filter (fun r => negb (was_skipped r)) steps.
Definition count (p : StepRecord -> bool) (steps : list StepRecord) : nat := length (List.filter p steps).
Definition tokens (u : ModelUsage) : Z := (mu_Input u + mu_Output u + mu_CacheRead u + mu_CacheCreation u)%Z.

(** The totals of a list of records, and of a manifest's stages. *)
Definition totals_from (steps : list StepRecord) (stagesSkipped : nat) : ManifestTotals :=
  MkManifestTotals (foldl usage_add no_usage (sr_Usage <$> ran steps)) (foldl (fun t u => wrap64 (t + tokens u)) 0%Z (sr_Usage <$> ran steps)) (length (ran steps))
    (count (fun r => bool_decide (sr_Status r = StatusFailed)) steps) (count was_skipped steps) stagesSkipped
    (count (fun r => bool_decide (sr_CommitStatus r = CommitStatusCommitted)) steps) (foldl add_model ∅ (sr_ModelUsage <$> ran steps)).
Definition all_steps (stages : list StageRecord) : list StepRecord := stages ≫= gr_Steps.
Definition stages_skipped (stages : list StageRecord) : nat := length (List.filter (fun g => bool_decide (gr_Status g = StatusSkipped)) stages).
Definition totals_of (stages : list StageRecord) : ManifestTotals := totals_from (all_steps stages) (stages_skipped stages).

Lemma ran_app a b : ran (a ++ b) = ran a ++ ran b.
Proof. apply List.filter_app. Qed.
Lemma count_app p a b : count p (a ++ b) = (count p a + count p b)%nat.
Proof. unfold count. by rewrite List.filter_app, length_app. Qed.

(** What one more record that ran adds. *)
Definition add_ran (t : ManifestTotals) (r : StepRecord) : ManifestTotals :=
  MkManifestTotals (usage_add (mt_Usage t) (sr_Usage r)) (wrap64 (mt_TokensTotal t + tokens (sr_Usage r))) (mt_StepsRun t + 1)
    (if bool_decide (sr_Status r = StatusFailed) then mt_StepsFailed t + 1 else mt_StepsFailed t)%nat (mt_StepsSkipped t) (mt_StagesSkipped t)
    (if bool_decide (sr_CommitStatus r = CommitStatusCommitted) then mt_CommitsMade t + 1 else mt_CommitsMade t)%nat (add_model (mt_ModelUsage t) (sr_ModelUsage r)).

Lemma totals_ran steps n r : sr_Status r <> StatusSkipped -> totals_from (steps ++ [r]) n = add_ran (totals_from steps n) r.
Proof.
  intros Hr. unfold totals_from, add_ran. rewrite ran_app, !count_app, !fmap_app, !foldl_app.
  assert (forall p, count p [r] = if p r then 1%nat else 0%nat) as Hcount by (intros p; unfold count; cbn; by destruct (p r)).
  rewrite !Hcount. replace (ran [r]) with [r] by (unfold ran, was_skipped; cbn; by rewrite bool_decide_false).
  replace (was_skipped r) with false by (unfold was_skipped; by rewrite bool_decide_false). rewrite Nat.add_0_r, length_app. cbn.
  f_equal; case_bool_decide; cbn; lia.
Qed.

Lemma totals_skips steps n rs : Forall (fun r => sr_Status r = StatusSkipped /\ sr_CommitStatus r = CommitStatusEmpty) rs ->
  totals_from (steps ++ rs) n = let t := totals_from steps n in
    MkManifestTotals (mt_Usage t) (mt_TokensTotal t) (mt_StepsRun t) (mt_StepsFailed t) (mt_StepsSkipped t + length rs) (mt_StagesSkipped t) (mt_CommitsMade t) (mt_ModelUsage t).
Proof.
  intros Hr. assert (ran rs = [] /\ count was_skipped rs = length rs /\ count (fun r => bool_decide (sr_Status r = StatusFailed)) rs = 0%nat /\
    count (fun r => bool_decide (sr_CommitStatus r = CommitStatusCommitted)) rs = 0%nat) as (E1 & E2 & E3 & E4).
  { induction Hr as [|r rs [Hs Hc] _ (I1 & I2 & I3 & I4)]; [done|]. unfold ran, count, was_skipped in *. cbn [List.filter]. rewrite Hs, Hc. cbn. exact (conj I1 (conj (f_equal S I2) (conj I3 I4))). }
  unfold totals_from. rewrite ran_app, !count_app, E1, E2, E3, E4. cbn. rewrite app_nil_r. f_equal; lia.
Qed.

(** ** The writer, on the stage it is writing *)

Definition with_last (f : list StepRecord -> list StepRecord) (totals : ManifestTotals) (pre : list StageRecord) (g : StageRecord) (m : Manifest) : Manifest :=
  MkManifest (mf_Status m) totals (pre ++ [with_steps f g]) (mf_Termination m).

Lemma valid_last pre g m : mf_Stages m = pre ++ [g] -> valid_stage (length pre + 1) m = true.
Proof. intros E. unfold valid_stage. rewrite E, length_app. apply andb_true_iff. cbn [length]. split; apply Nat.leb_le; lia. Qed.

Lemma alter_last {A} (f : A -> A) (pre : list A) x : alter f (length pre + 1 - 1)%nat (pre ++ [x]) = pre ++ [f x].
Proof. replace (length pre + 1 - 1)%nat with (length pre + 0)%nat by lia. by rewrite alter_app_r. Qed.

Lemma RecordStep_last pre g rec m : mf_Stages m = pre ++ [g] -> sr_CommitStatus rec = CommitStatusEmpty ->
  RecordStep (length pre + 1) rec m = with_last (fun s => s ++ [with_index (length s + 1) rec]) (add_ran (mf_Totals m) rec) pre g m.
Proof.
  intros E Hc. unfold RecordStep. rewrite (valid_last pre g) by done. cbn [negb]. unfold append_step, with_totals, with_stages, with_last. cbn. rewrite E, alter_last.
  f_equal. unfold add_ran, tokens. by rewrite Hc.
Qed.

Lemma RecordSkippedStep_last pre g rec m : mf_Stages m = pre ++ [g] ->
  RecordSkippedStep (length pre + 1) rec m = with_last (fun s => s ++ [with_index (length s + 1) rec])
    (let t := mf_Totals m in MkManifestTotals (mt_Usage t) (mt_TokensTotal t) (mt_StepsRun t) (mt_StepsFailed t) (mt_StepsSkipped t + 1) (mt_StagesSkipped t) (mt_CommitsMade t) (mt_ModelUsage t)) pre g m.
Proof.
  intros E. unfold RecordSkippedStep. rewrite (valid_last pre g) by done. cbn [negb]. unfold append_step, with_totals, with_stages, with_last. cbn. by rewrite E, alter_last.
Qed.

Lemma RecordStepCommit_last pre g steps rec sha message status m : mf_Stages m = pre ++ [g] -> gr_Steps g = steps ++ [rec] ->
  RecordStepCommit (length pre + 1) (length steps + 1) sha message status m =
  with_last (fun _ => steps ++ [with_commit sha message status rec])
    (let t := mf_Totals m in MkManifestTotals (mt_Usage t) (mt_TokensTotal t) (mt_StepsRun t) (mt_StepsFailed t) (mt_StepsSkipped t) (mt_StagesSkipped t)
       (if bool_decide (status = CommitStatusCommitted) then mt_CommitsMade t + 1 else mt_CommitsMade t)%nat (mt_ModelUsage t)) pre g m.
Proof.
  intros E Eg. unfold RecordStepCommit. rewrite (valid_last pre g) by done. cbn [negb].
  assert (mf_Stages m !! (length pre + 1 - 1)%nat = Some g) as ->.
  { rewrite E. replace (length pre + 1 - 1)%nat with (length pre) by lia. by apply list_lookup_middle. }
  rewrite Eg, length_app. cbn [length]. rewrite (proj2 (Nat.leb_le 1 (length steps + 1))), (proj2 (Nat.leb_le (length steps + 1) (length steps + 1))) by lia. cbn [negb andb].
  unfold with_totals, with_stages, with_last. cbn [mf_Status mf_Totals mf_Stages mf_Termination]. rewrite E, alter_last. unfold with_steps. by rewrite Eg, alter_last.
Qed.

(** A step that completes, with its commit. *)
Lemma record_and_commit pre g rec sha message status m : mf_Stages m = pre ++ [g] -> sr_CommitStatus rec = CommitStatusEmpty ->
  let rec' := with_commit sha message status (with_index (length (gr_Steps g) + 1) rec) in
  RecordStepCommit (length pre + 1) (length (gr_Steps g) + 1) sha message status (RecordStep (length pre + 1) rec m) =
  with_last (fun s => s ++ [rec']) (add_ran (mf_Totals m) rec') pre g m.
Proof.
  intros E Hc rec'. rewrite (RecordStep_last pre g) by done. erewrite RecordStepCommit_last; [|done|done]. unfold with_last, with_steps, add_ran. cbn.
  rewrite Hc. cbn. done.
Qed.

Definition totals_ok (m : Manifest) : Prop := mf_Totals m = totals_of (mf_Stages m).

Lemma all_steps_last pre g f : all_steps (pre ++ [with_steps f g]) = all_steps pre ++ f (gr_Steps g).
Proof. unfold all_steps. rewrite bind_app. cbn. by rewrite app_nil_r. Qed.
Lemma stages_skipped_last pre g f : stages_skipped (pre ++ [with_steps f g]) = stages_skipped (pre ++ [g]).
Proof. unfold stages_skipped. rewrite !List.filter_app, !length_app. cbn. by destruct (bool_decide (gr_Status g = StatusSkipped)). Qed.
Lemma all_steps_snoc pre g : all_steps (pre ++ [g]) = all_steps pre ++ gr_Steps g.
Proof. unfold all_steps. rewrite bind_app. cbn. by rewrite app_nil_r. Qed.

Lemma totals_push pre g r m : mf_Stages m = pre ++ [g] -> totals_ok m -> sr_Status r <> StatusSkipped ->
  totals_ok (with_last (fun s => s ++ [r]) (add_ran (mf_Totals m) r) pre g m).
Proof.
  unfold totals_ok, totals_of. intros E Hok Hr. unfold with_last. cbn [mf_Totals mf_Stages]. rewrite all_steps_last, stages_skipped_last, Hok, E, all_steps_snoc, app_assoc. by rewrite totals_ran.
Qed.

Lemma totals_push_skipped pre g r m : mf_Stages m = pre ++ [g] -> totals_ok m -> sr_Status r = StatusSkipped -> sr_CommitStatus r = CommitStatusEmpty ->
  totals_ok (with_last (fun s => s ++ [r]) (let t := mf_Totals m in MkManifestTotals (mt_Usage t) (mt_TokensTotal t) (mt_StepsRun t) (mt_StepsFailed t) (mt_StepsSkipped t + 1) (mt_StagesSkipped t) (mt_CommitsMade t) (mt_ModelUsage t)) pre g m).
Proof.
  unfold totals_ok, totals_of. intros E Hok Hr Hc. unfold with_last. cbn [mf_Totals mf_Stages]. rewrite all_steps_last, stages_skipped_last, Hok, E, all_steps_snoc, app_assoc. by rewrite (totals_skips _ _ [r]) by (by repeat constructor).
Qed.

Lemma totals_begin name m : totals_ok m -> totals_ok (fst (BeginStage name m)).
Proof.
  unfold totals_ok, totals_of, BeginStage, with_stages. intros Hok. cbn [fst mf_Totals mf_Stages]. rewrite Hok, all_steps_snoc. cbn [gr_Steps]. rewrite app_nil_r. f_equal.
  unfold stages_skipped. rewrite List.filter_app, length_app. cbn. rewrite bool_decide_false by done. cbn. lia.
Qed.

Lemma totals_end pre g status m : mf_Stages m = pre ++ [g] -> gr_Status g <> StatusSkipped -> status <> StatusSkipped -> totals_ok m -> totals_ok (EndStage (length pre + 1) status m).
Proof.
  unfold totals_ok, totals_of. intros E Hg Hs Hok. unfold EndStage. rewrite (valid_last pre g) by done. cbn [negb with_stages mf_Totals mf_Stages]. rewrite Hok, E, alter_last, !all_steps_snoc. cbn [gr_Steps]. f_equal.
  unfold stages_skipped. rewrite !List.filter_app, !length_app. cbn. by rewrite !bool_decide_false.
Qed.

Lemma totals_passed name skip steps m : Forall (fun r => sr_Status r = StatusSkipped /\ sr_CommitStatus r = CommitStatusEmpty) steps -> totals_ok m -> totals_ok (RecordSkippedStage name skip steps m).
Proof.
  unfold totals_ok, totals_of. intros Hr Hok. unfold RecordSkippedStage, with_totals, with_stages. cbn [mf_Totals mf_Stages]. rewrite Hok, all_steps_snoc. cbn [gr_Steps]. rewrite totals_skips.
  - cbn. rewrite length_imap. unfold stages_skipped. rewrite List.filter_app, length_app. done.
  - apply Forall_lookup. intros i r. rewrite list_lookup_imap. destruct (steps !! i) as [r0|] eqn:E; cbn; [|done]. intros [= <-]. cbn. rewrite Forall_lookup in Hr. by eapply Hr.
Qed.

(** ** What the records tell *)

Definition commit_msgs (acts : list RunAct) : list gostring := omap (fun a => match a with ACommit m => Some m | _ => None end) acts.
Definition committed_msgs (steps : list StepRecord) : list gostring :=
  omap (fun r => if bool_decide (sr_CommitStatus r = CommitStatusCommitted) then Some (sr_CommitMessage r) else None) steps.

(** The commit of a step that completed, as its record has it. *)
Definition commit_told (p : CommitPolicy) (r : StepRecord) : Prop :=
  match p with
  | PFlag => sr_CommitStatus r = CommitStatusSkippedByFlag
  | PSuppressed => sr_CommitStatus r = CommitStatusSkippedBySpec
  | PDeferred => sr_CommitStatus r = CommitStatusDeferredToStage
  | PNothing => sr_CommitStatus r = CommitStatusEmpty
  | PAttempt m => sr_CommitMessage r = m /\ (sr_CommitStatus r = CommitStatusCommitted \/ sr_CommitStatus r = CommitStatusNoOp)
  end.
(** The record of a step that ended the run. *)
Definition end_told (p : CommitPolicy) (r : StepRecord) : Prop :=
  ((sr_Status r = StatusFailed \/ sr_Status r = StatusCancelled) /\ sr_CommitStatus r = CommitStatusEmpty) \/
  (exists m, p = PAttempt m /\ sr_Status r = StatusCompleted /\ sr_CommitMessage r = m /\ sr_CommitStatus r = CommitStatusFailed).

Section told.
Context (canonical : gostring -> gostring * bool) (family : gostring -> gostring) (H : RunHost) (spec : PSpec) (opts : RunOptions) (ext : option Extensions).

Definition stage_policy (st : Stage) (i : nat) : CommitPolicy :=
  match planStageCommits canonical spec (sg_Name st) (ss_Steps (plan_stage ext st)), lastRun (plan_stage ext st) with
  | Some plan, Some last => policy opts plan i last
  | _, _ => PNothing
  end.

(** The record of the step at a place of a stage's chain; one that is not final may be of
    the step that ended the run. *)
Definition told_step (final : bool) (st : Stage) (i : nat) (r : StepRecord) : Prop :=
  exists step, sg_Chain st !! i = Some step /\ sr_Index r = (i + 1)%nat /\ sr_Skill r = sp_Skill step /\
    match ss_Steps (plan_stage ext st) !! i with
    | Some (Some skip) => sr_Status r = StatusSkipped /\ sr_Skip r = Some skip /\ sr_CommitStatus r = CommitStatusEmpty
    | _ => sr_Skip r = None /\ ((sr_Status r = StatusCompleted /\ commit_told (stage_policy st i) r) \/ (final = false /\ end_told (stage_policy st i) r))
    end.
(** The records of a stage: all are final but, in a stage that failed, the last one. *)
Definition told_steps (final : bool) (st : Stage) (steps : list StepRecord) : Prop :=
  forall i r, steps !! i = Some r -> told_step (final || bool_decide (S i < length steps)%nat) st i r.

Definition told_stage (final : bool) (k : nat) (st : Stage) (g : StageRecord) : Prop :=
  gr_Index g = (k + 1)%nat /\ gr_Name g = sg_Name st /\ gr_Skip g = ss_Stage (plan_stage ext st) /\
  gr_Status g = (if bool_decide (is_Some (ss_Stage (plan_stage ext st))) then StatusSkipped else if final then StatusCompleted else StatusFailed) /\
  told_steps final st (gr_Steps g) /\ (final = true -> length (gr_Steps g) = length (sg_Chain st)).

(** The chain's invariant, after [i] steps of the stage at place [length pre]. *)
Definition writing (pre : list StageRecord) (st : Stage) (i : nat) (w : RunWorld) : Prop :=
  forall m, rw_mw w = Some m -> exists g, mf_Stages m = pre ++ [g] /\ gr_Index g = (length pre + 1)%nat /\ gr_Name g = sg_Name st /\ gr_Skip g = None /\ gr_Status g = StatusRunning /\
    length (gr_Steps g) = i /\ told_steps true st (gr_Steps g) /\ totals_ok m /\ committed_msgs (all_steps (pre ++ [g])) = commit_msgs (rw_acts w).
Definition stopped (pre : list StageRecord) (st : Stage) (w : RunWorld) : Prop :=
  forall m, rw_mw w = Some m -> exists g, mf_Stages m = pre ++ [g] /\ gr_Index g = (length pre + 1)%nat /\ gr_Name g = sg_Name st /\ gr_Skip g = None /\ gr_Status g = StatusRunning /\
    told_steps false st (gr_Steps g) /\ totals_ok m /\
    (committed_msgs (all_steps (pre ++ [g])) = commit_msgs (rw_acts w) \/ exists msg, committed_msgs (all_steps (pre ++ [g])) ++ [msg] = commit_msgs (rw_acts w)).

Lemma told_step_weaken b st i r : told_step true st i r -> told_step b st i r.
Proof. intros (step & H1 & H2 & H3 & H4). exists step. split_and!; [done..|]. destruct (ss_Steps _ !! i) as [[]|]; [done|..]; naive_solver. Qed.

Lemma told_steps_push b st steps r :
  told_steps true st steps -> told_step b st (length steps) r -> told_steps b st (steps ++ [r]).
Proof.
  intros Hs Hr i x Hx. apply lookup_snoc_Some in Hx as [[Hlt Hx]|[-> <-]]; [|].
  - apply told_step_weaken. specialize (Hs i x Hx). by rewrite orb_true_l in Hs.
  - rewrite length_app. cbn. rewrite bool_decide_false by lia. by rewrite orb_false_r.
Qed.

Lemma told_steps_weaken st steps : told_steps true st steps -> told_steps false st steps.
Proof. intros Hs i x Hx. apply told_step_weaken. exact (Hs i x Hx). Qed.

Lemma commit_msgs_app a b : commit_msgs (a ++ b) = commit_msgs a ++ commit_msgs b.
Proof. apply omap_app. Qed.
Lemma commit_msgs_quiet s acts : Forall (quiet s) acts -> commit_msgs acts = [].
Proof. induction 1 as [|a l Ha _ IH]; [done|]. unfold commit_msgs in *. cbn. by destruct a. Qed.
Lemma committed_app a b : committed_msgs (a ++ b) = committed_msgs a ++ committed_msgs b.
Proof. apply omap_app. Qed.
Lemma committed_none r : sr_CommitStatus r <> CommitStatusCommitted -> committed_msgs [r] = [].
Proof. intros Hr. unfold committed_msgs. cbn. by rewrite bool_decide_false. Qed.

Lemma committed_nil rs : Forall (fun r => sr_CommitStatus r <> CommitStatusCommitted) rs -> committed_msgs rs = [].
Proof. induction 1 as [|r rs Hr _ IH]; [done|]. unfold committed_msgs in *. cbn. by rewrite bool_decide_false. Qed.

Lemma writing_stopped pre st i w : writing pre st i w -> stopped pre st w.
Proof. intros Hw m Hm. destruct (Hw m Hm) as (g & ? & ? & ? & ? & ? & _ & Ht & ? & ?). exists g. split_and!; try done; [by apply told_steps_weaken|by left]. Qed.

(** The acts of a step before its commit change nothing here. *)
Lemma stopped_acts pre st w acts : commit_msgs acts = [] -> stopped pre st w -> stopped pre st (MkRunWorld (rw_acts w ++ acts) (rw_mw w)).
Proof. intros Ha Hs m Hm. destruct (Hs m Hm) as (g & Hg). exists g. cbn. rewrite commit_msgs_app, Ha, app_nil_r. exact Hg. Qed.

(** What a completed step's record tells of its commit. *)
Lemma outcome_told p o commits r : outcome_ok p o commits ->
  let r' := with_commit (oc_SHA o) (oc_Message o) (oc_Status o) r in
  (oc_Err o = None -> commit_told p r' /\ committed_msgs [r'] = commit_msgs commits) /\
  (is_Some (oc_Err o) -> sr_Status r = StatusCompleted -> end_told p r' /\ committed_msgs [r'] = [] /\ (commit_msgs commits = [] \/ exists m, commit_msgs commits = [m])).
Proof.
  intros Ho r'. unfold r', commit_told, end_told, committed_msgs.
  destruct p as [| |m| |]; cbn in Ho |- *.
  1,2,4,5: destruct Ho as [-> ->]; cbn; (split; [done|by intros [? [=]]]).
  destruct Ho as (<- & [(Hs & He & ->)|[(Hs & He & ->)|(Hs & [e He] & Hc)]]); rewrite Hs, He; cbn.
  - split; [|by intros [? [=]]]. intros _. split; [split; [done|by left]|]. by rewrite bool_decide_true.
  - split; [|by intros [? [=]]]. intros _. split; [split; [done|by right]|]. by rewrite bool_decide_false.
  - split; [done|]. intros _ Hr. split; [right; by eauto|]. split; [by rewrite bool_decide_false|]. destruct Hc as [->| ->]; cbn; [by left|right; by eauto].
Qed.

Section chain.
Context (pre : list StageRecord) (u : StageRun).
Abbreviation st := (ru_Stage u).
Context (Hidx : ru_Index u = (length pre + 1)%nat).
Context (Hplan : planStageCommits canonical spec (sg_Name st) (ss_Steps (plan_stage ext st)) = Some (ru_Plan u)) (Hlast : lastRun (plan_stage ext st) = Some (ru_Last u)).

Lemma policy_here i : stage_policy st i = policy opts (ru_Plan u) i (ru_Last u).
Proof. unfold stage_policy. by rewrite Hplan, Hlast. Qed.

Lemma writing_skip i step skip w :
  sg_Chain st !! i = Some step -> ss_Steps (plan_stage ext st) !! i = Some (Some skip) -> writing pre st i w -> writing pre st (S i) (skipped_world canonical spec u i step skip w).
Proof.
  intros Hi Hk Hw m'. unfold skipped_world. cbn. destruct (rw_mw w) as [m|] eqn:Em; cbn; [|done]. intros [= <-].
  destruct (Hw m Em) as (g & E & H1 & H2 & H3 & H4 & Hlen & Ht & Hok & Hc). rewrite Hidx, (RecordSkippedStep_last pre g) by done.
  set (r := skippedStepRecord _ _ _). exists (with_steps (fun s => s ++ [with_index (length s + 1) r]) g). cbn [gr_Index gr_Name gr_Skip gr_Status gr_Steps with_steps]. split_and!; try done.
  - rewrite length_app. cbn. lia.
  - apply told_steps_push; [done|]. exists step. cbn. rewrite Hlen, Hk. by split_and!.
  - by apply totals_push_skipped.
  - rewrite all_steps_last, committed_app. rewrite all_steps_snoc, committed_app in Hc. rewrite committed_app, committed_none by done. by rewrite app_nil_r.
Qed.

Lemma step_acts_quiet acts line : Forall (quiet (ru_Session u)) acts -> commit_msgs (acts ++ [ADeliver (ru_Session u) line]) = [].
Proof. intros Hq. by rewrite commit_msgs_app, (commit_msgs_quiet _ _ Hq). Qed.

Lemma told_running b i step r : sg_Chain st !! i = Some step -> ss_Steps (plan_stage ext st) !! i = Some None ->
  sr_Index r = (i + 1)%nat -> sr_Skill r = sp_Skill step -> sr_Skip r = None ->
  (sr_Status r = StatusCompleted /\ commit_told (stage_policy st i) r \/ b = false /\ end_told (stage_policy st i) r) -> told_step b st i r.
Proof. intros Hi Hk H1 H2 H3 H4. exists step. rewrite Hk. by split_and!. Qed.

Lemma writing_step i step w w' r :
  sg_Chain st !! i = Some step -> ss_Steps (plan_stage ext st) !! i = Some None -> writing pre st i w ->
  step_res canonical H spec opts u i step w w' r -> match r with None => writing pre st (S i) w' | Some _ => stopped pre st w' end.
Proof.
  intros Hi Hk Hw Hres. destruct Hres as [acts e Hq|acts rec e Hq Hrec Hst|acts rec o commits Hq Hrec Hst Hmo Ho].
  - apply stopped_acts; [by eapply commit_msgs_quiet|]. by eapply writing_stopped.
  - intros m'. cbn. destruct (rw_mw w) as [m|] eqn:Em; cbn; [|done]. intros [= <-]. destruct Hrec as (R1 & R2 & R3 & R4).
    destruct (Hw m Em) as (g & E & H1 & H2 & H3 & H4 & Hlen & Ht & Hok & Hc). rewrite Hidx, (RecordStep_last pre g) by done.
    exists (with_steps (fun s => s ++ [with_index (length s + 1) rec]) g). cbn [gr_Index gr_Name gr_Skip gr_Status gr_Steps with_steps]. split_and!; try done.
    + apply told_steps_push; [done|]. rewrite Hlen. eapply told_running; try done. right. split; [done|]. left. by cbn.
    + apply (totals_push pre g (with_index _ rec)); [done|done|]. cbn. by destruct Hst as [->| ->].
    + left. rewrite all_steps_last, app_assoc, committed_app, <-all_steps_snoc, committed_none by (cbn; by rewrite R4). by rewrite app_nil_r, commit_msgs_app, step_acts_quiet, app_nil_r, Hc.
  - assert (forall m, rw_mw w = Some m -> exists g, mf_Stages m = pre ++ [g] /\ gr_Index g = (length pre + 1)%nat /\ gr_Name g = sg_Name st /\ gr_Skip g = None /\ gr_Status g = StatusRunning /\
      length (gr_Steps g) = i /\ told_steps true st (gr_Steps g) /\ committed_msgs (all_steps (pre ++ [g])) = commit_msgs (rw_acts w) /\
      let r' := with_commit (oc_SHA o) (oc_Message o) (oc_Status o) (with_index (i + 1) rec) in
      RecordStepCommit (ru_Index u) (i + 1) (oc_SHA o) (oc_Message o) (oc_Status o) (RecordStep (ru_Index u) rec m) = with_last (fun s => s ++ [r']) (add_ran (mf_Totals m) r') pre g m /\
      totals_ok (with_last (fun s => s ++ [r']) (add_ran (mf_Totals m) r') pre g m)) as Hm.
    { intros m Em. destruct (Hw m Em) as (g & E & H1 & H2 & H3 & H4 & Hlen & Ht & Hok & Hc). exists g. destruct Hrec as (_ & _ & _ & R4). split_and!; try done. intros r'. split.
      - rewrite Hidx. pose proof (record_and_commit pre g rec (oc_SHA o) (oc_Message o) (oc_Status o) m E R4) as HR. by rewrite Hlen in HR.
      - apply totals_push; [done|done|]. cbn. by rewrite Hst. }
    set (line := step_line _ _ _ _ _ _ _ _ _). destruct (outcome_told _ _ _ (with_index (i + 1) rec) Ho) as [Hgood Hbad].
    destruct Hrec as (R1 & R2 & R3 & R4). destruct (oc_Err o) as [e|]; cbn [fmap option_fmap option_map].
    + intros m'. cbn [rw_mw rw_acts]. destruct (rw_mw w) as [m|] eqn:Em; cbn; [|done]. intros [= <-].
      destruct (Hm m eq_refl) as (g & E & H1 & H2 & H3 & H4 & Hlen & Ht & Hc & Eq & Hok). rewrite Eq. destruct (Hbad ltac:(by eexists) Hst) as (B1 & B2 & B3).
      eexists (with_steps _ g). split; [done|]. cbn [gr_Index gr_Name gr_Skip gr_Status gr_Steps with_steps]. split_and!; try done.
      * apply told_steps_push; [done|]. rewrite Hlen. eapply told_running; try done. right. split; [done|]. by rewrite policy_here.
      * rewrite all_steps_last, app_assoc, committed_app, <-all_steps_snoc, B2, app_nil_r, Hc, commit_msgs_app. change (ADeliver (ru_Session u) line :: commits) with ([ADeliver (ru_Session u) line] ++ commits).
        rewrite app_assoc, commit_msgs_app, step_acts_quiet by done. cbn [app]. destruct B3 as [->|[x ->]]; [left; by rewrite app_nil_r|right; by exists x].
    + intros m'. cbn [rw_mw rw_acts]. destruct (rw_mw w) as [m|] eqn:Em; cbn; [|done]. intros [= <-].
      destruct (Hm m eq_refl) as (g & E & H1 & H2 & H3 & H4 & Hlen & Ht & Hc & Eq & Hok). rewrite Eq. destruct (Hgood eq_refl) as (B1 & B2).
      eexists (with_steps _ g). split; [done|]. cbn [gr_Index gr_Name gr_Skip gr_Status gr_Steps with_steps]. split_and!; try done.
      * rewrite length_app. cbn. lia.
      * apply told_steps_push; [done|]. rewrite Hlen. eapply told_running; try done. left. by rewrite policy_here.
      * rewrite all_steps_last, app_assoc, committed_app, <-all_steps_snoc, B2, Hc, commit_msgs_app. change (ADeliver (ru_Session u) line :: commits) with ([ADeliver (ru_Session u) line] ++ commits).
        by rewrite (app_assoc acts), (commit_msgs_app (acts ++ _)), step_acts_quiet by done.
Qed.

Lemma chain_told w w' r :
  writing pre st 0 w -> run_chain canonical family H spec opts u (ss_Steps (plan_stage ext st)) 0 (sg_Chain st) w = (w', inr r) ->
  match r with None => writing pre st (length (sg_Chain st)) w' | Some _ => stopped pre st w' end.
Proof.
  intros H0 Hrun. apply run_chain_rule with (P := writing pre st) (Q := stopped pre st) in Hrun.
  - by destruct Hrun as [[[= ->] HP]|(e & [= ->] & HQ)].
  - apply length_plan_stage.
  - intros. by apply writing_skip.
  - intros i step x x' Hi Hk HP Hres. by apply (writing_step i step x x' None).
  - intros i step x x' e Hi Hk HP Hres. by apply (writing_step i step x x' (Some e)).
  - done.
Qed.
End chain.

(** ** Stages *)

Lemma stage_res_len st idx w w' r : stage_res canonical family H spec opts st (plan_stage ext st) idx w w' r -> stages_len w' = stages_len w.
Proof.
  intros Hres. destruct Hres as [|acts e _|u argv env w1 r Hst _ _ _ _ _ Hrun]; [done|done|]. cbv zeta in Hrun. set (w0 := MkRunWorld _ _) in Hrun.
  change (stages_len w1 = stages_len w0). destruct Hrun as [[-> _]|Hrun]; [done|].
  apply run_chain_rule with (P := fun _ x => stages_len x = stages_len w0) (Q := fun x => stages_len x = stages_len w0) in Hrun; [|apply length_plan_stage|..|done].
  - by destruct Hrun as [[_ ?]|(? & _ & ?)].
  - intros i step skip x _ _ HP. by rewrite skipped_world_len.
  - intros i step x x' _ _ HP Hs. by rewrite (step_res_len _ _ _ _ _ _ _ _ _ _ Hs).
  - intros i step x x' e _ _ HP Hs. by rewrite (step_res_len _ _ _ _ _ _ _ _ _ _ Hs).
Qed.

Lemma writing_acts pre st i w acts : commit_msgs acts = [] -> writing pre st i w -> writing pre st i (MkRunWorld (rw_acts w ++ acts) (rw_mw w)).
Proof. intros Ha Hs m Hm. destruct (Hs m Hm) as (g & Hg). exists g. cbn. rewrite commit_msgs_app, Ha, app_nil_r. exact Hg. Qed.

Lemma stage_told_by pre st idx w w' r :
  (is_Some (rw_mw w) -> idx = (length pre + 1)%nat) -> writing pre st 0 w ->
  stage_res canonical family H spec opts st (plan_stage ext st) idx w w' r ->
  match r with None => writing pre st (length (sg_Chain st)) w' | Some _ => stopped pre st w' end.
Proof.
  intros Hidx Hw Hres. pose proof (stage_res_len _ _ _ _ _ Hres) as Hlen. destruct (rw_mw w) as [m|] eqn:Em.
  2:{ assert (rw_mw w' = None) as Hn by (unfold stages_len in Hlen; rewrite Em in Hlen; by destruct (rw_mw w')). destruct r; intros m Hm; congruence. }
  specialize (Hidx ltac:(by eexists)). destruct Hres as [Hc|acts e Ha|u argv env w1 r Hst Hse Hix _ Hl Hp Hrun].
  - by rewrite Hc.
  - apply stopped_acts; [by destruct Ha as [->| ->]|]. by eapply writing_stopped.
  - cbv zeta in Hrun. set (w0 := MkRunWorld _ _) in Hrun. assert (writing pre st 0 w0) as Hw0 by exact (writing_acts pre st 0 w [AKill _; ASpawn _ _ _] eq_refl Hw).
    assert (match r with None => writing pre st (length (sg_Chain st)) w1 | Some _ => stopped pre st w1 end) as Hw1.
    { destruct Hrun as [[-> [? ->]]|Hrun]; [by eapply writing_stopped|]. subst st. apply (chain_told pre u) in Hrun; try done. congruence. }
    destruct r; [exact (stopped_acts pre st w1 [AKill _] eq_refl Hw1)|exact (writing_acts pre st _ w1 [AKill _] eq_refl Hw1)].
Qed.

(** The invariant of the run over the stages, and what holds where it ends early. *)
Definition told_run (L : list Stage) (k : nat) (w : RunWorld) : Prop :=
  forall m, rw_mw w = Some m -> length (mf_Stages m) = k /\ totals_ok m /\ committed_msgs (all_steps (mf_Stages m)) = commit_msgs (rw_acts w) /\
    forall j g, mf_Stages m !! j = Some g -> exists st, L !! j = Some st /\ told_stage true j st g.
Definition told_end (L : list Stage) (w : RunWorld) : Prop :=
  forall m, rw_mw w = Some m -> totals_ok m /\
    (committed_msgs (all_steps (mf_Stages m)) = commit_msgs (rw_acts w) \/ exists msg, committed_msgs (all_steps (mf_Stages m)) ++ [msg] = commit_msgs (rw_acts w)) /\
    forall j g, mf_Stages m !! j = Some g -> exists st, L !! j = Some st /\ told_stage (bool_decide (S j < length (mf_Stages m))%nat) j st g.

Lemma begun_writing L k st w : L !! k = Some st -> told_run L k w -> forall m, rw_mw w = Some m ->
  writing (mf_Stages m) st 0 (stage_begun st w) /\ stage_index w = (length (mf_Stages m) + 1)%nat.
Proof.
  intros Hk Ht m Hm. destruct (Ht m Hm) as (Hlen & Hok & Hc & _). split; [|unfold stage_index; by rewrite Hm].
  intros m'. unfold stage_begun. cbn [rw_mw rw_acts]. rewrite Hm. cbn. intros [= <-]. eexists. split_and!; try done.
  - by apply totals_begin.
  - rewrite all_steps_snoc. cbn. by rewrite app_nil_r.
Qed.

(** A stage that was written, at its end. *)
Lemma ended_stage (b : bool) k st m g pre :
  ss_Stage (plan_stage ext st) = None -> length pre = k ->
  mf_Stages m = pre ++ [g] -> gr_Index g = (length pre + 1)%nat -> gr_Name g = sg_Name st -> gr_Skip g = None -> gr_Status g = StatusRunning ->
  told_steps b st (gr_Steps g) -> (b = true -> length (gr_Steps g) = length (sg_Chain st)) -> totals_ok m ->
  let status := if b then StatusCompleted else StatusFailed in
  exists g', mf_Stages (EndStage (length pre + 1) status m) = pre ++ [g'] /\ gr_Steps g' = gr_Steps g /\ told_stage b k st g' /\ totals_ok (EndStage (length pre + 1) status m).
Proof.
  intros Hss Hk E H1 H2 H3 H4 Ht Hlen Hok status. eexists. split_and!.
  - unfold EndStage. rewrite (valid_last pre g) by done. cbn [negb with_stages mf_Stages]. by rewrite E, alter_last.
  - done.
  - split_and!; cbn; try done; [by rewrite H1, Hk|by rewrite H3|]. rewrite Hss, bool_decide_false by (by intros [? [=]]). by destruct b.
  - apply (totals_end pre g); [done|by rewrite H4|by destruct b|done].
Qed.

Lemma told_all L k st skip w : L !! k = Some st -> ss_Stage (plan_stage ext st) = Some skip -> told_run L k w -> told_run L (S k) (passed_over canonical spec st (plan_stage ext st) skip w).
Proof.
  intros Hk Hss Ht m'. unfold passed_over. cbn [rw_mw rw_acts]. destruct (rw_mw w) as [m|] eqn:Em; cbn; [|done]. intros [= <-].
  destruct (Ht m Em) as (Hlen & Hok & Hc & Hall). set (steps := imap _ _).
  assert (forall i r, steps !! i = Some r -> exists step sk, sg_Chain st !! i = Some step /\ ss_Steps (plan_stage ext st) !! i = Some (Some sk) /\
    r = skippedStepRecord step (effectiveAgent canonical spec (sg_Name st) i) sk) as Hsteps.
  { intros i r. unfold steps. rewrite list_lookup_imap. destruct (sg_Chain st !! i) as [step|] eqn:Ei; cbn; [|done]. intros [= <-].
    destruct (lookup_lt_is_Some_2 (ss_Steps (plan_stage ext st)) i) as [[sk|] Hsk]; [rewrite length_plan_stage; by eapply lookup_lt_Some|by rewrite Hsk; eauto|].
    exfalso. apply list_elem_of_lookup_2 in Hsk. unfold plan_stage in Hss, Hsk. destruct (negb _); cbn in *; [by apply list_elem_of_fmap in Hsk as (? & [=] & _)|].
    apply (first_none_iff 0) in Hsk as [? Hn]. rewrite Hn in Hss. by rewrite andb_false_r in Hss. }
  assert (Forall (fun r => sr_Status r = StatusSkipped /\ sr_CommitStatus r = CommitStatusEmpty) steps) as Hsk.
  { apply Forall_lookup. intros i r Hr. destruct (Hsteps i r Hr) as (step & sk & _ & _ & ->). done. }
  split_and!.
  - cbn [RecordSkippedStage with_totals with_stages mf_Stages]. rewrite length_app. cbn. lia.
  - by apply totals_passed.
  - cbn [RecordSkippedStage with_totals with_stages mf_Stages]. rewrite all_steps_snoc, committed_app, Hc. cbn [gr_Steps]. rewrite committed_nil; [by rewrite app_nil_r|]. apply Forall_lookup. intros i r. rewrite list_lookup_imap. destruct (steps !! i) as [r0|] eqn:E0; cbn; [|done]. intros [= <-]. cbn.
    rewrite Forall_lookup in Hsk. by destruct (Hsk i r0 E0) as [_ ->].
  - intros j g Hg. cbn [RecordSkippedStage with_totals with_stages mf_Stages] in Hg. apply lookup_snoc_Some in Hg as [[_ Hg]|[-> <-]]; [by apply Hall|]. exists st. rewrite Hlen. split; [done|].
    split_and!; cbn [gr_Index gr_Name gr_Skip gr_Status gr_Steps]; [done|done|by rewrite Hss|by rewrite Hss, bool_decide_true by (by eexists)| |intros _; unfold steps; by rewrite !length_imap].
    intros i r. rewrite list_lookup_imap. destruct (steps !! i) as [r0|] eqn:E0; cbn; [|done]. intros [= <-].
    destruct (Hsteps i r0 E0) as (step & sk & Hi & Hsk2 & ->). exists step. cbn [with_index sr_Index sr_Skill sr_Status sr_Skip sr_CommitStatus]. rewrite Hsk2. by split_and!.
Qed.

Lemma run_told L skips w w' r :
  (forall st, st ∈ L -> skips_of skips (sg_Name st) = plan_stage ext st) -> told_run L 0 w ->
  run_stages canonical family H spec opts skips false L w = (w', r) ->
  exists e, r = inr e /\ match e with None => told_run L (length L) w' | Some _ => told_end L w' end.
Proof.
  intros Hskips H0 Hrun. apply run_stages_rule with (ext := ext) (P := told_run L) (Q := told_end L) in Hrun; [|done|..|done].
  - destruct Hrun as [[-> HP]|(e & -> & HQ)]; [by exists None|by exists (Some e)].
  - intros k st skip x Hk Hss Ht. by apply told_all.
  - intros k st x x1 Hk Hss Ht Hres m' Hm'. pose proof (stage_res_len _ _ _ _ _ Hres) as Hlen.
    cbn [ended rw_mw rw_acts] in *. destruct (rw_mw x1) as [m1|] eqn:Em1; [|done]. injection Hm' as <-.
    destruct (rw_mw x) as [m|] eqn:Em; [|unfold stages_len, stage_begun in Hlen; cbn in Hlen; by rewrite Em, Em1 in Hlen].
    destruct (begun_writing L k st x Hk Ht m Em) as [Hw Hix]. destruct (Ht m Em) as (Hlm & _ & _ & Hall).
    apply (stage_told_by (mf_Stages m)) in Hres; [|done|done]. destruct (Hres m1 Em1) as (g & E & G1 & G2 & G3 & G4 & Gl & Gt & Gok & Gc).
    destruct (ended_stage true k st m1 g (mf_Stages m)) as (g' & E' & Es & Hg' & Hok'); try done. rewrite Hix.
    split_and!; [rewrite E', length_app; cbn; lia|done|by rewrite E', all_steps_snoc, Es, <-all_steps_snoc|].
    intros j x0 Hx. rewrite E' in Hx. apply lookup_snoc_Some in Hx as [[_ Hx]|[-> <-]]; [by apply Hall|]. exists st. by rewrite Hlm.
  - intros k st x x1 e Hk Hss Ht Hres m' Hm'. pose proof (stage_res_len _ _ _ _ _ Hres) as Hlen.
    cbn [ended rw_mw rw_acts] in *. destruct (rw_mw x1) as [m1|] eqn:Em1; [|done]. injection Hm' as <-.
    destruct (rw_mw x) as [m|] eqn:Em; [|unfold stages_len, stage_begun in Hlen; cbn in Hlen; by rewrite Em, Em1 in Hlen].
    destruct (begun_writing L k st x Hk Ht m Em) as [Hw Hix]. destruct (Ht m Em) as (Hlm & _ & _ & Hall).
    apply (stage_told_by (mf_Stages m)) in Hres; [|done|done]. destruct (Hres m1 Em1) as (g & E & G1 & G2 & G3 & G4 & Gt & Gok & Gc).
    destruct (ended_stage false k st m1 g (mf_Stages m)) as (g' & E' & Es & Hg' & Hok'); try done. rewrite Hix.
    split_and!; [done|by rewrite E', all_steps_snoc, Es, <-all_steps_snoc|].
    intros j x0. rewrite E', length_app. intros Hx. apply lookup_snoc_Some in Hx as [[Hlt Hx]|[-> <-]].
    + rewrite bool_decide_true by (cbn; lia). by apply Hall.
    + rewrite bool_decide_false by (cbn; lia). exists st. by rewrite Hlm.
Qed.
End told.

(** ** A whole run *)

Lemma new_told canonical spec opts ext L acts (b : bool) :
  commit_msgs acts = [] -> told_run canonical spec opts ext L 0 (MkRunWorld acts (if b then None else Some new_manifest)).
Proof. intros Ha m. destruct b; [done|]. intros [= <-]. cbn [rw_acts]. rewrite Ha. split_and!; [done|by vm_compute|done|done]. Qed.

(** What a run leaves in its manifest, before the end is written. *)
Lemma Run_told canonical family H spec opts0 w r :
  distinct_stages spec -> Run canonical family H spec opts0 = (w, r) ->
  match run_gates canonical H spec opts0 with
  | inl e => rw_mw w = None
  | inr opts =>
      let L := from_stages (ro_FromStage opts) (ro_FromStage opts <>s "") (pl_stages spec) in
      exists e w1, r = inr e /\ rw_acts w = rw_acts w1 /\ rw_mw w = (fun m => Finalize (final_status e) (RecordTermination (newTerminationRecord e) m)) <$> rw_mw w1 /\
        match e with None => told_run canonical spec opts (ro_Extensions opts) L (length L) w1 | Some _ => told_end canonical spec opts (ro_Extensions opts) L w1 end
  end.
Proof.
  intros HN. unfold Run. destruct (run_gates canonical H spec opts0) as [e|opts]; [by intros [= <- <-]|]. cbv zeta. set (L := from_stages _ _ _). set (w0 := MkRunWorld [] _).
  destruct (rh_BeforeSpawn H) as [e|].
  { intros [= <- <-]. exists (Some e), w0. split_and!; [done|done|done|]. intros m. unfold w0. destruct (ro_DisableManifest opts); [done|]. cbn. intros [= <-].
    split_and!; [by vm_compute|by left|done]. }
  destruct (runStagesInteractive _ _ _ _ _ w0) as [w1 r1] eqn:E. unfold runStagesInteractive in E. rewrite run_stages_from in E. fold L in E.
  apply run_told with (ext := ro_Extensions opts) in E as (e & -> & Ht); [|intros st Hst|by apply new_told].
  - intros [= <- <-]. exists e, w1. by split_and!.
  - apply skips_distinct; [done|]. destruct (from_stages_suffix (ro_FromStage opts) (ro_FromStage opts <>s "") (pl_stages spec)) as [k Hk]. rewrite Hk. apply elem_of_app. by right.
Qed.

Lemma final_parts e m : let m' := Finalize (final_status e) (RecordTermination (newTerminationRecord e) m) in mf_Totals m' = mf_Totals m /\ mf_Stages m' = mf_Stages m /\ mf_Status m' = final_status e.
Proof. cbv zeta. unfold RecordTermination. by destruct (newTerminationRecord e). Qed.

(** The totals of a run's manifest are those of its records, however the run ends: the cost
    is that of the steps that ran, added in order, each count of tokens and turns is theirs
    at 64 bits, for the run and for each model, and so are the steps run, failed and skipped,
    the stages skipped and the commits made. *)
Theorem manifest_totals (canonical : gostring -> gostring * bool) (family : gostring -> gostring) (H : RunHost) (spec : PSpec) (opts0 : RunOptions) (w : RunWorld) (r : unit + option EChain) (m : Manifest) :
  distinct_stages spec -> Run canonical family H spec opts0 = (w, r) -> rw_mw w = Some m -> mf_Totals m = totals_of (mf_Stages m).
Proof.
  intros HN HR Hm. apply Run_told in HR; [|done]. destruct (run_gates _ _ _ _) as [e|opts]; [congruence|]. cbv zeta in HR.
  destruct HR as (e & w1 & _ & _ & Hmw & Ht). rewrite Hm in Hmw. destruct (rw_mw w1) as [m1|] eqn:Em1; [|done]. injection Hmw as ->.
  destruct (final_parts e m1) as (-> & -> & _). destruct e; by destruct (Ht m1 Em1) as (? & ? & ?).
Qed.


(** ** A sample *)

Definition canon : gostring -> gostring * bool := CanonicalModelArg ascii_lower shipped.
Definition fam : gostring -> gostring := ModelFamily ascii_lower shipped.

Definition plain_step (skill : gostring) (needs : list gostring) : PStep :=
  MkPStep skill [] [] [] [] [] false (MkCommitDirective CommitModeDefault []) false false needs.
Definition commit_step (skill : gostring) (c : CommitDirective) : PStep := MkPStep skill [] [] [] [] [] false c true false [].
Definition plain_stage (name : gostring) (chain : list PStep) : Stage := MkStage name [] [] [] None [] [] chain.

(** Two stages; a step of the first needs an extension. The pipeline commits at the end of a
    stage, and runs under an agent. *)
Definition sample_spec : PSpec :=
  MkPSpec "sketch" "opus" [] "dev" (Some (MkCommitDirective CommitModeDefault [])) [] [] []
    [plain_stage "build" [plain_step "adr" [bs "ext-adrs"]; plain_step "code" []; plain_step "test" []]; plain_stage "review" [plain_step "look" []]].

Lemma sample_distinct : distinct_stages sample_spec.
Proof. apply (bool_decide_unpack _). by vm_compute. Qed.

(** A host on which every step leaves work and [stops] tells which waits fail. *)
Definition sample_host (stops : gostring -> nat -> option EChain) (head : EChain + gostring) : RunHost :=
  MkRunHost 7 "/runs/1" "1" (fun _ => None) (fun _ => None) (fun _ _ => None) (fun _ _ => None) (fun _ => None) (fun _ _ => None) stops (fun _ _ => None) (fun _ _ => None)
    (fun _ _ => inr (bs " M f")) (fun _ _ => None) (fun _ _ => None) (fun _ _ => None) (fun _ _ => head)
    (Some []) (fun _ => StatOK) None (fun _ => true) None (inr []) None None.
Definition all_well : RunHost := sample_host (fun _ _ => None) (inr (bs "abc1234")).

Definition sample_opts (noCommit : bool) : RunOptions := MkRunOptions [] [] [] [] None false [] [] [] [] ∅ noCommit false [] false None false.

Definition statuses (m : option Manifest) : list (gostring * RunStatus * CommitStatus) :=
  match m with Some m => (fun r => (sr_Skill r, sr_Status r, sr_CommitStatus r)) <$> all_steps (mf_Stages m) | None => [] end.

Lemma run_follows_plan_witness :
  let '(w, r) := Run canon fam all_well sample_spec (sample_opts false) in
  r = inr None /\ length (deliveries (rw_acts w)) = 3%nat /\ commit_msgs (rw_acts w) = [bs "ape:sketch/build"; bs "ape:sketch/review"] /\ sessions (rw_acts w) = Some None.
Proof.
  destruct (Run canon fam all_well sample_spec (sample_opts false)) as [w r] eqn:E.
  pose proof (run_follows_plan canon fam all_well sample_spec (sample_opts false) w r sample_distinct E) as HT.
  assert (snd (Run canon fam all_well sample_spec (sample_opts false)) = inr None /\ length (deliveries (rw_acts (fst (Run canon fam all_well sample_spec (sample_opts false))))) = 3%nat /\
    commit_msgs (rw_acts (fst (Run canon fam all_well sample_spec (sample_opts false)))) = [bs "ape:sketch/build"; bs "ape:sketch/review"]) as (E1 & E2 & E3) by (vm_compute; split_and!; reflexivity).
  rewrite E in E1, E2, E3. cbn [fst snd] in E1, E2, E3.
  destruct (run_gates canon all_well sample_spec (sample_opts false)) as [e|opts]; [destruct HT as [HT _]; congruence|].
  destruct HT as (e & _ & HS & _). by split_and!.
Defined.

(** The parts of a result that are read below. *)
Definition commits_made (m : option Manifest) : option nat := mt_CommitsMade ∘ mf_Totals <$> m.
Definition agents (m : option Manifest) : list (gostring * gostring) := match m with Some m => (fun r => (sr_Skill r, sr_Agent r)) <$> all_steps (mf_Stages m) | None => [] end.

Lemma manifest_totals_witness :
  let '(w, _) := Run canon fam all_well sample_spec (sample_opts false) in
  exists m, rw_mw w = Some m /\ commits_made (Some m) = Some 2%nat /\ mf_Totals m = totals_of (mf_Stages m).
Proof.
  destruct (Run canon fam all_well sample_spec (sample_opts false)) as [w r] eqn:E.
  assert (commits_made (rw_mw (fst (Run canon fam all_well sample_spec (sample_opts false)))) = Some 2%nat) as E1 by (vm_compute; reflexivity).
  rewrite E in E1. cbn [fst] in E1. destruct (rw_mw w) as [m|] eqn:Em; [|done]. exists m. split_and!; [done|done|].
  exact (manifest_totals canon fam all_well sample_spec (sample_opts false) w r m sample_distinct E Em).
Defined.

(** A run that stops in its second stage, with what its records tell. *)
Definition stop_in_review (stage : gostring) (_ : nat) : option EChain := if stage =s "review" then Some [LText; LIdle] else None.


(** ** Steps that opt out, and steps that opt in *)

Definition mixed_spec : PSpec :=
  MkPSpec "mixed" [] [] [] None [] [] [] [plain_stage "s" [commit_step "a" (MkCommitDirective CommitModeExplicit "mine"); commit_step "b" (MkCommitDirective CommitModeSkip [])]].

Lemma commit_plan_spec_witness :
  stageMap mixed_spec "s" = Some (plain_stage "s" [commit_step "a" (MkCommitDirective CommitModeExplicit "mine"); commit_step "b" (MkCommitDirective CommitModeSkip [])]) /\
  exists plan, planStageCommits canon mixed_spec "s" [] = Some plan /\ cp_Suppressed plan = true /\
    cp_StepDirectives plan !! 0%nat = Some (MkCommitDirective CommitModeExplicit "mine").
Proof.
  split; [reflexivity|].
  destruct (commit_plan_spec canon mixed_spec "s" (plain_stage "s" [commit_step "a" (MkCommitDirective CommitModeExplicit "mine"); commit_step "b" (MkCommitDirective CommitModeSkip [])]) [] eq_refl) as (plan & E & H1 & H2 & _).
  exists plan. split; [exact E|]. split.
  - apply H1. exists 1%nat, (commit_step "b" (MkCommitDirective CommitModeSkip [])). by repeat split.
  - apply H2. exists (commit_step "a" (MkCommitDirective CommitModeExplicit "mine")). by repeat split.
Defined.

(** A step's own commit is planned, the tree must be clean for it, and it is not made, since
    another step of the stage opts out. *)
Theorem opt_out_cancels_siblings :
  let '(w, r) := Run canon fam all_well mixed_spec (sample_opts false) in
  (cp_StepDirectives <$> planStageCommits canon mixed_spec "s" []) ≫= (fun d => d !! 0%nat) = Some (MkCommitDirective CommitModeExplicit "mine") /\ PipelineWantsCommits canon mixed_spec = true /\
  r = inr None /\ commit_msgs (rw_acts w) = [] /\ statuses (rw_mw w) = [(bs "a", StatusCompleted, CommitStatusSkippedBySpec); (bs "b", StatusCompleted, CommitStatusSkippedBySpec)].
Proof. vm_compute. split_and!; reflexivity. Qed.

(** A commit that landed is recorded as failed, and not counted, when its SHA cannot be read. *)
Theorem landed_unrecorded :
  let '(w, r) := Run canon fam (sample_host (fun _ _ => None) (inl [LText])) sample_spec (sample_opts false) in
  commit_msgs (rw_acts w) = [bs "ape:sketch/build"] /\ commits_made (rw_mw w) = Some 0%nat /\ bool_decide (r = inr None) = false.
Proof. vm_compute. split_and!; reflexivity. Qed.

(** A step that runs under its pipeline's agent is recorded with none, one that is skipped with
    the agent. *)
Theorem agent_unrecorded :
  let '(w, _) := Run canon fam all_well sample_spec (sample_opts false) in
  agents (rw_mw w) = [(bs "adr", bs "dev"); (bs "code", []); (bs "test", []); (bs "look", [])] /\
  snd <$> deliveries (rw_acts w) = [bs "/dev --autonomous -- code --autonomous"; bs "/dev --autonomous -- test --autonomous"; bs "/dev --autonomous -- look --autonomous"].
Proof. vm_compute. split_and!; reflexivity. Qed.

(** Two stages of one name are read as two, and a run of them reads past the plan of the
    skips, which is kept by name. *)
Definition twin_body (n : Node) : option StageBody :=
  Some (MkStageBody [] [] [] None [] [] (if nd_Value n =s "2" then [MkStepYAML "a" [] [] [] [] [] None false []; MkStepYAML "b" [] [] [] [] [] None false []] else [MkStepYAML "c" [] [] [] [] [] None false []])).
Definition scalar (v : gostring) : Node := MkNode ScalarNode "!!str" v 1 [].
Definition twin_node : Node := MkNode MappingNode "!!map" [] 1 [scalar "s"; scalar "2"; scalar "s"; scalar "1"].
Theorem twin_stages_panic :
  match LoadSpec twin_body "twins" (Some (MkPSpec "twins" [] [] [] None [] [] [] [], Some twin_node)) with
  | Some spec => sg_Name <$> pl_stages spec = [bs "s"; bs "s"] /\ snd (Run canon fam all_well spec (sample_opts false)) = inl tt
  | None => False
  end.
Proof. vm_compute. split_and!; reflexivity. Qed.
