(* ===== verification/Service.v ===== *)
(** The job daemon (internal/service): keyed admissions (admission.go), the job table
    (registry.go), the allowlist (allowlist.go), the argv of a job (spawn.go), the nesting
    rule of a caller (depth.go), and the daemon itself (daemon.go). Its handlers and its
    children's ends are threads; each takes its locks one at a time, and a history is any
    interleaving of them. The bus, the processes and the clock are the host's. *)
From S2P Require Import Prelude Regex Markdown Spec Shell Paths Authz Command.
Local Open Scope Z_scope.

(** ** Admissions *)

Record keyState := MkKeyState { ks_exclusive : bool; ks_count : Z }.

(** A release function: the key it is bound to, and the sync.Once of its own, by number. *)
Record Release := MkRelease { rl_key : gostring; rl_once : nat }.

(** The keys held; the Onces that are done, and the number of the next. *)
Record Admissions := MkAdmissions { ad_keys : gmap gostring keyState; ad_done : gset nat; ad_next : nat }.
Definition NewAdmissions : Admissions := MkAdmissions ∅ ∅ 0.

Inductive AdmitError := ErrBusyExclusive | ErrBusyKey.

(** releaseFunc *)
Definition releaseFunc (keys : gmap gostring keyState) (a : Admissions) (key : gostring) : Admissions * (AdmitError + Release) :=
  (MkAdmissions keys (ad_done a) (S (ad_next a)), inr (MkRelease key (ad_next a))).

(** Admit *)
Definition Admit (a : Admissions) (key : gostring) (exclusive : bool) : Admissions * (AdmitError + Release) :=
  match ad_keys a !! key with
  | Some st =>
      if ks_exclusive st then (a, inl ErrBusyExclusive)
      else if exclusive then (a, inl ErrBusyKey)
      else releaseFunc (<[key := MkKeyState (ks_exclusive st) (ks_count st + 1)]> (ad_keys a)) a key
  | None => releaseFunc (<[key := MkKeyState exclusive 1]> (ad_keys a)) a key
  end.

(** A call of a release function. *)
Definition release (a : Admissions) (r : Release) : Admissions :=
  if bool_decide (rl_once r ∈ ad_done a) then a
  else
    let done := {[ rl_once r ]} ∪ ad_done a in
    match ad_keys a !! rl_key r with
    | None => MkAdmissions (ad_keys a) done (ad_next a)
    | Some st =>
        let count := ks_count st - 1 in
        MkAdmissions (if count <=? 0 then delete (rl_key r) (ad_keys a) else <[rl_key r := MkKeyState (ks_exclusive st) count]> (ad_keys a)) done (ad_next a)
    end.

(** Snapshot, HeldKeys *)
Definition Snapshot (a : Admissions) : gmap gostring keyState := ad_keys a.
Definition HeldKeys (a : Admissions) : list gostring := sort_Strings (fst <$> map_to_list (ad_keys a)).

(** ** Requests *)

Inductive Kind := KindPipeline | KindTask | KindPrompt | KindScript.
#[export] Instance Kind_eq : EqDecision Kind.
Proof. solve_decision. Defined.
Definition Kind_string (k : Kind) : gostring :=
  match k with KindPipeline => "pipeline" | KindTask => "task" | KindPrompt => "prompt" | KindScript => "script" end.

Record CallerStamp := MkCallerStamp { ca_Depth : Z; ca_RunID : gostring; ca_ParentRun : gostring; ca_PID : Z }.
Record RunRequest := MkRunRequest { rr_ProjectRoot : gostring; rr_Skill : gostring; rr_Args : gostring; rr_PromptFlag : gostring; rr_TaskCommit : option gostring;
  rr_Handoff : gostring; rr_Workflow : bool; rr_ScriptPath : gostring; rr_ScriptSource : gostring; rr_ScriptArgs : list gostring;
  rr_Agent : gostring; rr_Model : gostring; rr_Prompt : gostring; rr_NoCommit : bool; rr_CommitAllowDirty : bool; rr_UploadTranscripts : bool;
  rr_Nonexclusive : bool; rr_ExclusivityKey : gostring; rr_SubmittedBy : gostring; rr_Caller : option CallerStamp }.

Definition CodeBusyExclusive : gostring := "BUSY_EXCLUSIVE".
Definition CodeBusyKey : gostring := "BUSY_KEY".
Definition CodeProjectNotAllowed : gostring := "PROJECT_NOT_ALLOWED".
Definition CodeValidation : gostring := "VALIDATION".
Definition CodeNotFound : gostring := "NOT_FOUND".

(** ** The allowlist *)

Record Config := MkConfig { cfg_ProjectRoot : gostring; cfg_Allow : list gostring; cfg_AllowScriptSource : bool; cfg_ForceScriptSandbox : bool }.

(** os.Stat, and whether a directory holds a .git entry. *)
Inductive PathStat := SAbsent | SFailed | SFile | SDir.
#[export] Instance PathStat_eq : EqDecision PathStat.
Proof. solve_decision. Defined.
Record ServiceHost := MkServiceHost { sh_Stat : gostring -> PathStat; sh_Git : gostring -> bool }.

(** cleanPath *)
Definition cleanPath (p : gostring) : gostring :=
  let p := TrimSpace p in if p =s "" then [] else filepath_Clean p.

(** normalize *)
Definition add_root (out : list gostring) (p : gostring) : list gostring :=
  let p := cleanPath p in if (p =s "") || slices_Contains out p then out else out ++ [p].
Definition normalize (c : Config) : Config :=
  let root := cleanPath (cfg_ProjectRoot c) in
  let out := if root <>s "" then add_root [] root else [] in
  MkConfig root (foldl add_root out (cfg_Allow c)) (cfg_AllowScriptSource c) (cfg_ForceScriptSandbox c).

(** Validate, on a normalised configuration: whether it is taken. *)
Definition entry_ok (h : ServiceHost) (a : gostring) : bool :=
  filepath_IsAbs a && bool_decide (sh_Stat h a = SDir) && sh_Git h a.
Definition Validate (h : ServiceHost) (c : Config) : bool :=
  let c := normalize c in
  if cfg_ProjectRoot c =s "" then false
  else if negb (filepath_IsAbs (cfg_ProjectRoot c)) then false
  else if bool_decide (cfg_Allow c = []) then false
  else if negb (forallb (entry_ok h) (cfg_Allow c)) then false
  else negb (cfg_ForceScriptSandbox c && negb (cfg_AllowScriptSource c)).

(** LoadConfigFile, on what the YAML decodes to. *)
Definition LoadConfigFile (h : ServiceHost) (decoded : option Config) : option Config :=
  match decoded with
  | None => None
  | Some c => let c := normalize c in if Validate h c then Some (normalize c) else None
  end.

(** Allowed *)
Definition Allowed (c : Config) (root : gostring) : bool :=
  let root := cleanPath root in
  if root =s "" then false else slices_Contains (cfg_Allow c) root.

(** ** The argv of a job *)

(** underAnyRoot *)
Definition under_root (p root : gostring) : bool :=
  let root := filepath_Clean root in
  if p =s root then true
  else match filepath_Rel root p with
       | None => false
       | Some rel => negb ((rel =s "..") || HasPrefix rel "../")
       end.
Definition underAnyRoot (roots : list gostring) (p : gostring) : bool := existsb (under_root p) roots.

(** resolveAllowedScriptPath; [None] is ErrValidation. *)
Definition resolveAllowedScriptPath (h : ServiceHost) (req : RunRequest) (cfg : Config) : option gostring :=
  let p := rr_ScriptPath req in
  let p := if filepath_IsAbs p then p else filepath_Join (rr_ProjectRoot req) p in
  let p := filepath_Clean p in
  match sh_Stat h p with
  | SFile => if negb (underAnyRoot (cfg_Allow cfg) p) then None else Some p
  | _ => None
  end.

(** A flag with its value, when there is one. *)
Definition opt_flag (name value : gostring) : list gostring := if value <>s "" then [name; value] else [].
Definition opt_switch (name : gostring) (on : bool) : list gostring := if on then [name] else [].

(** appendCommonRunFlags *)
Definition appendCommonRunFlags (args : list gostring) (req : RunRequest) : list gostring :=
  args ++ opt_switch "--no-commit" (rr_NoCommit req) ++ opt_switch "--commit-allow-dirty" (rr_CommitAllowDirty req) ++ opt_switch "--upload-transcripts" (rr_UploadTranscripts req).

(** buildTaskArgs; [None] is ErrValidation, here and below. *)
Definition buildTaskArgs (req : RunRequest) : option (list gostring) :=
  if TrimSpace (rr_Skill req) =s "" then None
  else
    let args := [bs "task"; rr_Skill req; bs "--quiet"; bs "--cwd"; rr_ProjectRoot req] ++ opt_flag "--agent" (rr_Agent req) ++ opt_flag "--model" (rr_Model req) ++
      opt_flag "--args" (rr_Args req) ++ opt_flag "--prompt" (rr_Prompt req) ++ opt_flag "--prompt-flag" (rr_PromptFlag req) ++
      match rr_TaskCommit req with
      | None => []
      | Some m => if m =s "" then [bs "--task-commit"] else ["--task-commit=" ++ m]
      end in
    Some (appendCommonRunFlags args req).

(** buildPromptArgs *)
Definition buildPromptArgs (req : RunRequest) : option (list gostring) :=
  let hasPrompt := TrimSpace (rr_Prompt req) <>s "" in
  let hasHandoff := TrimSpace (rr_Handoff req) <>s "" in
  if Bool.eqb hasPrompt hasHandoff then None
  else Some ((if hasPrompt then [bs "prompt"; rr_Prompt req; bs "--quiet"; bs "--cwd"; rr_ProjectRoot req]
              else [bs "prompt"; bs "--handoff"; rr_Handoff req; bs "--quiet"; bs "--cwd"; rr_ProjectRoot req]) ++
             opt_flag "--agent" (rr_Agent req) ++ opt_flag "--model" (rr_Model req) ++ opt_switch "--workflow" (rr_Workflow req)).

(** buildScriptArgs *)
Definition buildScriptArgs (h : ServiceHost) (req : RunRequest) (cfg : Config) : option (list gostring) :=
  let hasPath := TrimSpace (rr_ScriptPath req) <>s "" in
  let hasSource := TrimSpace (rr_ScriptSource req) <>s "" in
  if Bool.eqb hasPath hasSource then None
  else
    let positional := if hasPath then resolveAllowedScriptPath h req cfg else if cfg_AllowScriptSource cfg then Some (bs "-") else None in
    match positional with
    | None => None
    | Some p =>
        Some ([bs "script"; p; bs "--quiet"; bs "--cwd"; rr_ProjectRoot req] ++ opt_switch "--sandbox" (cfg_ForceScriptSandbox cfg) ++
              (if bool_decide (rr_ScriptArgs req = []) then [] else bs "--" :: rr_ScriptArgs req))
    end.

(** BuildArgs, with buildPipelineArgs, which refuses. *)
Definition BuildArgs (h : ServiceHost) (kind : Kind) (req : RunRequest) (cfg : Config) : option (list gostring) :=
  if TrimSpace (rr_ProjectRoot req) =s "" then None
  else match kind with
       | KindPipeline => None
       | KindTask => buildTaskArgs req
       | KindPrompt => buildPromptArgs req
       | KindScript => buildScriptArgs h req cfg
       end.

(** ** The caller *)

Definition CodeSessionDepth : gostring := "session.depth".
Definition MaxDepth : Z := 2.

Definition SessionGate : Type := Kind -> RunRequest -> Err + list gostring.

(** runIDRe *)
Definition c_run : Z -> bool := cor c_upper (cor c_lower c_digit).
Definition runIDRe : re := cats [ Bol; Cls c_run; Star (Cls (cor c_run (cor (one ".") (cor (one "_") (one "-"))))); Eol ].

(** admitCaller: the environment, or the code of the refusal. *)
Definition admitCaller (kind : Kind) (req : RunRequest) (gate : option SessionGate) : gostring + list gostring :=
  match rr_Caller req with
  | None => inl CodeSessionDepth
  | Some c =>
      if ca_Depth c <? 0 then inl CodeSessionDepth
      else if ca_Depth c =? 0 then inr []
      else if MaxDepth <=? ca_Depth c then inl CodeSessionDepth
      else if bool_decide (kind = KindScript) then inl CodeSessionDepth
      else if negb (MatchString runIDRe (ca_RunID c)) then inl CodeSessionDepth
      else match gate with
           | None => inl CodeSessionDepth
           | Some gate =>
               match gate kind req with
               | inr env => inr env
               | inl (UsageError code) => inl code
               | inl (ConflictError code) => inl code
               | inl _ => inl CodeSessionDepth
               end
           end
  end.

(** ** The job table *)

Inductive JobState := StateRunning | StateDone | StateFailed | StateStopped.
#[export] Instance JobState_eq : EqDecision JobState.
Proof. solve_decision. Defined.
Record JobInfo := MkJobInfo { ji_JobID : gostring; ji_Kind : Kind; ji_State : JobState; ji_StartedAt : Z; ji_LastEventAt : Z; ji_PID : Z;
  ji_ExclusivityKey : gostring; ji_Exclusive : bool; ji_SubmittedBy : gostring; ji_Caller : option CallerStamp; ji_LogPath : gostring; ji_ExitCode : option Z }.
Record jobEntry := MkJobEntry { je_info : JobInfo; je_stopRequested : bool }.
Abbreviation Registry := (gmap gostring jobEntry).

(** Registry.Add *)
Definition Add (r : Registry) (i : JobInfo) : Registry :=
  <[ji_JobID i := MkJobEntry (MkJobInfo (ji_JobID i) (ji_Kind i) StateRunning (ji_StartedAt i) (ji_StartedAt i) (ji_PID i) (ji_ExclusivityKey i) (ji_Exclusive i)
                               (ji_SubmittedBy i) (ji_Caller i) (ji_LogPath i) (ji_ExitCode i)) false]> r.
(** Registry.SetProcess *)
Definition with_process (pid : Z) (logPath : gostring) (e : jobEntry) : jobEntry :=
  let i := je_info e in
  MkJobEntry (MkJobInfo (ji_JobID i) (ji_Kind i) (ji_State i) (ji_StartedAt i) (ji_LastEventAt i) pid (ji_ExclusivityKey i) (ji_Exclusive i)
                (ji_SubmittedBy i) (ji_Caller i) logPath (ji_ExitCode i)) (je_stopRequested e).
Definition SetProcess (r : Registry) (id : gostring) (pid : Z) (logPath : gostring) : Registry := alter (with_process pid logPath) id r.
(** Registry.Get, List, RunningCount *)
Definition Get (r : Registry) (id : gostring) : option JobInfo := je_info <$> r !! id.
Definition List_ (r : Registry) : list JobInfo := omap (Get r) (sort_Strings (fst <$> map_to_list r)).
Definition running (i : JobInfo) : bool := bool_decide (ji_State i = StateRunning).
Definition RunningCount (r : Registry) : nat := length (filter (fun kv => running (je_info (snd kv)) = true) (map_to_list r)).
(** Registry.RequestStop: the pid, when there is a job to stop. *)
Definition RequestStop (r : Registry) (id : gostring) : Registry * option Z :=
  match r !! id with
  | None => (r, None)
  | Some e => if negb (running (je_info e)) then (r, None) else (<[id := MkJobEntry (je_info e) true]> r, Some (ji_PID (je_info e)))
  end.
(** Registry.Finish *)
Definition finish_state (stopRequested : bool) (exitCode : Z) : JobState :=
  if stopRequested then StateStopped else if exitCode =? 0 then StateDone else StateFailed.
Definition with_end (exitCode at_ : Z) (e : jobEntry) : jobEntry :=
  let i := je_info e in
  MkJobEntry (MkJobInfo (ji_JobID i) (ji_Kind i) (finish_state (je_stopRequested e) exitCode) (ji_StartedAt i) at_ (ji_PID i) (ji_ExclusivityKey i) (ji_Exclusive i)
                (ji_SubmittedBy i) (ji_Caller i) (ji_LogPath i) (Some exitCode)) (je_stopRequested e).
Definition Finish (r : Registry) (id : gostring) (exitCode at_ : Z) : Registry := alter (with_end exitCode at_) id r.

(** ** The daemon *)

(** A job that passed the checks of handleRun; a child, as it is started. *)
Record Job := MkJob { jb_Kind : Kind; jb_Req : RunRequest; jb_ID : gostring; jb_Env : list gostring }.
Record Command := MkCommand { cm_Args : list gostring; cm_Dir : gostring; cm_Env : list gostring; cm_Stdin : option gostring }.

Definition exclusive (j : Job) : bool := negb (rr_Nonexclusive (jb_Req j)).
Definition key (j : Job) : gostring := rr_ExclusivityKey (jb_Req j).

(** The rest of a handler, or of a child's end: what it does next. *)
Inductive Thread :=
| TAdmit (j : Job) | TAdd (j : Job) (r : Release) | TTrack (j : Job) (r : Release) | TSpawn (j : Job) (r : Release)
| TSetProcess (j : Job) (pid : Z) (logPath : gostring)
| TUntrack (j : Job) (r : Release) | TGiveUp (j : Job) (r : Release) | TFinish (j : Job)
| TExitFinish (j : Job) (r : Release) (code : Z) | TExitRelease (j : Job) (r : Release) (code : Z) | TExitReport (j : Job) (code : Z) | TExitDone.

(** What the daemon lets out: events on the bus, replies, children started, process trees
    ended, and the report of a drain. *)
Inductive Out :=
| OEvent (subject : gostring) (state : option JobState) | OError (code : gostring) | OAccepted (id : gostring) | OStopped (stopped : bool)
| OSpawned (j : Job) (pid : Z) (c : Command) | OTerminate (pid : Z) | ODrained.

Record Child := MkChild { ch_PID : Z; ch_Job : Job; ch_Release : Release }.
Record Daemon := MkDaemon { da_adm : Admissions; da_reg : Registry; da_jobs : Z; da_draining : bool; da_threads : list Thread; da_children : list Child; da_out : list Out }.
Definition NewDaemon : Daemon := MkDaemon NewAdmissions ∅ 0 false [] [] [].

Section daemon.
Context (ToLower : gostring -> gostring) (cfg : Config) (gate : option SessionGate).
(** The events' prefix and user, and the bus the children are given. *)
Context (prefix userTok natsURL natsCreds eventsPrefix : gostring) (environ : list gostring).

(** tok, ProjectSlug (internal/eventing/subject.go), emitJobEvent's subject, RunSubject *)
Definition tok (s : gostring) : gostring := let slug := SubjectToken ToLower s in if slug =s "" then "unknown" else slug.
Definition ProjectSlug (projectRoot : gostring) : gostring :=
  let slug := SubjectToken ToLower (filepath_Base (TrimRight projectRoot [bs "/"; [x5c]])) in
  if (slug =s "") || (slug =s ".") || (slug =s "-") then "project" else slug.
Definition jobSubject (projectSlug jobID event : gostring) : gostring := Join [prefix; userTok; projectSlug; bs "svc"; tok jobID; tok event] ".".
Definition RunSubject (name serviceRoot : gostring) (kind : Kind) : gostring :=
  Join [bs "ape.svc"; if TrimSpace name =s "" then bs "ape" else name; ProjectSlug serviceRoot; Kind_string kind; bs "run"] ".".
Definition job_event (j : Job) (event : gostring) (state : option JobState) : Out := OEvent (jobSubject (ProjectSlug (rr_ProjectRoot (jb_Req j))) (jb_ID j) event) state.

(** childEnv *)
Definition childEnv (jobID : gostring) : list gostring :=
  environ ++ ["APE_JOB_ID=" ++ jobID] ++ (if natsURL <>s "" then ["APE_NATS_URL=" ++ natsURL] else []) ++ (if natsCreds <>s "" then ["APE_NATS_CREDS=" ++ natsCreds] else []).

(** Spawn: the command it starts; [None] when the request is refused this time. *)
Definition command (h : ServiceHost) (j : Job) : option Command :=
  let req := jb_Req j in
  match BuildArgs h (jb_Kind j) req cfg with
  | None => None
  | Some args =>
      Some (MkCommand (args ++ (if (eventsPrefix <>s "") && negb (bool_decide (jb_Kind j = KindPrompt)) then [bs "--events-subject-prefix"; eventsPrefix] else []))
        (rr_ProjectRoot req) (childEnv (jb_ID j) ++ jb_Env j)
        (if bool_decide (jb_Kind j = KindScript) && (TrimSpace (rr_ScriptSource req) <>s "") && (TrimSpace (rr_ScriptPath req) =s "") then Some (rr_ScriptSource req) else None))
  end.

(** handleRun, to its admission: it reads nothing that is shared. [id] is the one minted. *)
Definition checkRun (h : ServiceHost) (kind : Kind) (rr : RunRequest) (id : option gostring) : list Out + Job :=
  if TrimSpace (rr_ProjectRoot rr) =s "" then inl [OError CodeValidation]
  else if negb (Allowed cfg (rr_ProjectRoot rr)) then inl [OError CodeProjectNotAllowed]
  else if negb (bool_decide (is_Some (BuildArgs h kind rr cfg))) then inl [OError CodeValidation]
  else match id with
       | None => inl [OError CodeValidation]
       | Some id =>
           match admitCaller kind rr gate with
           | inl code => inl [job_event (MkJob kind rr id []) "job-rejected" None; OError code]
           | inr env => inr (MkJob kind rr id env)
           end
       end.

(** What happens: a request arrives, a thread goes on, a child ends, a stop is asked for, the
    daemon drains. The host answers a start with a pid and a log, and tells the time. *)
Inductive Act :=
| ARun (h : ServiceHost) (kind : Kind) (rr : RunRequest) (id : option gostring)
| AThread (t : nat) (h : ServiceHost) (started : option (Z * gostring)) (at_ : Z)
| AExit (c : nat) (code : Z)
| AStop (id : gostring) | AKillAll | AStopAccepting | AWaitJobs.

Definition with_out (out : list Out) (d : Daemon) : Daemon :=
  MkDaemon (da_adm d) (da_reg d) (da_jobs d) (da_draining d) (da_threads d) (da_children d) (da_out d ++ out).
Definition with_adm (a : Admissions) (d : Daemon) : Daemon := MkDaemon a (da_reg d) (da_jobs d) (da_draining d) (da_threads d) (da_children d) (da_out d).
Definition with_reg (r : Registry) (d : Daemon) : Daemon := MkDaemon (da_adm d) r (da_jobs d) (da_draining d) (da_threads d) (da_children d) (da_out d).
Definition with_jobs (n : Z) (d : Daemon) : Daemon := MkDaemon (da_adm d) (da_reg d) n (da_draining d) (da_threads d) (da_children d) (da_out d).
Definition with_threads (ts : list Thread) (d : Daemon) : Daemon := MkDaemon (da_adm d) (da_reg d) (da_jobs d) (da_draining d) ts (da_children d) (da_out d).
Definition with_children (cs : list Child) (d : Daemon) : Daemon := MkDaemon (da_adm d) (da_reg d) (da_jobs d) (da_draining d) (da_threads d) cs (da_out d).
Definition with_draining (d : Daemon) : Daemon := MkDaemon (da_adm d) (da_reg d) (da_jobs d) true (da_threads d) (da_children d) (da_out d).

(** JobInfo of a job that was admitted. *)
Definition new_info (j : Job) (at_ : Z) : JobInfo :=
  MkJobInfo (jb_ID j) (jb_Kind j) StateRunning at_ at_ 0 (key j) (exclusive j) (rr_SubmittedBy (jb_Req j)) (rr_Caller (jb_Req j)) [] None.

(** One step of a thread: the daemon, and the rest of the thread, when there is one. *)
Definition thread_step (th : Thread) (h : ServiceHost) (started : option (Z * gostring)) (at_ : Z) (d : Daemon) : Daemon * option Thread :=
  match th with
  | TAdmit j =>
      match Admit (da_adm d) (key j) (exclusive j) with
      | (a, inr r) => (with_adm a d, Some (TAdd j r))
      | (a, inl e) => (with_out [job_event j "job-rejected" None; OError (match e with ErrBusyExclusive => CodeBusyExclusive | ErrBusyKey => CodeBusyKey end)] (with_adm a d), None)
      end
  | TAdd j r => (with_out [job_event j "job-accepted" (Some StateRunning)] (with_reg (Add (da_reg d) (new_info j at_)) d), Some (TTrack j r))
  | TTrack j r => (with_jobs (da_jobs d + 1) d, Some (TSpawn j r))
  | TSpawn j r =>
      match command h j, started with
      | Some c, Some (pid, log) => (with_out [OSpawned j pid c] (with_children (da_children d ++ [MkChild pid j r]) d), Some (TSetProcess j pid log))
      | _, _ => (d, Some (TUntrack j r))
      end
  | TSetProcess j pid log => (with_out [OAccepted (jb_ID j)] (with_reg (SetProcess (da_reg d) (jb_ID j) pid log) d), None)
  | TUntrack j r => (with_jobs (da_jobs d - 1) d, Some (TGiveUp j r))
  | TGiveUp j r => (with_adm (release (da_adm d) r) d, Some (TFinish j))
  | TFinish j => (with_out [job_event j "job-end" (Some StateFailed); OError CodeValidation] (with_reg (Finish (da_reg d) (jb_ID j) (-1) at_) d), None)
  | TExitFinish j r code => (with_reg (Finish (da_reg d) (jb_ID j) code at_) d, Some (TExitRelease j r code))
  | TExitRelease j r code => (with_adm (release (da_adm d) r) d, Some (TExitReport j code))
  | TExitReport j code => (with_out [job_event j "job-end" (ji_State <$> Get (da_reg d) (jb_ID j))] d, Some TExitDone)
  | TExitDone => (with_jobs (da_jobs d - 1) d, None)
  end.

(** terminateGroup; a pid that is not positive is none. *)
Definition terminateGroup (pid : Z) : list Out := if 0 <? pid then [OTerminate pid] else [].

(** handleJobStop *)
Definition handleJobStop (id : gostring) (d : Daemon) : Daemon :=
  match Get (da_reg d) id with
  | None => with_out [OError CodeNotFound] d
  | Some _ =>
      match RequestStop (da_reg d) id with
      | (r, None) => with_out [OStopped false] (with_reg r d)
      | (r, Some pid) => with_out (terminateGroup pid ++ [OStopped true]) (with_reg r d)
      end
  end.

(** KillAll *)
Definition KillAll (d : Daemon) : list Out :=
  List_ (da_reg d) ≫= fun i => if running i && (0 <? ji_PID i) then terminateGroup (ji_PID i) else [].

(** One step of the daemon; [None] when it cannot be. *)
Definition daemon_step (d : Daemon) (a : Act) : option Daemon :=
  match a with
  | ARun h kind rr id =>
      Some (match checkRun h kind rr id with
            | inl out => with_out out d
            | inr j => with_threads (da_threads d ++ [TAdmit j]) d
            end)
  | AThread t h started at_ =>
      match da_threads d !! t with
      | None => None
      | Some th =>
          let '(d', rest) := thread_step th h started at_ d in
          Some (with_threads (delete t (da_threads d) ++ option_list rest) d')
      end
  | AExit c code =>
      match da_children d !! c with
      | None => None
      | Some ch => Some (with_threads (da_threads d ++ [TExitFinish (ch_Job ch) (ch_Release ch) code]) (with_children (delete c (da_children d)) d))
      end
  | AStop id => Some (handleJobStop id d)
  | AKillAll => Some (with_out (KillAll d) d)
  | AStopAccepting => Some (with_draining d)
  | AWaitJobs => if da_jobs d =? 0 then Some (with_out [ODrained] d) else None
  end.

(** A history of the daemon. *)
Fixpoint daemon_run (d : Daemon) (acts : list Act) : option Daemon :=
  match acts with
  | [] => Some d
  | a :: acts' => match daemon_step d a with Some d' => daemon_run d' acts' | None => None end
  end.

Inductive daemon_reach : Daemon -> Prop :=
| reach_new : daemon_reach NewDaemon
| reach_step d a d' : daemon_reach d -> daemon_step d a = Some d' -> daemon_reach d'.
End daemon.
