(* ===== verification/ServiceFacts.v ===== *)
(** Theorems on the job daemon: its slots are exclusive and never leak, its children are
    jobs it may run, and its job table tells what became of them, over every interleaving. *)
From S2P Require Import Prelude Regex Markdown Spec Shell Paths Authz Command Service.
Local Open Scope Z_scope.

(** ** Slots *)

(** A slot that is held: its release function and its job. *)
Definition Slot : Type := Release * Job.

Definition thread_held (th : Thread) : list Slot :=
  match th with
  | TAdd j r | TTrack j r | TSpawn j r | TUntrack j r | TGiveUp j r | TExitFinish j r _ | TExitRelease j r _ => [(r, j)]
  | _ => []
  end.
Definition child_held (c : Child) : list Slot := [(ch_Release c, ch_Job c)].
Definition held (d : Daemon) : list Slot := (da_threads d ≫= thread_held) ++ (da_children d ≫= child_held).

(** Those of a key. *)
Definition on_key (k : gostring) (H : list Slot) : list Slot := filter (fun x => key (snd x) = k) H.

(** The admissions account for the slots of [H]. *)
Record slots_ok (a : Admissions) (H : list Slot) : Prop := MkSlotsOk {
  so_slot : forall x, x ∈ H -> rl_key (fst x) = key (snd x) /\ (rl_once (fst x) < ad_next a)%nat /\ rl_once (fst x) ∉ ad_done a;
  so_done : forall n, n ∈ ad_done a -> (n < ad_next a)%nat;
  so_once : NoDup (rl_once ∘ fst <$> H);
  so_keys : forall k, match ad_keys a !! k with
                      | None => on_key k H = []
                      | Some s => ks_count s = Z.of_nat (length (on_key k H)) /\ (0 < ks_count s) /\ (ks_exclusive s = true -> ks_count s = 1) /\
                                  forall x, x ∈ on_key k H -> exclusive (snd x) = ks_exclusive s
                      end }.

#[export] Instance on_key_perm k : Proper ((≡ₚ) ==> (≡ₚ)) (on_key k).
Proof. intros H H' E. unfold on_key. by rewrite E. Qed.

#[export] Instance slots_ok_perm a : Proper ((≡ₚ) ==> iff) (slots_ok a).
Proof.
  enough (forall H H', H ≡ₚ H' -> slots_ok a H -> slots_ok a H') as G by (intros H H' E; split; by apply G).
  intros H H' E [S1 S2 S3 S4]. split; [|done|by rewrite <- E|].
  - intros x. rewrite <- E. apply S1.
  - intros k. specialize (S4 k). destruct (ad_keys a !! k) as [s|]; [|apply Permutation_nil_r; by rewrite <- E, S4].
    setoid_rewrite <- E. done.
Qed.

Lemma on_key_cons k x H : on_key k (x :: H) = (if decide (key (snd x) = k) then [x] else []) ++ on_key k H.
Proof. unfold on_key. rewrite filter_cons. by destruct (decide _). Qed.

Lemma slots_new : slots_ok NewAdmissions [].
Proof. split; [intros x Hx; set_solver|set_solver|constructor|]. intros k. cbn. by rewrite lookup_empty. Qed.

(** A job admitted takes a slot of its own. *)
Lemma slots_admit a H j a' r :
  slots_ok a H -> Admit a (key j) (exclusive j) = (a', inr r) -> slots_ok a' ((r, j) :: H).
Proof.
  intros [S1 S2 S3 S4] HA. unfold Admit in HA.
  assert (exists st, releaseFunc (<[key j := st]> (ad_keys a)) a (key j) = (a', inr r) /\ ks_count st = Z.of_nat (length (on_key (key j) H)) + 1 /\
    (ks_exclusive st = true -> on_key (key j) H = []) /\ ks_exclusive st = exclusive j /\ (forall x, x ∈ on_key (key j) H -> exclusive (snd x) = ks_exclusive st)) as (st & HR & C1 & C2 & C3 & C4).
  { pose proof (S4 (key j)) as Hk. destruct (ad_keys a !! key j) as [s|] eqn:Ek.
    - destruct (ks_exclusive s) eqn:Es; [done|]. destruct (exclusive j) eqn:Ee; [done|]. eexists. split; [exact HA|]. cbn.
      destruct Hk as (K1 & K2 & K3 & K4). rewrite K1. split_and!; [lia|done|done|exact K4].
    - eexists. split; [exact HA|]. cbn. rewrite Hk. split_and!; [done|done|done|]. intros x Hx. set_solver. }
  injection HR as <- <-. split; cbn [ad_keys ad_done ad_next].
  - intros x [->|Hx]%elem_of_cons; cbn; [split_and!; [done|lia|]; intros Hd; apply S2 in Hd; lia|].
    destruct (S1 x Hx) as (? & ? & ?). split_and!; [done|lia|done].
  - intros n Hn. apply S2 in Hn. lia.
  - cbn. constructor; [|done]. intros (x & Hx & Hin)%list_elem_of_fmap. destruct (S1 x Hin) as (_ & ? & _). cbn in Hx. lia.
  - intros k. rewrite on_key_cons. cbn [snd]. destruct (decide (key j = k)) as [<-|Hne].
    + rewrite lookup_insert_eq. cbn [app length]. split_and!; [lia|lia| |].
      * intros He. rewrite C1, (C2 He). done.
      * intros x [->|Hx]%elem_of_cons; [done|by apply C4].
    + rewrite lookup_insert_ne by done. apply S4.
Qed.

(** A release frees its own slot and no other. *)
Lemma slots_release a H r j : slots_ok a ((r, j) :: H) -> slots_ok (release a r) H.
Proof.
  intros [S1 S2 S3 S4]. destruct (S1 (r, j)) as (Hk & Hlt & Hnd); [left|]. cbn in Hk, Hlt, Hnd.
  unfold release. rewrite bool_decide_false by done. pose proof (S4 (key j)) as Hj. rewrite on_key_cons, decide_True in Hj by done. cbn [snd app length] in Hj.
  rewrite Hk. destruct (ad_keys a !! key j) as [s|] eqn:Ej; [|done]. destruct Hj as (J1 & J2 & J3 & J4).
  inversion S3 as [|? ? Hfresh S3']; subst. split; cbn [ad_keys ad_done ad_next].
  - intros x Hx. destruct (S1 x) as (? & ? & ?); [by right|]. split_and!; [done..|]. intros [He|?]%elem_of_union; [|done].
    apply Hfresh. apply elem_of_singleton in He. apply list_elem_of_fmap. exists x. split; [done|done].
  - intros n [->%elem_of_singleton|Hn]%elem_of_union; [done|by apply S2].
  - done.
  - intros k. specialize (S4 k). rewrite on_key_cons in S4. cbn [snd] in S4. destruct (decide (key j = k)) as [<-|Hne].
    + clear S4. cbn [app] in J4. destruct (Z.leb_spec (ks_count s - 1) 0) as [Ez|Ez].
      * rewrite lookup_delete_eq. destruct (on_key (key j) H) as [|x l]; [done|]. cbn in J1. lia.
      * rewrite lookup_insert_eq. cbn. split_and!; [lia|lia|intros He; specialize (J3 He); lia|]. intros x Hx. apply J4. by right.
    + destruct (ks_count s - 1 <=? 0); [rewrite lookup_delete_ne by done|rewrite lookup_insert_ne by done]; exact S4.
Qed.

(** ** The count of children *)

(** What the wait group counts. *)
Definition thread_tracked (th : Thread) : nat :=
  match th with TSpawn _ _ | TUntrack _ _ | TExitFinish _ _ _ | TExitRelease _ _ _ | TExitReport _ _ | TExitDone => 1%nat | _ => 0%nat end.
Definition tracked (d : Daemon) : nat := (sum_list_with thread_tracked (da_threads d) + length (da_children d))%nat.

Lemma sum_delete (ts : list Thread) t th : ts !! t = Some th -> sum_list_with thread_tracked ts = (thread_tracked th + sum_list_with thread_tracked (delete t ts))%nat.
Proof.
  revert t. induction ts as [|x ts IH]; intros [|t] Ht; [done|done|by injection Ht as ->|].
  change (ts !! t = Some th) in Ht. change (delete (S t) (x :: ts)) with (x :: delete t ts). cbn [sum_list_with]. rewrite (IH t Ht). lia.
Qed.

Lemma held_thread d t th : da_threads d !! t = Some th -> held d ≡ₚ thread_held th ++ held (with_threads (delete t (da_threads d)) d).
Proof.
  intros Ht. unfold held. cbn. rewrite app_assoc. f_equiv. rewrite (delete_Permutation (da_threads d) t th Ht) at 1. done.
Qed.

Lemma held_threads ts us d : held (with_threads (ts ++ us) d) ≡ₚ (us ≫= thread_held) ++ held (with_threads ts d).
Proof. unfold held. cbn. rewrite bind_app, app_assoc. f_equiv. apply Permutation_app_comm. Qed.

Lemma held_child ts d c ch : da_children d !! c = Some ch ->
  held (with_threads ts d) ≡ₚ child_held ch ++ held (with_threads ts (with_children (delete c (da_children d)) d)).
Proof.
  intros Hc. unfold held. cbn [da_threads da_children with_threads with_children].
  rewrite (delete_Permutation (da_children d) c ch Hc) at 1. cbn [mbind list_bind]. rewrite !app_assoc. f_equiv. apply Permutation_app_comm.
Qed.

Section daemon.
Context (ToLower : gostring -> gostring) (cfg : Config) (gate : option SessionGate).
Context (prefix userTok natsURL natsCreds eventsPrefix : gostring) (environ : list gostring).
Abbreviation tstep := (thread_step ToLower cfg prefix userTok natsURL natsCreds eventsPrefix environ).
Abbreviation dstep := (daemon_step ToLower cfg gate prefix userTok natsURL natsCreds eventsPrefix environ).
Abbreviation reachable := (daemon_reach ToLower cfg gate prefix userTok natsURL natsCreds eventsPrefix environ).

(** ** The invariant of the slots *)

Definition slots_inv (d : Daemon) : Prop := slots_ok (da_adm d) (held d) /\ da_jobs d = Z.of_nat (tracked d).

(** What a thread's step does to the slots, the count and the children, the other slots
    being [base]. *)
Lemma thread_slots th h started at_ d d' rest base :
  tstep th h started at_ d = (d', rest) -> slots_ok (da_adm d) (thread_held th ++ base) ->
  exists cs, da_children d' = da_children d ++ cs /\ da_threads d' = da_threads d /\
    slots_ok (da_adm d') ((option_list rest ≫= thread_held) ++ (cs ≫= child_held) ++ base) /\
    da_jobs d' - Z.of_nat (sum_list_with thread_tracked (option_list rest) + length cs) = da_jobs d - Z.of_nat (thread_tracked th).
Proof.
  intros HS HA. destruct th as [j|j r|j r|j r|j pid log|j r|j r|j|j r code|j r code|j code|]; cbn [thread_step] in HS; cbn [thread_held app] in HA;
    try (injection HS as <- <-; exists []; cbn; rewrite app_nil_r; split_and!; [done|done| |lia]; first [exact HA|by eapply slots_release]).
  - destruct (Admit (da_adm d) (key j) (exclusive j)) as [a [e|r]] eqn:EA; injection HS as <- <-; exists []; cbn; rewrite app_nil_r; (split_and!; [done|done| |lia]).
    + assert (a = da_adm d) as -> by (unfold Admit in EA; repeat case_match; simplify_eq; done). done.
    + by eapply slots_admit.
  - destruct (command _ _ _ _ _ h j) as [c|], started as [[pid log]|]; injection HS as <- <-;
      try (exists []; cbn; rewrite app_nil_r; by split_and!; [done|done| |lia]).
    exists [MkChild pid j r]. cbn. split_and!; [done|done|exact HA|lia].
Qed.

Lemma slots_step d a d' : slots_inv d -> dstep d a = Some d' -> slots_inv d'.
Proof.
  intros [HA HJ] HS. unfold slots_inv, tracked in *. destruct a as [h kind rr id|t h started at_|c code|id| | |]; cbn [daemon_step] in HS.
  - injection HS as <-. destruct (checkRun _ _ _ _ _ h kind rr id) as [out|j]; [done|].
    split; [by rewrite held_threads|]. cbn. rewrite sum_list_with_app. cbn. lia.
  - destruct (da_threads d !! t) as [th|] eqn:Ht; [|done]. destruct (tstep th h started at_ d) as [d1 rest] eqn:E1. injection HS as <-.
    rewrite (held_thread d t th Ht) in HA. destruct (thread_slots th h started at_ d d1 rest _ E1 HA) as (cs & Hc & Hts & HA1 & HJ1).
    rewrite (sum_delete _ t th Ht) in HJ. split.
    + rewrite held_threads. unfold held in *. cbn in *. rewrite Hc, bind_app. revert HA1. apply slots_ok_perm. solve_Permutation.
    + cbn. rewrite sum_list_with_app, Hc, length_app. lia.
  - destruct (da_children d !! c) as [ch|] eqn:Hc; [|done]. injection HS as <-. split.
    + rewrite held_threads. cbn [mbind list_bind thread_held app]. revert HA. apply slots_ok_perm.
      change (held d) with (held (with_threads (da_threads d) d)). by rewrite (held_child (da_threads d) d c ch Hc).
    + cbn. rewrite sum_list_with_app. apply (delete_Permutation _ c) in Hc. rewrite Hc in HJ. cbn in HJ |- *. lia.
  - injection HS as <-. unfold handleJobStop. destruct (Get _ _); [|done]. by destruct (RequestStop _ _) as [r [pid|]].
  - by injection HS as <-.
  - by injection HS as <-.
  - destruct (da_jobs d =? 0); [by injection HS as <-|done].
Qed.

Lemma slots_reach d : reachable d -> slots_inv d.
Proof.
  induction 1 as [|d a d' _ IH HS]; [|by eapply slots_step].
  split; [apply slots_new|done].
Qed.

(** ** The jobs that are started *)

(** A job that the checks of handleRun let through. *)
Definition caller_ok (j : Job) : Prop :=
  exists c, rr_Caller (jb_Req j) = Some c /\
    (ca_Depth c = 0 /\ jb_Env j = [] \/
     ca_Depth c = 1 /\ jb_Kind j <> KindScript /\ MatchString runIDRe (ca_RunID c) = true /\ exists g, gate = Some g /\ g (jb_Kind j) (jb_Req j) = inr (jb_Env j)).
Definition job_ok (j : Job) : Prop := cleanPath (rr_ProjectRoot (jb_Req j)) ∈ cfg_Allow cfg /\ caller_ok j.

Lemma admitCaller_ok kind rr env : admitCaller kind rr gate = inr env -> forall id, caller_ok (MkJob kind rr id env).
Proof.
  unfold admitCaller. intros HA id. destruct (rr_Caller rr) as [c|] eqn:Ec; [|done]. exists c. split; [done|]. cbn.
  destruct (Z.ltb_spec (ca_Depth c) 0); [done|]. destruct (Z.eqb_spec (ca_Depth c) 0); [left; by injection HA as <-|].
  destruct (Z.leb_spec MaxDepth (ca_Depth c)) as [|Hm]; [done|]. unfold MaxDepth in Hm. destruct (bool_decide (kind = KindScript)) eqn:Ek; [done|]. apply bool_decide_eq_false in Ek.
  destruct (MatchString runIDRe (ca_RunID c)) eqn:Em; [|done]. destruct gate as [g|]; [|done]. right. split; [lia|]. split; [exact Ek|]. split; [exact Em|]. exists g. split; [done|].
  cbn in HA. destruct (g kind rr) as [[| | |]|]; by simplify_eq.
Qed.

Lemma checkRun_ok h kind rr id j : checkRun ToLower cfg gate prefix userTok h kind rr id = inr j -> job_ok j.
Proof.
  unfold checkRun. destruct (TrimSpace _ =s ""); [done|]. destruct (Allowed cfg (rr_ProjectRoot rr)) eqn:Ea; [|done]. cbn [negb].
  destruct (negb _); [done|]. destruct id as [id|]; [|done]. destruct (admitCaller kind rr gate) as [code|env] eqn:Ec; [done|]. intros [= <-].
  split; [|by apply admitCaller_ok]. cbn. unfold Allowed in Ea. destruct (cleanPath _ =s ""); [done|]. by apply bool_decide_eq_true in Ea.
Qed.

Definition thread_job (th : Thread) : option Job :=
  match th with
  | TAdmit j | TAdd j _ | TTrack j _ | TSpawn j _ | TSetProcess j _ _ | TUntrack j _ | TGiveUp j _ | TFinish j | TExitFinish j _ _ | TExitRelease j _ _ | TExitReport j _ => Some j
  | TExitDone => None
  end.
Definition out_ok (o : Out) : Prop :=
  match o with
  | OSpawned j _ c => job_ok j /\ exists h, command cfg natsURL natsCreds eventsPrefix environ h j = Some c
  | _ => True
  end.
Record jobs_inv (d : Daemon) : Prop := MkJobsInv {
  jv_threads : forall th j, th ∈ da_threads d -> thread_job th = Some j -> job_ok j;
  jv_children : forall c, c ∈ da_children d -> job_ok (ch_Job c);
  jv_out : forall o, o ∈ da_out d -> out_ok o }.

Lemma thread_jobs th h started at_ d d' rest : tstep th h started at_ d = (d', rest) -> (forall j, thread_job th = Some j -> job_ok j) ->
  (forall th' j, th' ∈ option_list rest -> thread_job th' = Some j -> job_ok j) /\
  exists cs out, da_children d' = da_children d ++ cs /\ da_out d' = da_out d ++ out /\ (forall c, c ∈ cs -> job_ok (ch_Job c)) /\ (forall o, o ∈ out -> out_ok o).
Proof.
  intros HS HJ.
  assert (forall th' : Thread, rest = Some th' -> thread_job th' = thread_job th \/ thread_job th' = None) as HR.
  { intros th' ->. destruct th; cbn in HS; repeat case_match; simplify_eq; by (left + right). }
  split; [intros th' j Hin Hj; destruct rest as [t'|]; [|by apply elem_of_nil in Hin]; apply list_elem_of_singleton in Hin as ->; destruct (HR t' eq_refl) as [E|E]; rewrite E in Hj; [by apply HJ|done]|].
  destruct th as [j|j r|j r|j r|j pid log|j r|j r|j|j r code|j r code|j code|]; cbn in HS;
    try (injection HS as <- <-; exists []; eexists; cbn; rewrite app_nil_r; split_and!; [done|first [reflexivity|symmetry; apply app_nil_r]|set_solver|]; intros o Ho; repeat (apply elem_of_cons in Ho as [->|Ho]; [done|]); by apply elem_of_nil in Ho).
  - destruct (Admit _ _ _) as [a [e|r]]; injection HS as <- <-; exists []; eexists; cbn; rewrite app_nil_r; (split_and!; [done|first [reflexivity|symmetry; apply app_nil_r]|set_solver|]); intros o Ho;
      repeat (apply elem_of_cons in Ho as [->|Ho]; [done|]); by apply elem_of_nil in Ho.
  - destruct (command _ _ _ _ _ h j) as [c|] eqn:Ec; [destruct started as [[pid log]|]|]; injection HS as <- <-;
      try (exists [], []; rewrite !app_nil_r; split_and!; [done|done|set_solver|set_solver]).
    exists [MkChild pid j r], [OSpawned j pid c]. split_and!; [done|done| |].
    + intros x ->%list_elem_of_singleton. by apply HJ.
    + intros o ->%list_elem_of_singleton. split; [by apply HJ|by exists h].
Qed.

Lemma jobs_reach d : reachable d -> jobs_inv d.
Proof.
  induction 1 as [|d a d' _ [J1 J2 J3] HS]; [split; cbn; set_solver|].
  assert (forall out, (forall o, o ∈ out -> out_ok o) -> forall o, o ∈ da_out d ++ out -> out_ok o) as Hout by (intros out Ho o [?|?]%elem_of_app; [by apply J3|by apply Ho]).
  destruct a as [h kind rr id|t h started at_|c code|id| | |]; cbn [daemon_step] in HS.
  - injection HS as <-. destruct (checkRun _ _ _ _ _ h kind rr id) as [out|j] eqn:Ec.
    + split; cbn; [done|done|]. apply Hout. unfold checkRun in Ec. intros o Ho. repeat case_match; simplify_eq; set_solver.
    + split; cbn; [|done|done]. intros th j' [Hin| ->%list_elem_of_singleton]%elem_of_app Hj; [by eapply J1|]. injection Hj as <-. by eapply checkRun_ok.
  - destruct (da_threads d !! t) as [th|] eqn:Ht; [|done]. destruct (tstep th h started at_ d) as [d1 rest] eqn:E1. injection HS as <-.
    destruct (thread_jobs th h started at_ d d1 rest E1) as (HR & cs & out & Hc & Ho & HC & HO); [intros j; apply J1; by eapply list_elem_of_lookup_2|].
    split; cbn; [|rewrite Hc|rewrite Ho; by apply Hout].
    + intros th' j [Hin|Hin]%elem_of_app; [|by apply HR]. apply J1. rewrite (delete_Permutation _ t th Ht). by right.
    + intros c [?|?]%elem_of_app; [by apply J2|by apply HC].
  - destruct (da_children d !! c) as [ch|] eqn:Hc; [|done]. injection HS as <-. split; cbn; [|intros c' Hin; apply J2; rewrite (delete_Permutation _ c ch Hc); by right|done].
    intros th j [Hin| ->%list_elem_of_singleton]%elem_of_app Hj; [by eapply J1|]. injection Hj as <-. apply J2. by eapply list_elem_of_lookup_2.
  - injection HS as <-. unfold handleJobStop, terminateGroup. destruct (Get _ _); [destruct (RequestStop _ _) as [r [pid|]]|]; split; cbn; try done; apply Hout; intros o Ho; repeat case_match; set_solver.
  - injection HS as <-. split; cbn; [done|done|]. apply Hout. unfold KillAll, terminateGroup. intros o (i & Ho & _)%list_elem_of_bind. repeat case_match; set_solver.
  - injection HS as <-. by split.
  - destruct (da_jobs d =? 0); [|done]. injection HS as <-. split; cbn; [done|done|]. apply Hout. set_solver.
Qed.
End daemon.

(** A child is started for a job that was let through, by the command of that job. *)
Lemma spawned_ok (ToLower : gostring -> gostring) cfg gate prefix userTok natsURL natsCreds eventsPrefix environ d j pid c :
  daemon_reach ToLower cfg gate prefix userTok natsURL natsCreds eventsPrefix environ d -> OSpawned j pid c ∈ da_out d ->
  job_ok cfg gate j /\ exists h, command cfg natsURL natsCreds eventsPrefix environ h j = Some c.
Proof. intros HR Hin. apply jobs_reach in HR as [_ _ HO]. exact (HO _ Hin). Qed.

Lemma two_on_key (l : list Job) i j a b k : i <> j -> l !! i = Some a -> l !! j = Some b -> key a = k -> key b = k -> (2 <= length (filter (fun x => key x = k) l))%nat.
Proof.
  intros Hne Ha Hb Ka Kb. rewrite (delete_Permutation l i a Ha).
  assert (b ∈ delete i l) as (n & Hn)%list_elem_of_lookup.
  { apply list_elem_of_lookup. destruct (decide (j < i)%nat); [exists j; by rewrite list_lookup_delete_lt by lia|].
    exists (pred j). rewrite list_lookup_delete_ge by lia. by replace (S (pred j)) with j by lia. }
  rewrite (delete_Permutation _ n b Hn). rewrite !filter_cons, !decide_True by done. cbn. lia.
Qed.

Lemma on_key_jobs k H : snd <$> on_key k H = filter (fun j => key j = k) (snd <$> H).
Proof. induction H as [|x H IH]; [done|]. unfold on_key in *. rewrite fmap_cons, !filter_cons. destruct (decide _); [rewrite fmap_cons; by f_equal|done]. Qed.

(** C18: However requests, starts, exits, stops and drains interleave, and whatever fails, a
    job that was admitted as exclusive is alone on its key from its admission until its child
    has ended and its slot is released: of two jobs that hold slots of one key neither is
    exclusive. The keys reported as held are exactly those of such jobs, each with its mode
    and the number of its jobs, so no slot leaks: when no handler is at work and no child is
    left every key is free. And the count a drain waits for is that of the children started
    or being started whose ends have not been reported. *)
Theorem jobs_exclusive (ToLower : gostring -> gostring) (cfg : Config) (gate : option SessionGate) (prefix userTok natsURL natsCreds eventsPrefix : gostring)
    (environ : list gostring) (d : Daemon) :
  daemon_reach ToLower cfg gate prefix userTok natsURL natsCreds eventsPrefix environ d ->
  let jobs := snd <$> held d in
  (forall i j a b, i <> j -> jobs !! i = Some a -> jobs !! j = Some b -> key a = key b -> exclusive a = false /\ exclusive b = false) /\
  (forall k, Snapshot (da_adm d) !! k = match filter (fun j => key j = k) jobs with
                                        | [] => None
                                        | j :: l => Some (MkKeyState (exclusive j) (Z.of_nat (S (length l))))
                                        end) /\
  (da_threads d = [] -> da_children d = [] -> Snapshot (da_adm d) = ∅ /\ da_jobs d = 0) /\
  da_jobs d = Z.of_nat (tracked d).
Proof.
  intros HR jobs. apply slots_reach in HR as [[S1 S2 S3 S4] HJ].
  assert (forall k, Snapshot (da_adm d) !! k = match filter (fun j => key j = k) jobs with [] => None | j :: l => Some (MkKeyState (exclusive j) (Z.of_nat (S (length l)))) end) as HK.
  { intros k. unfold Snapshot, jobs. rewrite <- on_key_jobs. specialize (S4 k). destruct (ad_keys (da_adm d) !! k) as [[e n]|]; [|by rewrite S4].
    destruct S4 as (K1 & K2 & _ & K4). cbn in K1, K2. destruct (on_key k (held d)) as [|x l]; [cbn in K1; lia|]. rewrite fmap_cons, length_fmap.
    rewrite (K4 x) by left. cbn [ks_exclusive]. by rewrite K1. }
  split_and!; [|done| |done].
  - intros i j a b Hne Ha Hb Hk. pose proof (two_on_key jobs i j a b (key a) Hne Ha Hb eq_refl (eq_sym Hk)) as H2.
    specialize (S4 (key a)). unfold jobs in *. rewrite <- on_key_jobs, length_fmap in H2.
    destruct (ad_keys (da_adm d) !! key a) as [s|]; [|rewrite S4 in H2; cbn in H2; lia]. destruct S4 as (K1 & _ & K3 & K4).
    unfold Slot in *. assert (ks_exclusive s = false) as Es by (destruct (ks_exclusive s); [specialize (K3 eq_refl); lia|done]).
    assert (forall x n, (snd <$> held d) !! n = Some x -> key x = key a -> exclusive x = false) as Hx.
    { intros x n Hn Ex. rewrite list_lookup_fmap in Hn. apply fmap_Some in Hn as ([r y] & Hy & ->). rewrite <- Es. apply (K4 (r, y)), list_elem_of_filter. split; [done|]. by eapply list_elem_of_lookup_2. }
    split; [by eapply Hx|by eapply Hx].
  - intros Ht Hc. unfold jobs, held, tracked in *. rewrite Ht, Hc in HK, HJ. split; [|done]. apply map_eq. intros k. by rewrite HK, lookup_empty.
Qed.

(** ** What a child is started with *)

(** A root of the allowlist: a rooted path, written clean. *)
Definition clean_root (a : gostring) : Prop := exists es, Forall good es /\ a = abs es.

Lemma add_root_clean out p : Forall (fun a => exists q, a = filepath_Clean q) out -> Forall (fun a => exists q, a = filepath_Clean q) (add_root out p).
Proof.
  intros H. unfold add_root. destruct ((cleanPath p =s "") || _) eqn:E; [done|]. apply Forall_app. split; [done|]. constructor; [|constructor].
  apply orb_false_iff in E as [E _]. unfold cleanPath in *. destruct (TrimSpace p =s ""); [done|]. by eexists.
Qed.

Lemma normalize_clean c : Forall (fun a => exists q, a = filepath_Clean q) (cfg_Allow (normalize c)).
Proof.
  cbn. assert (Forall (fun a => exists q, a = filepath_Clean q) (if cleanPath (cfg_ProjectRoot c) <>s "" then add_root [] (cleanPath (cfg_ProjectRoot c)) else [])) as H.
  { destruct (_ <>s ""); [apply add_root_clean|]; constructor. }
  revert H. generalize (if cleanPath (cfg_ProjectRoot c) <>s "" then add_root [] (cleanPath (cfg_ProjectRoot c)) else []). induction (cfg_Allow c) as [|p l IH]; intros out Ho; [done|].
  cbn. apply IH. by apply add_root_clean.
Qed.

Lemma loaded_roots h decoded cfg : LoadConfigFile h decoded = Some cfg -> Forall clean_root (cfg_Allow cfg).
Proof.
  unfold LoadConfigFile. destruct decoded as [c|]; [|done]. destruct (Validate h (normalize c)) eqn:EV; [|done]. intros [= <-].
  unfold Validate in EV. revert EV. pose proof (normalize_clean (normalize c)) as Hc. generalize dependent (normalize (normalize c)). intros c' Hc EV.
  destruct (cfg_ProjectRoot c' =s ""); [done|]. destruct (filepath_IsAbs (cfg_ProjectRoot c')); [|done]. cbn [negb] in EV. destruct (bool_decide _); [done|].
  destruct (forallb (entry_ok h) (cfg_Allow c')) eqn:EF; [|done]. apply Is_true_true, forallb_True in EF.
  apply Forall_forall. intros a Ha. rewrite Forall_forall in Hc. destruct (Hc a Ha) as [q Hq]. rewrite Forall_forall in EF. specialize (EF a Ha).
  apply Is_true_true in EF. unfold entry_ok in EF. apply andb_true_iff in EF as [EF _]. apply andb_true_iff in EF as [Habs _]. rewrite Hq in Habs.
  apply Clean_rooted, Clean_is_abs in Habs as (es & Hg & E). exists es. split; [done|]. by rewrite Hq, E.
Qed.

(** A path that is found under a root of the list is that root or in it. *)
Lemma underAnyRoot_spec roots q : Forall clean_root roots -> underAnyRoot roots (filepath_Clean q) = true ->
  exists es u, Forall good (es ++ u) /\ abs es ∈ roots /\ filepath_Clean q = abs (es ++ u).
Proof.
  intros HR (root & Hin & HU)%existsb_exists. apply list_elem_of_In in Hin. rewrite Forall_forall in HR. destruct (HR root Hin) as (es & Hg & ->).
  unfold under_root in HU. rewrite Clean_abs in HU by done.
  assert (exists ps, Forall good ps /\ filepath_Clean q = abs ps) as (ps & Hp & Eq).
  { destruct (filepath_IsAbs (filepath_Clean q)) eqn:Ea; [apply Clean_rooted, Clean_is_abs in Ea as (ps & ? & ?); by exists ps|]. exfalso.
    destruct (decide (filepath_Clean q = abs es)) as [E|E]; [by rewrite E in Ea|]. rewrite (bool_decide_false _ E) in HU.
    unfold filepath_Rel in HU. destruct (filepath_IsAbs (filepath_Clean (filepath_Clean q))) eqn:Ea'; [by rewrite (Clean_rooted _ Ea') in Ea|].
    rewrite Clean_abs in HU by done. rewrite bool_decide_false in HU by (intros E'; unfold filepath_IsAbs in Ea'; by rewrite <- E' in Ea').
    unfold filepath_IsAbs in Ea'. rewrite Ea' in HU. change (HasPrefix (abs es) "/") with true in HU. done. }
  rewrite Eq in HU |- *. destruct (decide (es `prefix_of` ps)) as [[u ->]|Hn]; [by exists es, u|]. exfalso.
  destruct (decide (abs ps = abs es)) as [E|E]; [apply abs_inj in E as ->; [|done..]; by apply Hn|]. rewrite (bool_decide_false _ E) in HU.
  destruct (Rel_outside es ps Hg Hp) as (rel & Hr & [->|Hl]); [by intros [u ->]; apply Hn; exists u| |]; rewrite Hr in HU; [done|]. rewrite Hl in HU. by destruct (rel =s "..").
Qed.

Lemma buildScript_spec h req cfg args : Forall clean_root (cfg_Allow cfg) -> buildScriptArgs h req cfg = Some args ->
  exists p, args !! 1%nat = Some p /\ (cfg_ForceScriptSandbox cfg = true -> args !! 5%nat = Some (bs "--sandbox")) /\
    (p = bs "-" /\ cfg_AllowScriptSource cfg = true /\ TrimSpace (rr_ScriptPath req) = [] /\ TrimSpace (rr_ScriptSource req) <> [] \/
     exists es u, Forall good (es ++ u) /\ abs es ∈ cfg_Allow cfg /\ p = abs (es ++ u)).
Proof.
  intros HR. unfold buildScriptArgs. destruct (Bool.eqb _ _) eqn:Eb; [done|]. destruct (TrimSpace (rr_ScriptPath req) <>s "") eqn:Ep.
  - unfold resolveAllowedScriptPath. set (q := if filepath_IsAbs (rr_ScriptPath req) then _ else _). destruct (sh_Stat h (filepath_Clean q)); try done.
    destruct (underAnyRoot (cfg_Allow cfg) (filepath_Clean q)) eqn:Eu; [|done]. cbn [negb]. intros [= <-]. eexists. split_and!; [done| |right; by apply underAnyRoot_spec in Eu].
    intros ->. done.
  - destruct (cfg_AllowScriptSource cfg); [|done]. intros [= <-]. eexists. split_and!; [done|by intros ->|left]. apply negb_false_iff, bool_decide_eq_true in Ep.
    split_and!; [done|done|exact Ep|]. destruct (TrimSpace (rr_ScriptSource req) <>s "") eqn:Es; [|done]. by apply negb_true_iff, bool_decide_eq_false in Es.
Qed.

(** C19: The daemon starts only jobs it may run. Over any history of requests, under a
    configuration it loaded and whatever its files answer from one moment to the next, a
    child is started only in a directory that reads as a root of the allowlist, with the argv
    of its request, which is a task's, a prompt's or a script's. Its caller said where it
    stands: outside every session, or in a session of depth one whose job, not a script, the
    gate let through, and then it runs under the environment the gate gave. A script is
    one under a root of the allowlist, or the request's own source where the configuration
    allows that, given on its input; with --sandbox where the configuration forces it. *)
Theorem jobs_permitted (ToLower : gostring -> gostring) (h0 : ServiceHost) (decoded : option Config) (cfg : Config) (gate : option SessionGate)
    (prefix userTok natsURL natsCreds eventsPrefix : gostring) (environ : list gostring) (d : Daemon) (j : Job) (pid : Z) (c : Command) :
  LoadConfigFile h0 decoded = Some cfg ->
  daemon_reach ToLower cfg gate prefix userTok natsURL natsCreds eventsPrefix environ d -> OSpawned j pid c ∈ da_out d ->
  cleanPath (cm_Dir c) ∈ cfg_Allow cfg /\ jb_Kind j <> KindPipeline /\
  (exists s, rr_Caller (jb_Req j) = Some s /\
     (ca_Depth s = 0 /\ jb_Env j = [] \/ ca_Depth s = 1 /\ jb_Kind j <> KindScript /\ exists g, gate = Some g /\ g (jb_Kind j) (jb_Req j) = inr (jb_Env j))) /\
  cm_Env c = childEnv natsURL natsCreds environ (jb_ID j) ++ jb_Env j /\
  (exists h args tail, BuildArgs h (jb_Kind j) (jb_Req j) cfg = Some args /\ cm_Args c = args ++ tail /\ (jb_Kind j = KindPrompt -> tail = [])) /\
  (jb_Kind j = KindScript -> (cfg_ForceScriptSandbox cfg = true -> bs "--sandbox" ∈ cm_Args c) /\ exists p, cm_Args c !! 1%nat = Some p /\
     (p = bs "-" /\ cfg_AllowScriptSource cfg = true /\ cm_Stdin c = Some (rr_ScriptSource (jb_Req j)) \/
      exists es u, Forall good (es ++ u) /\ abs es ∈ cfg_Allow cfg /\ p = abs (es ++ u))).
Proof.
  intros HL HR Hin. apply loaded_roots in HL. destruct (spawned_ok _ _ _ _ _ _ _ _ _ _ _ _ _ HR Hin) as [[HA (s & Hs & Hc)] [h HC]].
  unfold command in HC. destruct (BuildArgs h (jb_Kind j) (jb_Req j) cfg) as [args|] eqn:EB; [|done]. injection HC as <-. cbn [cm_Dir cm_Env cm_Args cm_Stdin].
  split; [done|]. split; [intros E; unfold BuildArgs in EB; rewrite E in EB; by destruct (TrimSpace (rr_ProjectRoot (jb_Req j)) =s "")|].
  split; [exists s; split; [done|]; destruct Hc as [?|(? & ? & _ & ?)]; [by left|by right]|]. split; [done|].
  split; [exists h, args; eexists; split_and!; [done|done|]; intros ->; by rewrite andb_false_r|].
  intros Ek. unfold BuildArgs in EB. rewrite Ek in EB. destruct (TrimSpace (rr_ProjectRoot (jb_Req j)) =s ""); [done|]. apply buildScript_spec in EB as (p & Hp & Hsb & Hor); [|done].
  split; [intros Hf; apply elem_of_app; left; by eapply list_elem_of_lookup_2, Hsb|]. exists p. split; [by apply lookup_app_l_Some|].
  destruct Hor as [(-> & Hsrc & H1 & H2)|Hor]; [left|by right]. split_and!; [done|done|]. change (TrimSpace (rr_ScriptSource (jb_Req j)) <> bs "") in H2. by rewrite Ek, H1, (bool_decide_false _ H2).
Qed.

(** ** The job table *)

(** The ids of the jobs that are not in the table yet, and of those in it whose end was not
    recorded. *)
Definition thread_pending (th : Thread) : list gostring := match th with TAdmit j | TAdd j _ => [jb_ID j] | _ => [] end.
Definition thread_unfinished (th : Thread) : list gostring :=
  match th with TTrack j _ | TSpawn j _ | TUntrack j _ | TGiveUp j _ | TFinish j | TExitFinish j _ _ => [jb_ID j] | _ => [] end.
Definition pending (d : Daemon) : list gostring := da_threads d ≫= thread_pending.
Definition unfinished (d : Daemon) : list gostring := (da_threads d ≫= thread_unfinished) ++ (jb_ID ∘ ch_Job <$> da_children d).

(** An entry's state goes with its exit code and with whether a stop was asked for. *)
Definition entry_told (e : jobEntry) : Prop :=
  match ji_State (je_info e), ji_ExitCode (je_info e) with
  | StateRunning, None => True
  | StateDone, Some c => c = 0 /\ je_stopRequested e = false
  | StateFailed, Some c => c <> 0 /\ je_stopRequested e = false
  | StateStopped, Some _ => je_stopRequested e = true
  | _, _ => False
  end.

(** The table accounts for the ids of [P], not yet in it, and [U], running, of the minted [M]. *)
Record table_ok (M : list gostring) (r : Registry) (P U : list gostring) : Prop := MkTableOk {
  to_nodup : NoDup (P ++ U);
  to_minted : forall id, id ∈ P ++ U \/ is_Some (r !! id) -> id ∈ M;
  to_pending : forall id, id ∈ P -> r !! id = None;
  to_running : forall id, (exists e, r !! id = Some e /\ running (je_info e) = true) <-> id ∈ U;
  to_entry : forall id e, r !! id = Some e -> entry_told e /\ ji_JobID (je_info e) = id }.

(** What is shown of a job beside its process: its pid and its log, which Finish and
    SetProcess may set in either order. *)
Definition without_process (i : JobInfo) : JobInfo :=
  MkJobInfo (ji_JobID i) (ji_Kind i) (ji_State i) (ji_StartedAt i) (ji_LastEventAt i) 0 (ji_ExclusivityKey i) (ji_Exclusive i)
    (ji_SubmittedBy i) (ji_Caller i) [] (ji_ExitCode i).

(** What is recorded of a job that ended stays, but for its process. *)
Definition kept (r r' : Registry) : Prop :=
  forall id e, r !! id = Some e -> running (je_info e) = false ->
    exists e', r' !! id = Some e' /\ without_process (je_info e') = without_process (je_info e).

Lemma without_process_state i i' : without_process i' = without_process i -> ji_State i' = ji_State i /\ ji_JobID i' = ji_JobID i.
Proof. by intros [= -> _ -> _ _ _ _ _ _ _]. Qed.

#[export] Instance kept_preorder : PreOrder kept.
Proof.
  split; [intros r id e He _; by exists e|]. intros r1 r2 r3 K1 K2 id e He Hr. destruct (K1 id e He Hr) as (e1 & H1 & E1).
  destruct (K2 id e1 H1) as (e2 & H2 & E2); [unfold running in *; by rewrite (proj1 (without_process_state _ _ E1))|]. exists e2. by rewrite E2.
Qed.

#[export] Instance table_ok_perm M r : Proper ((≡ₚ) ==> (≡ₚ) ==> iff) (table_ok M r).
Proof.
  enough (forall P P' U U', P ≡ₚ P' -> U ≡ₚ U' -> table_ok M r P U -> table_ok M r P' U') as G by (intros P P' EP U U' EU; split; by apply G).
  intros P P' U U' EP EU [T1 T2 T3 T4 T5]. split; [by rewrite <- EP, <- EU| | |by setoid_rewrite <- EU|done].
  - intros id Hid. apply T2. by rewrite EP, EU.
  - intros id. rewrite <- EP. apply T3.
Qed.

Lemma table_mint M r P U id : id ∉ M -> table_ok M r P U -> table_ok (id :: M) r (id :: P) U.
Proof.
  intros Hf [T1 T2 T3 T4 T5]. split; [|intros x [[->|Hx]%elem_of_cons|Hx]; [left|right; apply T2; by left|right; apply T2; by right]| |done|done].
  - cbn. constructor; [|done]. intros Hin. apply Hf, T2. by left.
  - intros x [->|Hx]%elem_of_cons; [|by apply T3]. destruct (r !! id) eqn:E; [|done]. destruct Hf. apply T2. right. by rewrite E.
Qed.

Lemma table_drop M r P U id : table_ok M r (id :: P) U -> table_ok M r P U.
Proof.
  intros [T1 T2 T3 T4 T5]. split; [by inversion T1| |intros x Hx; apply T3; by right|done|done].
  intros x [Hx|Hx]; apply T2; [left; by right|by right].
Qed.

Lemma table_add M r P U i : ji_ExitCode i = None -> table_ok M r (ji_JobID i :: P) U -> table_ok M (Add r i) P (ji_JobID i :: U) /\ kept r (Add r i).
Proof.
  intros Hx [T1 T2 T3 T4 T5]. set (id := ji_JobID i) in *. assert (r !! id = None) as Hn by (apply T3; left). unfold Add. fold id. split; [split|].
  - rewrite <- Permutation_middle. done.
  - intros x [Hin|Hin].
    + apply T2. left. by rewrite <- Permutation_middle in Hin.
    + destruct (decide (id = x)) as [<-|Hne]; [apply T2; left; left|]. rewrite lookup_insert_ne in Hin by done. apply T2. by right.
  - intros x Hin. rewrite lookup_insert_ne; [apply T3; by right|]. intros <-. cbn in T1. inversion T1 as [|? ? Hno]. apply Hno, elem_of_app. by left.
  - intros x. destruct (decide (id = x)) as [<-|Hne].
    + rewrite lookup_insert_eq. split; [intros _; left|intros _; by eexists].
    + rewrite lookup_insert_ne by done. rewrite T4, elem_of_cons. naive_solver.
  - intros x e. destruct (decide (id = x)) as [<-|Hne]; [rewrite lookup_insert_eq; intros [= <-]; by split; [unfold entry_told; cbn; rewrite Hx|]|].
    rewrite lookup_insert_ne by done. apply T5.
  - intros x e He _. exists e. by rewrite lookup_insert_ne by congruence.
Qed.

(** A change of an entry that leaves its state is no change to the account. *)
Lemma table_same M r r' P U :
  (forall id, match r !! id, r' !! id with
              | None, None => True
              | Some e, Some e' => without_process (je_info e') = without_process (je_info e) /\ (entry_told e -> entry_told e')
              | _, _ => False
              end) -> table_ok M r P U -> table_ok M r' P U /\ kept r r'.
Proof.
  intros HS [T1 T2 T3 T4 T5]. split; [split|].
  - done.
  - intros x [Hx|Hx]; [apply T2; by left|]. apply T2. right. specialize (HS x). destruct (r !! x); [done|]. destruct (r' !! x); [done|by destruct Hx].
  - intros x Hx. specialize (HS x). rewrite (T3 x Hx) in HS. by destruct (r' !! x).
  - intros x. rewrite <- T4. specialize (HS x). unfold running. split; intros (e & He & Hr); rewrite He in HS.
    + destruct (r !! x) as [e0|]; [|done]. exists e0. split; [done|]. destruct HS as [[HS _]%without_process_state _]. by rewrite HS in Hr.
    + destruct (r' !! x) as [e0|]; [|done]. exists e0. split; [done|]. destruct HS as [[HS _]%without_process_state _]. by rewrite HS.
  - intros x e He. specialize (HS x). rewrite He in HS. destruct (r !! x) as [e0|] eqn:E0; [|done]. destruct HS as [[_ Hid]%without_process_state Ht].
    destruct (T5 x e0 E0) as [? <-]. split; [by apply Ht|done].
  - intros x e He _. specialize (HS x). rewrite He in HS. destruct (r' !! x) as [e'|]; [|done]. exists e'. by destruct HS.
Qed.

Lemma table_process M r P U id pid log : table_ok M r P U -> table_ok M (SetProcess r id pid log) P U /\ kept r (SetProcess r id pid log).
Proof.
  apply table_same. intros x. unfold SetProcess. destruct (decide (id = x)) as [<-|Hne]; [rewrite lookup_alter_eq|rewrite lookup_alter_ne by done]; by destruct (r !! _).
Qed.

Lemma table_stop M r P U id : table_ok M r P U -> table_ok M (fst (RequestStop r id)) P U /\ kept r (fst (RequestStop r id)).
Proof.
  apply table_same. intros x. unfold RequestStop. destruct (r !! id) as [e|] eqn:E; [|cbn; by destruct (r !! x)].
  destruct (running (je_info e)) eqn:Er; [|cbn; by destruct (r !! x)]. cbn [negb fst].
  destruct (decide (id = x)) as [<-|Hne]; [rewrite E, lookup_insert_eq|rewrite lookup_insert_ne by done; by destruct (r !! x)].
  apply bool_decide_eq_true in Er. unfold entry_told. cbn. rewrite Er. by destruct (ji_ExitCode _).
Qed.

Lemma table_finish M r P U id code at_ : table_ok M r P (id :: U) -> table_ok M (Finish r id code at_) P U /\ kept r (Finish r id code at_).
Proof.
  intros [T1 T2 T3 T4 T5]. assert (exists e, r !! id = Some e /\ running (je_info e) = true) as (e & He & Hr) by (apply T4; left).
  rewrite <- Permutation_middle in T1. inversion T1 as [|? ? Hno T1']; subst. unfold Finish. split; [split|].
  - done.
  - intros x [Hx|Hx]; apply T2; [left; rewrite <- Permutation_middle; by right|]. right.
    destruct (decide (id = x)) as [<-|Hne]; [by rewrite He|by rewrite lookup_alter_ne in Hx].
  - intros x Hx. rewrite lookup_alter_ne; [by apply T3|]. intros <-. apply Hno, elem_of_app. by left.
  - intros x. destruct (decide (id = x)) as [<-|Hne].
    + rewrite lookup_alter_eq, He. cbn. split; [intros (? & [= <-] & Hx)|intros Hx; destruct Hno; apply elem_of_app; by right].
      unfold running in Hx. cbn in Hx. unfold finish_state in Hx. by destruct (je_stopRequested e), (code =? 0).
    + rewrite lookup_alter_ne by done. rewrite T4, elem_of_cons. naive_solver.
  - intros x e'. destruct (decide (id = x)) as [<-|Hne]; [|rewrite lookup_alter_ne by done; apply T5]. rewrite lookup_alter_eq, He. cbn. intros [= <-].
    split; [|by destruct (T5 id e He)]. unfold entry_told, with_end, finish_state. cbn [ji_State ji_ExitCode je_info je_stopRequested]. destruct (je_stopRequested e) eqn:Es; [done|]. by destruct (Z.eqb_spec code 0).
  - intros x e' He' Hr'. exists e'. rewrite lookup_alter_ne; [done|]. intros <-. congruence.
Qed.

Section table.
Context (ToLower : gostring -> gostring) (cfg : Config) (gate : option SessionGate).
Context (prefix userTok natsURL natsCreds eventsPrefix : gostring) (environ : list gostring).
Abbreviation tstep := (thread_step ToLower cfg prefix userTok natsURL natsCreds eventsPrefix environ).
Abbreviation dstep := (daemon_step ToLower cfg gate prefix userTok natsURL natsCreds eventsPrefix environ).
Abbreviation drun := (daemon_run ToLower cfg gate prefix userTok natsURL natsCreds eventsPrefix environ).

(** The ids a history minted. *)
Definition minted_by (a : Act) : list gostring := match a with ARun _ _ _ (Some id) => [id] | _ => [] end.

Lemma thread_table M th h started at_ d d' rest P U :
  tstep th h started at_ d = (d', rest) -> table_ok M (da_reg d) (thread_pending th ++ P) (thread_unfinished th ++ U) ->
  exists cs, da_children d' = da_children d ++ cs /\
    table_ok M (da_reg d') ((option_list rest ≫= thread_pending) ++ P) ((option_list rest ≫= thread_unfinished) ++ (jb_ID ∘ ch_Job <$> cs) ++ U) /\ kept (da_reg d) (da_reg d').
Proof.
  intros HS HT. destruct th as [j|j r|j r|j r|j pid log|j r|j r|j|j r code|j r code|j code|]; cbn [thread_step] in HS; cbn [thread_pending thread_unfinished app] in HT.
  1: destruct (Admit _ _ _) as [a [e|r]].
  5: destruct (command _ _ _ _ _ h j) as [c|]; [destruct started as [[pid log]|]|].
  all: injection HS as <- <-.
  5: { exists [MkChild pid j r]. split_and!; [done|exact HT|reflexivity]. }
  all: exists []; cbn; rewrite app_nil_r; split; [done|].
  all: try (split; [exact HT|reflexivity]).
  - split; [by eapply table_drop|reflexivity].
  - exact (table_add M (da_reg d) P U (new_info j at_) eq_refl HT).
  - by apply table_process.
  - by apply table_finish.
  - by apply table_finish.
Qed.

Lemma step_table M d a d' : (forall id, id ∈ minted_by a -> id ∉ M) -> table_ok M (da_reg d) (pending d) (unfinished d) -> dstep d a = Some d' ->
  table_ok (minted_by a ++ M) (da_reg d') (pending d') (unfinished d') /\ kept (da_reg d) (da_reg d').
Proof.
  intros Hf HT HS. destruct a as [h kind rr id|t h started at_|c code|id| | |]; cbn [daemon_step] in HS.
  - injection HS as <-. assert (forall i, id = Some i -> table_ok (i :: M) (da_reg d) (i :: pending d) (unfinished d)) as Hm.
    { intros i ->. apply table_mint; [apply Hf; left|done]. }
    destruct (checkRun _ _ _ _ _ h kind rr id) as [out|j] eqn:Ec.
    + split; [|reflexivity]. destruct id as [i|]; [|done]. cbn. by apply table_drop with (id := i), Hm.
    + assert (id = Some (jb_ID j)) as -> by (unfold checkRun in Ec; repeat case_match; by simplify_eq).
      split; [|reflexivity]. cbn. unfold pending, unfinished. cbn. rewrite !bind_app. cbn. rewrite app_nil_r, <- Permutation_cons_append. by apply Hm.
  - destruct (da_threads d !! t) as [th|] eqn:Ht; [|done]. destruct (tstep th h started at_ d) as [d1 rest] eqn:E1. injection HS as <-. cbn [minted_by app].
    unfold pending, unfinished in HT. rewrite (delete_Permutation (da_threads d) t th Ht) in HT. cbn [mbind list_bind] in HT. rewrite <- app_assoc in HT.
    destruct (thread_table M th h started at_ d d1 rest _ _ E1 HT) as (cs & Hc & HT1 & HK). split; [|done].
    revert HT1. apply table_ok_perm; unfold pending, unfinished; cbn; rewrite bind_app; [apply Permutation_app_comm|]. rewrite Hc, fmap_app. solve_Permutation.
  - destruct (da_children d !! c) as [ch|] eqn:Hc; [|done]. injection HS as <-. cbn [minted_by app]. split; [|reflexivity].
    revert HT. apply table_ok_perm; unfold pending, unfinished; cbn; rewrite bind_app; cbn; [by rewrite app_nil_r|].
    pose proof (fmap_Permutation (jb_ID ∘ ch_Job) _ _ (delete_Permutation (da_children d) c ch Hc)) as E. rewrite fmap_cons in E. rewrite E. solve_Permutation.
  - injection HS as <-. cbn [minted_by app]. unfold handleJobStop. destruct (Get _ _); [|by split].
    pose proof (table_stop M (da_reg d) (pending d) (unfinished d) id HT) as HT'. by destruct (RequestStop (da_reg d) id) as [r [pid|]].
  - injection HS as <-. by split.
  - injection HS as <-. by split.
  - destruct (da_jobs d =? 0); [|done]. injection HS as <-. by split.
Qed.

Lemma run_table acts : forall M d d', drun d acts = Some d' -> NoDup (acts ≫= minted_by) -> (forall id, id ∈ acts ≫= minted_by -> id ∉ M) ->
  table_ok M (da_reg d) (pending d) (unfinished d) ->
  (exists M', table_ok M' (da_reg d') (pending d') (unfinished d') /\ forall id, id ∈ M' -> id ∈ M \/ id ∈ acts ≫= minted_by) /\ kept (da_reg d) (da_reg d').
Proof.
  induction acts as [|a acts IH]; intros M d d' HR HN HF HT; cbn in HR; [injection HR as <-; split; [exists M; split; [done|by left]|reflexivity]|].
  destruct (dstep d a) as [d1|] eqn:E1; [|done]. cbn in HN, HF. apply NoDup_app in HN as (_ & HN1 & HN2).
  destruct (step_table M d a d1) as [HT1 K1]; [intros id Hid; apply HF, elem_of_app; by left|done|done|].
  destruct (IH (minted_by a ++ M) d1 d' HR HN2) as [(M' & HT2 & HM) K2]; [|done|].
  2: { split; [|by etrans]. exists M'. split; [done|]. intros id Hid. cbn. rewrite elem_of_app. destruct (HM id Hid) as [[?|?]%elem_of_app|?]; auto. }
  intros id Hid [Hin|Hin]%elem_of_app; [by apply (HN1 id Hin)|]. revert Hin. apply HF, elem_of_app. by right.
Qed.

End table.

Lemma RunningCount_unfinished M r P U : table_ok M r P U -> RunningCount r = length U.
Proof.
  intros [T1 _ _ T4 _]. unfold RunningCount. rewrite <- (length_fmap fst). apply Permutation_length, NoDup_Permutation.
  - apply (NoDup_fmap_fst (filter _ _)); [|apply NoDup_filter, NoDup_map_to_list].
    intros x y y' [_ H1]%list_elem_of_filter [_ H2]%list_elem_of_filter. apply elem_of_map_to_list in H1, H2. congruence.
  - by apply NoDup_app in T1 as (_ & _ & ?).
  - intros id. rewrite <- T4, list_elem_of_fmap. split.
    + intros ([k e] & -> & [Hr He]%list_elem_of_filter). exists e. split; [by apply elem_of_map_to_list|done].
    + intros (e & He & Hr). exists (id, e). split; [done|]. apply list_elem_of_filter. split; [done|by apply elem_of_map_to_list].
Qed.

(** C20: The job table tells what became of every job. In any history in which no id is minted
    twice, the jobs it shows as running are, one for one, those that were accepted and are
    being started, whose child lives, or whose end is about to be recorded, and their number
    is the one the status reports; a job shown as done exited 0 and no stop was asked for, a
    failed one did not exit 0, a stopped one was asked to stop; and of what is shown of a job
    that ended only its pid and its log may change, which a start that is told late sets. *)
Theorem jobs_told (ToLower : gostring -> gostring) (cfg : Config) (gate : option SessionGate) (prefix userTok natsURL natsCreds eventsPrefix : gostring)
    (environ : list gostring) (acts acts' : list Act) (d d' : Daemon) :
  let run := daemon_run ToLower cfg gate prefix userTok natsURL natsCreds eventsPrefix environ in
  run NewDaemon acts = Some d -> run d acts' = Some d' -> NoDup ((acts ++ acts') ≫= minted_by) ->
  NoDup (unfinished d) /\ RunningCount (da_reg d) = length (unfinished d) /\
  (forall id, (exists i, Get (da_reg d) id = Some i /\ ji_State i = StateRunning) <-> id ∈ unfinished d) /\
  (forall id e, da_reg d !! id = Some e -> ji_JobID (je_info e) = id /\
     match ji_State (je_info e) with
     | StateRunning => ji_ExitCode (je_info e) = None
     | StateDone => ji_ExitCode (je_info e) = Some 0 /\ je_stopRequested e = false
     | StateFailed => je_stopRequested e = false /\ exists c, c <> 0 /\ ji_ExitCode (je_info e) = Some c
     | StateStopped => je_stopRequested e = true /\ exists c, ji_ExitCode (je_info e) = Some c
     end) /\
  (forall id i, Get (da_reg d) id = Some i -> ji_State i <> StateRunning ->
     exists i', Get (da_reg d') id = Some i' /\ without_process i' = without_process i).
Proof.
  intros run H1 H2 HN. assert (table_ok [] (da_reg NewDaemon) (pending NewDaemon) (unfinished NewDaemon)) as T0.
  { split; cbn; [constructor| |done| |done]; [intros id [Hin|[e He]]; [set_solver|by rewrite lookup_empty in He]|]. intros id. split; [intros (e & He & _); by rewrite lookup_empty in He|set_solver]. }
  rewrite bind_app in HN. apply NoDup_app in HN as (HN1 & HN12 & HN2).
  apply (run_table _ _ _ _ _ _ _ _ _ _ []) in H1 as [(M & HT & HM) _]; [|done|intros id _; by apply not_elem_of_nil|exact T0].
  apply (run_table _ _ _ _ _ _ _ _ _ _ M) in H2 as [_ HK]; [|done| |exact HT].
  2: { intros id Hid Hin. destruct (HM id Hin) as [Hn|Hin1]; [by apply elem_of_nil in Hn|]. by apply (HN12 id Hin1). }
  pose proof (RunningCount_unfinished _ _ _ _ HT) as HC. destruct HT as [T1 T2 T3 T4 T5].
  split_and!; [by apply NoDup_app in T1 as (_ & _ & ?)|done| | |].
  - intros id. rewrite <- T4. unfold Get. split.
    + intros (i & (e & He & ->)%fmap_Some & Hs). exists e. split; [done|]. unfold running. by rewrite Hs.
    + intros (e & He & Hr). exists (je_info e). rewrite He. split; [done|]. by apply bool_decide_eq_true in Hr.
  - intros id e He. destruct (T5 id e He) as [Ht Hid]. split; [done|]. unfold entry_told in Ht.
    destruct (ji_State (je_info e)), (ji_ExitCode (je_info e)) as [c|]; try done; naive_solver.
  - intros id i (e & He & ->)%fmap_Some Hs. destruct (HK id e He) as (e' & He' & ?); [by apply bool_decide_eq_false|]. exists (je_info e'). unfold Get. by rewrite He'.
Qed.
