(* ===== verification/Nesting.v ===== *)
(** Which session may start which: the nesting rule of apexv1/nesting.go and its allow-list
    (apexv1/allowlist.go), the session a command finds itself in (apecmd/nesting.go,
    repl/sessionmarker.go), and the daemon's gate for a caller in a session
    (apecmd/service_submit.go). What ape recorded of its sessions, the process table and the
    environment are the host's. *)
From S2P Require Import Prelude Regex Markdown Spec Shell Paths Authz Executor Command Service ServiceFacts.
Local Open Scope Z_scope.

Definition CodeSessionNotAllowed : gostring := "session.not-allowed".
Definition CodeChildRunning : gostring := "session.child-running".
Definition CodeLoopRunning : gostring := "session.loop-running".
Definition CodeSkillRenamed : gostring := "skill.renamed".
Definition OrchestratorSkill : gostring := "apex-loop".
Definition OperatorSkill : gostring := "apex-orchestrator".

(** IsLoopRun *)
Definition IsLoopRun (skill : gostring) : bool := (skill =s OrchestratorSkill) || (skill =s OperatorSkill).

Record SessionAt := MkSessionAt { at_Depth : Z; at_Run : gostring; at_Skill : gostring; at_Kind : gostring }.
Definition no_session : SessionAt := MkSessionAt 0 [] [] [].

(** SessionAt.Orchestrator *)
Definition Orchestrator (s : SessionAt) : bool :=
  (at_Depth s =? 1) && IsLoopRun (at_Skill s) && ((at_Kind s =s "task") || (at_Kind s =s "script")).

(** SessionStart: the depth of the new session, or the refusal. *)
Definition SessionStart (s : SessionAt) (skill : gostring) (allow : list gostring) : Err + Z :=
  if at_Depth s =? 0 then inr 1
  else if MaxDepth <=? at_Depth s then inl (UsageError CodeSessionDepth)
  else if negb (Orchestrator s) then inl (UsageError CodeSessionDepth)
  else if (skill =s "") || negb (slices_Contains allow skill) then inl (UsageError CodeSessionNotAllowed)
  else inr (at_Depth s + 1).

(** SessionBusy *)
Definition SessionBusy (child : bool) : Err := ConflictError (if child then CodeChildRunning else CodeLoopRunning).

(** RenamedSkill *)
Definition RenamedSkill (skill : gostring) : option Err := if skill <>s OperatorSkill then None else Some (UsageError CodeSkillRenamed).

(** ** The allow-list *)

Definition CoreChildSkills : list gostring := [bs "apex-plan"; bs "apex-change"; bs "apex-apply"; bs "apex-review"; bs "apex-accept"].
Definition ReleaseSkill : gostring := "apex-release".
Definition NeverChildSkill (skill : gostring) : bool := skill =s ReleaseSkill.

(** ChildSkillAllowList, on the delegate of human_review ("" without one) and the skills of
    the tools' slots, in order. *)
Definition allow_skill (out : list gostring) (s : gostring) : list gostring :=
  if negb (slices_Contains out s) && negb (NeverChildSkill s) then out ++ [s] else out.
Definition ChildSkillAllowList (delegate : gostring) (tools : list gostring) : list gostring :=
  foldl allow_skill (if delegate <>s "" then allow_skill CoreChildSkills delegate else CoreChildSkills) tools.

(** ** The session a command runs in *)

(** A row of the live-session registry; [ro_Claude] is IsClaude. *)
Record SessionRow := MkSessionRow { ro_PID : Z; ro_RunID : gostring; ro_Skill : gostring; ro_Command : gostring; ro_Depth : Z; ro_Claude : Z -> bool }.

(** The environment's marker, the rows of the sessions alive, the parents of the processes,
    the skill of a task run still marked running under the project, what the project's
    configuration gives the allow-list, whether the loop is to be relayed, and whether the
    project is of the earlier process. *)
Record SessionHost := MkSessionHost { se_Marker : gostring; se_Depth : gostring; se_Detached : gostring; se_Rows : list SessionRow; se_PID : Z; se_Parent : Z -> option Z;
  se_Running : gostring -> gostring; se_Delegate : gostring; se_Tools : list gostring; se_Relay : option Err; se_V0 : bool }.

(** SessionOfMarker *)
Definition cut (s sep : gostring) : gostring * gostring := default (s, []) (Cut s sep).
Definition SessionOfMarker (v : gostring) : gostring * gostring :=
  let '(kind, rest) := cut v "/" in (kind, fst (cut rest "/")).

(** sessionFromEnv *)
Definition sessionFromEnv (H : SessionHost) : SessionAt :=
  let depth := match Atoi (se_Depth H) with Some n => if n <? 0 then 0 else n | None => 0 end in
  if (se_Marker H =s "") && (depth =? 0) then no_session
  else
    let depth := if depth =? 0 then 1 else depth in
    let '(kind, run) := SessionOfMarker (se_Marker H) in
    MkSessionAt depth run [] kind.

(** Ancestors (internal/proctree/proctree.go), at most [fuel] of them. *)
Definition maxAncestors : nat := 64.
Fixpoint ancestors (parent : Z -> option Z) (fuel : nat) (seen : list Z) (pid : Z) : list Z :=
  match fuel with
  | O => []
  | S fuel =>
      match parent pid with
      | None => []
      | Some pp => if (pp <=? 1) || bool_decide (pp ∈ seen) then [] else pp :: ancestors parent fuel (pp :: seen) pp
      end
  end.
Definition Ancestors (pid : Z) (parent : Z -> option Z) : list Z := ancestors parent maxAncestors [pid] pid.

(** ancestorSession, rowDepth *)
Definition row_of (rows : list SessionRow) (pid : Z) : option SessionRow :=
  List.find (fun r => (ro_RunID r <>s "") && ((ro_PID r =? pid) || ro_Claude r pid)) rows.
Definition ancestorSession (H : SessionHost) : option SessionRow := head (omap (row_of (se_Rows H)) (Ancestors (se_PID H) (se_Parent H))).
Definition rowDepth (r : SessionRow) : Z := if ro_Depth r <=? 0 then 1 else ro_Depth r.

(** currentSession *)
Definition currentSession (H : SessionHost) : SessionAt :=
  let env := sessionFromEnv H in
  match ancestorSession H with
  | Some row => MkSessionAt (Z.max (rowDepth row) (at_Depth env)) (ro_RunID row) (ro_Skill row) (ro_Command row)
  | None =>
      if at_Depth env =? 0 then no_session
      else match List.find (fun r => (ro_RunID r <>s "") && (ro_RunID r =s at_Run env)) (se_Rows H) with
           | Some row => MkSessionAt (Z.max (at_Depth env) (rowDepth row)) (at_Run env) (ro_Skill row) (at_Kind env)
           | None =>
               let skill := if (at_Kind env =s "task") || (at_Kind env =s "script") then se_Running H (at_Run env) else [] in
               MkSessionAt (at_Depth env) (at_Run env) skill (at_Kind env)
           end
  end.

(** ** What may be started *)

(** refuseRenamed *)
Definition refuseRenamed (H : SessionHost) (skill : gostring) : option Err :=
  if (skill <>s OperatorSkill) || se_V0 H then None else RenamedSkill skill.

(** gateSession: the depth of the session, and the parent's run at depth two. *)
Definition gateSession (H : SessionHost) (skill : gostring) : Err + (Z * gostring) :=
  match refuseRenamed H skill with
  | Some e => inl e
  | None =>
      let s := currentSession H in
      let allow := if Orchestrator s then ChildSkillAllowList (se_Delegate H) (se_Tools H) else [] in
      match SessionStart s skill allow with
      | inl e => inl e
      | inr depth =>
          match (if Orchestrator s && (se_Detached H =s "") then se_Relay H else None) with
          | Some e => inl e
          | None => inr (depth, if 1 <? depth then at_Run s else [])
          end
      end
  end.

(** refuseInSession: `ape script`'s rule. *)
Definition refuseInSession (H : SessionHost) : option Err :=
  if at_Depth (currentSession H) =? 0 then None else Some (UsageError CodeSessionDepth).

(** serviceGate: the daemon's check of a caller at depth one; [busy] is the answer to taking
    the loop run's child slot. *)
Definition serviceGate (H : SessionHost) (busy : gostring -> option Err) : SessionGate := fun kind req =>
  match rr_Caller req with
  | None => inl OtherError
  | Some c =>
      let s := MkSessionAt 1 (ca_RunID c) (se_Running H (ca_RunID c)) "task" in
      if negb (Orchestrator s) then inl (UsageError CodeSessionDepth)
      else
        let skill := if bool_decide (kind = KindTask) then rr_Skill req else [] in
        match SessionStart s skill (ChildSkillAllowList (se_Delegate H) (se_Tools H)) with
        | inl e => inl e
        | inr _ =>
            match se_Relay H with
            | Some e => inl e
            | None =>
                match busy (ca_RunID c) with
                | Some e => inl e
                | None => inr ["APE_SESSION=task/" ++ ca_RunID c; bs "APE_DEPTH=1"; bs "APE_PARENT_RUN="; bs "APE_PARENT_PID="; bs "APE_DETACHED_ID="]
                end
            end
        end
  end.

(** ** The rule holds *)

Lemma allow_skill_spec l s : forall x, x ∈ allow_skill l s -> x ∈ l \/ x = s /\ s <> ReleaseSkill.
Proof.
  intros x. unfold allow_skill, NeverChildSkill. destruct (slices_Contains l s); cbn [negb andb]; [by left|]. case_bool_decide; cbn [negb]; [by left|].
  rewrite elem_of_app, list_elem_of_singleton. naive_solver.
Qed.

Lemma allow_fold tools : forall l x, x ∈ foldl allow_skill l tools -> x ∈ l \/ x ∈ tools /\ x <> ReleaseSkill.
Proof.
  induction tools as [|s tools IH]; intros l x Hx; cbn in Hx; [by left|]. apply IH in Hx as [Hx|[Hx Hn]]; [|right; split; [by right|done]].
  apply allow_skill_spec in Hx as [Hx|[-> Hn]]; [by left|right; split; [left|done]].
Qed.

(** The allow-list holds the loop's own skills and those the configuration names, and never
    the one that prepares a release. *)
Lemma ChildSkillAllowList_spec delegate tools x : x ∈ ChildSkillAllowList delegate tools ->
  x <> ReleaseSkill /\ (x ∈ CoreChildSkills \/ x = delegate \/ x ∈ tools).
Proof.
  assert (ReleaseSkill ∉ CoreChildSkills) as Hr by (apply (bool_decide_unpack _); vm_compute; exact I).
  unfold ChildSkillAllowList. intros [Hx|[Hx Hn]]%allow_fold; [|naive_solver]. destruct (delegate <>s ""); [|split; [congruence|by left]].
  apply allow_skill_spec in Hx as [Hx|[-> Hn]]; [split; [congruence|by left]|naive_solver].
Qed.

Lemma sessionFromEnv_depth H : 0 <= at_Depth (sessionFromEnv H) /\ (at_Depth (sessionFromEnv H) = 0 -> sessionFromEnv H = no_session).
Proof.
  unfold sessionFromEnv. set (n := match Atoi _ with Some _ => _ | None => _ end). assert (0 <= n) as Hn by (unfold n; destruct (Atoi _); [destruct (Z.ltb_spec z 0); lia|lia]).
  destruct ((se_Marker H =s "") && (n =? 0)); [by split|]. destruct (SessionOfMarker _) as [kind run]. cbn. destruct (Z.eqb_spec n 0); [by split|]. split; [lia|done].
Qed.

Lemma rowDepth_pos r : 1 <= rowDepth r.
Proof. unfold rowDepth. destruct (Z.leb_spec (ro_Depth r) 0); lia. Qed.

Lemma SessionStart_spec s skill allow depth : 0 <= at_Depth s -> SessionStart s skill allow = inr depth ->
  at_Depth s = 0 /\ depth = 1 \/ at_Depth s = 1 /\ depth = 2 /\ Orchestrator s = true /\ skill ∈ allow /\ skill <> [].
Proof.
  intros Hp. unfold SessionStart. destruct (Z.eqb_spec (at_Depth s) 0); [left; split; [done|]; congruence|]. destruct (Z.leb_spec MaxDepth (at_Depth s)) as [|Hm]; [done|].
  unfold MaxDepth in Hm. destruct (Orchestrator s); [|done]. destruct ((skill =s "") || _) eqn:E; [done|]. intros [= <-]. right. apply orb_false_iff in E as [E0 E].
  apply negb_false_iff, bool_decide_eq_true in E. apply bool_decide_eq_false in E0. split_and!; [lia|lia|done|done|exact E0].
Qed.

(** C21: A session ape launched starts another only as the nesting rule says, whatever the
    environment claims. A session is started at depth one only by a command with no recorded
    session among its ancestors and no session's marker. Otherwise it is at depth two, and its
    skill is on the loop's allow-list, the core skills and those the configuration names, and
    never apex-release; and where an ancestor is a recorded session, the nearest one is a
    loop run of depth one, which is recorded as its parent: a command in any other recorded
    session starts nothing, with its marker rewritten or removed. *)
Theorem session_nesting (H : SessionHost) (skill parent : gostring) (depth : Z) :
  gateSession H skill = inr (depth, parent) ->
  depth = 1 /\ parent = [] /\ ancestorSession H = None /\ sessionFromEnv H = no_session \/
  depth = 2 /\ skill <> ReleaseSkill /\ (skill ∈ CoreChildSkills \/ skill = se_Delegate H \/ skill ∈ se_Tools H) /\
  parent = at_Run (currentSession H) /\ Orchestrator (currentSession H) = true /\
  forall row, ancestorSession H = Some row -> rowDepth row = 1 /\ IsLoopRun (ro_Skill row) = true /\ parent = ro_RunID row.
Proof.
  unfold gateSession. destruct (refuseRenamed H skill); [done|]. destruct (SessionStart _ _ _) as [e|n] eqn:ES; [done|].
  destruct (if Orchestrator (currentSession H) && (se_Detached H =s "") then se_Relay H else None); [done|]. intros [= <- <-]. pose proof (sessionFromEnv_depth H) as [Hd H0].
  assert (0 <= at_Depth (currentSession H)) as Hc.
  { unfold currentSession. destruct (ancestorSession H); [cbn; lia|]. destruct (_ =? 0); [done|]. destruct (List.find _ _); cbn; lia. }
  apply SessionStart_spec in ES as [(E0 & ->)|(E1 & -> & Ho & Hin & _)]; [| |done].
  - left. split_and!; [done|done| |]; unfold currentSession in E0.
    + destruct (ancestorSession H) as [row|]; [|done]. cbn in E0. pose proof (rowDepth_pos row). lia.
    + apply H0. destruct (ancestorSession H) as [row|]; [cbn in E0; pose proof (rowDepth_pos row); lia|]. destruct (Z.eqb_spec (at_Depth (sessionFromEnv H)) 0); [done|].
      destruct (List.find _ _) as [row|]; cbn in E0; [pose proof (rowDepth_pos row)|]; lia.
  - right. rewrite Ho in Hin. apply ChildSkillAllowList_spec in Hin as [Hr Hor]. split_and!; try done. intros row Hrow.
    unfold currentSession in E1, Ho |- *. rewrite Hrow in E1, Ho |- *. cbn in E1 |- *. unfold Orchestrator in Ho. cbn in Ho. apply andb_true_iff in Ho as [Ho _]. apply andb_true_iff in Ho as [_ Ho].
    split_and!; [|done|done]. pose proof (rowDepth_pos row). lia.
Qed.

Lemma serviceGate_spec H busy kind req env c : rr_Caller req = Some c -> serviceGate H busy kind req = inr env ->
  kind = KindTask /\ rr_Skill req ∈ ChildSkillAllowList (se_Delegate H) (se_Tools H) /\ IsLoopRun (se_Running H (ca_RunID c)) = true /\ busy (ca_RunID c) = None /\
  head env = Some ("APE_SESSION=task/" ++ ca_RunID c).
Proof.
  intros Hc. unfold serviceGate. rewrite Hc. destruct (Orchestrator _) eqn:Eo; [|done]. cbn [negb]. destruct (SessionStart _ _ _) as [e|n] eqn:ES; [done|].
  destruct (se_Relay H); [done|]. destruct (busy _); [done|]. intros [= <-]. apply SessionStart_spec in ES as [[? _]|(_ & _ & _ & Hin & Hne)]; [done| |done].
  unfold Orchestrator in Eo. cbn in Eo. rewrite andb_true_r in Eo. destruct (bool_decide (kind = KindTask)) eqn:Ek.
  - apply bool_decide_eq_true in Ek. by split_and!.
  - done.
Qed.

(** The daemon runs no job for a caller in a session but a loop run's child. With ape's own
    gate, a child started for a caller at depth one is a task of a skill on the allow-list of
    the caller's project, the caller's run is a loop run still running there with its child
    slot free, and the child runs under that run's marker; and no child is started for a
    caller that is deeper. *)
Theorem service_nesting (ToLower : gostring -> gostring) (cfg : Config) (H : SessionHost) (busy : gostring -> option Err)
    (prefix userTok natsURL natsCreds eventsPrefix : gostring) (environ : list gostring) (d : Daemon) (j : Job) (pid : Z) (c : Command) :
  daemon_reach ToLower cfg (Some (serviceGate H busy)) prefix userTok natsURL natsCreds eventsPrefix environ d -> OSpawned j pid c ∈ da_out d ->
  exists s, rr_Caller (jb_Req j) = Some s /\
    (ca_Depth s = 0 \/
     ca_Depth s = 1 /\ jb_Kind j = KindTask /\ rr_Skill (jb_Req j) ∈ ChildSkillAllowList (se_Delegate H) (se_Tools H) /\ rr_Skill (jb_Req j) <> ReleaseSkill /\
     IsLoopRun (se_Running H (ca_RunID s)) = true /\ busy (ca_RunID s) = None /\ ("APE_SESSION=task/" ++ ca_RunID s) ∈ cm_Env c).
Proof.
  intros HR Hin. destruct (spawned_ok _ _ _ _ _ _ _ _ _ _ _ _ _ HR Hin) as [[_ (s & Hs & Hc)] [h HC]]. exists s. split; [done|].
  destruct Hc as [[? _]|(? & _ & _ & g & [= <-] & Hg)]; [by left|right]. destruct (serviceGate_spec H busy _ _ _ s Hs Hg) as (Hk & Hsk & Hl & Hb & Hh).
  split_and!; try done; [by apply ChildSkillAllowList_spec in Hsk as [? _]|]. unfold command in HC. destruct (BuildArgs _ _ _ _); [|done]. injection HC as <-. cbn.
  apply elem_of_app. right. destruct (jb_Env j) as [|x env]; [done|]. injection Hh as ->. left.
Qed.
