(* ===== verification/ServiceSamples.v ===== *)
(** Histories of the job daemon: the theorems at work on them, and behaviours its comments
    deny. *)
From S2P Require Import Prelude Regex Markdown Spec Shell Paths Authz Command Service ServiceFacts Nesting.
Local Open Scope Z_scope.

Definition sample_files : ServiceHost := MkServiceHost (fun p => if p =s "/srv/app/job.go" then SFile else SDir) (fun _ => true).
Definition sample_config : Config := MkConfig "/srv/app" [bs "/srv/lib/"] true true.
Definition sample_loaded : Config := MkConfig "/srv/app" [bs "/srv/app"; bs "/srv/lib"] true true.
Definition at_depth (n : Z) : CallerStamp := MkCallerStamp n "r1" [] 7.
Definition task_of (root skill k : gostring) (shared : bool) (stamp : option CallerStamp) : RunRequest :=
  MkRunRequest root skill [] [] None [] false [] [] [] [] [] [] false false false shared k [] stamp.
Definition script_of (path : gostring) : RunRequest :=
  MkRunRequest "/srv/app" [] [] [] None [] false path [] [bs "--all"] [] [] [] false false false false "script" [] (Some (at_depth 0)).
(** A loop run r1, whose claude is process 30; the command is process 40, in its shell. *)
Definition loop_row : SessionRow := MkSessionRow 20 "r1" "apex-loop" "task" 1 (fun pid => (pid =? 30)).
Definition sample_sessions : SessionHost :=
  MkSessionHost [] [] [] [loop_row] 40 (fun pid => if pid =? 40 then Some 35 else if pid =? 35 then Some 30 else None) (fun run => if run =s "r1" then "apex-loop" else []) [] [bs "plan"] None false.
Definition sample_gate : SessionGate := serviceGate sample_sessions (fun _ => None).

Abbreviation sample_run := (daemon_run (fun s => s) sample_loaded (Some sample_gate) "ape.evt" "ci" [] [] [] []).
Abbreviation sample_reach := (daemon_reach (fun s => s) sample_loaded (Some sample_gate) "ape.evt" "ci" [] [] [] []).
Definition ask (rr : RunRequest) (kind : Kind) (id : gostring) : Act := ARun sample_files kind rr (Some id).
(** A thread goes on, a start being answered with the pid [pid]. *)
Definition go (t : nat) (pid : Z) : Act := AThread t sample_files (Some (pid, bs "log")) 9.

Lemma run_reach acts : forall d d', sample_reach d -> sample_run d acts = Some d' -> sample_reach d'.
Proof.
  induction acts as [|a acts IH]; intros d d' HR HS; cbn [daemon_run] in HS; [by injection HS as <-|].
  destruct (daemon_step _ _ _ _ _ _ _ _ _ d a) as [d1|] eqn:E; [|done]. eapply IH; [|done]. by eapply reach_step.
Qed.

(** Two shared tasks of a key, a script alone on its own, and an exclusive task refused. *)
Definition busy : list Act :=
  [ask (task_of "/srv/app" "plan" "k" true (Some (at_depth 0))) KindTask "j1"; ask (task_of "/srv/lib" "plan" "k" true (Some (at_depth 1))) KindTask "j2";
   ask (script_of "job.go") KindScript "j3"; ask (task_of "/srv/app" "plan" "k" false (Some (at_depth 0))) KindTask "j4"] ++
  [go 0 11; go 3 11; go 3 11; go 3 11; go 0 12; go 3 12; go 3 12; go 3 12] ++ [go 0 13; go 3 13; go 3 13; go 3 13; go 0 0].
(** Then two of them end. *)
Definition ending : list Act := [AStop "j2"; AExit 1 5; AExit 0 0; go 3 0; go 3 0; go 3 0; go 3 0; go 3 0; go 3 0; go 3 0; go 3 0].

Definition run_of (acts : list Act) : Daemon := default NewDaemon (sample_run NewDaemon acts).
Definition states (d : Daemon) : list (gostring * JobState) := (fun i => (ji_JobID i, ji_State i)) <$> List_ (da_reg d).

Definition runs (acts : list Act) : bool := match sample_run NewDaemon acts with Some _ => true | None => false end.

Lemma run_of_run acts : runs acts = true -> sample_run NewDaemon acts = Some (run_of acts).
Proof. unfold runs, run_of. by destruct (sample_run NewDaemon acts). Qed.

Lemma run_of_reach acts : runs acts = true -> sample_reach (run_of acts).
Proof. intros H. eapply run_reach; [apply reach_new|by apply run_of_run]. Qed.

Lemma jobs_exclusive_witness : let d := run_of busy in
  length (da_children d) = 3%nat /\ (forall i j a b, i <> j -> (snd <$> held d) !! i = Some a -> (snd <$> held d) !! j = Some b -> key a = key b -> exclusive a = false /\ exclusive b = false) /\
  HeldKeys (da_adm d) = [bs "k"; bs "script"].
Proof.
  split; [vm_compute; reflexivity|]. split; [|vm_compute; reflexivity].
  apply (jobs_exclusive (fun s => s) sample_loaded (Some sample_gate) "ape.evt" "ci" [] [] [] [] (run_of busy)). apply run_of_reach. vm_compute. reflexivity.
Defined.

(** The script's command, and the tail of its directory in the allowlist. *)
Definition script_job : Job := MkJob KindScript (script_of "job.go") "j3" [].
Definition script_command : Command :=
  MkCommand [bs "script"; bs "/srv/app/job.go"; bs "--quiet"; bs "--cwd"; bs "/srv/app"; bs "--sandbox"; bs "--"; bs "--all"] "/srv/app" [bs "APE_JOB_ID=j3"] None.

Lemma script_spawned : OSpawned script_job 13 script_command ∈ da_out (run_of busy).
Proof. apply list_elem_of_lookup. exists 5%nat. vm_compute. reflexivity. Qed.

Lemma jobs_permitted_witness : cleanPath (cm_Dir script_command) ∈ cfg_Allow sample_loaded /\ bs "--sandbox" ∈ cm_Args script_command.
Proof.
  destruct (jobs_permitted (fun s => s) sample_files (Some sample_config) sample_loaded (Some sample_gate) "ape.evt" "ci" [] [] [] [] (run_of busy) script_job 13 script_command)
    as (Hd & _ & _ & _ & _ & Hs); [vm_compute; reflexivity|apply run_of_reach; vm_compute; reflexivity|apply script_spawned|].
  split; [exact Hd|]. by apply Hs.
Defined.

Lemma ending_runs : sample_run (run_of busy) ending = Some (run_of (busy ++ ending)).
Proof.
  unfold run_of at 2. replace (sample_run NewDaemon (busy ++ ending)) with (sample_run (run_of busy) ending).
  - assert (match sample_run (run_of busy) ending with Some _ => true | None => false end = true) as H by (vm_compute; reflexivity). by destruct (sample_run (run_of busy) ending).
  - assert (forall acts acts' d d1, sample_run d acts = Some d1 -> sample_run d (acts ++ acts') = sample_run d1 acts') as Happ.
    { clear. induction acts as [|a acts IH]; intros acts' d d1 H; cbn [daemon_run app] in *; [by injection H as <-|]. destruct (daemon_step _ _ _ _ _ _ _ _ _ d a); [by apply IH|done]. }
    symmetry. apply Happ, run_of_run. vm_compute. reflexivity.
Qed.

Lemma jobs_told_witness : let d := run_of busy in
  states (run_of (busy ++ ending)) = [(bs "j1", StateDone); (bs "j2", StateStopped); (bs "j3", StateRunning)] /\ RunningCount (da_reg d) = length (unfinished d).
Proof.
  split; [vm_compute; reflexivity|].
  apply (jobs_told (fun s => s) sample_loaded (Some sample_gate) "ape.evt" "ci" [] [] [] [] busy ending (run_of busy) (run_of (busy ++ ending))).
  - apply run_of_run. vm_compute. reflexivity.
  - apply ending_runs.
  - apply (bool_decide_unpack _). vm_compute. exact I.
Defined.

(** The second task is the loop's child. *)
Definition child_job : Job := MkJob KindTask (task_of "/srv/lib" "plan" "k" true (Some (at_depth 1))) "j2" [bs "APE_SESSION=task/r1"; bs "APE_DEPTH=1"; bs "APE_PARENT_RUN="; bs "APE_PARENT_PID="; bs "APE_DETACHED_ID="].
Definition child_command : Command := MkCommand [bs "task"; bs "plan"; bs "--quiet"; bs "--cwd"; bs "/srv/lib"] "/srv/lib" (bs "APE_JOB_ID=j2" :: jb_Env child_job) None.

Lemma service_nesting_witness : OSpawned child_job 12 child_command ∈ da_out (run_of busy) /\ exists s, rr_Caller (jb_Req child_job) = Some s /\ ca_Depth s = 1 /\ IsLoopRun (se_Running sample_sessions (ca_RunID s)) = true.
Proof.
  assert (OSpawned child_job 12 child_command ∈ da_out (run_of busy)) as Hin by (apply list_elem_of_lookup; exists 3%nat; vm_compute; reflexivity). split; [done|].
  destruct (service_nesting (fun s => s) sample_loaded sample_sessions (fun _ => None) "ape.evt" "ci" [] [] [] [] (run_of busy) child_job 12 child_command) as (s & Hs & Hd);
    [apply run_of_reach; vm_compute; reflexivity|exact Hin|].
  exists s. split; [done|]. injection Hs as <-. destruct Hd as [?|(? & _ & _ & _ & ? & _)]; [done|by split].
Defined.

Lemma session_nesting_witness : gateSession sample_sessions "apex-plan" = inr (2, bs "r1") /\ rowDepth loop_row = 1.
Proof.
  assert (gateSession sample_sessions "apex-plan" = inr (2, bs "r1")) as HG by (vm_compute; reflexivity). split; [exact HG|].
  destruct (session_nesting sample_sessions "apex-plan" "r1" 2 HG) as [(? & _)|(_ & _ & _ & _ & _ & Hrow)]; [done|]. apply (Hrow loop_row). vm_compute. reflexivity.
Defined.

(** ** Behaviours the comments deny *)

(** A stop asked for while the job is being started ends nothing: its pid is not recorded yet.
    It is answered as stopped all the same, the child runs to its end, and its success is
    recorded as a stop. *)
Theorem stop_before_pid :
  let starting := [ask (task_of "/srv/app" "plan" "k" true (Some (at_depth 0))) KindTask "j1"; go 0 0; go 0 0; go 0 0; AStop "j1"] in
  let d := run_of (starting ++ [go 0 11; go 0 11; AExit 0 0; go 0 0; go 0 0; go 0 0; go 0 0]) in
  last (da_out (run_of starting)) = Some (OStopped true) /\ states d = [(bs "j1", StateStopped)] /\
  forallb (fun o => match o with OTerminate _ => false | _ => true end) (da_out d) = true.
Proof. vm_compute. split_and!; reflexivity. Qed.

(** A drain can end while an accepted job has still to be started, and its child is started
    after the drain was reported. *)
Theorem drained_then_spawns :
  let d := run_of [ask (task_of "/srv/app" "plan" "k" true (Some (at_depth 0))) KindTask "j1"; go 0 0; go 0 0; AStopAccepting; AWaitJobs; go 0 0; go 0 11] in
  (fun o => match o with OEvent _ _ => 0 | ODrained => 1 | OSpawned _ _ _ => 2 | _ => 3 end) <$> da_out d = [0; 1; 2].
Proof. vm_compute. reflexivity. Qed.

(** The allowlist is asked about the trimmed, cleaned root, and the child is started in the
    root as it was written: here a relative path. *)
Theorem root_not_as_checked :
  let d := run_of [ask (task_of " /srv/app" "plan" "k" true (Some (at_depth 0))) KindTask "j1"; go 0 0; go 0 0; go 0 0; go 0 11] in
  exists j c, last (da_out d) = Some (OSpawned j 11 c) /\ cm_Dir c = bs " /srv/app" /\ filepath_IsAbs (cm_Dir c) = false.
Proof. eexists _, _. vm_compute. split_and!; reflexivity. Qed.

(** A skill is an argument of its own, before every flag and with no -- ahead of it: one
    spelled as a flag is one. *)
Theorem skill_is_flag :
  BuildArgs sample_files KindTask (task_of "/srv/app" "--cwd=/etc" "k" true (Some (at_depth 0))) sample_loaded =
  Some [bs "task"; bs "--cwd=/etc"; bs "--quiet"; bs "--cwd"; bs "/srv/app"].
Proof. vm_compute. reflexivity. Qed.
