(* ===== verification/Locks.v ===== *)
(** The locks on disk: a session's (acquireSessionLock and releaseSessionLock of
    apecmd/nesting.go) and a run's (TakeRunLock and ReleaseRunLock of apexv1/runlock.go), step
    by step on one lock file, for any interleaving of the processes that contend for it. A
    step is one operation on the file system; any of them may fail. *)
From S2P Require Import Prelude Shell.
Local Open Scope Z_scope.

(** ** The file and the processes *)

(** A lock file: none, one that does not parse, or a record of its holder. *)
Inductive LockFile := NoFile | Damaged | Locked (pid : Z) (start : option Z) (token : gostring).

(** A process and the token its lock is known by. *)
Record Who := MkWho { wh_PID : Z; wh_Start : option Z; wh_Token : gostring }.
Definition lock_of (me : Who) : LockFile := Locked (wh_PID me) (wh_Start me) (wh_Token me).

(** SameProcess (internal/proctree/same.go), on the processes that run and when each started;
    held. *)
Definition startSlack : Z := 2.
Definition SameProcess (alive : gmap Z (option Z)) (pid : Z) (start : option Z) : bool :=
  match alive !! pid with
  | None => false
  | Some None => true
  | Some (Some now) => match start with Some s => (now - s <=? startSlack) && (- startSlack <=? now - s) | None => true end
  end.

(** ownerAlive (apexv1/runlock.go) *)
Definition ownerAlive (alive : gmap Z (option Z)) (pid : Z) (start : option Z) : bool :=
  match alive !! pid with
  | None => false
  | Some cur => match start, cur with Some s, Some c => c =? s | _, _ => true end
  end.

(** ** What a protocol promises *)

(** A protocol's steps, by the phases of one process: whether a phase is about to change the
    file without looking, whether it believes it holds the lock, how a record is taken for
    live, and a measure. *)
Class LockProtocol (Phase : Type) := {
  lp_step : Who -> gmap Z (option Z) -> bool -> Phase -> LockFile -> Phase * LockFile;
  lp_enter : Phase; lp_leave : Phase;
  lp_blind : Phase -> bool; lp_holds : Phase -> bool; lp_live : gmap Z (option Z) -> Z -> option Z -> bool; lp_rest : Phase -> nat }.

Class LockLaws (Phase : Type) `{LockProtocol Phase} := {
  (** A process that looks first leaves another's live lock, and does not come to hold it. *)
  lp_refused me alive ok ph pid start token : lp_live alive pid start = true -> token <> wh_Token me -> lp_blind ph = false -> lp_holds ph = false ->
    let '(ph', f') := lp_step me alive ok ph (Locked pid start token) in f' = Locked pid start token /\ lp_blind ph' = false /\ lp_holds ph' = false;
  lp_final ph : lp_holds ph = true -> lp_rest ph = O;
  lp_idle me alive ok ph f : lp_rest ph = O -> lp_step me alive ok ph f = (ph, f);
  lp_enters : lp_blind lp_enter = false /\ lp_holds lp_enter = false;
  lp_leaves : lp_blind lp_leave = false /\ lp_holds lp_leave = false;
  (** Every step of an attempt brings it closer to its end. *)
  lp_closer me alive ok ph f : lp_rest ph <> O -> (lp_rest (fst (lp_step me alive ok ph f)) < lp_rest ph)%nat;
  (** A lock one has just written is live while one runs. *)
  lp_known alive pid start : alive !! pid = Some start -> lp_live alive pid start = true }.

(** ** A session's lock *)

Inductive SPhase := SLink (n : nat) | SRead (n : nat) | SClear (n : nat) | SWrite | SHeld | SBusy | SFailed | SRelRead | SRelRemove | SFree.

(** acquireSessionLock, five rounds at most, and releaseSessionLock; [ok] is whether the
    operation does what it is asked. *)
Definition session_step (me : Who) (alive : gmap Z (option Z)) (ok : bool) (ph : SPhase) (f : LockFile) : SPhase * LockFile :=
  match ph with
  | SLink O => (SFailed, f)
  | SLink (S n) =>
      if negb ok then (SFailed, f)
      else match f with NoFile => (SHeld, lock_of me) | _ => (SRead n, f) end
  | SRead n =>
      match f with
      | NoFile | Damaged => (SClear n, f)
      | Locked pid start token =>
          if token =s wh_Token me then (SWrite, f)
          else if negb (SameProcess alive pid start) then (SClear n, f)
          else (SBusy, f)
      end
  | SClear n => (SLink n, if ok then NoFile else f)
  | SWrite => if ok then (SHeld, lock_of me) else (SFailed, f)
  | SRelRead =>
      match f with
      | Locked _ _ token => if token =s wh_Token me then (SRelRemove, f) else (SFree, f)
      | _ => (SFree, f)
      end
  | SRelRemove => (SFree, if ok then NoFile else f)
  | SHeld | SBusy | SFailed | SFree => (ph, f)
  end.

#[export] Instance session_lock : LockProtocol SPhase := {
  lp_step := session_step; lp_enter := SLink 5; lp_leave := SRelRead;
  lp_blind ph := match ph with SClear _ | SWrite | SRelRemove => true | _ => false end;
  lp_holds ph := match ph with SHeld => true | _ => false end;
  lp_live := SameProcess;
  lp_rest ph := match ph with SLink n => 3 * n + 1 | SRead n => 3 * n + 3 | SClear n => 3 * n + 2 | SWrite => 1 | SRelRead => 2 | SRelRemove => 1 | _ => 0 end%nat }.

#[export] Instance session_laws : LockLaws SPhase.
Proof.
  split.
  - intros me alive ok ph pid start token Hl Ht Hb Hh. cbn in *. destruct ph as [[|n]|n|n| | | | | | |]; try done; cbn.
    + by destruct ok.
    + rewrite (bool_decide_false _ Ht), Hl. done.
    + by rewrite (bool_decide_false _ Ht).
  - intros ph. by destruct ph.
  - intros me alive ok ph f. destruct ph as [n|n|n| | | | | | |]; cbn; try done; lia.
  - done.
  - done.
  - intros me alive ok ph f. destruct ph as [[|n]|n|n| | | | | | |], ok, f as [| |pid start token]; cbn; try done; intros _; try lia;
      destruct (bool_decide _); cbn; try lia; destruct (SameProcess alive pid start); cbn; lia.
  - intros alive pid start Ha. cbn. unfold SameProcess. rewrite Ha. destruct start as [s|]; [|done]. rewrite Z.sub_diag. done.
Qed.

(** ** A run's lock *)

Inductive RPhase := RLink (n : nat) | RLoad (n : nat) | RStat (n : nat) | RUnlink (n : nat) | RStale (n : nat) (token : gostring) | RResult (n : nat) (token : gostring)
  | RHeld | RAttached | RGone | RFailed | RRelLoad | RRelRemove | RFree.

(** TakeRunLock, three rounds at most, and ReleaseRunLock; [ok] is also the answer to whether
    the run of a stale lock recorded its result. *)
Definition run_lock_step (me : Who) (alive : gmap Z (option Z)) (ok : bool) (ph : RPhase) (f : LockFile) : RPhase * LockFile :=
  match ph with
  | RLink O => (RFailed, f)
  | RLink (S n) =>
      if negb ok then (RFailed, f)
      else match f with NoFile => (RHeld, lock_of me) | _ => (RLoad n, f) end
  | RLoad n =>
      match f with
      | NoFile | Damaged => (RStat n, f)
      | Locked pid start token => if ownerAlive alive pid start then (RAttached, f) else (RStale n token, f)
      end
  | RStat n => (match f with NoFile => RLink n | _ => RUnlink n end, f)
  | RUnlink n => (RLink n, if ok then NoFile else f)
  | RStale n token => (RResult n token, if ok then NoFile else f)
  | RResult n token => (if ok then RLink n else RGone, f)
  | RRelLoad =>
      match f with
      | Locked _ _ token => if token =s wh_Token me then (RRelRemove, f) else (RFree, f)
      | _ => (RFree, f)
      end
  | RRelRemove => (RFree, if ok then NoFile else f)
  | RHeld | RAttached | RGone | RFailed | RFree => (ph, f)
  end.

(** From [RStat] on the round is blind: what is at the path is removed, whatever it is. *)
#[export] Instance run_lock : LockProtocol RPhase := {
  lp_step := run_lock_step; lp_enter := RLink 3; lp_leave := RRelLoad;
  lp_blind ph := match ph with RStat _ | RUnlink _ | RStale _ _ | RRelRemove => true | _ => false end;
  lp_holds ph := match ph with RHeld => true | _ => false end;
  lp_live := ownerAlive;
  lp_rest ph := match ph with RLink n => 4 * n + 1 | RLoad n => 4 * n + 4 | RStat n | RStale n _ => 4 * n + 3 | RUnlink n | RResult n _ => 4 * n + 2
                | RRelLoad => 2 | RRelRemove => 1 | _ => 0 end%nat }.

#[export] Instance run_laws : LockLaws RPhase.
Proof.
  split.
  - intros me alive ok ph pid start token Hl Ht Hb Hh. cbn in *. destruct ph as [[|n]|n|n|n|n t|n t| | | | | | |]; try done; cbn.
    + by destruct ok.
    + by rewrite Hl.
    + by destruct ok.
    + by rewrite (bool_decide_false _ Ht).
  - intros ph. by destruct ph.
  - intros me alive ok ph f. destruct ph as [n|n|n|n|n t|n t| | | | | | |]; cbn; try done; lia.
  - done.
  - done.
  - intros me alive ok ph f. destruct ph as [[|n]|n|n|n|n t|n t| | | | | | |], ok, f as [| |pid start token]; cbn; try done; intros _; try lia;
      first [destruct (bool_decide _); cbn; lia|destruct (ownerAlive alive pid start); cbn; lia].
  - intros alive pid start Ha. cbn. unfold ownerAlive. rewrite Ha. destruct start as [s|]; [|done]. apply Z.eqb_refl.
Qed.

(** ** Contention *)

Section contention.
Context {Phase : Type} `{LockLaws Phase}.

Record LockWorld := MkLockWorld { lw_file : LockFile; lw_alive : gmap Z (option Z); lw_procs : list (Who * Phase) }.

(** A process takes its next step, one that runs begins an attempt, a holder begins to
    release, a process dies, one is born. *)
Inductive LockEvent := EvStep (i : nat) (ok : bool) | EvEnter (me : Who) | EvLeave (i : nat) | EvDie (pid : Z) | EvBorn (pid : Z) (start : option Z).

Definition lock_event (w : LockWorld) (ev : LockEvent) : option LockWorld :=
  match ev with
  | EvStep i ok =>
      match lw_procs w !! i with
      | None => None
      | Some (me, ph) => let '(ph', f') := lp_step me (lw_alive w) ok ph (lw_file w) in Some (MkLockWorld f' (lw_alive w) (<[i := (me, ph')]> (lw_procs w)))
      end
  | EvEnter me => if bool_decide (lw_alive w !! wh_PID me = Some (wh_Start me)) then Some (MkLockWorld (lw_file w) (lw_alive w) (lw_procs w ++ [(me, lp_enter)])) else None
  | EvLeave i =>
      match lw_procs w !! i with
      | Some (me, ph) => if lp_holds ph then Some (MkLockWorld (lw_file w) (lw_alive w) (<[i := (me, lp_leave)]> (lw_procs w))) else None
      | None => None
      end
  | EvDie pid => Some (MkLockWorld (lw_file w) (delete pid (lw_alive w)) (filter (fun p => wh_PID (fst p) <> pid) (lw_procs w)))
  | EvBorn pid start => if bool_decide (lw_alive w !! pid = None) then Some (MkLockWorld (lw_file w) (<[pid := start]> (lw_alive w)) (lw_procs w)) else None
  end.
Fixpoint lock_events (w : LockWorld) (evs : list LockEvent) : option LockWorld :=
  match evs with
  | [] => Some w
  | ev :: evs' => match lock_event w ev with Some w' => lock_events w' evs' | None => None end
  end.

(** [me] holds the lock, and every other process looks before it acts. *)
Definition alone (me : Who) (p : Who * Phase) : Prop :=
  fst p = me /\ lp_holds (snd p) = true \/ wh_Token (fst p) <> wh_Token me /\ lp_blind (snd p) = false /\ lp_holds (snd p) = false.
Definition held_by (me : Who) (w : LockWorld) : Prop :=
  lw_file w = lock_of me /\ lw_alive w !! wh_PID me = Some (wh_Start me) /\ (exists ph, (me, ph) ∈ lw_procs w) /\ Forall (alone me) (lw_procs w).

(** What [me] does not do: begin to release, die, or be joined by its own token. *)
Definition keeps (me : Who) (w : LockWorld) (ev : LockEvent) : bool :=
  match ev with
  | EvEnter who => wh_Token who <>s wh_Token me
  | EvLeave i => match lw_procs w !! i with Some (who, _) => wh_Token who <>s wh_Token me | None => true end
  | EvDie pid => negb (pid =? wh_PID me)
  | _ => true
  end.
Fixpoint all_keep (me : Who) (w : LockWorld) (evs : list LockEvent) : bool :=
  match evs with
  | [] => true
  | ev :: evs' => keeps me w ev && match lock_event w ev with Some w' => all_keep me w' evs' | None => true end
  end.

Lemma elem_insert_other (l : list (Who * Phase)) i x y z : l !! i = Some y -> z ∈ l -> z <> y -> z ∈ <[i := x]> l.
Proof.
  intros Hi (k & Hk)%list_elem_of_lookup Hne. apply list_elem_of_lookup. exists k. rewrite list_lookup_insert_ne; [done|]. intros ->. congruence.
Qed.

Lemma held_event me w ev w' : held_by me w -> keeps me w ev = true -> lock_event w ev = Some w' -> held_by me w'.
Proof.
  intros (Hf & Ha & (ph0 & Hin) & Hall) Hk HE. destruct ev as [i ok|who|i|pid|pid start]; cbn in HE, Hk.
  - destruct (lw_procs w !! i) as [[who ph]|] eqn:Ei; [|done]. pose proof (proj1 (Forall_lookup _ _) Hall i _ Ei) as [[Ew Hh]|(Ht & Hb & Hh)]; cbn in *.
    + subst who. rewrite lp_idle in HE by (by apply lp_final). injection HE as <-. rewrite list_insert_id by done. by split_and!; eauto.
    + pose proof (lp_refused who (lw_alive w) ok ph (wh_PID me) (wh_Start me) (wh_Token me) (lp_known _ _ _ Ha) (not_eq_sym Ht) Hb Hh) as HR.
      rewrite Hf in HE. fold (lock_of me) in HR. destruct (lp_step who (lw_alive w) ok ph (lock_of me)) as [ph' f']. destruct HR as (-> & Hb' & Hh'). injection HE as <-.
      split_and!; [done|done|exists ph0; eapply elem_insert_other; [done|done|]; intros [= -> _]; done|]. apply Forall_insert; [done|]. by right.
  - case_bool_decide; [|done]. injection HE as <-. apply negb_true_iff, bool_decide_eq_false in Hk.
    split_and!; [done|done|exists ph0; apply elem_of_app; by left|]. apply Forall_app. split; [done|]. constructor; [|constructor]. right. destruct lp_enters. by split_and!.
  - destruct (lw_procs w !! i) as [[who ph]|] eqn:Ei; [|done]. destruct (lp_holds ph); [|done]. injection HE as <-. apply negb_true_iff, bool_decide_eq_false in Hk.
    split_and!; [done|done|exists ph0; eapply elem_insert_other; [done|done|]; intros [= -> _]; done|]. apply Forall_insert; [done|]. right. destruct lp_leaves. by split_and!.
  - injection HE as <-. apply negb_true_iff, Z.eqb_neq in Hk. split_and!; [done|cbn; by rewrite lookup_delete_ne by done|exists ph0; apply list_elem_of_filter; split; [cbn; congruence|done]|].
    apply Forall_forall. intros p [_ Hp]%list_elem_of_filter. by apply (proj1 (Forall_forall _ _) Hall).
  - case_bool_decide; [|done]. injection HE as <-. split_and!; [done|cbn; rewrite lookup_insert_ne by congruence; done|by exists ph0|done].
Qed.

Lemma held_events me evs : forall w w', held_by me w -> all_keep me w evs = true -> lock_events w evs = Some w' -> held_by me w'.
Proof.
  induction evs as [|ev evs IH]; intros w w' Hh Hk HE; cbn in *; [by injection HE as <-|]. apply andb_true_iff in Hk as [Hk1 Hk2].
  destruct (lock_event w ev) as [w1|] eqn:E1; [|done]. eapply IH; [by eapply held_event|done|done].
Qed.

(** A process's own steps of an attempt, the file being what others made of it in between. *)
Fixpoint own_steps (me : Who) (ph : Phase) (seen : list (gmap Z (option Z) * bool * LockFile)) : Phase :=
  match seen with
  | [] => ph
  | (alive, ok, f) :: seen' => own_steps me (fst (lp_step me alive ok ph f)) seen'
  end.

Lemma own_steps_end me seen : forall ph, (lp_rest ph <= length seen)%nat -> lp_rest (own_steps me ph seen) = 0%nat.
Proof.
  induction seen as [|[[alive ok] f] seen IH]; intros ph Hle; cbn in *; [lia|]. apply IH. destruct (decide (lp_rest ph = 0%nat)) as [E|E].
  - rewrite lp_idle by done. cbn. lia.
  - pose proof (lp_closer me alive ok ph f E). lia.
Qed.
End contention.
Arguments LockWorld : clear implicits.

(** A lock that a process holds is its own for as long as it keeps it. Let a process hold a
    lock while the others look before they act: none of them is between finding the file
    absent, unreadable or stale and removing it. Then however they go on, fail, die, are born
    and begin new attempts, the lock stays that process's until it begins to release it or
    dies, and nobody else comes to hold it. This is so of a session's lock and of a run's. *)
Theorem lock_kept :
  (forall me evs w w', held_by (Phase := SPhase) me w -> all_keep me w evs = true -> lock_events w evs = Some w' ->
     lw_file w' = lock_of me /\ forall who ph, (who, ph) ∈ lw_procs w' -> lp_holds ph = true -> who = me) /\
  (forall me evs w w', held_by (Phase := RPhase) me w -> all_keep me w evs = true -> lock_events w evs = Some w' ->
     lw_file w' = lock_of me /\ forall who ph, (who, ph) ∈ lw_procs w' -> lp_holds ph = true -> who = me).
Proof.
  assert (forall Phase (P : LockProtocol Phase) (L : LockLaws Phase) me evs w w', held_by (Phase := Phase) me w -> all_keep me w evs = true -> lock_events w evs = Some w' ->
    lw_file w' = lock_of me /\ forall who ph, (who, ph) ∈ lw_procs w' -> lp_holds ph = true -> who = me) as G; [|split; [apply (G SPhase _ session_laws)|apply (G RPhase _ run_laws)]].
  intros Phase P L me evs w w' Hh Hk HE. destruct (held_events me evs w w' Hh Hk HE) as (Hf & _ & _ & Hall). split; [done|]. intros who ph Hin Hw.
  apply (proj1 (Forall_forall _ _) Hall) in Hin as [[? _]|(_ & _ & Hn)]; [done|]. cbn in Hn. congruence.
Qed.

(** An attempt with nobody else at work: its phase and the file after [n] steps. *)
Fixpoint lone {Phase : Type} `{LockProtocol Phase} (me : Who) (alive : gmap Z (option Z)) (n : nat) (ph : Phase) (f : LockFile) : Phase * LockFile :=
  match n with O => (ph, f) | S n => let '(ph', f') := lp_step me alive true ph f in lone me alive n ph' f' end.

(** An attempt stays one: it is on its way, or it holds the lock, was refused it, or failed. *)
Lemma own_steps_stay {Phase : Type} `{LockProtocol Phase} (I : Phase -> Prop) me seen : forall ph,
  (forall alive ok f ph, I ph -> I (fst (lp_step me alive ok ph f))) -> I ph -> I (own_steps me ph seen).
Proof. induction seen as [|[[alive ok] f] seen IH]; intros ph Hs Hi; cbn [own_steps]; [done|]. apply IH; [done|]. by apply Hs. Qed.

Definition session_attempt (ph : SPhase) : bool := match ph with SRelRead | SRelRemove | SFree => false | _ => true end.
Definition run_attempt (ph : RPhase) : bool := match ph with RRelLoad | RRelRemove | RFree => false | _ => true end.

Lemma session_attempt_step me alive ok f ph : session_attempt ph = true -> session_attempt (fst (session_step me alive ok ph f)) = true.
Proof.
  destruct ph as [[|n]|n|n| | | | | | |], ok, f as [| |pid start token]; cbn; try done; intros _;
    destruct (bool_decide _); try done; by destruct (SameProcess alive pid start).
Qed.

Lemma run_attempt_step me alive ok f ph : run_attempt ph = true -> run_attempt (fst (run_lock_step me alive ok ph f)) = true.
Proof.
  destruct ph as [[|n]|n|n|n|n t|n t| | | | | | |], ok, f as [| |pid start token]; cbn; try done; intros _;
    first [by destruct (bool_decide _)|by destruct (ownerAlive alive pid start)|done].
Qed.


(** ** Examples *)

Definition proc (n : Z) (token : gostring) : Who := MkWho n (Some (100 * n)) token.
Definition two_alive : gmap Z (option Z) := {[ 1 := Some 100; 2 := Some 200 ]}.
Definition phases {Phase : Type} (w : option (LockWorld Phase)) : option (LockFile * list Phase) := (fun w => (lw_file w, snd <$> lw_procs w)) <$> w.

(** B holds; A's attempt is refused, and so is another. *)
Definition sample_world : LockWorld SPhase := MkLockWorld (lock_of (proc 2 "b")) two_alive [(proc 2 "b", SHeld)].

Lemma lock_kept_witness : exists w', lock_events sample_world [EvEnter (proc 1 "a"); EvStep 1 true; EvStep 1 true; EvDie 1; EvBorn 1 None] = Some w' /\ lw_file w' = lock_of (proc 2 "b").
Proof.
  eexists. split; [reflexivity|]. destruct lock_kept as [G _].
  eapply (G (proc 2 "b") [EvEnter (proc 1 "a"); EvStep 1 true; EvStep 1 true; EvDie 1; EvBorn 1 None] sample_world); [|vm_compute; reflexivity|reflexivity].
  split_and!; [done|done|by exists SHeld; left|]. constructor; [left; by split|constructor].
Defined.

(** ** Behaviours the comments deny *)

(** Between a failed link and the read, the holder releases: the file that is then missing is
    taken for a damaged one and removed a moment later, when another holds it. Two live
    sessions hold the one lock, with nothing stale and nothing failing. *)
Theorem two_session_holders :
  phases (lock_events sample_world
    [EvEnter (proc 1 "a"); EvStep 1 true; EvLeave 0; EvStep 0 true; EvStep 0 true; EvStep 1 true; EvEnter (proc 2 "b2"); EvStep 2 true; EvStep 1 true; EvStep 1 true]) =
  Some (lock_of (proc 1 "a"), [SFree; SHeld; SHeld]).
Proof. vm_compute. reflexivity. Qed.

(** A lock left by a process that died is found stale by two at once: the second removes the
    one the first has just taken. *)
Theorem two_after_stale :
  phases (lock_events (MkLockWorld (lock_of (proc 3 "dead")) two_alive [])
    [EvEnter (proc 1 "a"); EvEnter (proc 2 "b"); EvStep 0 true; EvStep 1 true; EvStep 0 true; EvStep 1 true; EvStep 0 true; EvStep 0 true; EvStep 1 true; EvStep 1 true]) =
  Some (lock_of (proc 2 "b"), [SHeld; SHeld]).
Proof. vm_compute. reflexivity. Qed.

(** The same of two runs on one scope: the load finds no lock, and what the stat then finds is
    another's, just taken. *)
Theorem two_run_holders :
  phases (lock_events (MkLockWorld (lock_of (proc 2 "b")) two_alive [(proc 2 "b", RHeld)])
    [EvEnter (proc 1 "a"); EvStep 1 true; EvLeave 0; EvStep 0 true; EvStep 0 true; EvStep 1 true; EvEnter (proc 2 "b2"); EvStep 2 true; EvStep 1 true; EvStep 1 true; EvStep 1 true]) =
  Some (lock_of (proc 1 "a"), [RFree; RHeld; RHeld]).
Proof. vm_compute. reflexivity. Qed.
