(* ===== verification/Decisions.v ===== *)
(** The decision records: internal/apexv1/decision.go (an ADR proposed, superseded, accepted),
    ValidateDecision and checkDecisionLife of project.go, the records of approval.go, and
    standard.go, APEX's own ADR-0001, with stalespec.go, the scenarios that name what it
    removed. Commands run in a world (the files of decisions/ and
    decisions.json) and in a host that may refuse any read, write or commit. *)
From S2P Require Import Prelude Regex Markdown Spec Change Merge Effective Command.

(** ** The texts of a decision (decision.go, project.go) *)

Definition ADRProposed : gostring := "proposed".
Definition ADRAccepted : gostring := "accepted".

Definition c_blank : Z -> bool := cor (one " ") (one x09).
Definition digits4 : re := exactly (Cls c_digit) 4 Eps.
Definition spaces0 : re := Star (Cls c_space).

(** The flag m is that of [BolM] and [EolM]; group 1 is what follows the blanks. *)
Definition adrStatusLineRe : re := cats [BolM; lit "Status:"; Star (Cls c_blank); Grp 1 (Star (Cls c_dot)); EolM].
Definition adrFileRe : re := cats [Bol; Grp 1 digits4; lit "-"; Grp 2 (Cat (Cls c_slug) (Star (Cls c_id))); lit ".md"; Eol].
Definition adrTitleRe : re := cats [Bol; lit "ADR-"; Grp 1 digits4; lit ":"; spaces0; Cls (cnot c_space)].
Definition adrStatusRe : re :=
  cats [Bol; lit "Status:"; spaces0; Grp 1 (Alt (lit "proposed") (Alt (lit "accepted") (Cat (lit "superseded by ADR-") digits4))); spaces0; Eol].
Definition adrDateRe : re :=
  cats [Bol; lit "Date:"; spaces0; digits4; lit "-"; exactly (Cls c_digit) 2 Eps; lit "-"; exactly (Cls c_digit) 2 Eps; spaces0; Eol].
Definition adrEnforceRe : re := cats [Bol; lit "Enforced by:"; spaces0; Cls (cnot c_space)].
Definition adrIDRe : re := cats [Bol; lit "ADR-"; digits4; Eol].
Definition adrSupersedesRe : re :=
  cats [BolM; lit "Supersedes:"; Star (Cls c_blank); Grp 1 (Cat (lit "ADR-") digits4); Star (Cls c_blank); EolM].
Definition liftedV0StandardRe : re :=
  cats [BolM; lit "Lifted from: ADR-"; Plus (Cls c_digit); lit ", "; Star (Cls (cnot c_space)); lit "adr-"; Plus (Cls c_digit); lit "_use-markdown-adrs.md at "].

(** adrStatus: the text of the first Status: line. *)
Definition adrStatus (doc : gostring) : gostring :=
  match FindSubmatchIndex adrStatusLineRe doc with Some m => TrimSpace (group doc m 1) | None => [] end.

Definition withADRStatus (doc status : gostring) : gostring := ReplaceAllRe adrStatusLineRe doc (fun _ => "Status: " ++ status).

(** What adrBodyDigest digests: the text without what its Status: lines say. *)
Definition adr_body (doc : gostring) : gostring :=
  TrimRight (ReplaceAllRe adrStatusLineRe (ReplaceAll doc [x0d; x0a] [x0a]) (fun _ => bs "Status:")) newlines.
Definition adrBodyDigest (sha256 : gostring -> gostring) (doc : gostring) : gostring := sha256 (adr_body doc).

(** The number and the slug of a decision's file name. *)
Definition adr_name (name : gostring) : option (gostring * gostring) :=
  (fun m => (group name m 1, group name m 2)) <$> FindSubmatchIndex adrFileRe name.

Definition adrPlaceholders : list gostring :=
  [bs "<!-- the forces at play -->"; bs "<!-- what we decided -->"; bs "<!-- what becomes easier or harder -->"].

(** adrPlaceholdersIn *)
Definition placeholder_step (out : list gostring) (lp : mdLine * gostring) : list gostring :=
  let '(l, ph) := lp in if Contains (md_Text l) ph && negb (slices_Contains out ph) then out ++ [ph] else out.
Definition adrPlaceholdersIn (doc : gostring) : list gostring :=
  foldl placeholder_step [] (List.filter (fun l => negb (md_InCode l)) (splitLines doc) ≫= (fun l => (fun ph => (l, ph)) <$> adrPlaceholders)).

Section validate.
Context (ToLower : gostring -> gostring).

(** ValidateDecision *)
Definition ValidateDecision (file name doc : gostring) : list Finding :=
  match adr_name name with
  | None => [finding file 0 "decision files are named NNNN-<slug>.md — use `ape decision new <slug>`"]
  | Some (num, _) =>
      let lines := splitLines doc in
      let prose := List.filter (fun l => negb (md_InCode l)) lines in
      let has r := existsb (fun l => MatchString r (TrimSpace (md_Text l))) prose in
      let title := match List.find (fun h => Nat.eqb (fst h) 1 && (snd h <>s "")) (headingLevel <$> prose) with Some h => snd h | None => [] end in
      let titled := match FindSubmatchIndex adrTitleRe title with Some m => group title m 1 =s num | None => false end in
      let have := (fun s => ToLower (sec_Title s)) <$> h2Sections lines in
      (if titled then [] else [finding file 1 ("first heading must be `# ADR-" ++ num ++ ": <title>`")]) ++
      (if has adrStatusRe then [] else [finding file 0 "missing `Status: proposed | accepted | superseded by ADR-NNNN`"]) ++
      (if has adrDateRe then [] else [finding file 0 "missing `Date: YYYY-MM-DD`"]) ++
      (if has adrEnforceRe then [] else [finding file 0 "missing `Enforced by: <command> | hook | review`"]) ++
      ([bs "Context"; bs "Decision"; bs "Consequences"] ≫= (fun want =>
         if slices_Contains have (ToLower want) then [] else [finding file 0 ("missing `## " ++ want ++ "`")]))
  end.
End validate.

(** ** Records *)

Record StandardRemoval := MkRemoval { sr_Path : gostring; sr_ID : gostring }.
#[export] Instance StandardRemoval_eq_dec : EqDecision StandardRemoval.
Proof. solve_decision. Defined.

Record StandardRecord := MkStandardRecord { std_FrameworkVersion : gostring; std_SHA256 : gostring; std_Removed : option (list StandardRemoval) }.
#[export] Instance StandardRecord_eq_dec : EqDecision StandardRecord.
Proof. solve_decision. Defined.

Record DecisionRecord := MkDecisionRecord {
  dr_AcceptedAt : gostring; dr_By : gostring; dr_BodySHA256 : gostring; dr_Standard : option StandardRecord }.
#[export] Instance DecisionRecord_eq_dec : EqDecision DecisionRecord.
Proof. solve_decision. Defined.

(** The files of decisions/ by name, and decisions.json. *)
Record DWorld := MkDWorld { dw_Docs : gmap gostring gostring; dw_Records : gmap gostring DecisionRecord }.
Definition set_doc (name doc : gostring) (w : DWorld) : DWorld := MkDWorld (<[name := doc]> (dw_Docs w)) (dw_Records w).
Definition del_doc (name : gostring) (w : DWorld) : DWorld := MkDWorld (delete name (dw_Docs w)) (dw_Records w).
Definition set_records (r : gmap gostring DecisionRecord) (w : DWorld) : DWorld := MkDWorld (dw_Docs w) r.

(** ** The host *)

(** The places where a command reads or writes. *)
Inductive dsite := ReadOld | ReadADR | MkDir | CreateADR | WriteADR | CloseADR | SaveOld | SaveADR | SaveRecords | RemoveOld | RemoveADR (name : gostring).
(** A file a command commits. *)
Inductive dpath := DDoc (name : gostring) | DRecords.
(** A commit of ape's records: it is made (with nothing to record, without a SHA), it fails,
    or it is refused for a secret and some of the paths are put back as they were. *)
Inductive DCommit := DCommitted (sha : gostring) | DCommitFails | DCommitRefused (restored : dpath -> bool).

Record DHost := MkDHost {
  dh_ToLower : gostring -> gostring; dh_sha256 : gostring -> gostring;
  dh_recover : option Err; dh_person : option Err; dh_headChange : gostring; dh_worktree : bool;
  dh_fails : dsite -> bool; dh_short : nat; dh_unreadable : gostring -> bool;
  dh_today : gostring; dh_now : gostring; dh_decRel : gostring; dh_commit : DCommit;
  (* git log --reverse of a decision's file, and what git show gives of each commit; None: git fails *)
  dh_history : gostring -> option (list (option gostring));
  dh_grep : gostring -> option gostring;
  dh_dirty : option bool;
  (* the standard's text in the installed payload, and the payload's version *)
  dh_payload : option gostring; dh_version : option gostring }.

(** ** Decisions (decision.go) *)

Section decisions.
Context (H : DHost).
Abbreviation DCmd := (CmdOf DWorld).

Definition digest (doc : gostring) : gostring := adrBodyDigest (dh_sha256 H) doc.
Definition doc_rel (name : gostring) : gostring := dh_decRel H ++ "/" ++ name.
Definition validate (name doc : gostring) : list Finding := ValidateDecision (dh_ToLower H) (doc_rel name) name doc.

(** os.ReadDir of decisions/, which gives the names in order. *)
Definition entries (w : DWorld) : list gostring := sort_Strings (elements (dom (dw_Docs w))).
(** filepath.Glob of decisions/<num>-*.md *)
Definition glob_num (w : DWorld) (num : gostring) : list gostring :=
  List.filter (fun n => HasPrefix n (num ++ "-") && HasSuffix n ".md") (entries w).

Definition adrFile (w : DWorld) (id : gostring) : option gostring :=
  if MatchString adrIDRe id then match glob_num w (TrimPrefix id "ADR-") with [n] => Some n | _ => None end else None.
Definition decisionExists (w : DWorld) (id : gostring) : bool :=
  match glob_num w (TrimPrefix id "ADR-") with [] => false | _ => true end.

Definition fails_at (s : dsite) (e : Err) : DCmd unit := refuse (dh_fails H s) e.
Definition readDoc (s : dsite) (name : gostring) : DCmd gostring :=
  fails_at s OtherError;; refuse (dh_unreadable H name) OtherError;;
  let* w := get in match dw_Docs w !! name with Some d => cret d | None => fail OtherError end.
Definition writeDoc (s : dsite) (name doc : gostring) : DCmd unit := fails_at s OtherError;; modify (set_doc name doc).
(** saveDecisionRecords *)
Definition saveDecisionRecords (r : gmap gostring DecisionRecord) : DCmd unit := fails_at SaveRecords OtherError;; modify (set_records r).
Definition d_refuseOnChangeBranch : DCmd unit := refuse (dh_headChange H <>s "") (FailError "branch.change-branch").

(** undoRefused: a path put back as it was before the command wrote it. *)
Definition restore_path (before : DWorld) (restored : dpath -> bool) (w : DWorld) (p : dpath) : DWorld :=
  if restored p then
    match p with
    | DDoc n => match dw_Docs before !! n with Some d => set_doc n d w | None => del_doc n w end
    | DRecords => set_records (dw_Records before) w
    end
  else w.

(** commitOwnRecord, its error as commitFailed gives it; [before] is what beforeOwnEdit took. *)
Definition commitOwnRecord (before : DWorld) (paths : list dpath) : DCmd gostring :=
  if negb (dh_worktree H) then cret []
  else match dh_commit H with
       | DCommitted sha => cret sha
       | DCommitFails => fail (FailError "commit.failed")
       | DCommitRefused restored => modify (fun w => foldl (restore_path before restored) w paths);; fail (FailError "commit.secret")
       end.

Record DecisionResult := MkDecisionResult { de_ID : gostring; de_Path : gostring; de_Status : gostring; de_Supersedes : gostring; de_Commit : gostring }.

(** %04d *)
Definition pad4 (n : Z) : gostring := let s := Itoa n in replicate (4 - length s) "0"%byte ++ s.

(** NewDecision's loop over decisions/: the highest number, None where a slug is taken. *)
Definition number_step (slug : gostring) (acc : option Z) (name : gostring) : option Z :=
  maxN ← acc;
  match adr_name name with
  | None => Some maxN
  | Some (num, s) =>
      let maxN := match Atoi_digits num with Some n => if (maxN <? n)%Z then n else maxN | None => maxN end in
      if s =s slug then None else Some maxN
  end.
Definition highest (slug : gostring) (w : DWorld) : option Z := foldl (number_step slug) (Some 0%Z) (entries w).

(** The skeleton of a new decision. *)
Definition skeleton (id title today supersedes : gostring) : gostring :=
  "# " ++ id ++ ": " ++ title ++ [nl] ++ "Status: " ++ ADRProposed ++ [nl] ++ "Date: " ++ today ++ [nl] ++
  (if supersedes <>s "" then "Supersedes: " ++ supersedes ++ [nl] else []) ++ [nl] ++
  "## Context" ++ [nl] ++ nth 0 adrPlaceholders [] ++ [nl; nl] ++
  "## Decision" ++ [nl] ++ nth 1 adrPlaceholders [] ++ [nl; nl] ++
  "## Consequences" ++ [nl] ++ nth 2 adrPlaceholders [] ++ [nl; nl] ++
  "Enforced by: review" ++ [nl].

(** The decision a new one supersedes: its file and text. *)
Definition supersedable (supersedes : gostring) : DCmd (option (gostring * gostring)) :=
  if supersedes =s "" then cret None
  else
    let* w := get in
    match adrFile w supersedes with
    | None => fail (FailError "decision.not-found")
    | Some name =>
        let* doc := readDoc ReadOld name in
        refuse ((adrStatus doc <>s ADRAccepted) && (adrStatus doc <>s ADRProposed)) (FailError "decision.not-supersedable");;
        cret (Some (name, doc))
    end.

(** The new file: created, which fails where it exists, written and closed. *)
Definition create_adr (name body : gostring) : DCmd unit :=
  let* w := get in
  refuse (dh_fails H CreateADR || bool_decide (is_Some (dw_Docs w !! name))) (FailError "decision.write-failed");;
  modify (set_doc name (if dh_fails H WriteADR then take (dh_short H) body else body));;
  fails_at WriteADR OtherError;; fails_at CloseADR OtherError.

(** NewDecision *)
Definition NewDecision (slug title supersedes : gostring) : DCmd DecisionResult :=
  check (dh_recover H);;
  refuse (negb (MatchString slugRe slug)) (UsageError "usage.decision-slug");;
  let* old := supersedable supersedes in
  let* w := get in
  match highest slug w with
  | None => fail (FailError "decision.slug-taken")
  | Some maxN =>
      let num := pad4 (maxN + 1) in
      let id := "ADR-" ++ num in
      let title := if title =s "" then titleFromSlug slug else title in
      let name := num ++ "-" ++ slug ++ ".md" in
      fails_at MkDir OtherError;;
      create_adr name (skeleton id title (dh_today H) supersedes);;
      match old with Some (o, d) => writeDoc SaveOld o (withADRStatus d ("superseded by " ++ id)) | None => cret tt end;;
      let* sha := commitOwnRecord w (DDoc name :: match old with Some (o, _) => [DDoc o] | None => [] end) in
      cret (MkDecisionResult id (doc_rel name) ADRProposed supersedes sha)
  end.

(** firstAcceptedVersion *)
Definition firstAcceptedVersion (name : gostring) : gostring :=
  match dh_history H name with
  | None => []
  | Some vs => match List.find (fun v => match v with Some c => adrStatus c =s ADRAccepted | None => false end) vs with Some (Some c) => c | _ => [] end
  end.

Definition StandardADRID : gostring := "ADR-0001".

(** standardADRUnchanged *)
Definition standardADRUnchanged (id doc : gostring) (rec : DecisionRecord) : bool :=
  (id =s StandardADRID) && match dr_Standard rec with Some s => std_SHA256 s =s dh_sha256 H doc | None => false end.

(** acceptedBodyChanged *)
Definition acceptedBodyChanged (w : DWorld) (id name doc : gostring) : bool :=
  let status := adrStatus doc in
  if (status <>s ADRAccepted) && negb (HasPrefix status "superseded by ") then false
  else match dw_Records w !! id with
       | Some rec => (dr_BodySHA256 rec <>s digest doc) && negb (standardADRUnchanged id doc rec)
       | None => let first := firstAcceptedVersion name in (first <>s "") && (digest first <>s digest doc)
       end.

(** recordAcceptedDecision (approval.go) *)
Definition recordAcceptedDecision (id name doc by_ : gostring) : DCmd DecisionResult :=
  let* w := get in
  refuse (acceptedBodyChanged w id name doc) (FailError "decision.accepted-edited");;
  saveDecisionRecords (<[id := MkDecisionRecord (dh_now H) by_ (digest doc) None]> (dw_Records w));;
  let* sha := commitOwnRecord w [DRecords] in
  cret (MkDecisionResult id (doc_rel name) ADRAccepted [] sha).

(** The acceptance of a proposed decision: its file, then its record, then the commit. *)
Definition write_acceptance (id name doc by_ : gostring) : DCmd DecisionResult :=
  let accepted := withADRStatus doc ADRAccepted in
  let* w := get in
  writeDoc SaveADR name accepted;;
  saveDecisionRecords (<[id := MkDecisionRecord (dh_now H) by_ (digest accepted) None]> (dw_Records w));;
  let* sha := commitOwnRecord w [DDoc name; DRecords] in
  cret (MkDecisionResult id (doc_rel name) ADRAccepted [] sha).

(** AcceptDecision *)
Definition AcceptDecision (id by_ : gostring) : DCmd DecisionResult :=
  check (dh_person H);;
  check (dh_recover H);;
  refuse (TrimSpace by_ =s "") (UsageError "usage.by");;
  d_refuseOnChangeBranch;;
  let* w := get in
  match adrFile w id with
  | None => fail (FailError "decision.not-found")
  | Some name =>
      let* doc := readDoc ReadADR name in
      if adrStatus doc <>s ADRProposed then
        if (adrStatus doc =s ADRAccepted) && negb (bool_decide (is_Some (dw_Records w !! id)))
        then recordAcceptedDecision id name doc (TrimSpace by_)
        else fail (FailError "decision.not-proposed")
      else
        refuse (negb (bool_decide (validate name doc = []))) (FailError "decision.malformed");;
        refuse (negb (bool_decide (adrPlaceholdersIn doc = []))) (FailError "decision.placeholder");;
        write_acceptance id name doc (TrimSpace by_)
  end.

(** RecordLiftedDecisions (approval.go): the records of the lift's ADRs, all or none. *)
Definition LiftBy : gostring := "lift".
Fixpoint lifted_records (ids : list gostring) (recs : gmap gostring DecisionRecord) : DCmd (gmap gostring DecisionRecord) :=
  match ids with
  | [] => cret recs
  | id :: ids' =>
      let* w := get in
      match adrFile w id with
      | None => fail (FailError "decision.not-found")
      | Some name =>
          let* doc := readDoc ReadADR name in
          refuse (adrStatus doc <>s ADRAccepted) OtherError;;
          lifted_records ids' (<[id := MkDecisionRecord (dh_now H) LiftBy (digest doc) None]> recs)
      end
  end.
Definition RecordLiftedDecisions (ids : list gostring) : DCmd unit :=
  let* w := get in
  let* recs := lifted_records ids (dw_Records w) in
  saveDecisionRecords recs.

(** *** What project check says of the decisions *)

(** decisionRecordFinding *)
Definition decisionRecordFinding (w : DWorld) (id file doc : gostring) : list Finding :=
  if (adrStatus doc =s ADRAccepted) && negb (bool_decide (is_Some (dw_Records w !! id)))
  then [finding file 0 (id ++ " is accepted, but ape has no record of a person accepting it" ++
                          " — a person records it: `ape decision accept " ++ id ++ " --by <who>`")]
  else [].

(** checkDecisionLife *)
Definition checkDecisionLife (w : DWorld) (name doc : gostring) : list Finding :=
  match adr_name name with
  | None => []
  | Some (num, _) =>
      let id := "ADR-" ++ num in
      let file := doc_rel name in
      decisionRecordFinding w id file doc ++
      (if acceptedBodyChanged w id name doc
       then [finding file 0 (id ++ " was accepted and its text has changed since — restore it; " ++
                               "a different decision is a new ADR: `ape decision new <slug> --supersedes " ++ id ++ "`")] else []) ++
      match FindSubmatchIndex adrSupersedesRe doc with
      | Some m => if decisionExists w (group doc m 1) then []
                  else [finding file 0 ("Supersedes: " ++ group doc m 1 ++ " names no decision in decisions/")]
      | None => []
      end
  end.

(** The loop of project check over decisions/. *)
Definition check_decisions (w : DWorld) : list Finding :=
  entries w ≫= (fun name =>
    if HasSuffix name ".md" && negb (dh_unreadable H name)
    then let doc := default [] (dw_Docs w !! name) in validate name doc ++ checkDecisionLife w name doc else []).

(** decisionPlaceholderNotices, as the decisions they are about. *)
Definition decisionPlaceholderNotices (w : DWorld) : list gostring :=
  List.filter (fun name =>
    match adr_name name with
    | None => false
    | Some _ => let doc := default [] (dw_Docs w !! name) in
        negb (dh_unreadable H name) && (adrStatus doc =s ADRAccepted) && negb (bool_decide (adrPlaceholdersIn doc = []))
    end) (entries w).
End decisions.

(** ** APEX's standard ADR-0001 (standard.go) *)

(** standards/adr-0001.md, which is built in. *)
Definition embeddedStandardADR : gostring := unlines [
  bs "# ADR-0001: Record architecture decisions";
  bs "";
  bs "Status: accepted";
  bs "Date: 2026-10-19";
  bs "";
  bs "## Context";
  bs "";
  bs "A project makes choices that bind later work: a language or framework, a dependency and its pinned";
  bs "version, a storage engine, a protocol, a public format, a convention every change must follow.";
  bs "When such a choice lives only in someone's memory or in a commit message, later work cannot tell";
  bs "whether it still holds, and a model planning a change cannot follow it. The project needs one place";
  bs "where each binding choice is written once, with its reasons, and one way to change it.";
  bs "";
  bs "## Decision";
  bs "";
  bs "- Every binding choice is an architecture decision record (ADR) in `development/decisions/`, one";
  bs "  file per decision, named `NNNN-<slug>.md`, numbered in order. This record is ADR-0001.";
  bs "- An ADR has a title (`# ADR-NNNN: <title>`), a `Status:` line, a `Date:` line, and three sections:";
  bs "  `## Context` (the forces and the problem), `## Decision` (what is chosen, stated so it can be";
  bs "  checked) and `## Consequences` (what follows, good and bad). `Enforced by:` names the command,";
  bs "  hook or review that keeps it.";
  bs "- An ADR is written with `ape decision new <slug>`, which gives it the next number and the status";
  bs "  `proposed`. Planning (`apex-plan`, `apex-change`) proposes one whenever it makes a binding choice;";
  bs "  a person may write one too.";
  bs "- A person accepts it (`ape decision accept ADR-NNNN`, or by typing **accept ADR-NNNN** to the";
  bs "  operator). From then on its text is fixed: `ape project check` fails if anything but its";
  bs "  `Status:` line changes.";
  bs "- An accepted decision changes only by a new ADR that supersedes it";
  bs "  (`ape decision new <slug> --supersedes ADR-NNNN`). The old one stays, marked";
  bs "  `superseded by ADR-MMMM`, so the history of the choice is kept.";
  bs "- Changes and requirements name the decisions they follow (`decisions:` in a change, `Decisions:` in";
  bs "  a requirement), and review checks that a change follows every accepted decision or plans its";
  bs "  replacement.";
  bs "";
  bs "## Consequences";
  bs "";
  bs "- Anyone, person or model, can find what binds the project and why, in one folder.";
  bs "- A choice cannot drift silently: changing it takes a new record and a person's acceptance.";
  bs "- Small choices that bind nothing beyond one change stay out of `development/decisions/`; they";
  bs "  belong in that change's notes.";
  bs "- This record is APEX's standard, the same in every project. `ape framework update` replaces it, in";
  bs "  its own commit, when a release changes the standard; nobody edits it by hand. A project that wants";
  bs "  a different rule supersedes it with its own ADR, and updates then leave it alone.";
  bs "";
  bs "Enforced by: `ape project check` (accepted text held), `ape decision accept` (a person's act),";
  bs "review (changes follow accepted decisions)" ].

Definition StandardADRSlug : gostring := "record-architecture-decisions".
Definition StandardADRPayload : gostring := "_apex/standards/adr-0001.md".
Definition StandardSourceApe : gostring := "ape".
Definition standardByPrefix : gostring := "APEX standard".
Definition StandardBy (cmd : gostring) : gostring := standardByPrefix ++ " (" ++ cmd ++ ")".
Definition StandardADRFile : gostring := "0001-" ++ StandardADRSlug ++ ".md".

Record installedStandard := MkInstalled { in_doc : gostring; in_source : gostring; in_version : gostring }.

(** installedStandard.label *)
Definition standard_label (s : installedStandard) : gostring :=
  if in_source s =s StandardSourceApe then "ape's own copy"
  else if in_version s =s "" then "the installed payload's copy" else in_version s.

Inductive StandardAction := StandardCreated | StandardReplaced | StandardKept | StandardOptedOut | StandardDiffers.
#[export] Instance StandardAction_eq_dec : EqDecision StandardAction.
Proof. solve_decision. Defined.

(** A decision's number, file and status. *)
Record adrRef := MkAdrRef { ar_id : gostring; ar_name : gostring; ar_status : gostring }.
Record RemovedADR := MkRemoved { ra_ID : gostring; ra_name : gostring; ra_Citations : list gostring }.

(** standardPlan, its file names those of decisions/. *)
Record standardPlan := MkPlan {
  sp_Action : StandardAction; sp_Path : gostring; sp_Replaces : gostring; sp_OptedOutBy : list gostring; sp_Removed : list RemovedADR;
  sp_std : installedStandard; sp_old : option gostring; sp_doc : gostring; sp_proposed : list adrRef }.
Definition with_removed (r : list RemovedADR) (pl : standardPlan) : standardPlan :=
  MkPlan (sp_Action pl) (sp_Path pl) (sp_Replaces pl) (sp_OptedOutBy pl) r (sp_std pl) (sp_old pl) (sp_doc pl) (sp_proposed pl).

(** StandardADRResult.Due *)
Definition Due (pl : standardPlan) : bool := match sp_Action pl with StandardCreated | StandardReplaced => true | _ => false end.

(** mergeRemovals (stalespec.go): each path once, in the order of the paths. *)
Definition removal_step (out : list StandardRemoval) (r : StandardRemoval) : list StandardRemoval :=
  if existsb (fun o => sr_Path o =s sr_Path r) out then out else out ++ [r].
Definition removal_le (a b : StandardRemoval) : Prop := str_le (sr_Path a) (sr_Path b).
#[export] Instance removal_le_dec a b : Decision (removal_le a b).
Proof. unfold removal_le, str_le. apply _. Defined.
Definition mergeRemovals (prev : option (list StandardRemoval)) (now : list StandardRemoval) : list StandardRemoval :=
  merge_sort removal_le (foldl removal_step (default [] prev) now).

Section standard.
Context (H : DHost).
Abbreviation DCmd := (CmdOf DWorld).

(** standardADR *)
Definition standardADR : installedStandard :=
  match dh_payload H with
  | Some d =>
      if negb (bool_decide (ValidateDecision (dh_ToLower H) StandardADRPayload StandardADRFile d = [])) || (adrStatus d <>s ADRAccepted)
      then MkInstalled embeddedStandardADR StandardSourceApe []
      else MkInstalled d StandardADRPayload (default [] (dh_version H))
  | None => MkInstalled embeddedStandardADR StandardSourceApe []
  end.

Definition isStandardText (doc std : gostring) : bool := digest H doc =s digest H std.

(** frameworkOwnedADR0001 *)
Definition frameworkOwnedADR0001 (w : DWorld) (doc : gostring) : bool :=
  MatchString liftedV0StandardRe doc ||
  match dw_Records w !! StandardADRID with
  | Some rec => bool_decide (is_Some (dr_Standard rec)) || HasPrefix (dr_By rec) standardByPrefix
  | None => false
  end.

(** supersedersOfStandard *)
Definition superseder (w : DWorld) (name : gostring) : list adrRef :=
  match adr_name name with
  | None => []
  | Some (num, _) =>
      if (num =s "0001") || dh_unreadable H name then []
      else
        let doc := default [] (dw_Docs w !! name) in
        if existsb (fun m => group doc m 1 =s StandardADRID) (FindAll adrSupersedesRe doc)
        then [MkAdrRef ("ADR-" ++ num) name (adrStatus doc)] else []
  end.
Definition supersedersOfStandard (w : DWorld) : list adrRef := entries w ≫= superseder w.

(** planStandardADR *)
Definition planStandardADR (w : DWorld) : standardPlan :=
  let std := standardADR in
  let files := glob_num w "0001" in
  let old := head files in
  let doc := match old with Some n => if dh_unreadable H n then [] else default [] (dw_Docs w !! n) | None => [] end in
  let path := doc_rel H (default StandardADRFile old) in
  let standard := bool_decide (is_Some old) && isStandardText doc std.(in_doc) in
  if Nat.ltb 1 (length files) || (bool_decide (is_Some old) && negb standard && negb (frameworkOwnedADR0001 w doc))
  then MkPlan StandardDiffers path [] [] [] std old doc []
  else
    let sup := supersedersOfStandard w in
    let out := ar_id <$> List.filter (fun s => ar_status s =s ADRAccepted) sup in
    let proposed := List.filter (fun s => ar_status s =s ADRProposed) sup in
    match out, old with
    | _ :: _, _ => MkPlan StandardOptedOut path [] out [] std old doc proposed
    | [], None => MkPlan StandardCreated path [] [] [] std old doc proposed
    | [], Some _ =>
        if standard then MkPlan StandardKept path [] [] [] std old doc proposed
        else MkPlan StandardReplaced (doc_rel H StandardADRFile) path [] [] std old doc proposed
    end.

(** adrCitations: the lines git grep finds, but those of the files [skip]. *)
Definition citation (skip : list gostring) (l : gostring) : list gostring :=
  match Cut l ":" with
  | None => []
  | Some (file, rest) => if slices_Contains skip file then [] else [file ++ ":" ++ match Cut rest ":" with Some (n, _) => n | None => rest end]
  end.
Definition adrCitations (id : gostring) (skip : list gostring) : list gostring :=
  match dh_grep H id with None => [] | Some out => split_byte nl (TrimRight out newlines) ≫= citation skip end.

(** planRemovals *)
Definition planRemovals (pl : standardPlan) : standardPlan :=
  if bool_decide (sp_Action pl <> StandardReplaced) || negb (MatchString liftedV0StandardRe (sp_doc pl)) then pl
  else with_removed ((fun s => MkRemoved (ar_id s) (ar_name s) (adrCitations (ar_id s) [doc_rel H (ar_name s); sp_Replaces pl])) <$> sp_proposed pl) pl.

(** The old ADR-0001 that is removed: its name is not the standard's. *)
Definition old_removed (pl : standardPlan) : list gostring :=
  match sp_old pl with Some n => if n <>s StandardADRFile then [n] else [] | None => [] end.

(** standardPlan.removals *)
Definition removals (pl : standardPlan) : list StandardRemoval :=
  ((fun n => MkRemoval (doc_rel H n) StandardADRID) <$> old_removed pl) ++ ((fun r => MkRemoval (doc_rel H (ra_name r)) (ra_ID r)) <$> sp_Removed pl).

(** standardPlan.paths *)
Definition plan_paths (pl : standardPlan) : list dpath :=
  (DDoc <$> old_removed pl) ++ [DDoc StandardADRFile; DRecords] ++ ((fun r => DDoc (ra_name r)) <$> sp_Removed pl).

(** recordStandardADR *)
Definition recordStandardADR (std : installedStandard) (cmd : gostring) (removed : option (list StandardRemoval)) : DCmd unit :=
  let* w := get in
  let prev := match dw_Records w !! StandardADRID with
              | Some old => match dr_Standard old with Some s => std_Removed s | None => None end
              | None => None
              end in
  let prev := match removed with Some r => Some (mergeRemovals prev r) | None => prev end in
  saveDecisionRecords H (<[StandardADRID := MkDecisionRecord (dh_now H) (StandardBy cmd) (digest H (in_doc std))
    (Some (MkStandardRecord (in_version std) (dh_sha256 H (in_doc std)) prev))]> (dw_Records w)).

(** writeStandardADR *)
Definition writeStandardADR (std : installedStandard) (cmd : gostring) (removed : option (list StandardRemoval)) : DCmd unit :=
  fails_at H MkDir OtherError;;
  writeDoc H SaveADR StandardADRFile (in_doc std);;
  recordStandardADR std cmd removed.

(** applyStandardADR *)
Definition applyStandardADR (pl : standardPlan) (cmd : gostring) : DCmd unit :=
  if negb (Due pl) then cret tt
  else
    match old_removed pl with n :: _ => fails_at H RemoveOld OtherError;; modify (del_doc n) | [] => cret tt end;;
    writeStandardADR (sp_std pl) cmd (Some (removals pl)).

(** The removal of the proposed decisions a plan removes; a file that is gone is no error. *)
Fixpoint remove_adrs (l : list RemovedADR) : DCmd unit :=
  match l with
  | [] => cret tt
  | r :: l' => fails_at H (RemoveADR (ra_name r)) OtherError;; modify (del_doc (ra_name r));; remove_adrs l'
  end.

(** refuseDirty *)
Definition refuseDirty : DCmd unit :=
  match dh_dirty H with
  | None => fail (FailError "git.status-failed")
  | Some d => refuse d (FailError "tree.dirty")
  end.

(** DecisionStandard *)
Definition DecisionStandard : DCmd (standardPlan * gostring) :=
  let* w := get in
  let pl := planRemovals (planStandardADR w) in
  if negb (Due pl) then cret (pl, [])
  else
    refuse (negb (dh_worktree H)) (FailError "git.not-a-repo");;
    check (dh_recover H);;
    d_refuseOnChangeBranch H;;
    refuseDirty;;
    let* before := get in
    applyStandardADR pl "ape decision standard";;
    remove_adrs (sp_Removed pl);;
    let* sha := commitOwnRecord H before (plan_paths pl) in
    cret (pl, sha).

(** DecisionStandardCheck *)
Definition DecisionStandardCheck : DCmd standardPlan :=
  let* w := get in
  let pl := planRemovals (planStandardADR w) in
  if negb (Due pl) then cret pl else fail (FailError "decision.standard-pending").

(** initStandardADR: what init does with ADR-0001, and the action it reports. *)
Definition initStandardADR : DCmd StandardAction :=
  let* w := get in
  let pl := planStandardADR w in
  match sp_Action pl with
  | StandardCreated => writeStandardADR (sp_std pl) "ape project init" None;; cret StandardCreated
  | StandardKept =>
      match dw_Records w !! StandardADRID with
      | Some _ => cret StandardKept
      | None => recordStandardADR (MkInstalled (sp_doc pl) (in_source (sp_std pl)) (in_version (sp_std pl))) "ape project init" None;; cret StandardKept
      end
  | _ => cret StandardDiffers
  end.

(** standardADRNotices, by code and file. *)
Definition standardADRNotices (w : DWorld) : list (gostring * gostring) :=
  let pl := planStandardADR w in
  match sp_Action pl with
  | StandardDiffers => [(bs "decision.standard-differs", sp_Path pl)]
  | StandardOptedOut => (fun _ => (bs "decision.standard-superseded", sp_Path pl)) <$> sp_OptedOutBy pl
  | StandardCreated | StandardReplaced => [(bs "decision.standard-stale", sp_Path pl)]
  | StandardKept => []
  end.
End standard.

(** ** Scenarios that check what was removed (stalespec.go) *)

(** *** Where a check asserts an absence *)

Definition absenceRe : re :=
  cats [Bol; spaces0; Alt (Cat (lit "!") (Cls c_space))
                          (cats [Alt (lit "test") (Cat (lit "[") (Opt (lit "["))); Plus (Cls c_space); lit "!"; Cls c_space])].

(** shellOpens: how many bytes at [i] open a group or substitution. *)
Definition shellOpens (cmd : gostring) (i : nat) (inDouble : bool) : nat :=
  let c := cmd !! i in
  let d := cmd !! (i + 1) in
  if bool_decide (c = Some "$"%byte) && (bool_decide (d = Some "("%byte) || bool_decide (d = Some "{"%byte)) then 2
  else if inDouble then 0
  else if bool_decide (c = Some "("%byte) || (bool_decide (c = Some "{"%byte) && (bool_decide (d = None) || bool_decide (d = Some " "%byte))) then 1
  else 0.

Definition shellCloser (open : byte) : byte := if Byte.eqb open "{" then "}"%byte else ")"%byte.

Record frame := MkFrame { fr_neg : bool; fr_closer : byte; fr_inDouble : bool; fr_segStart : nat }.

(** The reader of absenceAssertions: the frames, the innermost first, the start of the
    simple command, the quotes open, and for each byte read its segStart and frameNeg. *)
Record ascan := MkScan { as_stack : list frame; as_seg : nat; as_sq : bool; as_dq : bool; as_out : list (nat * bool) }.
Definition top_neg (st : ascan) : bool := match as_stack st with f :: _ => fr_neg f | [] => false end.
(** A byte is read. *)
Definition note_byte (st : ascan) : ascan := MkScan (as_stack st) (as_seg st) (as_sq st) (as_dq st) (as_out st ++ [(as_seg st, top_neg st)]).

(** One round of its loop at byte [i]: the state after it, and how many bytes it took. *)
Definition absence_step (cmd : gostring) (i : nat) (c : byte) (st0 : ascan) : ascan * nat :=
  let st := note_byte st0 in
  let '(MkScan stack seg sq dq out) := st in
  let w := shellOpens cmd i dq in
  if sq then (MkScan stack seg (negb (Byte.eqb c x27)) dq out, 1)
  else if Byte.eqb c x5c then (if Nat.ltb (i + 1) (length cmd) then (note_byte st, 2) else (st, 1))
  else if Nat.ltb 0 w then
    let neg := top_neg st || MatchString absenceRe (slice cmd seg i) in
    let closer := shellCloser (default x00 (cmd !! (i + w - 1))) in
    let out := if Nat.eqb w 2 then as_out (note_byte st) else out in
    (MkScan (MkFrame neg closer dq seg :: stack) (i + w) sq false out, w)
  else if dq then (MkScan stack seg sq (negb (Byte.eqb c x22)) out, 1)
  else if Byte.eqb c x27 then (MkScan stack seg true dq out, 1)
  else if Byte.eqb c x22 then (MkScan stack seg sq true out, 1)
  else
    match stack with
    | f :: ((_ :: _) as stack') =>
        if (Byte.eqb c ")" || Byte.eqb c "}") && Byte.eqb (fr_closer f) c then (MkScan stack' (fr_segStart f) sq (fr_inDouble f) out, 1)
        else if slices_Contains [bs ";"; bs "|"; bs "&"; [nl]] [c] then (MkScan stack (i + 1) sq dq out, 1) else (st, 1)
    | _ => if slices_Contains [bs ";"; bs "|"; bs "&"; [nl]] [c] then (MkScan stack (i + 1) sq dq out, 1) else (st, 1)
    end.

Fixpoint absence_loop (cmd : gostring) (fuel i : nat) (st : ascan) : ascan :=
  match fuel, cmd !! i with
  | S f, Some c => let '(st', w) := absence_step cmd i c st in absence_loop cmd f (i + w) st'
  | _, _ => st
  end.

(** absenceAssertions: whether byte [i] sits in a command that asserts an absence. *)
Definition absenceAssertions (cmd : gostring) (i : nat) : bool :=
  match as_out (absence_loop cmd (length cmd) 0 (MkScan [MkFrame false x00 false 0] 0 false false [])) !! i with
  | Some (seg, neg) => neg || MatchString absenceRe (slice cmd seg i)
  | None => false
  end.

(** *** Names *)

Record needle := MkNeedle { nd_text : gostring; nd_word : bool }.
#[export] Instance needle_eq_dec : EqDecision needle.
Proof. solve_decision. Defined.

(** A byte of a word or, with the dot, of a file's name. *)
Definition name_byte (word : bool) (b : byte) : bool :=
  c_lower (bz b) || c_upper (bz b) || c_digit (bz b) || Byte.eqb b "_" || Byte.eqb b "-" || (negb word && Byte.eqb b ".").

(** bounded *)
Definition bounded (cmd : gostring) (i j : nat) (word : bool) : bool :=
  (match i with O => true | S k => negb (match cmd !! k with Some b => name_byte word b | None => false end) end) &&
  match cmd !! j with Some b => negb (name_byte word b) | None => true end.

(** namedIn's search for one needle, from byte [from] on. *)
Fixpoint named_from (neg : nat -> bool) (cmd : gostring) (n : needle) (fuel from : nat) : bool :=
  match fuel with
  | O => false
  | S f =>
      match Index (drop from cmd) (nd_text n) with
      | None => false
      | Some k =>
          let i := k + from in
          let j := i + length (nd_text n) in
          if negb (bounded cmd i j (nd_word n)) || neg i then named_from neg cmd n f j else true
      end
  end.
Definition namedIn (cmd : gostring) (needles : list needle) : list gostring :=
  nd_text <$> List.filter (fun n => named_from (absenceAssertions cmd) cmd n (S (length cmd)) 0) needles.

Definition c_alnum : Z -> bool := cor c_lower (cor c_upper c_digit).
Definition c_file : Z -> bool := cor c_alnum (cor (one ".") (cor (one "_") (one "-"))).
Definition legacyDecisionPathRe : re := cats [Star (Cls (cor c_file (one "/"))); lit "decisions/"; Plus (Cls c_file); lit ".md"].
Definition legacyADR0001Re : re := Cat (Alt Bol (Cls (cnot c_file))) (Grp 1 (cats [lit "0001-"; Plus (Cls c_file); lit ".md"])).

(** dropCoveredNames *)
Definition dropCoveredNames (names : list gostring) : list gostring :=
  List.filter (fun n => negb (existsb (fun m => (m <>s n) && HasSuffix m ("/" ++ n)) names)) names.

Definition standardSupersedes : gostring := "Supersedes: " ++ StandardADRID.
Definition standardMigration : gostring := "v1.0.0_seq-08".
(** path.Base of a path that does not end in a slash. *)
Definition path_Base (p : gostring) : gostring := match CutLast p "/" with Some (_, b) => b | None => p end.

Record StaleScenario := MkStale {
  ss_Spec : gostring; ss_Requirement : gostring; ss_Scenario : gostring; ss_Line : nat; ss_Names : list gostring; ss_ref : gostring }.

Section stale.
Context (H : DHost) (w : DWorld).
(** What exists outside decisions/; and the lasting specs, in order: a capability, its
    spec's path and, where it can be read, its text. *)
Context (elsewhere : gostring -> bool) (specs : list (gostring * gostring * option gostring)).

Definition fileExists (path : gostring) : bool :=
  match CutPrefix path (dh_decRel H ++ "/") with
  | (name, true) => bool_decide (is_Some (dw_Docs w !! name))
  | _ => elsewhere path
  end.

(** recordedRemovals *)
Definition recordedRemovals : list StandardRemoval * bool :=
  match dw_Records w !! StandardADRID with
  | Some rec =>
      match dr_Standard rec with
      | Some s =>
          match std_Removed s with
          | Some r => (r, false)
          | None => ([], (dr_By rec =s StandardBy "ape decision standard") && bool_decide (is_Some (dw_Docs w !! StandardADRFile)))
          end
      | None => ([], false)
      end
  | None => ([], false)
  end.

(** removalNeedles *)
Definition add_needle (out : list needle) (n : needle) : list needle := if bool_decide (n ∈ out) then out else out ++ [n].
Definition removal_needles (planned : bool) (r : StandardRemoval) : list needle :=
  (if (sr_Path r <>s "") && (planned || negb (fileExists (sr_Path r))) then [MkNeedle (sr_Path r) false; MkNeedle (path_Base (sr_Path r)) false] else []) ++
  (if (sr_ID r <>s "") && (sr_ID r <>s StandardADRID)
   then (if planned || negb (decisionExists w (sr_ID r)) then [MkNeedle (sr_ID r) true] else []) ++ [MkNeedle standardSupersedes true] else []).
Definition removalNeedles (removed : list StandardRemoval) (planned : bool) : list needle :=
  foldl add_needle [] (removed ≫= removal_needles planned).

(** legacyStaleNames *)
Definition legacyStaleNames (cmd : gostring) : list gostring :=
  let dec := dh_decRel H ++ "/" in
  (FindAll legacyDecisionPathRe cmd ≫= (fun m =>
     let rel := TrimPrefix (slice cmd (m_start m) (m_end m)) "./" in
     if negb (HasPrefix rel dec) || fileExists rel || absenceAssertions cmd (m_start m) then [] else [rel])) ++
  (FindAll legacyADR0001Re cmd ≫= (fun m =>
     let name := group cmd m 1 in
     if (name =s StandardADRFile) || fileExists (dec ++ name) || match group_at m 1 with Some (a, _) => absenceAssertions cmd a | None => false end then [] else [name])).

Definition add_stale (out : list gostring) (n : gostring) : list gostring := if slices_Contains out n then out else out ++ [n].
Definition stale_names (needles : list needle) (legacy : bool) (checks : list gostring) : list gostring :=
  foldl add_stale [] (checks ≫= (fun c => namedIn c needles ++ if legacy then legacyStaleNames c else [])).

(** staleScenarios *)
Definition staleScenarios (removed : list StandardRemoval) (legacy planned : bool) : list StaleScenario :=
  let needles := removalNeedles removed planned in
  if bool_decide (needles = []) && negb legacy then []
  else
    specs ≫= (fun '(cap, file, text) =>
      match text with
      | None => []
      | Some doc =>
          s_Requirements (ParseSpec doc) ≫= (fun r => r_Scenarios r ≫= (fun sc =>
            match stale_names needles legacy (sc_Checks sc) with
            | [] => []
            | names => [MkStale file (r_Name r) (sc_Name sc) (sc_Line sc) (dropCoveredNames names) (scenarioRef cap (r_Name r) (sc_Name sc))]
            end))
      end).

Definition StaleScenarios : list StaleScenario := let '(removed, legacy) := recordedRemovals in staleScenarios removed legacy false.

(** What [ape decision standard --check] lists: what a write that is due would leave stale. *)
Definition pendingStale (pl : standardPlan) : list StaleScenario :=
  if Due pl then staleScenarios (recordedRemovals.1 ++ removals H pl) false true else StaleScenarios.

(** markStale: the names each result is marked with. *)
Definition stale_of (ss : list StaleScenario) (ref : gostring) : list gostring :=
  match last (List.filter (fun s => ss_ref s =s ref) ss) with Some s => ss_Names s | None => [] end.
Definition markStale (results : list CheckResult) : list (CheckResult * list gostring) :=
  (fun r => (r, if bool_decide (cr_Kind r <> Some KindScenario) || cr_Delta r || Z.eqb (cr_Exit r) 0 then []
                else stale_of StaleScenarios (scenarioRef (cr_Capability r) (cr_Requirement r) (cr_Scenario r)))) <$> results.
End stale.

(** stalePointer, staleWhat and the messages made of them. *)
Definition stalePointer (req : gostring) : gostring :=
  "retire it with a change whose REMOVED delta of requirement " ++ dq ++ req ++ dq ++ " cites the migration " ++ standardMigration ++
  " (re-ADD what still holds under a new requirement name); never recreate the removed records or supersede " ++ StandardADRID ++
  " again: an accepted supersede opts the project out of APEX's standard (D205)".
Definition staleWhat (names : list gostring) : gostring :=
  "its check names " ++ Join names ", " ++ ", which `ape decision standard` (the framework's migration " ++ standardMigration ++
  ", APEX's standard ADR-0001) removed, so it can never pass again".
Definition stale_Message (s : StaleScenario) : gostring :=
  "scenario " ++ dq ++ ss_Scenario s ++ dq ++ " of requirement " ++ dq ++ ss_Requirement s ++ dq ++ ": " ++ staleWhat (ss_Names s) ++ " — " ++ stalePointer (ss_Requirement s).
Definition staleScenarioNotices (ss : list StaleScenario) : list Finding :=
  (fun s => MkFinding (ss_Spec s) (ss_Line s) (stale_Message s) "spec.check-names-removed" []) <$> ss.
Definition StalePointer (requirement : gostring) (names : list gostring) : gostring :=
  match names with [] => [] | _ => staleWhat names ++ " — " ++ stalePointer requirement end.
