(* ===== verification/DecisionFacts.v ===== *)
(** What holds of the decision records: what their status lines are, that ape's own commands
    keep the text a decision was accepted with, that an edit of it is reported, and what
    becomes of APEX's standard ADR-0001. *)
From S2P Require Import Prelude Regex Markdown Spec Change Merge Effective Command Decisions.

(** ** The status lines of a decision *)

Definition StatusKey : gostring := "Status:".
Definition status_line (l : gostring) : bool := HasPrefix l StatusKey.
Definition is_blank (b : byte) : Prop := b = " "%byte \/ b = x09.

Lemma status_ascii : Forall is_ascii StatusKey.
Proof. repeat constructor. Qed.

Lemma match_status_inv s m : match_here adrStatusLineRe s = Some m ->
  at_bolm s = true /\ exists b v t c, rest s = StatusKey ++ b ++ v ++ t /\ Forall is_blank b /\ Forall (fun x => x <> nl) v /\ line_end t /\
    m = MRes (pos s) (pos s + 7 + length b + length v) ((1, (pos s + 7 + length b, pos s + 7 + length b + length v)) :: c).
Proof.
  unfold match_here, adrStatusLineRe. cbn [cats run]. intros H. destruct (at_bolm s); [|done]. split; [done|].
  apply run_sound in H as (s1 & c1 & H1 & H). apply mt_lit_inv in H1 as [Hr1 Hp1]; [|exact status_ascii].
  change (run (Star (Cls c_blank)) s1 c1 (fun s' c' => run (Star (Cls c_dot)) s' c' (fun s'0 c'0 =>
    if at_eolm s'0 then Some (MRes (pos s) (pos s'0) ((1, (pos s', pos s'0)) :: c'0)) else None)) = Some m) in H.
  apply run_sound in H as (s2 & c2 & H2 & H). apply run_sound in H as (s3 & c3 & H3 & H).
  destruct (at_eolm s3) eqn:Ee; [|done]. injection H as <-.
  apply (mt_star_bytes is_blank) in H2 as (b & Hr2 & Hp2 & Hb).
  2:{ intros u x w. apply DecodeRune_bytes; unfold c_blank, cor, one, is_blank.
      - intros y _ [E%Z.eqb_eq%bz_inj|E%Z.eqb_eq%bz_inj]%orb_true_iff; auto.
      - intros (y & Hy & [E%Z.eqb_eq|E%Z.eqb_eq]%orb_true_iff); exfalso; revert Hy; subst y; by vm_compute. }
  apply (mt_star_bytes (fun x => x <> nl)) in H3 as (v & Hr3 & Hp3 & Hv).
  2:{ intros u x w. apply DecodeRune_bytes; unfold c_dot; [by intros y _ Hy ->|]. intros _ y Hy ->. by vm_compute in Hy. }
  exists b, v, (rest s3), c3. rewrite Hr1, Hr2, Hr3. split_and!; try done.
  - apply orb_true_iff in Ee as [Ee|Ee]; unfold at_eol in Ee; destruct (rest s3) as [|c r] eqn:E3; try done; [by left|].
    apply bool_decide_eq_true in Ee. simplify_eq/=. right. eauto.
  - change (length StatusKey) with 7 in Hp1. rewrite Hp3, Hp2, Hp1. done.
Qed.

Lemma match_status s : at_bolm s = true -> HasPrefix (rest s) StatusKey = true -> match_here adrStatusLineRe s <> None.
Proof.
  intros Hb [u Hu]%HasPrefix_spec. destruct (line_split u) as (l & t & -> & Hl & Ht).
  destruct (mt_lit StatusKey status_ascii s (l ++ t) Hu) as (s1 & H1 & Hr1). destruct (mt_dots l t s1 Hl Ht Hr1) as (s2 & H2 & Hr2).
  eapply run_complete; [|done]. unfold adrStatusLineRe. cbn [cats].
  eapply mt_cat; [by apply mt_bolm|]. eapply mt_cat; [exact H1|]. eapply mt_cat; [apply mt_star_nil|].
  eapply mt_cat; [apply mt_grp; exact H2|]. apply mt_eolm. unfold at_eolm, at_eol. rewrite Hr2.
  destruct Ht as [->|[t' ->]]; [done|]. by rewrite bool_decide_eq_true_2.
Qed.

Abbreviation statusRe := adrStatusLineRe.

(** The line after the end of the one [s] is on. *)
Definition next_line (l : gostring) (s : st) : st := advance (length l + 1) s.

Lemma match_status_none s l t : rest s = l ++ t -> line_end t -> at_bolm s && status_line l = false -> match_here statusRe s = None.
Proof.
  intros Hr Ht Hn. destruct (match_here statusRe s) eqn:E; [|done]. apply match_status_inv in E as (Hb & b & v & t' & c & Hs & _).
  exfalso. rewrite Hb in Hn. cbn [andb] in Hn. unfold status_line in Hn.
  assert (HasPrefix l StatusKey = true); [|congruence]. rewrite Hr in Hs. clear -Hs Ht.
  assert (length StatusKey <= length l) as Hlen.
  { destruct (decide (length StatusKey <= length l)) as [|Hn]; [done|]. exfalso. apply Nat.nle_gt in Hn.
    destruct Ht as [->|[t2 ->]].
    - apply (f_equal length) in Hs. rewrite app_nil_r, !length_app in Hs. lia.
    - apply (f_equal (lookup (length l))) in Hs. rewrite lookup_app_r, Nat.sub_diag, lookup_app_l in Hs by lia.
      symmetry in Hs. apply list_elem_of_lookup_2 in Hs. revert Hs. by apply (bool_decide_eq_false_1 (nl ∈ StatusKey)). }
  apply HasPrefix_spec. exists (drop (length StatusKey) l).
  apply (f_equal (take (length StatusKey))) in Hs. rewrite take_app_le, take_app_length in Hs by lia. rewrite <- Hs at 1. by rewrite take_drop.
Qed.

Lemma find_skip_end s t n : rest s = t -> line_end t -> match_here statusRe s = None -> length (rest s) <= n ->
  find_from statusRe n s = match t with [] => None | _ => find_from statusRe n (next_line [] s) end.
Proof.
  intros Hr [->|[t' ->]] Hm Hf; [destruct n; cbn [find_from]; rewrite Hm, ?Hr; done|].
  rewrite Hr in Hf. destruct n as [|n]; [simpl in Hf; lia|]. cbn [find_from]. rewrite Hm, Hr. cbn [orelse].
  change (DecodeRune (nl :: t')) with (Some (10%Z, 1)). cbn iota. unfold next_line. cbn [length Nat.add].
  change (find_from statusRe n (advance 1 s) = find_from statusRe (S n) (advance 1 s)).
  apply find_from_fuel; cbn [advance rest]; rewrite Hr, length_drop; cbn [length] in *; lia.
Qed.

(** No match on the line [s] is on: the search goes on at the next one. *)
Lemma find_skip_line s l t n : rest s = l ++ t -> nl ∉ l -> line_end t -> at_bolm s && status_line l = false -> length (rest s) <= n ->
  find_from statusRe n s = match t with [] => None | _ => find_from statusRe n (next_line l s) end.
Proof.
  remember (length l) as k eqn:Hk. assert (length l <= k) as Hle by lia. clear Hk. revert l s n Hle.
  induction k as [|k IH]; intros l s n Hle Hr Hl Ht Hn Hf;
    (assert (match_here statusRe s = None) as Hm by (by eapply match_status_none));
    (destruct (decide (l = [])) as [->|Hne]; [|destruct (DecodeRune_line l t) as (x & w & Hd & Hx & Hw); [done..|]]).
  - by apply find_skip_end.
  - destruct l; [done|simpl in Hle; lia].
  - by apply find_skip_end.
  - rewrite Hr in Hf. rewrite length_app in Hf. destruct n as [|n]; [lia|]. cbn [find_from]. rewrite Hm, Hr, Hd. cbn [orelse].
    assert (at_bolm (advance w s) = false) as Hbm.
    { unfold at_bolm, at_bol, advance. cbn [pos prev]. apply orb_false_iff. split; [apply Nat.eqb_neq; lia|].
      destruct w as [|w]; [lia|]. apply bool_decide_eq_false. rewrite Hr, take_app_le by lia. intros Hlast. apply Hl.
      rewrite <- (take_drop (S w) l). apply elem_of_app. left. by apply last_Some_elem_of. }
    rewrite (IH (drop w l) (advance w s)); [|rewrite length_drop; lia|cbn [advance rest]; rewrite Hr, drop_app_le; [done|lia]| |done|by rewrite Hbm|].
    + destruct t as [|c t]; [done|]. unfold next_line. rewrite advance_add.
      * rewrite length_drop. replace (w + (length l - w + 1)) with (length l + 1) by lia.
        change (find_from statusRe n (advance (length l + 1) s) = find_from statusRe (S n) (advance (length l + 1) s)).
        apply find_from_fuel; cbn [advance rest]; rewrite Hr, length_drop, length_app; cbn [length] in *; lia.
      * rewrite Hr, length_app, length_drop. simpl. lia.
    + intros Hi. apply Hl. rewrite <- (take_drop w l). apply elem_of_app. by right.
    + cbn [advance rest]. rewrite Hr, length_drop, length_app. lia.
Qed.

Lemma find_status_line s l t n : rest s = l ++ t -> nl ∉ l -> line_end t -> at_bolm s = true -> status_line l = true ->
  exists b v c, l = StatusKey ++ b ++ v /\ Forall is_blank b /\
    find_from statusRe n s = Some (MRes (pos s) (pos s + length l) ((1, (pos s + 7 + length b, pos s + length l)) :: c)).
Proof.
  intros Hr Hl Ht Hb Hs. destruct (match_here statusRe s) as [m|] eqn:Em.
  2:{ exfalso. revert Em. apply match_status; [done|]. rewrite Hr. by apply HasPrefix_app_r. }
  assert (find_from statusRe n s = Some m) as -> by (destruct n; cbn [find_from]; by rewrite Em).
  apply match_status_inv in Em as (_ & b & v & t' & c & Hs' & Hbl & Hv & Ht' & ->). exists b, v, c.
  assert (l = StatusKey ++ b ++ v) as ->.
  { rewrite Hr, !app_assoc in Hs'. rewrite !app_assoc. apply (line_unique _ _ t t'); try done. rewrite !elem_of_app.
    intros [[Hi|Hi]|Hi]; [revert Hi; by apply (bool_decide_eq_false_1 (nl ∈ StatusKey))| |].
    - rewrite Forall_forall in Hbl. by destruct (Hbl _ Hi).
    - rewrite Forall_forall in Hv. by apply (Hv _ Hi). }
  split_and!; [done|done|]. rewrite !length_app. change (length StatusKey) with 7. rewrite !Nat.add_assoc. done.
Qed.

Definition sub_status (new l : gostring) : gostring := if status_line l then new else l.

Lemma at_bolm_next s l t : rest s = l ++ nl :: t -> at_bolm (next_line l s) = true.
Proof.
  intros Hr. unfold next_line, at_bolm, advance. cbn [prev]. rewrite Nat.add_1_r. apply orb_true_iff. right. apply bool_decide_eq_true.
  rewrite Hr, firstn_app, take_ge by lia. replace (S (length l) - length l) with 1 by lia. simpl. rewrite take_0. apply last_snoc.
Qed.

Lemma rest_next s l t : rest s = l ++ nl :: t -> rest (next_line l s) = t.
Proof. intros Hr. unfold next_line. cbn [advance rest]. rewrite Hr, skipn_app, drop_ge by lia. replace (length l + 1 - length l) with 1 by lia. done. Qed.

(** The text of [s] on the line it is on and its newline are kept. *)
Lemma replace_keep_line f n s l t : rest s = l ++ nl :: t -> nl ∉ l -> at_bolm s && status_line l = false ->
  replace_from statusRe f n s = l ++ nl :: replace_from statusRe f n (next_line l s).
Proof.
  intros Hr Hl Hn. rewrite (replace_skip_prefix _ _ _ _ (length l + 1)).
  - rewrite Hr, firstn_app, take_ge by lia. replace (length l + 1 - length l) with 1 by lia. simpl. by rewrite take_0, <- app_assoc.
  - rewrite Hr, length_app. simpl. lia.
  - rewrite (find_skip_line s l (nl :: t)); [|done|done|right; eauto|done|done]. apply find_from_fuel; unfold next_line; cbn [advance rest];
      rewrite length_drop; lia.
Qed.

Lemma replace_keep_end f n s : at_bolm s && status_line (rest s) = false -> nl ∉ rest s -> replace_from statusRe f n s = rest s.
Proof.
  intros Hn Hl. destruct n as [|n]; [done|]. cbn [replace_from]. rewrite (find_skip_line s (rest s) []); rewrite ?app_nil_r; try done. by left.
Qed.

Lemma replace_lines new k : forall n s, length (rest s) <= k -> k <= n -> at_bolm s = true ->
  replace_from statusRe (fun _ => new) n s = Join (sub_status new <$> split_byte nl (rest s)) [nl].
Proof.
  induction k as [|k IH]; intros n s Hn Hk Hb.
  - destruct (rest s) as [|] eqn:E; [|simpl in Hn; lia]. rewrite replace_keep_end; rewrite E; [done| |apply not_elem_of_nil]. by rewrite andb_false_r.
  - destruct (line_split (rest s)) as (l & t & Hr & Hl & Ht). destruct (status_line l) eqn:Es.
    + destruct (find_status_line s l t (length (rest s)) Hr Hl Ht Hb Es) as (b & v & c & Hlen & _ & Hf).
      destruct n as [|n]; [lia|]. cbn [replace_from]. rewrite Hf. cbn [m_start m_end]. rewrite Nat.sub_diag, take_0. cbn [app].
      replace (pos s + length l - pos s) with (length l) by lia.
      assert (rest (advance (length l) s) = t) as Hrt by (cbn [advance rest]; rewrite Hr; apply drop_app_length).
      assert (at_bolm (advance (length l) s) = false) as Hbm.
      { assert (1 <= length l) by (rewrite Hlen, length_app; change (length StatusKey) with 7; lia). unfold at_bolm, at_bol, advance. cbn [pos prev].
        apply orb_false_iff. split; [apply Nat.eqb_neq; lia|]. destruct (length l) as [|j] eqn:El; [lia|]. rewrite <- El, Hr, take_app_length.
        apply bool_decide_eq_false. intros Hlast. apply Hl. by apply last_Some_elem_of. }
      destruct Ht as [->|[t' ->]].
      * rewrite replace_keep_end, Hrt; [|by rewrite Hbm|rewrite Hrt; apply not_elem_of_nil]. rewrite app_nil_r in *.
        rewrite Hr, split_byte_no_sep by done. simpl. unfold sub_status. by rewrite Es.
      * rewrite (replace_keep_line _ _ _ [] t'); [|done|apply not_elem_of_nil|by rewrite Hbm]. cbn [app].
        assert (rest (next_line [] (advance (length l) s)) = t') as Hr3 by (by apply rest_next).
        rewrite IH, Hr3; [|rewrite Hr3; rewrite Hr, length_app in Hn; simpl in Hn; lia|lia|by apply at_bolm_next with t'].
        rewrite Hr, split_byte_app by done. rewrite fmap_cons. unfold sub_status at 2. rewrite Es.
        rewrite Join_cons; [done|]. intros E%fmap_nil_inv. by apply split_byte_nonempty in E.
    + destruct Ht as [->|[t' ->]].
      * rewrite app_nil_r in Hr. rewrite replace_keep_end, Hr; [|by rewrite Hr, Es, andb_false_r|by rewrite Hr].
        rewrite split_byte_no_sep by done. simpl. unfold sub_status. by rewrite Es.
      * rewrite (replace_keep_line _ _ _ l t'); [|done|done|by rewrite Es, andb_false_r].
        rewrite Hr, split_byte_app by done. rewrite fmap_cons. unfold sub_status at 1. rewrite Es.
        rewrite Join_cons by (intros E%fmap_nil_inv; by apply split_byte_nonempty in E). f_equal. cbn [app]. f_equal.
        assert (rest (next_line l s) = t') as Hr3 by (by apply rest_next).
        rewrite IH, Hr3; [done|rewrite Hr3; rewrite Hr, length_app in Hn; simpl in Hn; lia|lia|by apply at_bolm_next with t'].
Qed.

(** Replacing the status lines, line by line. *)
Lemma replace_status doc new : ReplaceAllRe statusRe doc (fun _ => new) = Join (sub_status new <$> split_byte nl doc) [nl].
Proof. unfold ReplaceAllRe. by rewrite (replace_lines new (length doc)). Qed.

Lemma TrimSpace_blank b s : is_blank b -> TrimSpace (b :: s) = TrimSpace s.
Proof. by intros [->| ->]. Qed.

Lemma TrimSpace_blanks b s : Forall is_blank b -> TrimSpace (b ++ s) = TrimSpace s.
Proof. induction 1 as [|c b Hc _ IH]; [done|]. cbn [app]. by rewrite TrimSpace_blank. Qed.

(** The status a document's lines give. *)
Definition status_of (ls : list gostring) : gostring :=
  match List.find status_line ls with Some l => TrimSpace (drop 7 l) | None => [] end.

Lemma find_lines doc k : forall n s pre, length (rest s) <= k -> k <= n -> at_bolm s = true -> doc = pre ++ rest s -> pos s = length pre ->
  match find_from statusRe n s with Some m => TrimSpace (group doc m 1) | None => [] end = status_of (split_byte nl (rest s)).
Proof.
  unfold status_of. induction k as [|k IH]; intros n s pre Hn Hk Hb Hd Hp; destruct (line_split (rest s)) as (l & t & Hr & Hl & Ht).
  - destruct (rest s) as [|] eqn:E; [|simpl in Hn; lia]. symmetry in Hr. apply app_nil in Hr as [-> ->].
    rewrite (find_skip_line s [] []); rewrite ?E; try done; try (by left); by rewrite andb_false_r.
  - destruct (status_line l) eqn:Es.
    + destruct (find_status_line s l t n Hr Hl Ht Hb Es) as (b & v & c & Hlen & Hbl & ->).
      assert (exists ls, split_byte nl (rest s) = l :: ls) as [ls ->].
      { destruct Ht as [->|[t' ->]]; [rewrite app_nil_r in Hr; rewrite Hr, split_byte_no_sep by done|rewrite Hr, split_byte_app by done]; eauto. }
      cbn [List.find]. rewrite Es. unfold group. cbn [group_at m_caps List.find fst Nat.eqb fmap option_fmap option_map snd]. unfold slice.
      rewrite Hd, Hr, Hp. replace (length pre + 7 + length b) with (length pre + (7 + length b)) by lia.
      rewrite <- drop_drop, drop_app_length. subst l. change (drop 7 (StatusKey ++ b ++ v)) with (b ++ v).
      rewrite (TrimSpace_blanks b v Hbl). f_equal. rewrite <- drop_drop. change (drop 7 ((StatusKey ++ b ++ v) ++ t)) with ((b ++ v) ++ t).
      rewrite <- app_assoc, drop_app_length, !length_app. change (length StatusKey) with 7.
      replace (length pre + (7 + (length b + length v)) - (length pre + (7 + length b))) with (length v) by lia. apply take_app_length.
    + rewrite (find_skip_line s l t); [|done|done|done|by rewrite Es, andb_false_r|lia]. destruct Ht as [->|[t' ->]].
      * rewrite app_nil_r in Hr. rewrite Hr, split_byte_no_sep by done. cbn [List.find]. by rewrite Es.
      * assert (rest (next_line l s) = t') as Hr3 by (by apply rest_next).
        rewrite (IH n (next_line l s) (pre ++ l ++ [nl])), Hr3; [|rewrite Hr3; rewrite Hr, length_app in Hn; simpl in Hn; lia|lia|by apply at_bolm_next with t'| |].
        -- rewrite Hr, split_byte_app by done. cbn [List.find]. by rewrite Es.
        -- rewrite Hr3, Hd, Hr. by rewrite <- !app_assoc.
        -- unfold next_line. cbn [advance pos]. rewrite Hp, !length_app. simpl. lia.
Qed.

(** adrStatus, line by line. *)
Lemma adrStatus_lines doc : adrStatus doc = status_of (split_byte nl doc).
Proof. unfold adrStatus, FindSubmatchIndex. by rewrite (find_lines doc (length doc) (length doc) (start_of doc) []). Qed.

(** *** CRLF *)

Definition strip_cr (l : gostring) : gostring := if HasSuffix l [x0d] then removelast l else l.

(** Every line but the last without its carriage return. *)
Fixpoint crlf_lines (ls : list gostring) : list gostring :=
  match ls with [] => [] | [l] => [l] | l :: ls' => strip_cr l :: crlf_lines ls' end.

Lemma strip_cr_snoc l : strip_cr (l ++ [x0d]) = l.
Proof. unfold strip_cr. rewrite (proj2 (HasSuffix_spec _ _)) by eauto. apply removelast_last. Qed.

Lemma strip_cr_id l c : c <> x0d -> strip_cr (l ++ [c]) = l ++ [c].
Proof.
  intros Hc. unfold strip_cr. destruct (HasSuffix (l ++ [c]) [x0d]) eqn:E; [|done]. apply HasSuffix_spec in E as [t E].
  apply app_inj_2 in E as [_ E]; [|done]. by simplify_eq.
Qed.

Lemma strip_cr_cons c l : l <> [] -> strip_cr (c :: l) = c :: strip_cr l.
Proof.
  intros Hl. destruct (exists_last Hl) as (l' & d & ->). destruct (decide (d = x0d)) as [->|Hd].
  - rewrite (app_comm_cons l' _ c). by rewrite !strip_cr_snoc.
  - rewrite (app_comm_cons l' _ c). by rewrite !strip_cr_id.
Qed.

Lemma crlf_line l r : nl ∉ l -> ReplaceAll (l ++ nl :: r) [x0d; x0a] [x0a] = strip_cr l ++ nl :: ReplaceAll r [x0d; x0a] [x0a].
Proof.
  unfold ReplaceAll. induction l as [|c l IH]; intros Hl; [done|]. apply not_elem_of_cons in Hl as [Hc Hl].
  destruct l as [|d l].
  - destruct (decide (c = x0d)) as [->|Hd]; [done|]. change [c] with ([] ++ [c]) at 2. rewrite (strip_cr_id [] c) by done. cbn [app replace_skip HasPrefix].
    destruct (Byte.eqb x0d c) eqn:E; [apply byte_eqb_eq in E; by subst|]. done.
  - rewrite strip_cr_cons by done. cbn [app replace_skip HasPrefix]. apply not_elem_of_cons in Hl as [Hd Hl'].
    destruct (Byte.eqb x0a d) eqn:E; [apply byte_eqb_eq in E; by subst|]. rewrite andb_false_r. cbn [andb]. f_equal.
    apply IH. by apply not_elem_of_cons.
Qed.

Lemma crlf_last l : nl ∉ l -> ReplaceAll l [x0d; x0a] [x0a] = l.
Proof.
  intros Hl. apply replace_skip_absent; [|done]. destruct (Index l [x0d; x0a]) as [i|] eqn:E; [|done]. exfalso.
  apply Index_spec in E. apply Hl. rewrite E, !elem_of_app. right. left. right. left.
Qed.

Lemma strip_cr_no_nl l : nl ∉ l -> nl ∉ strip_cr l.
Proof.
  intros Hl Hi. apply Hl. unfold strip_cr in Hi. destruct (HasSuffix l [x0d]); [|done]. destruct (decide (l = [])) as [->|Hne]; [done|].
  rewrite (app_removelast_last x00 Hne). apply elem_of_app. by left.
Qed.

Lemma split_crlf doc : split_byte nl (ReplaceAll doc [x0d; x0a] [x0a]) = crlf_lines (split_byte nl doc).
Proof.
  remember (length doc) as k eqn:Hk. assert (length doc <= k) as Hle by lia. clear Hk. revert doc Hle.
  induction k as [|k IH]; intros doc Hle; (destruct (line_split doc) as (l & t & -> & Hl & [->|[t' ->]])).
  1,3: rewrite app_nil_r, crlf_last, split_byte_no_sep by done; done.
  - rewrite length_app in Hle. simpl in Hle. lia.
  - rewrite crlf_line by done. rewrite !split_byte_app by eauto using strip_cr_no_nl. rewrite IH by (rewrite length_app in Hle; simpl in Hle; lia).
    destruct (split_byte nl t') as [|u us] eqn:E; [by apply split_byte_nonempty in E|]. done.
Qed.

(** *** What a change of status keeps *)

Lemma status_strip l : status_line l = true -> status_line (strip_cr l) = true.
Proof.
  intros [t ->]%HasPrefix_spec. destruct (decide (t = [])) as [->|Hne]; [by vm_compute|].
  destruct (exists_last Hne) as (u & c & ->). rewrite (app_assoc StatusKey u [c]). destruct (decide (c = x0d)) as [->|Hc].
  - rewrite strip_cr_snoc. apply HasPrefix_app.
  - rewrite strip_cr_id by done. rewrite <- app_assoc. apply HasPrefix_app.
Qed.

Lemma sub_status_twice new new' l : status_line new = true -> sub_status new' (sub_status new l) = sub_status new' l.
Proof. intros Hn. unfold sub_status. destruct (status_line l) eqn:E; [by rewrite Hn|by rewrite E]. Qed.

Lemma sub_status_strip new new' l : status_line new = true -> sub_status new' (strip_cr (sub_status new l)) = sub_status new' (strip_cr l).
Proof. intros Hn. unfold sub_status. destruct (status_line l) eqn:E; [|done]. by rewrite !status_strip. Qed.

Lemma sub_status_crlf new new' ls : status_line new = true ->
  sub_status new' <$> crlf_lines (sub_status new <$> ls) = sub_status new' <$> crlf_lines ls.
Proof.
  intros Hn. induction ls as [|l ls IH]; [done|]. rewrite fmap_cons. destruct ls as [|l' ls]; [cbn; by rewrite sub_status_twice|].
  rewrite fmap_cons in *. change (sub_status new' (strip_cr (sub_status new l)) :: (sub_status new' <$> crlf_lines (sub_status new l' :: (sub_status new <$> ls)))
    = sub_status new' (strip_cr l) :: (sub_status new' <$> crlf_lines (l' :: ls))). by rewrite IH, sub_status_strip.
Qed.

Definition status_text (st : gostring) : gostring := "Status: " ++ st.

Lemma status_text_line st : status_line (status_text st) = true.
Proof. done. Qed.

Lemma withADRStatus_lines doc st : nl ∉ st -> split_byte nl (withADRStatus doc st) = sub_status (status_text st) <$> split_byte nl doc.
Proof.
  intros Hst. unfold withADRStatus. rewrite replace_status. apply split_byte_Join.
  - intros E%fmap_nil_inv. by apply split_byte_nonempty in E.
  - apply Forall_fmap. eapply Forall_impl; [apply split_byte_pieces|]. intros l Hl. unfold compose, sub_status. destruct (status_line l); [|done].
    unfold status_text. rewrite elem_of_app. intros [Hi|Hi]; [|done]. revert Hi. by apply (bool_decide_eq_false_1 (nl ∈ bs "Status: ")).
Qed.

Lemma adr_body_lines doc : adr_body doc = TrimRight (Join (sub_status StatusKey <$> crlf_lines (split_byte nl doc)) [nl]) newlines.
Proof. unfold adr_body. by rewrite replace_status, split_crlf. Qed.

(** Another status leaves what is digested as it was. *)
Lemma adr_body_status doc st : nl ∉ st -> adr_body (withADRStatus doc st) = adr_body doc.
Proof. intros Hst. rewrite !adr_body_lines, withADRStatus_lines by done. by rewrite sub_status_crlf. Qed.

Lemma digest_status sha doc st : nl ∉ st -> adrBodyDigest sha (withADRStatus doc st) = adrBodyDigest sha doc.
Proof. intros Hst. unfold adrBodyDigest. by rewrite adr_body_status. Qed.

(** The status that is set is the one that is read, where there is a status line. *)
Lemma adrStatus_with doc st : nl ∉ st -> adrStatus doc <> [] -> adrStatus (withADRStatus doc st) = TrimSpace st.
Proof.
  intros Hst Hs. rewrite adrStatus_lines in Hs. rewrite adrStatus_lines, withADRStatus_lines by done. unfold status_of in *.
  induction (split_byte nl doc) as [|l ls IH]; [done|]. rewrite fmap_cons. cbn [List.find] in *.
  assert (sub_status (status_text st) l = if status_line l then status_text st else l) as -> by done. destruct (status_line l) eqn:E.
  - rewrite status_text_line. change (drop 7 (status_text st)) with (bs " " ++ st). apply (TrimSpace_blank " "). by left.
  - rewrite E. by apply IH.
Qed.

(** ** File names and numbers *)

Lemma c_slug_high y : (128 <= y)%Z -> c_slug y = false.
Proof. intros Hy. unfold c_slug, cor, c_lower, c_digit. apply not_true_iff_false. rewrite orb_true_iff, !between_spec. lia. Qed.

Lemma c_id_high y : (128 <= y)%Z -> c_id y = false.
Proof. intros Hy. unfold c_id, cor at 1. rewrite c_slug_high by done. unfold one. apply Z.eqb_neq. change (bz "-") with 45%Z. lia. Qed.

Definition is_num (num : gostring) : Prop := length num = 4 /\ Forall (in_class c_digit) num.

(** The name of a decision's file is its number, its slug and the suffix. *)
Lemma adr_name_inv name num slug : adr_name name = Some (num, slug) ->
  name = num ++ "-" ++ slug ++ ".md" /\ is_num num /\ Forall (in_class c_id) slug.
Proof.
  unfold adr_name, adrFileRe. cbn [cats]. rewrite find_bol. unfold match_here. rewrite run_Cat. intros Hf.
  match type of Hf with _ <$> ?x = _ => destruct x as [m|] eqn:H; [|done] end. cbn in Hf. injection Hf as Hn Hs. revert Hn Hs.
  apply run_captures in H as (s0 & K0 & H); [|done]. inversion K0; subst s0. rewrite run_Cat, run_Grp in H.
  apply run_captures in H as (s1 & K1 & H); [|done]. apply mt_digits in K1 as (n & Hr1 & Hp1 & Hl & Hd). rewrite run_Cat in H.
  apply run_captures in H as (s2 & K2 & H); [|done]. apply mt_lit_inv in K2 as [Hr2 Hp2]; [|by apply ascii_lit]. rewrite run_Cat, run_Grp in H.
  apply run_captures in H as (s3 & K3 & H); [|done]. rewrite run_Cat in H.
  apply run_captures in H as (s4 & K4 & H); [|done]. apply mt_lit_inv in K4 as [Hr4 Hp4]; [|by apply ascii_lit].
  apply run_captures in H as (s5 & K5 & H); [|done]. inversion K5 as [| | | | | | | | | |? Heol| | |]; subst s4. injection H as <-.
  inversion K3 as [| |? ? ? s6 ? Ha Hb| | | | | | | | | | |]; subst. apply mt_cls_inv in Ha as (b & Hr6 & Hp6 & Hb6); [|exact c_slug_high].
  apply mt_star_class in Hb as (v & Hr7 & Hp7 & Hv); [|exact c_id_high].
  assert (rest s5 = []) as Hend by (unfold at_eol in Heol; by destruct (rest s5)). rewrite Hend in Hr4.
  change (rest (start_of name)) with name in Hr1. change (pos (start_of name)) with 0 in *. rewrite Hr2, Hr6, Hr7, Hr4, app_nil_r in Hr1.
  assert (name = n ++ "-" ++ (b :: v) ++ ".md") as Hname by (rewrite Hr1; by rewrite <- ?app_assoc).
  assert (slice name 0 (pos s1) = n) as Hg1.
  { rewrite Hname. apply (slice_mid [] n ("-" ++ (b :: v) ++ ".md")); [done|]. simpl. lia. }
  assert (slice name (pos s2) (pos s3) = b :: v) as Hg2.
  { rewrite Hname. rewrite (app_assoc n "-"). apply slice_mid; rewrite length_app; change (length (bs "-")) with 1 in *; cbn [length]; lia. }
  intros <- <-. unfold group. cbn [group_at m_caps List.find fst Nat.eqb fmap option_fmap option_map snd]. rewrite Hg1, Hg2.
  split_and!; [done|done|]. constructor; [|done]. destruct Hb6 as [Hb1 Hb2]. split; [done|]. unfold c_id, cor. by rewrite Hb2.
Qed.

Lemma slug_inv slug : MatchString slugRe slug = true -> exists c v, slug = c :: v /\ in_class c_slug c /\ Forall (in_class c_id) v.
Proof.
  unfold slugRe. cbn [cats]. intros (s' & Hm)%MatchString_bol. inversion Hm as [| |? ? ? s1 ? Ha Hb| | | | | | | | | | |]; subst.
  apply mt_cls_inv in Ha as (c & Hr & _ & Hc1 & Hc2); [|intros y Hy; unfold c_lower; apply not_true_iff_false; rewrite between_spec; lia].
  assert (forall y, c_slug y = true -> (y < 128)%Z /\ c_id y = true) as Hs.
  { intros y Hy. split; [|unfold c_id, cor; by rewrite Hy]. unfold c_slug, cor, c_lower, c_digit in Hy. rewrite orb_true_iff, !between_spec in Hy. lia. }
  assert (within c_id (Cat (Star (Cls c_slug)) (Cat (Star (Cat (lit "-") (Plus (Cls c_slug)))) Eol))) as Hw.
  { cbn [within Plus lit]. split_and!; try done. intros y Hy%Z.eqb_eq. subst y. done. }
  assert (rest s' = []) as He.
  { inversion Hb as [| |? ? ? s2 ? _ Hb2| | | | | | | | | | |]; subst. inversion Hb2 as [| |? ? ? s3 ? _ Hb3| | | | | | | | | | |]; subst.
    inversion Hb3 as [| | | | | | | | | |? He| | |]; subst. unfold at_eol in He. by destruct (rest s'). }
  destruct (mt_within _ _ _ _ Hb Hw) as (v & Hv & _ & Hf). rewrite He, app_nil_r in Hv. change (rest (start_of slug)) with slug in Hr.
  exists c, v. rewrite Hr, Hv. split_and!; [done| |done]. split; [done|]. unfold c_slug, cor. by rewrite Hc2.
Qed.

Lemma id_inv id : MatchString adrIDRe id = true -> exists num, id = "ADR-" ++ num /\ is_num num.
Proof.
  unfold adrIDRe. cbn [cats]. intros (s' & Hm)%MatchString_bol. inversion Hm as [| |? ? ? s1 ? Ha Hb| | | | | | | | | | |]; subst.
  change (mt (lit "ADR-") (start_of id) s1) in Ha. apply mt_lit_inv in Ha as [Hr _]; [|by apply ascii_lit]. inversion Hb as [| |? ? ? s2 ? Hc He| | | | | | | | | | |]; subst.
  apply (mt_digits 4) in Hc as (v & Hv & _ & Hl & Hf). inversion He as [| | | | | | | | | |? He'| | |]; subst.
  unfold at_eol in He'. destruct (rest s') eqn:E; [|done]. rewrite app_nil_r in Hv. exists v. change (rest (start_of id)) with id in Hr.
  rewrite Hr, Hv. done.
Qed.

Lemma num_unique num num' (u u' : gostring) : is_num num -> is_num num' -> num ++ u = num' ++ u' -> num = num' /\ u = u'.
Proof. intros [Hl _] [Hl' _] E. apply app_inj_1 in E; [done|congruence]. Qed.

(** The name NewDecision gives is that of a decision. *)
Lemma adr_name_new num slug : is_num num -> MatchString slugRe slug = true -> adr_name (num ++ "-" ++ slug ++ ".md") = Some (num, slug).
Proof.
  intros Hn (c & v & -> & Hc & Hv)%slug_inv. set (name := num ++ "-" ++ (c :: v) ++ ".md").
  assert (exists s', mt adrFileRe (start_of name) s') as [s' Hm].
  { destruct Hn as [Hl Hd]. destruct (mt_digits_intro num (start_of name) ("-" ++ (c :: v) ++ ".md") Hd eq_refl) as (s1 & H1 & R1). rewrite Hl in H1.
    destruct (mt_lit "-" (ascii_lit "-" eq_refl) s1 _ R1) as (s2 & H2 & R2).
    destruct (mt_star_intro c_id v (advance 1 s2) ".md") as (s3 & H3 & R3); [done|cbn [advance rest]; by rewrite R2|].
    destruct (mt_lit ".md" (ascii_lit ".md" eq_refl) s3 []) as (s4 & H4 & R4); [by rewrite app_nil_r|]. exists s4.
    unfold adrFileRe. cbn [cats]. eapply mt_cat; [by apply mt_bol|]. eapply mt_cat; [apply mt_grp; exact H1|]. eapply mt_cat; [exact H2|].
    eapply mt_cat; [apply mt_grp; eapply mt_cat; [|exact H3]|eapply mt_cat; [exact H4|apply mt_eol; unfold at_eol; by rewrite R4]].
    destruct Hc as [Hc1 Hc2]. apply (mt_cls _ _ (bz c) 1); [|done]. rewrite R2. cbn. by rewrite Hc1. }
  destruct (adr_name name) as [[n' s2]|] eqn:E.
  - destruct (adr_name_inv _ _ _ E) as (Hname & Hn' & _). apply num_unique in Hname as [-> Hs]; [|done|done].
    apply app_inj_1 in Hs as [_ Hs]; [|done]. apply app_inj_2 in Hs as [-> _]; done.
  - exfalso. unfold adr_name in E. apply MatchString_mt in Hm. unfold MatchString in Hm. by destruct (FindSubmatchIndex adrFileRe name).
Qed.

Definition superseded_by (id : gostring) : gostring := "superseded by " ++ id.

Definition pad4_ok (n : Z) : bool :=
  let p := pad4 n in
  Nat.eqb (length p) 4 && forallb (fun b => c_digit (bz b)) p && match Atoi_digits p with Some k => Z.eqb k n | None => false end.

Definition digits : list Z := [0; 1; 2; 3; 4; 5; 6; 7; 8; 9]%Z.

Lemma pad4_all : forallb (fun a => forallb (fun b => forallb (fun c => forallb (fun d =>
  pad4_ok (1000 * a + 100 * b + 10 * c + d)) digits) digits) digits) digits = true.
Proof. by vm_compute. Qed.

Lemma digits_all z : (0 <= z <= 9)%Z -> In z digits.
Proof. intros Hz. unfold digits. cbn [In]. lia. Qed.

Lemma superseded_not_proposed (id : gostring) : TrimSpace (superseded_by id) <> ADRProposed.
Proof.
  change (TrimSpace (superseded_by id)) with (TrimRight (superseded_by id) spaces). intros E.
  destruct (TrimRight_prefix (superseded_by id) spaces) as [q Hq]. rewrite E in Hq. discriminate Hq.
Qed.

(** The numbers up to 9999 have four digits and are read back. *)
Lemma pad4_spec n : (0 < n <= 9999)%Z -> is_num (pad4 n) /\ Atoi_digits (pad4 n) = Some n.
Proof.
  intros Hn. assert (pad4_ok n = true) as H.
  { pose proof pad4_all as Hall. rewrite forallb_forall in Hall. pose proof (Hall _ (digits_all (n / 1000) ltac:(Z.to_euclidean_division_equations; lia))) as Ha.
    rewrite forallb_forall in Ha. pose proof (Ha _ (digits_all (n / 100 mod 10) ltac:(Z.to_euclidean_division_equations; lia))) as Hb.
    rewrite forallb_forall in Hb. pose proof (Hb _ (digits_all (n / 10 mod 10) ltac:(Z.to_euclidean_division_equations; lia))) as Hc.
    rewrite forallb_forall in Hc. pose proof (Hc _ (digits_all (n mod 10) ltac:(Z.to_euclidean_division_equations; lia))) as Hd.
    by replace (1000 * (n / 1000) + 100 * (n / 100 mod 10) + 10 * (n / 10 mod 10) + n mod 10)%Z with n in Hd by (Z.to_euclidean_division_equations; lia). }
  unfold pad4_ok in H. rewrite !andb_true_iff, Nat.eqb_eq, forallb_forall in H. destruct H as [[Hl Hd] Ha].
  split; [|destruct (Atoi_digits (pad4 n)); [|done]; by apply Z.eqb_eq in Ha as ->]. split; [done|]. apply Forall_forall. intros b Hb%list_elem_of_In%Hd.
  split; [|done]. apply between_spec in Hb. apply Z.ltb_lt. lia.
Qed.

Lemma num_no_nl num : is_num num -> nl ∉ num.
Proof. intros [_ Hf] Hi. rewrite Forall_forall in Hf. by destruct (Hf _ Hi). Qed.

(** ** Worlds *)

Lemma elem_of_entries w n : n ∈ entries w <-> is_Some (dw_Docs w !! n).
Proof. unfold entries. rewrite sort_Strings_perm, elem_of_elements. apply elem_of_dom. Qed.

Lemma elem_of_glob w num n : n ∈ glob_num w num <->
  is_Some (dw_Docs w !! n) /\ HasPrefix n (num ++ "-") = true /\ HasSuffix n ".md" = true.
Proof.
  unfold glob_num. rewrite list_elem_of_In, filter_In, <- list_elem_of_In, elem_of_entries, andb_true_iff. done.
Qed.

Lemma adr_name_glob w name num slug : adr_name name = Some (num, slug) -> is_Some (dw_Docs w !! name) -> name ∈ glob_num w num.
Proof.
  intros (-> & Hn & _)%adr_name_inv Hd. apply elem_of_glob. split_and!; [done| |].
  - rewrite app_assoc. apply HasPrefix_app.
  - apply HasSuffix_spec. exists (num ++ "-" ++ slug). by rewrite <- !app_assoc.
Qed.

(** The files of decisions/ a number finds are named as decisions are. *)
Definition well_named (w : DWorld) : Prop := forall name num, is_num num -> name ∈ glob_num w num -> exists slug, adr_name name = Some (num, slug).

(** The file of a recorded decision is there. *)
Definition records_have_files (w : DWorld) : Prop := forall id, is_Some (dw_Records w !! id) ->
  exists name num slug, id = "ADR-" ++ num /\ adr_name name = Some (num, slug) /\ is_Some (dw_Docs w !! name).

(** A recorded decision holds the text it was recorded with. *)
Definition records_held (sha : gostring -> gostring) (w : DWorld) : Prop := forall name num slug doc rec,
  adr_name name = Some (num, slug) -> dw_Docs w !! name = Some doc -> dw_Records w !! ("ADR-" ++ num) = Some rec -> dr_BodySHA256 rec = adrBodyDigest sha doc.

(** A recorded decision, APEX's own apart, is not proposed. *)
Definition records_decided (w : DWorld) : Prop := forall name num slug doc,
  adr_name name = Some (num, slug) -> num <> bs "0001" -> dw_Docs w !! name = Some doc -> is_Some (dw_Records w !! ("ADR-" ++ num)) -> adrStatus doc <> ADRProposed.

Record Consistent (sha : gostring -> gostring) (w : DWorld) : Prop := MkConsistent {
  con_named : well_named w; con_files : records_have_files w; con_held : records_held sha w; con_decided : records_decided w }.

Lemma adr_id_inj (n n' : gostring) : bs "ADR-" ++ n = bs "ADR-" ++ n' -> n = n'.
Proof. apply app_inv_head. Qed.

(** The file of an id in a world whose files are well named. *)
Lemma adrFile_inv w id name : well_named w -> adrFile w id = Some name -> exists num slug,
  id = "ADR-" ++ num /\ is_num num /\ adr_name name = Some (num, slug) /\ glob_num w num = [name] /\ is_Some (dw_Docs w !! name).
Proof.
  intros Hw. unfold adrFile. destruct (MatchString adrIDRe id) eqn:E; [|done]. apply id_inv in E as (num & -> & Hn). rewrite TrimPrefix_app.
  destruct (glob_num w num) as [|n [|]] eqn:Eg; try done. intros [= ->]. assert (name ∈ glob_num w num) as Hi by (rewrite Eg; left).
  destruct (Hw name num Hn Hi) as [slug Hs]. exists num, slug. split_and!; try done. by apply elem_of_glob in Hi as [? _].
Qed.

Lemma highest_step slug names acc m : foldl (number_step slug) acc names = Some m -> exists a, acc = Some a /\ (a <= m)%Z /\
  forall name num s k, name ∈ names -> adr_name name = Some (num, s) -> s <> slug /\ (Atoi_digits num = Some k -> (k <= m)%Z).
Proof.
  revert acc. induction names as [|x names IH]; intros acc H; simpl in H.
  - exists m. split_and!; [done|lia|]. intros name num s k Hi. by apply not_elem_of_nil in Hi.
  - apply IH in H as (a & Ha & Hle & Hall). unfold number_step in Ha. destruct acc as [a0|]; [|done]. cbn in Ha. exists a0. split; [done|].
    destruct (adr_name x) as [[num s]|] eqn:Ex.
    + destruct (bool_decide (s = slug)) eqn:Es; [done|]. apply bool_decide_eq_false in Es. injection Ha as Ha. split.
      * destruct (Atoi_digits num) as [k|]; [destruct (Z.ltb_spec a0 k)|]; lia.
      * intros name num' s' k [->|Hi]%elem_of_cons Hn; [|by eapply Hall]. rewrite Ex in Hn. injection Hn as <- <-. split; [done|].
        intros Hk. rewrite Hk in Ha. destruct (Z.ltb_spec a0 k); lia.
    + injection Ha as ->. split; [done|]. intros name num' s' k [->|Hi]%elem_of_cons Hn; [congruence|by eapply Hall].
Qed.

Lemma pad4_next w slug m : highest slug w = Some m -> (m < 9999)%Z ->
  is_num (pad4 (m + 1)) /\ Atoi_digits (pad4 (m + 1)) = Some (m + 1)%Z.
Proof. intros (a & [= <-] & Ha & _)%highest_step Hm. apply pad4_spec. lia. Qed.

(** The number a new decision gets is no other's. *)
Lemma fresh_number w slug m name num s : highest slug w = Some m -> (m < 9999)%Z -> is_Some (dw_Docs w !! name) -> adr_name name = Some (num, s) ->
  num <> pad4 (m + 1).
Proof.
  intros Hh Hm Hd Hn ->. destruct (pad4_next w slug m) as (_ & Hk); [done|done|]. apply highest_step in Hh as (a & [= <-] & Ha & Hall).
  apply elem_of_entries in Hd. destruct (Hall name _ s (m + 1)%Z Hd Hn) as [_ Hle]. specialize (Hle Hk). lia.
Qed.

(** ** What keeps a world consistent *)

Lemma well_named_sub w w' : (forall n, is_Some (dw_Docs w' !! n) -> is_Some (dw_Docs w !! n)) -> well_named w -> well_named w'.
Proof. intros Hs Hn n num Hnum (Hd & Hp)%elem_of_glob. apply (Hn n num Hnum), elem_of_glob. auto. Qed.

Lemma set_doc_some w name doc n : is_Some (dw_Docs (set_doc name doc w) !! n) <-> n = name \/ is_Some (dw_Docs w !! n).
Proof. cbn. rewrite lookup_insert_is_Some. destruct (decide (name = n)); naive_solver. Qed.

Lemma set_doc_inv w name doc n d : dw_Docs (set_doc name doc w) !! n = Some d -> n = name /\ d = doc \/ n <> name /\ dw_Docs w !! n = Some d.
Proof. cbn. rewrite lookup_insert_Some. naive_solver. Qed.

Lemma del_doc_inv w name n d : dw_Docs (del_doc name w) !! n = Some d -> n <> name /\ dw_Docs w !! n = Some d.
Proof. cbn. rewrite lookup_delete_Some. naive_solver. Qed.

Section consistent.
Context (sha : gostring -> gostring).

(** Another text of the same body, not proposed where it is recorded. *)
Lemma Consistent_text w name doc doc' : Consistent sha w -> dw_Docs w !! name = Some doc -> adr_body doc' = adr_body doc ->
  (forall num slug, adr_name name = Some (num, slug) -> num <> bs "0001" -> is_Some (dw_Records w !! ("ADR-" ++ num)) -> adrStatus doc' <> ADRProposed) ->
  Consistent sha (set_doc name doc' w).
Proof.
  intros [Hn Hf Hh Hd] Hl Hb Hs. split.
  - eapply well_named_sub; [|done]. intros n [->|Hx]%set_doc_some; eauto.
  - intros id Hid. destruct (Hf id Hid) as (n & num & slug & -> & Ha & Hx). exists n, num, slug. rewrite set_doc_some. auto.
  - intros n num slug d rec Ha [[-> ->]|[_ Hx]]%set_doc_inv Hr; [|by eapply Hh]. unfold adrBodyDigest. rewrite Hb. by eapply Hh.
  - intros n num slug d Ha H1 [[-> ->]|[_ Hx]]%set_doc_inv Hr; [by eapply Hs|by eapply Hd].
Qed.

(** A file of a number that has no record. *)
Lemma Consistent_new w name doc num slug : Consistent sha w -> adr_name name = Some (num, slug) -> dw_Records w !! ("ADR-" ++ num) = None ->
  Consistent sha (set_doc name doc w).
Proof.
  intros [Hn Hf Hh Hd] Ha Hr. split.
  - intros n num' Hnum ([->|Hx]%set_doc_some & Hp & Hs)%elem_of_glob; [|apply (Hn n num' Hnum), elem_of_glob; auto].
    exists slug. rewrite Ha. destruct (adr_name_inv _ _ _ Ha) as (-> & Hnum' & _). apply HasPrefix_spec in Hp as [t Ht]. rewrite <- app_assoc in Ht.
    by apply num_unique in Ht as [-> _].
  - intros id Hid. destruct (Hf id Hid) as (n & num' & slug' & -> & Ha' & Hx). exists n, num', slug'. rewrite set_doc_some. auto.
  - intros n num' slug' d rec Ha' [[-> ->]|[_ Hx]]%set_doc_inv Hr'; [|by eapply Hh]. cbn in Hr'. congruence.
  - intros n num' slug' d Ha' H1 [[-> ->]|[_ Hx]]%set_doc_inv Hr'; [|by eapply Hd]. cbn in Hr'. rewrite Ha in Ha'. simplify_eq. rewrite Hr in Hr'. by destruct Hr'.
Qed.

Lemma Consistent_del w name num slug : Consistent sha w -> adr_name name = Some (num, slug) -> dw_Records w !! ("ADR-" ++ num) = None ->
  Consistent sha (del_doc name w).
Proof.
  intros [Hn Hf Hh Hd] Ha Hr. split.
  - eapply well_named_sub; [|done]. intros n [d Hx]. apply del_doc_inv in Hx as [_ Hx]. eauto.
  - intros id Hid. destruct (Hf id Hid) as (n & num' & slug' & -> & Ha' & Hx). exists n, num', slug'. split_and!; [done|done|].
    cbn. rewrite lookup_delete_ne; [done|]. intros ->. rewrite Ha in Ha'. simplify_eq. cbn in Hid. rewrite Hr in Hid. by destruct Hid.
  - intros n num' slug' d rec Ha' [_ Hx]%del_doc_inv Hr'. by eapply Hh.
  - intros n num' slug' d Ha' H1 [_ Hx]%del_doc_inv Hr'. by eapply Hd.
Qed.

(** A record of the text its decision has, by the one file of its number. *)
Lemma Consistent_record w name num slug doc rec : Consistent sha w -> adr_name name = Some (num, slug) -> dw_Docs w !! name = Some doc ->
  (forall n s, adr_name n = Some (num, s) -> is_Some (dw_Docs w !! n) -> n = name) ->
  dr_BodySHA256 rec = adrBodyDigest sha doc -> (num <> bs "0001" -> adrStatus doc <> ADRProposed) ->
  Consistent sha (set_records (<["ADR-" ++ num := rec]> (dw_Records w)) w).
Proof.
  intros [Hn Hf Hh Hd] Ha Hx Hu Hb Hs. split; [done| | |].
  - intros id Hid. cbn in Hid. rewrite lookup_insert_is_Some in Hid. destruct Hid as [<-|[_ Hid]]; [|by apply Hf]. exists name, num, slug. eauto.
  - intros n num' slug' d rec' Ha' Hx' Hr'. cbn in Hx', Hr'. rewrite lookup_insert_Some in Hr'. destruct Hr' as [[<-%adr_id_inj ->]|[_ Hr']]; [|by eapply Hh].
    rewrite (Hu n slug') in Hx'; [by simplify_eq|done|by eexists].
  - intros n num' slug' d Ha' H1 Hx' Hr'. cbn in Hx', Hr'. rewrite lookup_insert_is_Some in Hr'. destruct Hr' as [<-%adr_id_inj|[_ Hr']]; [|by eapply Hd].
    rewrite (Hu n slug') in Hx'; [simplify_eq; by apply Hs|done|by eexists].
Qed.

(** The file [adrFile] finds is the only one of its number. *)
Lemma adrFile_unique w id name : well_named w -> adrFile w id = Some name -> exists num slug doc,
  id = "ADR-" ++ num /\ adr_name name = Some (num, slug) /\ dw_Docs w !! name = Some doc /\
  (forall n s, adr_name n = Some (num, s) -> is_Some (dw_Docs w !! n) -> n = name).
Proof.
  intros Hw (num & slug & -> & Hn & Ha & Hg & [doc Hd])%adrFile_inv; [|done]. exists num, slug, doc. split_and!; try done.
  intros n s Hs Hx. pose proof (adr_name_glob w n num s Hs Hx) as Hi. rewrite Hg in Hi. by apply list_elem_of_singleton in Hi.
Qed.

Lemma highest_unrecorded w slug m : Consistent sha w -> highest slug w = Some m -> (m < 9999)%Z -> dw_Records w !! ("ADR-" ++ pad4 (m + 1)) = None.
Proof.
  intros Hc Hh Hm. apply eq_None_not_Some. intros Hr. destruct (con_files _ _ Hc _ Hr) as (n & num & s & E%adr_id_inj & Ha & Hx).
  eapply fresh_number; eauto.
Qed.
End consistent.

(** ** The commands keep a world consistent *)

Section commands.
Context (H : DHost).
Abbreviation Con := (Consistent (dh_sha256 H)).

Lemma wp_fails_at (I : DWorld -> Prop) s e (Q : unit -> DWorld -> Prop) w : I w -> Q tt w -> wp I (fails_at H s e) Q w.
Proof. intros Hi Hq. by apply wp_refuse. Qed.

Lemma wp_readDoc (I : DWorld -> Prop) s name (Q : gostring -> DWorld -> Prop) w : I w -> (forall d, dw_Docs w !! name = Some d -> Q d w) -> wp I (readDoc H s name) Q w.
Proof.
  intros Hi Hq. unfold readDoc. apply wp_bind, wp_fails_at; [done|]. wps. destruct (dw_Docs w !! name); [by apply Hq|done].
Qed.

Lemma wp_writeDoc (I : DWorld -> Prop) s name doc (Q : unit -> DWorld -> Prop) w : I w -> Q tt (set_doc name doc w) -> wp I (writeDoc H s name doc) Q w.
Proof. intros Hi Hq. unfold writeDoc. apply wp_bind, wp_fails_at; [done|]. by wps. Qed.

Lemma wp_saveRecords (I : DWorld -> Prop) r (Q : unit -> DWorld -> Prop) w : I w -> Q tt (set_records r w) -> wp I (saveDecisionRecords H r) Q w.
Proof. intros Hi Hq. unfold saveDecisionRecords. apply wp_bind, wp_fails_at; [done|]. by wps. Qed.

(** A commit leaves the world, or puts some of the paths back. *)
Lemma wp_commit (I : DWorld -> Prop) before paths (Q : gostring -> DWorld -> Prop) w :
  I w -> (forall sha, Q sha w) -> (forall r, dh_commit H = DCommitRefused r -> I (foldl (restore_path before r) w paths)) ->
  wp I (commitOwnRecord H before paths) Q w.
Proof.
  intros Hi Hq Hr. unfold commitOwnRecord. destruct (negb (dh_worktree H)); [by wps|]. destruct (dh_commit H) eqn:E; [by wps|by wps|].
  wps. by apply Hr.
Qed.

Lemma superseded_no_nl num : is_num num -> nl ∉ superseded_by ("ADR-" ++ num).
Proof.
  intros Hn. unfold superseded_by. rewrite !elem_of_app. intros [Hi|[Hi|Hi]]; [| |by eapply num_no_nl].
  - revert Hi. by apply (bool_decide_eq_false_1 (nl ∈ bs "superseded by ")).
  - revert Hi. by apply (bool_decide_eq_false_1 (nl ∈ bs "ADR-")).
Qed.

(** The decision a new one supersedes is one of the world's, decided or proposed. *)
Lemma wp_supersedable (I : DWorld -> Prop) sup (Q : option (gostring * gostring) -> DWorld -> Prop) w : I w ->
  (sup = [] -> Q None w) ->
  (forall n d, adrFile w sup = Some n -> dw_Docs w !! n = Some d -> adrStatus d <> [] -> Q (Some (n, d)) w) ->
  wp I (supersedable H sup) Q w.
Proof.
  intros Hi H0 H1. unfold supersedable. destruct (sup =s "") eqn:E; [wps; apply H0; by apply bool_decide_eq_true in E|].
  wps. destruct (adrFile w sup) as [n|] eqn:Ef; [|by wps]. apply wp_bind, wp_readDoc; [done|]. intros d Hd. wps. apply H1; [done|done|].
  intros E0. rewrite E0 in *. by vm_compute in H2.
Qed.

(** A new decision's files: the new one, and the old one with the status [st]. *)
Lemma Consistent_superseded w o d num slug name body m :
  Con w -> highest slug w = Some m -> (m < 9999)%Z -> num = pad4 (m + 1) -> adr_name name = Some (num, slug) ->
  dw_Docs w !! o = Some d -> adrStatus d <> [] ->
  forall b1 b2 : bool,
  let w1 := if b1 then set_doc name body w else w in
  let w2 := if b2 then set_doc o (withADRStatus d (superseded_by ("ADR-" ++ num))) w1 else w1 in Con w2.
Proof.
  intros Hc Hh Hm -> Hn Ho Hs b1 b2 w1 w2. destruct (pad4_next w slug m) as (Hp & _); [done|done|].
  assert (dw_Records w !! ("ADR-" ++ pad4 (m + 1)) = None) as Hr by (by eapply highest_unrecorded).
  assert (Con w1) as H1 by (subst w1; destruct b1; [by eapply Consistent_new|done]). subst w2. destruct b2; [|done].
  assert (o <> name) as Hne by (intros ->; eapply fresh_number; eauto).
  apply Consistent_text with d; [done| |by apply adr_body_status, superseded_no_nl|].
  - subst w1. destruct b1; [|done]. cbn. by rewrite lookup_insert_ne.
  - intros n' s' _ _ _. rewrite adrStatus_with; [apply superseded_not_proposed|by apply superseded_no_nl|done].
Qed.

(** What a refused commit leaves of a new decision's files. *)
Lemma restore_new w o d d' name body r : dw_Docs w !! name = None -> dw_Docs w !! o = Some d ->
  foldl (restore_path w r) (set_doc o d' (set_doc name body w)) [DDoc name; DDoc o] =
  (let w1 := if negb (r (DDoc name)) then set_doc name body w else w in if negb (r (DDoc o)) then set_doc o d' w1 else w1).
Proof.
  intros Hn Ho. assert (o <> name) as Hne by congruence. cbn [foldl restore_path]. unfold restore_path.
  destruct (r (DDoc name)), (r (DDoc o)); rewrite ?Hn, ?Ho; unfold set_doc, del_doc; cbn [negb dw_Docs dw_Records]; try done;
    (destruct w as [docs recs]; f_equal; apply map_eq; intros i; cbn in *; destruct (decide (i = o)) as [->|]; [|destruct (decide (i = name)) as [->|]];
     simplify_map_eq; done).
Qed.

Lemma wp_create (I : DWorld -> Prop) name body (Q : unit -> DWorld -> Prop) w : I w ->
  (dw_Docs w !! name = None -> forall b, I (set_doc name b w)) -> (dw_Docs w !! name = None -> Q tt (set_doc name body w)) ->
  wp I (create_adr H name body) Q w.
Proof.
  intros Hi Hw Hq. unfold create_adr. wps. apply orb_false_iff in H0 as [_ H0]. apply bool_decide_eq_false, eq_None_not_Some in H0.
  destruct (dh_fails H WriteADR) eqn:E; [unfold fails_at; rewrite E; by apply Hw|].
  unfold fails_at at 1. rewrite E. apply wp_ret, wp_fails_at; auto.
Qed.

Lemma NewDecision_consistent slug title sup w : Con w -> (forall m, highest slug w = Some m -> (m < 9999)%Z) ->
  wp Con (NewDecision H slug title sup) (fun _ => Con) w.
Proof.
  intros Hc Hb. unfold NewDecision. wps. apply negb_false_iff in H0. apply wp_supersedable; [done| |].
  - intros ->. wps. destruct (highest slug w) as [m|] eqn:Hh; [|by wps]. specialize (Hb m eq_refl).
    destruct (pad4_next w slug m) as (Hp & _); [done|done|]. pose proof (adr_name_new _ _ Hp H0) as Hn.
    assert (dw_Records w !! ("ADR-" ++ pad4 (m + 1)) = None) as Hr by (by eapply highest_unrecorded).
    apply wp_bind, wp_fails_at; [done|]. apply wp_bind, wp_create; [done|intros _ b; by eapply Consistent_new|]. intros Hx. wps.
    apply wp_commit; [by eapply Consistent_new|intros; by eapply Consistent_new|]. intros r _. cbn [foldl restore_path]. unfold restore_path.
    destruct (r _); [rewrite Hx; eapply Consistent_del; [by eapply Consistent_new|done|done]|by eapply Consistent_new].
  - intros o d Hf Ho Hs. wps. destruct (highest slug w) as [m|] eqn:Hh; [|by wps]. specialize (Hb m eq_refl).
    destruct (pad4_next w slug m) as (Hp & _); [done|done|]. pose proof (adr_name_new _ _ Hp H0) as Hn.
    pose proof (fun body => Consistent_superseded w o d _ slug _ body m Hc Hh Hb eq_refl Hn Ho Hs) as HC.
    apply wp_bind, wp_fails_at; [done|]. apply wp_bind, wp_create; [done|intros _ b; apply (HC b true false)|]. intros Hx.
    apply wp_bind, wp_writeDoc; [apply (HC _ true false)|]. apply wp_bind.
    apply wp_commit; [apply (HC _ true true)|intros sha'; wps; apply (HC _ true true)|]. intros r _. rewrite (restore_new w o d) by done. apply HC.
Qed.

(** A refused commit puts all its paths back, or none. *)
Definition restores_together : Prop := forall r, dh_commit H = DCommitRefused r -> forall p q, r p = r q.

Lemma Consistent_accepted w id name doc by_ : Con w -> adrFile w id = Some name -> dw_Docs w !! name = Some doc -> adrStatus doc <> [] ->
  Con (set_doc name (withADRStatus doc ADRAccepted) w) /\
  Con (set_records (<[id := MkDecisionRecord (dh_now H) by_ (digest H (withADRStatus doc ADRAccepted)) None]> (dw_Records w)) (set_doc name (withADRStatus doc ADRAccepted) w)).
Proof.
  intros Hc Hf Hd Hs. assert (nl ∉ ADRAccepted) as Hnl by (by apply (bool_decide_eq_false_1 (nl ∈ ADRAccepted))).
  assert (adrStatus (withADRStatus doc ADRAccepted) <> ADRProposed) as Hst by (by rewrite adrStatus_with).
  assert (Con (set_doc name (withADRStatus doc ADRAccepted) w)) as H1 by (apply Consistent_text with doc; [done|done|by apply adr_body_status|done]).
  split; [done|]. apply adrFile_unique in Hf as (num & slug & doc' & -> & Ha & Hd' & Hu); [|apply Hc].
  apply (Consistent_record _ (set_doc name (withADRStatus doc ADRAccepted) w) name num slug (withADRStatus doc ADRAccepted)); try done.
  - cbn. by rewrite lookup_insert_eq.
  - intros n s Hns [->|Hx]%set_doc_some; eauto.
Qed.

Lemma AcceptDecision_consistent id by_ w : restores_together -> Con w -> wp Con (AcceptDecision H id by_) (fun _ => Con) w.
Proof.
  intros Hr Hc. unfold AcceptDecision, d_refuseOnChangeBranch. wps. destruct (adrFile w id) as [name|] eqn:Hf; [|by wps].
  apply wp_bind, wp_readDoc; [done|]. intros doc Hd. apply wp_if; intros Hst.
  - destruct (_ && _) eqn:E; [|by wps]. apply andb_true_iff in E as [Ha%bool_decide_eq_true _]. unfold recordAcceptedDecision. wps.
    assert (forall w0, Con (set_records (<[id := MkDecisionRecord (dh_now H) w0 (digest H doc) None]> (dw_Records w)) w)) as HC.
    { intros w0. apply adrFile_unique in Hf as (num & slug & doc' & -> & Hn & Hd' & Hu); [|apply Hc]. simplify_eq.
      eapply Consistent_record; try done. by rewrite Ha. }
    apply wp_saveRecords; [done|]. wps. apply wp_commit; [done|intros; by wps|]. intros r _. cbn. unfold restore_path. destruct (r DRecords); [by destruct w|done].
  - apply negb_false_iff, bool_decide_eq_true in Hst. wps. unfold write_acceptance.
    destruct (Consistent_accepted w id name doc (TrimSpace by_) Hc Hf Hd) as [HC1 HC2]; [by rewrite Hst|].
    wps. apply wp_writeDoc; [done|]. apply wp_bind, wp_saveRecords; [done|]. apply wp_bind, wp_commit; [done|intros; by wps|].
    intros r E. specialize (Hr r E (DDoc name) DRecords). cbn. unfold restore_path. rewrite Hr. destruct (r DRecords); [|done].
    rewrite Hd. unfold set_records, set_doc. cbn. rewrite insert_insert_eq, insert_id by done. by destruct w.
Qed.

Lemma wp_lifted w : Con w -> forall ids recs, Con (set_records recs w) ->
  wp Con (lifted_records H ids recs) (fun r w' => w' = w /\ Con (set_records r w)) w.
Proof.
  intros Hc. induction ids as [|id ids IH]; intros recs Hrec; cbn [lifted_records]; [by wps|]. wps.
  destruct (adrFile w id) as [name|] eqn:Hf; [|by wps]. apply wp_bind, wp_readDoc; [done|]. intros doc Hd. wps.
  apply negb_false_iff, bool_decide_eq_true in H0. apply IH.
  apply adrFile_unique in Hf as (num & slug & doc' & -> & Hn & Hd' & Hu); [|apply Hc].
  apply (Consistent_record _ (set_records recs w) name num slug doc); try done. by rewrite H0.
Qed.

Lemma RecordLifted_consistent ids w : Con w -> wp Con (RecordLiftedDecisions H ids) (fun _ => Con) w.
Proof.
  intros Hc. unfold RecordLiftedDecisions. wps. eapply wp_mono; [by apply wp_lifted; [|destruct w]|].
  intros r w' [-> Hr]. by apply wp_saveRecords.
Qed.

(** *** APEX's standard *)

Lemma num_0001 : is_num "0001".
Proof. split; [done|]. repeat constructor. Qed.

Lemma dst_name : adr_name StandardADRFile = Some (bs "0001", StandardADRSlug).
Proof. by vm_compute. Qed.

(** The one ADR-0001 of a plan that is not the project's own. *)
Definition one_file (w : DWorld) (old : option gostring) : Prop := glob_num w "0001" = match old with Some n => [n] | None => [] end.

Lemma one_file_only w old : one_file w old -> forall n s, adr_name n = Some (bs "0001", s) -> is_Some (dw_Docs w !! n) -> old = Some n.
Proof.
  intros Ho n s Hn Hd. pose proof (adr_name_glob w n _ s Hn Hd) as Hi. rewrite Ho in Hi.
  destruct old as [o|]; [|by apply not_elem_of_nil in Hi]. by apply list_elem_of_singleton in Hi as ->.
Qed.

Lemma standard_unrecorded w : Con w -> one_file w None -> dw_Records w !! StandardADRID = None.
Proof.
  intros Hc Ho. apply eq_None_not_Some. intros Hr. destruct (con_files _ _ Hc _ Hr) as (n & num & s & E%(adr_id_inj (bs "0001")) & Ha & Hx).
  subst num. by pose proof (one_file_only w None Ho n s Ha Hx).
Qed.

(** What planStandardADR finds of a project whose ADR-0001 is not its own. *)
Lemma plan_shared w : let pl := planStandardADR H w in sp_Action pl <> StandardDiffers ->
  one_file w (sp_old pl) /\ sp_std pl = standardADR H /\ sp_Removed pl = [] /\
  sp_doc pl = match sp_old pl with Some n => if dh_unreadable H n then [] else default [] (dw_Docs w !! n) | None => [] end /\
  sp_proposed pl = List.filter (fun s => ar_status s =s ADRProposed) (supersedersOfStandard H w) /\
  sp_OptedOutBy pl = ar_id <$> List.filter (fun s => ar_status s =s ADRAccepted) (supersedersOfStandard H w) /\
  (sp_old pl = None \/ isStandardText H (sp_doc pl) (in_doc (standardADR H)) = true \/ frameworkOwnedADR0001 w (sp_doc pl) = true) /\
  match sp_Action pl with
  | StandardCreated => sp_old pl = None /\ sp_OptedOutBy pl = []
  | StandardReplaced => is_Some (sp_old pl) /\ sp_OptedOutBy pl = [] /\ isStandardText H (sp_doc pl) (in_doc (standardADR H)) = false
  | StandardKept => is_Some (sp_old pl) /\ sp_OptedOutBy pl = [] /\ isStandardText H (sp_doc pl) (in_doc (standardADR H)) = true
  | StandardOptedOut => sp_OptedOutBy pl <> []
  | StandardDiffers => False
  end.
Proof.
  unfold planStandardADR, one_file. destruct (glob_num w "0001") as [|n [|n' l]]; cbn [length head Nat.ltb Nat.leb orb default];
    [| |cbn; by intros []].
  - rewrite !bool_decide_eq_false_2 by (by intros []). cbn [andb]. destruct (ar_id <$> _) as [|x xs]; cbn; intros _; split_and!; auto.
  - rewrite !bool_decide_eq_true_2 by eauto. cbn [andb]. set (doc := if dh_unreadable H n then [] else default [] (dw_Docs w !! n)).
    destruct (isStandardText H doc (in_doc (standardADR H))) eqn:Es; cbn [negb andb].
    + destruct (ar_id <$> _) as [|x xs]; cbn; intros _; split_and!; eauto.
    + destruct (frameworkOwnedADR0001 w doc) eqn:Ef; cbn [negb]; [|by cbn; intros []].
      destruct (ar_id <$> _) as [|x xs]; cbn; intros _; split_and!; eauto.
Qed.

(** A Supersedes: line of a decision names ADR-0001. *)
Definition names_standard (doc : gostring) : Prop := exists m, m ∈ FindAll adrSupersedesRe doc /\ group doc m 1 = StandardADRID.

Lemma names_standard_spec doc : existsb (fun m => group doc m 1 =s StandardADRID) (FindAll adrSupersedesRe doc) = true <-> names_standard doc.
Proof.
  rewrite existsb_exists. unfold names_standard. split; intros (m & Hm & Hg); exists m; (split; [by apply list_elem_of_In|]).
  - by apply bool_decide_eq_true in Hg.
  - by apply bool_decide_eq_true.
Qed.

Lemma superseder_inv w name r : r ∈ superseder H w name -> exists num slug, adr_name name = Some (num, slug) /\ num <> bs "0001" /\
  ar_name r = name /\ ar_id r = "ADR-" ++ num /\ ar_status r = adrStatus (default [] (dw_Docs w !! name)) /\
  names_standard (default [] (dw_Docs w !! name)).
Proof.
  unfold superseder. destruct (adr_name name) as [[num slug]|]; [|by intros Hi%not_elem_of_nil].
  destruct (bool_decide (num = bs "0001")) eqn:E; [by intros Hi%not_elem_of_nil|]. destruct (dh_unreadable H name); [by intros Hi%not_elem_of_nil|].
  cbn [orb]. destruct (existsb _ _) eqn:Ee; [|by intros Hi%not_elem_of_nil]. apply names_standard_spec in Ee.
  intros ->%list_elem_of_singleton. apply bool_decide_eq_false in E. exists num, slug. done.
Qed.

Lemma superseders_inv w r : r ∈ supersedersOfStandard H w -> exists num slug doc, adr_name (ar_name r) = Some (num, slug) /\ num <> bs "0001" /\
  dw_Docs w !! ar_name r = Some doc /\ ar_id r = "ADR-" ++ num /\ ar_status r = adrStatus doc /\ names_standard doc.
Proof.
  unfold supersedersOfStandard. intros (name & Hr & Hi)%list_elem_of_bind. apply superseder_inv in Hr as (num & slug & Ha & Hn & <- & Hid & Hs & Hns).
  apply elem_of_entries in Hi as [doc Hd]. rewrite Hd in Hs, Hns. exists num, slug, doc. done.
Qed.

(** Every readable decision but ADR-0001 that names the standard is one. *)
Lemma superseders_all w name num slug doc : dh_unreadable H name = false -> adr_name name = Some (num, slug) -> num <> bs "0001" ->
  dw_Docs w !! name = Some doc -> names_standard doc -> MkAdrRef ("ADR-" ++ num) name (adrStatus doc) ∈ supersedersOfStandard H w.
Proof.
  intros Hr Ha Hn Hd Hns%names_standard_spec. apply list_elem_of_bind. exists name. split; [|apply elem_of_entries; eauto].
  unfold superseder. rewrite Ha, bool_decide_eq_false_2, Hr by done. cbn [orb]. cbv zeta. rewrite Hd.
  by destruct (existsb _ _); [left|].
Qed.

Lemma Due_planRemovals p : Due (planRemovals H p) = Due p.
Proof. unfold planRemovals. by destruct (_ || _). Qed.

(** A decision a plan removes is proposed, not ADR-0001, and of the world. *)
Lemma removed_inv w : let pl := planRemovals H (planStandardADR H w) in Due pl = true ->
  planStandardADR H w = with_removed [] pl /\
  forall r, r ∈ sp_Removed pl -> sp_Action pl = StandardReplaced /\ MatchString liftedV0StandardRe (sp_doc pl) = true /\
    exists num slug doc, adr_name (ra_name r) = Some (num, slug) /\ num <> bs "0001" /\ dw_Docs w !! ra_name r = Some doc /\
      ra_ID r = "ADR-" ++ num /\ adrStatus doc = ADRProposed /\ names_standard doc.
Proof.
  set (p := planStandardADR H w). intros pl Hdue. assert (sp_Action p <> StandardDiffers) as Hne.
  { intros E. subst pl. rewrite Due_planRemovals in Hdue. unfold Due in Hdue. by rewrite E in Hdue. }
  destruct (plan_shared w Hne) as (_ & _ & Hr & _ & Hp & _). fold p in Hr, Hp. subst pl. unfold planRemovals in *.
  destruct (bool_decide (sp_Action p <> StandardReplaced)) eqn:Ea; [|destruct (MatchString liftedV0StandardRe (sp_doc p)) eqn:Em]; cbn [orb negb] in *.
  1,3: split; [destruct p; cbn in *; by subst|rewrite Hr; by intros r Hi%not_elem_of_nil].
  split; [destruct p; cbn in *; by subst|]. cbn [with_removed sp_Removed sp_Action sp_doc]. apply bool_decide_eq_false in Ea.
  assert (sp_Action p = StandardReplaced) as Ea' by (destruct (decide (sp_Action p = StandardReplaced)); [done|by destruct Ea]).
  intros r (s & -> & Hs)%list_elem_of_fmap. split_and!; [done|done|]. cbn [ra_name ra_ID]. rewrite Hp in Hs.
  rewrite list_elem_of_In, filter_In, <- list_elem_of_In in Hs. destruct Hs as [Hs Hst%bool_decide_eq_true].
  destruct (superseders_inv w s Hs) as (num & slug & doc & Ha & Hn & Hd & Hid & Hss & Hns). exists num, slug, doc. split_and!; try done. congruence.
Qed.

(** The record of the standard. *)
Definition standard_record (w : DWorld) (std : installedStandard) (cmd : gostring) (removed : option (list StandardRemoval)) : DecisionRecord :=
  let prev := match dw_Records w !! StandardADRID with
              | Some old => match dr_Standard old with Some s => std_Removed s | None => None end
              | None => None
              end in
  MkDecisionRecord (dh_now H) (StandardBy cmd) (digest H (in_doc std)) (Some (MkStandardRecord (in_version std) (dh_sha256 H (in_doc std))
    (match removed with Some r => Some (mergeRemovals prev r) | None => prev end))).

Definition recorded (w : DWorld) (rec : DecisionRecord) : DWorld := set_records (<[StandardADRID := rec]> (dw_Records w)) w.

(** The world a run of [ape decision standard] that is due and ends well leaves. *)
Definition standard_world (pl : standardPlan) (w : DWorld) : DWorld :=
  let w1 := foldr del_doc w (old_removed pl) in
  let w2 := recorded (set_doc StandardADRFile (in_doc (sp_std pl)) w1) (standard_record w (sp_std pl) "ape decision standard" (Some (removals H pl))) in
  foldl (fun w r => del_doc (ra_name r) w) w2 (sp_Removed pl).

Lemma wp_remove_adrs l (Q : unit -> DWorld -> Prop) w : Q tt (foldl (fun w r => del_doc (ra_name r) w) w l) -> wp (fun _ => True) (remove_adrs H l) Q w.
Proof.
  revert w. induction l as [|r l IH]; intros w HQ; cbn [remove_adrs]; [by wps|]. apply wp_bind, wp_fails_at; [done|]. wps. by apply IH.
Qed.

Lemma wp_apply_standard pl w : Due pl = true -> wp (fun _ => True) (applyStandardADR H pl "ape decision standard")
  (fun _ w' => w' = recorded (set_doc StandardADRFile (in_doc (sp_std pl)) (foldr del_doc w (old_removed pl)))
                 (standard_record w (sp_std pl) "ape decision standard" (Some (removals H pl)))) w.
Proof.
  intros Hd. unfold applyStandardADR. rewrite Hd. cbn [negb]. apply wp_bind.
  assert (wp (fun _ => True) (match old_removed pl with n :: _ => fails_at H RemoveOld OtherError;; modify (del_doc n) | [] => cret tt end)
    (fun _ w' => w' = foldr del_doc w (old_removed pl)) w) as Hold.
  { unfold old_removed. destruct (sp_old pl) as [n|]; [destruct (n <>s StandardADRFile)|]; cbn; try done. apply wp_bind, wp_fails_at; [done|]. by wps. }
  eapply wp_mono; [exact Hold|]. intros _ w' ->. unfold writeStandardADR, recordStandardADR. apply wp_bind, wp_fails_at; [done|].
  apply wp_bind, wp_writeDoc; [done|]. wps. apply wp_saveRecords; [done|].
  assert (dw_Records (foldr del_doc w (old_removed pl)) = dw_Records w) as Hr by (unfold old_removed; repeat split_match; done).
  unfold recorded, standard_record. cbn [set_doc dw_Records]. by rewrite Hr.
Qed.

Lemma standard_run w : wp (fun _ => True) (DecisionStandard H) (fun r w' => r.1 = planRemovals H (planStandardADR H w) /\
  w' = if Due r.1 then standard_world r.1 w else w) w.
Proof.
  unfold DecisionStandard, d_refuseOnChangeBranch, refuseDirty. apply wp_bind, wp_get. cbv zeta. apply wp_if.
  - intros Hd%negb_true_iff. wps. cbn [fst]. by rewrite Hd.
  - intros Hd%negb_false_iff. wps; [done..|]. destruct (dh_dirty H); [|by wps]. wps; [done..|].
    eapply wp_mono; [by apply wp_apply_standard|]. intros _ w' ->.
    apply wp_bind, wp_remove_adrs. wps. apply wp_commit; [done| |done]. intros sha'. wps. cbn [fst]. by rewrite Hd.
Qed.

Lemma del_docs_lookup l w n : dw_Docs (foldl (fun w r => del_doc (ra_name r) w) w l) !! n = if bool_decide (n ∈ ra_name <$> l) then None else dw_Docs w !! n.
Proof.
  revert w. induction l as [|r l IH]; intros w; cbn [foldl]; [by rewrite bool_decide_eq_false_2 by apply not_elem_of_nil|].
  rewrite IH, fmap_cons. destruct (decide (n ∈ ra_name <$> l)) as [Hi|Hi].
  - by rewrite !bool_decide_eq_true_2 by (try apply elem_of_cons; auto).
  - rewrite (bool_decide_eq_false_2 (n ∈ ra_name <$> l)) by done. cbn. destruct (decide (n = ra_name r)) as [->|Hne].
    + rewrite lookup_delete_eq, bool_decide_eq_true_2; [done|left].
    + rewrite lookup_delete_ne, bool_decide_eq_false_2; [done| |done]. by intros [|]%elem_of_cons.
Qed.

Lemma del_docs_records l w : dw_Records (foldl (fun w r => del_doc (ra_name r) w) w l) = dw_Records w.
Proof. revert w. induction l as [|r l IH]; intros w; [done|]. cbn. by rewrite IH. Qed.

Lemma standard_world_records pl w : dw_Records (standard_world pl w) =
  <[StandardADRID := standard_record w (sp_std pl) "ape decision standard" (Some (removals H pl))]> (dw_Records w).
Proof.
  unfold standard_world. rewrite del_docs_records. cbn. f_equal. unfold old_removed. by repeat split_match.
Qed.

(** The files of that world: those kept, and the standard. *)
Lemma standard_world_docs pl w n d : dw_Docs (standard_world pl w) !! n = Some d -> (n ∉ ra_name <$> sp_Removed pl) /\
  (n = StandardADRFile /\ d = in_doc (sp_std pl) \/ n <> StandardADRFile /\ sp_old pl <> Some n /\ dw_Docs w !! n = Some d).
Proof.
  unfold standard_world. rewrite del_docs_lookup. destruct (bool_decide _) eqn:E; [done|]. apply bool_decide_eq_false in E. intros Hd. split; [done|].
  change (dw_Docs (set_doc StandardADRFile (in_doc (sp_std pl)) (foldr del_doc w (old_removed pl))) !! n = Some d) in Hd.
  apply set_doc_inv in Hd as [[-> ->]|[Hne Hd]]; [by left|right]. split; [done|]. unfold old_removed in Hd.
  destruct (sp_old pl) as [o|]; [|done]. destruct (bool_decide (o = StandardADRFile)) eqn:Eo; cbn in Hd.
  - apply bool_decide_eq_true in Eo as ->. split; [congruence|done].
  - rewrite lookup_delete_Some in Hd. split; [|by destruct Hd]. destruct Hd. congruence.
Qed.

Lemma standard_world_keeps pl w n d : n ∉ ra_name <$> sp_Removed pl -> n <> StandardADRFile -> sp_old pl <> Some n -> dw_Docs w !! n = Some d ->
  dw_Docs (standard_world pl w) !! n = Some d.
Proof.
  intros Hr Hd Ho Hx. unfold standard_world. rewrite del_docs_lookup, bool_decide_eq_false_2 by done. cbn. rewrite lookup_insert_ne by done.
  unfold old_removed. destruct (sp_old pl) as [o|]; [|done]. destruct (o <>s StandardADRFile); [|done]. cbn. rewrite lookup_delete_ne; [done|congruence].
Qed.

Lemma standard_world_dst pl w : StandardADRFile ∉ ra_name <$> sp_Removed pl -> dw_Docs (standard_world pl w) !! StandardADRFile = Some (in_doc (sp_std pl)).
Proof. intros Hr. unfold standard_world. rewrite del_docs_lookup, bool_decide_eq_false_2 by done. cbn. by rewrite lookup_insert_eq. Qed.

(** What a plan that is due says of the world. *)
Lemma due_facts w pl : pl = planRemovals H (planStandardADR H w) -> Due pl = true ->
  one_file w (sp_old pl) /\ sp_std pl = standardADR H /\ (StandardADRFile ∉ ra_name <$> sp_Removed pl) /\
  (forall r, r ∈ supersedersOfStandard H w -> ar_status r <> ADRAccepted).
Proof.
  intros -> Hd. destruct (removed_inv w Hd) as [Hp Hr]. rewrite Due_planRemovals in Hd.
  assert (sp_Action (planStandardADR H w) <> StandardDiffers) as Hne by (intros E; unfold Due in Hd; by rewrite E in Hd).
  destruct (plan_shared w Hne) as (Ho & Hs & _ & _ & _ & Hout & _ & Ha).
  assert (sp_OptedOutBy (planStandardADR H w) = []) as Hno by (unfold Due in Hd; destruct (sp_Action (planStandardADR H w)); try done; naive_solver).
  rewrite Hp in Ho, Hs. split_and!; [done|done| |].
  - intros (r & E & Hi)%list_elem_of_fmap. destruct (Hr r Hi) as (_ & _ & num & slug & doc & Hn & H1 & _). rewrite <- E, dst_name in Hn. by simplify_eq.
  - intros r Hi Hst. rewrite Hno in Hout. symmetry in Hout. apply fmap_nil_inv in Hout.
    assert (r ∈ List.filter (fun s => ar_status s =s ADRAccepted) (supersedersOfStandard H w)) as Hf; [|rewrite Hout in Hf; by apply not_elem_of_nil in Hf].
    rewrite list_elem_of_In, filter_In, <- list_elem_of_In. split; [done|]. by apply bool_decide_eq_true.
Qed.

Lemma old_glob w old n : one_file w old -> old = Some n -> HasPrefix n "0001-" = true.
Proof. intros Ho ->. assert (n ∈ glob_num w "0001") as Hi by (rewrite Ho; left). by apply elem_of_glob in Hi as (_ & ? & _). Qed.

Lemma prefix_num n num slug num' : adr_name n = Some (num, slug) -> is_num num' -> HasPrefix n (num' ++ "-") = true -> num = num'.
Proof. intros (-> & Hn & _)%adr_name_inv Hn' [t Ht]%HasPrefix_spec. rewrite <- app_assoc in Ht. by apply num_unique in Ht as [-> _]. Qed.

Lemma standard_consistent w pl : Con w -> pl = planRemovals H (planStandardADR H w) -> Due pl = true -> Con (standard_world pl w).
Proof.
  intros Hc Hpl Hd. destruct (due_facts w pl Hpl Hd) as (Ho & Hs & Hdst & _). assert (Hrm := Hd). rewrite Hpl in Hrm. apply removed_inv in Hrm as [_ Hrm].
  rewrite <- Hpl in Hrm. split.
  - intros n num Hn ([d Hx] & Hp & Hsf)%elem_of_glob. apply standard_world_docs in Hx as [_ [[-> _]|(_ & _ & Hx)]].
    + exists StandardADRSlug. rewrite dst_name. by rewrite (prefix_num _ _ _ num dst_name Hn Hp).
    + apply (con_named _ _ Hc n num Hn), elem_of_glob. eauto.
  - intros id Hid. rewrite standard_world_records, lookup_insert_is_Some in Hid. destruct Hid as [<-|[Hne Hid]].
    + exists StandardADRFile, (bs "0001"), StandardADRSlug. rewrite standard_world_dst by done. eauto using dst_name.
    + destruct (con_files _ _ Hc id Hid) as (n & num & slug & -> & Ha & [d Hx]). exists n, num, slug. split_and!; [done|done|].
      exists d. apply standard_world_keeps; [| | |done].
      * intros (r & -> & Hi)%list_elem_of_fmap. destruct (Hrm r Hi) as (_ & _ & num' & slug' & doc & Ha' & H1 & Hx' & _ & Hst & _). simplify_eq.
        by apply (con_decided _ _ Hc _ _ _ _ Ha H1 Hx Hid).
      * intros ->. rewrite dst_name in Ha. simplify_eq.
      * intros E. apply Hne. unfold StandardADRID. rewrite (prefix_num n num slug "0001" Ha num_0001); [done|]. by eapply old_glob.
  - intros n num slug d rec Ha Hx Hr. rewrite standard_world_records in Hr. apply standard_world_docs in Hx as [_ [[-> ->]|(Hne & Hno & Hx)]].
    + rewrite dst_name in Ha. simplify_eq. change (bs "ADR-" ++ "0001") with StandardADRID in Hr. rewrite lookup_insert_eq in Hr. by simplify_eq.
    + rewrite lookup_insert_Some in Hr. destruct Hr as [[E%(adr_id_inj (bs "0001")) _]|[_ Hr]]; [|by eapply con_held].
      subst num. exfalso. apply Hno. by eapply one_file_only.
  - intros n num slug d Ha H1 Hx Hr. rewrite standard_world_records, lookup_insert_is_Some in Hr.
    apply standard_world_docs in Hx as [_ [[-> ->]|(Hne & Hno & Hx)]]; [rewrite dst_name in Ha; by simplify_eq|].
    destruct Hr as [E%(adr_id_inj (bs "0001"))|[_ Hr]]; [by subst|]. by eapply con_decided.
Qed.

Definition all_readable : Prop := forall n, dh_unreadable H n = false.

Lemma wp_recordStandard (I : DWorld -> Prop) std cmd removed (Q : unit -> DWorld -> Prop) w : I w -> Q tt (recorded w (standard_record w std cmd removed)) ->
  wp I (recordStandardADR H std cmd removed) Q w.
Proof. intros Hi Hq. unfold recordStandardADR. wps. by apply wp_saveRecords. Qed.

(** A record of ADR-0001 by the only file it has. *)
Lemma Consistent_standard w n s doc rec : Con w -> adr_name n = Some (bs "0001", s) -> dw_Docs w !! n = Some doc ->
  (forall n' s', adr_name n' = Some (bs "0001", s') -> is_Some (dw_Docs w !! n') -> n' = n) -> dr_BodySHA256 rec = digest H doc -> Con (recorded w rec).
Proof. intros Hc Hn Hd Hu Hr. by apply (Consistent_record _ w n "0001" s doc). Qed.

Lemma init_consistent w : all_readable -> Con w -> wp Con (initStandardADR H) (fun _ => Con) w.
Proof.
  intros Hread Hc. unfold initStandardADR. apply wp_bind, wp_get. cbv zeta. pose proof (plan_shared w) as Hp. cbv zeta in Hp.
  set (pl := planStandardADR H w) in *. destruct (sp_Action pl) eqn:Ea; try done; (destruct Hp as (Ho & Hs & _ & Hdoc & _ & _ & _ & Hact); [done|]).
  - destruct Hact as [Hold _]. rewrite Hold in Ho. pose proof (standard_unrecorded w Hc Ho) as Hr.
    assert (Con (set_doc StandardADRFile (in_doc (sp_std pl)) w)) as H1 by (by eapply Consistent_new; [|exact dst_name|]).
    unfold writeStandardADR. apply wp_bind. apply wp_bind, wp_fails_at; [done|]. apply wp_bind, wp_writeDoc; [done|].
    apply wp_recordStandard; [done|]. wps. eapply Consistent_standard; [done|exact dst_name|cbn; by rewrite lookup_insert_eq| |done].
    intros n' s' Hn' [->|Hx]%set_doc_some; [done|]. by pose proof (one_file_only w None Ho n' s' Hn' Hx).
  - destruct (dw_Records w !! StandardADRID) eqn:Er; [by wps|]. destruct Hact as ([n Hold] & _ & _). rewrite Hold in *.
    assert (n ∈ glob_num w "0001") as Hi by (rewrite Ho; left). destruct (con_named _ _ Hc n "0001" num_0001 Hi) as [slug Hn].
    apply elem_of_glob in Hi as ([d Hd] & _). rewrite Hread, Hd in Hdoc. cbn in Hdoc.
    apply wp_bind, wp_recordStandard; [done|]. wps. eapply Consistent_standard; [done|exact Hn|exact Hd| |cbn; by rewrite Hdoc].
    intros n' s' Hn' Hx. by pose proof (one_file_only w _ Ho n' s' Hn' Hx) as [= ->].
Qed.
End commands.

(** ** Histories *)

(** The commands, and a person's or a session's own writing of a decision. *)
Inductive dcommand := CNew (slug title supersedes : gostring) | CAccept (id by_ : gostring) | CLift (ids : list gostring) | CStandard | CInit
  | CWrite (name doc : gostring).

(** A command's world, and whether it ended without an error. *)
Definition dexec (H : DHost) (c : dcommand) (w : DWorld) : DWorld * bool :=
  let ok {A} (r : DWorld * (Err + A)) : DWorld * bool := (r.1, match r.2 with inl _ => false | inr _ => true end) in
  match c with
  | CNew slug title sup => ok (NewDecision H slug title sup w)
  | CAccept id by_ => ok (AcceptDecision H id by_ w)
  | CLift ids => ok (RecordLiftedDecisions H ids w)
  | CStandard => ok (DecisionStandard H w)
  | CInit => ok (initStandardADR H w)
  | CWrite name doc => (set_doc name doc w, true)
  end.

(** What a step asks of its host: at most 9999 decisions, a refused acceptance put back as
    one, init's files readable, an [ape decision standard] that is carried through; and only
    a decision without a record is written by hand. *)
Definition step_ok (H : DHost) (c : dcommand) (w : DWorld) : Prop :=
  match c with
  | CNew slug _ _ => forall m, highest slug w = Some m -> (m < 9999)%Z
  | CAccept _ _ => restores_together H
  | CLift _ => True
  | CStandard => (dexec H c w).2 = true
  | CInit => all_readable H
  | CWrite name _ => exists num slug, adr_name name = Some (num, slug) /\ dw_Records w !! ("ADR-" ++ num) = None
  end.

Definition dstep (sha : gostring -> gostring) (w w' : DWorld) : Prop :=
  exists H c, dh_sha256 H = sha /\ step_ok H c w /\ w' = (dexec H c w).1.

Lemma dstep_consistent sha w w' : dstep sha w w' -> Consistent sha w -> Consistent sha w'.
Proof.
  intros (H & c & <- & Hok & ->) Hc. destruct c; cbn [dexec step_ok fst snd] in *.
  - by apply wp_fst, NewDecision_consistent.
  - by apply wp_fst, AcceptDecision_consistent.
  - by apply wp_fst, RecordLifted_consistent.
  - pose proof (standard_run H w) as Hr. unfold wp in Hr. destruct (DecisionStandard H w) as [w' [e|[pl r]]]; [done|]. cbn in *. destruct Hr as [Hpl ->].
    destruct (Due pl) eqn:Hd; [by apply standard_consistent|done].
  - by apply wp_fst, init_consistent.
  - destruct Hok as (num & slug & Hn & Hr). by eapply Consistent_new.
Qed.

Lemma history_consistent sha w w' : rtc (dstep sha) w w' -> Consistent sha w -> Consistent sha w'.
Proof. induction 1; eauto using dstep_consistent. Qed.

(** A decision's text is what it was accepted with: project check says that it changed
    exactly when its body did. *)
Definition decided (doc : gostring) : Prop := adrStatus doc = ADRAccepted \/ HasPrefix (adrStatus doc) "superseded by " = true.

Lemma changed_exact sha H w name num slug doc rec doc' :
  dh_sha256 H = sha -> Consistent sha w -> adr_name name = Some (num, slug) -> dw_Docs w !! name = Some doc -> dw_Records w !! ("ADR-" ++ num) = Some rec ->
  num <> bs "0001" -> decided doc' -> (sha (adr_body doc') = sha (adr_body doc) -> adr_body doc' = adr_body doc) ->
  (acceptedBodyChanged H w ("ADR-" ++ num) name doc' = true <-> adr_body doc' <> adr_body doc).
Proof.
  intros <- Hc Hn Hd Hr H1 Hdec Hinj. unfold acceptedBodyChanged. rewrite Hr. rewrite (con_held _ _ Hc _ _ _ _ _ Hn Hd Hr).
  assert ((adrStatus doc' <>s ADRAccepted) && negb (HasPrefix (adrStatus doc') "superseded by ") = false) as ->.
  { destruct Hdec as [E|E]; rewrite E; [done|]. by rewrite andb_false_r. }
  assert (standardADRUnchanged H ("ADR-" ++ num) doc' rec = false) as ->.
  { unfold standardADRUnchanged. rewrite bool_decide_eq_false_2; [done|]. by intros E%adr_id_inj. }
  cbn [negb]. rewrite andb_true_r, negb_true_iff, bool_decide_eq_false. unfold digest, adrBodyDigest. split; [intros Hne E; apply Hne; by rewrite E|].
  intros Hne E. by apply Hne, Hinj.
Qed.

Lemma unchanged_own H w name num slug doc rec :
  Consistent (dh_sha256 H) w -> adr_name name = Some (num, slug) -> dw_Docs w !! name = Some doc -> dw_Records w !! ("ADR-" ++ num) = Some rec ->
  acceptedBodyChanged H w ("ADR-" ++ num) name doc = false.
Proof.
  intros Hc Hn Hd Hr. unfold acceptedBodyChanged. rewrite Hr, (con_held _ _ Hc _ _ _ _ _ Hn Hd Hr). unfold digest.
  destruct (_ && negb (HasPrefix _ _)); [done|]. by rewrite bool_decide_eq_true_2.
Qed.

Definition no_decisions : DWorld := MkDWorld ∅ ∅.

Lemma no_decisions_consistent sha : Consistent sha no_decisions.
Proof.
  split.
  - intros n num _ ([d Hd] & _)%elem_of_glob. cbn in Hd. by rewrite lookup_empty in Hd.
  - intros id [r Hr]. cbn in Hr. by rewrite lookup_empty in Hr.
  - intros n num slug d rec _ Hd. cbn in Hd. by rewrite lookup_empty in Hd.
  - intros n num slug d _ _ Hd. cbn in Hd. by rewrite lookup_empty in Hd.
Qed.

(** ** What acceptance and the standard do *)


(** A decision is accepted only by a person, on the base branch, by name, and only one that
    is proposed, well-formed and without the skeleton's placeholders, or one that already
    said accepted without a record and is unchanged since git first had it so. Its text
    keeps its body, says accepted, and is recorded with that body's digest. *)
Theorem AcceptDecision_spec (H : DHost) (id by_ : gostring) (w w' : DWorld) (res : DecisionResult) :
  AcceptDecision H id by_ w = (w', inr res) ->
  dh_person H = None /\ dh_headChange H = [] /\ TrimSpace by_ <> [] /\
  exists name doc doc', adrFile w id = Some name /\ dw_Docs w !! name = Some doc /\ dw_Docs w' !! name = Some doc' /\
    adrStatus doc' = ADRAccepted /\ adr_body doc' = adr_body doc /\
    dw_Records w' !! id = Some (MkDecisionRecord (dh_now H) (TrimSpace by_) (digest H doc) None) /\
    (adrStatus doc = ADRProposed /\ validate H name doc = [] /\ adrPlaceholdersIn doc = [] \/
     doc' = doc /\ dw_Records w !! id = None /\ acceptedBodyChanged H w id name doc = false).
Proof.
  intros Hrun. assert (wp (fun _ => True) (AcceptDecision H id by_) (fun _ w' =>
    dh_person H = None /\ dh_headChange H = [] /\ TrimSpace by_ <> [] /\
    exists name doc doc', adrFile w id = Some name /\ dw_Docs w !! name = Some doc /\ dw_Docs w' !! name = Some doc' /\
      adrStatus doc' = ADRAccepted /\ adr_body doc' = adr_body doc /\
      dw_Records w' !! id = Some (MkDecisionRecord (dh_now H) (TrimSpace by_) (digest H doc) None) /\
      (adrStatus doc = ADRProposed /\ validate H name doc = [] /\ adrPlaceholdersIn doc = [] \/
       doc' = doc /\ dw_Records w !! id = None /\ acceptedBodyChanged H w id name doc = false)) w) as Hwp; [|unfold wp in Hwp; by rewrite Hrun in Hwp].
  clear Hrun. unfold AcceptDecision, d_refuseOnChangeBranch. apply wp_bind. destruct (dh_person H); [done|]. wps; [done..|].
  apply bool_decide_eq_false in H0. apply negb_false_iff, bool_decide_eq_true in H1.
  destruct (adrFile w id) as [name|] eqn:Hf; [|by wps]. apply wp_bind, wp_readDoc; [done|]. intros doc Hd. apply wp_if; intros Hst.
  - destruct (_ && _) eqn:E; [|by wps]. apply andb_true_iff in E as [Ha%bool_decide_eq_true Hno%negb_true_iff%bool_decide_eq_false%eq_None_not_Some].
    unfold recordAcceptedDecision. wps; [done|]. apply wp_saveRecords; [done|]. wps. apply wp_commit; [done| |done]. intros sha'. wps.
    split_and!; [done|done|done|]. exists name, doc, doc. cbn. rewrite lookup_insert_eq. split_and!; try done. by right.
  - apply negb_false_iff, bool_decide_eq_true in Hst. wps; [done|done|]. apply negb_false_iff, bool_decide_eq_true in H2, H3.
    assert (nl ∉ ADRAccepted) as Hnl by (by apply (bool_decide_eq_false_1 (nl ∈ ADRAccepted))).
    unfold write_acceptance. wps. apply wp_writeDoc; [done|]. apply wp_bind, wp_saveRecords; [done|]. apply wp_bind, wp_commit; [done| |done]. intros sha'. wps.
    split_and!; [done|done|done|]. exists name, doc, (withADRStatus doc ADRAccepted). cbn. rewrite !lookup_insert_eq. split_and!; try done.
    + rewrite adrStatus_with; [done|done|]. by rewrite Hst.
    + by apply adr_body_status.
    + unfold digest. by rewrite digest_status.
    + by left.
Qed.

Lemma NoDup_singleton_all {A} (l : list A) d : NoDup l -> d ∈ l -> (forall x, x ∈ l -> x = d) -> l = [d].
Proof.
  intros Hn Hd Ha. destruct l as [|x [|y l]]; [by apply not_elem_of_nil in Hd|f_equal; apply Ha; left|]. exfalso.
  apply NoDup_cons in Hn as [Hx _]. apply Hx. rewrite (Ha x), (Ha y) by set_solver. left.
Qed.

Lemma glob_NoDup w num : NoDup (glob_num w num).
Proof.
  unfold glob_num. rewrite NoDup_ListNoDup. apply List.NoDup_filter. rewrite <- NoDup_ListNoDup. unfold entries. rewrite sort_Strings_perm. apply NoDup_elements.
Qed.

(** After a run that was due, the standard is in place. *)
Lemma standard_kept H w pl : all_readable H -> pl = planRemovals H (planStandardADR H w) -> Due pl = true ->
  sp_Action (planStandardADR H (standard_world H pl w)) = StandardKept.
Proof.
  intros Hread Hpl Hd. destruct (due_facts H w pl Hpl Hd) as (Ho & Hs & Hdst & Hacc). set (w' := standard_world H pl w).
  pose proof (standard_world_dst H pl w Hdst) as Hx. fold w' in Hx.
  assert (glob_num w' "0001" = [StandardADRFile]) as Hg.
  { apply NoDup_singleton_all; [apply glob_NoDup|apply (adr_name_glob _ _ _ _ dst_name); by rewrite Hx|].
    intros n ([d Hn] & Hp & Hsf)%elem_of_glob. apply standard_world_docs in Hn as [_ [[-> _]|(_ & Hno & Hn)]]; [done|]. exfalso. apply Hno.
    assert (n ∈ glob_num w "0001") as Hi by (apply elem_of_glob; eauto). rewrite Ho in Hi.
    destruct (sp_old pl); [by apply list_elem_of_singleton in Hi as ->|by apply not_elem_of_nil in Hi]. }
  assert (List.filter (fun s => ar_status s =s ADRAccepted) (supersedersOfStandard H w') = []) as Hno.
  { apply filter_nil_iff. intros r (n & Hr & Hi)%list_elem_of_bind. apply bool_decide_eq_false. apply (Hacc r). apply list_elem_of_bind. exists n.
    destruct (superseder_inv H w' n r Hr) as (num & slug & Ha & H1 & _). apply elem_of_entries in Hi as [d Hdoc]. assert (Hdoc' := Hdoc).
    apply standard_world_docs in Hdoc as [_ [[-> _]|(_ & _ & Hdoc)]]; [rewrite dst_name in Ha; by simplify_eq|].
    split; [|apply elem_of_entries; eauto]. unfold superseder in *. by rewrite Hdoc, <- Hdoc'. }
  unfold planStandardADR. rewrite Hg. cbn [head length Nat.ltb Nat.leb orb default]. rewrite !bool_decide_eq_true_2 by eauto. rewrite Hread, Hx. cbn [default].
  rewrite Hs. unfold isStandardText. rewrite !bool_decide_eq_true_2 by done. cbn [andb negb]. by rewrite Hno.
Qed.

(** C15: [ape decision standard], once it ends without an error, leaves nothing due: a run with
    nothing to write changes nothing, so in a project that an accepted decision opts out or
    whose ADR-0001 is its own; else ADR-0001 is the installed standard and recorded as such,
    no other record changed, no other file made, and of the other files only those were
    rewritten or removed that are ADR-0001 of the framework's making, or a proposed decision
    whose Supersedes: line names ADR-0001, where that was the earlier process's standard the
    run replaces. Every decision is taken to be readable. *)
Theorem standard_settles (H : DHost) (w w' : DWorld) (pl : standardPlan) (sha : gostring) :
  all_readable H -> DecisionStandard H w = (w', inr (pl, sha)) ->
  Due (planStandardADR H w') = false /\
  (w' = w \/
   (forall n num slug doc, adr_name n = Some (num, slug) -> num <> bs "0001" -> dw_Docs w !! n = Some doc -> names_standard doc -> adrStatus doc <> ADRAccepted) /\
   dw_Docs w' !! StandardADRFile = Some (in_doc (standardADR H)) /\
   (exists rec, dw_Records w' !! StandardADRID = Some rec /\ dr_BodySHA256 rec = digest H (in_doc (standardADR H)) /\ is_Some (dr_Standard rec)) /\
   (forall id, id <> StandardADRID -> dw_Records w' !! id = dw_Records w !! id) /\
   (forall n doc, dw_Docs w' !! n = Some doc -> n = StandardADRFile \/ dw_Docs w !! n = Some doc) /\
   (forall n doc, dw_Docs w !! n = Some doc -> dw_Docs w' !! n = Some doc \/
      n ∈ glob_num w "0001" /\ frameworkOwnedADR0001 w doc = true \/
      adrStatus doc = ADRProposed /\ names_standard doc /\ exists o old, glob_num w "0001" = [o] /\ dw_Docs w !! o = Some old /\ MatchString liftedV0StandardRe old = true)).
Proof.
  intros Hread Hrun. pose proof (standard_run H w) as Hr. unfold wp in Hr. rewrite Hrun in Hr. destruct Hr as [Hpl ->]. cbn [fst] in *.
  destruct (Due pl) eqn:Hd; [|split; [|by left]; by rewrite Hpl, Due_planRemovals in Hd].
  split; [unfold Due; by rewrite standard_kept|right]. destruct (due_facts H w pl Hpl Hd) as (Ho & Hs & Hdst & Hacc). rewrite standard_world_records.
  split_and!; [|by rewrite standard_world_dst, Hs| | | |].
  - intros n num slug doc Ha Hn1 Hn Hns. apply (Hacc (MkAdrRef ("ADR-" ++ num) n (adrStatus doc))). by eapply superseders_all.
  - eexists. rewrite lookup_insert_eq. split_and!; [done|cbn; by rewrite Hs|eauto].
  - intros id Hid. by rewrite lookup_insert_ne.
  - intros n doc [_ [[-> _]|(_ & _ & Hn)]]%standard_world_docs; [by left|by right].
  - assert (Hrm := Hd). rewrite Hpl in Hrm. apply removed_inv in Hrm as [Hwr Hrm]. rewrite <- Hpl in Hrm, Hwr.
    assert (sp_Action (planStandardADR H w) <> StandardDiffers) as Hne by (rewrite Hwr; unfold Due in Hd; cbn; by destruct (sp_Action pl)).
    destruct (plan_shared H w Hne) as (_ & _ & _ & Hdoc & _ & _ & _ & Hact). rewrite Hwr in Hdoc, Hact. cbn [with_removed sp_doc sp_old sp_Action sp_OptedOutBy] in Hdoc, Hact.
    intros n doc Hn. destruct (decide (sp_old pl = Some n)) as [Eo|Eo].
    + destruct (sp_Action pl) eqn:Ea; try done; [destruct Hact; congruence| | |]; [|by unfold Due in Hd; rewrite Ea in Hd..].
      rewrite Eo, Hread, Hn in Hdoc. cbn in Hdoc. right. left. split; [rewrite Ho, Eo; left|].
      destruct (plan_shared H w Hne) as (_ & _ & _ & _ & _ & _ & Hown & _). rewrite Hwr in Hown. cbn in Hown. destruct Hact as (_ & _ & Hst).
      destruct Hown as [E|[E|E]]; [congruence|congruence|by rewrite Hdoc in E].
    + destruct (decide (n ∈ ra_name <$> sp_Removed pl)) as [Hi|Hi].
      * apply list_elem_of_fmap in Hi as (r & -> & Hi). destruct (Hrm r Hi) as (Ea & Hm & num & slug & doc' & _ & _ & Hd' & _ & Hst & Hns). simplify_eq.
        right. right. split; [done|]. split; [done|]. rewrite Ea in Hact. destruct Hact as ([o Eo'] & _). rewrite Eo', Hread in Hdoc.
        assert (o ∈ glob_num w "0001") as Ho' by (rewrite Ho, Eo'; left). apply elem_of_glob in Ho' as ([old Hold] & _). rewrite Hold in Hdoc. cbn in Hdoc.
        exists o, old. split_and!; [by rewrite Ho, Eo'|done|congruence].
      * left. apply standard_world_keeps; [done| |done|done]. intros ->.
        assert (StandardADRFile ∈ glob_num w "0001") as Hg by (apply (adr_name_glob _ _ _ _ dst_name); eauto). rewrite Ho in Hg.
        destruct (sp_old pl); [by apply list_elem_of_singleton in Hg as <-|by apply not_elem_of_nil in Hg].
Qed.

(** ** Scenarios that check what was removed *)

(** [t] stands at [i] in [cmd] on its own, outside an assertion of absence. *)
Definition stands (cmd : gostring) (n : needle) (i : nat) : Prop :=
  HasPrefix (drop i cmd) (nd_text n) = true /\ bounded cmd i (i + length (nd_text n)) (nd_word n) = true /\ absenceAssertions cmd i = false.

(** No two occurrences that overlap both begin a word. *)
Definition apart_needle (n : needle) : Prop := nd_text n <> [] /\
  forall k b, 0 < k < length (nd_text n) -> HasPrefix (nd_text n) (drop k (nd_text n)) = true -> nd_text n !! (k - 1) = Some b -> name_byte (nd_word n) b = true.

Lemma overlap cmd t i j : HasPrefix (drop i cmd) t = true -> HasPrefix (drop j cmd) t = true -> i < j < i + length t ->
  HasPrefix t (drop (j - i) t) = true /\ cmd !! (j - 1) = t !! (j - i - 1).
Proof.
  intros [u Hu]%HasPrefix_spec [v Hv]%HasPrefix_spec Hij. split.
  - assert (drop (j - i) t ++ u = t ++ v) as E.
    { rewrite <- Hv. replace j with (i + (j - i)) at 2 by lia. rewrite <- drop_drop, Hu, drop_app_le by lia. done. }
    apply HasPrefix_spec. exists (drop (length t - (j - i)) t). apply (f_equal (take (length t - (j - i)))) in E.
    rewrite take_app_le in E by (rewrite length_drop; lia). rewrite (take_ge (drop _ _)) in E by (rewrite length_drop; lia).
    rewrite take_app_le in E by lia. rewrite E at 1. by rewrite take_drop.
  - replace (j - 1) with (i + (j - i - 1)) by lia. rewrite <- lookup_drop, Hu, lookup_app_l by lia. done.
Qed.

Lemma named_from_complete cmd n i : apart_needle n -> stands cmd n i -> forall fuel from, from <= i -> length cmd < from + fuel ->
  named_from (absenceAssertions cmd) cmd n fuel from = true.
Proof.
  intros [Hne Hap] (Hp & Hb & Ha). assert (i < length cmd) as Hlen.
  { apply HasPrefix_length in Hp. rewrite length_drop in Hp. destruct (nd_text n); [done|simpl in Hp; lia]. }
  induction fuel as [|fuel IH]; intros from Hfrom Hfuel; [lia|]. cbn [named_from]. destruct (Index (drop from cmd) (nd_text n)) as [k|] eqn:E.
  2:{ exfalso. pose proof (Index_absent _ _ E (i - from)) as Hx. rewrite drop_drop in Hx. replace (from + (i - from)) with i in Hx by lia. congruence. }
  apply Index_least in E as [Hk Hl]. rewrite drop_drop in Hk. replace (from + k) with (k + from) in Hk by lia.
  assert (k + from <= i) as Hki.
  { destruct (decide (k + from <= i)); [done|]. exfalso. specialize (Hl (i - from) ltac:(lia)). rewrite drop_drop in Hl.
    replace (from + (i - from)) with i in Hl by lia. congruence. }
  destruct (decide (k + from = i)) as [->|Hlt]; [by rewrite Hb, Ha|].
  destruct (negb _ || _) eqn:Ec; [|done]. assert (0 < length (nd_text n)) by (destruct (nd_text n); [done|simpl; lia]).
  apply IH; [|lia]. destruct (decide (k + from + length (nd_text n) <= i)); [done|]. exfalso.
  destruct (overlap cmd (nd_text n) (k + from) i Hk Hp) as [Hpre Hlook]; [lia|].
  destruct (nd_text n !! (i - (k + from) - 1)) as [b|] eqn:Eb; [|apply lookup_ge_None in Eb; lia].
  assert (name_byte (nd_word n) b = true) as Hnb by (eapply (Hap (i - (k + from))); [lia|done|done]).
  unfold bounded in Hb. apply andb_true_iff in Hb as [Hb _]. destruct i as [|i']; [lia|]. replace (S i' - 1) with i' in Hlook by lia.
  rewrite Hlook, Hnb in Hb. done.
Qed.

Lemma named_from_sound cmd n fuel : forall from, named_from (absenceAssertions cmd) cmd n fuel from = true -> exists i, stands cmd n i.
Proof.
  induction fuel as [|fuel IH]; intros from Hn; [done|]. cbn [named_from] in Hn. destruct (Index (drop from cmd) (nd_text n)) as [k|] eqn:E; [|done].
  destruct (negb _ || _) eqn:Ec; [by eapply IH|]. apply orb_false_iff in Ec as [Hb%negb_false_iff Ha]. exists (k + from).
  apply Index_least in E as [Hk _]. rewrite drop_drop, Nat.add_comm in Hk. done.
Qed.

(** A check names a needle exactly where it stands on its own. *)
Lemma namedIn_exact cmd needles n : apart_needle n -> n ∈ needles -> (forall m, m ∈ needles -> nd_text m = nd_text n -> m = n) ->
  (nd_text n ∈ namedIn cmd needles <-> exists i, stands cmd n i).
Proof.
  intros Hap Hn Hu. unfold namedIn. split.
  - intros (m & E & Hm)%list_elem_of_fmap. rewrite list_elem_of_In, filter_In, <- list_elem_of_In in Hm. destruct Hm as [Hm Hf].
    rewrite (Hu m) in Hf by done. by eapply named_from_sound.
  - intros [i Hi]. apply list_elem_of_fmap. exists n. split; [done|]. rewrite list_elem_of_In, filter_In, <- list_elem_of_In. split; [done|].
    apply (named_from_complete cmd n i); [done|done|lia|lia].
Qed.

Lemma named_in cmd needles n i : apart_needle n -> n ∈ needles -> stands cmd n i -> nd_text n ∈ namedIn cmd needles.
Proof.
  intros Hap Hn Hi. unfold namedIn. apply list_elem_of_fmap. exists n. split; [done|]. rewrite list_elem_of_In, filter_In, <- list_elem_of_In. split; [done|].
  apply (named_from_complete cmd n i); [done|done|lia|lia].
Qed.

Lemma elem_of_foldl_add {A} (add : list A -> A -> list A) l : (forall out x y, y ∈ add out x <-> y ∈ out \/ y = x) ->
  forall out y, y ∈ foldl add out l <-> y ∈ out \/ y ∈ l.
Proof.
  intros Ha. induction l as [|x l IH]; intros out y; cbn [foldl]; [set_solver|]. rewrite IH, Ha. set_solver.
Qed.

Lemma add_needle_elem out x y : y ∈ add_needle out x <-> y ∈ out \/ y = x.
Proof. unfold add_needle. destruct (bool_decide (x ∈ out)) eqn:E; [apply bool_decide_eq_true in E; set_solver|set_solver]. Qed.

Lemma add_stale_elem out x y : y ∈ add_stale out x <-> y ∈ out \/ y = x.
Proof. unfold add_stale, slices_Contains. destruct (bool_decide (x ∈ out)) eqn:E; [apply bool_decide_eq_true in E; set_solver|set_solver]. Qed.

(** mergeRemovals keeps what was recorded and adds what is new, by path. *)
Lemma mergeRemovals_paths prev now r : r ∈ now -> exists r', r' ∈ mergeRemovals prev now /\ sr_Path r' = sr_Path r.
Proof.
  intros Hr. unfold mergeRemovals. enough (exists r', r' ∈ foldl removal_step (default [] prev) now /\ sr_Path r' = sr_Path r) as (r' & Hi & E).
  { exists r'. split; [|done]. by rewrite merge_sort_Permutation. }
  assert (forall l out x, x ∈ out -> x ∈ foldl removal_step out l) as Hkeep.
  { induction l as [|y l IH]; intros out x Hx; cbn [foldl]; [done|]. apply IH. unfold removal_step. destruct (existsb _ _); set_solver. }
  generalize (default [] prev). induction now as [|y now IH]; intros out; [by apply not_elem_of_nil in Hr|]. cbn [foldl].
  apply elem_of_cons in Hr as [<-|Hr]; [|by apply IH]. unfold removal_step at 2. destruct (existsb _ out) eqn:E.
  - apply existsb_exists in E as (o & Ho%list_elem_of_In & Eo%bool_decide_eq_true). exists o. split; [by apply Hkeep|done].
  - exists r. split; [apply Hkeep; set_solver|done].
Qed.

Lemma doc_rel_cut H n : CutPrefix (doc_rel H n) (dh_decRel H ++ "/") = (n, true).
Proof. unfold doc_rel, CutPrefix. rewrite app_assoc, HasPrefix_app, drop_app_length. done. Qed.

(** A recorded removal of a file that is still gone is looked for. *)
Lemma needle_of_removal H w elsewhere removed n r : r ∈ removed -> sr_Path r = doc_rel H n -> dw_Docs w !! n = None ->
  MkNeedle (doc_rel H n) false ∈ removalNeedles H w elsewhere removed false.
Proof.
  intros Hr Hp Hd. unfold removalNeedles. apply (elem_of_foldl_add _ _ add_needle_elem). right. apply list_elem_of_bind. exists r. split; [|done].
  unfold removal_needles, fileExists. rewrite Hp, doc_rel_cut, Hd. rewrite bool_decide_eq_false_2 by (unfold doc_rel; by destruct (dh_decRel H)).
  rewrite bool_decide_eq_false_2 by (by intros []). cbn. left.
Qed.

Lemma stale_listed H w elsewhere specs removed n cap file text r sc c i :
  MkNeedle (doc_rel H n) false ∈ removalNeedles H w elsewhere removed false ->
  (cap, file, Some text) ∈ specs -> r ∈ s_Requirements (ParseSpec text) -> sc ∈ r_Scenarios r -> c ∈ sc_Checks sc ->
  apart_needle (MkNeedle (doc_rel H n) false) -> stands c (MkNeedle (doc_rel H n) false) i ->
  exists s, s ∈ staleScenarios H w elsewhere specs removed false false /\ ss_Spec s = file /\ ss_Line s = sc_Line sc /\ ss_ref s = scenarioRef cap (r_Name r) (sc_Name sc).
Proof.
  intros Hn Hsp Hr Hsc Hc Hap Hst. unfold staleScenarios. set (needles := removalNeedles H w elsewhere removed false) in *.
  assert (bool_decide (needles = []) = false) as -> by (apply bool_decide_eq_false; intros E; rewrite E in Hn; by apply not_elem_of_nil in Hn). cbn [andb].
  assert (doc_rel H n ∈ stale_names H w elsewhere needles false (sc_Checks sc)) as Hin.
  { unfold stale_names. apply (elem_of_foldl_add _ _ add_stale_elem). right. apply list_elem_of_bind. exists c. split; [|done]. apply elem_of_app. left.
    by apply (named_in c needles (MkNeedle (doc_rel H n) false) i). }
  destruct (stale_names H w elsewhere needles false (sc_Checks sc)) as [|x xs] eqn:E; [by apply not_elem_of_nil in Hin|].
  exists (MkStale file (r_Name r) (sc_Name sc) (sc_Line sc) (dropCoveredNames (x :: xs)) (scenarioRef cap (r_Name r) (sc_Name sc))).
  split; [|done]. apply list_elem_of_bind. exists (cap, file, Some text). split; [|done]. apply list_elem_of_bind. exists r. split; [|done].
  apply list_elem_of_bind. exists sc. split; [|done]. rewrite E. left.
Qed.

(** What [ape decision standard] removed, every check of a lasting spec that asks for it is
    listed: once the command has removed a decision's file, a scenario with a check in which
    the file's path stands on its own, outside an assertion of its absence, is among the
    stale scenarios, at its line. *)
Theorem removed_checks_listed (H : DHost) (w w' : DWorld) (pl : standardPlan) (sha : gostring) (elsewhere : gostring -> bool)
    (specs : list (gostring * gostring * option gostring)) n cap file text r sc c i :
  DecisionStandard H w = (w', inr (pl, sha)) -> is_Some (dw_Docs w !! n) -> dw_Docs w' !! n = None ->
  (cap, file, Some text) ∈ specs -> r ∈ s_Requirements (ParseSpec text) -> sc ∈ r_Scenarios r -> c ∈ sc_Checks sc ->
  apart_needle (MkNeedle (doc_rel H n) false) -> stands c (MkNeedle (doc_rel H n) false) i ->
  exists s, s ∈ StaleScenarios H w' elsewhere specs /\ ss_Spec s = file /\ ss_Line s = sc_Line sc /\ ss_ref s = scenarioRef cap (r_Name r) (sc_Name sc).
Proof.
  intros Hrun [d Hd] Hgone Hsp Hr Hsc Hc Hap Hst. pose proof (standard_run H w) as Hw. unfold wp in Hw. rewrite Hrun in Hw. destruct Hw as [Hpl Hw']. cbn [fst] in *.
  destruct (Due pl) eqn:Hdue; [|congruence]. destruct (due_facts H w pl Hpl Hdue) as (_ & _ & Hdst & _).
  assert (exists r0, r0 ∈ removals H pl /\ sr_Path r0 = doc_rel H n) as (r0 & Hr0 & Hp0).
  { unfold removals. destruct (decide (n ∈ ra_name <$> sp_Removed pl)) as [(x & -> & Hx)%list_elem_of_fmap|Hno].
    - exists (MkRemoval (doc_rel H (ra_name x)) (ra_ID x)). split; [apply elem_of_app; right; apply list_elem_of_fmap; by exists x|done].
    - assert (n <> StandardADRFile) as Hne by (intros ->; rewrite Hw', standard_world_dst in Hgone by done; done).
      destruct (decide (sp_old pl = Some n)) as [Ho|Ho]; [|rewrite Hw', (standard_world_keeps H pl w n d) in Hgone by done; done].
      exists (MkRemoval (doc_rel H n) StandardADRID). split; [apply elem_of_app; left|done]. apply list_elem_of_fmap. exists n. split; [done|]. unfold old_removed. rewrite Ho.
      rewrite bool_decide_eq_false_2 by done. left. }
  assert (exists l, recordedRemovals w' = (l, false) /\ exists r1, r1 ∈ l /\ sr_Path r1 = doc_rel H n) as (l & Hl & r1 & Hr1 & Hp1).
  { unfold recordedRemovals. rewrite Hw', standard_world_records, lookup_insert_eq. cbn. eexists. split; [done|]. rewrite <- Hp0. by apply mergeRemovals_paths. }
  unfold StaleScenarios. rewrite Hl. eapply stale_listed; eauto. by eapply needle_of_removal.
Qed.

(** ** A project's decisions *)

Module Sample.

Definition lower_ascii (s : gostring) : gostring :=
  (fun b => if c_upper (bz b) then match Byte.of_N (Byte.to_N b + 32) with Some u => u | None => b end else b) <$> s.

Definition adr (num title status context decision : gostring) : gostring := unlines [
  "# ADR-" ++ num ++ ": " ++ title; "Status: " ++ status; bs "Date: 2026-10-19"; []; bs "## Context"; context; [];
  bs "## Decision"; decision; []; bs "## Consequences"; bs "No server."; []; bs "Enforced by: review"].

(** A standard, as a framework's payload ships one. *)
Definition old_standard : gostring := adr "0001" "Record decisions" ADRAccepted "A choice binds." "One file each.".

(** A host where nothing fails. *)
Definition host : DHost := MkDHost lower_ascii (fun s => s) None None [] true (fun _ => false) 0 (fun _ => false)
  "2026-10-19" "2026-10-19T10:00:00Z" "development/decisions" (DCommitted "c0ffee") (fun _ => None) (fun _ => None) (Some false) (Some old_standard) (Some (bs "v1.0.0")).

(** That host in a session no person speaks in. *)
Definition session_host : DHost := MkDHost lower_ascii (fun s => s) None (Some (FailError "person.required")) [] true (fun _ => false) 0 (fun _ => false)
  "2026-10-19" "2026-10-19T10:00:00Z" "development/decisions" (DCommitted "c0ffee") (fun _ => None) (fun _ => None) (Some false) (Some old_standard) (Some (bs "v1.0.0")).

(** That host with another standard in its payload, on which [fails] fail. *)
Definition update_host (std : gostring) (fails : dsite -> bool) : DHost := MkDHost lower_ascii (fun s => s) None None [] true fails 0 (fun _ => false)
  "2026-11-19" "2026-11-19T10:00:00Z" "development/decisions" (DCommitted "c0ffee") (fun _ => None) (fun _ => None) (Some false) (Some std) (Some (bs "v1.1.0")).

Definition after (c : dcommand) (w : DWorld) : DWorld := (dexec host c w).1.

Definition sqlite (status decision : gostring) : gostring := adr "0002" "Use sqlite" status "One writer." decision.

Definition name2 : gostring := "0002-use-sqlite.md".
Definition w1 : DWorld := after CInit no_decisions.
Definition w2 : DWorld := after (CNew "use-sqlite" [] []) w1.
Definition w3 : DWorld := after (CWrite name2 (sqlite ADRProposed "Use sqlite.")) w2.
Definition w4 : DWorld := after (CAccept "ADR-0002" "Ada") w3.
Definition w5 : DWorld := after (CNew "use-postgres" [] "ADR-0002") w4.

Lemma one_step c w : step_ok host c w -> dstep (fun s => s) w (after c w).
Proof. intros Hok. by exists host, c. Qed.

Lemma few (slug : gostring) w : (match highest slug w with Some m => Z.ltb m 9999 | None => true end) = true -> forall m, highest slug w = Some m -> (m < 9999)%Z.
Proof. intros H m E. rewrite E in H. by apply Z.ltb_lt. Qed.

Lemma history : rtc (dstep (fun s => s)) no_decisions w5.
Proof.
  eapply rtc_l; [apply (one_step CInit); done|]. eapply rtc_l; [apply (one_step (CNew "use-sqlite" [] [])); cbn [step_ok]; apply few; by vm_compute|].
  eapply rtc_l; [apply (one_step (CWrite name2 (sqlite ADRProposed "Use sqlite."))); exists (bs "0002"), (bs "use-sqlite"); by split; vm_compute|].
  eapply rtc_l; [apply (one_step (CAccept "ADR-0002" "Ada")); done|].
  apply rtc_once, (one_step (CNew "use-postgres" [] "ADR-0002")). cbn [step_ok]. apply few. by vm_compute.
Qed.
End Sample.

Import Sample.


(** [AcceptDecision_spec] of that decision. *)
Lemma AcceptDecision_spec_witness : dw_Records w4 !! bs "ADR-0002" = Some (MkDecisionRecord (dh_now host) "Ada" (digest host (sqlite ADRProposed "Use sqlite.")) None).
Proof.
  change w4 with ((AcceptDecision host "ADR-0002" "Ada" w3).1).
  assert (match (AcceptDecision host "ADR-0002" "Ada" w3).2 with inr _ => true | inl _ => false end = true) as Hok by (by vm_compute).
  assert (adrFile w3 "ADR-0002" = Some name2) as Hf' by (by vm_compute).
  assert (dw_Docs w3 !! name2 = Some (sqlite ADRProposed "Use sqlite.")) as Hd' by (by vm_compute).
  destruct (AcceptDecision host "ADR-0002" "Ada" w3) as [w' [e|res]] eqn:Hrun; [discriminate Hok|]. clear Hok.
  destruct (AcceptDecision_spec _ _ _ _ _ _ Hrun) as (_ & _ & _ & name & doc & doc' & Hf & Hd & _ & _ & _ & Hr & _).
  rewrite Hf in Hf'. injection Hf' as ->. rewrite Hd in Hd'. injection Hd' as ->. exact Hr.
Defined.

(** A release changes the standard: it is replaced, and nothing is due after. *)
Definition new_standard : gostring := adr "0001" "Record architecture decisions" ADRAccepted "A choice binds." "Write it down.".
Definition update : DHost := update_host new_standard (fun _ => false).

Lemma standard_settles_witness : exists w' pl sha, DecisionStandard update w5 = (w', inr (pl, sha)) /\
  sp_Action pl = StandardReplaced /\ Due (planStandardADR update w') = false /\ dw_Docs w' !! StandardADRFile = Some new_standard.
Proof.
  assert (match (DecisionStandard update w5).2 with inr (p, _) => bool_decide (sp_Action p = StandardReplaced) | inl _ => false end = true) as Ha by (by vm_compute).
  assert (dw_Docs (DecisionStandard update w5).1 !! StandardADRFile = Some new_standard) as Hd by (by vm_compute).
  destruct (DecisionStandard update w5) as [w' [e|[pl sha]]] eqn:Hrun; [discriminate Ha|]. apply bool_decide_eq_true in Ha.
  destruct (standard_settles update w5 w' pl sha (fun _ => eq_refl) Hrun) as [Hdue _]. exists w', pl, sha.
  exact (conj eq_refl (conj Ha (conj Hdue Hd))).
Defined.

(** A lifted project: ADR-0001 is the earlier process's standard, and a lasting spec checks
    that it says what it is. *)
Definition lifted_name : gostring := "0001-use-markdown-adrs.md".
Definition lifted : DWorld := MkDWorld
  {[lifted_name := unlines [bs "# ADR-0001: Use Markdown ADRs"; bs "Status: accepted"; bs "Date: 2026-01-01"; [];
      bs "Lifted from: ADR-0002, governance/adrs/adr-0002_use-markdown-adrs.md at 1a2b3c"; []]]} ∅.
Definition records_spec : gostring := unlines [bs "# Spec: records"; []; bs "## Purpose"; bs "Records."; [];
  bs "## Requirements"; []; bs "### Requirement: Decisions are kept"; bs "The project SHALL keep its decisions."; [];
  bs "#### Scenario: The first one is Markdown"; bs "- WHEN it is read"; bs "- THEN it says so";
  bs "- check: grep -q Markdown development/decisions/0001-use-markdown-adrs.md"].
Definition lasting_specs : list (gostring * gostring * option gostring) := [(bs "records", bs "development/specs/records/spec.md", Some records_spec)].

Definition apart_check (n : needle) : bool :=
  let t := nd_text n in
  bool_decide (t <> []) && forallb (fun k => negb (HasPrefix t (drop k t)) || match t !! (k - 1) with Some b => name_byte (nd_word n) b | None => true end) (seq 1 (length t - 1)).

Lemma apart_check_ok n : apart_check n = true -> apart_needle n.
Proof.
  unfold apart_check. intros [Hne%bool_decide_eq_true Hf]%andb_true_iff. split; [done|]. intros k b Hk Hp Hb. rewrite forallb_forall in Hf.
  specialize (Hf k). rewrite Hp, Hb in Hf. apply Hf, in_seq. lia.
Qed.

Lemma removed_checks_listed_witness :
  exists s, s ∈ StaleScenarios host (DecisionStandard host lifted).1 (fun _ => false) lasting_specs /\ ss_Spec s = bs "development/specs/records/spec.md".
Proof.
  set (r := nth 0 (s_Requirements (ParseSpec records_spec)) (MkRequirement [] 0 [] [] [])).
  set (sc := nth 0 (r_Scenarios r) (MkScenario [] 0 [] [] [] [])). set (c := nth 0 (sc_Checks sc) []).
  assert (r ∈ s_Requirements (ParseSpec records_spec)) as Hr by (apply (bool_decide_eq_true_1 (_ ∈ _)); by vm_compute).
  assert (sc ∈ r_Scenarios r) as Hsc by (apply (bool_decide_eq_true_1 (_ ∈ _)); by vm_compute).
  assert (c ∈ sc_Checks sc) as Hc by (apply (bool_decide_eq_true_1 (_ ∈ _)); by vm_compute).
  assert (match (DecisionStandard host lifted).2 with inr _ => true | inl _ => false end = true) as Hok by (by vm_compute).
  assert (dw_Docs (DecisionStandard host lifted).1 !! lifted_name = None) as Hgone by (by vm_compute).
  assert (apart_needle (MkNeedle (doc_rel host lifted_name) false)) as Hap by (apply apart_check_ok; by vm_compute).
  assert (stands c (MkNeedle (doc_rel host lifted_name) false) 17) as Hst by (split_and!; by vm_compute).
  destruct (DecisionStandard host lifted) as [w' [e|[pl sha]]] eqn:Hrun; [discriminate Hok|].
  destruct (removed_checks_listed host lifted w' pl sha (fun _ => false) lasting_specs lifted_name "records" "development/specs/records/spec.md" records_spec r sc c 17
    Hrun) as (s & Hs & Hsp & _); [by eexists|exact Hgone|left|exact Hr|exact Hsc|exact Hc|exact Hap|exact Hst|].
  exists s. exact (conj Hs Hsp).
Defined.

(** ** What goes wrong *)

Definition error_of {W A} (r : W * (Err + A)) : option Err := match r.2 with inl e => Some e | inr _ => None end.

(** Every line that begins with "Status:" is taken for the status: accepting a decision whose
    context says so rewrites that sentence, and a later edit of it is not reported. *)
Theorem status_prose_lost :
  let red status := adr "0002" "Use sqlite" status "Status: red in production since May." "Use sqlite." in
  let w := (AcceptDecision host "ADR-0002" "Ada" (set_doc name2 (red ADRProposed) w2)).1 in
  dw_Docs w !! name2 = Some (adr "0002" "Use sqlite" ADRAccepted "Status: accepted" "Use sqlite.") /\
  acceptedBodyChanged host w "ADR-0002" name2 (adr "0002" "Use sqlite" ADRAccepted "Status: green since June, this is not needed." "Use sqlite.") = false.
Proof. split; by vm_compute. Qed.

(** A project that opted out of the standard by an accepted decision of its own. *)
Definition own_rule (status : gostring) : gostring := unlines [
  bs "# ADR-0002: Own rule"; "Status: " ++ status; bs "Date: 2026-10-19"; bs "Supersedes: ADR-0001"; []; bs "## Context"; bs "We keep an index."; [];
  bs "## Decision"; bs "Decisions are in one file."; []; bs "## Consequences"; bs "One file."; []; bs "Enforced by: review"].
Definition opted_out : DWorld :=
  after (CAccept "ADR-0002" "Ada") (after (CWrite "0002-own-rule.md" (own_rule ADRProposed)) (after (CNew "own-rule" [] "ADR-0001") w1)).

(** A session no person speaks in undoes the opt-out: superseding the decision by one that is
    only proposed takes its acceptance away, and the next release's standard replaces
    ADR-0001. *)
Theorem opt_out_undone :
  sp_Action (planStandardADR update opted_out) = StandardOptedOut /\
  error_of (AcceptDecision session_host "ADR-0002" "Ada" opted_out) = Some (FailError "person.required") /\
  error_of (NewDecision session_host "own-rule-again" [] "ADR-0002" opted_out) = None /\
  let w := (NewDecision session_host "own-rule-again" [] "ADR-0002" opted_out).1 in
  sp_Action (planStandardADR update w) = StandardReplaced /\ error_of (DecisionStandard update w) = None /\
  dw_Docs (DecisionStandard update w).1 !! StandardADRFile = Some new_standard.
Proof. split_and!; by vm_compute. Qed.

(** init reports a project that opted out as one whose ADR-0001 is its own. *)
Theorem init_calls_opt_out_differs : (initStandardADR host opted_out).2 = inr StandardDiffers /\ sp_Action (planStandardADR host opted_out) = StandardOptedOut.
Proof. split; by vm_compute. Qed.

(** A run of [ape decision standard] whose save of decisions.json fails leaves the new text
    under the old record: project check reports ADR-0001 as edited, and another run finds
    the standard in place and repairs nothing. *)
Theorem standard_torn :
  let torn := DecisionStandard (update_host new_standard (fun s => match s with SaveRecords => true | _ => false end)) w5 in
  error_of torn = Some OtherError /\
  acceptedBodyChanged update torn.1 StandardADRID StandardADRFile new_standard = true /\
  sp_Action (planStandardADR update torn.1) = StandardKept /\ error_of (DecisionStandard update torn.1) = None /\
  acceptedBodyChanged update (DecisionStandard update torn.1).1 StandardADRID StandardADRFile new_standard = true.
Proof. split_and!; by vm_compute. Qed.

(** The decision after ADR-9999 gets five digits: no command finds it, its own check refuses
    its name, and so does the number of the one after it. *)
Theorem number_overflow :
  let w := (NewDecision host "one-more" [] [] (set_doc "9999-last.md" (adr "9999" "Last" ADRProposed "One writer." "Stop.") w1)).1 in
  let name := bs "10000-one-more.md" in
  is_Some (dw_Docs w !! name) /\ adrFile w "ADR-10000" = None /\ validate host name (default [] (dw_Docs w !! name)) <> [] /\
  match (NewDecision host "another" [] [] w).2 with inr r => de_ID r = bs "ADR-10000" | inl _ => False end.
Proof. split_and!; [by eexists; vm_compute|by vm_compute|by vm_compute|by vm_compute]. Qed.
